(* ===== verification/_CoqProject ===== *)
-Q . S2P
Prelude.v
Libc.v
Arrays.v
Loops.v
CFloat.v
Frames.v
Sql.v
CStrings.v
Paths.v
PacketBuffer.v
TimestampManager.v
StreamState.v
ShutdownCoordinator.v
Telemetry.v
BatchDelete.v
Auth.v
HttpMessage.v
Urls.v
HttpUtils.v
ZoneFilter.v
MotionRegions.v
MotionDetection.v
UnifiedDetection.v
Recordings.v
Storage.v
Accounts.v
AccountLogin.v
RecordingList.v
Json.v
Totp.v
Login.v
LoginSafety.v
Users.v
RecordingRequests.v
HttpWire.v
Connection.v
ConnectionSafety.v
Dispatch.v
FileRequests.v
FileTransfer.v
MotionEvents.v
YamlRedact.v
MigrationSql.v
Migrations.v
EmbeddedMigrations.v
