(* ===== verification/Prelude.v ===== *)
(** * LightNVR: a verification library

    LightNVR is a network video recorder in C: it reads camera streams, keeps
    the packets before a detection in memory, records, and serves a web
    interface.  The library models the parts of it that carry its own logic as
    functions on explicit state, and proves what they are for.  Video decoding,
    muxing, SQL and the network are other people's libraries; the code that only
    drives them is left out.

    ** Parts and files

    - [Prelude]: integers at their width, C strings, the search loop
      [find_idx], tactics and the hint database [nvr].
    - [Libc]: routines of the C library on strings: [strtol], [strtok_r],
      [strchr], [strrchr], [strcasecmp].
    - [Arrays], [Loops], [CFloat]: arrays updated by index and rings over them;
      counted loops as folds, with their invariants; the arithmetic of [float] and
      [double], by the executable IEEE specification.
    - [CStrings]: [src/utils/strings.c].  Byte memory; an access outside the
      array is [None].  The bounded copies and trims, and the same functions on
      strings, which the other files use.
    - [Paths], [Urls]: [src/core/path_utils.c] and [url_utils.c].  Names of streams,
      directories and their permissions over the classes [Directories] and
      [Permissions]; percent coding and credentials in URLs, over the class [Curl].
    - [PacketBuffer]: [src/video/packet_buffer.c].  The ring of packets before a
      detection and the pool of buffers, over an interface for the packet
      allocator of FFmpeg ([PacketHeap]).  Abstractly a buffer is a queue:
      [represents] relates the two.
    - [TimestampManager]: [src/video/timestamp_manager.c].  The table of
      per-stream trackers, found by name.
    - [StreamState]: [src/video/stream_state.c].  The state of every stream:
      creation, start and stop, errors and reconnection, references, features.
      Each operation is given whole, and as the sequence of its locked sections,
      which the step relation interleaves between threads.
    - [ShutdownCoordinator]: [src/core/shutdown_coordinator.c].  Registration of
      components and their shutdown by priority.
    - [Telemetry]: Modules [PlayerTelemetry] and [StreamMetrics], for
      [src/telemetry/player_telemetry.c] and [stream_metrics.c].
    - [BatchDelete]: [src/web/batch_delete_progress.c].  The job table.
    - [Auth]: the decisions of [src/database/db_auth.c] that do not go through
      SQLite: CIDR allow-lists, tag restrictions, hexadecimal coding.
    - [Sql]: what SQL leaves open (the class [Sqlite]: the order of equal keys)
      and what may become of a statement.
    - [Accounts]: the tables of users, sessions and trusted devices, and every
      operation of [src/database/db_auth.c] on them.  Statements are values with
      one semantics; [runs] says which of them an operation may execute, and a
      history is a list of [call]s.
    - [ZoneFilter]: [src/video/zone_filter.c].  Polygons, class and confidence
      filters over detections, and the mask of the motion grid.
    - [Frames], [MotionRegions], [MotionDetection]: [src/video/motion_detection.c].
      The arithmetic on frames (grey levels, scaling, blur, background, grid); the
      clustering of moving cells; the table of streams and [detect_motion] over a
      [Heap] that may fail, where an access outside a buffer is [None].
    - [UnifiedDetection]: [src/video/unified_detection_thread.c].  The thread
      that decides when to record.  What it does to files, the database and the
      metrics is a list of effects; the pre-detection buffer is the class
      [PreBuffer], which [PacketBuffer] implements.
    - [Recordings]: the table of recordings of [src/database/db_recordings.c].
      Its statements, and the queries that choose what to delete.
    - [RecordingList]: the filters and pages of the same file and the handler
      of [src/web/api_handlers_recordings_list.c] that asks for them.
    - [Storage]: [src/storage/storage_manager.c].  The controller thread and its
      cleanups as runs on a [world] (table, disk, health record, log of
      actions), over the class [FileSystem]; a program logic for such runs,
      partial ([wlp]) and total ([wp]).
    - [HttpMessage]: [src/web/request_response.c].  Headers, query and path
      parameters, responses.
    - [HttpUtils]: [src/web/httpd_utils.c].  Who a request is from: the client
      behind trusted proxies, cookies, credentials, and the access decision,
      over the class [AuthStore]; [AuthStore] is implemented by [Accounts] in
      [AccountLogin].
    - [Json]: bodies in JSON, over the class [CJson].
    - [Totp]: [src/web/api_handlers_totp.c].  Base32, the codes of the second factor
      over the class [Hmac], and the handlers that set it up.
    - [Login], [LoginSafety]: [src/web/api_handlers_auth_backend_agnostic.c].  The
      table of failed attempts, the login by form and by JSON with its second step,
      logout, sessions and devices; and what a login proves.
    - [Users]: [src/web/api_handlers_users_backend_agnostic.c].  The accounts as
      their handlers list, create, change and delete them.
    - [RecordingRequests]: the handlers of [src/web/api_handlers_recordings_*.c] and, for
      recordings, of [api_handlers_retention.c], with the worker that deletes many.  Their
      state is a [server]: the [world] of [Storage], the jobs of [BatchDelete], the
      accounts, and the workers started.
    - [HttpWire]: what goes over the wire: the serialisation of
      [src/web/libuv_response.c], and the [Range] header, the types and the head
      of a response that serves a file, from [src/web/libuv_file_serve.c].
    - [Connection]: the callbacks of [src/web/libuv_connection.c],
      [libuv_file_serve.c] and [libuv_response.c] on one connection, and the
      delivery of [go2rtc_proxy_thread.c].  A callback is a run of the monad
      [M]; what it hands to libuv is a list of outstanding operations, and
      [handle] takes whichever completes next.  The parser is llhttp: an input
      event carries the calls it makes.
    - [ConnectionSafety], [Dispatch], [FileTransfer]: theorems on
      [Connection]: no use after free and one operation in charge; routing of
      requests; the bytes of a file.
    - [FileRequests]: the handlers that make a path from a request (HLS files, snapshots,
      the log), and where their paths and those of static files lead.
    - [MotionEvents]: [src/video/cross_stream_motion_trigger.c] and
      [src/web/api_handlers_motion.c]: who is notified of a motion, and the
      pulses that end it; both reach the threads of [UnifiedDetection].
    - [YamlRedact]: [src/utils/yaml_redact.c].  A machine over the events of the
      parser, and what it does to a document as a function on its tree.

    - [MigrationSql], [Migrations]: [src/database/sqlite_migrate.c] and
      [db_migrations.c].  The text of migrations: names, sections, allow-list,
      splitting; then the list of migrations and the runs, over the classes [Sqlite3]
      and [Transactions] (what is stored, what the connection sees) and
      [MigrationFiles].
    - [EmbeddedMigrations]: [include/database/db_embedded_migrations.h], the migrations
      of the program, line by line.

    The stream state manager calls the timestamp trackers, and the services it
    drives through the class [StreamServices]; [HttpUtils] calls
    [HttpMessage], [Auth] and [CStrings]; [Storage] calls [Recordings], and [Accounts]
    calls [Auth]; all else meets through the interfaces.
    A C function keeps its name.  Its [return -1] is an error value or [None];
    a pointer into a table is an index; a global is a record that the function
    takes and returns.  Where a function is long, its parts (a loop, a locked
    section) are definitions of their own, composed in the order of the code.

    ** What is shown

    - Safety of the packet buffer: any sequence of operations keeps the ring
      well formed, its counters equal to the contents, and every packet released
      exactly once; each operation refines the queue; the window is bounded.
    - Streams: no interleaving of the locked sections leaves callbacks disabled
      or a stream between two states when every thread has finished; reference
      counts agree with the total; start, stop and error handling on every
      branch, including what a stop that overlaps a start can lose.
    - Recordings: in every run of the thread, and whatever other threads do
      between its turns, a file is created, entered, written and closed once and
      its entry completed, one file at a time; a recording starts with the
      pre-buffer, takes every packet once, and ends when nothing is detected.
    - The table of recordings: ids stay unique and are never given out twice,
      whatever statements run or fail; a recording reads back as it was added.
    - Storage: no run of the controller, with any failures, touches a recording
      that is protected or incomplete; where nothing fails the retention policy
      and the tier loop end and leave nothing expired, a quota holds or nothing
      is left to delete, and what went came first in the order of priority; an
      emergency cleanup deletes nothing after the disk has recovered.  Also what
      goes wrong: a loop that never ends, a failed query that empties a stream.
    - Shutdown: components stop in order of priority; the counts and states
      stay consistent over every sequence of operations.
    - Access: a request is one of a user only with a confirmed credential and
      from an allowed address; an address matches a CIDR entry exactly when the
      leading bits agree; normalizing an allow-list preserves what it grants;
      forwarded headers count only behind trusted proxies.
    - Accounts: in every history of calls the tables hold together; a revoked
      session stays revoked, and none outlives the lifetime it was created with;
      a password that was set is the one that logs in; cleaning up cannot be
      noticed; a request answered with a user has the credential of an active
      row.
    - Login: a session is made only for the name and password of an active row, from
      an address it allows, with its second factor proved unless the request is a form
      or the row could not be read; failed attempts for a name are counted and lock it
      out while the table has room; a secret reads back from its base32 text.  Also
      what goes wrong: the token of the pending second step is a session by itself,
      and made-up names empty the table.
    - Users: only an administrator's request gives rights or makes and deletes
      accounts, any other changes the row of its own user alone; a deletion leaves an
      administrator (an update need not).
    - Listings: the pages are the matching recordings, each once and in order;
      a user restricted by tags is shown permitted streams only, as long as the
      check and the filter read the stream parameter alike, and there is a
      parameter that they do not.
    - Requests about recordings: but for the one that names a file, only those of a user
      with the role for it delete anything; a batch deletes exactly what it lists and its
      job ends with the counts.  Also what goes wrong: the request that names a file
      removes any file for anybody, and tags do not stop playback.
    - Paths and URLs: a request for an HLS file or a snapshot leads to no place outside
      its directory, one for a static file to any; what is escaped or put into a URL as
      credentials is read back; a directory is there after it was made.
    - Web server: under any order of completions a connection is used by one
      operation at a time and never after it is freed, as long as ranges are
      served and heads are written; what happens where they are not.  Routes
      match segment by segment; a file is sent exactly, in its range, and the
      response is the bytes its headers announce.
    - Motion events: a motion reaches every linked stream, and only those; a
      pulse does not cut short a start that comes after it, and the orders in
      which another thread can.
    - Redaction: the masked document differs only in values, and no password of
      a stream is readable in it, aliases apart.
    - Motion detection: what is reported are the connected regions of cells that
      changed, with their boxes; without failed allocations no call goes outside a
      buffer.  Also what goes wrong: a change of the grid size ends the detection, the
      background rounds down, the first frame is not blurred.
    - Migrations: each is stored as a whole or not at all; a run applies the pending ones
      in the order of their versions up to the first that fails, and a second run
      nothing; only statements of the allow-list reach SQLite, as far as single quotes
      go; the 42 migrations of the program meet what the runner relies on.
    - Tables and rings: names stay unique, lookups find what was stored, and
      the snapshots of the rings are the newest entries in order.
    - Strings: copies are bounded, terminated and truncated; trims, query
      parameters, cookies, Basic credentials and hexadecimal read back what was
      written.
    Some theorems state what the code does where it does not do what its
    comments say: see the lemmas whose comments speak of an overrun, a leak, a
    stale value or an address that is not looked at.

    ** Loops, fuel and time

    Loops over arrays are structural.  Where the code iterates until a state is
    reached, the bound is an argument computed from the input and a lemma shows
    that it suffices: the eviction and flush loops of the packet buffer run
    [count] times; releasing a buffer, [max_packets] times; the scans of tag
    lists, query strings and cookies, at most once per character.  The waits of
    stream stops and of the shutdown take the list of what they will observe.
    The loops of the cleanups take fuel, one more than there are recordings
    being enough, since a full batch makes the table smaller; when it does not,
    no fuel is, which is the theorem on the tier loop.
    The flood fill over the cells of the grid takes one turn per cell and one more; the
    scanners of SQL, one per character.
    Clocks, random bytes, the results of allocation and the addresses of the C
    library are arguments or type classes whose laws are documented behaviour;
    each is instantiated where a theorem is applied to an example.

    Unsigned integers wrap at their width.  Signed ones are unbounded, and the
    theorems give the ranges they need.

    ** Not modelled

    Locks as such (a locked section is one step), data races of the unlocked
    counters, logging, and everything that only moves data between libraries:
    FFmpeg pipelines, ONVIF and go2rtc clients, and the SQL statements but for
    those on recordings, accounts and versions of the schema.  The hashes of mbedTLS are the class
    [Crypto].  The operations of [Accounts] run one after the other, each whole.
    Other threads may change the database between a query and the deletion of
    what it returned: the runs of [Storage] are those of the controller alone.
    A connection of the web server is followed alone; the thread of the loop and
    its restarts are left out, and so are the JSON handlers that only read a table and
    print it, MP4 and HLS writing, process control, and the configuration file: they are
    sequences of calls of libraries, with no state of their own to keep right. *)
From Stdlib Require Import ZArith Lia Bool.
From Stdlib Require Import Strings.Byte.
From stdpp Require Import base numbers list strings gmap pretty.

#[local] Open Scope Z_scope.

(** ** Fixed-width integers

    [uint64_t], [size_t] and [unsigned int] wrap; [int], [int64_t] and
    [time_t] are signed, whose overflow is undefined in C, so they are kept as
    unbounded [Z] and the theorems state the range in which the program stays. *)

Definition u8 (z : Z) : Z := z `mod` 2 ^ 8.
Definition u32 (z : Z) : Z := z `mod` 2 ^ 32.
Definition u64 (z : Z) : Z := z `mod` 2 ^ 64.
Definition INT32_MAX : Z := 2147483647.

(** [(int) z]: conversion of a wider integer to 32 bits, two's complement. *)
Definition s32 (z : Z) : Z := (z + 2 ^ 31) `mod` 2 ^ 32 - 2 ^ 31.

Definition s64 (z : Z) : Z := (z + 2 ^ 63) `mod` 2 ^ 64 - 2 ^ 63.

(** [AV_NOPTS_VALUE] of libavutil: [INT64_MIN]. *)
Definition AV_NOPTS_VALUE : Z := - 2 ^ 63.

(** Truncating division and remainder of C on [int]. *)
Definition cdiv (a b : Z) : Z := Z.quot a b.
Definition cmod (a b : Z) : Z := Z.rem a b.

(** Constants of [include/core/config.h]. *)
Definition MAX_PATH_LENGTH : nat := 512.
Definition MAX_STREAM_NAME : nat := 256.
Definition MAX_STREAMS : nat := 256.

(** ** Characters and C strings *)

#[global] Instance byte_eq_dec : EqDecision byte := Byte.byte_eq_dec.

(** A C string, as the bytes before its terminator. *)
Abbreviation cstr := (list byte).

(** A string literal of the source. *)
Definition lit (s : string) : cstr := String.list_byte_of_string s.

Definition byte_Z (c : byte) : Z := Z.of_N (Byte.to_N c).

(** [(char) z] or [(unsigned char) z]: conversion to 8 bits. *)
Definition Z_byte (z : Z) : byte :=
  default Byte.x00 (Byte.of_N (Z.to_N (u8 z))).

(** [%d] *)
Definition decimal (n : Z) : cstr := lit (pretty n).

(** [%02x] *)
Definition hex_digit (n : Z) : byte := default Byte.x30 (lit "0123456789abcdef" !! Z.to_nat n).
Definition hex2 (b : byte) : cstr :=
  [hex_digit (Z.shiftr (byte_Z b) 4); hex_digit (Z.land (byte_Z b) 15)].

(** [strcmp (s, t) == 0]. *)
Definition streq (s t : cstr) : bool := bool_decide (s = t).

(** What [safe_strcpy] leaves in a [char dst[n]] (refined at the level of
    memory in [CStrings]). *)
Definition strcpy_trunc (n : nat) (s : cstr) : cstr := take (n - 1) s.

(** The strings a [char *] can denote contain no terminator. *)
Definition no_nul (s : cstr) : Prop := Byte.x00 ∉ s.

(** ** First index of an array that satisfies a test

    The shape of every [for (i = 0; i < N; i++) if (..) { ..; break; }]. *)
Fixpoint find_idx {A} (p : A → bool) (l : list A) : option nat :=
  match l with
  | [] => None
  | x :: l => if p x then Some O else S <$> find_idx p l
  end.

(** [for (i = 0; i < N; i++) if (p (a[i])) n++]. *)
Fixpoint count_if {A} (p : A → bool) (l : list A) : nat :=
  match l with
  | [] => O
  | x :: l => if p x then S (count_if p l) else count_if p l
  end.

(** ** Tactics *)

(** Split every [if]/[match] scrutinee of the goal, then simplify. *)
Ltac case_all := repeat (case_match; simplify_eq/=; try done).

(** Turn the boolean tests of the code into propositions. *)
Ltac unbool :=
  repeat match goal with
  | H : (_ && _) = true |- _ => apply andb_true_iff in H; destruct H
  | H : (_ || _) = false |- _ => apply orb_false_iff in H; destruct H
  | H : negb _ = true |- _ => apply negb_true_iff in H
  | H : negb _ = false |- _ => apply negb_false_iff in H
  | H : bool_decide _ = true |- _ => apply bool_decide_eq_true in H
  | H : bool_decide _ = false |- _ => apply bool_decide_eq_false in H
  | H : (_ =? _) = true |- _ => apply Z.eqb_eq in H
  | H : (_ =? _) = false |- _ => apply Z.eqb_neq in H
  | H : (_ <? _) = true |- _ => apply Z.ltb_lt in H
  | H : (_ <? _) = false |- _ => apply Z.ltb_ge in H
  | H : (_ <=? _) = true |- _ => apply Z.leb_le in H
  | H : (_ <=? _) = false |- _ => apply Z.leb_gt in H
  | H : (_ >? _) = true |- _ => apply Z.gtb_lt in H
  | H : (_ >? _) = false |- _ => rewrite Z.gtb_ltb in H; apply Z.ltb_ge in H
  | H : (_ >=? _) = true |- _ => apply Z.geb_le in H
  | H : (_ >=? _) = false |- _ => rewrite Z.geb_leb in H; apply Z.leb_gt in H
  | H : streq _ _ = true |- _ => apply bool_decide_eq_true in H
  | H : streq _ _ = false |- _ => apply bool_decide_eq_false in H
  end.

(** Linear arithmetic with division and remainder by constants. *)
Ltac divlia := Z.to_euclidean_division_equations; lia.

(** Evaluate a decidable proposition about closed terms. *)
Ltac solve_no_nul := unfold no_nul; by apply (bool_decide_unpack _); vm_compute.

(** ** Lemmas on integers *)

Lemma u64_range z : 0 ≤ u64 z < 2 ^ 64.
Proof. apply Z.mod_pos_bound; lia. Qed.

Lemma u64_small z : 0 ≤ z < 2 ^ 64 → u64 z = z.
Proof. intros; by apply Z.mod_small. Qed.

Lemma u64_add_l a b : u64 (u64 a + b) = u64 (a + b).
Proof. unfold u64. by rewrite Zplus_mod_idemp_l. Qed.

Lemma u64_sub_l a b : u64 (u64 a - b) = u64 (a - b).
Proof. unfold u64. by rewrite Zminus_mod_idemp_l. Qed.

Lemma s32_small z : - 2 ^ 31 ≤ z < 2 ^ 31 → s32 z = z.
Proof. intros. unfold s32. rewrite Z.mod_small; lia. Qed.

Lemma fmap_sublist {A B} (f : A → B) (l l' : list A) : l `sublist_of` l' → f <$> l `sublist_of` f <$> l'.
Proof. induction 1; cbn; by constructor. Qed.

Lemma s64_small z : - 2 ^ 63 ≤ z < 2 ^ 63 → s64 z = z.
Proof. intros. unfold s64. rewrite Z.mod_small; lia. Qed.

Lemma u8_range z : 0 ≤ u8 z < 256.
Proof. apply Z.mod_pos_bound; lia. Qed.

Lemma byte_Z_range c : 0 ≤ byte_Z c < 256.
Proof.
  unfold byte_Z. pose proof (Byte.to_N_bounded c) as H. lia.
Qed.

Lemma Z_byte_byte_Z c : Z_byte (byte_Z c) = c.
Proof.
  unfold Z_byte, u8. rewrite Z.mod_small by (pose proof (byte_Z_range c); lia).
  unfold byte_Z. rewrite N2Z.id, Byte.of_to_N. done.
Qed.

Lemma byte_Z_Z_byte z : byte_Z (Z_byte z) = u8 z.
Proof.
  unfold Z_byte, byte_Z. pose proof (u8_range z) as Hr.
  destruct (Byte.of_N (Z.to_N (u8 z))) as [c|] eqn:E; simpl.
  - apply Byte.to_of_N in E. rewrite E. lia.
  - apply Byte.of_N_None_iff in E. lia.
Qed.

Lemma byte_Z_inj c d : byte_Z c = byte_Z d → c = d.
Proof. intros H. by rewrite <-(Z_byte_byte_Z c), <-(Z_byte_byte_Z d), H. Qed.

(** ** Lemmas on arrays *)

Section find_idx.
Context {A : Type} (p : A → bool).

Lemma find_idx_Some l i :
  find_idx p l = Some i ↔
  ∃ x, l !! i = Some x ∧ p x = true ∧
       ∀ j y, (j < i)%nat → l !! j = Some y → p y = false.
Proof.
  revert i. induction l as [|x l IH]; intros i; simpl.
  { split; [done|]. intros (?&?&?). done. }
  destruct (p x) eqn:Hp.
  - split.
    + intros [= <-]. exists x. repeat split; [done|]. intros; lia.
    + intros (y & Hy & Hpy & Hmin). destruct i as [|i]; [done|].
      specialize (Hmin O x ltac:(lia) eq_refl). congruence.
  - rewrite fmap_Some. split.
    + intros (k & Hk & ->). apply IH in Hk as (y & Hy & Hpy & Hmin).
      exists y. repeat split; [done..|]. intros [|j] z Hj Hz; simplify_eq/=; [done|].
      apply (Hmin j); [lia|done].
    + intros (y & Hy & Hpy & Hmin). destruct i as [|i]; simplify_eq/=; [congruence|].
      exists i. split; [|done]. apply IH. exists y. repeat split; [done..|].
      intros j z Hj Hz. apply (Hmin (S j)); [lia|done].
Qed.

Lemma find_idx_None l :
  find_idx p l = None ↔ ∀ i x, l !! i = Some x → p x = false.
Proof.
  induction l as [|x l IH]; simpl.
  { split; [intros _ i y; by rewrite lookup_nil|done]. }
  destruct (p x) eqn:Hp.
  - split; [done|]. intros H. specialize (H O x eq_refl). congruence.
  - rewrite fmap_None, IH. split.
    + intros H [|i] y ?; simplify_eq/=; eauto.
    + intros H i y Hy. apply (H (S i) y Hy).
Qed.

Lemma find_idx_lt l i : find_idx p l = Some i → (i < length l)%nat.
Proof. intros (x & Hx & _)%find_idx_Some. by eapply lookup_lt_Some. Qed.

Lemma find_idx_lookup l i :
  find_idx p l = Some i → ∃ x, l !! i = Some x ∧ p x = true.
Proof. intros (x & ? & ? & _)%find_idx_Some; eauto. Qed.

Lemma find_idx_is_Some l i x :
  l !! i = Some x → p x = true → is_Some (find_idx p l).
Proof.
  intros Hi Hp. destruct (find_idx p l) eqn:E; [done|].
  rewrite find_idx_None in E. specialize (E _ _ Hi). congruence.
Qed.
End find_idx.

Lemma find_idx_alter {A} (p : A → bool) f l i :
  (∀ x, p (f x) = p x) → find_idx p (alter f i l) = find_idx p l.
Proof.
  intros Hp. revert i. induction l as [|x l IH]; intros [|i]; simpl; rewrite ?Hp; try done.
  destruct (p x); [done|]. f_equal. apply IH.
Qed.

Lemma alter_insert {A} (f : A → A) (l : list A) (i : nat) x : l !! i = Some x → alter f i l = <[i := f x]> l.
Proof. revert i. induction l as [|y l IH]; intros [|i] Hi; simplify_eq/=; [done|]. f_equal. by apply IH. Qed.

Lemma find_idx_app {A} (p : A → bool) l k i : find_idx p l = Some i → find_idx p (l ++ k) = Some i.
Proof.
  revert i. induction l as [|x l IH]; intros i; simpl; [done|]. destruct (p x); [done|].
  intros (j & Hj & ->)%fmap_Some. by rewrite (IH j).
Qed.

Lemma find_idx_unique {A} (p : A → bool) l i x :
  l !! i = Some x → p x = true →
  (∀ j y, l !! j = Some y → p y = true → j = i) →
  find_idx p l = Some i.
Proof.
  intros Hi Hp Hu. destruct (find_idx_is_Some p l i x Hi Hp) as [k Hk].
  rewrite Hk. f_equal. apply find_idx_lookup in Hk as (y & ? & ?). eauto.
Qed.

Lemma find_idx_replicate_None {A} (p : A → bool) n x :
  p x = false → find_idx p (replicate n x) = None.
Proof.
  intros Hp. apply find_idx_None. intros i y Hy.
  apply lookup_replicate in Hy as [-> _]. done.
Qed.

Lemma count_if_le {A} (p : A → bool) l : (count_if p l ≤ length l)%nat.
Proof. induction l as [|x l IH]; simpl; [lia|]. destruct (p x); lia. Qed.

(** Replacing one element changes the count by that element only. *)
Lemma count_if_insert {A} (p : A → bool) l i x y :
  l !! i = Some x →
  (count_if p (<[i:=y]> l) + (if p x then 1 else 0)
   = count_if p l + (if p y then 1 else 0))%nat.
Proof.
  revert i. induction l as [|z l IH]; intros [|i] Hi; simplify_eq/=.
  - destruct (p x), (p y); lia.
  - specialize (IH _ Hi). destruct (p z), (p x), (p y); lia.
Qed.

Lemma count_if_replicate_false {A} (p : A → bool) n x :
  p x = false → count_if p (replicate n x) = O.
Proof. intros Hp. induction n; simpl; [done|]. by rewrite Hp. Qed.

(** ** Lemmas on C strings *)

Lemma streq_true s t : streq s t = true ↔ s = t.
Proof. apply bool_decide_eq_true. Qed.

Lemma streq_false s t : streq s t = false ↔ s ≠ t.
Proof. apply bool_decide_eq_false. Qed.

Lemma streq_refl s : streq s s = true.
Proof. by apply streq_true. Qed.

Lemma strcpy_trunc_id n s : (length s < n)%nat → strcpy_trunc n s = s.
Proof. intros. apply take_ge. lia. Qed.

Lemma strcpy_trunc_length n s : (length (strcpy_trunc n s) ≤ n - 1)%nat.
Proof. unfold strcpy_trunc. rewrite length_take. lia. Qed.

Lemma strcpy_trunc_idem n s : strcpy_trunc n (strcpy_trunc n s) = strcpy_trunc n s.
Proof. unfold strcpy_trunc. rewrite take_take. f_equal. lia. Qed.

Lemma no_nul_cons c s : no_nul (c :: s) ↔ c ≠ Byte.x00 ∧ no_nul s.
Proof. unfold no_nul. rewrite not_elem_of_cons. split; intros []; split; congruence. Qed.

Lemma no_nul_app s t : no_nul (s ++ t) ↔ no_nul s ∧ no_nul t.
Proof. unfold no_nul. rewrite elem_of_app. tauto. Qed.

Lemma no_nul_take n s : no_nul s → no_nul (take n s).
Proof. rewrite <-(take_drop n s) at 1. rewrite no_nul_app. tauto. Qed.

Lemma no_nul_drop n s : no_nul s → no_nul (drop n s).
Proof. rewrite <-(take_drop n s) at 1. rewrite no_nul_app. tauto. Qed.

Create HintDb nvr.
Create Rewrite HintDb nvr.
#[export] Hint Resolve u64_range u8_range byte_Z_range streq_refl
  no_nul_take no_nul_drop strcpy_trunc_length : nvr.
#[export] Hint Rewrite @length_insert @length_take @length_drop @length_app
  @length_replicate : nvr.
