(* ===== verification/Libc.v ===== *)
(** * Routines of the C library

    The string routines the components call, on strings as lists of bytes:
    number parsing, searches, tokens, and the characters they test. *)
From Stdlib Require Import ZArith Lia Bool.
From Stdlib Require Import Strings.Byte.
From stdpp Require Import base numbers list strings pretty.
From S2P Require Import Prelude.
#[local] Open Scope Z_scope.

(** ** Characters and numbers *)

Definition isspace (c : byte) : bool :=
  (byte_Z c =? 32) || ((9 <=? byte_Z c) && (byte_Z c <=? 13)).

Definition digit (c : byte) : option Z :=
  if (48 <=? byte_Z c) && (byte_Z c <=? 57) then Some (byte_Z c - 48) else None.

Fixpoint skip_space (s : cstr) : cstr :=
  match s with
  | c :: s' => if isspace c then skip_space s' else s
  | [] => []
  end.

(** The digits at the start, accumulated, and the rest. *)
Fixpoint digits (acc : Z) (s : cstr) : Z * cstr :=
  match s with
  | c :: s' => match digit c with
               | Some d => digits (acc * 10 + d) s'
               | None => (acc, s)
               end
  | [] => (acc, [])
  end.

(** [strtol (s, &end, 10)]: the value, saturated to [long], and what is left;
    [None] when there is no number ([end == s]). *)
Definition strtol10 (s : cstr) : option (Z * cstr) :=
  let s := skip_space s in
  let '(negative, s) := match s with
                        | c :: s' => if bool_decide (c = Byte.x2d) then (true, s')
                                     else if bool_decide (c = Byte.x2b) then (false, s')
                                     else (false, s)
                        | [] => (false, s)
                        end in
  match s with
  | c :: _ =>
      match digit c with
      | Some _ =>
          let '(v, rest) := digits 0 s in
          Some (if negative then Z.max (- v) (- 2 ^ 63) else Z.min v (2 ^ 63 - 1), rest)
      | None => None
      end
  | [] => None
  end.

(** [strtoull (s, NULL, 10)]: 0 when there is no number, the largest value when it
    does not fit, and the negation modulo 2^64 of a number with a minus sign. *)
Definition strtoull10 (s : cstr) : Z :=
  let s := skip_space s in
  let '(negative, s) := match s with
                        | c :: s' => if bool_decide (c = Byte.x2d) then (true, s')
                                     else if bool_decide (c = Byte.x2b) then (false, s')
                                     else (false, s)
                        | [] => (false, s)
                        end in
  let v := (digits 0 s).1 in
  if v <? 2 ^ 64 then (if negative then u64 (- v) else v) else 2 ^ 64 - 1.

Definition hex_value (c : byte) : option Z :=
  let z := byte_Z c in
  if (48 <=? z) && (z <=? 57) then Some (z - 48)
  else if (97 <=? z) && (z <=? 102) then Some (z - 87)
  else if (65 <=? z) && (z <=? 70) then Some (z - 55)
  else None.

(** [isalpha] and [isalnum] in the C locale. *)
Definition isalpha (c : byte) : bool :=
  ((65 <=? byte_Z c) && (byte_Z c <=? 90)) || ((97 <=? byte_Z c) && (byte_Z c <=? 122)).

Definition isalnum (c : byte) : bool := isalpha c || ((48 <=? byte_Z c) && (byte_Z c <=? 57)).

(** [tolower], and [strcasecmp (s, t) == 0], in the C locale. *)
Definition tolower (c : byte) : byte :=
  if (65 <=? byte_Z c) && (byte_Z c <=? 90) then Z_byte (byte_Z c + 32) else c.

Definition strcaseeq (s t : cstr) : bool := streq (tolower <$> s) (tolower <$> t).

(** ** Searches and tokens *)

Definition empty (s : cstr) : bool := match s with [] => true | _ => false end.

(** [strchr (s, c)]: what is before and after the first [c]. *)
Fixpoint split_first (c : byte) (s : cstr) : option (cstr * cstr) :=
  match s with
  | [] => None
  | x :: s => if bool_decide (x = c) then Some ([], s)
              else '(a, b) ← split_first c s; Some (x :: a, b)
  end.

(** What is before the first [c], or all of the string. *)
Definition until (c : byte) (s : cstr) : cstr :=
  match split_first c s with Some (a, _) => a | None => s end.

(** [strrchr (s, c)]: what is before and after the last [c]. *)
Fixpoint split_last (c : byte) (s : cstr) : option (cstr * cstr) :=
  match s with
  | [] => None
  | x :: s => match split_last c s with
              | Some (a, b) => Some (x :: a, b)
              | None => if bool_decide (x = c) then Some ([], s) else None
              end
  end.

Fixpoint starts_with (p s : cstr) : bool :=
  match p, s with
  | [], _ => true
  | c :: p, x :: s => bool_decide (x = c) && starts_with p s
  | _ :: _, [] => false
  end.

(** [strstr (s, p)]: what is before the first occurrence of [p], and the rest
    from there on. *)
Fixpoint strstr (p s : cstr) : option (cstr * cstr) :=
  if starts_with p s then Some ([], s) else
  match s with
  | [] => None
  | x :: s => '(a, b) ← strstr p s; Some (x :: a, b)
  end.

(** The bytes up to the first that satisfies [stop], and the rest:
    [strcspn], [strpbrk] and the loops in their place. *)
Fixpoint span (stop : byte → bool) (s : cstr) : cstr * cstr :=
  match s with
  | [] => ([], [])
  | x :: s' => if stop x then ([], s) else let '(a, b) := span stop s' in (x :: a, b)
  end.

(** The tokens of a [strtok_r] loop; [cur] is the current one, reversed. *)
Fixpoint strtok (delim : byte → bool) (cur s : cstr) : list cstr :=
  match s with
  | [] => match cur with [] => [] | _ => [reverse cur] end
  | c :: s => if delim c
              then match cur with
                   | [] => strtok delim [] s
                   | _ => reverse cur :: strtok delim [] s
                   end
              else strtok delim (c :: cur) s
  end.

(** ** Lists of words

    The loops several files write for comma-separated lists: blanks skipped,
    and a token trimmed in place. *)

Fixpoint skip_blanks (s : cstr) : cstr :=
  match s with
  | c :: s' => if bool_decide (c = Byte.x20) then skip_blanks s' else s
  | [] => []
  end.

(** Blanks off both ends; a token of blanks only becomes empty. *)
Definition trim_blanks (s : cstr) : cstr := reverse (skip_blanks (reverse (skip_blanks s))).

Definition comma (c : byte) : bool := bool_decide (c = Byte.x2c).

(** ** Lemmas *)

Lemma strtok_app delim cur e rest :
  Forall (λ c, delim c = false) e → strtok delim cur (e ++ rest) = strtok delim (reverse e ++ cur) rest.
Proof.
  revert cur. induction e as [|c e IH]; intros cur He; [done|].
  apply Forall_cons in He as [Hc He]. simpl. rewrite Hc, IH by done. by rewrite reverse_cons, <-app_assoc.
Qed.

(** The strings of a list, separated by [c]. *)
Definition join (c : byte) (es : list cstr) : cstr := drop 1 (concat (cons c <$> es)).

Definition tokens (delim : byte → bool) (es : list cstr) : Prop :=
  Forall (λ e, e ≠ [] ∧ Forall (λ c, delim c = false) e) es.

Lemma strtok_concat delim c es :
  delim c = true → tokens delim es → strtok delim [] (concat (cons c <$> es)) = es.
Proof.
  intros Hc. assert (Hgen : ∀ es cur, tokens delim es →
    strtok delim cur (concat (cons c <$> es)) = (match cur with [] => [] | _ => [reverse cur] end) ++ es).
  { clear es. induction es as [|e es IH]; intros cur Hes; simpl.
    - destruct cur; simpl; by rewrite ?app_nil_r.
    - apply Forall_cons in Hes as [[Hne He] Hes]. rewrite Hc.
      rewrite strtok_app by done. rewrite app_nil_r, IH by done.
      assert (Hr : reverse e ≠ []) by (intros Hr; apply Hne; by rewrite <-(reverse_involutive e), Hr).
      destruct (reverse e) eqn:E; [done|]. rewrite <-E, reverse_involutive. by destruct cur. }
  intros Hes. by rewrite Hgen.
Qed.

Lemma strtok_join delim c es :
  delim c = true → tokens delim es → strtok delim [] (join c es) = es.
Proof.
  intros Hc Hes. rewrite <-(strtok_concat delim c es) at 2 by done.
  destruct es as [|e es]; [done|]. unfold join. simpl. by rewrite Hc.
Qed.

Lemma split_last_none c s : c ∉ s → split_last c s = None.
Proof.
  induction s as [|x s IH]; intros Hs; [done|]. apply not_elem_of_cons in Hs as [Hx Hs].
  simpl. rewrite IH by done. by rewrite bool_decide_eq_false_2.
Qed.

Lemma split_last_app c a b : c ∉ b → split_last c (a ++ c :: b) = Some (a, b).
Proof.
  intros Hb. induction a as [|x a IH]; simpl.
  - rewrite split_last_none by done. by rewrite bool_decide_eq_true_2.
  - by rewrite IH.
Qed.

Lemma byte_forall (P : byte → bool) : forallb (λ n, P (Z_byte (Z.of_nat n))) (seq 0 256) = true → ∀ c, P c = true.
Proof.
  intros HP c. rewrite forallb_forall in HP. rewrite <-(Z_byte_byte_Z c).
  pose proof (byte_Z_range c). rewrite <-(Z2Nat.id (byte_Z c)) by lia.
  apply HP, in_seq. lia.
Qed.

Lemma split_first_app c a b : c ∉ a → split_first c (a ++ c :: b) = Some (a, b).
Proof.
  induction a as [|x a IH]; intros Ha; simpl.
  - by rewrite bool_decide_eq_true_2.
  - apply not_elem_of_cons in Ha as [Hx Ha]. rewrite bool_decide_eq_false_2 by done. by rewrite IH.
Qed.

Lemma split_first_none c s : c ∉ s → split_first c s = None.
Proof.
  induction s as [|x s IH]; intros Hs; [done|]. apply not_elem_of_cons in Hs as [Hx Hs].
  simpl. rewrite bool_decide_eq_false_2 by done. by rewrite IH.
Qed.

Lemma split_first_Some c s a b : split_first c s = Some (a, b) → s = a ++ c :: b ∧ c ∉ a.
Proof.
  revert a. induction s as [|x s IH]; intros a; [done|]. cbn [split_first]. case_bool_decide as Hx.
  - intros [= <- <-]. subst x. split; [done|apply not_elem_of_nil].
  - destruct (split_first c s) as [[a' b']|]; [|done]. intros [= <- <-]. destruct (IH a' eq_refl) as [-> Ha].
    split; [done|]. rewrite not_elem_of_cons. auto.
Qed.

Lemma split_first_Nothing c s : split_first c s = None → c ∉ s.
Proof.
  induction s as [|x s IH]; [intros _; apply not_elem_of_nil|]. cbn [split_first]. case_bool_decide; [done|].
  destruct (split_first c s) as [[]|]; [done|]. intros _. rewrite not_elem_of_cons. auto.
Qed.

Lemma until_app c a b : c ∉ a → until c (a ++ c :: b) = a.
Proof. intros Ha. unfold until. by rewrite split_first_app. Qed.

Lemma until_none c s : c ∉ s → until c s = s.
Proof. intros Hs. unfold until. by rewrite split_first_none. Qed.

(** The text before the first [c] is determined by the characters around it. *)
Lemma first_sep (c : byte) a b r :
  c ∉ a → c ∉ b → take (length a) (b ++ c :: r) = a ∧ (b ++ c :: r) !! length a = Some c ↔ a = b.
Proof.
  intros Ha Hb. split.
  - intros [Ht Hc]. destruct (Nat.lt_trichotomy (length a) (length b)) as [Hl|[Hl|Hl]].
    + exfalso. rewrite lookup_app_l in Hc by done. by apply Hb, (list_elem_of_lookup_2 _ (length a)).
    + by rewrite take_app_length' in Ht.
    + exfalso. apply Ha, (list_elem_of_lookup_2 _ (length b)).
      rewrite <-Ht, lookup_take_lt, lookup_app_r, Nat.sub_diag by lia. done.
  - intros ->. by rewrite take_app_length, lookup_app_r, Nat.sub_diag by lia.
Qed.

Lemma skip_space_id c s : isspace c = false → skip_space (c :: s) = c :: s.
Proof. intros Hc. simpl. by rewrite Hc. Qed.

Lemma strcaseeq_refl s : strcaseeq s s = true.
Proof. apply streq_refl. Qed.

Lemma starts_with_app p s : starts_with p (p ++ s) = true.
Proof. induction p as [|c p IH]; simpl; [done|]. by rewrite bool_decide_true. Qed.

Lemma starts_with_spec p s : starts_with p s = true ↔ ∃ r, s = p ++ r.
Proof.
  split; [|intros [r ->]; apply starts_with_app]. revert s. induction p as [|c p IH]; intros s Hs; [by exists s|].
  destruct s as [|x s]; [done|]. simpl in Hs. unbool. subst x. destruct (IH s) as [r ->]; [done|]. by exists r.
Qed.

Lemma strstr_Some p s a b : strstr p s = Some (a, b) → s = a ++ b ∧ ∃ r, b = p ++ r.
Proof.
  revert a b. induction s as [|x s IH]; intros a b; cbn [strstr].
  - destruct (starts_with p []) eqn:E; [|done]. intros [= <- <-]. by apply starts_with_spec in E.
  - destruct (starts_with p (x :: s)) eqn:E; [intros [= <- <-]; by apply starts_with_spec in E|].
    destruct (strstr p s) as [[a' b']|]; [cbn [mbind option_bind]|done]. intros [= <- <-].
    destruct (IH a' b') as [-> ?]; [done|]. done.
Qed.

Lemma starts_with_app_l p s t : (length p ≤ length s)%nat → starts_with p (s ++ t) = starts_with p s.
Proof.
  revert s. induction p as [|c p IH]; intros s Hl; [done|]. destruct s as [|x s]; [simpl in Hl; lia|].
  simpl in *. by rewrite IH by lia.
Qed.

(** The first occurrence does not depend on what follows it. *)
Lemma strstr_app_r p a r r' : strstr p (a ++ p ++ r) = Some (a, p ++ r) → strstr p (a ++ p ++ r') = Some (a, p ++ r').
Proof.
  destruct p as [|c p]; [destruct a; [by destruct r'|done]|].
  induction a as [|x a IH]; intros E.
  - cbn [app strstr] in *. change (c :: p ++ r') with ((c :: p) ++ r'). by rewrite starts_with_app.
  - cbn [app strstr] in *.
    assert (Hl : ∀ q, starts_with (c :: p) (x :: a ++ c :: p ++ q) = starts_with (c :: p) (x :: a ++ c :: p)).
    { intros q. change (x :: a ++ c :: p ++ q) with ((x :: a) ++ (c :: p) ++ q).
      rewrite app_assoc, starts_with_app_l; [done|]. rewrite length_app. lia. }
    rewrite Hl in *. destruct (starts_with (c :: p) (x :: a ++ c :: p)); [by destruct a|].
    destruct (strstr (c :: p) (a ++ c :: p ++ r)) as [[a' b]|] eqn:E'; [|done].
    injection E as -> ->. by rewrite (IH eq_refl).
Qed.

Lemma span_app stop a s :
  Forall (λ c, stop c = false) a → (∀ c r, s = c :: r → stop c = true) → span stop (a ++ s) = (a, s).
Proof.
  intros Ha Hs. induction Ha as [|c a Hc _ IH]; simpl.
  - destruct s as [|c s]; [done|]. simpl. by rewrite (Hs c s).
  - by rewrite Hc, IH.
Qed.

Lemma span_spec stop s a b :
  span stop s = (a, b) → s = a ++ b ∧ Forall (λ c, stop c = false) a ∧ (∀ c r, b = c :: r → stop c = true).
Proof.
  revert a b. induction s as [|x s IH]; intros a b; simpl; [intros [= <- <-]; by split_and!|].
  destruct (stop x) eqn:E; [intros [= <- <-]; split_and!; [done|done|congruence]|].
  destruct (span stop s) as [a' b']. intros [= <- <-]. destruct (IH a' b') as (-> & Hf & Hb); [done|].
  split_and!; [done|by constructor|done].
Qed.

(** ** Numbers in decimal *)

Lemma lit_cons c s : lit (String c s) = Ascii.byte_of_ascii c :: lit s.
Proof. reflexivity. Qed.

Lemma digit_char n : (n < 10)%N → digit (Ascii.byte_of_ascii (pretty_N_char n)) = Some (Z.of_N n).
Proof. intros Hn. destruct (decide (n = 0 ∨ n = 1 ∨ n = 2 ∨ n = 3 ∨ n = 4 ∨ n = 5 ∨ n = 6 ∨ n = 7 ∨ n = 8 ∨ n = 9)%N) as [H|H]; [|lia].
  by destruct_or!; subst n. Qed.

(** What the accumulator holds after the digits of [n]. *)
Lemma digits_pretty_go n s :
  ∃ k : nat, ∀ acc rest, digits acc (lit (pretty_N_go n s) ++ rest) = digits (acc * 10 ^ Z.of_nat k + Z.of_N n) (lit s ++ rest).
Proof.
  revert s. induction n as [n IH] using (well_founded_induction N.lt_wf_0). intros s.
  destruct (decide (0 < n)%N) as [Hn|Hn].
  - rewrite pretty_N_go_step by done.
    destruct (IH (n `div` 10)%N ltac:(by apply N.div_lt) (String (pretty_N_char (n `mod` 10)) s)) as [k Hk].
    exists (S k). intros acc rest. rewrite Hk, lit_cons. cbn [app digits].
    rewrite digit_char by (by apply N.mod_lt). f_equal. rewrite Nat2Z.inj_succ, Z.pow_succ_r by lia.
    rewrite N2Z.inj_mod, N2Z.inj_div. pose proof (Z.div_mod (Z.of_N n) 10). lia.
  - assert (n = 0%N) as -> by lia. exists 0%nat. intros acc rest. rewrite pretty_N_go_0. f_equal. lia.
Qed.

Lemma digits_decimal n rest :
  0 ≤ n → (∀ c r, rest = c :: r → digit c = None) → digits 0 (decimal n ++ rest) = (n, rest).
Proof.
  intros Hn Hr.
  assert (digits n rest = (n, rest)) as E by (destruct rest as [|c r]; [done|]; simpl; by rewrite (Hr c r)).
  destruct (decide (n = 0)) as [-> |Hz]; [exact E|].
  destruct n as [|p|]; [done| |lia]. change (decimal (Z.pos p)) with (lit (pretty_N_go (N.pos p) "")).
  destruct (digits_pretty_go (N.pos p) "") as [k ->]. exact E.
Qed.

(** A decimal begins with a digit. *)
Lemma decimal_head n : 0 ≤ n → ∃ c r d, decimal n = c :: r ∧ digit c = Some d.
Proof.
  intros Hn. destruct (decimal n) as [|c r] eqn:E.
  - exfalso. pose proof (digits_decimal n [Byte.x61] Hn ltac:(by intros ? ? [= <- _])) as Hd. rewrite E in Hd.
    cbn in Hd. injection Hd as <-. by vm_compute in E.
  - destruct (digit c) as [d|] eqn:Ed; [by exists c, r, d|]. exfalso.
    pose proof (digits_decimal n [Byte.x61] Hn ltac:(by intros ? ? [= <- _])) as Hd. rewrite E in Hd. cbn [app digits] in Hd.
    rewrite Ed in Hd. injection Hd as Hn' Hd. destruct r; [|done]. simpl in Hd. subst c n. by vm_compute in E.
Qed.

Lemma digit_plain c d : digit c = Some d → isspace c = false ∧ c ≠ Byte.x2d ∧ c ≠ Byte.x2b.
Proof.
  pose proof (byte_forall (λ c, match digit c with
    | Some _ => negb (isspace c) && negb (bool_decide (c = Byte.x2d)) && negb (bool_decide (c = Byte.x2b)) | None => true end)) as H.
  specialize (H ltac:(vm_compute; reflexivity) c). simpl in H. intros E. rewrite E in H. by unbool.
Qed.

Lemma strtoull10_decimal n rest :
  0 ≤ n < 2 ^ 64 → (∀ c r, rest = c :: r → digit c = None) → strtoull10 (decimal n ++ rest) = n.
Proof.
  intros Hn Hr. destruct (decimal_head n) as (c & r & d & E & Hd); [lia|].
  destruct (digit_plain c d Hd) as (Hs & Hm & Hp). unfold strtoull10. rewrite E. cbn [app].
  rewrite skip_space_id, !bool_decide_false by done. change (c :: r ++ rest) with ((c :: r) ++ rest). rewrite <-E, digits_decimal by (done || lia).
  cbn [fst]. by rewrite (proj2 (Z.ltb_lt n (2 ^ 64))) by lia.
Qed.

Lemma strtoull10_range s : 0 ≤ strtoull10 s < 2 ^ 64.
Proof.
  unfold strtoull10. destruct (match skip_space s with [] => _ | _ => _ end) as [neg t].
  assert (∀ t acc, 0 ≤ acc → 0 ≤ (digits acc t).1) as Hd.
  { clear. induction t as [|c t IH]; intros acc Ha; simpl; [lia|]. destruct (digit c) as [d|] eqn:E; [|simpl; lia]. apply IH.
    unfold digit in E. case_all. unbool. lia. }
  specialize (Hd t 0 ltac:(lia)). destruct (Z.ltb_spec (digits 0 t).1 (2 ^ 64)); [|lia].
  destruct neg; [apply u64_range|lia].
Qed.

Lemma pretty_go_length (k : nat) n s : (n < 10 ^ N.of_nat k)%N → (length (lit (pretty_N_go n s)) ≤ k + length (lit s))%nat.
Proof.
  revert n s. induction k as [|k IH]; intros n s Hn.
  - assert (n = 0%N) as -> by (simpl in Hn; lia). rewrite pretty_N_go_0. lia.
  - destruct (decide (0 < n)%N) as [Hp|]; [|assert (n = 0%N) as -> by lia; rewrite pretty_N_go_0; lia].
    rewrite pretty_N_go_step by done. etransitivity; [apply IH|rewrite lit_cons; simpl; lia].
    rewrite Nat2N.inj_succ, N.pow_succ_r' in Hn. apply N.Div0.div_lt_upper_bound. done.
Qed.

Lemma decimal_length (k : nat) n : (0 < k)%nat → 0 ≤ n < 10 ^ Z.of_nat k → (length (decimal n) ≤ k)%nat.
Proof.
  intros Hk Hn. destruct n as [|p|]; [simpl; lia| |lia].
  change (decimal (Z.pos p)) with (lit (pretty_N_go (N.pos p) "")).
  etransitivity; [apply (pretty_go_length k)|simpl; lia]. apply N2Z.inj_lt. rewrite N2Z.inj_pow, nat_N_Z. lia.
Qed.
