(* ===== verification/Arrays.v ===== *)
(** * Arrays indexed by C integers, and circular buffers over them

    A read or write outside the array is undefined behaviour ([None]).  The
    circular buffers of the program (the packet buffer, the player telemetry
    and the metric sparklines) are all read through [rotate]: slot [(t + k) %
    n] of the array is element [k] of the array rotated to start at [t]. *)
From Stdlib Require Import ZArith Lia Bool.
From stdpp Require Import base numbers list.
#[local] Open Scope Z_scope.

(** [a[i]] *)
Definition aget {A} (a : list A) (i : Z) : option A :=
  if 0 <=? i then a !! Z.to_nat i else None.

(** [a[i] = x] *)
Definition aset {A} (a : list A) (i : Z) (x : A) : option (list A) :=
  if (0 <=? i) && (i <? Z.of_nat (length a)) then Some (<[Z.to_nat i := x]> a) else None.

(** Stepping an index around a ring. *)
Lemma rem_add_idemp a b n :
  0 ≤ a → 0 ≤ b → 0 < n → Z.rem (Z.rem a n + b) n = Z.rem (a + b) n.
Proof.
  intros. rewrite (Z.rem_mod_nonneg a) by lia. pose proof (Z.mod_pos_bound a n).
  rewrite !Z.rem_mod_nonneg by lia. by rewrite Zplus_mod_idemp_l.
Qed.

Section arrays.
Context {A : Type}.
Implicit Types (a : list A) (x : A).

Lemma aget_nat a i : aget a (Z.of_nat i) = a !! i.
Proof. unfold aget. rewrite (proj2 (Z.leb_le _ _)) by lia. by rewrite Nat2Z.id. Qed.

Lemma aset_nat a i x :
  (i < length a)%nat → aset a (Z.of_nat i) x = Some (<[i := x]> a).
Proof.
  intros. unfold aset. rewrite (proj2 (Z.leb_le _ _)) by lia.
  rewrite (proj2 (Z.ltb_lt _ _)) by lia. simpl. by rewrite Nat2Z.id.
Qed.

Lemma aget_Some_range a i x : aget a i = Some x → 0 ≤ i < Z.of_nat (length a).
Proof.
  unfold aget. case_match eqn:E; [|done]. intros Hx%lookup_lt_Some.
  apply Z.leb_le in E. lia.
Qed.

Lemma aset_inv a i x a' :
  aset a i x = Some a' →
  0 ≤ i < Z.of_nat (length a) ∧ a' = <[Z.to_nat i := x]> a.
Proof.
  unfold aset. case_match eqn:E; [|done]. intros [= <-].
  apply andb_true_iff in E as [?%Z.leb_le ?%Z.ltb_lt]. auto.
Qed.

(** ** Rotation *)

(** The index [(t + k) % n] of a C loop over the ring. *)
Lemma ring_index t k n :
  (0 < n)%nat → 0 ≤ t → Z.rem (t + Z.of_nat k) (Z.of_nat n)
  = Z.of_nat (rotate_nat_add (Z.to_nat t) k n).
Proof.
  intros. unfold rotate_nat_add. rewrite Z.rem_mod_nonneg by lia.
  rewrite !Z2Nat.id by (try apply Z.mod_pos_bound; lia). done.
Qed.

Lemma aget_ring a t k :
  (k < length a)%nat → 0 ≤ t →
  aget a (Z.rem (t + Z.of_nat k) (Z.of_nat (length a))) = rotate (Z.to_nat t) a !! k.
Proof.
  intros Hk Ht. rewrite ring_index by lia. rewrite aget_nat.
  by rewrite lookup_rotate_r.
Qed.

Lemma aset_ring a t k x :
  (k < length a)%nat → 0 ≤ t →
  ∃ a', aset a (Z.rem (t + Z.of_nat k) (Z.of_nat (length a))) x = Some a' ∧
        rotate (Z.to_nat t) a' = <[k := x]> (rotate (Z.to_nat t) a) ∧
        length a' = length a.
Proof.
  intros Hk Ht. rewrite ring_index by lia.
  rewrite aset_nat by (apply rotate_nat_add_lt; lia).
  eexists. split; [done|]. split; [|by rewrite length_insert].
  by apply rotate_insert_l.
Qed.

Lemma aget_ring_start a t :
  0 ≤ t < Z.of_nat (length a) → aget a t = rotate (Z.to_nat t) a !! O.
Proof.
  intros Ht. rewrite <-aget_ring by lia. f_equal. rewrite Z.add_0_r.
  by rewrite Z.rem_small by lia.
Qed.

Lemma aset_ring_start a t x :
  0 ≤ t < Z.of_nat (length a) →
  ∃ a', aset a t x = Some a' ∧
        rotate (Z.to_nat t) a' = <[O := x]> (rotate (Z.to_nat t) a) ∧
        length a' = length a.
Proof.
  intros Ht. destruct (aset_ring a t 0 x) as (a' & Ha & ?); [lia..|].
  exists a'. split; [|done]. rewrite <-Ha. f_equal. rewrite Z.add_0_r.
  by rewrite Z.rem_small by lia.
Qed.

Lemma rotate_Permutation t a : rotate t a ≡ₚ a.
Proof. unfold rotate. rewrite (comm (++)). by rewrite take_drop. Qed.

(** Advancing the start by one moves the first element to the end. *)
Lemma rotate_advance a t y l :
  0 ≤ t < Z.of_nat (length a) →
  rotate (Z.to_nat t) a = y :: l →
  rotate (Z.to_nat (Z.rem (t + 1) (Z.of_nat (length a)))) a = l ++ [y].
Proof.
  intros Ht. rewrite Z.rem_mod_nonneg by lia. unfold rotate.
  rewrite (Nat.mod_small (Z.to_nat t)) by lia. intros Hr.
  destruct (decide (t + 1 = Z.of_nat (length a))) as [Heq|Hne].
  - rewrite Heq, Z.mod_same by lia. simpl. rewrite Nat.Div0.mod_0_l.
    rewrite drop_0, take_0, app_nil_r.
    rewrite <-(take_drop (Z.to_nat t) a).
    destruct (drop (Z.to_nat t) a) as [|z d] eqn:E.
    + apply (f_equal length) in E. rewrite length_drop in E. simpl in E. lia.
    + assert (d = []) as ->.
      { apply (f_equal length) in E. rewrite length_drop in E. simpl in E.
        destruct d; [done|simpl in E; lia]. }
      simpl in Hr. by simplify_eq.
  - rewrite (Z.mod_small (t + 1)) by lia.
    replace (Z.to_nat (t + 1)) with (S (Z.to_nat t)) by lia.
    rewrite (Nat.mod_small (S (Z.to_nat t))) by lia.
    destruct (lookup_lt_is_Some_2 a (Z.to_nat t) ltac:(lia)) as [z Hz].
    rewrite (drop_S _ _ _ Hz) in Hr. simplify_eq/=.
    by rewrite (take_S_r _ _ _ Hz), app_assoc.
Qed.

Lemma rotate_zero a : rotate 0 a = a.
Proof.
  unfold rotate. rewrite Nat.Div0.mod_0_l.
  by rewrite drop_0, take_0, app_nil_r.
Qed.
End arrays.

#[global] Arguments rotate : simpl never.

(** ** Write-only rings

    A ring of fixed size that keeps the latest elements written: [hist] is
    everything written, most recent first. *)
Section history.
Context {A : Type}.
Implicit Types (a hist : list A).

Record ring_history (n : nat) (a : list A) (head count : Z) (hist : list A) : Prop := {
  rh_size : length a = n;
  rh_head : 0 ≤ head < Z.of_nat n;
  rh_count : count = Z.of_nat (Nat.min (length hist) n);
  rh_filling : count < Z.of_nat n → head = count;
  rh_slot : ∀ j, (j < Nat.min (length hist) n)%nat →
    a !! Z.to_nat ((head - 1 - Z.of_nat j) `mod` Z.of_nat n) = hist !! j
}.

Lemma ring_history_init n a : (0 < n)%nat → length a = n → ring_history n a 0 0 [].
Proof. intros. constructor; simpl; try lia. Qed.

(** [a[head] = x; head = (head + 1) % n; if (count < n) count++;] *)
Lemma ring_history_push n a head count hist x :
  ring_history n a head count hist →
  ring_history n (<[Z.to_nat head := x]> a) (Z.rem (head + 1) (Z.of_nat n))
    (if count <? Z.of_nat n then count + 1 else count) (x :: hist).
Proof.
  intros [Hsize Hhead Hcount Hfill Hslot]. rewrite Z.rem_mod_nonneg by lia.
  pose proof (Z.mod_pos_bound (head + 1) (Z.of_nat n) ltac:(lia)) as Hb.
  constructor; cbn [length].
  - by rewrite length_insert.
  - done.
  - destruct (Z.ltb_spec count (Z.of_nat n)); lia.
  - destruct (Z.ltb_spec count (Z.of_nat n)); [|lia]. intros.
    rewrite Z.mod_small by lia. rewrite Hfill by lia. lia.
  - intros j Hj.
    assert (((head + 1) `mod` Z.of_nat n - 1 - Z.of_nat j) `mod` Z.of_nat n
            = (head - Z.of_nat j) `mod` Z.of_nat n) as ->.
    { rewrite <-Z.sub_add_distr, Zminus_mod_idemp_l. f_equal. lia. }
    destruct j as [|j].
    + rewrite Z.sub_0_r, Z.mod_small by lia. apply list_lookup_insert_eq. lia.
    + simpl. rewrite <-Hslot by lia. rewrite list_lookup_insert_ne.
      * f_equal. f_equal. f_equal. lia.
      * intros Heq.
        assert (Hm : (head - Z.of_nat (S j)) `mod` Z.of_nat n = head).
        { pose proof (Z.mod_pos_bound (head - Z.of_nat (S j)) (Z.of_nat n) ltac:(lia)). lia. }
        destruct (Z_lt_le_dec head (Z.of_nat (S j))) as [Hlt|Hge].
        -- pose proof (Z.mod_unique_pos (head - Z.of_nat (S j)) (Z.of_nat n) (-1)
             (head - Z.of_nat (S j) + Z.of_nat n) ltac:(lia) ltac:(lia)). lia.
        -- rewrite Z.mod_small in Hm; lia.
Qed.
End history.
