(* ===== verification/Loops.v ===== *)
(** * Counting loops

    [for (i = a; i < b; i++) body], over the integers from [a] up to [b]: the
    body takes the index and the variables of the loop, and is [None] where it
    is undefined.  An invariant that every turn keeps holds at the end, and a
    loop that stores one value per index leaves those values. *)
From Stdlib Require Import ZArith Lia Bool.
From stdpp Require Import base numbers list sets.
From S2P Require Import Arrays.
#[local] Open Scope Z_scope.

(** [a], [a + 1], .. up to but not including [b]. *)
Definition range (a b : Z) : list Z := seqZ a (b - a).

(** [a], [a + 2], .. up to but not including [b]. *)
Definition range2 (a b : Z) : list Z := (λ k, a + 2 * k) <$> seqZ 0 ((b - a + 1) / 2).

Fixpoint for_in {I S} (l : list I) (body : I → S → option S) (s : S) : option S :=
  match l with
  | [] => Some s
  | i :: l => s ← body i s; for_in l body s
  end.

Lemma elem_of_range a b i : i ∈ range a b ↔ a ≤ i < b.
Proof. unfold range. rewrite elem_of_seqZ. lia. Qed.

Lemma elem_of_range2 a b i : i ∈ range2 a b ↔ a ≤ i < b ∧ (i - a) `mod` 2 = 0.
Proof.
  unfold range2. rewrite list_elem_of_fmap. setoid_rewrite elem_of_seqZ. split.
  - intros (k & -> & Hk). pose proof (Z.div_mod (b - a + 1) 2 ltac:(lia)). pose proof (Z.mod_pos_bound (b - a + 1) 2).
    replace (a + 2 * k - a) with (k * 2) by lia. rewrite Z.mod_mul by lia. lia.
  - intros [Hi Hm]. exists ((i - a) / 2). pose proof (Z.div_mod (i - a) 2 ltac:(lia)). split; [lia|].
    split; [apply Z.div_pos; lia|]. assert ((i - a) / 2 + 1 ≤ (b - a + 1) / 2); [|lia].
    replace ((i - a) / 2 + 1) with ((i - a + 1 * 2) / 2) by (rewrite Z.div_add by lia; lia).
    apply Z.div_le_lower_bound; [lia|]. rewrite Z.div_add by lia. lia.
Qed.

Lemma NoDup_range a b : NoDup (range a b).
Proof. apply NoDup_seqZ. Qed.

Lemma range_nil a b : b ≤ a → range a b = [].
Proof. intros. apply seqZ_nil. lia. Qed.

Lemma range_snoc a b : a ≤ b → range a (b + 1) = range a b ++ [b].
Proof.
  intros. unfold range. replace (b + 1 - a) with ((b - a) + 1) by lia.
  rewrite seqZ_app by lia. f_equal. replace (a + (b - a)) with b by lia. done.
Qed.

Lemma range_app a b c : a ≤ b → b ≤ c → range a c = range a b ++ range b c.
Proof.
  intros. unfold range. replace (c - a) with ((b - a) + (c - b)) by lia.
  rewrite seqZ_app by lia. do 2 f_equal. lia.
Qed.

Section loops.
Context {I S : Type}.
Implicit Types (l : list I) (body : I → S → option S).

Lemma for_in_app l1 l2 body s : for_in (l1 ++ l2) body s = (s ← for_in l1 body s; for_in l2 body s).
Proof.
  revert s. induction l1 as [|i l1 IH]; intros s; [done|]. simpl.
  destruct (body i s); simpl; [apply IH|done].
Qed.

(** The invariant speaks of the indices already done. *)
Lemma for_in_spec (P : list I → S → Prop) l body s :
  P [] s →
  (∀ done i rest s, l = done ++ i :: rest → P done s → ∃ s', body i s = Some s' ∧ P (done ++ [i]) s') →
  ∃ s', for_in l body s = Some s' ∧ P l s'.
Proof.
  intros H0 Hstep.
  assert (∀ rest done s, l = done ++ rest → P done s → ∃ s', for_in rest body s = Some s' ∧ P l s') as H.
  { induction rest as [|i rest IH]; intros dn s1 Hl HP.
    - rewrite app_nil_r in Hl. subst. eauto.
    - destruct (Hstep dn i rest s1 Hl HP) as (s2 & E & HP2). simpl. rewrite E. simpl.
      apply (IH (dn ++ [i])); [by rewrite <-app_assoc|done]. }
  by apply (H l []).
Qed.

(** The same, for an invariant that the index does not enter. *)
Lemma for_in_keeps (P : S → Prop) l body s :
  P s → (∀ i s, i ∈ l → P s → ∃ s', body i s = Some s' ∧ P s') →
  ∃ s', for_in l body s = Some s' ∧ P s'.
Proof.
  intros H0 Hstep. apply (for_in_spec (λ _, P)); [done|]. intros dn i rest s1 -> HP.
  apply Hstep; [set_solver|done].
Qed.

(** Any turn may be undefined: what is kept where the loop ends. *)
Lemma for_in_inv (P : S → Prop) l body s s' :
  for_in l body s = Some s' → P s → (∀ i s s', i ∈ l → P s → body i s = Some s' → P s') → P s'.
Proof.
  revert s. induction l as [|i l IH]; intros s E HP Hstep; simpl in E; [by simplify_eq|].
  destruct (body i s) as [s1|] eqn:E1; [|done]. simpl in E.
  apply (IH s1); [done|apply (Hstep i s); [set_solver|done..]|]. intros j t t' Hj. apply Hstep. set_solver.
Qed.
End loops.

(** A loop of stores: [body i] puts [value i] at [at_ i]. *)
Lemma for_in_stores {I A} (l : list I) (at_ : I → Z) (value : I → A) (body : I → list A → option (list A)) a :
  (∀ i a', i ∈ l → length a' = length a → body i a' = aset a' (at_ i) (value i)) →
  (∀ i, i ∈ l → 0 ≤ at_ i < Z.of_nat (length a)) →
  (∀ i j, i ∈ l → j ∈ l → at_ i = at_ j → value i = value j) →
  ∃ a', for_in l body a = Some a' ∧ length a' = length a ∧
    (∀ i, i ∈ l → aget a' (at_ i) = Some (value i)) ∧
    (∀ k, (∀ i, i ∈ l → at_ i ≠ k) → aget a' k = aget a k).
Proof.
  intros Hbody Hat Huniq.
  destruct (for_in_spec (λ dn a', length a' = length a ∧ (∀ i, i ∈ dn → aget a' (at_ i) = Some (value i)) ∧
    (∀ k, (∀ i, i ∈ dn → at_ i ≠ k) → aget a' k = aget a k)) l body a) as (a' & E & H).
  - split; [done|]. split; [|done]. set_solver.
  - intros dn i rest a1 Hl (Hlen & Hin & Hout). rewrite Hbody by (subst; set_solver || done).
    specialize (Hat i ltac:(subst; set_solver)). unfold aset.
    rewrite (proj2 (andb_true_iff _ _)) by (split; [apply Z.leb_le|apply Z.ltb_lt]; lia).
    eexists. split; [done|]. split; [by rewrite length_insert|].
    assert (∀ k, k ≠ at_ i → aget (<[Z.to_nat (at_ i) := value i]> a1) k = aget a1 k) as Hne.
    { intros k Hk. unfold aget. case_match eqn:Hz; [|done]. apply Z.leb_le in Hz. apply list_lookup_insert_ne. lia. }
    assert (aget (<[Z.to_nat (at_ i) := value i]> a1) (at_ i) = Some (value i)) as Heq.
    { unfold aget. rewrite (proj2 (Z.leb_le _ _)) by lia. apply list_lookup_insert_eq. lia. }
    split.
    + intros j [Hj|Hj%list_elem_of_singleton]%elem_of_app; [|by subst].
      destruct (decide (at_ j = at_ i)) as [Hji|Hji].
      * rewrite Hji, Heq. f_equal. symmetry. apply Huniq; [subst; set_solver..|done].
      * rewrite Hne by done. by apply Hin.
    + intros k Hk. rewrite Hne; [|intros ->; by apply (Hk i); [set_solver|]]. apply Hout. intros j Hj. apply Hk. set_solver.
  - exists a'. done.
Qed.

(** ** Loops over a range, and a loop within a loop *)

Lemma for_range_spec {S} (P : Z → S → Prop) a b (body : Z → S → option S) s :
  a ≤ b → P a s → (∀ i s, a ≤ i < b → P i s → ∃ s', body i s = Some s' ∧ P (i + 1) s') →
  ∃ s', for_in (range a b) body s = Some s' ∧ P b s'.
Proof.
  intros Hab H0. assert (∃ n, b = a + Z.of_nat n) as (n & ->) by (exists (Z.to_nat (b - a)); lia). clear Hab.
  induction n as [|n IH]; intros Hstep.
  - rewrite Z.add_0_r in *. rewrite range_nil by lia. eauto.
  - destruct IH as (s1 & E & HP); [intros i s1 Hi; apply Hstep; lia|].
    replace (a + Z.of_nat (Datatypes.S n)) with (a + Z.of_nat n + 1) by lia.
    rewrite range_snoc by lia. rewrite for_in_app, E. simpl.
    destruct (Hstep (a + Z.of_nat n) s1) as (s2 & -> & ?); [lia|done|]. eauto.
Qed.

(** The pairs of two nested loops, in their order. *)
Definition nested {I J} (ys : list I) (xs : list J) : list (I * J) := ys ≫= λ y, pair y <$> xs.

Lemma elem_of_nested {I J} (ys : list I) (xs : list J) y x : (y, x) ∈ nested ys xs ↔ y ∈ ys ∧ x ∈ xs.
Proof.
  unfold nested. rewrite list_elem_of_bind. setoid_rewrite list_elem_of_fmap. split.
  - intros (y' & (x' & [= -> ->] & ?) & ?). done.
  - intros [??]. eauto.
Qed.

Lemma for_in_fmap {I J S} (f : I → J) (l : list I) (body : J → S → option S) s :
  for_in (f <$> l) body s = for_in l (λ i, body (f i)) s.
Proof. revert s. induction l as [|i l IH]; intros s; [done|]. simpl. destruct (body (f i) s); simpl; auto. Qed.

Lemma for_in_nested {I J S} (ys : list I) (xs : list J) (body : I → J → S → option S) s :
  for_in ys (λ y, for_in xs (body y)) s = for_in (nested ys xs) (λ p, body p.1 p.2) s.
Proof.
  revert s. induction ys as [|y ys IH]; intros s; [done|]. unfold nested. cbn [for_in mbind list_bind].
  rewrite for_in_app, for_in_fmap. cbn [fst snd]. destruct (for_in xs (body y) s) as [s1|]; [|done]. cbn [mbind option_bind].
  by rewrite IH.
Qed.

Lemma length_nested {I J} (ys : list I) (xs : list J) : length (nested ys xs) = (length ys * length xs)%nat.
Proof. unfold nested. induction ys as [|y ys IH]; [done|]. cbn. by rewrite length_app, length_fmap, IH. Qed.

Lemma length_range2 a b : Z.of_nat (length (range2 a b)) ≤ Z.max 0 (b - a).
Proof.
  unfold range2. rewrite length_fmap, length_seqZ. pose proof (Z.div_mod (b - a + 1) 2 ltac:(lia)).
  pose proof (Z.mod_pos_bound (b - a + 1) 2). lia.
Qed.

(** Row-major addresses are distinct. *)
Lemma address_inj w y x y' x' : 0 ≤ x < w → 0 ≤ x' < w → y * w + x = y' * w + x' → y = y' ∧ x = x'.
Proof. intros. assert (y = y') as -> by nia. lia. Qed.

Lemma address_range w h y x : 0 ≤ x < w → 0 ≤ y < h → 0 ≤ y * w + x < w * h.
Proof. nia. Qed.

(** A loop over an image that stores one value per pixel. *)
Lemma for_image_stores {A} (w h : Z) (value : Z → Z → A) (body : Z → Z → list A → option (list A)) a :
  (∀ y x a', 0 ≤ y < h → 0 ≤ x < w → length a' = length a → body y x a' = aset a' (y * w + x) (value y x)) →
  w * h ≤ Z.of_nat (length a) →
  ∃ a', for_in (range 0 h) (λ y, for_in (range 0 w) (body y)) a = Some a' ∧ length a' = length a ∧
    (∀ y x, 0 ≤ y < h → 0 ≤ x < w → aget a' (y * w + x) = Some (value y x)).
Proof.
  intros Hbody Hlen. rewrite for_in_nested.
  destruct (for_in_stores (nested (range 0 h) (range 0 w)) (λ p, p.1 * w + p.2) (λ p, value p.1 p.2)
    (λ p, body p.1 p.2) a) as (a' & E & Hl & Hin & _).
  - intros [y x] a' [Hy%elem_of_range Hx%elem_of_range]%elem_of_nested. by apply Hbody.
  - intros [y x] [Hy%elem_of_range Hx%elem_of_range]%elem_of_nested. pose proof (address_range w h y x). simpl. lia.
  - intros [y x] [y' x'] [Hy%elem_of_range Hx%elem_of_range]%elem_of_nested [Hy'%elem_of_range Hx'%elem_of_range]%elem_of_nested E.
    simpl in E. destruct (address_inj w y x y' x') as [-> ->]; done.
  - exists a'. split; [done|]. split; [done|]. intros y x Hy Hx. apply (Hin (y, x)).
    apply elem_of_nested. by rewrite !elem_of_range.
Qed.

(** ** Sums over a range *)

Definition sum_range (f : Z → Z) (a b : Z) : Z := foldr (λ i s, f i + s) 0 (range a b).

Lemma sum_range_empty f a b : b ≤ a → sum_range f a b = 0.
Proof. intros. unfold sum_range. by rewrite range_nil by lia. Qed.

Lemma sum_range_split f a b c : a ≤ b → b ≤ c → sum_range f a c = sum_range f a b + sum_range f b c.
Proof.
  intros. unfold sum_range. rewrite (range_app a b c) by lia. rewrite foldr_app.
  induction (range a b); simpl; lia.
Qed.

Lemma sum_range_one f a : sum_range f a (a + 1) = f a.
Proof. unfold sum_range. rewrite range_snoc, range_nil by lia. simpl. lia. Qed.

Lemma sum_range_bounds f a b lo hi :
  a ≤ b → (∀ i, a ≤ i < b → lo ≤ f i ≤ hi) → (b - a) * lo ≤ sum_range f a b ≤ (b - a) * hi.
Proof.
  intros Hab. assert (∃ n, b = a + Z.of_nat n) as (n & ->) by (exists (Z.to_nat (b - a)); lia). clear Hab.
  induction n as [|n IH]; intros Hf.
  - rewrite sum_range_empty by lia. lia.
  - rewrite (sum_range_split f a (a + Z.of_nat n)) by lia.
    replace (a + Z.of_nat (S n)) with (a + Z.of_nat n + 1) by lia. rewrite sum_range_one.
    specialize (IH ltac:(intros; apply Hf; lia)). specialize (Hf (a + Z.of_nat n) ltac:(lia)). lia.
Qed.

(** The mean of whole numbers between two bounds lies between them. *)
Lemma mean_bounds f a b lo hi :
  a < b → 0 ≤ lo → (∀ i, a ≤ i < b → lo ≤ f i ≤ hi) → lo ≤ Z.quot (sum_range f a b) (b - a) ≤ hi.
Proof.
  intros Hab Hlo Hf. pose proof (sum_range_bounds f a b lo hi ltac:(lia) Hf).
  assert (0 ≤ sum_range f a b) by nia. rewrite Z.quot_div_nonneg by lia.
  split; [apply Z.div_le_lower_bound|apply Z.div_le_upper_bound]; lia.
Qed.

(** ** Counting *)

Lemma for_in_counts {I} (l : list I) (test : I → bool) (body : I → Z * Z → option (Z * Z)) n m :
  (∀ i s, i ∈ l → body i s = Some (if test i then s.1 + 1 else s.1, s.2 + 1)) →
  for_in l body (n, m) = Some (n + Z.of_nat (length (filter (λ i, test i = true) l)), m + Z.of_nat (length l)).
Proof.
  revert n m. induction l as [|i l IH]; intros n m H.
  - by rewrite !Z.add_0_r.
  - cbn [for_in]. rewrite H by set_solver. cbn [mbind option_bind fst snd].
    destruct (test i) eqn:E; [rewrite filter_cons_True by done|rewrite filter_cons_False by congruence];
      rewrite IH by (intros; apply H; set_solver); cbn [length]; do 2 f_equal; lia.
Qed.
