(* ===== verification/CFloat.v ===== *)
(** * [float] and [double]: IEEE 754 binary32 and binary64

    The executable specification of the Standard Library ([SpecFloat]) at the
    two formats C uses on the targets of the program, round to nearest even.
    Conversions to integers truncate; out of range (and for NaN) they are
    undefined behaviour, [None]. *)
From Stdlib Require Import ZArith Lia Bool.
From Stdlib Require Import SpecFloat.
From stdpp Require Import base numbers.
#[local] Open Scope Z_scope.

Record format := Format { fprec : Z; femax : Z }.

Definition binary32 : format := Format 24 128.
Definition binary64 : format := Format 53 1024.

Section ops.
Context (F : format).

Definition f_of_Z (z : Z) : spec_float := binary_normalize (fprec F) (femax F) z 0 false.
Definition fadd : spec_float → spec_float → spec_float := SFadd (fprec F) (femax F).
Definition fsub : spec_float → spec_float → spec_float := SFsub (fprec F) (femax F).
Definition fmul : spec_float → spec_float → spec_float := SFmul (fprec F) (femax F).
Definition fdiv : spec_float → spec_float → spec_float := SFdiv (fprec F) (femax F).

(** The literal whose exact value is [num / den]: division of two exactly
    represented integers rounds correctly, as the compiler does. *)
Definition f_lit (num den : Z) : spec_float := fdiv (f_of_Z num) (f_of_Z den).
End ops.

(** [(float) x]: rounding to another format. *)
Definition f_convert (F : format) (x : spec_float) : spec_float :=
  match x with
  | S754_finite s m e =>
      binary_normalize (fprec F) (femax F) (if s then Z.neg m else Z.pos m) e s
  | _ => x
  end.

(** [x < y], [x <= y], [x > y], [x >= y] of C: false when an operand is NaN. *)
Definition flt (x y : spec_float) : bool := SFltb x y.
Definition fle (x y : spec_float) : bool := SFleb x y.
Definition fgt (x y : spec_float) : bool := SFltb y x.
Definition fge (x y : spec_float) : bool := SFleb y x.

(** Conversion to an integer type, before its range check. *)
Definition f_trunc (x : spec_float) : option Z :=
  match x with
  | S754_zero _ => Some 0
  | S754_finite s m e =>
      let a := if 0 <=? e then Z.pos m * 2 ^ e else Z.pos m / 2 ^ (- e) in
      Some (if s then - a else a)
  | _ => None
  end.

Definition f_to_int (x : spec_float) : option Z :=
  z ← f_trunc x; if (- 2 ^ 31 <=? z) && (z <? 2 ^ 31) then Some z else None.

Definition f_to_u64 (x : spec_float) : option Z :=
  z ← f_trunc x; if (0 <=? z) && (z <? 2 ^ 64) then Some z else None.

Definition f_to_i64 (x : spec_float) : option Z :=
  z ← f_trunc x; if (- 2 ^ 63 <=? z) && (z <? 2 ^ 63) then Some z else None.

Example literal_1_2 : f_lit binary64 12 10 = S754_finite false 5404319552844595 (-52).
Proof. vm_compute. reflexivity. Qed.

Example literal_0_1f : f_lit binary32 1 10 = S754_finite false 13421773 (-27).
Proof. vm_compute. reflexivity. Qed.

(** ** Small integers as [double]s: exact, and ordered as they are *)

Lemma digits2_pos_bounds p : 2 ^ (Z.pos (digits2_pos p) - 1) ≤ Z.pos p < 2 ^ Z.pos (digits2_pos p).
Proof.
  assert (∀ k, 0 < k → 2 ^ k = 2 * 2 ^ (k - 1)) as H2 by (intros k Hk; rewrite <-Z.pow_succ_r by lia; f_equal; lia).
  induction p as [p IH|p IH|]; simpl digits2_pos; [..|by vm_compute];
    rewrite Pos2Z.inj_succ, Z.pow_succ_r by lia; replace (Z.succ (Z.pos (digits2_pos p)) - 1) with (Z.pos (digits2_pos p)) by lia;
    specialize (H2 (Z.pos (digits2_pos p)) ltac:(lia)); lia.
Qed.

Lemma iter_xO_value p d : Z.pos (Pos.iter xO p d) = Z.pos p * 2 ^ Z.pos d.
Proof.
  induction d as [|d IH] using Pos.peano_ind; [simpl; lia|].
  rewrite Pos.iter_succ, Pos2Z.inj_succ, Z.pow_succ_r by lia. rewrite Pos2Z.inj_xO, IH. lia.
Qed.

Lemma iter_xO_digits p d : Z.pos (digits2_pos (Pos.iter xO p d)) = Z.pos (digits2_pos p) + Z.pos d.
Proof.
  induction d as [|d IH] using Pos.peano_ind; [simpl; lia|].
  rewrite Pos.iter_succ. simpl digits2_pos. rewrite !Pos2Z.inj_succ, IH. lia.
Qed.

Lemma digits_small p : Z.pos p < 2 ^ 52 → Z.pos (digits2_pos p) ≤ 52.
Proof.
  intros Hp. destruct (digits2_pos_bounds p) as [Hlo _]. apply Z.nlt_ge. intros Hlt.
  assert (2 ^ 52 ≤ 2 ^ (Z.pos (digits2_pos p) - 1)) by (apply Z.pow_le_mono_r; lia). lia.
Qed.

Lemma f_of_Z_small p :
  Z.pos p < 2 ^ 52 →
  f_of_Z binary64 (Z.pos p) =
  S754_finite false (Pos.iter xO p (Z.to_pos (53 - Z.pos (digits2_pos p)))) (Z.pos (digits2_pos p) - 53).
Proof.
  intros Hp. pose proof (digits_small p Hp) as Hk. unfold f_of_Z, binary_normalize, binary_round. cbn [fprec femax binary64].
  set (k := Z.pos (digits2_pos p)) in *. assert (1 ≤ k) as Hk1 by lia.
  assert (∀ e, -52 ≤ e ≤ 52 → fexp 53 1024 e = e - 53) as Hf by (intros e He; unfold fexp, emin; lia).
  rewrite Hf by lia. unfold shl_align. rewrite Z.add_0_r, Z.sub_0_r.
  destruct (k - 53) as [|d|d] eqn:Ed; [lia|lia|]. replace (53 - k) with (Z.pos d) by lia. cbn [Z.to_pos].
  set (m := Pos.iter xO p d). assert (Z.pos (digits2_pos m) = 53) as Hm by (unfold m; rewrite iter_xO_digits; fold k; lia).
  unfold binary_round_aux, shr_fexp. cbn [Zdigits2]. rewrite Hm, Hf by lia.
  replace (53 + Z.neg d - 53 - Z.neg d) with 0 by lia. cbn [shr shr_record_of_loc shr_m loc_of_shr_record round_nearest_even].
  cbn [Zdigits2]. rewrite Hm, Hf by lia. replace (53 + Z.neg d - 53 - Z.neg d) with 0 by lia.
  cbn [shr shr_m]. by rewrite (proj2 (Z.leb_le _ _)) by lia.
Qed.

Lemma f_compare_small p q :
  Z.pos p < 2 ^ 52 → Z.pos q < 2 ^ 52 →
  SFcompare (f_of_Z binary64 (Z.pos p)) (f_of_Z binary64 (Z.pos q)) = Some (Z.compare (Z.pos p) (Z.pos q)).
Proof.
  intros Hp Hq. rewrite !f_of_Z_small by done. pose proof (digits_small p Hp). pose proof (digits_small q Hq).
  pose proof (digits2_pos_bounds p) as Bp. pose proof (digits2_pos_bounds q) as Bq. cbn [SFcompare]. f_equal.
  set (k := Z.pos (digits2_pos p)) in *. set (l := Z.pos (digits2_pos q)) in *.
  destruct (Z.compare_spec (k - 53) (l - 53)) as [E|Hlt|Hlt].
  - assert (k = l) as -> by lia. set (d := Z.to_pos (53 - l)). change (Pos.compare_cont Eq ?a ?b) with (Z.compare (Z.pos a) (Z.pos b)).
    rewrite !iter_xO_value. symmetry. apply Zmult_compare_compat_r. lia.
  - symmetry. apply Z.compare_lt_iff. assert (2 ^ k ≤ 2 ^ (l - 1)) by (apply Z.pow_le_mono_r; lia). lia.
  - symmetry. apply Z.compare_gt_iff. assert (2 ^ l ≤ 2 ^ (k - 1)) by (apply Z.pow_le_mono_r; lia). lia.
Qed.

(** ** Rounding to [float]

    What rounding makes of the positive number [m * 2 ^ e], [D] being the
    position of its leading bit: a mantissa of at most 24 bits, not zero unless
    the number is tiny, at least at the exponent of the format. *)

Lemma shr_1_spec mrs : 0 ≤ shr_m mrs → shr_m (shr_1 mrs) = shr_m mrs / 2.
Proof.
  destruct mrs as [[|[p|p|]|p] r s]; intros H; cbn [shr_1 shr_m] in *; try done;
    [apply (Z.div_unique_pos _ _ _ 1)|apply (Z.div_unique_pos _ _ _ 0)]; lia.
Qed.

Lemma iter_shr_spec p mrs : 0 ≤ shr_m mrs → shr_m (SpecFloat.iter_pos shr_1 p mrs) = shr_m mrs / 2 ^ Z.pos p.
Proof.
  revert mrs. induction p as [p IH|p IH|]; intros mrs H; cbn [SpecFloat.iter_pos].
  - assert (0 ≤ shr_m (shr_1 mrs)) by (rewrite shr_1_spec by done; apply Z.div_pos; lia).
    assert (0 ≤ shr_m (SpecFloat.iter_pos shr_1 p (shr_1 mrs))) by (rewrite IH by done; apply Z.div_pos; lia).
    rewrite IH, IH, shr_1_spec, !Z.div_div by lia. f_equal.
    change 2 with (2 ^ 1) at 1. rewrite <-!Z.pow_add_r by lia. f_equal. lia.
  - assert (0 ≤ shr_m (SpecFloat.iter_pos shr_1 p mrs)) by (rewrite IH by done; apply Z.div_pos; lia).
    rewrite IH, IH, !Z.div_div by lia. f_equal.
    rewrite <-Z.pow_add_r by lia. f_equal. lia.
  - by apply shr_1_spec.
Qed.

(** A shift by [n], to the right if it is positive. *)
Lemma shr_spec m l e n :
  0 ≤ m → shr_m (shr (shr_record_of_loc m l) e n).1 = m / 2 ^ Z.max n 0 ∧ (shr (shr_record_of_loc m l) e n).2 = e + Z.max n 0.
Proof.
  intros Hm. assert (shr_m (shr_record_of_loc m l) = m) as Hl by (by destruct l as [|[]]).
  destruct n as [|p|p]; cbn [shr fst snd].
  - rewrite Hl, Z.max_id, Z.div_1_r. lia.
  - rewrite iter_shr_spec by (by rewrite Hl). rewrite Hl, Z.max_l by lia. done.
  - rewrite Hl, Z.max_r, Z.div_1_r by lia. lia.
Qed.

Lemma round_even_bounds m l : m ≤ round_nearest_even m l ≤ m + 1.
Proof. destruct l as [|[]]; simpl; try case_match; lia. Qed.

Lemma digits_le p k : 0 ≤ k → Z.pos p ≤ 2 ^ k → Z.pos (digits2_pos p) ≤ k + 1.
Proof.
  intros Hk Hp. destruct (digits2_pos_bounds p) as [Hlo _]. apply Z.nlt_ge. intros Hlt.
  assert (2 ^ (k + 1) ≤ 2 ^ (Z.pos (digits2_pos p) - 1)) by (apply Z.pow_le_mono_r; lia).
  rewrite (Z.pow_add_r 2 k 1) in * by lia. lia.
Qed.

Definition rounded (s : bool) (m e : Z) : spec_float :=
  match m with
  | Z0 => S754_zero s
  | Z.pos m => if e <=? 104 then S754_finite s m e else S754_infinity s
  | _ => S754_nan
  end.

Lemma round32_shape s m e :
  let D := Z.pos (digits2_pos m) + e in
  ∃ m3 e3, binary_round_aux 24 128 s (Z.pos m) e loc_Exact = rounded s m3 e3 ∧ 0 ≤ m3 < 2 ^ 24 ∧
    Z.max (D - 24) (-149) ≤ e3 ≤ Z.max (Z.max e (D - 23)) (-149) ∧ e ≤ e3 ∧ (-100 ≤ D → 0 < m3) ∧
    (D ≤ 16 → e3 ≤ 15 ∧ (if 0 <=? e3 then m3 * 2 ^ e3 else m3 / 2 ^ (- e3)) ≤ 2 ^ Z.max D 0).
Proof.
  intros D. set (d := Z.pos (digits2_pos m)) in *. assert (2 ^ (d - 1) ≤ Z.pos m < 2 ^ d) as Hm by apply digits2_pos_bounds.
  assert (1 ≤ d) by lia. unfold binary_round_aux, shr_fexp. change (Zdigits2 (Z.pos m)) with d. fold D.
  assert (∀ x, fexp 24 128 x = Z.max (x - 24) (-149)) as Hf by done. rewrite !Hf.
  destruct (shr_spec (Z.pos m) loc_Exact e (Z.max (D - 24) (-149) - e)) as [Hm1 He1]; [lia|].
  destruct (shr (shr_record_of_loc (Z.pos m) loc_Exact) e _) as [mrs1 e1]. cbn [fst snd] in *.
  set (n := Z.max (Z.max (D - 24) (-149) - e) 0) in *.
  pose proof (round_even_bounds (shr_m mrs1) (loc_of_shr_record mrs1)) as Hm2.
  set (m2 := round_nearest_even (shr_m mrs1) (loc_of_shr_record mrs1)) in *.
  assert (0 ≤ shr_m mrs1) by (rewrite Hm1; apply Z.div_pos; lia).
  set (k := Z.max (d - n) 0). assert (shr_m mrs1 < 2 ^ k) as Hk.
  { rewrite Hm1. apply Z.div_lt_upper_bound; [lia|]. rewrite <-Z.pow_add_r by lia.
    apply Z.lt_le_trans with (2 ^ d); [lia|]. apply Z.pow_le_mono_r; lia. }
  assert (k ≤ 24) by lia. assert (2 ^ k ≤ 2 ^ 24) by (apply Z.pow_le_mono_r; lia).
  assert (Zdigits2 m2 ≤ k + 1) as Hd2.
  { destruct m2 as [|p|p] eqn:E; [simpl; lia| |lia]. apply digits_le; lia. }
  rewrite Hf. destruct (shr_spec m2 loc_Exact e1 (Z.max (Zdigits2 m2 + e1 - 24) (-149) - e1)) as [Hm3 He3]; [lia|].
  destruct (shr (shr_record_of_loc m2 loc_Exact) e1 _) as [mrs3 e3]. cbn [fst snd] in *.
  set (n2 := Z.max (Z.max (Zdigits2 m2 + e1 - 24) (-149) - e1) 0) in *. assert (n2 ≤ 1) as Hn2 by lia.
  exists (shr_m mrs3), e3. split; [unfold rounded; destruct (shr_m mrs3); done|].
  assert (0 ≤ shr_m mrs3) by (rewrite Hm3; apply Z.div_pos; lia).
  assert (m2 ≤ 2 ^ k) by lia.
  assert (m2 = 2 ^ 24 → n2 = 1) as Htop.
  { intros E. assert (Zdigits2 m2 = 25) as Hd by (rewrite E; by vm_compute). lia. }
  split; [|split; [lia|split; [lia|split]]].
  - split; [done|]. rewrite Hm3. destruct (decide (m2 = 2 ^ 24)) as [E|E].
    + rewrite Htop, E by done. by vm_compute.
    + apply Z.div_lt_upper_bound; [lia|]. assert (1 ≤ 2 ^ n2) by (apply (Z.pow_le_mono_r 2 0); lia). nia.
  - intros HD. rewrite Hm3. apply Z.div_str_pos. split; [lia|].
    assert (2 ^ (d - 1 - n) ≤ shr_m mrs1).
    { rewrite Hm1. apply Z.div_le_lower_bound; [lia|]. rewrite <-Z.pow_add_r by lia.
      replace (n + (d - 1 - n)) with (d - 1) by lia. lia. }
    assert (1 ≤ 2 ^ (d - 1 - n)) by (apply (Z.pow_le_mono_r 2 0); lia).
    destruct (decide (n2 = 1)) as [E1|E1]; [|replace n2 with 0 by lia; lia].
    rewrite E1. destruct (decide (m2 = 1)) as [E2|E2]; [|lia].
    assert (Zdigits2 m2 = 1) as E3 by (by rewrite E2). lia.
  - intros HD. assert (e3 ≤ 15) by lia. split; [done|]. case_match eqn:E0; [apply Z.leb_le in E0|apply Z.leb_gt in E0].
    + assert (n2 = 0) as En2 by lia. rewrite En2, Z.pow_0_r, Z.div_1_r in Hm3. rewrite Hm3.
      assert (2 ^ k * 2 ^ e3 ≤ 2 ^ Z.max D 0); [|nia]. rewrite <-Z.pow_add_r by lia. apply Z.pow_le_mono_r; lia.
    + rewrite Hm3, Z.div_div, <-Z.pow_add_r by lia. apply Z.div_le_upper_bound; [lia|].
      rewrite <-Z.pow_add_r by lia. etransitivity; [eassumption|]. apply Z.pow_le_mono_r; lia.
Qed.

(** A [float] of C: a mantissa of at most 24 bits. *)
Definition is_float (x : spec_float) : Prop :=
  match x with S754_finite _ m e => Z.pos m < 2 ^ 24 ∧ -149 ≤ e | _ => True end.

Lemma rounded_is_float s m e : 0 ≤ m < 2 ^ 24 → -149 ≤ e → is_float (rounded s m e).
Proof. intros. destruct m as [|m|m]; simpl; [done|case_match; simpl; lia|done]. Qed.

Lemma fmul_is_float x y : is_float (fmul binary32 x y).
Proof.
  destruct x as [sx|sx| |sx mx ex], y as [sy|sy| |sy my ey]; try done. unfold fmul. cbn [SFmul fprec femax binary32].
  destruct (round32_shape (xorb sx sy) (mx * my) (ex + ey)) as (m & e & -> & ? & ? & _). apply rounded_is_float; lia.
Qed.

Lemma digits_mul p q : Z.pos (digits2_pos (p * q)) ≤ Z.pos (digits2_pos p) + Z.pos (digits2_pos q).
Proof.
  destruct (digits2_pos_bounds (p * q)) as [Hlo _]. pose proof (digits2_pos_bounds p). pose proof (digits2_pos_bounds q).
  apply Z.nlt_ge. intros Hlt.
  assert (2 ^ (Z.pos (digits2_pos p) + Z.pos (digits2_pos q)) ≤ 2 ^ (Z.pos (digits2_pos (p * q)) - 1)) by (apply Z.pow_le_mono_r; lia).
  rewrite (Z.pow_add_r 2 (Z.pos (digits2_pos p))) in * by lia. nia.
Qed.

(** The integer part of a product of two positive numbers, the second of [dy]
    and the first of at most [dx] binary digits before the point. *)
Lemma fmul_to_int mx ex my ey dx dy :
  Z.pos (digits2_pos mx) + ex ≤ dx → Z.pos (digits2_pos my) + ey ≤ dy → 0 ≤ dx + dy ≤ 16 →
  ∃ z, f_to_int (fmul binary32 (S754_finite false mx ex) (S754_finite false my ey)) = Some z ∧ 0 ≤ z ≤ 2 ^ (dx + dy).
Proof.
  intros Hx Hy Hd. unfold fmul. cbn [SFmul fprec femax binary32 xorb]. pose proof (digits_mul mx my).
  destruct (round32_shape false (mx * my) (ex + ey)) as (m & e & -> & Hm & _ & _ & _ & Hb).
  destruct Hb as [He Hb]; [lia|]. set (D := Z.pos (digits2_pos (mx * my)) + (ex + ey)) in *.
  assert (2 ^ Z.max D 0 ≤ 2 ^ (dx + dy)) by (apply Z.pow_le_mono_r; lia).
  assert (2 ^ (dx + dy) ≤ 2 ^ 16) by (apply Z.pow_le_mono_r; lia).
  assert (∃ z, f_trunc (rounded false m e) = Some z ∧ 0 ≤ z ≤ 2 ^ (dx + dy)) as (z & E & Hz).
  { destruct m as [|m|m]; [exists 0; split; [done|lia]| |lia]. cbn [rounded]. rewrite (proj2 (Z.leb_le _ _)) by lia.
    cbn [f_trunc]. eexists. split; [done|]. split; [|lia]. case_match eqn:E0; [nia|]. apply Z.div_pos; lia. }
  exists z. unfold f_to_int. rewrite E. cbn [mbind option_bind].
  rewrite (proj2 (andb_true_iff _ _)) by (split; [apply Z.leb_le|apply Z.ltb_lt]; lia). done.
Qed.

(** A [float] between 0 and [2 ^ -k], times 255 or 256. *)
Lemma small_times_byte k x c :
  0 ≤ k ≤ 10 → is_float x → fge x (S754_zero false) = true → fle x (S754_finite false 8388608 (-23 - k)) = true →
  c = 255 ∨ c = 256 →
  ∃ z, f_to_int (fmul binary32 x (f_of_Z binary32 c)) = Some z ∧ 0 ≤ z ≤ 2 ^ (10 - k).
Proof.
  intros Hk Hf Hge Hle Hc. destruct x as [s|s| |s m e]; [|by destruct s| |].
  - exists 0. split; [by destruct s, Hc as [-> | ->]|lia].
  - done.
  - destruct s; [done|]. destruct Hf as [Hm He].
    assert (e ≤ -23 - k) as He2.
    { unfold fle, SFleb in Hle. apply Z.nlt_ge. intros Hlt.
      cbn [SFcompare] in Hle. rewrite (proj2 (Z.compare_gt_iff _ _)) in Hle by lia. done. }
    assert (Z.pos (digits2_pos m) ≤ 24) as Hd.
    { apply Z.nlt_ge. intros Hlt. destruct (digits2_pos_bounds m) as [Hlo _].
      assert (2 ^ 24 ≤ 2 ^ (Z.pos (digits2_pos m) - 1)) by (apply Z.pow_le_mono_r; lia). lia. }
    destruct Hc as [-> | ->].
    + replace (10 - k) with (1 - k + 9) by lia. apply (fmul_to_int m e 16711680 (-16)); [lia|by vm_compute|lia].
    + replace (10 - k) with (1 - k + 9) by lia. apply (fmul_to_int m e 8388608 (-15)); [lia|by vm_compute|lia].
Qed.

(** ** Comparison of numbers is total *)

Lemma SFcompare_swap x y : SFcompare y x = CompOpp <$> SFcompare x y.
Proof.
  destruct x as [sx|sx| |sx mx ex], y as [sy|sy| |sy my ey]; try done; try (by destruct sx); try (by destruct sy);
    try (by destruct sx, sy).
  cbn [SFcompare]. rewrite (Z.compare_antisym ey ex). change (Pos.compare_cont Eq ?a ?b) with (Pos.compare a b).
  rewrite (Pos.compare_antisym my mx). by destruct sx, sy, (ey ?= ex), (Pos.compare my mx).
Qed.

Lemma SFcompare_number x y : x ≠ S754_nan → y ≠ S754_nan → is_Some (SFcompare x y).
Proof. destruct x, y; try done; intros _ _; repeat (case_match; try done); by eexists. Qed.

Lemma fle_fgt x y : x ≠ S754_nan → y ≠ S754_nan → fle x y = negb (fgt x y).
Proof.
  intros Hx Hy. unfold fle, fgt, SFleb, SFltb. destruct (SFcompare_number x y Hx Hy) as [c E].
  rewrite (SFcompare_swap x y), E. by destruct c.
Qed.


(** The order of numbers is that of their class, exponent and mantissa. *)
Definition fkey (x : spec_float) : Z * Z * Z :=
  match x with
  | S754_infinity s => (if s then -2 else 2, 0, 0)
  | S754_finite true m e => (-1, - e, Z.neg m)
  | S754_finite false m e => (1, e, Z.pos m)
  | _ => (0, 0, 0)
  end.

Definition key_lt (a b : Z * Z * Z) : Prop :=
  a.1.1 < b.1.1 ∨ (a.1.1 = b.1.1 ∧ (a.1.2 < b.1.2 ∨ (a.1.2 = b.1.2 ∧ a.2 < b.2))).

Lemma fgt_key x y : x ≠ S754_nan → y ≠ S754_nan → fgt x y = true ↔ key_lt (fkey y) (fkey x).
Proof.
  intros Hx Hy. unfold fgt, SFltb, key_lt. destruct x as [sx|sx| |sx mx ex], y as [sy|sy| |sy my ey]; try done;
    cbn [SFcompare]; try (destruct sx); try (destruct sy); cbn [fkey fst snd]; try (split; [done|lia]); try (split; [lia|done]);
    change (Pos.compare_cont Eq ?a ?b) with (Pos.compare a b);
    destruct (Z.compare_spec ey ex), (Pos.compare_spec my mx); simpl; split; done || lia.
Qed.

(** Whole numbers become numbers. *)
Lemma f_of_Z_rounded z :
  f_of_Z binary32 z = S754_zero false ∨ ∃ m e, 0 ≤ m ∧ f_of_Z binary32 z = rounded (z <? 0) m e.
Proof.
  assert (∀ s p, ∃ m e, 0 ≤ m ∧ binary_round 24 128 s p 0 = rounded s m e) as H.
  { intros s p. unfold binary_round. destruct (shl_align p 0 _) as [mz ez].
    destruct (round32_shape s mz ez) as (m & e & -> & ? & _). exists m, e. split; [lia|done]. }
  destruct z as [|p|p]; [by left|right; apply (H false p)|right; apply (H true p)].
Qed.

Lemma rounded_number s m e : 0 ≤ m → rounded s m e ≠ S754_nan.
Proof. intros. destruct m; simpl; try case_match; done || lia. Qed.

(** Positive ones below [2 ^ 64], positive numbers. *)
Lemma f_of_Z_positive z : 0 < z < 2 ^ 64 → ∃ m e, f_of_Z binary32 z = S754_finite false m e.
Proof.
  intros Hz. destruct z as [|p|p]; [lia| |lia]. unfold f_of_Z. cbn [binary_normalize fprec femax binary32]. unfold binary_round.
  assert (Z.pos (digits2_pos p) ≤ 64) as Hd.
  { apply Z.nlt_ge. intros Hlt. destruct (digits2_pos_bounds p) as [Hlo _].
    assert (2 ^ 64 ≤ 2 ^ (Z.pos (digits2_pos p) - 1)) by (apply Z.pow_le_mono_r; lia). lia. }
  assert (∃ mz ez, shl_align p 0 (fexp 24 128 (Z.pos (digits2_pos p) + 0)) = (mz, ez) ∧
    Z.pos (digits2_pos mz) + ez = Z.pos (digits2_pos p) ∧ ez ≤ 0) as (mz & ez & -> & HD & Hez).
  { unfold shl_align. destruct (_ - 0) as [|d|d] eqn:E; [by exists p, 0; split; [|lia]..|].
    eexists _, _. split; [done|]. rewrite iter_xO_digits. lia. }
  destruct (round32_shape false mz ez) as (m & e & -> & Hm & He & _ & Hpos & _). specialize (Hpos ltac:(lia)).
  destruct m as [|m|m]; [lia| |lia]. exists m, e. unfold rounded. by rewrite (proj2 (Z.leb_le _ _)) by lia.
Qed.

Lemma round_aux_number s m e l : 0 ≤ m → binary_round_aux 24 128 s m e l ≠ S754_nan.
Proof.
  intros Hm. unfold binary_round_aux, shr_fexp.
  destruct (shr_spec m l e (fexp 24 128 (Zdigits2 m + e) - e) Hm) as [Hm1 _].
  destruct (shr (shr_record_of_loc m l) e _) as [mrs1 e1]. cbn [fst snd] in *.
  pose proof (round_even_bounds (shr_m mrs1) (loc_of_shr_record mrs1)).
  set (m2 := round_nearest_even (shr_m mrs1) (loc_of_shr_record mrs1)) in *.
  assert (0 ≤ shr_m mrs1) by (rewrite Hm1; apply Z.div_pos; lia).
  destruct (shr_spec m2 loc_Exact e1 (fexp 24 128 (Zdigits2 m2 + e1) - e1) ltac:(lia)) as [Hm3 _].
  destruct (shr (shr_record_of_loc m2 loc_Exact) e1 _) as [mrs3 e3]. cbn [fst snd] in *.
  assert (0 ≤ shr_m mrs3) by (rewrite Hm3; apply Z.div_pos; lia).
  destruct (shr_m mrs3); [done|by case_match|lia].
Qed.

Lemma fdiv_zero n : 0 < n < 2 ^ 64 → fdiv binary32 (f_of_Z binary32 0) (f_of_Z binary32 n) = S754_zero false.
Proof. intros Hn. by destruct (f_of_Z_positive n Hn) as (m & e & ->). Qed.

(** A ratio of whole numbers is a number. *)
Lemma fdiv_number a b :
  0 ≤ a < 2 ^ 64 → 0 < b < 2 ^ 64 → fdiv binary32 (f_of_Z binary32 a) (f_of_Z binary32 b) ≠ S754_nan.
Proof.
  intros Ha Hb. destruct (decide (a = 0)) as [->|]; [by rewrite fdiv_zero|].
  destruct (f_of_Z_positive a) as (m1 & e1 & ->); [lia|]. destruct (f_of_Z_positive b) as (m2 & e2 & ->); [lia|].
  unfold fdiv. cbn [SFdiv fprec femax binary32]. unfold SFdiv_core_binary.
  set (m' := match _ - _ with Z0 => Z.pos m1 | Z.pos _ => _ | Z.neg _ => 0 end).
  assert (0 ≤ m') as Hm'.
  { unfold m'. destruct (_ - _); [lia|apply Z.shiftl_nonneg; lia|lia]. }
  pose proof (Z.div_pos m' (Z.pos m2) Hm' ltac:(lia)) as Hq. unfold Z.div in Hq.
  destruct (Z.div_eucl m' (Z.pos m2)) as [q r]. by apply round_aux_number.
Qed.

Lemma f_of_Z_number z : f_of_Z binary32 z ≠ S754_nan.
Proof. destruct (f_of_Z_rounded z) as [-> |(m & e & Hm & ->)]; [done|by apply rounded_number]. Qed.

(** A non-negative number of C. *)
Definition nonneg (x : spec_float) : Prop :=
  match x with S754_zero _ => True | S754_infinity s => s = false | S754_finite s _ _ => s = false | S754_nan => False end.

Lemma nonneg_fge x : nonneg x → fge x (S754_zero false) = true.
Proof. by destruct x as [[]|[]| |[] m e]. Qed.

Lemma nonneg_number x : nonneg x → x ≠ S754_nan.
Proof. by destruct x. Qed.

Lemma fmul_nonneg m e y : nonneg y → nonneg (fmul binary32 (S754_finite false m e) y).
Proof.
  destruct y as [sy|sy| |sy my ey]; [done|by intros ->|done|]. intros Hs. cbn [nonneg] in Hs. subst sy.
  unfold fmul. cbn [SFmul fprec femax binary32 xorb].
  destruct (round32_shape false (m * my) (e + ey)) as (m3 & e3 & -> & Hm & _).
  destruct m3; simpl; [done|by case_match|lia].
Qed.
