(* ===== verification/Frames.v ===== *)
(** * The image side of motion detection: [src/video/motion_detection.c]

    Grey frames as arrays of bytes: conversion, downscaling, the box blur, the
    background model, and the grid that compares a frame with the previous one
    and with the background.  A buffer that the code allocates is an argument,
    [None] where the allocation failed; its first contents are arbitrary.  A
    result is [None] where the code reads or writes outside a buffer, divides by
    zero or converts a [float] out of range. *)
From Stdlib Require Import ZArith Lia Bool.
From Stdlib Require Import SpecFloat.
From stdpp Require Import base numbers list sets.
From S2P Require Import Prelude.
From S2P Require Import Arrays.
From S2P Require Import Loops.
From S2P Require Import CFloat.
#[local] Open Scope Z_scope.

(** The bytes of an image of one channel, by rows. *)
Abbreviation frame := (list Z).

(** [(unsigned char) v], stored. *)
Definition put (f : frame) (i v : Z) : option frame := aset f i (u8 v).

(** [memcpy (dst, src, n)] *)
Definition copy_bytes (dst src : frame) (n : Z) : option frame :=
  if (Z.to_nat n <=? length src)%nat && (Z.to_nat n <=? length dst)%nat
  then Some (take (Z.to_nat n) src ++ drop (Z.to_nat n) dst) else None.

(** Division of [int]s. *)
Definition quotient (a b : Z) : option Z := if b =? 0 then None else Some (cdiv a b).

(** ** Grey *)

Definition r_coeff : Z := 76.
Definition g_coeff : Z := 150.
Definition b_coeff : Z := 29.

Example coefficients :
  (λ n, f_to_int (fmul binary32 (f_lit binary32 n 1000) (f_of_Z binary32 256))) <$> [299; 587; 114]
  = [Some r_coeff; Some g_coeff; Some b_coeff].
Proof. vm_compute. reflexivity. Qed.

Definition gray_value (r g b : Z) : Z :=
  let v := Z.shiftr (r_coeff * r + g_coeff * g + b_coeff * b) 8 in
  if v >? 255 then 255 else v.

Definition rgb_to_grayscale (gray_data : option frame) (rgb_data : frame) (width height : Z)
    : option (option frame) :=
  match gray_data with
  | None => Some None
  | Some gray_data =>
      Some <$> for_in (range 0 height) (λ y, for_in (range 0 width) (λ x gray_data,
        let rgb_idx := (y * width + x) * 3 in
        let gray_idx := y * width + x in
        r ← aget rgb_data rgb_idx;
        g ← aget rgb_data (rgb_idx + 1);
        b ← aget rgb_data (rgb_idx + 2);
        put gray_data gray_idx (gray_value r g b))) gray_data
  end.

(** ** Downscaling *)

(** The sum and the number of the pixels of one block. *)
Definition block_sum (src : frame) (width height factor x y : Z) : option (Z * Z) :=
  for_in (range 0 (Z.min factor (height - y * factor))) (λ dy,
    for_in (range 0 (Z.min factor (width - x * factor))) (λ dx s,
      p ← aget src ((y * factor + dy) * width + (x * factor + dx));
      Some (s.1 + p, s.2 + 1))) (0, 0).

Definition downscaled_size (n factor : Z) : Z :=
  let m := cdiv n factor in if m <? 32 then 32 else m.

(** [dst] is the allocated copy where there is nothing to scale. *)
Definition downscale_grayscale (dst : option frame) (src : frame) (width height factor : Z)
    : option (option (frame * Z * Z)) :=
  match dst with
  | None => Some None
  | Some dst =>
      if factor <=? 1 then
        copy ← copy_bytes dst src (width * height); Some (Some (copy, width, height)) else
      let new_width := downscaled_size width factor in
      let new_height := downscaled_size height factor in
      dst ← for_in (range 0 new_height) (λ y, for_in (range 0 new_width) (λ x dst,
        s ← block_sum src width height factor x y;
        put dst (y * new_width + x) (if s.2 >? 0 then cdiv s.1 s.2 else 0))) dst;
      Some (Some (dst, new_width, new_height))
  end.

(** The bytes that [downscale_grayscale] asks for. *)
Definition downscale_bytes (width height factor : Z) : Z :=
  if factor <=? 1 then width * height else downscaled_size width factor * downscaled_size height factor.

(** ** Box blur *)

(** The sliding window along one line of [n] pixels, pixel [i] of which is at
    [at_ i]: a row, or a column. *)
Definition blur_line (src : frame) (at_ : Z → Z) (n radius : Z) (dst : frame) : option frame :=
  w ← for_in (range 0 (Z.min (radius + 1) n)) (λ i w,
        p ← aget src (at_ i); Some (w.1 + p, w.2 + 1)) (0, 0);
  v ← quotient w.1 w.2;
  dst ← put dst (at_ 0) v;
  fst <$> for_in (range 1 n) (λ x (s : frame * (Z * Z)),
    let '(dst, w) := s in
    w ← (if x + radius <? n then p ← aget src (at_ (x + radius)); Some (w.1 + p, w.2 + 1) else Some w);
    w ← (if x - radius - 1 >=? 0 then p ← aget src (at_ (x - radius - 1)); Some (w.1 - p, w.2 - 1) else Some w);
    v ← quotient w.1 w.2;
    dst ← put dst (at_ x) v;
    Some (dst, w)) (dst, w).

(** [temp] is the copy for the second pass. *)
Definition apply_box_blur (temp : option frame) (src dst : frame) (width height radius : Z) : option frame :=
  if radius <=? 0 then copy_bytes dst src (width * height) else
  dst ← for_in (range 0 height) (λ y, blur_line src (λ i, y * width + i) width radius) dst;
  match temp with
  | None => Some dst
  | Some temp =>
      temp ← copy_bytes temp dst (width * height);
      for_in (range 0 width) (λ x, blur_line temp (λ i, i * width + x) height radius) dst
  end.

(** ** The background *)

Definition blend (alpha bg cur : Z) : Z := u8 (Z.shiftr ((256 - alpha) * bg + alpha * cur) 8).

Definition update_background_model (background current : frame) (width height : Z) (learning_rate : spec_float)
    : option frame :=
  alpha ← f_to_int (fmul binary32 learning_rate (f_of_Z binary32 256));
  for_in (range 0 (width * height)) (λ i background,
    b ← aget background i;
    c ← aget current i;
    put background i (blend alpha b c)) background.

(** ** The grid *)

(** How much a pixel changed, against the previous frame or the background. *)
Definition pixel_diff (curr_frame prev_frame background : frame) (idx : Z) : option Z :=
  c ← aget curr_frame idx;
  p ← aget prev_frame idx;
  b ← aget background idx;
  let frame_diff := Z.abs (c - p) in
  let bg_diff := Z.abs (c - b) in
  Some (if frame_diff >? bg_diff then frame_diff else bg_diff).

(** The sampled pixels of one cell: how many changed, and how many there are. *)
Definition cell_counts (curr_frame prev_frame background : frame) (width height sensitivity_threshold noise_threshold
    cell_width cell_height gx gy : Z) : option (Z * Z) :=
  let cell_end_x := Z.min ((gx + 1) * cell_width) width in
  let cell_end_y := Z.min ((gy + 1) * cell_height) height in
  for_in (range2 (gy * cell_height) cell_end_y) (λ y,
    for_in (range2 (gx * cell_width) cell_end_x) (λ x s,
      diff ← pixel_diff curr_frame prev_frame background (y * width + x);
      Some (if (diff >? noise_threshold) && (diff >? sensitivity_threshold) then s.1 + 1 else s.1, s.2 + 1))) (0, 0).

Definition ratio (a b : Z) : spec_float := fdiv binary32 (f_of_Z binary32 a) (f_of_Z binary32 b).

Definition cell_score (counts : Z * Z) : spec_float :=
  if counts.2 >? 0 then ratio counts.1 counts.2 else S754_zero false.

(** [0.01f]: the score from which a cell is in motion. *)
Definition one_percent : spec_float := f_lit binary32 1 100.

Record grid_totals := mkTotals {
  grid_scores : list spec_float;
  total_cells : Z;
  cells_with_motion : Z;
  max_cell_score : spec_float
}.

Definition count_cell (score : spec_float) (scores : list spec_float) (t : grid_totals) : grid_totals :=
  if fgt score one_percent then
    mkTotals scores (total_cells t + 1) (cells_with_motion t + 1)
      (if fgt score (max_cell_score t) then score else max_cell_score t)
  else mkTotals scores (total_cells t + 1) (cells_with_motion t) (max_cell_score t).

(** The score and the area; [area] is what the caller's variable holds. *)
Definition calculate_grid_motion (curr_frame prev_frame background : frame) (width height : Z)
    (sensitivity : spec_float) (noise_threshold grid_size : Z) (scores : option (list spec_float))
    (area : spec_float) (zone_mask : option (list bool)) : option (spec_float * spec_float * option (list spec_float)) :=
  match scores with
  | None => Some (S754_zero false, area, None)
  | Some scores =>
      cell_width ← quotient width grid_size;
      cell_height ← quotient height grid_size;
      sensitivity_threshold ← f_to_int (fmul binary32 sensitivity (f_of_Z binary32 255));
      t ← for_in (range 0 grid_size) (λ gy, for_in (range 0 grid_size) (λ gx t,
        let cell_idx := gy * grid_size + gx in
        in_zone ← match zone_mask with Some mask => aget mask cell_idx | None => Some true end;
        if in_zone : bool then
          counts ← cell_counts curr_frame prev_frame background width height sensitivity_threshold noise_threshold
                     cell_width cell_height gx gy;
          scores ← aset (grid_scores t) cell_idx (cell_score counts);
          Some (count_cell (cell_score counts) scores t)
        else
          scores ← aset (grid_scores t) cell_idx (S754_zero false);
          Some (mkTotals scores (total_cells t) (cells_with_motion t) (max_cell_score t))))
        (mkTotals scores 0 0 (S754_zero false));
      Some (max_cell_score t,
            if total_cells t >? 0 then ratio (cells_with_motion t) (total_cells t) else S754_zero false,
            Some (grid_scores t))
  end.

(** Without the grid: the share of the sampled pixels of the frame. *)
Definition changed_share (curr_frame prev_frame background : frame) (width height : Z) (sensitivity : spec_float)
    (noise_threshold : Z) : option spec_float :=
  changed_pixels ← for_in (range2 0 height) (λ y, for_in (range2 0 width) (λ x changed_pixels,
    diff ← pixel_diff curr_frame prev_frame background (y * width + x);
    Some (if (diff >? noise_threshold)
               && fgt (f_of_Z binary32 diff) (fmul binary32 sensitivity (f_of_Z binary32 255))
          then changed_pixels + 1 else changed_pixels))) 0;
  Some (ratio changed_pixels (cdiv (width * height) 4)).

(** ** Stores and copies *)

Definition bytes (f : frame) : Prop := Forall (λ v, 0 ≤ v ≤ 255) f.

Lemma bytes_aget f i v : bytes f → aget f i = Some v → 0 ≤ v ≤ 255.
Proof.
  intros Hf. unfold aget. case_match; [|done]. intros Hv. by apply (Forall_lookup_1 _ _ _ _ Hf Hv).
Qed.

Lemma aget_in (f : frame) i : 0 ≤ i < Z.of_nat (length f) → ∃ v, aget f i = Some v.
Proof.
  intros Hi. unfold aget. rewrite (proj2 (Z.leb_le _ _)) by lia.
  apply lookup_lt_is_Some_2. lia.
Qed.

Lemma u8_byte v : 0 ≤ v ≤ 255 → u8 v = v.
Proof. intros. unfold u8. apply Z.mod_small. lia. Qed.

Lemma put_in f i v :
  0 ≤ i < Z.of_nat (length f) →
  ∃ f', put f i v = Some f' ∧ length f' = length f ∧ aget f' i = Some (u8 v) ∧ (∀ k, k ≠ i → aget f' k = aget f k).
Proof.
  intros Hi. unfold put, aset. rewrite (proj2 (andb_true_iff _ _)) by (split; [apply Z.leb_le|apply Z.ltb_lt]; lia).
  eexists. split; [done|]. split; [by rewrite length_insert|]. unfold aget. split.
  - rewrite (proj2 (Z.leb_le _ _)) by lia. apply list_lookup_insert_eq. lia.
  - intros k Hk. case_match eqn:Hz; [|done]. apply Z.leb_le in Hz. apply list_lookup_insert_ne. lia.
Qed.

Lemma put_bytes f i v f' : put f i v = Some f' → bytes f → bytes f'.
Proof.
  intros [_ ->]%aset_inv Hf. apply Forall_insert; [done|]. unfold u8. pose proof (Z.mod_pos_bound v (2 ^ 8)). lia.
Qed.

Lemma put_length f i v f' : put f i v = Some f' → length f' = length f.
Proof. intros [_ ->]%aset_inv. apply length_insert. Qed.

Lemma copy_bytes_whole dst src n :
  Z.of_nat (length src) = n → Z.of_nat (length dst) = n → copy_bytes dst src n = Some src.
Proof.
  intros Hs Hd. unfold copy_bytes. rewrite !(proj2 (Nat.leb_le _ _)) by lia. simpl.
  rewrite take_ge, drop_ge, app_nil_r by lia. done.
Qed.

(** ** The blur is the mean over a clipped window *)

Definition window_start (radius i : Z) : Z := Z.max 0 (i - radius).
Definition window_end (n radius i : Z) : Z := Z.min n (i + radius + 1).

(** The mean of the pixels of [line] at most [radius] away from [i]. *)
Definition window_mean (line : Z → Z) (n radius i : Z) : Z :=
  Z.quot (sum_range line (window_start radius i) (window_end n radius i)) (window_end n radius i - window_start radius i).

Definition window (line : Z → Z) (n radius i : Z) : Z * Z :=
  (sum_range line (window_start radius i) (window_end n radius i), window_end n radius i - window_start radius i).

Section blur_line.
Context (src : frame) (at_ : Z → Z) (n radius : Z) (line : Z → Z).
Context (positive : 0 < n) (blurs : 0 < radius).
Context (reads : ∀ i, 0 ≤ i < n → aget src (at_ i) = Some (line i)).
Context (byte_line : ∀ i, 0 ≤ i < n → 0 ≤ line i ≤ 255).
Context (apart : ∀ i j, 0 ≤ i < n → 0 ≤ j < n → at_ i = at_ j → i = j).

Lemma window_mean_byte i : 0 ≤ i < n → 0 ≤ window_mean line n radius i ≤ 255.
Proof.
  intros Hi. apply mean_bounds; [unfold window_start, window_end; lia..|].
  intros j Hj. apply byte_line. unfold window_start, window_end in Hj. lia.
Qed.

Lemma first_window :
  for_in (range 0 (Z.min (radius + 1) n)) (λ i w, p ← aget src (at_ i); Some (w.1 + p, w.2 + 1)) (0, 0)
  = Some (window line n radius 0).
Proof.
  destruct (for_range_spec (λ i w, w = (sum_range line 0 i, i)) 0 (Z.min (radius + 1) n)
    (λ i w, p ← aget src (at_ i); Some (w.1 + p, w.2 + 1)) (0, 0)) as (w & -> & ->); [lia| |..].
  - by rewrite sum_range_empty by lia.
  - intros i w Hi ->. rewrite reads by lia. eexists. split; [done|]. simpl.
    by rewrite (sum_range_split line 0 i (i + 1)), sum_range_one by lia.
  - unfold window, window_start, window_end. rewrite Z.max_l by lia.
    replace (Z.min n (0 + radius + 1)) with (Z.min (radius + 1) n) by lia. by rewrite Z.sub_0_r.
Qed.

Lemma window_grows i :
  0 < i < n →
  (if i + radius <? n then p ← aget src (at_ (i + radius));
     Some ((window line n radius (i - 1)).1 + p, (window line n radius (i - 1)).2 + 1)
   else Some (window line n radius (i - 1)))
  = Some (sum_range line (window_start radius (i - 1)) (window_end n radius i),
          window_end n radius i - window_start radius (i - 1)).
Proof.
  intros Hi. unfold window, window_start, window_end. replace (i - 1 + radius + 1) with (i + radius) by lia.
  destruct (i + radius <? n) eqn:E; unbool.
  - rewrite reads by lia. simpl. rewrite !Z.min_r by lia. f_equal. f_equal; [|lia].
    rewrite (sum_range_split line _ (i + radius) (i + radius + 1)), sum_range_one by lia. lia.
  - by rewrite !Z.min_l by lia.
Qed.

Lemma window_shrinks i :
  0 < i < n →
  (if i - radius - 1 >=? 0 then p ← aget src (at_ (i - radius - 1));
     Some (sum_range line (window_start radius (i - 1)) (window_end n radius i) - p,
           window_end n radius i - window_start radius (i - 1) - 1)
   else Some (sum_range line (window_start radius (i - 1)) (window_end n radius i),
              window_end n radius i - window_start radius (i - 1)))
  = Some (window line n radius i).
Proof.
  intros Hi. unfold window, window_start. destruct (i - radius - 1 >=? 0) eqn:E; unbool.
  - rewrite reads by lia. simpl. rewrite !Z.max_r by lia. f_equal. f_equal; [|lia].
    replace (i - 1 - radius) with (i - radius - 1) by lia.
    rewrite (sum_range_split line (i - radius - 1) (i - radius - 1 + 1)), sum_range_one by (unfold window_end; lia).
    replace (i - radius - 1 + 1) with (i - radius) by lia. lia.
  - rewrite !Z.max_l by lia. done.
Qed.

Lemma blur_line_spec dst :
  (∀ i, 0 ≤ i < n → 0 ≤ at_ i < Z.of_nat (length dst)) →
  ∃ dst', blur_line src at_ n radius dst = Some dst' ∧ length dst' = length dst ∧
    (∀ i, 0 ≤ i < n → aget dst' (at_ i) = Some (window_mean line n radius i)) ∧
    (∀ k, (∀ i, 0 ≤ i < n → at_ i ≠ k) → aget dst' k = aget dst k).
Proof.
  intros Hin. unfold blur_line. rewrite first_window. cbn [mbind option_bind].
  assert (∀ i, 0 ≤ i < n → quotient (window line n radius i).1 (window line n radius i).2 = Some (window_mean line n radius i)) as Hq.
  { intros i Hi. unfold quotient, window, window_mean, cdiv. cbn [fst snd].
    rewrite (proj2 (Z.eqb_neq _ _)) by (unfold window_start, window_end; lia). done. }
  assert (∀ i, 0 ≤ i < n → u8 (window_mean line n radius i) = window_mean line n radius i) as Hu8
    by (intros; by apply u8_byte, window_mean_byte).
  rewrite Hq by lia. cbn [mbind option_bind].
  destruct (put_in dst (at_ 0) (window_mean line n radius 0)) as (d0 & -> & Hlen0 & Hat0 & Hne0); [apply Hin; lia|].
  cbn [mbind option_bind].
  edestruct (for_range_spec (λ i (s : frame * (Z * Z)),
    s.2 = window line n radius (i - 1) ∧ length s.1 = length dst ∧
    (∀ j, 0 ≤ j < i → aget s.1 (at_ j) = Some (window_mean line n radius j)) ∧
    (∀ k, (∀ j, 0 ≤ j < i → at_ j ≠ k) → aget s.1 k = aget dst k)) 1 n) as ([d w] & E & Hw & Hlen & Hdone & Hrest);
    [lia| | |rewrite E; exists d; done].
  - cbn [fst snd]. split; [done|]. split; [done|]. split.
    + intros j Hj. replace j with 0 by lia. by rewrite Hat0, Hu8 by lia.
    + intros k Hk. apply Hne0. intros ->. by apply (Hk 0); [lia|].
  - intros i [d w] Hi (Hw & Hlen & Hdone & Hrest). cbn [fst snd] in *. subst w.
    rewrite window_grows by lia. cbn [mbind option_bind fst snd]. rewrite window_shrinks by lia. cbn [mbind option_bind].
    rewrite Hq by lia. cbn [mbind option_bind].
    destruct (put_in d (at_ i) (window_mean line n radius i)) as (d1 & -> & Hlen1 & Hat1 & Hne1); [rewrite Hlen; apply Hin; lia|].
    eexists. split; [done|]. cbn [fst snd]. split; [by replace (i + 1 - 1) with i by lia|]. split; [congruence|]. split.
    + intros j Hj. destruct (decide (j = i)) as [->|Hji]; [by rewrite Hat1, Hu8 by lia|].
      rewrite Hne1; [apply Hdone; lia|]. intros Hat. apply Hji, apart; [lia..|done].
    + intros k Hk. rewrite Hne1; [apply Hrest; intros j Hj; apply Hk; lia|]. intros ->. by apply (Hk i); [lia|].
Qed.
End blur_line.

Definition pixel (f : frame) (width y x : Z) : Z := default 0 (aget f (y * width + x)).

(** [f] is an image of this size. *)
Definition image (width height : Z) (f : frame) : Prop := Z.of_nat (length f) = width * height ∧ bytes f.

Lemma pixel_in width height f y x :
  image width height f → 0 ≤ y < height → 0 ≤ x < width →
  aget f (y * width + x) = Some (pixel f width y x) ∧ 0 ≤ pixel f width y x ≤ 255.
Proof.
  intros [Hlen Hb] Hy Hx. pose proof (address_range width height y x Hx Hy).
  destruct (aget_in f (y * width + x)) as [v Hv]; [lia|]. unfold pixel. rewrite Hv. split; [done|]. by apply (bytes_aget f _ _ Hb Hv).
Qed.

Lemma image_of_pixels width height f (value : Z → Z → Z) :
  Z.of_nat (length f) = width * height → 0 ≤ width →
  (∀ y x, 0 ≤ y < height → 0 ≤ x < width → aget f (y * width + x) = Some (value y x) ∧ 0 ≤ value y x ≤ 255) →
  image width height f.
Proof.
  intros Hlen Hw Hv. split; [done|]. apply Forall_lookup_2. intros k v Hk.
  pose proof (lookup_lt_Some _ _ _ Hk). assert (0 < width) by (destruct (decide (width = 0)) as [->|]; lia).
  pose proof (Z.div_mod (Z.of_nat k) width ltac:(lia)). pose proof (Z.mod_pos_bound (Z.of_nat k) width ltac:(lia)).
  assert (0 ≤ Z.of_nat k / width < height) by (split; [apply Z.div_pos; lia|apply Z.div_lt_upper_bound; lia]).
  destruct (Hv (Z.of_nat k / width) (Z.of_nat k `mod` width)) as [Ha ?]; [done..|].
  replace (Z.of_nat k / width * width + Z.of_nat k `mod` width) with (Z.of_nat k) in Ha by lia.
  rewrite aget_nat, Hk in Ha. by simplify_eq.
Qed.

(** The blur along the rows, and then along the columns. *)
Definition row_blurred (src : frame) (width radius y x : Z) : Z :=
  window_mean (λ x', pixel src width y x') width radius x.

Definition box_blurred (src : frame) (width height radius y x : Z) : Z :=
  window_mean (λ y', row_blurred src width radius y' x) height radius y.

Section box_blur.
Context (width height radius : Z) (wide : 0 < width) (high : 0 < height) (blurs : 0 < radius).

Lemma row_pass src dst :
  image width height src → Z.of_nat (length dst) = width * height →
  ∃ d, for_in (range 0 height) (λ y, blur_line src (λ i, y * width + i) width radius) dst = Some d ∧
    image width height d ∧
    (∀ y x, 0 ≤ y < height → 0 ≤ x < width → aget d (y * width + x) = Some (row_blurred src width radius y x)).
Proof.
  intros Hsrc Hdst.
  destruct (for_range_spec (λ y d, length d = length dst ∧ (∀ y' x, 0 ≤ y' < y → 0 ≤ x < width →
      aget d (y' * width + x) = Some (row_blurred src width radius y' x))) 0 height
    (λ y, blur_line src (λ i, y * width + i) width radius) dst) as (d & E & Hl & Hd); [lia|split; [done|intros; lia]| |].
  - intros y d Hy [Hl Hd].
    destruct (blur_line_spec src (λ i, y * width + i) width radius (λ i, pixel src width y i) wide blurs) with (dst := d)
      as (d' & E & Hl' & Hin & Hout).
    + intros i Hi. by apply (pixel_in width height).
    + intros i Hi. by apply (pixel_in width height).
    + intros; lia.
    + intros i Hi. pose proof (address_range width height y i Hi Hy). lia.
    + exists d'. split; [done|]. split; [congruence|]. intros y' x Hy' Hx.
      destruct (decide (y' = y)) as [->|Hne]; [by apply Hin|]. rewrite Hout; [apply Hd; lia|].
      intros i Hi Hat. apply Hne. by destruct (address_inj width y i y' x Hi Hx Hat).
  - exists d. split; [done|]. split; [|done]. apply (image_of_pixels _ _ _ (row_blurred src width radius)); [lia..|].
    intros y x Hy Hx. split; [by apply Hd|]. apply window_mean_byte; [done..| |done].
    intros i Hi. by apply (pixel_in width height).
Qed.

Lemma column_pass src dst :
  image width height src → Z.of_nat (length dst) = width * height →
  ∃ d, for_in (range 0 width) (λ x, blur_line src (λ i, i * width + x) height radius) dst = Some d ∧
    image width height d ∧
    (∀ y x, 0 ≤ y < height → 0 ≤ x < width →
      aget d (y * width + x) = Some (window_mean (λ y', pixel src width y' x) height radius y)).
Proof.
  intros Hsrc Hdst.
  destruct (for_range_spec (λ x d, length d = length dst ∧ (∀ y x', 0 ≤ y < height → 0 ≤ x' < x → x' < width →
      aget d (y * width + x') = Some (window_mean (λ y', pixel src width y' x') height radius y))) 0 width
    (λ x, blur_line src (λ i, i * width + x) height radius) dst) as (d & E & Hl & Hd); [lia|split; [done|intros; lia]| |].
  - intros x d Hx [Hl Hd].
    destruct (blur_line_spec src (λ i, i * width + x) height radius (λ i, pixel src width i x) high blurs) with (dst := d)
      as (d' & E & Hl' & Hin & Hout).
    + intros i Hi. by apply (pixel_in width height).
    + intros i Hi. by apply (pixel_in width height).
    + intros i j Hi Hj Hat. by destruct (address_inj width i x j x Hx Hx Hat).
    + intros i Hi. pose proof (address_range width height i x Hx Hi). lia.
    + exists d'. split; [done|]. split; [congruence|]. intros y x' Hy Hx' Hw.
      destruct (decide (x' = x)) as [->|Hne]; [by apply Hin|]. rewrite Hout; [apply Hd; lia|].
      intros i Hi Hat. apply Hne. symmetry. apply (address_inj width i x y x' Hx ltac:(lia) Hat).
  - exists d. split; [done|]. assert (∀ y x, 0 ≤ y < height → 0 ≤ x < width →
      aget d (y * width + x) = Some (window_mean (λ y', pixel src width y' x) height radius y)) as Hpix
      by (intros; apply Hd; lia).
    split; [|done].
    apply (image_of_pixels _ _ _ (λ y x, window_mean (λ y', pixel src width y' x) height radius y)); [lia..|].
    intros y x Hy Hx. split; [by apply Hpix|]. apply window_mean_byte; [done..| |done].
    intros i Hi. by apply (pixel_in width height).
Qed.

(** The two sliding windows of the blur compute the mean of the means: each
    pixel is the mean, over the rows at most [radius] away, of the means over
    the columns at most [radius] away, with windows clipped at the border, for
    every image and radius, and whatever the buffers held before. *)
Lemma box_blur_spec temp src dst :
  image width height src → Z.of_nat (length dst) = width * height → Z.of_nat (length temp) = width * height →
  ∃ d, apply_box_blur (Some temp) src dst width height radius = Some d ∧
    image width height d ∧
    (∀ y x, 0 ≤ y < height → 0 ≤ x < width →
      aget d (y * width + x) = Some (box_blurred src width height radius y x)).
Proof.
  intros Hsrc Hdst Htemp. unfold apply_box_blur. rewrite (proj2 (Z.leb_gt _ _)) by done.
  destruct (row_pass src dst Hsrc Hdst) as (d & -> & Hd & Hrow). cbn [mbind option_bind].
  rewrite copy_bytes_whole by (destruct Hd; done). cbn [mbind option_bind].
  destruct (column_pass d d Hd (proj1 Hd)) as (d' & -> & Hd' & Hcol). exists d'. split; [done|]. split; [done|].
  intros y x Hy Hx. rewrite Hcol by done. f_equal. unfold box_blurred, window_mean. f_equal.
  unfold sum_range, range. assert (window_end height radius y ≤ height) by (unfold window_end; lia).
  assert (0 ≤ window_start radius y) by (unfold window_start; lia).
  assert (∀ i, i ∈ seqZ (window_start radius y) (window_end height radius y - window_start radius y) → 0 ≤ i < height) as Hr
    by (intros i ?%elem_of_seqZ; lia).
  induction (seqZ _ _) as [|i l IH]; [done|]. simpl. rewrite IH by (intros; apply Hr; set_solver).
  f_equal. unfold pixel at 1. rewrite Hrow by (done || (apply Hr; set_solver)). done.
Qed.
End box_blur.

(** ** Grey and smaller frames are images *)

Lemma gray_value_range r g b : 0 ≤ r ≤ 255 → 0 ≤ g ≤ 255 → 0 ≤ b ≤ 255 → 0 ≤ gray_value r g b ≤ 254.
Proof.
  intros. unfold gray_value, r_coeff, g_coeff, b_coeff. rewrite Z.shiftr_div_pow2 by lia.
  assert (0 ≤ (76 * r + 150 * g + 29 * b) / 2 ^ 8 ≤ 254)
    by (split; [apply Z.div_pos|apply Z.lt_succ_r, Z.div_lt_upper_bound]; lia).
  case_match; unbool; lia.
Qed.

Lemma rgb_to_grayscale_image gray rgb width height :
  0 ≤ width → 0 ≤ height → Z.of_nat (length gray) = width * height →
  Z.of_nat (length rgb) = width * height * 3 → bytes rgb →
  ∃ f, rgb_to_grayscale (Some gray) rgb width height = Some (Some f) ∧ image width height f.
Proof.
  intros Hw Hh Hg Hl Hb.
  set (value := λ y x, gray_value (default 0 (aget rgb ((y * width + x) * 3)))
    (default 0 (aget rgb ((y * width + x) * 3 + 1))) (default 0 (aget rgb ((y * width + x) * 3 + 2)))).
  assert (∀ i, 0 ≤ i < width * height * 3 → ∃ v, aget rgb i = Some v ∧ 0 ≤ v ≤ 255) as Hget.
  { intros i Hi. destruct (aget_in rgb i) as [v Hv]; [lia|]. exists v. split; [done|]. by apply (bytes_aget rgb i). }
  assert (∀ y x, 0 ≤ y < height → 0 ≤ x < width → 0 ≤ value y x ≤ 254 ∧
    (∀ a, (r ← aget rgb ((y * width + x) * 3); g ← aget rgb ((y * width + x) * 3 + 1);
      b ← aget rgb ((y * width + x) * 3 + 2); put a (y * width + x) (gray_value r g b)) = put a (y * width + x) (value y x)))
    as Hv.
  { intros y x Hy Hx. pose proof (address_range width height y x Hx Hy). unfold value.
    destruct (Hget ((y * width + x) * 3)) as (r & -> & ?); [lia|].
    destruct (Hget ((y * width + x) * 3 + 1)) as (g & -> & ?); [lia|].
    destruct (Hget ((y * width + x) * 3 + 2)) as (b & -> & ?); [lia|].
    split; [by apply gray_value_range|done]. }
  edestruct (for_image_stores width height value) as (f & E & Hlen & Hpix);
    [|apply Z.eq_le_incl; symmetry; exact Hg|unfold rgb_to_grayscale; rewrite E; exists f; split; [done|]].
  - intros y x a Hy Hx _. destruct (Hv y x Hy Hx) as [Hr ->]. unfold put. by rewrite u8_byte by lia.
  - apply (image_of_pixels _ _ _ value); [lia..|]. intros y x Hy Hx. split; [by apply Hpix|]. destruct (Hv y x Hy Hx). lia.
Qed.

Lemma block_sum_bounds src width height factor x y :
  image width height src → 0 ≤ x → 0 ≤ y → 0 < factor →
  ∃ s n, block_sum src width height factor x y = Some (s, n) ∧ 0 ≤ n ∧ 0 ≤ s ≤ 255 * n.
Proof.
  intros Hsrc Hx Hy Hf. unfold block_sum.
  destruct (for_in_keeps (λ s : Z * Z, 0 ≤ s.2 ∧ 0 ≤ s.1 ≤ 255 * s.2) (range 0 (Z.min factor (height - y * factor)))
    (λ dy, for_in (range 0 (Z.min factor (width - x * factor))) (λ dx s,
      p ← aget src ((y * factor + dy) * width + (x * factor + dx)); Some (s.1 + p, s.2 + 1))) (0, 0))
    as ([s n] & E & H); [done| |by exists s, n].
  intros dy s Hdy%elem_of_range Hs. apply for_in_keeps; [done|]. intros dx s' Hdx%elem_of_range Hs'.
  destruct (pixel_in width height src (y * factor + dy) (x * factor + dx) Hsrc) as [-> ?]; [nia..|].
  eexists. split; [done|]. simpl. lia.
Qed.

Lemma downscaled_size_pos n factor : 32 ≤ downscaled_size n factor.
Proof. unfold downscaled_size. case_match; unbool; lia. Qed.

Lemma downscale_grayscale_image dst src width height factor :
  image width height src → Z.of_nat (length dst) = downscale_bytes width height factor →
  ∃ f w h, downscale_grayscale (Some dst) src width height factor = Some (Some (f, w, h)) ∧ image w h f ∧
    w = (if factor <=? 1 then width else downscaled_size width factor) ∧
    h = (if factor <=? 1 then height else downscaled_size height factor).
Proof.
  intros Hsrc Hdst. unfold downscale_grayscale, downscale_bytes in *. destruct (factor <=? 1) eqn:Ef.
  - rewrite copy_bytes_whole by (done || apply Hsrc). by eexists _, _, _.
  - unbool. pose proof (downscaled_size_pos width factor). pose proof (downscaled_size_pos height factor).
    set (nw := downscaled_size width factor) in *. set (nh := downscaled_size height factor) in *.
    set (value := λ y x, match block_sum src width height factor x y with
      Some s => if s.2 >? 0 then cdiv s.1 s.2 else 0 | None => 0 end).
    assert (∀ y x, 0 ≤ y → 0 ≤ x → ∃ s, block_sum src width height factor x y = Some s ∧
      (if s.2 >? 0 then cdiv s.1 s.2 else 0) = value y x ∧ 0 ≤ value y x ≤ 255) as Hv.
    { intros y x Hy Hx. destruct (block_sum_bounds src width height factor x y) as (s & n & E & Hn & Hs); [done..|lia|].
      exists (s, n). unfold value. rewrite E. split; [done|]. split; [done|]. simpl. case_match; unbool; [|lia].
      unfold cdiv. rewrite Z.quot_div_nonneg by lia. split; [apply Z.div_pos|apply Z.div_le_upper_bound]; lia. }
    edestruct (for_image_stores nw nh value) as (f & E & Hlen & Hpix);
      [|apply Z.eq_le_incl; symmetry; exact Hdst|rewrite E; eexists f, _, _; split; [done|]; split; [|done]].
    + intros y x a Hy Hx _. destruct (Hv y x) as (s & -> & Hs & Hr); [lia..|].
      cbn [mbind option_bind]. rewrite Hs. unfold put. by rewrite u8_byte by lia.
    + apply (image_of_pixels _ _ _ value); [lia..|]. intros y x Hy Hx. split; [by apply Hpix|].
      destruct (Hv y x) as (s & _ & _ & ?); lia.
Qed.

Lemma window_mean_zero line n i : 0 ≤ i < n → window_mean line n 0 i = line i.
Proof.
  intros Hi. unfold window_mean, window_start, window_end. rewrite Z.max_r, Z.min_r by lia.
  replace (i + 0 + 1) with (i - 0 + 1) by lia. rewrite sum_range_one. replace (i - 0 + 1 - (i - 0)) with 1 by lia.
  rewrite Z.quot_1_r. f_equal. lia.
Qed.

Lemma apply_box_blur_spec temp src dst width height radius :
  0 < width → 0 < height → 0 ≤ radius → image width height src → Z.of_nat (length dst) = width * height →
  (0 < radius → ∃ t, temp = Some t ∧ Z.of_nat (length t) = width * height) →
  ∃ d, apply_box_blur temp src dst width height radius = Some d ∧ image width height d ∧
    (∀ y x, 0 ≤ y < height → 0 ≤ x < width → aget d (y * width + x) = Some (box_blurred src width height radius y x)).
Proof.
  intros Hw Hh Hr Hsrc Hdst Ht. destruct (decide (radius = 0)) as [->|Hne].
  - unfold apply_box_blur. rewrite (proj2 (Z.leb_le _ _)) by done.
    rewrite copy_bytes_whole by (done || apply Hsrc). exists src. split; [done|]. split; [done|]. intros y x Hy Hx.
    unfold box_blurred, row_blurred. rewrite !window_mean_zero by done. by apply (pixel_in width height).
  - destruct Ht as (t & -> & Hlen); [lia|]. apply box_blur_spec; done || lia.
Qed.

Lemma apply_box_blur_image temp src dst width height radius :
  0 < width → 0 < height → image width height src → Z.of_nat (length dst) = width * height →
  (∀ t, temp = Some t → Z.of_nat (length t) = width * height) →
  ∃ d, apply_box_blur temp src dst width height radius = Some d ∧ image width height d.
Proof.
  intros Hw Hh Hsrc Hdst Ht. destruct (decide (radius ≤ 0)) as [Hr|Hr].
  - unfold apply_box_blur. rewrite (proj2 (Z.leb_le _ _)) by done.
    rewrite copy_bytes_whole by (done || apply Hsrc). by exists src.
  - destruct temp as [t|].
    + destruct (box_blur_spec width height radius Hw Hh ltac:(lia) t src dst) as (d & E & Hd & _); [done..|by apply Ht|].
      by exists d.
    + unfold apply_box_blur. rewrite (proj2 (Z.leb_gt _ _)) by lia.
      destruct (row_pass width height radius Hw Hh ltac:(lia) src dst Hsrc Hdst) as (d & -> & Hd & _). by exists d.
Qed.

(** ** The background follows the frame, with rounding towards black *)

Lemma blend_between alpha bg cur :
  0 ≤ alpha ≤ 256 → 0 ≤ bg ≤ 255 → 0 ≤ cur ≤ 255 → Z.min bg cur ≤ blend alpha bg cur ≤ Z.max bg cur.
Proof.
  intros. unfold blend. rewrite Z.shiftr_div_pow2 by lia.
  assert (Z.min bg cur ≤ ((256 - alpha) * bg + alpha * cur) / 2 ^ 8 ≤ Z.max bg cur)
    by (split; [apply Z.div_le_lower_bound|apply Z.lt_succ_r, Z.div_lt_upper_bound]; nia).
  by rewrite u8_byte by lia.
Qed.

Lemma blend_stuck alpha bg cur :
  0 ≤ alpha ≤ 256 → 0 ≤ bg ≤ cur → cur ≤ 255 → alpha * (cur - bg) < 256 → blend alpha bg cur = bg.
Proof.
  intros. unfold blend. rewrite Z.shiftr_div_pow2 by lia.
  replace ((256 - alpha) * bg + alpha * cur) with (alpha * (cur - bg) + bg * 2 ^ 8) by lia.
  rewrite Z.div_add, Z.div_small by nia. apply u8_byte. lia.
Qed.

Lemma blend_falls alpha bg cur :
  0 < alpha ≤ 256 → 0 ≤ cur < bg → bg ≤ 255 → cur ≤ blend alpha bg cur < bg.
Proof.
  intros. pose proof (blend_between alpha bg cur ltac:(lia) ltac:(lia) ltac:(lia)) as Hb. split; [lia|].
  unfold blend in *. rewrite Z.shiftr_div_pow2 in * by lia.
  assert (((256 - alpha) * bg + alpha * cur) / 2 ^ 8 < bg) by (apply Z.div_lt_upper_bound; [lia|]; nia).
  assert (0 ≤ ((256 - alpha) * bg + alpha * cur) / 2 ^ 8) by (apply Z.div_pos; nia).
  rewrite u8_byte by lia. done.
Qed.

Lemma update_background_model_spec background current width height rate alpha :
  image width height background → image width height current → 0 ≤ width → 0 ≤ height →
  f_to_int (fmul binary32 rate (f_of_Z binary32 256)) = Some alpha → 0 ≤ alpha ≤ 256 →
  ∃ f, update_background_model background current width height rate = Some f ∧ image width height f ∧
    (∀ i b c, aget background i = Some b → aget current i = Some c → aget f i = Some (blend alpha b c)).
Proof.
  intros [Hlb Hb] [Hlc Hc] Hw Hh Ha Halpha. unfold update_background_model. rewrite Ha. cbn [mbind option_bind].
  assert (∀ i, 0 ≤ i < width * height → ∃ b c, aget background i = Some b ∧ aget current i = Some c ∧ 0 ≤ b ≤ 255 ∧ 0 ≤ c ≤ 255)
    as Hget.
  { intros i Hi. destruct (aget_in background i) as [b Eb]; [lia|]. destruct (aget_in current i) as [c Ec]; [lia|].
    exists b, c. split; [done|]. split; [done|]. split; [by apply (bytes_aget background i)|by apply (bytes_aget current i)]. }
  destruct (for_range_spec (λ n f, length f = length background ∧ bytes f ∧
    (∀ i b c, 0 ≤ i < n → aget background i = Some b → aget current i = Some c → aget f i = Some (blend alpha b c)) ∧
    (∀ i, n ≤ i → aget f i = aget background i)) 0 (width * height) (λ i background,
      b ← aget background i; c ← aget current i; put background i (blend alpha b c)) background)
    as (f & E & Hlen & Hbytes & Hdone & _); [nia|split; [done|]; split; [done|]; split; [lia|done]| |].
  - intros i f Hi (Hlen & Hf & Hdone & Hrest). destruct (Hget i Hi) as (b & c & Eb & Ec & Rb & Rc).
    rewrite Hrest, Eb, Ec by lia. cbn [mbind option_bind].
    destruct (put_in f i (blend alpha b c)) as (f' & E & Hlen' & Hat & Hne); [lia|]. exists f'.
    split; [done|]. split; [congruence|]. split; [by apply (put_bytes _ _ _ _ E)|]. split.
    + intros j b' c' Hj Eb' Ec'. destruct (decide (j = i)) as [->|Hji]; [|rewrite Hne by done; apply Hdone; auto; lia].
      assert (b' = b) as -> by congruence. assert (c' = c) as -> by congruence.
      rewrite Hat. f_equal. apply u8_byte. pose proof (blend_between alpha b c Halpha Rb Rc). lia.
    + intros j Hj. rewrite Hne by lia. apply Hrest. lia.
  - exists f. split; [done|]. split; [split; [lia|done]|]. intros i b c Eb Ec. apply Hdone; try done.
    apply aget_Some_range in Eb. lia.
Qed.

(** The model after [n] updates with the same frame. *)
Fixpoint updates (n : nat) (background current : frame) (width height : Z) (rate : spec_float) : option frame :=
  match n with
  | O => Some background
  | S n =>
      background ← update_background_model background current width height rate;
      updates n background current width height rate
  end.

(** The background does not converge to a scene that stays the same.  A
    pixel that is darker than the scene by less than [256 / alpha] is never
    raised, however many updates follow; one that is brighter falls at every
    update until it equals the scene. *)
Theorem background_rounds_down n background current width height rate alpha i b c :
  image width height background → image width height current → 0 ≤ width → 0 ≤ height →
  f_to_int (fmul binary32 rate (f_of_Z binary32 256)) = Some alpha → 0 < alpha ≤ 256 →
  aget background i = Some b → aget current i = Some c →
  ∃ f, updates n background current width height rate = Some f ∧
    (b ≤ c → alpha * (c - b) < 256 → aget f i = Some b) ∧
    (c ≤ b → b - c ≤ Z.of_nat n → aget f i = Some c).
Proof.
  intros Hb Hc Hw Hh Ha Halpha. revert background b Hb. induction n as [|n IH]; intros background b Hb Eb Ec; simpl.
  - exists background. split; [done|]. split; [done|]. intros. by replace c with b by lia.
  - assert (0 ≤ b ≤ 255) by (by apply (bytes_aget background i), Eb; apply Hb).
    assert (0 ≤ c ≤ 255) by (by apply (bytes_aget current i), Ec; apply Hc).
    destruct (update_background_model_spec background current width height rate alpha) as (f & -> & Hf & Hpix); [done..|lia|].
    cbn [mbind option_bind]. destruct (IH f (blend alpha b c) Hf) as (f' & -> & Hup & Hdown); [by apply Hpix|done|].
    exists f'. split; [done|]. split.
    + intros Hbc Hgap. rewrite blend_stuck in Hup by lia. by apply Hup.
    + intros Hbc Hn. destruct (decide (b = c)) as [->|Hne].
      * rewrite blend_stuck in Hdown by lia. apply Hdown; lia.
      * pose proof (blend_falls alpha b c). apply Hdown; lia.
Qed.

(** ** The grid counts changed pixels, cell by cell *)

Lemma positive_score s : fgt s one_percent = true → fgt s (S754_zero false) = true.
Proof.
  intros Hs. assert (s ≠ S754_nan) by (by intros ->). rewrite !fgt_key in * by done. unfold key_lt in *.
  change (fkey one_percent) with (1, -30, 10737418) in Hs. simpl in *. lia.
Qed.

Section grid.
Context (curr_frame prev_frame background : frame) (width height threshold noise_threshold grid_size : Z).
Context (curr_image : image width height curr_frame) (prev_image : image width height prev_frame).
Context (background_image : image width height background).
Context (wide : 0 ≤ width) (high : 0 ≤ height) (cells : 0 < grid_size).

(** A pixel that differs by more than both thresholds, from the previous frame
    or from the background. *)
Definition changed (p : Z * Z) : bool :=
  let diff (f : frame) := Z.abs (pixel curr_frame width p.1 p.2 - pixel f width p.1 p.2) in
  let d := Z.max (diff prev_frame) (diff background) in
  (d >? noise_threshold) && (d >? threshold).

(** The pixels of a cell that are looked at: every other row and column. *)
Definition cell_pixels (gy gx : Z) : list (Z * Z) :=
  let cell_width := cdiv width grid_size in
  let cell_height := cdiv height grid_size in
  nested (range2 (gy * cell_height) (Z.min ((gy + 1) * cell_height) height))
         (range2 (gx * cell_width) (Z.min ((gx + 1) * cell_width) width)).

Definition changed_pixels (gy gx : Z) : list (Z * Z) := filter (λ p, changed p = true) (cell_pixels gy gx).

Definition score_of (in_zone : Z → bool) (c : Z * Z) : spec_float :=
  if in_zone (c.1 * grid_size + c.2)
  then cell_score (Z.of_nat (length (changed_pixels c.1 c.2)), Z.of_nat (length (cell_pixels c.1 c.2)))
  else S754_zero false.

Definition moving (in_zone : Z → bool) (c : Z * Z) : bool := fgt (score_of in_zone c) one_percent.

Definition grid_cells : list (Z * Z) := nested (range 0 grid_size) (range 0 grid_size).

Lemma pixel_diff_spec y x :
  0 ≤ y < height → 0 ≤ x < width →
  pixel_diff curr_frame prev_frame background (y * width + x)
  = Some (Z.max (Z.abs (pixel curr_frame width y x - pixel prev_frame width y x))
                (Z.abs (pixel curr_frame width y x - pixel background width y x))).
Proof.
  intros Hy Hx. unfold pixel_diff.
  destruct (pixel_in width height curr_frame y x) as [-> _]; [done..|].
  destruct (pixel_in width height prev_frame y x) as [-> _]; [done..|].
  destruct (pixel_in width height background y x) as [-> _]; [done..|].
  cbn [mbind option_bind]. f_equal. case_match; unbool; lia.
Qed.

Lemma cell_counts_spec gy gx :
  0 ≤ gy → 0 ≤ gx →
  cell_counts curr_frame prev_frame background width height threshold noise_threshold
    (cdiv width grid_size) (cdiv height grid_size) gx gy
  = Some (Z.of_nat (length (changed_pixels gy gx)), Z.of_nat (length (cell_pixels gy gx))).
Proof.
  intros Hy Hx. unfold cell_counts. rewrite for_in_nested. fold (cell_pixels gy gx).
  rewrite (for_in_counts _ changed); [done|]. intros [y x] s Hp. unfold cell_pixels in Hp.
  apply elem_of_nested in Hp as [Hpy%elem_of_range2 Hpx%elem_of_range2]. cbn [fst snd].
  assert (0 ≤ cdiv width grid_size) by (apply Z.quot_pos; lia). assert (0 ≤ cdiv height grid_size) by (apply Z.quot_pos; lia).
  rewrite pixel_diff_spec by nia. done.
Qed.

(** The state of the loop over the grid once the cells [dn] are done. *)
Definition counted (in_zone : Z → bool) (dn : list (Z * Z)) (t : grid_totals) : Prop :=
  Z.of_nat (length (grid_scores t)) = grid_size * grid_size ∧
  (∀ c, c ∈ dn → aget (grid_scores t) (c.1 * grid_size + c.2) = Some (score_of in_zone c)) ∧
  total_cells t = Z.of_nat (length (filter (λ c, in_zone (c.1 * grid_size + c.2) = true) dn)) ∧
  cells_with_motion t = Z.of_nat (length (filter (λ c, moving in_zone c = true) dn)) ∧
  (cells_with_motion t = 0 → max_cell_score t = S754_zero false) ∧
  (0 < cells_with_motion t → fgt (max_cell_score t) one_percent = true).

Lemma filter_snoc {A} (P : A → Prop) `{∀ x, Decision (P x)} (l : list A) x :
  filter P (l ++ [x]) = filter P l ++ (if decide (P x) then [x] else []).
Proof. rewrite filter_app, filter_cons, filter_nil. done. Qed.

Lemma count_cell_counted in_zone dn c t :
  counted in_zone dn t → c ∉ dn → c ∈ grid_cells → (∀ c', c' ∈ dn → c' ∈ grid_cells) →
  ∃ scores, aset (grid_scores t) (c.1 * grid_size + c.2) (score_of in_zone c) = Some scores ∧
    counted in_zone (dn ++ [c])
      (if in_zone (c.1 * grid_size + c.2) then count_cell (score_of in_zone c) scores t
       else mkTotals scores (total_cells t) (cells_with_motion t) (max_cell_score t)).
Proof.
  intros (Hlen & Hat & Htot & Hmov & Hmax & Hbig) Hnew Hc Hdn. destruct c as [gy gx]. cbn [fst snd] in *.
  apply elem_of_nested in Hc as Hc2. rewrite !elem_of_range in Hc2. destruct Hc2 as [Hy Hx].
  pose proof (address_range grid_size grid_size gy gx Hx Hy) as Hr.
  unfold aset. rewrite (proj2 (andb_true_iff _ _)) by (split; [apply Z.leb_le|apply Z.ltb_lt]; lia).
  eexists. split; [done|]. set (scores := <[_ := _]> (grid_scores t)).
  assert (∀ c', c' ∈ dn ++ [(gy, gx)] → aget scores (c'.1 * grid_size + c'.2) = Some (score_of in_zone c')) as Hscores.
  { intros c' Hc'. assert (c' ∈ grid_cells) as Hg by (apply elem_of_app in Hc' as [?| ->%list_elem_of_singleton]; auto).
    destruct c' as [y' x']. cbn [fst snd]. apply elem_of_nested in Hg. rewrite !elem_of_range in Hg. destruct Hg as [Hy' Hx'].
    pose proof (address_range grid_size grid_size y' x' Hx' Hy').
    apply elem_of_app in Hc' as [Hin|[= -> ->]%list_elem_of_singleton].
    - rewrite <-(Hat (y', x') Hin). unfold aget, scores. cbn [fst snd]. case_match; [|done].
      apply list_lookup_insert_ne. intros E. apply Hnew.
      destruct (address_inj grid_size gy gx y' x') as [-> ->]; [lia..|done].
    - unfold aget, scores. rewrite (proj2 (Z.leb_le _ _)) by lia. apply list_lookup_insert_eq. lia. }
  assert (Z.of_nat (length scores) = grid_size * grid_size) as Hlen2 by (unfold scores; by rewrite length_insert).
  assert (moving in_zone (gy, gx) = fgt (score_of in_zone (gy, gx)) one_percent) as Hm by done.
  unfold counted. rewrite !filter_snoc, !length_app. cbn [fst snd].
  destruct (in_zone (gy * grid_size + gx)) eqn:Ez.
  - unfold count_cell. destruct (fgt (score_of in_zone (gy, gx)) one_percent) eqn:Es; cbn [grid_scores total_cells cells_with_motion max_cell_score];
      (split; [done|]; split; [done|]); repeat case_decide; try congruence; simpl length;
      (split; [lia|]; split; [lia|]); [split; [lia|intros _]|done].
    destruct (fgt (score_of in_zone (gy, gx)) (max_cell_score t)) eqn:Eg; [done|]. apply Hbig.
    destruct (decide (cells_with_motion t = 0)) as [E0|E0]; [|lia].
    rewrite Hmax, positive_score in Eg by done. done.
  - assert (fgt (score_of in_zone (gy, gx)) one_percent = false) as Es by (unfold score_of; cbn [fst snd]; by rewrite Ez).
    cbn [grid_scores total_cells cells_with_motion max_cell_score]. repeat case_decide; try congruence. simpl length.
    split; [done|]. split; [done|]. split; [lia|]. split; [lia|done].
Qed.

Definition zone_test (zone_mask : option (list bool)) (i : Z) : bool :=
  match zone_mask with Some mask => default false (aget mask i) | None => true end.

Lemma calculate_grid_motion_spec sensitivity scores area zone_mask :
  f_to_int (fmul binary32 sensitivity (f_of_Z binary32 255)) = Some threshold →
  Z.of_nat (length scores) = grid_size * grid_size →
  (∀ mask, zone_mask = Some mask → grid_size * grid_size ≤ Z.of_nat (length mask)) →
  let in_zone := zone_test zone_mask in
  let total := length (filter (λ c, in_zone (c.1 * grid_size + c.2) = true) grid_cells) in
  let active := length (filter (λ c, moving in_zone c = true) grid_cells) in
  ∃ score scores',
    calculate_grid_motion curr_frame prev_frame background width height sensitivity noise_threshold grid_size
      (Some scores) area zone_mask
    = Some (score, if (total =? 0)%nat then S754_zero false else ratio (Z.of_nat active) (Z.of_nat total), Some scores') ∧
    Z.of_nat (length scores') = grid_size * grid_size ∧
    (∀ c, c ∈ grid_cells → aget scores' (c.1 * grid_size + c.2) = Some (score_of in_zone c)) ∧
    (active = 0%nat → score = S754_zero false) ∧ ((0 < active)%nat → fgt score one_percent = true).
Proof.
  intros Hthr Hlen Hmask in_zone total active. unfold calculate_grid_motion, quotient.
  rewrite !(proj2 (Z.eqb_neq grid_size 0)) by lia. rewrite Hthr. cbn [mbind option_bind].
  rewrite for_in_nested. fold grid_cells.
  match goal with |- context [for_in grid_cells ?body ?start] =>
    destruct (for_in_spec (counted in_zone) grid_cells body start) as (t & E & Hlen' & Hat & Htot & Hmov & Hmax & Hbig)
  end.
  - split; [done|]. split; [set_solver|]. split; [done|]. split; [done|]. split; [done|]. cbn. lia.
  - intros dn [gy gx] rest t Hl Ht. cbn [fst snd].
    assert ((gy, gx) ∈ grid_cells) as Hc by (rewrite Hl; set_solver).
    assert (NoDup grid_cells) as Hnd.
    { unfold grid_cells, nested. apply NoDup_bind.
      - intros y1 y2 c _ _ (? & -> & _)%list_elem_of_fmap (? & [= ->] & _)%list_elem_of_fmap. done.
      - intros y _. apply NoDup_fmap_2; [|apply NoDup_range]. by intros ?? [= ->].
      - apply NoDup_range. }
    assert ((gy, gx) ∉ dn) as Hnew by (rewrite Hl in Hnd; apply NoDup_app in Hnd as (_ & Hd & _); intros Hin; apply (Hd _ Hin); set_solver).
    destruct (count_cell_counted in_zone dn (gy, gx) t Ht Hnew Hc) as (scores1 & E & Hcounted); [rewrite Hl; set_solver|].
    apply elem_of_nested in Hc. rewrite !elem_of_range in Hc. destruct Hc as [Hy Hx].
    pose proof (address_range grid_size grid_size gy gx Hx Hy). cbn [fst snd] in *.
    assert (match zone_mask with Some mask => aget mask (gy * grid_size + gx) | None => Some true end
            = Some (in_zone (gy * grid_size + gx))) as ->.
    { unfold in_zone, zone_test. destruct zone_mask as [mask|]; [|done]. unfold aget.
      rewrite (proj2 (Z.leb_le _ _)) by lia. specialize (Hmask mask eq_refl).
      destruct (lookup_lt_is_Some_2 mask (Z.to_nat (gy * grid_size + gx))) as [b ->]; [lia|done]. }
    cbn [mbind option_bind]. unfold score_of in *. cbn [fst snd] in *. destruct (in_zone (gy * grid_size + gx)).
    + rewrite cell_counts_spec by lia. cbn [mbind option_bind]. rewrite E. by eexists.
    + rewrite E. by eexists.
  - rewrite E. cbn [mbind option_bind]. exists (max_cell_score t), (grid_scores t). split.
    + fold total in Htot. fold active in Hmov. rewrite Htot, Hmov. do 3 f_equal.
      destruct (total =? 0)%nat eqn:E0; [apply Nat.eqb_eq in E0|apply Nat.eqb_neq in E0]; destruct (Z.of_nat total >? 0) eqn:E1; unbool; done || lia.
    + fold active in Hmov. split; [done|]. split; [done|]. split; [intros; apply Hmax; lia|intros; apply Hbig; lia].
Qed.
Lemma cell_pixels_few gy gx : 0 ≤ gy → 0 ≤ gx → Z.of_nat (length (cell_pixels gy gx)) ≤ width * height.
Proof.
  intros Hy Hx. unfold cell_pixels. rewrite length_nested, Nat2Z.inj_mul.
  assert (0 ≤ cdiv width grid_size) by (apply Z.quot_pos; lia). assert (0 ≤ cdiv height grid_size) by (apply Z.quot_pos; lia).
  pose proof (length_range2 (gy * cdiv height grid_size) (Z.min ((gy + 1) * cdiv height grid_size) height)).
  pose proof (length_range2 (gx * cdiv width grid_size) (Z.min ((gx + 1) * cdiv width grid_size) width)).
  rewrite Z.mul_comm. apply Z.mul_le_mono_nonneg; nia.
Qed.

Lemma score_of_number in_zone c : c ∈ grid_cells → width * height < 2 ^ 64 → score_of in_zone c ≠ S754_nan.
Proof.
  destruct c as [gy gx]. intros Hc Hsmall. apply elem_of_nested in Hc. rewrite !elem_of_range in Hc. destruct Hc.
  unfold score_of. cbn [fst snd]. destruct (in_zone _); [|done]. unfold cell_score. cbn [fst snd].
  destruct (Z.of_nat (length (cell_pixels gy gx)) >? 0) eqn:E; [|done]. unbool.
  pose proof (cell_pixels_few gy gx ltac:(lia) ltac:(lia)).
  assert (length (changed_pixels gy gx) ≤ length (cell_pixels gy gx))%nat by apply length_filter.
  apply fdiv_number; lia.
Qed.

(** Every score of the grid is that of its cell. *)
Lemma scores_numbers in_zone scores :
  width * height < 2 ^ 64 → Z.of_nat (length scores) = grid_size * grid_size →
  (∀ c, c ∈ grid_cells → aget scores (c.1 * grid_size + c.2) = Some (score_of in_zone c)) →
  Forall (λ s, s ≠ S754_nan) scores.
Proof.
  intros Hsmall Hlen Hat. apply Forall_lookup_2. intros k s Hk. pose proof (lookup_lt_Some _ _ _ Hk).
  pose proof (Z.div_mod (Z.of_nat k) grid_size ltac:(lia)). pose proof (Z.mod_pos_bound (Z.of_nat k) grid_size ltac:(lia)).
  set (c := (Z.of_nat k / grid_size, Z.of_nat k `mod` grid_size)). assert (c ∈ grid_cells) as Hc.
  { unfold c, grid_cells. apply elem_of_nested. rewrite !elem_of_range.
    split; [split; [apply Z.div_pos; lia|apply Z.div_lt_upper_bound; lia]|lia]. }
  specialize (Hat c Hc). unfold c in Hat at 1 2. cbn [fst snd] in Hat.
  replace (Z.of_nat k / grid_size * grid_size + Z.of_nat k `mod` grid_size) with (Z.of_nat k) in Hat by lia.
  rewrite aget_nat, Hk in Hat. injection Hat as ->. by apply score_of_number.
Qed.
End grid.

(** At the rate of a scene without motion, 0.05 in a second, 12 of 256 parts are
    replaced, and a pixel at 100 never rises to a scene at 120. *)
Example background_rate : f_to_int (fmul binary32 (f_lit binary32 5 100) (f_of_Z binary32 256)) = Some 12.
Proof. vm_compute. reflexivity. Qed.

Lemma background_rounds_down_witness :
  ∃ f, updates 1000 [100; 140] [120; 120] 2 1 (f_lit binary32 5 100) = Some f ∧
    (100 ≤ 120 → 12 * (120 - 100) < 256 → aget f 0 = Some 100) ∧ (120 ≤ 100 → 100 - 120 ≤ 1000 → aget f 0 = Some 120).
Proof.
  assert (∀ a b, 0 ≤ a ≤ 255 → 0 ≤ b ≤ 255 → image 2 1 [a; b]) as Himg by (intros; split; [done|repeat constructor; lia]).
  apply (background_rounds_down 1000 [100; 140] [120; 120] 2 1 (f_lit binary32 5 100) 12 0 100 120); try lia.
  - apply Himg; lia.
  - apply Himg; lia.
  - vm_compute. reflexivity.
  - reflexivity.
  - reflexivity.
Defined.
