(* ===== verification/Sql.v ===== *)
(** * SQL statements

    What SQLite leaves open is the class [Sqlite]: the order of a sorted query is
    one of those its keys allow.  A statement fails or runs as an argument
    [sql_run] says. *)
From Stdlib Require Import ZArith Lia Bool.
From Stdlib Require Import Strings.Byte.
From stdpp Require Import base numbers list strings sorting.
From S2P Require Import Prelude.
#[local] Open Scope Z_scope.

(** Lexicographic order of sort keys. *)
Fixpoint lex_le (k k' : list Z) : bool :=
  match k, k' with
  | [], _ => true
  | _ :: _, [] => false
  | x :: k, y :: k' => (x <? y) || ((x =? y) && lex_le k k')
  end.

Definition key_le {A} (key : A → list Z) (x y : A) : Prop := lex_le (key x) (key y) = true.

#[global] Instance key_le_dec {A} (key : A → list Z) : RelDecision (key_le key).
Proof. intros x y. unfold key_le. apply _. Defined.

(** [ORDER BY]: the order of rows with equal keys is not specified. *)
Class Sqlite := { order_by : ∀ {A}, (A → list Z) → list A → list A }.

Class SqliteLaws `{Sqlite} := {
  order_by_perm {A} (key : A → list Z) l : order_by key l ≡ₚ l;
  order_by_sorted {A} (key : A → list Z) l :
    StronglySorted (key_le key) (order_by key l)
}.

(** A key column, ascending or descending; [NULL] is the least value. *)
Definition asc (c : option Z) : list Z := match c with Some z => [1; z] | None => [0; 0] end.
Definition desc (c : option Z) : list Z := match c with Some z => [-1; - z] | None => [0; 0] end.

(** What becomes of a statement: it cannot be prepared, it fails after some
    rows, or it completes. *)
Inductive sql_run :=
  | PrepareFails
  | StepFails (rows : nat)
  | Completes.

Definition delivered {A} (r : sql_run) (xs : list A) : list A :=
  match r with
  | PrepareFails => []
  | StepFails n => take n xs
  | Completes => xs
  end.

(** Comparisons with a column are never true of [NULL]. *)
Definition sql_is (c : option Z) (z : Z) : bool := match c with Some x => x =? z | None => false end.
Definition sql_text_is (c : option cstr) (s : cstr) : bool := match c with Some t => streq t s | None => false end.
Definition sql_text_not (c : option cstr) (s : cstr) : bool := match c with Some t => negb (streq t s) | None => false end.

Lemma lex_le_total k k' : lex_le k k' = true ∨ lex_le k' k = true.
Proof.
  revert k'. induction k as [|x k IH]; intros [|y k']; simpl; [by left..|by right|].
  destruct (Z.lt_trichotomy x y) as [Hl|[->|Hl]].
  - left. by rewrite (proj2 (Z.ltb_lt _ _) Hl).
  - rewrite Z.eqb_refl, Z.ltb_irrefl. simpl. apply IH.
  - right. by rewrite (proj2 (Z.ltb_lt _ _) Hl).
Qed.

Lemma lex_le_trans k1 k2 k3 : lex_le k1 k2 = true → lex_le k2 k3 = true → lex_le k1 k3 = true.
Proof.
  revert k2 k3. induction k1 as [|x k1 IH]; intros [|y k2] [|z k3]; simpl; try done.
  rewrite !orb_true_iff, !andb_true_iff, !Z.ltb_lt, !Z.eqb_eq.
  intros [H1|[-> H1]] [H2|[-> H2]]; [left; lia..|right]. split; [done|by eapply IH].
Qed.

(** An SQLite that sorts by merging, for the witnesses. *)
Definition merge_order {A} (key : A → list Z) (l : list A) : list A :=
  merge_sort (key_le key) l.

Definition merging_sqlite : Sqlite := {| order_by _ := merge_order |}.

Lemma merging_laws : @SqliteLaws merging_sqlite.
Proof.
  split.
  - intros A key l. apply merge_sort_Permutation.
  - intros A key l. apply StronglySorted_merge_sort.
    + intros x y z. apply lex_le_trans.
    + intros x y. apply lex_le_total.
Qed.

Lemma delivered_prefix {A} r (xs : list A) : ∃ ys, xs = delivered r xs ++ ys.
Proof. destruct r as [|n|]; simpl; [by eexists|exists (drop n xs); by rewrite take_drop|exists []; by rewrite app_nil_r]. Qed.

Lemma delivered_sublist {A} r (xs : list A) : delivered r xs `sublist_of` xs.
Proof. destruct r as [|n|]; cbn; [apply sublist_nil_l|apply sublist_take|done]. Qed.

Lemma delivered_nil {A} r : delivered r (@nil A) = [].
Proof. destruct r; simpl; [done|by rewrite take_nil|done]. Qed.
