(* ===== verification/CStrings.v ===== *)
(** * C strings in memory: [src/utils/strings.c], [include/utils/strings.h]

    A pointer into a character array is the list of bytes from it to the end of
    its object; a read or write past that end is undefined behaviour and makes
    the operation return [None].  [NULL] is the [None] of the argument's own
    option.  The theorems show that on terminated inputs the operations stay
    inside their objects and compute the list functions ([strcpy_trunc],
    [trim], ...) the other components use. *)
From S2P Require Import Prelude.
From Stdlib Require Import ZArith Lia Bool.
From Stdlib Require Import Strings.Byte.
From stdpp Require Import base numbers list strings.
#[local] Open Scope Z_scope.

Abbreviation mem := (list byte).

(** ** The parts of [<string.h>] and [<ctype.h>] the file uses *)

Definition NUL : byte := Byte.x00.

Fixpoint strlen (m : mem) : option nat :=
  match m with
  | [] => None
  | c :: m => if bool_decide (c = NUL) then Some O else S <$> strlen m
  end.

Fixpoint strnlen (m : mem) (n : nat) {struct n} : option nat :=
  match n, m with
  | O, _ => Some O
  | S _, [] => None
  | S n, c :: m => if bool_decide (c = NUL) then Some O else S <$> strnlen m n
  end.

Definition memcpy (dest src : mem) (n : Z) : option mem :=
  if (0 <=? n) && (n <=? Z.of_nat (length src)) && (n <=? Z.of_nat (length dest))
  then Some (take (Z.to_nat n) src ++ drop (Z.to_nat n) dest)
  else None.

Definition store (dest : mem) (i : Z) (c : byte) : option mem :=
  if (0 <=? i) && (i <? Z.of_nat (length dest))
  then Some (<[Z.to_nat i := c]> dest)
  else None.

(** [strcmp (a, b) == 0], reading no further than the first difference. *)
Fixpoint strcmp0 (a b : mem) : option bool :=
  match a, b with
  | c :: a, d :: b =>
      if bool_decide (c = d) then
        if bool_decide (c = NUL) then Some true else strcmp0 a b
      else Some false
  | _, _ => None
  end.

(** [isgraph] in the C locale. *)
Definition isgraph (c : byte) : bool := (33 <=? byte_Z c) && (byte_Z c <=? 126).

(** The string a pointer denotes. *)
Fixpoint cstring (m : mem) : cstr :=
  match m with
  | [] => []
  | c :: m => if bool_decide (c = NUL) then [] else c :: cstring m
  end.

(** ** [src/utils/strings.c] *)

Definition safe_strcpy (dest src : option mem) (dst_size src_size : Z)
  : option (Z * option mem) :=
  match dest, src with
  | Some d, Some s =>
      if dst_size =? 0 then Some (-1, dest) else
      n ← (if src_size >? 0 then strnlen s (Z.to_nat src_size) else strlen s);
      let src_len := Z.of_nat n in
      let src_len := if src_len >=? dst_size then dst_size - 1 else src_len in
      d ← memcpy d s src_len;
      d ← store d src_len NUL;
      Some (0, Some d)
  | _, _ => Some (-1, dest)
  end.

Definition safe_strcat (dest src : option mem) (size : Z) : option (Z * option mem) :=
  match dest, src with
  | Some d, Some _ =>
      if size =? 0 then Some (-1, dest) else
      dest_len ← strnlen d (Z.to_nat size);
      if Z.of_nat dest_len >=? size then Some (-1, dest) else
      let rest := size - Z.of_nat dest_len in
      '(r, d') ← safe_strcpy (Some (drop dest_len d)) src rest rest;
      Some (r, Some (take dest_len d ++ default [] d'))
  | _, _ => Some (-1, dest)
  end.

Definition ends_with (str suffix : option mem) : option bool :=
  match str, suffix with
  | Some str, Some suffix =>
      str_len ← strlen str;
      suffix_len ← strlen suffix;
      if (str_len <? suffix_len)%nat then Some false
      else strcmp0 (drop (str_len - suffix_len) str) suffix
  | _, _ => Some false
  end.

(** [while ( *start && !isgraph( *start)) start++], as the offset reached. *)
Fixpoint ltrim_pos (input : mem) : option nat :=
  match input with
  | [] => None
  | c :: m => if bool_decide (c = NUL) then Some O
              else if isgraph c then Some O else S <$> ltrim_pos m
  end.

(** [while (end > input && !isgraph( *end)) end--] from offset [e]. *)
Fixpoint rtrim_back (input : mem) (e : nat) : option nat :=
  match e with
  | O => Some O
  | S e' => c ← input !! e; if isgraph c then Some e else rtrim_back input e'
  end.

(** The offset of the byte after the last printable one ([end + 1]). *)
Definition rtrim_pos (input : mem) (input_size : Z) : option Z :=
  n ← (if input_size >? 0 then strnlen input (Z.to_nat input_size) else strlen input);
  match n with
  | O => Some 0
  | S e => e ← rtrim_back input e; Some (Z.of_nat e + 1)
  end.

(** Result: the modified array and the offset of the returned pointer. *)
Definition trim_ascii_whitespace (value : option mem) : option (option (mem * nat)) :=
  match value with
  | None => Some None
  | Some m =>
      e ← rtrim_pos m 0;
      m ← store m e NUL;
      o ← ltrim_pos m;
      Some (Some (m, o))
  end.

Definition copy_trimmed_value (output : option mem) (output_size : Z)
    (input : option mem) (input_size : Z) : option (Z * option mem) :=
  match input, output with
  | Some inp, Some out =>
      if output_size =? 0 then Some (0, output) else
      start ← ltrim_pos inp;
      e ← rtrim_pos inp input_size;
      let len := u64 (e - Z.of_nat start) in
      let len := if len >=? output_size then output_size - 1 else len in
      out ← memcpy out (drop start inp) len;
      out ← store out len NUL;
      Some (len, Some out)
  | _, _ => Some (0, output)
  end.

#[global] Arguments safe_strcpy : simpl never.
#[global] Arguments safe_strcat : simpl never.
#[global] Arguments rtrim_pos : simpl never.
#[global] Arguments memcpy : simpl never.
#[global] Arguments store : simpl never.

(** ** Specification *)

Fixpoint ltrim (s : cstr) : cstr :=
  match s with
  | [] => []
  | c :: s' => if isgraph c then s else ltrim s'
  end.

Definition rtrim (s : cstr) : cstr := reverse (ltrim (reverse s)).

(** Leading and trailing non-graphical characters removed. *)
Definition trim (s : cstr) : cstr := ltrim (rtrim s).

Definition graphic (s : cstr) : bool := existsb isgraph s.

Lemma isgraph_NUL : isgraph NUL = false.
Proof. reflexivity. Qed.

Lemma isgraph_not_NUL c : isgraph c = true → c ≠ NUL.
Proof. intros H ->. by rewrite isgraph_NUL in H. Qed.

Ltac nul_cases := repeat first
  [ progress simplify_eq/=
  | match goal with
    | H : no_nul (_ :: _) |- _ => apply no_nul_cons in H as [? ?]
    end
  | rewrite bool_decide_false by (unfold NUL; congruence) ].

Lemma strlen_terminated s r : no_nul s → strlen (s ++ NUL :: r) = Some (length s).
Proof. induction s as [|c s IH]; intros Hs; nul_cases; [done|]. by rewrite IH. Qed.

Lemma strnlen_terminated s r n :
  no_nul s → strnlen (s ++ NUL :: r) n = Some (n `min` length s)%nat.
Proof.
  revert n. induction s as [|c s IH]; intros [|n] Hs; nul_cases; try done.
  by rewrite IH.
Qed.

Lemma strnlen_unterminated s n :
  no_nul s → (n ≤ length s)%nat → strnlen s n = Some n.
Proof.
  revert n. induction s as [|c s IH]; intros [|n] Hs Hn; nul_cases; try done; [lia|].
  by rewrite IH by (done || lia).
Qed.

Lemma cstring_terminated s r : no_nul s → cstring (s ++ NUL :: r) = s.
Proof. induction s as [|c s IH]; intros Hs; nul_cases; [done|]. by rewrite IH. Qed.

Lemma cstring_fine m : no_nul (cstring m) ∧ (length (cstring m) ≤ length m)%nat.
Proof.
  induction m as [|c m [IH1 IH2]]; simpl; [split; [apply not_elem_of_nil|done]|]. case_bool_decide; simpl.
  - split; [apply not_elem_of_nil|lia].
  - split; [by apply no_nul_cons|lia].
Qed.

Lemma cstring_length m r : (length (cstring (m ++ NUL :: r)) ≤ length m)%nat.
Proof. induction m as [|c m IH]; simpl; [lia|]. case_bool_decide; simpl; lia. Qed.

Lemma strcmp0_terminated s r t q :
  no_nul s → no_nul t → strcmp0 (s ++ NUL :: r) (t ++ NUL :: q) = Some (bool_decide (s = t)).
Proof.
  revert t. induction s as [|c s IH]; intros [|d t] Hs Ht; nul_cases; try done.
  destruct (decide (c = d)) as [->|Hne].
  - rewrite (bool_decide_true (d = d)) by done. nul_cases. rewrite IH by done.
    f_equal. apply bool_decide_ext. naive_solver.
  - rewrite (bool_decide_false (c = d)) by done. rewrite bool_decide_false by congruence. done.
Qed.

(** [memcpy] and the terminating store, in one. *)
Lemma copy_and_terminate d s n :
  0 ≤ n → n ≤ Z.of_nat (length s) → n < Z.of_nat (length d) →
  (d' ← memcpy d s n; store d' n NUL)
  = Some (take (Z.to_nat n) s ++ NUL :: drop (Z.to_nat (n + 1)) d).
Proof.
  intros H0 Hs Hd. unfold memcpy, store.
  rewrite !(proj2 (Z.leb_le _ _)) by lia. simpl.
  assert (Hl : length (take (Z.to_nat n) s) = Z.to_nat n) by (rewrite length_take; lia).
  rewrite (proj2 (Z.ltb_lt _ _)) by (rewrite length_app, Hl, length_drop; lia).
  f_equal. rewrite insert_app_r_alt by lia. rewrite Hl, Nat.sub_diag.
  f_equal. destruct (drop (Z.to_nat n) d) as [|c d'] eqn:E.
  - apply (f_equal length) in E. rewrite length_drop in E. simpl in E. lia.
  - simpl. f_equal. replace (Z.to_nat (n + 1)) with (1 + Z.to_nat n)%nat by lia.
    rewrite Nat.add_comm, <-drop_drop, E. done.
Qed.

Lemma strlen_min_size s r dst_size src_size :
  no_nul s → 0 < dst_size →
  (src_size = 0 ∨ dst_size ≤ src_size) →
  ∃ n, (if src_size >? 0 then strnlen (s ++ NUL :: r) (Z.to_nat src_size)
        else strlen (s ++ NUL :: r)) = Some n ∧
       (if Z.of_nat n >=? dst_size then dst_size - 1 else Z.of_nat n)
       = Z.of_nat (length s `min` (Z.to_nat dst_size - 1)).
Proof.
  intros Hs Hd Hsrc. rewrite strlen_terminated, strnlen_terminated by done.
  destruct (src_size >? 0) eqn:E; unbool; eexists; (split; [done|]);
    case_match; unbool; lia.
Qed.

(** [safe_strcpy] of a terminated string, whatever the sizes: the common path
    of the two calling conventions. *)
Lemma safe_strcpy_terminated d s r dst_size src_size :
  no_nul s → 0 < dst_size → dst_size ≤ Z.of_nat (length d) →
  (src_size = 0 ∨ dst_size ≤ src_size) →
  let t := strcpy_trunc (Z.to_nat dst_size) s in
  safe_strcpy (Some d) (Some (s ++ NUL :: r)) dst_size src_size
  = Some (0, Some (t ++ NUL :: drop (S (length t)) d)).
Proof.
  intros Hs Hd Hlen Hsrc t. unfold safe_strcpy.
  rewrite (proj2 (Z.eqb_neq _ _)) by lia.
  destruct (strlen_min_size s r dst_size src_size Hs Hd Hsrc) as (n & -> & Hn). simpl.
  rewrite Hn. clear Hn n.
  set (k := (length s `min` (Z.to_nat dst_size - 1))%nat).
  assert (Hk : take k (s ++ NUL :: r) = t).
  { unfold t, strcpy_trunc, k. rewrite take_app_le by lia.
    destruct (decide (length s ≤ Z.to_nat dst_size - 1)%nat).
    - rewrite Nat.min_l by lia. rewrite !take_ge by lia. done.
    - rewrite Nat.min_r by lia. done. }
  assert (Ht : length t = k) by (unfold t, strcpy_trunc, k; rewrite length_take; lia).
  pose proof (copy_and_terminate d (s ++ NUL :: r) (Z.of_nat k) ltac:(lia)
    ltac:(rewrite length_app; simpl; lia) ltac:(lia)) as Hc.
  destruct (memcpy d (s ++ NUL :: r) (Z.of_nat k)) as [d'|]; simpl in *; [|done].
  rewrite Hc. simpl. rewrite Nat2Z.id, Hk, Ht. repeat f_equal. lia.
Qed.

(** For every terminated source string and every destination of at least
    [dst_size > 0] bytes, [safe_strcpy] stays inside both objects, returns 0,
    and leaves in the destination exactly the first [dst_size - 1] characters
    of the source followed by a terminator, the rest of the destination being
    untouched. *)
Theorem safe_strcpy_spec d s r dst_size :
  no_nul s → 0 < dst_size → dst_size ≤ Z.of_nat (length d) →
  ∃ d', safe_strcpy (Some d) (Some (s ++ NUL :: r)) dst_size 0 = Some (0, Some d') ∧
        cstring d' = strcpy_trunc (Z.to_nat dst_size) s ∧
        length d' = length d ∧
        drop (Z.to_nat dst_size) d' = drop (Z.to_nat dst_size) d.
Proof.
  intros Hs Hd Hlen. eexists. split; [apply safe_strcpy_terminated; auto|].
  pose proof (strcpy_trunc_length (Z.to_nat dst_size) s) as Ht.
  split; [|split].
  - apply cstring_terminated. eauto with nvr.
  - rewrite length_app. simpl. rewrite length_drop. lia.
  - rewrite drop_app_ge by lia.
    destruct (Z.to_nat dst_size - length (strcpy_trunc (Z.to_nat dst_size) s))%nat as [|m] eqn:E; [lia|].
    simpl. rewrite drop_drop. f_equal. lia.
Qed.

(** The source need not be terminated when [src_size] bounds the read. *)
Lemma safe_strcpy_unterminated d s dst_size :
  no_nul s → 0 < dst_size → dst_size ≤ Z.of_nat (length d) →
  0 < Z.of_nat (length s) < dst_size →
  safe_strcpy (Some d) (Some s) dst_size (Z.of_nat (length s))
  = Some (0, Some (s ++ NUL :: drop (S (length s)) d)).
Proof.
  intros Hs Hd Hlen Hl. unfold safe_strcpy.
  rewrite (proj2 (Z.eqb_neq _ _)) by lia.
  assert ((Z.of_nat (length s) >? 0) = true) as -> by (apply Z.gtb_lt; lia).
  rewrite Nat2Z.id, strnlen_unterminated by done. simpl.
  assert ((Z.of_nat (length s) >=? dst_size) = false) as ->
    by (rewrite Z.geb_leb; apply Z.leb_gt; lia).
  pose proof (copy_and_terminate d s (Z.of_nat (length s)) ltac:(lia) ltac:(lia) ltac:(lia)) as Hc.
  destruct (memcpy d s (Z.of_nat (length s))) as [d'|]; simpl in *; [|done].
  rewrite Hc. simpl. rewrite Nat2Z.id, take_ge by lia. repeat f_equal. lia.
Qed.

(** [safe_strcat]: the destination keeps its string and gains as much of the
    source as fits. *)
Lemma safe_strcat_spec s q r t size :
  no_nul s → no_nul t →
  size ≤ Z.of_nat (length (s ++ NUL :: q)) → Z.of_nat (length s) < size →
  ∃ d', safe_strcat (Some (s ++ NUL :: q)) (Some (t ++ NUL :: r)) size = Some (0, Some d') ∧
        cstring d' = s ++ take (Z.to_nat size - length s - 1) t.
Proof.
  intros Hs Ht Hsz Hlt. unfold safe_strcat.
  rewrite (proj2 (Z.eqb_neq _ _)) by lia.
  rewrite strnlen_terminated by done. simpl. rewrite Nat.min_r by lia.
  assert ((Z.of_nat (length s) >=? size) = false) as ->
    by (rewrite Z.geb_leb; apply Z.leb_gt; lia).
  rewrite drop_app_length, safe_strcpy_terminated
    by (done || (rewrite ?length_app in Hsz; simpl in *; lia) || (right; lia)). simpl.
  eexists. split; [done|]. rewrite take_app_length, app_assoc.
  rewrite cstring_terminated; [|apply no_nul_app; eauto with nvr].
  f_equal. unfold strcpy_trunc. f_equal. lia.
Qed.

(** [ends_with] decides the suffix relation. *)
Lemma ends_with_spec s r t q :
  no_nul s → no_nul t →
  ends_with (Some (s ++ NUL :: r)) (Some (t ++ NUL :: q)) = Some (bool_decide (t `suffix_of` s)).
Proof.
  intros Hs Ht. unfold ends_with. rewrite !strlen_terminated by done. simpl.
  destruct (length s <? length t)%nat eqn:E.
  - apply Nat.ltb_lt in E. rewrite bool_decide_false; [done|].
    intros Hsuf%suffix_length. lia.
  - apply Nat.ltb_ge in E. rewrite drop_app_le by lia.
    rewrite strcmp0_terminated by eauto with nvr. f_equal. apply bool_decide_ext. split.
    + intros <-. exists (take (length s - length t) s). by rewrite take_drop.
    + intros [k ->]. rewrite length_app, Nat.add_sub, drop_app_length. done.
Qed.

(** ** Trimming *)

Lemma rtrim_snoc s c : rtrim (s ++ [c]) = if isgraph c then s ++ [c] else rtrim s.
Proof.
  unfold rtrim. rewrite reverse_snoc. simpl. destruct (isgraph c); [|done].
  by rewrite reverse_cons, reverse_involutive.
Qed.

Lemma ltrim_drop s : ltrim s = drop (length s - length (ltrim s)) s.
Proof.
  induction s as [|c s IH]; [done|]. cbn [ltrim]. destruct (isgraph c).
  - by rewrite Nat.sub_diag.
  - assert (length (ltrim s) ≤ length s)%nat
      by (apply (f_equal length) in IH; rewrite length_drop in IH; lia).
    cbn [length]. rewrite Nat.sub_succ_l by done. cbn [drop]. done.
Qed.

Lemma ltrim_length s : (length (ltrim s) ≤ length s)%nat.
Proof. rewrite ltrim_drop, length_drop. lia. Qed.

Lemma rtrim_length s : (length (rtrim s) ≤ length s)%nat.
Proof. unfold rtrim. rewrite length_reverse. etrans; [apply ltrim_length|]. by rewrite length_reverse. Qed.

Lemma rtrim_take s : rtrim s = take (length (rtrim s)) s.
Proof.
  induction s as [|c s IH] using rev_ind; [done|].
  rewrite rtrim_snoc. destruct (isgraph c); [by rewrite take_ge|].
  rewrite take_app_le by apply rtrim_length. done.
Qed.

Lemma ltrim_graphic s : graphic s = false → ltrim s = [].
Proof.
  induction s as [|c s IH]; [done|]. cbn. intros [-> Hs]%orb_false_iff. auto.
Qed.

Lemma graphic_reverse s : graphic (reverse s) = graphic s.
Proof.
  induction s as [|c s IH]; [done|]. rewrite reverse_cons. unfold graphic in *.
  rewrite existsb_app, IH. cbn. rewrite orb_false_r. apply orb_comm.
Qed.

Lemma rtrim_graphic s : graphic s = false → rtrim s = [].
Proof. intros Hs. unfold rtrim. rewrite ltrim_graphic; [done|]. by rewrite graphic_reverse. Qed.

Lemma graphic_rtrim_pos s : graphic s = true → (0 < length (rtrim s))%nat.
Proof.
  intros Hs. unfold rtrim. rewrite length_reverse. rewrite <-graphic_reverse in Hs.
  induction (reverse s) as [|c t IH]; [done|]. cbn in *. destruct (isgraph c); cbn in *; [lia|auto].
Qed.

Lemma ltrim_app s t : graphic s = true → ltrim (s ++ t) = ltrim s ++ t.
Proof.
  induction s as [|c s IH]; [done|]. cbn. destruct (isgraph c); cbn; [done|auto].
Qed.

Lemma graphic_rtrim s : graphic (rtrim s) = graphic s.
Proof.
  induction s as [|c s IH] using rev_ind; [done|]. rewrite rtrim_snoc.
  unfold graphic in *. rewrite existsb_app. cbn. rewrite orb_false_r.
  destruct (isgraph c) eqn:Hc.
  - rewrite existsb_app. cbn. by rewrite Hc, !orb_true_r.
  - by rewrite IH, orb_false_r.
Qed.

Lemma ltrim_pos_terminated s r :
  no_nul s → ltrim_pos (s ++ NUL :: r) = Some (length s - length (ltrim s))%nat.
Proof.
  induction s as [|c s IH]; intros Hs; nul_cases; [done|]. cbn [app ltrim_pos ltrim].
  nul_cases. destruct (isgraph c); [by rewrite Nat.sub_diag|].
  rewrite IH by done. cbn [length]. pose proof (ltrim_length s).
  rewrite fmap_Some. eexists. split; [done|lia].
Qed.

(** Where a graphical character exists the scan stops at it, so no terminator
    is needed. *)
Lemma ltrim_pos_graphic s r :
  no_nul s → graphic s = true → ltrim_pos (s ++ r) = Some (length s - length (ltrim s))%nat.
Proof.
  induction s as [|c s IH]; intros Hs Hg; [done|]. nul_cases. cbn [app ltrim_pos ltrim] in *.
  nul_cases. cbn in Hg. destruct (isgraph c); [by rewrite Nat.sub_diag|].
  rewrite IH by done. cbn [length]. pose proof (ltrim_length s).
  rewrite fmap_Some. eexists. split; [done|lia].
Qed.

Lemma rtrim_back_spec s r e :
  (e < length s)%nat →
  rtrim_back (s ++ r) e = Some (length (rtrim (take (S e) s)) - 1)%nat.
Proof.
  induction e as [|e IH]; intros He.
  - cbn [rtrim_back]. pose proof (rtrim_length (take 1 s)) as H. rewrite length_take in H.
    f_equal. lia.
  - destruct (lookup_lt_is_Some_2 s (S e) He) as [c Hc].
    cbn [rtrim_back]. rewrite lookup_app_l, Hc by done. cbn.
    rewrite (take_S_r s (S e) c Hc), rtrim_snoc.
    destruct (isgraph c).
    + rewrite length_app, length_take. change (length [c]) with 1%nat. f_equal. lia.
    + apply IH. lia.
Qed.

(** The string [rtrim_pos] scans: all of it, or the first [input_size] bytes. *)
Definition scanned (m : mem) (input_size : Z) (s : cstr) : Prop :=
  no_nul s ∧
  ((input_size = 0 ∧ ∃ r, m = s ++ NUL :: r) ∨
   (0 < input_size ∧ ∃ r, m = s ++ r ∧
      (Z.of_nat (length s) = input_size ∨
       (Z.of_nat (length s) < input_size ∧ ∃ q, r = NUL :: q)))).

Lemma scanned_length m input_size s :
  scanned m input_size s →
  (if input_size >? 0 then strnlen m (Z.to_nat input_size) else strlen m) = Some (length s).
Proof.
  intros [Hs [[-> [r ->]]|[Hsz (r & -> & Hr)]]].
  - by apply strlen_terminated.
  - assert ((input_size >? 0) = true) as -> by (apply Z.gtb_lt; lia).
    destruct Hr as [Heq|[Hlt [q ->]]].
    + rewrite <-Heq, Nat2Z.id. clear Heq Hsz. induction s as [|c s IH]; [done|]. nul_cases.
      by rewrite IH.
    + rewrite strnlen_terminated by done. f_equal. lia.
Qed.

Lemma scanned_app m input_size s : scanned m input_size s → ∃ r, m = s ++ r.
Proof. intros [_ [[_ [r ->]]|[_ (r & -> & _)]]]; eauto. Qed.

Lemma rtrim_pos_spec m input_size s :
  scanned m input_size s →
  rtrim_pos m input_size
  = Some (if graphic s then Z.of_nat (length (rtrim s)) else Z.of_nat (1 `min` length s)).
Proof.
  intros Hsc. unfold rtrim_pos. rewrite (scanned_length _ _ _ Hsc).
  destruct (scanned_app _ _ _ Hsc) as [r ->]. simpl.
  destruct (length s) as [|e] eqn:El; [by apply nil_length_inv in El as ->|].
  rewrite rtrim_back_spec by lia. simpl. rewrite take_ge by lia. f_equal.
  destruct (graphic s) eqn:Hg.
  - pose proof (graphic_rtrim_pos s Hg). lia.
  - rewrite rtrim_graphic by done. simpl. lia.
Qed.

Lemma trim_non_graphic s : graphic s = false → trim s = [].
Proof. intros H. unfold trim. by rewrite rtrim_graphic. Qed.

(** [ltrim s] keeps everything [trim s] drops at the end. *)
Lemma ltrim_trim s : graphic s = true → ltrim s = trim s ++ drop (length (rtrim s)) s.
Proof.
  intros Hs. rewrite <-(take_drop (length (rtrim s)) s) at 1.
  rewrite <-rtrim_take. apply ltrim_app. by rewrite graphic_rtrim.
Qed.

Lemma trim_length_graphic s :
  graphic s = true →
  (length (trim s) + (length s - length (ltrim s)) = length (rtrim s))%nat.
Proof.
  intros Hs. pose proof (ltrim_trim s Hs) as H. apply (f_equal length) in H.
  rewrite length_app, length_drop in H.
  pose proof (ltrim_length s). pose proof (rtrim_length s).
  pose proof (ltrim_length (rtrim s)). fold (trim s) in *. lia.
Qed.

Lemma no_nul_ltrim s : no_nul s → no_nul (ltrim s).
Proof. rewrite ltrim_drop. apply no_nul_drop. Qed.

Lemma no_nul_trim s : no_nul s → no_nul (trim s).
Proof. intros. apply no_nul_ltrim. rewrite rtrim_take. by apply no_nul_take. Qed.

#[export] Hint Resolve no_nul_ltrim no_nul_trim : nvr.

(** For every terminated string, [trim_ascii_whitespace] reads and writes
    only inside the array, changes no byte after the terminator, and returns a
    pointer to exactly the string without its leading and trailing
    non-graphical characters (also when every character is one). *)
Theorem trim_ascii_whitespace_spec s r :
  no_nul s →
  ∃ m' o, trim_ascii_whitespace (Some (s ++ NUL :: r)) = Some (Some (m', o)) ∧
          cstring (drop o m') = trim s ∧
          length m' = length (s ++ NUL :: r) ∧
          drop (S (length s)) m' = r.
Proof.
  intros Hs. unfold trim_ascii_whitespace.
  assert (Hsc : scanned (s ++ NUL :: r) 0 s) by (split; [done|left; eauto]).
  rewrite (rtrim_pos_spec _ _ _ Hsc). clear Hsc. cbn [mbind option_bind].
  set (e := if graphic s then length (rtrim s) else (1 `min` length s)%nat).
  replace (if graphic s then _ else _) with (Z.of_nat e) by (unfold e; by destruct (graphic s)).
  assert (He : (e ≤ length s)%nat)
    by (unfold e; pose proof (rtrim_length s); destruct (graphic s); lia).
  assert (Ht : ltrim (take e s) = trim s).
  { unfold e. destruct (graphic s) eqn:Hg; [by rewrite <-rtrim_take|].
    rewrite trim_non_graphic by done. destruct s as [|c s]; [done|].
    cbn in Hg |- *. apply orb_false_iff in Hg as [-> _]. by rewrite take_0. }
  unfold store. rewrite (proj2 (Z.leb_le 0 _)) by lia. rewrite (proj2 (Z.ltb_lt _ _))
    by (rewrite length_app; simpl; lia). cbn [andb mbind option_bind]. rewrite Nat2Z.id.
  assert (Hm : <[e:=NUL]> (s ++ NUL :: r) = take e s ++ NUL :: drop (S e) (s ++ NUL :: r)).
  { rewrite <-(take_drop e (s ++ NUL :: r)) at 1. rewrite take_app_le by done.
    rewrite insert_app_r_alt; rewrite length_take_le by done; [|done].
    rewrite Nat.sub_diag. f_equal. destruct (drop e (s ++ NUL :: r)) as [|c d] eqn:E.
    - apply (f_equal length) in E. rewrite length_drop, length_app in E. simpl in E. lia.
    - simpl. f_equal. replace (S e) with (e + 1)%nat by lia. by rewrite <-drop_drop, E. }
  rewrite Hm, ltrim_pos_terminated by eauto with nvr. rewrite Ht, length_take_le by done.
  eexists _, _. split; [done|].
  split; [|split].
  - pose proof (ltrim_drop (take e s)) as Hd. rewrite Ht, length_take_le in Hd by done.
    rewrite drop_app_le by (rewrite length_take_le by done; lia).
    rewrite <-Hd. apply cstring_terminated. eauto with nvr.
  - rewrite <-Hm, length_insert. done.
  - rewrite <-Hm, drop_insert_lt by lia. rewrite drop_app_ge by lia.
    by rewrite Nat.sub_succ_l, Nat.sub_diag.
Qed.

(** When the scanned part of the input holds a graphical character,
    [copy_trimmed_value] stays inside both objects (the input need not be
    terminated if [input_size] covers it) and writes the trimmed input,
    truncated to the output, and its length. *)
Theorem copy_trimmed_value_spec out output_size inp input_size s :
  scanned inp input_size s → graphic s = true →
  0 < output_size → output_size ≤ Z.of_nat (length out) → Z.of_nat (length s) < 2 ^ 64 →
  let t := strcpy_trunc (Z.to_nat output_size) (trim s) in
  ∃ out', copy_trimmed_value (Some out) output_size (Some inp) input_size
          = Some (Z.of_nat (length t), Some out') ∧ cstring out' = t.
Proof.
  intros Hsc Hg Ho Hout Hsz t. unfold copy_trimmed_value.
  rewrite (proj2 (Z.eqb_neq _ _)) by lia.
  rewrite (rtrim_pos_spec _ _ _ Hsc), Hg. pose proof Hsc as [Hs _].
  destruct (scanned_app _ _ _ Hsc) as [r ->]. rewrite ltrim_pos_graphic by done.
  cbn [mbind option_bind].
  pose proof (trim_length_graphic s Hg) as Hlen. pose proof (rtrim_length s) as Hrl.
  set (start := (length s - length (ltrim s))%nat) in *.
  rewrite u64_small by lia.
  replace (if _ >=? output_size then _ else _) with (Z.of_nat (length t)); last first.
  { unfold t, strcpy_trunc. rewrite length_take. case_match; unbool; lia. }
  assert (Hd : drop start (s ++ r) = trim s ++ drop (length (rtrim s)) s ++ r).
  { rewrite drop_app_le by lia. unfold start. rewrite <-ltrim_drop, ltrim_trim by done.
    by rewrite app_assoc. }
  assert (Htl : (length t ≤ length (trim s))%nat /\ (length t ≤ Z.to_nat output_size - 1)%nat)
    by (unfold t, strcpy_trunc; rewrite length_take; lia).
  pose proof (copy_and_terminate out (drop start (s ++ r)) (Z.of_nat (length t)) ltac:(lia)
    ltac:(rewrite Hd, length_app; lia) ltac:(lia)) as Hc.
  destruct (memcpy out _ _) as [d'|]; simpl in *; [|done]. rewrite Hc. simpl.
  eexists. split; [done|]. rewrite Hd, Nat2Z.id, take_app_le by lia.
  assert (take (length t) (trim s) = t) as ->.
  { unfold t, strcpy_trunc. rewrite length_take.
    destruct (decide (length (trim s) ≤ Z.to_nat output_size - 1)%nat).
    - rewrite Nat.min_r by lia. rewrite !take_ge by lia. done.
    - rewrite Nat.min_l by lia. done. }
  apply cstring_terminated. unfold t. eauto with nvr.
Qed.

(** When a terminated input of two or more characters has no graphical one
    (a header or tag of blanks), the end computed by [copy_trimmed_value] lies
    before its start, the [size_t] length wraps, and [output_size - 1] bytes are
    copied from the terminator on: out of bounds as soon as the input's object
    ends there. *)
Theorem copy_trimmed_value_blank_overread out output_size s :
  no_nul s → graphic s = false → (2 ≤ length s)%nat → Z.of_nat (length s) < 2 ^ 63 →
  2 < output_size < 2 ^ 63 →
  copy_trimmed_value (Some out) output_size (Some (s ++ [NUL])) 0 = None.
Proof.
  intros Hs Hg Hlen Hmax Ho. unfold copy_trimmed_value.
  rewrite (proj2 (Z.eqb_neq _ _)) by lia.
  rewrite ltrim_pos_terminated, ltrim_graphic by done.
  rewrite (rtrim_pos_spec _ _ s) by (split; [done|left; eauto]).
  rewrite Hg. cbn [mbind option_bind]. simpl (length []). rewrite Nat.sub_0_r, Nat.min_l by lia.
  assert (u64 (Z.of_nat 1 - Z.of_nat (length s)) = 2 ^ 64 + (1 - Z.of_nat (length s))) as ->.
  { unfold u64. rewrite <-(Z.mod_add _ 1) by lia. rewrite Z.mod_small; lia. }
  assert ((2 ^ 64 + (1 - Z.of_nat (length s)) >=? output_size) = true) as ->
    by (apply Z.geb_le; lia).
  unfold memcpy. rewrite drop_app_length.
  rewrite (proj2 (Z.leb_gt (output_size - 1) _)) by (simpl; lia).
  by rewrite andb_false_r.
Qed.

(** ** Witnesses *)

Lemma safe_strcpy_spec_witness :
  ∃ d', safe_strcpy (Some (replicate 4 Byte.x7a)) (Some (lit "camera" ++ NUL :: [])) 4 0
        = Some (0, Some d') ∧ cstring d' = lit "cam" ∧ length d' = 4%nat ∧ drop 4 d' = [].
Proof.
  apply (safe_strcpy_spec (replicate 4 Byte.x7a) (lit "camera") [] 4);
    [|reflexivity|vm_compute; discriminate].
  solve_no_nul.
Defined.

Lemma trim_ascii_whitespace_spec_witness :
  ∃ m' o, trim_ascii_whitespace (Some (lit "  a b " ++ NUL :: lit "tail")) = Some (Some (m', o)) ∧
          cstring (drop o m') = lit "a b" ∧
          length m' = length (lit "  a b " ++ NUL :: lit "tail") ∧
          drop 7 m' = lit "tail".
Proof.
  apply (trim_ascii_whitespace_spec (lit "  a b ") (lit "tail")).
  solve_no_nul.
Defined.

Lemma copy_trimmed_value_spec_witness :
  ∃ out', copy_trimmed_value (Some (replicate 8 NUL)) 8 (Some (lit " key  ")) 4
          = Some (3, Some out') ∧ cstring out' = lit "key".
Proof.
  apply (copy_trimmed_value_spec (replicate 8 NUL) 8 (lit " key  ") 4 (lit " key"));
    try reflexivity.
  split; [solve_no_nul|].
  right. split; [reflexivity|]. exists (lit "  "). split; [reflexivity|]. left. reflexivity.
Defined.

Lemma copy_trimmed_value_blank_overread_witness :
  copy_trimmed_value (Some (replicate 46 NUL)) 46 (Some (lit "   " ++ [NUL])) 0 = None.
Proof.
  apply (copy_trimmed_value_blank_overread (replicate 46 NUL) 46 (lit "   "));
    [solve_no_nul|reflexivity|vm_compute; lia|reflexivity|lia].
Defined.
