(* ===== verification/Paths.v ===== *)
(** * Names and paths

    [src/core/path_utils.c]: the names of streams in paths, the creation of
    directories and the change of permissions, over the classes [Directories] and
    [Permissions] for what the file system does; and [create_stream_directory] of
    [src/storage/storage_manager.c].  Error numbers are those of Linux. *)
From Stdlib Require Import ZArith Lia Bool.
From Stdlib Require Import Strings.Byte.
From stdpp Require Import base numbers list strings sets.
From S2P Require Import Prelude.
From S2P Require Import Libc.
From S2P Require Import CStrings.
#[local] Open Scope Z_scope.

(** ** Names *)

Definition sanitize_char (c : byte) : byte :=
  if isalpha c || bool_decide (is_Some (digit c)) || bool_decide (c = Byte.x2d) then c else Byte.x5f.

(** For a buffer of at least one byte. *)
Definition sanitize_stream_name (input : cstr) (output_size : nat) : cstr := sanitize_char <$> take (output_size - 1) input.

Definition valid_char (c : byte) : bool :=
  isalpha c || bool_decide (is_Some (digit c)) || bool_decide (c = Byte.x2d) || bool_decide (c = Byte.x5f) || bool_decide (c = Byte.x2e).

Definition is_valid_stream_name (name : option cstr) : bool :=
  match name with
  | None | Some [] => false
  | Some (c :: s) => if bool_decide (c = Byte.x2e) then false else forallb valid_char (c :: s)
  end.

(** ** Directories *)

Definition EEXIST : Z := 17.
Definition ENOTDIR : Z := 20.
Definition ELOOP : Z := 40.
Definition PATH_MAX : nat := 4096.

(** [stat_dir]: whether the path is a directory, [None] when [stat] fails.  [mkdir]
    gives [errno] when it fails. *)
Class Directories (F : Type) := {
  stat_dir : F → cstr → option bool;
  mkdir : F → cstr → F * option Z
}.

Definition slash : byte := Byte.x2f.

(** The paths that the loop of [_mkdir_recursive] cuts the string to, in order;
    [cur] is what is before its pointer. *)
Fixpoint levels (cur p : cstr) : list cstr :=
  match p with
  | [] => []
  | c :: p' =>
      if bool_decide (c = slash) then cur :: levels (cur ++ [c]) p'
      else match p' with
           | [] => [cur ++ [c]]
           | _ => levels (cur ++ [c]) p'
           end
  end.

(** A leading slash is skipped. *)
Definition path_levels (path : cstr) : list cstr :=
  match path with
  | c :: p => if bool_decide (c = slash) then levels [c] p else levels [] path
  | [] => []
  end.

Fixpoint strip_trailing (s : cstr) : cstr :=
  match s with
  | [] => []
  | c :: s => match strip_trailing s with
              | [] => if bool_decide (c = slash) then [] else [c]
              | s => c :: s
              end
  end.

(** [dirname] of POSIX. *)
Definition dirname (path : cstr) : cstr :=
  match strip_trailing path with
  | [] => if empty path then [Byte.x2e] else [slash]
  | p => match split_last slash p with
         | None => [Byte.x2e]
         | Some (a, _) => match strip_trailing a with [] => [slash] | a => a end
         end
  end.

Section directories.
Context {F : Type} `{Directories F}.

Definition ensure_dir (path : cstr) (f : F) : Z * F :=
  match stat_dir f path with
  | Some true => (0, f)
  | Some false => (- ENOTDIR, f)
  | None =>
      let '(f, errno) := mkdir f path in
      match errno with
      | Some e => (if e =? EEXIST then 0 else - e, f)
      | None => (0, f)
      end
  end.

Fixpoint ensure_all (paths : list cstr) (f : F) : Z * F :=
  match paths with
  | [] => (0, f)
  | p :: paths =>
      let '(r, f) := ensure_dir p f in
      if negb (r =? 0) then (-1, f) else ensure_all paths f
  end.

Definition _mkdir_recursive (path : cstr) (f : F) : Z * F := ensure_all (path_levels path) f.

(** The path, unless it is [NULL] or empty. *)
Definition given (path : option cstr) : option cstr := match path with Some [] => None | p => p end.

Definition ensure_path (path : option cstr) (f : F) : Z * F :=
  match given path with
  | None => (-1, f)
  | Some path => _mkdir_recursive (dirname (strcpy_trunc PATH_MAX path)) f
  end.

Definition mkdir_recursive (path : option cstr) (f : F) : Z * F :=
  match given path with
  | None => (-1, f)
  | Some path => _mkdir_recursive (strcpy_trunc PATH_MAX path) f
  end.

Definition create_stream_directory (storage_path : cstr) (stream_name : option cstr) (f : F) : Z * F :=
  match stream_name with
  | None => (-1, f)
  | Some stream_name =>
      let encoded_name := sanitize_stream_name stream_name MAX_STREAM_NAME in
      let dir_path := strcpy_trunc MAX_PATH_LENGTH (storage_path ++ slash :: encoded_name) in
      let '(r, f) := ensure_dir dir_path f in
      if negb (r =? 0) then (-1, f) else (0, f)
  end.
End directories.

(** ** Permissions *)

(** [open_directory] and [open_file] are [open] with [O_NOFOLLOW], and with or without
    [O_DIRECTORY]: [errno] when they fail.  [read_directory] is [fdopendir] and the names
    that [readdir] returns. *)
Class Permissions (F : Type) := {
  open_directory : F → cstr → option Z;
  open_file : F → cstr → option Z;
  fchmod : F → cstr → Z → F * bool;
  read_directory : F → cstr → option (list cstr)
}.

(** What [_chmod_path] leaves in [*fd_out]. *)
Inductive fd_out := Untouched | Closed | OpenDirectory.

Section permissions.
Context {F : Type} `{Permissions F}.

Definition change_mode (path : cstr) (mode : Z) (is_dir : bool) (f : F) : Z * fd_out * F :=
  let '(f, ok) := fchmod f path mode in
  if negb ok then (-1, Untouched, f) else (0, if is_dir then OpenDirectory else Closed, f).

Definition not_opened (errno : Z) (f : F) : Z * fd_out * F := (if errno =? ELOOP then 0 else -1, Untouched, f).

Definition _chmod_path (path : cstr) (mode : Z) (f : F) : Z * fd_out * F :=
  match open_directory f path with
  | None => change_mode path mode true f
  | Some errno =>
      if errno =? ENOTDIR then
        match open_file f path with
        | None => change_mode path mode false f
        | Some errno => not_opened errno f
        end
      else not_opened errno f
  end.

Definition chmod_path (path : option cstr) (mode : Z) (f : F) : Z * F :=
  match given path with
  | None => (-1, f)
  | Some path => let '(r, _, f) := _chmod_path path mode f in (r, f)
  end.

Definition chmod_parent (path : option cstr) (mode : Z) (f : F) : Z * F :=
  match given path with
  | None => (-1, f)
  | Some path => let '(r, _, f) := _chmod_path (dirname (strcpy_trunc PATH_MAX path)) mode f in (r, f)
  end.

(** The loop over the entries; a failure of one is remembered. *)
Fixpoint chmod_entries (rec : cstr → F → option (Z * F)) (prefix : cstr) (names : list cstr) (result : Z) (f : F)
    : option (Z * F) :=
  match names with
  | [] => Some (result, f)
  | name :: names =>
      if streq name (lit ".") || streq name (lit "..") then chmod_entries rec prefix names result f
      else '(r, f) ← rec (prefix ++ strcpy_trunc (PATH_MAX - length prefix) name) f;
           chmod_entries rec prefix names (if r =? 0 then result else -1) f
  end.

(** [None]: undefined behaviour, here the use of a descriptor that nobody set.  The
    fuel bounds the depth: every level makes the path longer. *)
Fixpoint chmod_below (fuel : nat) (mode : Z) (path : cstr) (f : F) : option (Z * F) :=
  match fuel with
  | O => None
  | S fuel =>
      let '(r, fd, f) := _chmod_path path mode f in
      if negb (r =? 0) then Some (-1, f) else
      match fd with
      | Untouched => None
      | Closed => Some (0, f)
      | OpenDirectory =>
          match read_directory f path with
          | None => Some (-1, f)
          | Some names =>
              let prefix := path ++ [slash] in
              if (PATH_MAX <=? length prefix)%nat then Some (-1, f)
              else chmod_entries (chmod_below fuel mode) prefix names 0 f
          end
      end
  end.

Definition chmod_recursive (path : option cstr) (mode : Z) (f : F) : option (Z * F) :=
  match given path with
  | None => Some (-1, f)
  | Some path => chmod_below (S PATH_MAX) mode path f
  end.
End permissions.

(** ** Names *)

Definition name_char (c : byte) : Prop := isalnum c = true ∨ c = Byte.x2d ∨ c = Byte.x5f.

Lemma sanitize_char_cases c : name_char (sanitize_char c) ∧ (name_char c → sanitize_char c = c).
Proof.
  unfold name_char. revert c.
  assert (H : ∀ c, bool_decide (isalnum (sanitize_char c) = true ∨ sanitize_char c = Byte.x2d ∨ sanitize_char c = Byte.x5f) &&
    (negb (bool_decide (isalnum c = true ∨ c = Byte.x2d ∨ c = Byte.x5f)) || bool_decide (sanitize_char c = c)) = true)
    by (by intros []; vm_compute).
  intros c. specialize (H c). apply andb_true_iff in H as [H1%bool_decide_eq_true H2]. split; [done|]. intros Hc.
  rewrite (bool_decide_eq_true_2 _ Hc) in H2. by apply bool_decide_eq_true in H2.
Qed.

(** What is made of a name is a single component of a path, and fits; a name of such
    characters is kept, but for what does not fit. *)
Theorem sanitized_name_spec name n :
  let s := sanitize_stream_name name n in
  (length s ≤ n - 1)%nat ∧ Forall name_char s ∧ slash ∉ s ∧ s ≠ lit ".." ∧
  (Forall name_char name → s = strcpy_trunc n name) ∧ sanitize_stream_name s n = s.
Proof.
  unfold sanitize_stream_name, strcpy_trunc. cbv zeta.
  assert (Hall : ∀ t, Forall name_char (sanitize_char <$> t)).
  { intros t. apply Forall_fmap, Forall_true. intros c. apply sanitize_char_cases. }
  assert (Hid : ∀ t, Forall name_char t → sanitize_char <$> t = t).
  { induction 1 as [|c t Hc _ IH]; [done|]. cbn [fmap list_fmap]. rewrite IH. f_equal. by apply sanitize_char_cases. }
  split_and!.
  - rewrite length_fmap, length_take. lia.
  - apply Hall.
  - intros Hin. specialize (Hall (take (n - 1) name)). eapply Forall_forall in Hall; [|exact Hin].
    by destruct Hall as [?|[?|?]].
  - intros E. specialize (Hall (take (n - 1) name)). rewrite E in Hall. apply Forall_inv in Hall. by destruct Hall as [?|[?|?]].
  - intros Hn. by apply Hid, Forall_take.
  - rewrite take_ge by (rewrite length_fmap, length_take; lia). apply Hid, Hall.
Qed.

(** Two valid names with one directory. *)
Example valid_names_collide :
  is_valid_stream_name (Some (lit "gate.1")) = true ∧ is_valid_stream_name (Some (lit "gate_1")) = true ∧
  sanitize_stream_name (lit "gate.1") MAX_STREAM_NAME = sanitize_stream_name (lit "gate_1") MAX_STREAM_NAME.
Proof. by vm_compute. Qed.

Example names_keep_their_case : sanitize_stream_name (lit "Front Door") MAX_STREAM_NAME = lit "Front_Door".
Proof. by vm_compute. Qed.

(** ** Directories *)

Section making.
Context {F : Type} `{Directories F}.
(** What [mkdir] did stays, and it refuses with [EEXIST] only directories. *)
Hypothesis mkdir_creates : ∀ f p f', mkdir f p = (f', None) → stat_dir f' p = Some true.
Hypothesis mkdir_keeps : ∀ f p f' e q b, mkdir f p = (f', e) → stat_dir f q = Some b → stat_dir f' q = Some b.
Hypothesis mkdir_errno : ∀ f p f' e, mkdir f p = (f', Some e) → 0 < e.
Hypothesis mkdir_exists : ∀ f p f', stat_dir f p = None → mkdir f p = (f', Some EEXIST) → stat_dir f' p = Some true.

Lemma ensure_dir_spec p f r f' :
  ensure_dir p f = (r, f') → (∀ q b, stat_dir f q = Some b → stat_dir f' q = Some b) ∧ (r = 0 → stat_dir f' p = Some true).
Proof.
  unfold ensure_dir. destruct (stat_dir f p) as [[]|] eqn:Es.
  - by intros [= <- <-].
  - by intros [= <- <-].
  - destruct (mkdir f p) as [f1 e] eqn:Em. intros E.
    destruct e as [e|]; injection E as <- <-; (split; [intros q b; by apply (mkdir_keeps _ _ _ _ _ _ Em)|]).
    + destruct (Z.eqb_spec e EEXIST) as [->|_]; [intros _; by apply (mkdir_exists f)|]. apply mkdir_errno in Em. lia.
    + intros _. by apply (mkdir_creates _ _ _ Em).
Qed.

Lemma ensure_all_spec ps f f' :
  ensure_all ps f = (0, f') → (∀ q b, stat_dir f q = Some b → stat_dir f' q = Some b) ∧ Forall (λ p, stat_dir f' p = Some true) ps.
Proof.
  revert f. induction ps as [|p ps IH]; intros f; cbn [ensure_all]; [intros [= <-]; by split|].
  destruct (ensure_dir p f) as [r f1] eqn:Ep. apply ensure_dir_spec in Ep as [Hk Hp].
  destruct (Z.eqb_spec r 0); [cbn [negb]|done]. intros [Hk' Hps]%IH. split; [auto|]. constructor; [|done]. auto.
Qed.

Lemma levels_before cur x y : cur ++ x ∈ levels cur (x ++ slash :: y).
Proof.
  revert cur. induction x as [|c x IH]; intros cur; cbn [app levels].
  - rewrite bool_decide_eq_true_2, app_nil_r by done. by left.
  - specialize (IH (cur ++ [c])). rewrite <-app_assoc in IH. cbn [app] in IH.
    case_bool_decide; [by right|]. by destruct (x ++ slash :: y) eqn:E; [destruct x|].
Qed.

Lemma levels_end cur x c : c ≠ slash → cur ++ x ++ [c] ∈ levels cur (x ++ [c]).
Proof.
  intros Hc. revert cur. induction x as [|d x IH]; intros cur; cbn [app levels].
  - rewrite bool_decide_eq_false_2 by done. by left.
  - specialize (IH (cur ++ [d])). rewrite <-app_assoc in IH. cbn [app] in IH.
    case_bool_decide; [by right|]. by destruct (x ++ [c]) eqn:E; [destruct x|].
Qed.

(** The prefixes of a path that are to be directories. *)
Definition level_of (path a : cstr) : Prop :=
  ∃ b, path = a ++ b ∧ a ≠ [] ∧ (head b = Some slash ∨ b = [] ∧ last a ≠ Some slash).

Lemma path_levels_spec path a : level_of path a → a ∈ path_levels path.
Proof.
  intros (b & -> & Ha & Hb).
  assert (Hl : ∀ cur x, x ≠ [] ∨ b ≠ [] → (b = [] → last x ≠ Some slash) → cur ++ x ∈ levels cur (x ++ b)).
  { intros cur x Hne Hlast. destruct b as [|c b].
    - destruct Hne as [Hne|?]; [|done]. destruct x as [|c x] using rev_ind; [done|]. rewrite app_nil_r. apply levels_end.
      intros ->. apply (Hlast eq_refl). by rewrite last_snoc.
    - assert (c = slash) as -> by (destruct Hb as [[= ->]|[? _]]; done). apply levels_before. }
  destruct a as [|c a]; [done|]. cbn [app path_levels]. case_bool_decide as Hc.
  - subst c. apply (Hl [slash] a).
    + destruct Hb as [Hb|[-> Hb]]; [right; by destruct b|left]. by destruct a.
    + intros ->. destruct Hb as [|[_ Hb]]; [done|]. intros E. apply Hb. by rewrite last_cons, E.
  - apply (Hl [] (c :: a)); [by left|]. intros ->. by destruct Hb as [|[_ Hb]].
Qed.

(** When it succeeds, the path and everything above it are directories. *)
Theorem mkdir_recursive_makes path f f' :
  (length path < PATH_MAX)%nat → mkdir_recursive (Some path) f = (0, f') →
  ∀ a, level_of path a → stat_dir f' a = Some true.
Proof.
  intros Hl. unfold mkdir_recursive, _mkdir_recursive. destruct path as [|c path]; [done|]. cbn [given].
  rewrite strcpy_trunc_id by done. intros [_ Hall]%ensure_all_spec a Ha%path_levels_spec. by eapply Forall_forall in Hall.
Qed.

(** A file in the way is an error. *)
Theorem mkdir_recursive_blocked path f a :
  (length path < PATH_MAX)%nat → level_of path a → stat_dir f a = Some false → (mkdir_recursive (Some path) f).1 = -1.
Proof.
  intros Hl Ha%path_levels_spec Hf. unfold mkdir_recursive, _mkdir_recursive. destruct path as [|c path]; [done|]. cbn [given].
  rewrite strcpy_trunc_id by done.
  revert f Hf. induction Ha as [a ps|a p ps Ha IH]; intros f Hf; cbn [ensure_all].
  - unfold ensure_dir. by rewrite Hf.
  - destruct (ensure_dir p f) as [r f1] eqn:Ep. apply ensure_dir_spec in Ep as [Hk _].
    destruct (negb (r =? 0)); [done|]. auto.
Qed.
End making.

(** ** Permissions *)

(** On a file system without symbolic links the recursion ends, and uses no descriptor
    that was not set. *)
Theorem chmod_recursive_ends {F} `{Permissions F} path mode f :
  (∀ f p, open_directory f p ≠ Some ELOOP ∧ open_file f p ≠ Some ELOOP) → is_Some (chmod_recursive path mode f).
Proof.
  intros Hlinks. unfold chmod_recursive. destruct (given path) as [p|]; [|done].
  assert (Hfd : ∀ p f r fd f', _chmod_path p mode f = (r, fd, f') → r = 0 → fd ≠ Untouched).
  { intros q g r fd g'. destruct (Hlinks g q) as [Hd Hf]. unfold _chmod_path, change_mode, not_opened.
    repeat case_match; intros [= <- <- <-]; try done; intros _; unbool; naive_solver. }
  assert (Hgen : ∀ fuel p f, (PATH_MAX < fuel + length p)%nat → (0 < fuel)%nat → is_Some (chmod_below fuel mode p f)).
  { intros fuel. induction fuel as [|fuel IH]; intros q g Hq Hpos; [lia|]. cbn [chmod_below].
    destruct (_chmod_path q mode g) as [[r fd] g'] eqn:E. destruct (Z.eqb_spec r 0) as [Hr|]; [cbn [negb]|done].
    specialize (Hfd _ _ _ _ _ E Hr). destruct fd; [done|done|]. destruct (read_directory g' q) as [names|]; [|done].
    destruct (Nat.leb_spec PATH_MAX (length (q ++ [slash]))) as [|Hlt]; [done|].
    rewrite length_app in Hlt. cbn [length] in Hlt. generalize 0 at 1. intros result. clear E. revert result g'.
    induction names as [|name names IHn]; intros result g'; cbn [chmod_entries]; [done|].
    destruct (_ || _); [apply IHn|].
    destruct (IH ((q ++ [slash]) ++ strcpy_trunc (PATH_MAX - length (q ++ [slash])) name) g') as [[r1 g1] ->].
    - rewrite !length_app. cbn [length]. lia.
    - lia.
    - apply IHn. }
  apply Hgen; lia.
Qed.

(** ** A file system *)

(** The directories, but the root; nothing else exists. *)
#[local] Instance example_directories : Directories (list cstr) := {|
  stat_dir f p := if bool_decide (p = [slash] ∨ p ∈ f) then Some true else None;
  mkdir f p := if bool_decide (dirname p = [slash] ∨ dirname p ∈ f) then (p :: f, None) else (f, Some 2)
|}.

Lemma mkdir_recursive_makes_witness :
  mkdir_recursive (Some (lit "/var/lib/nvr/")) [lit "/var"] = (0, [lit "/var/lib/nvr"; lit "/var/lib"; lit "/var"]) ∧
  ∀ a, level_of (lit "/var/lib/nvr/") a → stat_dir [lit "/var/lib/nvr"; lit "/var/lib"; lit "/var"] a = Some true.
Proof.
  assert (E : mkdir_recursive (Some (lit "/var/lib/nvr/")) [lit "/var"] = (0, [lit "/var/lib/nvr"; lit "/var/lib"; lit "/var"]))
    by (vm_compute; reflexivity).
  split; [exact E|]. refine (mkdir_recursive_makes _ _ _ _ (lit "/var/lib/nvr/") [lit "/var"] _ _ E).
  - intros f p f'. simpl. case_bool_decide; [|done]. intros [= <-]. rewrite bool_decide_eq_true_2; [done|]. right. by left.
  - intros f p f' e q b. simpl. case_bool_decide; case_bool_decide as Hq; intros [= <- <-] [= <-]; rewrite bool_decide_eq_true_2; try done.
    destruct Hq; [by left|right; by right].
  - intros f p f' e. simpl. case_bool_decide; [done|]. by intros [= _ <-].
  - intros f p f' _. simpl. by case_bool_decide.
  - simpl. unfold PATH_MAX. lia.
Defined.

(** A directory with an entry, which is a symbolic link or a file. *)
Definition linked_directory (link : bool) : Permissions unit := {|
  open_directory _ p := if streq p (lit "/d") then None else Some (if link then ELOOP else ENOTDIR);
  open_file _ p := if link then Some ELOOP else None;
  fchmod _ _ _ := (tt, true);
  read_directory _ p := if streq p (lit "/d") then Some [lit "."; lit ".."; lit "entry"] else None
|}.

Lemma chmod_recursive_ends_witness :
  (∀ f p, open_directory (Permissions := linked_directory false) f p ≠ Some ELOOP ∧ open_file (Permissions := linked_directory false) f p ≠ Some ELOOP) ∧
  is_Some (@chmod_recursive unit (linked_directory false) (Some (lit "/d")) 493 tt).
Proof.
  assert (Hl : ∀ f p, open_directory (Permissions := linked_directory false) f p ≠ Some ELOOP ∧
    open_file (Permissions := linked_directory false) f p ≠ Some ELOOP) by (intros f p; simpl; by destruct (streq p (lit "/d"))).
  split; [exact Hl|]. exact (@chmod_recursive_ends unit (linked_directory false) (Some (lit "/d")) 493 tt Hl).
Defined.

(** With a symbolic link in the directory, the descriptor that is tested is not set. *)
Example symbolic_link_undefined : @chmod_recursive unit (linked_directory true) (Some (lit "/d")) 493 tt = None.
Proof. by vm_compute. Qed.
