(* ===== verification/PacketBuffer.v ===== *)
(** * The packet buffer: [src/video/packet_buffer.c], [include/video/packet_buffer.h]

    A pool of per-stream circular buffers of [AVPacket] clones.  FFmpeg's
    allocator is the interface [PacketHeap] (its documented contract is
    [PacketHeapLaws]); the buffer's operations are the C functions over the
    record [packet_buffer_t], with undefined behaviour (an access outside the
    packet array) as [None].  [ring_inv] is the data-structure invariant,
    [contents] the packets from oldest to newest, and [abs] the queue of
    timestamped packets the buffer implements. *)
From Stdlib Require Import ZArith Lia Bool.
From Stdlib Require Import Strings.Byte.
From Stdlib Require Import SpecFloat.
From stdpp Require Import base numbers list strings gmap sorting.
From S2P Require Import Prelude.
From S2P Require Import Arrays.
From S2P Require Import CFloat.
#[local] Open Scope Z_scope.

Definition MAX_BUFFER_SECONDS : Z := 30.
Definition MIN_BUFFER_SECONDS : Z := 5.
Definition DEFAULT_BUFFER_SECONDS : Z := 5.

(** ** FFmpeg packets and their allocator *)

Definition AV_PKT_FLAG_KEY : Z := 1.

(** The fields of [AVPacket] the buffer reads, and its payload. *)
Record AVPacket := mkAVPacket {
  av_pts : Z;
  av_dts : Z;
  av_stream_index : Z;
  av_flags : Z;
  av_size : Z;
  av_data : list byte
}.

(** Packets live in a heap [H]; an [AVPacket *] is a [positive]. *)
Class PacketHeap (H : Type) := {
  pkt_get : H → positive → option AVPacket;
  av_packet_clone : H → positive → H * option positive;
  av_packet_free : H → positive → H
}.

Class PacketHeapLaws (H : Type) `{PacketHeap H} := {
  clone_new h p pk h' q :
    pkt_get h p = Some pk → av_packet_clone h p = (h', Some q) →
    pkt_get h q = None ∧ pkt_get h' q = Some pk ∧
    ∀ r, r ≠ q → pkt_get h' r = pkt_get h r;
  clone_fail h p h' :
    av_packet_clone h p = (h', None) → ∀ r, pkt_get h' r = pkt_get h r;
  free_gone h p : pkt_get (av_packet_free h p) p = None;
  free_other h p r : r ≠ p → pkt_get (av_packet_free h p) r = pkt_get h r
}.

(** ** Data *)

Inductive buffer_mode_t := BUFFER_MODE_MEMORY | BUFFER_MODE_DISK | BUFFER_MODE_HYBRID.

#[global] Instance buffer_mode_eq_dec : EqDecision buffer_mode_t.
Proof. solve_decision. Defined.

Record buffered_packet_t := mkBufferedPacket {
  packet : option positive;
  timestamp : Z;
  bp_pts : Z;
  bp_dts : Z;
  stream_index : Z;
  is_keyframe : bool;
  data_size : Z
}.

(** A slot after [calloc]. *)
Definition empty_slot : buffered_packet_t := mkBufferedPacket None 0 0 0 0 false 0.

Record packet_buffer_t := mkPacketBuffer {
  stream_name : cstr;
  buffer_seconds : Z;
  max_packets : Z;
  mode : buffer_mode_t;
  packets : option (list buffered_packet_t);
  head : Z;
  tail : Z;
  count : Z;
  total_packets_buffered : Z;
  total_packets_dropped : Z;
  total_bytes_buffered : Z;
  current_memory_usage : Z;
  peak_memory_usage : Z;
  oldest_packet_time : Z;
  newest_packet_time : Z;
  disk_buffer_path : cstr;
  mutex_initialized : bool;
  active : bool
}.

(** [memset (buffer, 0, sizeof ( *buffer))]. *)
Definition zero_buffer : packet_buffer_t :=
  mkPacketBuffer [] 0 0 BUFFER_MODE_MEMORY None 0 0 0 0 0 0 0 0 0 0 [] false false.

Definition set_ring (b : packet_buffer_t) (ps : list buffered_packet_t) (hd tl n : Z)
    : packet_buffer_t :=
  mkPacketBuffer (stream_name b) (buffer_seconds b) (max_packets b) (mode b) (Some ps)
    hd tl n (total_packets_buffered b) (total_packets_dropped b) (total_bytes_buffered b)
    (current_memory_usage b) (peak_memory_usage b) (oldest_packet_time b)
    (newest_packet_time b) (disk_buffer_path b) (mutex_initialized b) (active b).

Definition set_stats (b : packet_buffer_t) (buffered dropped bytes mem peak : Z)
    : packet_buffer_t :=
  mkPacketBuffer (stream_name b) (buffer_seconds b) (max_packets b) (mode b) (packets b)
    (head b) (tail b) (count b) buffered dropped bytes mem peak (oldest_packet_time b)
    (newest_packet_time b) (disk_buffer_path b) (mutex_initialized b) (active b).

Definition set_memory (b : packet_buffer_t) (mem : Z) : packet_buffer_t :=
  set_stats b (total_packets_buffered b) (total_packets_dropped b)
    (total_bytes_buffered b) mem (peak_memory_usage b).

Definition set_times (b : packet_buffer_t) (oldest newest : Z) : packet_buffer_t :=
  mkPacketBuffer (stream_name b) (buffer_seconds b) (max_packets b) (mode b) (packets b)
    (head b) (tail b) (count b) (total_packets_buffered b) (total_packets_dropped b)
    (total_bytes_buffered b) (current_memory_usage b) (peak_memory_usage b) oldest newest
    (disk_buffer_path b) (mutex_initialized b) (active b).

Definition set_mode (b : packet_buffer_t) (m : buffer_mode_t) (path : cstr)
    : packet_buffer_t :=
  mkPacketBuffer (stream_name b) (buffer_seconds b) (max_packets b) m (packets b)
    (head b) (tail b) (count b) (total_packets_buffered b) (total_packets_dropped b)
    (total_bytes_buffered b) (current_memory_usage b) (peak_memory_usage b)
    (oldest_packet_time b) (newest_packet_time b) path (mutex_initialized b) (active b).

Definition clear_packet (s : buffered_packet_t) : buffered_packet_t :=
  mkBufferedPacket None (timestamp s) (bp_pts s) (bp_dts s) (stream_index s)
    (is_keyframe s) (data_size s).

(** ** Estimates *)

(** [(int)((fps * duration_seconds) * 1.2)] *)
Definition packet_buffer_estimate_packet_count (fps duration_seconds : Z) : option Z :=
  f_to_int (fmul binary64 (f_of_Z binary64 (fps * duration_seconds)) (f_lit binary64 12 10)).

Definition estimate_stream_buffer_mb (width height fps pre_buffer_seconds : Z) : option Z :=
  let width := if width <=? 0 then 1280 else width in
  let height := if height <=? 0 then 720 else height in
  let fps := if fps <=? 0 then 15 else fps in
  let pre := if pre_buffer_seconds <=? 0 then DEFAULT_BUFFER_SECONDS else pre_buffer_seconds in
  let pre := if pre >? MAX_BUFFER_SECONDS then MAX_BUFFER_SECONDS else pre in
  let d := f_of_Z binary64 in
  let mul := fmul binary64 in
  let bytes_per_sec :=
    fdiv binary64 (mul (mul (mul (d width) (d height)) (d fps)) (f_lit binary64 1 10)) (d 8) in
  let bytes_per_sec := fadd binary64 bytes_per_sec (d 8000) in
  let total_bytes := mul (mul bytes_per_sec (d pre)) (f_lit binary64 5 4) in
  mb ← f_to_u64 (fdiv binary64 total_bytes (mul (d 1024) (d 1024)));
  Some (if mb <? 2 then 2 else mb).

(** The fields of [stream_config_t] the pool size depends on. *)
Record pool_stream_config := mkPoolStream {
  ps_enabled : bool;
  ps_detection_based_recording : bool;
  ps_pre_detection_buffer : Z;
  ps_width : Z;
  ps_height : Z;
  ps_fps : Z
}.

(** [cfg] is [NULL] or the default pre-detection buffer with the
    [max_streams] stream configurations. *)
Definition calculate_packet_buffer_pool_size (cfg : option (Z * list pool_stream_config))
    : option Z :=
  match cfg with
  | None => Some 32
  | Some (default_pre, streams) =>
      '(total_mb, detection_streams) ← foldl (λ acc s,
          '(total, n) ← acc;
          if negb (ps_enabled s) || negb (ps_detection_based_recording s)
          then Some (total, n)
          else
            let pre_buf :=
              if ps_pre_detection_buffer s >? 0 then ps_pre_detection_buffer s
              else if default_pre >? 0 then default_pre else DEFAULT_BUFFER_SECONDS in
            mb ← estimate_stream_buffer_mb (ps_width s) (ps_height s) (ps_fps s) pre_buf;
            Some (u64 (total + mb), n + 1)) (Some (0, 0)) streams;
      if detection_streams =? 0 then Some 16 else
      total_mb ← f_to_u64 (fmul binary64 (f_of_Z binary64 total_mb) (f_lit binary64 12 10));
      let total_mb := if total_mb <? 16 then 16 else total_mb in
      let total_mb := if total_mb >? 512 then 512 else total_mb in
      Some total_mb
  end.

(** ** Operations on one buffer *)

Section operations.
Context {H : Type} `{PacketHeap H}.
Implicit Types (h : H) (b : packet_buffer_t).

(** Free the packet of slot [i], if it has one, and account for it. *)
Definition release_slot h b (i : Z) : option (H * packet_buffer_t) :=
  ps ← packets b;
  s ← aget ps i;
  match packet s with
  | Some p =>
      let b := set_memory b (u64 (current_memory_usage b - data_size s)) in
      ps ← aset ps i (clear_packet s);
      Some (av_packet_free h p, set_ring b ps (head b) (tail b) (count b))
  | None => Some (h, b)
  end.

(** The body shared by both evictions of [packet_buffer_add_packet]. *)
Definition evict_oldest h b : option (H * packet_buffer_t) :=
  '(h, b) ← release_slot h b (tail b);
  ps ← packets b;
  let b := set_ring b ps (head b) (cmod (tail b + 1) (max_packets b)) (count b - 1) in
  Some (h, set_stats b (total_packets_buffered b) (u64 (total_packets_dropped b + 1))
             (total_bytes_buffered b) (current_memory_usage b) (peak_memory_usage b)).

(** [while (buffer->count > 0) ..]: [n] bounds the iterations, see
    [evict_expired_done]. *)
Fixpoint evict_expired (n : nat) h b (ts : Z) : option (H * packet_buffer_t) :=
  match n with
  | O => Some (h, b)
  | S n =>
      if count b >? 0 then
        ps ← packets b;
        s ← aget ps (tail b);
        if ts - timestamp s >? buffer_seconds b then
          '(h, b) ← evict_oldest h b;
          evict_expired n h b ts
        else Some (h, b)
      else Some (h, b)
  end.

(** [buffer->packets[buffer->head] = clone of packet], statistics, times. *)
Definition store_packet b (q : positive) (pk : AVPacket) (ts : Z) : option packet_buffer_t :=
  ps ← packets b;
  ps ← aset ps (head b)
         (mkBufferedPacket (Some q) ts (av_pts pk) (av_dts pk) (av_stream_index pk)
            (negb (Z.land (av_flags pk) AV_PKT_FLAG_KEY =? 0)) (u64 (av_size pk)));
  let mem := u64 (current_memory_usage b + av_size pk) in
  let peak := if mem >? peak_memory_usage b then mem else peak_memory_usage b in
  let b := set_ring b ps (head b) (tail b) (count b) in
  let b := set_stats b (u64 (total_packets_buffered b + 1)) (total_packets_dropped b)
             (u64 (total_bytes_buffered b + av_size pk)) mem peak in
  s ← aget ps (tail b);
  let b := set_times b (if count b =? 0 then ts else timestamp s) ts in
  Some (set_ring b ps (cmod (head b + 1) (max_packets b)) (tail b) (count b + 1)).

Definition packet_buffer_add_packet h (buffer : option packet_buffer_t)
    (pkt : option positive) (ts : Z) : option (Z * H * option packet_buffer_t) :=
  match buffer, pkt with
  | Some b, Some p =>
      if negb (active b) then Some (-1, h, buffer) else
      '(h, b) ← evict_expired (Z.to_nat (count b)) h b ts;
      '(h, b) ← (if count b >=? max_packets b then evict_oldest h b else Some (h, b));
      match av_packet_clone h p with
      | (h, None) => Some (-1, h, Some b)
      | (h, Some q) =>
          pk ← pkt_get h p;
          b ← store_packet b q pk ts;
          Some (0, h, Some b)
      end
  | _, _ => Some (-1, h, buffer)
  end.

(** Result: return value, heap, and the pointer stored through [packet]
    ([None]: nothing stored; [Some NULL] is [Some None]). *)
Definition packet_buffer_peek_oldest h (buffer : option packet_buffer_t)
    : option (Z * H * option (option positive)) :=
  match buffer with
  | Some b =>
      if negb (active b) then Some (-1, h, None) else
      if count b =? 0 then Some (-1, h, None) else
      ps ← packets b;
      s ← aget ps (tail b);
      p ← packet s;
      let '(h, q) := av_packet_clone h p in
      Some (match q with Some _ => 0 | None => -1 end, h, Some q)
  | None => Some (-1, h, None)
  end.

Definition packet_buffer_pop_oldest (buffer : option packet_buffer_t)
    : option (Z * option packet_buffer_t * option (option positive)) :=
  match buffer with
  | Some b =>
      if negb (active b) then Some (-1, buffer, None) else
      if count b =? 0 then Some (-1, buffer, None) else
      ps ← packets b;
      s ← aget ps (tail b);
      ps ← aset ps (tail b) (clear_packet s);
      let b := set_memory b (u64 (current_memory_usage b - data_size s)) in
      let b := set_ring b ps (head b) (cmod (tail b + 1) (max_packets b)) (count b - 1) in
      b ← (if count b >? 0 then
             s' ← aget ps (tail b);
             Some (set_times b (timestamp s') (newest_packet_time b))
           else Some b);
      Some (0, Some b, Some (packet s))
  | None => Some (-1, buffer, None)
  end.

(** The callback of a flush: a state transformer on its [user_data]. *)
Fixpoint flush_loop {U} (callback : AVPacket → U → Z * U) (n : nat) (i : Z)
    h b (u : U) (flushed : Z) : option (H * packet_buffer_t * U * Z) :=
  match n with
  | O => Some (h, b, u, flushed)
  | S n =>
      let index := cmod (tail b + i) (max_packets b) in
      ps ← packets b;
      s ← aget ps index;
      '(u, flushed) ← match packet s with
                      | Some p => pk ← pkt_get h p;
                                  let '(r, u) := callback pk u in
                                  Some (u, if r =? 0 then flushed + 1 else flushed)
                      | None => Some (u, flushed)
                      end;
      '(h, b) ← release_slot h b index;
      flush_loop callback n (i + 1) h b u flushed
  end.

Definition packet_buffer_flush {U} h (buffer : option packet_buffer_t)
    (callback : option (AVPacket → U → Z * U)) (u : U)
    : option (Z * H * option packet_buffer_t * U) :=
  match buffer, callback with
  | Some b, Some callback =>
      if negb (active b) then Some (-1, h, buffer, u) else
      '(h, b, u, flushed) ← flush_loop callback (Z.to_nat (count b)) 0 h b u 0;
      ps ← packets b;
      Some (flushed, h, Some (set_ring b ps 0 0 0), u)
  | _, _ => Some (-1, h, buffer, u)
  end.

(** [for (i = 0; i < max_packets; i++) release slot i] *)
Fixpoint release_all (n : nat) (i : Z) h b : option (H * packet_buffer_t) :=
  match n with
  | O => Some (h, b)
  | S n => '(h, b) ← release_slot h b i; release_all n (i + 1) h b
  end.

Definition packet_buffer_clear h (buffer : option packet_buffer_t)
    : option (H * option packet_buffer_t) :=
  match buffer with
  | Some b =>
      if negb (active b) then Some (h, buffer) else
      '(h, b) ← release_all (Z.to_nat (max_packets b)) 0 h b;
      ps ← packets b;
      Some (h, Some (set_ring b ps 0 0 0))
  | None => Some (h, buffer)
  end.
End operations.

(** The three outputs of [packet_buffer_get_stats], each [NULL] or written;
    the result is [-1] for [NULL] or an inactive buffer. *)
Definition packet_buffer_get_stats (buffer : option packet_buffer_t) : Z * option (Z * Z * Z) :=
  match buffer with
  | Some b =>
      if negb (active b) then (-1, None) else
      (0, Some (count b, current_memory_usage b,
                if count b >? 0 then s32 (newest_packet_time b - oldest_packet_time b) else 0))
  | None => (-1, None)
  end.

Definition packet_buffer_is_ready (buffer : option packet_buffer_t) : bool :=
  match buffer with
  | Some b =>
      active b &&
      (if count b >? 0
       then s32 (newest_packet_time b - oldest_packet_time b) >=? buffer_seconds b
       else false)
  | None => false
  end.

Fixpoint keyframe_loop (n : nat) (i : Z) (b : packet_buffer_t) (ps : list buffered_packet_t)
    (acc : Z) : option Z :=
  match n with
  | O => Some acc
  | S n =>
      s ← aget ps (cmod (tail b + i) (max_packets b));
      keyframe_loop n (i + 1) b ps (if is_keyframe s then acc + 1 else acc)
  end.

Definition packet_buffer_get_keyframe_count (buffer : option packet_buffer_t) : option Z :=
  match buffer with
  | Some b =>
      if negb (active b) then Some 0 else
      ps ← packets b;
      keyframe_loop (Z.to_nat (count b)) 0 b ps 0
  | None => Some 0
  end.

Definition packet_buffer_set_memory_limit (buffer : option packet_buffer_t) (limit_mb : Z) : Z :=
  match buffer with
  | Some b => if negb (active b) then -1 else 0
  | None => -1
  end.

Definition packet_buffer_set_disk_fallback (buffer : option packet_buffer_t) (enable : bool)
    (disk_path : option cstr) : Z * option packet_buffer_t :=
  match buffer with
  | Some b =>
      if negb (active b) then (-1, buffer) else
      if enable then
        (0, Some (set_mode b BUFFER_MODE_HYBRID
                    match disk_path with
                    | Some p => strcpy_trunc MAX_PATH_LENGTH p
                    | None => disk_buffer_path b
                    end))
      else (0, Some (set_mode b BUFFER_MODE_MEMORY (disk_buffer_path b)))
  | None => (-1, buffer)
  end.

(** ** The pool *)

Record packet_buffer_pool_t := mkPool {
  buffers : list packet_buffer_t;
  active_buffers : Z;
  total_memory_limit : Z;
  pool_memory_usage : Z
}.

Record pool_state := mkPoolState {
  buffer_pool : packet_buffer_pool_t;
  pool_initialized : bool
}.

Definition zero_pool : packet_buffer_pool_t :=
  mkPool (replicate MAX_STREAMS zero_buffer) 0 0 0.

Definition set_buffer (st : pool_state) (i : nat) (b : packet_buffer_t) : pool_state :=
  let p := buffer_pool st in
  mkPoolState (mkPool (<[i := b]> (buffers p)) (active_buffers p) (total_memory_limit p)
                 (pool_memory_usage p)) (pool_initialized st).

Definition init_packet_buffer_pool (mutex_ok : bool) (memory_limit_mb : Z) (st : pool_state)
    : Z * pool_state :=
  if pool_initialized st then (0, st) else
  if negb mutex_ok then (-1, mkPoolState zero_pool false) else
  (0, mkPoolState (mkPool (replicate MAX_STREAMS zero_buffer) 0
                     (u64 (memory_limit_mb * 1024 * 1024)) 0) true).

Definition reinit_packet_buffer_pool (mutex_ok : bool) (new_memory_limit_mb : Z) (st : pool_state)
    : Z * pool_state :=
  if negb (pool_initialized st) then init_packet_buffer_pool mutex_ok new_memory_limit_mb st else
  let p := buffer_pool st in
  if total_memory_limit p `div` (1024 * 1024) =? new_memory_limit_mb then (0, st) else
  (0, mkPoolState (mkPool (buffers p) (active_buffers p)
                     (u64 (new_memory_limit_mb * 1024 * 1024)) (pool_memory_usage p)) true).

(** A slot after the initialisation part of [create_packet_buffer]. *)
Definition fresh_buffer (name : cstr) (seconds maxp : Z) (m : buffer_mode_t)
    (ps : option (list buffered_packet_t)) (path : cstr) (mutex act : bool) : packet_buffer_t :=
  mkPacketBuffer (strcpy_trunc 256 name) seconds maxp m ps 0 0 0 0 0 0 0 0 0 0 path mutex act.

(** Parameters: whether [pthread_mutex_init] and [calloc] succeed, the storage
    path of the configuration ([NULL] when there is none) and [ensure_dir].
    Result: the slot of the returned buffer ([None] for [NULL]). *)
Definition create_packet_buffer (mutex_ok calloc_ok : bool) (storage_path : option cstr)
    (ensure_dir : cstr → Z) (st : pool_state) (name : option cstr) (seconds : Z)
    (m : buffer_mode_t) : option (option nat * pool_state) :=
  if negb (pool_initialized st) then Some (None, st) else
  match name with
  | None => Some (None, st)
  | Some name =>
      if (seconds <? MIN_BUFFER_SECONDS) || (seconds >? MAX_BUFFER_SECONDS)
      then Some (None, st) else
      match find_idx (λ b, negb (active b)) (buffers (buffer_pool st)) with
      | None => Some (None, st)
      | Some i =>
          if negb mutex_ok then Some (None, set_buffer st i zero_buffer) else
          maxp ← packet_buffer_estimate_packet_count 15 seconds;
          if negb calloc_ok then
            Some (None, set_buffer st i (fresh_buffer name seconds maxp m None [] false false))
          else
            let ps := Some (replicate (Z.to_nat maxp) empty_slot) in
            let done_ (path : cstr) :=
              let st := set_buffer st i (fresh_buffer name seconds maxp m ps path true true) in
              let p := buffer_pool st in
              Some (Some i, mkPoolState (mkPool (buffers p) (active_buffers p + 1)
                              (total_memory_limit p) (pool_memory_usage p)) true) in
            if bool_decide (m = BUFFER_MODE_MEMORY) then done_ [] else
            match storage_path with
            | None => done_ []
            | Some sp =>
                let path := strcpy_trunc MAX_PATH_LENGTH (sp ++ lit "/.packet_buffer_" ++ name) in
                if ensure_dir path =? 0 then done_ path
                else Some (None, set_buffer st i
                                   (fresh_buffer name seconds maxp m ps path false true))
            end
      end
  end.

Section pool_operations.
Context {H : Type} `{PacketHeap H}.

(** Free the packets of a destroyed buffer. *)
Definition free_packets (h : H) (ps : list buffered_packet_t) : H :=
  foldl (λ h s, match packet s with Some p => av_packet_free h p | None => h end) h ps.

Definition destroy_packet_buffer (h : H) (st : pool_state) (i : nat) : H * pool_state :=
  match buffers (buffer_pool st) !! i with
  | Some b =>
      if negb (active b) then (h, st) else
      let h := match packets b with Some ps => free_packets h ps | None => h end in
      let b' := mkPacketBuffer (stream_name b) (buffer_seconds b) (max_packets b) (mode b)
                  None (head b) (tail b) (count b) (total_packets_buffered b)
                  (total_packets_dropped b) (total_bytes_buffered b)
                  (current_memory_usage b) (peak_memory_usage b) (oldest_packet_time b)
                  (newest_packet_time b) (disk_buffer_path b) false false in
      let p := buffer_pool st in
      (h, mkPoolState (mkPool (<[i := b']> (buffers p)) (active_buffers p - 1)
                         (total_memory_limit p)
                         (u64 (pool_memory_usage p - current_memory_usage b)))
            (pool_initialized st))
  | None => (h, st)
  end.

Definition cleanup_packet_buffer_pool (h : H) (st : pool_state) : H * pool_state :=
  if negb (pool_initialized st) then (h, st) else
  let '(h, st) := foldl (λ '(h, st) i, destroy_packet_buffer h st i) (h, st)
                    (seq 0 MAX_STREAMS) in
  (h, mkPoolState (buffer_pool st) false).
End pool_operations.

#[local] Arguments free_packets : simpl never.

Definition get_packet_buffer (st : pool_state) (name : option cstr) : option nat :=
  if negb (pool_initialized st) then None else
  match name with
  | None => None
  | Some name =>
      find_idx (λ b, active b && streq (stream_name b) name) (buffers (buffer_pool st))
  end.

Definition packet_buffer_get_total_memory_usage (st : pool_state) : Z :=
  if negb (pool_initialized st) then 0 else pool_memory_usage (buffer_pool st).

(** ** The abstract queue and the refinement relation *)

(** What the buffer stands for: packets with their time of arrival, oldest
    first. *)
Abbreviation entry := (Z * AVPacket)%type.

(** The length of time a packet stays: the prefix of the queue older than
    [secs] at time [now] is dropped. *)
Fixpoint drop_expired (now secs : Z) (q : list entry) : list entry :=
  match q with
  | [] => []
  | e :: q' => if now - e.1 >? secs then drop_expired now secs q' else q
  end.

Definition make_room (maxp : Z) (q : list entry) : list entry :=
  if Z.of_nat (length q) >=? maxp then tl q else q.

(** The queue once a packet arriving at [now] has its free slot. *)
Definition evicted (now secs maxp : Z) (q : list entry) : list entry :=
  make_room maxp (drop_expired now secs q).

Definition bytes (q : list entry) : Z := foldr (λ e acc, av_size e.2 + acc) 0 q.

Definition arr (b : packet_buffer_t) : list buffered_packet_t := default [] (packets b).
Definition ring (b : packet_buffer_t) : list buffered_packet_t :=
  rotate (Z.to_nat (tail b)) (arr b).
Definition owned (b : packet_buffer_t) : list positive := omap packet (arr b).

(** The fields no packet operation writes. *)
Definition config (b : packet_buffer_t) :=
  (stream_name b, buffer_seconds b, max_packets b, mode b, disk_buffer_path b,
   mutex_initialized b, active b).

Section refinement.
Context {H : Type} `{PacketHeapLaws H}.
Implicit Types (h : H) (b : packet_buffer_t) (q : list entry).

(** A slot that holds the clone of the packet of an entry. *)
Definition slot_holds h (s : buffered_packet_t) (e : entry) : Prop :=
  timestamp s = e.1 ∧ bp_pts s = av_pts e.2 ∧ bp_dts s = av_dts e.2 ∧
  stream_index s = av_stream_index e.2 ∧
  is_keyframe s = negb (Z.land (av_flags e.2) AV_PKT_FLAG_KEY =? 0) ∧
  data_size s = u64 (av_size e.2) ∧
  ∃ p, packet s = Some p ∧ pkt_get h p = Some e.2.

(** [live] are the occupied slots from [tail], [free] the others. *)
Record layout h b q (live free : list buffered_packet_t) : Prop := {
  lay_some : packets b = Some (arr b);
  lay_len : Z.of_nat (length (arr b)) = max_packets b;
  lay_tail : 0 ≤ tail b < max_packets b;
  lay_count : count b = Z.of_nat (length q);
  lay_head : head b = Z.rem (tail b + count b) (max_packets b);
  lay_ring : ring b = live ++ free;
  lay_live : Forall2 (slot_holds h) live q;
  lay_free : Forall (λ s, packet s = None) free;
  lay_nodup : NoDup (omap packet live);
  lay_mem : current_memory_usage b = u64 (bytes q)
}.

Definition represents h b q : Prop := ∃ live free, layout h b q live free.

(** From [(h, b)] to [(h', b')] the buffer may only give packets up, each
    freed, and touches no packet it does not own. *)
Definition frees h b h' b' : Prop :=
  (∀ r, r ∉ owned b → pkt_get h' r = pkt_get h r) ∧
  (∀ r, r ∈ owned b → r ∉ owned b' → pkt_get h' r = None) ∧
  (∀ r, r ∈ owned b' → r ∈ owned b).

Lemma frees_refl h b : frees h b h b.
Proof. split_and!; naive_solver. Qed.

Lemma frees_trans h1 b1 h2 b2 h3 b3 :
  frees h1 b1 h2 b2 → frees h2 b2 h3 b3 → frees h1 b1 h3 b3.
Proof.
  intros (U1 & G1 & S1) (U2 & G2 & S2). split_and!; [|..|by auto].
  - intros r Hr. rewrite U2 by naive_solver. auto.
  - intros r Hr Hn. destruct (decide (r ∈ owned b2)); [by auto|].
    rewrite U2 by done. auto.
Qed.

Lemma omap_free (l : list buffered_packet_t) :
  Forall (λ s, packet s = None) l → omap packet l = [].
Proof. induction 1 as [|s l Hs _ IH]; [done|]. csimpl. by rewrite Hs. Qed.

Lemma owned_ring b r : (r ∈ owned b) ↔ (r ∈ omap packet (ring b)).
Proof. unfold owned, ring. by rewrite rotate_Permutation. Qed.

Lemma owned_layout h b q live free r :
  layout h b q live free → (r ∈ owned b ↔ r ∈ omap packet live).
Proof.
  intros L. rewrite owned_ring, (lay_ring _ _ _ _ _ L), omap_app.
  by rewrite (omap_free free), app_nil_r by apply L.
Qed.

(** Slots keep their entries when the heap changes elsewhere. *)
Lemma slots_frame h h' live q :
  Forall2 (slot_holds h) live q →
  (∀ r, r ∈ omap packet live → pkt_get h' r = pkt_get h r) →
  Forall2 (slot_holds h') live q.
Proof.
  induction 1 as [|s e live q Hs Hl IH]; intros Hsame; constructor.
  - destruct Hs as (?&?&?&?&?&?& p & Hp & Hg). unfold slot_holds. split_and!; try done.
    exists p. split; [done|]. rewrite Hsame; [done|]. simpl. rewrite Hp. by left.
  - apply IH. intros r Hr. apply Hsame. simpl. case_match; [by right|done].
Qed.

Lemma layout_slots h b q live free :
  layout h b q live free → length live = length q.
Proof. intros L. apply (Forall2_length _ _ _ (lay_live _ _ _ _ _ L)). Qed.

(** A buffer only depends on the packets it owns. *)
Lemma represents_frame h h' b q :
  represents h b q → (∀ r, r ∈ owned b → pkt_get h' r = pkt_get h r) → represents h' b q.
Proof.
  intros (live & free & L) Hsame. exists live, free. pose proof L as []. constructor; try done.
  apply (slots_frame h); [done|]. intros x Hx. apply Hsame. by rewrite (owned_layout _ _ _ _ _ x L).
Qed.

Lemma layout_fits h b q live free :
  layout h b q live free →
  Z.of_nat (length q) + Z.of_nat (length free) = max_packets b.
Proof.
  intros L. rewrite <-(lay_len _ _ _ _ _ L), <-(layout_slots _ _ _ _ _ L).
  pose proof (f_equal length (lay_ring _ _ _ _ _ L)) as E.
  unfold ring in E. rewrite length_rotate, length_app in E. lia.
Qed.

(** ** Giving up the oldest slot *)

Lemma detach_oldest h b e q s live free :
  layout h b (e :: q) (s :: live) free →
  ∃ p ps', packet s = Some p ∧ pkt_get h p = Some e.2 ∧ (p ∉ omap packet live) ∧
    aget (arr b) (tail b) = Some s ∧
    aset (arr b) (tail b) (clear_packet s) = Some ps' ∧
    ∀ h' b', (∀ r, r ≠ p → pkt_get h' r = pkt_get h r) →
      packets b' = Some ps' → max_packets b' = max_packets b → head b' = head b →
      tail b' = cmod (tail b + 1) (max_packets b) → count b' = count b - 1 →
      current_memory_usage b' = u64 (current_memory_usage b - data_size s) →
      layout h' b' q live (free ++ [clear_packet s]).
Proof.
  intros L. pose proof (layout_fits _ _ _ _ _ L) as Hfit. destruct L.
  apply Forall2_cons in lay_live0 as [Hs Hlive].
  destruct Hs as (?&?&?&?&?& Hsize & p & Hp & Hg).
  destruct (aset_ring_start (arr b) (tail b) (clear_packet s)) as (ps' & Hset & Hrot & Hl);
    [lia|].
  csimpl in lay_nodup0. rewrite Hp in lay_nodup0.
  apply NoDup_cons in lay_nodup0 as [Hnin Hnd].
  exists p, ps'. split_and!; try done.
  { rewrite aget_ring_start by lia. unfold ring in lay_ring0. by rewrite lay_ring0. }
  intros h' b' Hsame Hps Hmax Hhd Htl Hcnt Hmem.
  assert (Harr : arr b' = ps') by (unfold arr; by rewrite Hps).
  assert (0 ≤ tail b' < max_packets b').
  { rewrite Htl, Hmax. apply Z.rem_bound_pos; lia. }
  constructor; try done; try congruence.
  - simpl in lay_count0. lia.
  - rewrite Hhd, lay_head0, Htl, Hcnt, Hmax. unfold cmod. simpl in lay_count0.
    rewrite rem_add_idemp by lia. f_equal. lia.
  - unfold ring. rewrite Harr, Htl. unfold cmod.
    rewrite <-lay_len0, <-Hl. rewrite (rotate_advance ps' (tail b) (clear_packet s) (live ++ free)).
    + by rewrite app_assoc.
    + lia.
    + rewrite Hrot. unfold ring in lay_ring0. by rewrite lay_ring0.
  - apply (slots_frame h); [done|]. intros r Hr. apply Hsame. by intros ->.
  - apply Forall_app. split; [done|]. by repeat constructor.
  - rewrite Hmem, lay_mem0, Hsize, u64_sub_l. simpl. unfold u64.
    rewrite Zminus_mod_idemp_r. f_equal. lia.
Qed.

Lemma evict_oldest_spec h b e q s live free :
  layout h b (e :: q) (s :: live) free →
  ∃ h' b', evict_oldest h b = Some (h', b') ∧
    layout h' b' q live (free ++ [clear_packet s]) ∧
    frees h b h' b' ∧ config b' = config b.
Proof.
  intros L. destruct (detach_oldest _ _ _ _ _ _ _ L)
    as (p & ps' & Hp & Hg & Hnin & Hget & Hset & Hnew).
  unfold evict_oldest, release_slot. rewrite (lay_some _ _ _ _ _ L). csimpl.
  rewrite Hget. csimpl. rewrite Hp, Hset. csimpl.
  eexists _, _. split; [done|].
  assert (L' : layout (av_packet_free h p)
    (set_stats (set_ring (set_ring (set_memory b (u64 (current_memory_usage b - data_size s)))
        ps' (head b) (tail b) (count b)) ps' (head b) (cmod (tail b + 1) (max_packets b))
        (count b - 1)) (total_packets_buffered b) (u64 (total_packets_dropped b + 1))
        (total_bytes_buffered b) (u64 (current_memory_usage b - data_size s))
        (peak_memory_usage b)) q live (free ++ [clear_packet s])).
  { apply Hnew; try done. intros r Hr. by apply free_other. }
  split_and!; [exact L'| |done].
  split_and!; intros r; rewrite (owned_layout _ _ _ _ _ r L), ?(owned_layout _ _ _ _ _ r L');
    csimpl; rewrite Hp.
  - intros Hr. apply free_other. intros ->. apply Hr. by left.
  - rewrite elem_of_cons. intros [->|?] ?; [apply free_gone|done].
  - by right.
Qed.

(** What an eviction from [(h, b)] holding [q] to [q'] guarantees. *)
Definition evicts h b q' (r : option (H * packet_buffer_t)) : Prop :=
  ∃ h' b', r = Some (h', b') ∧ represents h' b' q' ∧ frees h b h' b' ∧ config b' = config b.

Lemma evict_oldest_evicts h b e q :
  represents h b (e :: q) → evicts h b q (evict_oldest h b).
Proof.
  intros (live & free & L). pose proof (lay_live _ _ _ _ _ L) as Hl.
  inversion Hl; subst. destruct (evict_oldest_spec _ _ _ _ _ _ _ L) as (h' & b' & ?&?&?&?).
  exists h', b'. split_and!; [done| |done|done]. eexists _, _. done.
Qed.

Lemma represents_count h b q : represents h b q → count b = Z.of_nat (length q).
Proof. intros (? & ? & L). apply L. Qed.

Lemma represents_fits h b q : represents h b q → Z.of_nat (length q) ≤ max_packets b.
Proof. intros (? & ? & L). pose proof (layout_fits _ _ _ _ _ L). lia. Qed.

Lemma represents_pos h b q : represents h b q → 0 < max_packets b.
Proof. intros (? & ? & L). pose proof (lay_tail _ _ _ _ _ L). lia. Qed.

Lemma represents_oldest h b e q :
  represents h b (e :: q) →
  ∃ s, packets b = Some (arr b) ∧ aget (arr b) (tail b) = Some s ∧ slot_holds h s e.
Proof.
  intros (live & free & L). pose proof (lay_live _ _ _ _ _ L) as Hl. inversion Hl; subst.
  eexists. split; [apply L|]. split; [|done].
  pose proof (layout_fits _ _ _ _ _ L). destruct L.
  rewrite aget_ring_start by lia. unfold ring in *. by rewrite lay_ring0.
Qed.

Lemma evicts_trans h b h1 b1 q' r :
  frees h b h1 b1 → config b1 = config b → evicts h1 b1 q' r → evicts h b q' r.
Proof.
  intros Hf Hc (h' & b' & ? & ? & Hf' & Hc'). exists h', b'. split_and!; [done..| |congruence].
  eapply frees_trans; eauto.
Qed.

(** The eviction loop of [packet_buffer_add_packet] terminates within
    [count] iterations and leaves the packets of the window. *)
Lemma evict_expired_evicts n h b ts q :
  represents h b q → (length q ≤ n)%nat →
  evicts h b (drop_expired ts (buffer_seconds b) q) (evict_expired n h b ts).
Proof.
  revert h b q. induction n as [|n IH]; intros h b q HR Hn.
  { destruct q; [|simpl in Hn; lia]. exists h, b. split_and!; auto using frees_refl. }
  simpl. rewrite (represents_count _ _ _ HR). destruct q as [|e q].
  { exists h, b. split_and!; auto using frees_refl. }
  rewrite (proj2 (Z.gtb_lt _ _)) by (simpl; lia).
  destruct (represents_oldest _ _ _ _ HR) as (s & Hps & Hget & Hs).
  rewrite Hps. csimpl. rewrite Hget. csimpl. destruct Hs as (Hts & _). rewrite Hts.
  case_match; [|by exists h, b; split_and!; auto using frees_refl].
  destruct (evict_oldest_evicts _ _ _ _ HR) as (h1 & b1 & Heq & HR1 & Hf & Hc).
  rewrite Heq. csimpl. eapply evicts_trans; [done..|].
  replace (buffer_seconds b) with (buffer_seconds b1)
    by (unfold config in Hc; congruence).
  apply IH; [done|]. simpl in Hn. lia.
Qed.

Lemma evict_full_evicts h b q :
  represents h b q →
  evicts h b (make_room (max_packets b) q)
    (if count b >=? max_packets b then evict_oldest h b else Some (h, b)).
Proof.
  intros HR. unfold make_room. rewrite (represents_count _ _ _ HR). case_match eqn:E.
  - destruct q as [|e q].
    { pose proof (represents_pos _ _ _ HR). unbool. simpl in *. lia. }
    by apply (evict_oldest_evicts _ _ e).
  - exists h, b. split_and!; auto using frees_refl.
Qed.

Lemma make_room_fits maxp q :
  0 < maxp → Z.of_nat (length q) ≤ maxp → Z.of_nat (length (make_room maxp q)) < maxp.
Proof.
  intros Hm Hq. unfold make_room. case_match; unbool; [|lia].
  destruct q; simpl in *; lia.
Qed.

Lemma drop_expired_length now secs q : (length (drop_expired now secs q) ≤ length q)%nat.
Proof. induction q; simpl; [lia|]. case_match; simpl; lia. Qed.

(** ** Storing a packet *)

Lemma live_allocated h live q r :
  Forall2 (slot_holds h) live q → r ∈ omap packet live → pkt_get h r ≠ None.
Proof.
  induction 1 as [|s e live q Hs Hl IH]; csimpl; [by rewrite elem_of_nil|].
  destruct Hs as (?&?&?&?&?&?& p & Hp & Hg). rewrite Hp, elem_of_cons.
  intros [->|?]; [congruence|auto].
Qed.

Lemma owned_allocated h b q r : represents h b q → r ∈ owned b → pkt_get h r ≠ None.
Proof.
  intros (live & free & L). rewrite (owned_layout _ _ _ _ _ r L). apply (live_allocated _ _ _ _ (lay_live _ _ _ _ _ L)).
Qed.

Lemma bytes_snoc q e : bytes (q ++ [e]) = bytes q + av_size e.2.
Proof. induction q; simpl; lia. Qed.

Lemma store_packet_represents h h' b q x pk ts :
  represents h b q → Z.of_nat (length q) < max_packets b →
  pkt_get h x = None → pkt_get h' x = Some pk →
  (∀ r, r ≠ x → pkt_get h' r = pkt_get h r) →
  ∃ b', store_packet b x pk ts = Some b' ∧ represents h' b' (q ++ [(ts, pk)]) ∧
    config b' = config b ∧ (∀ r, (r ∈ owned b') ↔ (r = x ∨ r ∈ owned b)) ∧
    newest_packet_time b' = ts ∧
    oldest_packet_time b' = default ts (fst <$> hd_error (q ++ [(ts, pk)])).
Proof.
  intros (live & free & L) Hroom Hnone Hx Hsame.
  pose proof (layout_fits _ _ _ _ _ L) as Hfit.
  pose proof (layout_slots _ _ _ _ _ L) as Hlen. pose proof (λ r, owned_layout _ _ _ _ _ r L) as Hown.
  destruct free as [|f free]; [simpl in Hfit; lia|].
  destruct L. unfold ring in lay_ring0.
  set (new := mkBufferedPacket (Some x) ts (av_pts pk) (av_dts pk) (av_stream_index pk)
                (negb (Z.land (av_flags pk) AV_PKT_FLAG_KEY =? 0)) (u64 (av_size pk))).
  assert (Hfresh : x ∉ omap packet live).
  { intros Hin. by apply (live_allocated _ _ _ _ lay_live0 Hin). }
  destruct (aset_ring (arr b) (tail b) (length live) new) as (ps' & Hset & Hrot & Hl); [lia..|].
  rewrite lay_ring0, insert_app_r_alt, Nat.sub_diag in Hrot by lia. simpl in Hrot.
  unfold store_packet. rewrite lay_some0. csimpl.
  rewrite lay_head0, lay_count0, <-lay_len0, <-Hlen. fold new. rewrite Hset. csimpl.
  rewrite (aget_ring_start ps') by lia. rewrite Hrot.
  destruct (lookup_lt_is_Some_2 (live ++ new :: free) 0) as [s0 Hs0];
    [rewrite length_app; simpl; lia|].
  rewrite Hs0. csimpl. eexists. split; [reflexivity|]. split_and!.
  - exists (live ++ [new]), free. constructor; csimpl; unfold arr; csimpl; try lia.
    + done.
    + rewrite length_app. simpl. lia.
    + unfold cmod. fold (arr b). rewrite lay_len0, rem_add_idemp by lia. f_equal; lia.
    + unfold ring, arr. csimpl. by rewrite Hrot, <-app_assoc.
    + apply Forall2_app.
      * apply (slots_frame h); [done|]. intros r Hr. apply Hsame. by intros ->.
      * repeat constructor; try done. by exists x.
    + by inversion lay_free0.
    + rewrite omap_app. csimpl. apply NoDup_app. split_and!; [done| |apply NoDup_singleton].
      intros y Hy ->%list_elem_of_singleton. done.
    + rewrite lay_mem0, u64_add_l, bytes_snoc. done.
  - done.
  - intros r. rewrite owned_ring. unfold ring, arr. csimpl. rewrite Hrot, Hown.
    rewrite omap_app. csimpl. rewrite (omap_free free) by (by inversion lay_free0).
    rewrite !elem_of_app, !elem_of_cons, elem_of_nil. tauto.
  - done.
  - simpl. destruct q as [|e q]; simpl in *.
    + destruct live; [done|simpl in Hlen; lia].
    + destruct live as [|s live]; [simpl in Hlen; lia|]. simplify_eq/=.
      apply Forall2_cons in lay_live0 as [(Ht & _) _]. done.
Qed.

Definition add_result h b p ts q pk (r : Z) h' b' : Prop :=
  let q1 := evicted ts (buffer_seconds b) (max_packets b) q in
  (r = 0 ∧ represents h' b' (q1 ++ [(ts, pk)]) ∧ newest_packet_time b' = ts ∧
   oldest_packet_time b' = default ts (fst <$> hd_error (q1 ++ [(ts, pk)]))) ∨
  (r = -1 ∧ represents h' b' q1 ∧ ∃ h1, av_packet_clone h1 p = (h', None)).

Lemma add_refines h b q p pk ts :
  represents h b q → active b = true → pkt_get h p = Some pk → p ∉ owned b →
  ∃ r h' b', packet_buffer_add_packet h (Some b) (Some p) ts = Some (r, h', Some b') ∧
    add_result h b p ts q pk r h' b' ∧ config b' = config b ∧
    (∀ x, x ∉ owned b → x ∉ owned b' → pkt_get h' x = pkt_get h x) ∧
    (∀ x, x ∈ owned b → x ∉ owned b' → pkt_get h' x = None) ∧
    p ∉ owned b'.
Proof.
  intros HR Hact Hp Hown. unfold packet_buffer_add_packet. rewrite Hact. simpl.
  destruct (evict_expired_evicts (Z.to_nat (count b)) h b ts q HR)
    as (h1 & b1 & -> & HR1 & Hf1 & Hc1).
  { rewrite (represents_count _ _ _ HR). lia. }
  csimpl. destruct (evict_full_evicts _ _ _ HR1) as (h2 & b2 & -> & HR2 & Hf2 & Hc2).
  csimpl. replace (max_packets b1) with (max_packets b) in * by (unfold config in Hc1; congruence).
  fold (evicted ts (buffer_seconds b) (max_packets b) q) in HR2.
  pose proof (frees_trans _ _ _ _ _ _ Hf1 Hf2) as Hf. clear Hf1 Hf2.
  destruct Hf as (Hsame & Hgone & Hsub).
  assert (Hp2 : pkt_get h2 p = Some pk) by (rewrite Hsame; done).
  unfold add_result.
  destruct (av_packet_clone h2 p) as [h3 [x|]] eqn:Hclone.
  - destruct (clone_new _ _ _ _ _ Hp2 Hclone) as (Hx & Hx3 & Hother).
    assert (p ≠ x) by congruence. rewrite Hother, Hp2 by done. csimpl.
    assert (Hroom : Z.of_nat (length (evicted ts (buffer_seconds b) (max_packets b) q))
                    < max_packets b2).
    { replace (max_packets b2) with (max_packets b) by (unfold config in Hc1, Hc2; congruence).
      apply make_room_fits; [by eapply represents_pos|].
      pose proof (represents_fits _ _ _ HR).
      pose proof (drop_expired_length ts (buffer_seconds b) q). lia. }
    destruct (store_packet_represents _ _ _ _ _ _ ts HR2 Hroom Hx Hx3 Hother)
      as (b3 & -> & HR3 & Hc3 & Hown3 & Hnew & Hold).
    csimpl. eexists _, _, _. split; [done|]. split; [by left|]. split; [congruence|].
    split; [|split; [|rewrite Hown3; naive_solver]]; intros y; rewrite Hown3; intros Hy Hy3;
      rewrite Hother by naive_solver; [apply Hsame|apply Hgone]; naive_solver.
  - pose proof (clone_fail _ _ _ Hclone) as Hother.
    eexists _, _, _. split; [done|]. split; [right; split_and!; [done| |by eexists]|].
    { by apply (represents_frame h2). }
    split; [congruence|].
    split; [|split; [|by auto]]; intros y Hy Hy3; rewrite Hother; auto.
Qed.

(** ** Sweeping the array: [packet_buffer_flush] and [packet_buffer_clear] *)

Definition held (l : list buffered_packet_t) : Z :=
  foldr (λ s acc, match packet s with Some _ => data_size s | None => 0 end + acc) 0 l.

(** A loop that releases slots from index [t] on has emptied [l1]. *)
Record sweeping (t : Z) b l1 l2 : Prop := {
  sw_some : packets b = Some (arr b);
  sw_len : Z.of_nat (length (arr b)) = max_packets b;
  sw_start : 0 ≤ t < max_packets b;
  sw_ring : rotate (Z.to_nat t) (arr b) = l1 ++ l2;
  sw_done : Forall (λ s, packet s = None) l1;
  sw_mem : current_memory_usage b = u64 (held l2)
}.

Lemma clear_packet_None s : packet s = None → clear_packet s = s.
Proof. destruct s. simpl. by intros ->. Qed.

Lemma release_sweeps t h b l1 s l2 i :
  sweeping t b l1 (s :: l2) → i = cmod (t + Z.of_nat (length l1)) (max_packets b) →
  ∃ b', release_slot h b i = Some (free_packets h [s], b') ∧
    sweeping t b' (l1 ++ [clear_packet s]) l2 ∧ tail b' = tail b ∧ config b' = config b.
Proof.
  intros [] ->. pose proof (f_equal length sw_ring0) as Hlen.
  rewrite length_rotate, length_app in Hlen. simpl in Hlen.
  unfold release_slot, cmod. rewrite sw_some0. csimpl. rewrite <-sw_len0.
  rewrite aget_ring, sw_ring0, list_lookup_middle by lia. csimpl.
  change (free_packets h [s])
    with (match packet s with Some p => av_packet_free h p | None => h end).
  destruct (packet s) as [p|] eqn:Hp.
  - destruct (aset_ring (arr b) t (length l1) (clear_packet s)) as (ps' & -> & Hrot & Hl); [lia..|].
    csimpl. eexists. split; [done|]. split_and!; [|done|done].
    constructor; unfold arr; csimpl; try done; try lia.
    + rewrite Hrot, sw_ring0, insert_app_r_alt, Nat.sub_diag, <-app_assoc by lia. done.
    + apply Forall_app. split; [done|]. by repeat constructor.
    + rewrite sw_mem0. simpl. rewrite Hp, u64_sub_l. f_equal. lia.
  - eexists. split; [done|]. split_and!; [|done|done].
    rewrite clear_packet_None by done. constructor; try done.
    + by rewrite <-app_assoc.
    + apply Forall_app. split; [done|]. by repeat constructor.
    + rewrite sw_mem0. simpl. by rewrite Hp.
Qed.

Lemma free_packets_spec h l r :
  (r ∈ omap packet l → pkt_get (free_packets h l) r = None) ∧
  (r ∉ omap packet l → pkt_get (free_packets h l) r = pkt_get h r).
Proof.
  enough (Hboth : (pkt_get h r = None ∨ r ∈ omap packet l → pkt_get (free_packets h l) r = None)
                  ∧ (r ∉ omap packet l → pkt_get (free_packets h l) r = pkt_get h r))
    by (destruct Hboth; auto).
  revert h. induction l as [|s l IH]; intros h; csimpl.
  { split; [|done]. rewrite elem_of_nil. naive_solver. }
  unfold free_packets in *. simpl. destruct (packet s) as [p|]; [|apply IH].
  rewrite elem_of_cons. destruct (IH (av_packet_free h p)) as [IH1 IH2].
  destruct (decide (r = p)) as [->|Hne].
  - split; [|naive_solver]. intros _. apply IH1. left. apply free_gone.
  - rewrite free_other in IH1, IH2 by done. naive_solver.
Qed.

(** A flush hands the packets to the callback, oldest first, and counts the
    ones it accepted. *)
Definition deliver {U} (cb : AVPacket → U → Z * U) (q : list entry) (uf : U * Z) : U * Z :=
  foldl (λ '(u, f) e, let '(r, u) := cb e.2 u in (u, if r =? 0 then f + 1 else f)) uf q.

Lemma flush_loop_spec {U} (cb : AVPacket → U → Z * U) h b l1 live free q u f :
  sweeping (tail b) b l1 (live ++ free) → Forall2 (slot_holds h) live q →
  NoDup (omap packet live) →
  ∃ b', flush_loop cb (length q) (Z.of_nat (length l1)) h b u f
        = Some (free_packets h live, b', (deliver cb q (u, f)).1, (deliver cb q (u, f)).2) ∧
    sweeping (tail b) b' (l1 ++ (clear_packet <$> live)) free ∧ config b' = config b.
Proof.
  intros Hsw Hl. revert h b l1 u f Hsw Hl. revert q.
  induction live as [|s live IH]; intros q h b l1 u f Hsw Hl Hnd.
  { apply Forall2_nil_inv_l in Hl as ->. exists b. csimpl. by rewrite app_nil_r. }
  apply Forall2_cons_inv_l in Hl as (e & q' & Hs & Hl & ->).
  destruct Hs as (_ & _ & _ & _ & _ & _ & p & Hp & Hg). csimpl in Hnd. rewrite Hp in Hnd.
  apply NoDup_cons in Hnd as [Hnin Hnd].
  simpl. simpl in Hsw. pose proof Hsw as []. pose proof (f_equal length sw_ring0) as Hlen.
  rewrite length_rotate, !length_app in Hlen. simpl in Hlen. rewrite sw_some0. csimpl.
  assert (aget (arr b) (cmod (tail b + Z.of_nat (length l1)) (max_packets b)) = Some s) as ->.
  { unfold cmod. rewrite <-sw_len0, aget_ring, sw_ring0 by lia. by apply list_lookup_middle. }
  csimpl. rewrite Hp, Hg. csimpl.
  destruct (cb e.2 u) as [r u'] eqn:Hcb. csimpl.
  destruct (release_sweeps (tail b) h b l1 s (live ++ free)
              (cmod (tail b + Z.of_nat (length l1)) (max_packets b)))
    as (b1 & -> & Hsw1 & Htl & Hc1); [done..|].
  csimpl. rewrite <-Htl in Hsw1.
  assert (Hl1 : Forall2 (slot_holds (free_packets h [s])) live q').
  { apply (slots_frame h); [done|]. intros x Hx. unfold free_packets. simpl. rewrite Hp.
    apply free_other. by intros ->. }
  destruct (IH q' _ b1 _ u' (if r =? 0 then f + 1 else f) Hsw1 Hl1 Hnd)
    as (b2 & Heq & Hsw2 & Hc2).
  rewrite length_app, Nat2Z.inj_add in Heq.
  change (Z.of_nat (length [clear_packet s])) with 1 in Heq. rewrite Heq.
  exists b2. split; [done|]. split; [|congruence].
  rewrite <-Htl. by rewrite <-app_assoc in Hsw2.
Qed.

#[local] Instance held_Proper : Proper ((≡ₚ) ==> eq) held.
Proof. intros l1 l2. induction 1; simpl; lia. Qed.

Lemma held_free l1 l2 : Forall (λ s, packet s = None) l2 → held (l1 ++ l2) = held l1.
Proof.
  intros Hl2. induction l1 as [|s l1 IH]; simpl; [|by rewrite IH].
  induction Hl2 as [|s l2 Hs _ IH]; simpl; [done|]. by rewrite Hs, IH.
Qed.

Lemma held_live h live q : Forall2 (slot_holds h) live q → u64 (held live) = u64 (bytes q).
Proof.
  induction 1 as [|s e live q Hs Hl IH]; [done|]. simpl.
  destruct Hs as (_&_&_&_&_& -> & p & -> & _). rewrite u64_add_l.
  rewrite Z.add_comm, <-u64_add_l, IH, u64_add_l. f_equal. lia.
Qed.

Lemma layout_sweeping h b q live free :
  layout h b q live free → sweeping (tail b) b [] (live ++ free).
Proof.
  intros []. constructor; try done. by rewrite held_free, lay_mem0, (held_live h live q).
Qed.

(** A swept buffer, reset, is the empty queue. *)
Lemma swept_represents t h b l1 l2 :
  sweeping t b l1 l2 → Forall (λ s, packet s = None) l2 →
  represents h (set_ring b (arr b) 0 0 0) [] ∧ owned (set_ring b (arr b) 0 0 0) = [].
Proof.
  intros [] Hl2.
  assert (Hall : Forall (λ s, packet s = None) (arr b)).
  { rewrite <-(rotate_Permutation (Z.to_nat t)), sw_ring0. by apply Forall_app. }
  split; [|by apply omap_free].
  exists [], (arr b). constructor; unfold ring, arr; csimpl; fold (arr b); try done; try lia.
  - apply rotate_zero.
  - constructor.
  - rewrite sw_mem0. change l2 with ([] ++ l2). by rewrite held_free.
Qed.

Lemma flush_refines {U} h b q (cb : AVPacket → U → Z * U) u :
  represents h b q → active b = true →
  ∃ h' b', packet_buffer_flush h (Some b) (Some cb) u
             = Some ((deliver cb q (u, 0)).2, h', Some b', (deliver cb q (u, 0)).1) ∧
    represents h' b' [] ∧ config b' = config b ∧ owned b' = [] ∧ frees h b h' b'.
Proof.
  intros (live & free & L) Hact. unfold packet_buffer_flush. rewrite Hact. simpl.
  destruct (flush_loop_spec cb h b [] live free q u 0) as (b1 & Heq & Hsw & Hc);
    [by apply (layout_sweeping h b q)|apply L..|].
  replace (Z.to_nat (count b)) with (length q) by (rewrite (lay_count _ _ _ _ _ L); lia).
  change (Z.of_nat (length (@nil buffered_packet_t))) with 0 in Heq. rewrite Heq.
  csimpl. rewrite (sw_some _ _ _ _ Hsw). csimpl.
  destruct (swept_represents (tail b) (free_packets h live) b1 _ _ Hsw) as [HR Hown]; [apply L|].
  eexists _, _. split; [done|]. split_and!; [done|done|done|].
  split_and!; intros x; rewrite ?Hown, ?(owned_layout _ _ _ _ _ x L), ?elem_of_nil;
    destruct (free_packets_spec h live x); auto; naive_solver.
Qed.

Lemma release_all_spec h b l1 l2 :
  sweeping 0 b l1 l2 →
  ∃ b', release_all (length l2) (Z.of_nat (length l1)) h b = Some (free_packets h l2, b') ∧
    sweeping 0 b' (l1 ++ (clear_packet <$> l2)) [] ∧ config b' = config b.
Proof.
  revert h b l1. induction l2 as [|s l2 IH]; intros h b l1 Hsw.
  { exists b. csimpl. by rewrite app_nil_r. }
  pose proof Hsw as []. pose proof (f_equal length sw_ring0) as Hlen.
  rewrite length_rotate, !length_app in Hlen. simpl in Hlen. simpl.
  destruct (release_sweeps 0 h b l1 s l2 (Z.of_nat (length l1)))
    as (b1 & -> & Hsw1 & _ & Hc1); [done|unfold cmod; rewrite Z.rem_small; lia|].
  csimpl. destruct (IH (free_packets h [s]) b1 _ Hsw1) as (b2 & Heq & Hsw2 & Hc2).
  rewrite length_app, Nat2Z.inj_add in Heq.
  change (Z.of_nat (length [clear_packet s])) with 1 in Heq. rewrite Heq.
  exists b2. split; [done|]. split; [|congruence]. by rewrite <-app_assoc in Hsw2.
Qed.

Lemma clear_refines h b q :
  represents h b q → active b = true →
  ∃ h' b', packet_buffer_clear h (Some b) = Some (h', Some b') ∧
    represents h' b' [] ∧ config b' = config b ∧ owned b' = [] ∧ frees h b h' b'.
Proof.
  intros (live & free & L) Hact. unfold packet_buffer_clear. rewrite Hact. simpl.
  assert (Hsw : sweeping 0 b [] (arr b)).
  { pose proof (layout_sweeping _ _ _ _ _ L) as []. constructor; try done.
    - lia.
    - simpl. apply rotate_zero.
    - rewrite sw_mem0. apply (f_equal u64). simpl in sw_ring0. rewrite <-sw_ring0.
      by rewrite rotate_Permutation. }
  destruct (release_all_spec h b [] (arr b) Hsw) as (b1 & Heq & Hsw1 & Hc).
  change (Z.of_nat (length (@nil buffered_packet_t))) with 0 in Heq.
  rewrite <-(lay_len _ _ _ _ _ L), Nat2Z.id, Heq. csimpl.
  rewrite (sw_some _ _ _ _ Hsw1). csimpl.
  destruct (swept_represents 0 (free_packets h (arr b)) b1 _ _ Hsw1) as [HR Hown]; [constructor|].
  eexists _, _. split; [done|]. split_and!; [done|done|done|].
  split_and!; intros x; rewrite ?Hown, ?elem_of_nil; fold (owned b);
    destruct (free_packets_spec h (arr b) x); auto; naive_solver.
Qed.

Lemma pop_refines h b e q :
  represents h b (e :: q) → active b = true →
  ∃ b' p, packet_buffer_pop_oldest (Some b) = Some (0, Some b', Some (Some p)) ∧
    represents h b' q ∧ config b' = config b ∧ pkt_get h p = Some e.2 ∧ p ∈ owned b ∧
    (∀ r, (r ∈ owned b') ↔ (r ∈ owned b ∧ r ≠ p)) ∧
    (∀ e', hd_error q = Some e' → oldest_packet_time b' = e'.1).
Proof.
  intros (live & free & L) Hact. pose proof (lay_live _ _ _ _ _ L) as Hl.
  apply Forall2_cons_inv_r in Hl as (s & live' & Hs & Hl & ->).
  destruct (detach_oldest _ _ _ _ _ _ _ L)
    as (p & ps' & Hp & Hg & Hnin & Hget & Hset & Hnew).
  unfold packet_buffer_pop_oldest. rewrite Hact. simpl.
  rewrite (lay_count _ _ _ _ _ L). rewrite (lay_some _ _ _ _ _ L). csimpl.
  rewrite Hget. csimpl. rewrite Hset. csimpl.
  set (b1 := set_ring _ _ _ _ _).
  assert (L1 : layout h b1 q live' (free ++ [clear_packet s])).
  { apply (Hnew h); try done. subst b1. csimpl. rewrite (lay_count _ _ _ _ _ L). done. }
  assert (Hown : ∀ r, (r ∈ owned b1) ↔ (r ∈ owned b ∧ r ≠ p)).
  { intros r. rewrite (owned_layout _ _ _ _ _ r L), (owned_layout _ _ _ _ _ r L1).
    csimpl. rewrite Hp, elem_of_cons. split; [|naive_solver].
    intros Hr. split; [by right|]. by intros ->. }
  assert (p ∈ owned b).
  { rewrite (owned_layout _ _ _ _ _ p L). csimpl. rewrite Hp. by left. }
  destruct q as [|e' q].
  - exists b1, p. rewrite Hp. split_and!; try done. by eexists _, _.
  - destruct (represents_oldest h b1 e' q) as (s' & Hps' & Hget' & (Ht & _)); [by eexists _, _|].
    change (arr b1) with ps' in Hget'. clear Hps'. subst b1. csimpl in *.
    rewrite (proj2 (Z.gtb_lt _ _)) by lia. rewrite Hget'. csimpl.
    eexists _, p. rewrite Hp. split_and!; try done.
    + destruct L1. eexists _, _. by constructor.
    + by intros ? [= <-].
Qed.

Lemma peek_refines h b q :
  represents h b q → active b = true →
  ∃ r h' o, packet_buffer_peek_oldest h (Some b) = Some (r, h', o) ∧ represents h' b q ∧
    match q, r with
    | [], _ => r = -1 ∧ o = None
    | e :: _, 0 => ∃ x, o = Some (Some x) ∧ pkt_get h' x = Some e.2 ∧ x ∉ owned b
    | _ :: _, _ => r = -1 ∧ o = Some None
    end.
Proof.
  intros HR Hact. unfold packet_buffer_peek_oldest. rewrite Hact. simpl.
  rewrite (represents_count _ _ _ HR). destruct q as [|e q]; [by eexists _, _, _|]. simpl.
  destruct (represents_oldest _ _ _ _ HR) as (s & Hps & Hget & (_&_&_&_&_&_& p & Hp & Hg)).
  rewrite Hps. csimpl. rewrite Hget. csimpl. rewrite Hp. csimpl.
  destruct HR as (live & free & L).
  destruct (av_packet_clone h p) as [h' [x|]] eqn:Hcl; eexists _, _, _; (split; [done|]).
  - destruct (clone_new _ _ _ _ _ Hg Hcl) as (Hx & Hx' & Hother).
    assert (x ∉ owned b).
    { rewrite (owned_layout _ _ _ _ _ x L). intros Hin.
      exact (live_allocated _ _ _ _ (lay_live _ _ _ _ _ L) Hin Hx). }
    split; [|by exists x]. exists live, free. pose proof L as []. constructor; try done.
    apply (slots_frame h); [done|]. intros r Hr. apply Hother. intros ->.
    by rewrite (owned_layout _ _ _ _ _ x L) in *.
  - pose proof (clone_fail _ _ _ Hcl) as Hother. split; [|done].
    exists live, free. destruct L. constructor; try done. by apply (slots_frame h).
Qed.

Definition keyframe (e : entry) : bool := negb (Z.land (av_flags e.2) AV_PKT_FLAG_KEY =? 0).

Lemma keyframe_loop_spec h b l1 live free q acc :
  packets b = Some (arr b) → Z.of_nat (length (arr b)) = max_packets b →
  0 ≤ tail b → ring b = l1 ++ live ++ free → Forall2 (slot_holds h) live q →
  keyframe_loop (length q) (Z.of_nat (length l1)) b (arr b) acc
  = Some (acc + Z.of_nat (count_if keyframe q)).
Proof.
  intros Hps Hlen Ht Hring Hl. revert l1 acc Hring.
  induction Hl as [|s e live q Hs Hl IH]; intros l1 acc Hring; simpl; [by rewrite Z.add_0_r|].
  pose proof (f_equal length Hring) as Hl2. unfold ring in *.
  rewrite length_rotate, !length_app in Hl2. simpl in Hl2.
  assert (aget (arr b) (cmod (tail b + Z.of_nat (length l1)) (max_packets b)) = Some s) as ->.
  { unfold cmod. rewrite <-Hlen, aget_ring, Hring by lia. by apply list_lookup_middle. }
  csimpl. destruct Hs as (_&_&_&_& -> & _). specialize (IH (l1 ++ [s])).
  rewrite length_app, Nat2Z.inj_add in IH. change (Z.of_nat (length [s])) with 1 in IH.
  rewrite IH by (by rewrite <-app_assoc). change (negb _) with (keyframe e).
  f_equal. destruct (keyframe e); lia.
Qed.

Lemma keyframe_count_spec h b q :
  represents h b q → active b = true →
  packet_buffer_get_keyframe_count (Some b) = Some (Z.of_nat (count_if keyframe q)).
Proof.
  intros (live & free & L) Hact. unfold packet_buffer_get_keyframe_count. rewrite Hact. simpl.
  destruct L. rewrite lay_some0. csimpl. rewrite lay_count0, Nat2Z.id.
  apply (keyframe_loop_spec h b [] live free); try done. lia.
Qed.

(** ** Every run of a buffer *)

(** One step of the threads that share the heap with an active buffer: an
    operation on it, or anything else that leaves its packets alone. *)
Inductive buffer_step : H * packet_buffer_t → H * packet_buffer_t → Prop :=
| step_world h h' b :
    (∀ r, r ∈ owned b → pkt_get h' r = pkt_get h r) → buffer_step (h, b) (h', b)
| step_add h b p pk ts r h' b' :
    pkt_get h p = Some pk → p ∉ owned b →
    packet_buffer_add_packet h (Some b) (Some p) ts = Some (r, h', Some b') →
    buffer_step (h, b) (h', b')
| step_peek h b r h' o :
    packet_buffer_peek_oldest h (Some b) = Some (r, h', o) → buffer_step (h, b) (h', b)
| step_pop h b r b' o :
    packet_buffer_pop_oldest (Some b) = Some (r, Some b', o) → buffer_step (h, b) (h, b')
| step_flush {U} h b (cb : AVPacket → U → Z * U) u r h' b' u' :
    packet_buffer_flush h (Some b) (Some cb) u = Some (r, h', Some b', u') →
    buffer_step (h, b) (h', b')
| step_clear h b h' b' :
    packet_buffer_clear h (Some b) = Some (h', Some b') → buffer_step (h, b) (h', b').

Definition inv (h : H) b : Prop := active b = true ∧ ∃ q, represents h b q.

Lemma pop_empty b :
  count b = 0 → active b = true →
  packet_buffer_pop_oldest (Some b) = Some (-1, Some b, None).
Proof.
  intros Hc Ha. unfold packet_buffer_pop_oldest. by rewrite Ha, Hc.
Qed.

Lemma config_active b b' : config b' = config b → active b = true → active b' = true.
Proof. unfold config. congruence. Qed.

Lemma inv_step s s' : buffer_step s s' → inv s.1 s.2 → inv s'.1 s'.2.
Proof.
  destruct 1 as [h h' b Hw|h b p pk ts r h' b' Hp Hown Heq|h b r h' o Heq|h b r b' o Heq
                |U h b cb u r h' b' u' Heq|h b h' b' Heq]; intros [Hact [q HR]]; cbn [fst snd] in *.
  - split; [done|]. exists q. by apply (represents_frame h).
  - destruct (add_refines h b q p pk ts HR Hact Hp Hown) as (r1 & h1 & b1 & Heq1 & Hadd & Hc & _).
    rewrite Heq in Heq1. injection Heq1 as; subst. split; [by apply (config_active b)|].
    destruct Hadd as [(_ & ? & _)|(_ & ? & _)]; eauto.
  - destruct (peek_refines h b q HR Hact) as (r1 & h1 & o1 & Heq1 & HR1 & _).
    rewrite Heq in Heq1. injection Heq1 as; subst. split; eauto.
  - destruct q as [|e q].
    + rewrite pop_empty in Heq by (try rewrite (represents_count _ _ _ HR); done).
      injection Heq as; subst. split; eauto.
    + destruct (pop_refines h b e q HR Hact) as (b1 & p & Heq1 & HR1 & Hc & _).
      rewrite Heq in Heq1. injection Heq1 as; subst. split; [by apply (config_active b)|eauto].
  - destruct (flush_refines h b q cb u HR Hact) as (h1 & b1 & Heq1 & HR1 & Hc & _).
    rewrite Heq in Heq1. injection Heq1 as; subst. split; [by apply (config_active b)|eauto].
  - destruct (clear_refines h b q HR Hact) as (h1 & b1 & Heq1 & HR1 & Hc & _).
    rewrite Heq in Heq1. injection Heq1 as; subst. split; [by apply (config_active b)|eauto].
Qed.

Lemma inv_run s s' : rtc buffer_step s s' → inv s.1 s.2 → inv s'.1 s'.2.
Proof. induction 1; eauto using inv_step. Qed.

(** A buffer as [create_packet_buffer] returns it. *)
Lemma fresh_represents h name secs maxp m path :
  0 < maxp →
  represents h (fresh_buffer name secs maxp m
    (Some (replicate (Z.to_nat maxp) empty_slot)) path true true) [].
Proof.
  intros Hm. exists [], (replicate (Z.to_nat maxp) empty_slot).
  constructor; unfold ring, arr; csimpl; rewrite ?length_replicate; try done; try lia.
  - by rewrite rotate_zero.
  - by apply Forall_replicate.
  - constructor.
Qed.
End refinement.

(** ** A concrete allocator

    An instance of [PacketHeap] that satisfies its laws, for the witnesses. *)

Definition map_heap := gmap positive AVPacket.

#[global] Instance map_packet_heap : PacketHeap map_heap := {
  pkt_get h p := h !! p;
  av_packet_clone h p :=
    match h !! p with
    | Some pk => let q := fresh (dom h) in (<[q := pk]> h, Some q)
    | None => (h, None)
    end;
  av_packet_free h p := delete p h
}.

#[global] Instance map_packet_heap_laws : PacketHeapLaws map_heap.
Proof.
  split; simpl.
  - intros h p pk h' q -> [= <- <-]. split_and!.
    + apply not_elem_of_dom, is_fresh.
    + apply lookup_insert_eq.
    + intros r Hr. by apply lookup_insert_ne.
  - intros h p h'. case_match; [done|]. by intros [= <-].
  - intros. apply lookup_delete_eq.
  - intros. by apply lookup_delete_ne.
Qed.

Definition example_buffer : packet_buffer_t :=
  fresh_buffer (lit "cam") 5 3 BUFFER_MODE_MEMORY
    (Some (replicate (Z.to_nat 3) empty_slot)) [] true true.

Definition example_packet : AVPacket := mkAVPacket 100 90 0 1 40 [].
Definition example_heap : map_heap := {[ 7%positive := example_packet ]}.

Lemma example_represents : represents example_heap example_buffer [].
Proof. by apply fresh_represents. Qed.

(** A buffer that holds two packets, five seconds apart. *)
Definition example_run : option (map_heap * packet_buffer_t) :=
  '(_, h, b) ← packet_buffer_add_packet example_heap (Some example_buffer) (Some 7%positive) 10;
  '(_, h, b) ← packet_buffer_add_packet h b (Some 7%positive) 15;
  b ← b; Some (h, b).

Definition example_queue : list entry := [(10, example_packet); (15, example_packet)].

Definition example_heap2 : map_heap := default ∅ (fst <$> example_run).
Definition example_buffer2 : packet_buffer_t := default zero_buffer (snd <$> example_run).

Lemma example_represents2 :
  represents example_heap2 example_buffer2 example_queue ∧
  7%positive ∉ owned example_buffer2.
Proof.
  split; [|by apply (bool_decide_unpack _); vm_compute].
  exists (take 2 (ring example_buffer2)), (drop 2 (ring example_buffer2)).
  constructor.
  1, 2, 4, 5, 6, 10: by vm_compute.
  - by apply (bool_decide_unpack _); vm_compute.
  - replace (take 2 (ring example_buffer2))
      with [mkBufferedPacket (Some 8%positive) 10 100 90 0 true 40;
            mkBufferedPacket (Some 9%positive) 15 100 90 0 true 40] by (by vm_compute).
    repeat constructor; eexists; split; try reflexivity; by vm_compute.
  - apply (bool_decide_unpack _). by vm_compute.
  - apply (bool_decide_unpack _). by vm_compute.
Qed.

(** ** Correctness of the buffer *)

Section buffer_properties.
Context {H : Type} `{PacketHeapLaws H}.
Implicit Types (h : H) (b : packet_buffer_t) (q : list entry).

(** C35: A buffer created empty stays well formed whatever the interleaving of
    adds, pops, peeks, flushes, clears and unrelated allocations: it always
    represents a queue of at most [max_packets] packets it exclusively owns,
    none freed, and every operation is defined (no out-of-bounds slot, no
    access to a freed packet, no [NULL] dereference). *)
Theorem packet_buffer_run_safe h0 name secs maxp m path h b :
  0 < maxp →
  rtc buffer_step
    (h0, fresh_buffer name secs maxp m (Some (replicate (Z.to_nat maxp) empty_slot)) path true true)
    (h, b) →
  (∃ q, represents h b q ∧ Z.of_nat (length q) ≤ max_packets b) ∧
  (∀ p pk ts, pkt_get h p = Some pk → p ∉ owned b →
              is_Some (packet_buffer_add_packet h (Some b) (Some p) ts)) ∧
  is_Some (packet_buffer_peek_oldest h (Some b)) ∧
  is_Some (packet_buffer_pop_oldest (Some b)) ∧
  (∀ U (cb : AVPacket → U → Z * U) u, is_Some (packet_buffer_flush h (Some b) (Some cb) u)) ∧
  is_Some (packet_buffer_clear h (Some b)) ∧
  is_Some (packet_buffer_get_keyframe_count (Some b)).
Proof.
  intros Hm Hrun. apply inv_run in Hrun; [|split; [done|]; eexists; by apply fresh_represents].
  destruct Hrun as [Hact [q HR]]; cbn [fst snd] in *. split_and!.
  - exists q. split; [done|]. by eapply represents_fits.
  - intros p pk ts Hp Hown.
    destruct (add_refines h b q p pk ts HR Hact Hp Hown) as (?&?&?& -> & _). done.
  - destruct (peek_refines h b q HR Hact) as (?&?&?& -> & _). done.
  - destruct q as [|e q].
    + by rewrite pop_empty by (try rewrite (represents_count _ _ _ HR); done).
    + destruct (pop_refines h b e q HR Hact) as (?&?& -> & _). done.
  - intros U cb u. destruct (flush_refines h b q cb u HR Hact) as (?&?& -> & _). done.
  - destruct (clear_refines h b q HR Hact) as (?&?& -> & _). done.
  - by rewrite (keyframe_count_spec h b q).
Qed.

(** C36: [packet_buffer_add_packet] implements the abstract queue: it drops
    the packets older than the window, makes room if the buffer is still
    full, and appends a clone of the packet.  Every packet it gives up is
    freed, no other packet of the heap is touched, and the packet passed in
    stays the caller's.  Only a failed clone makes it return [-1], the
    evictions then being kept. *)
Theorem packet_buffer_add_packet_spec h b q p pk ts :
  represents h b q → active b = true → pkt_get h p = Some pk → p ∉ owned b →
  ∃ r h' b', packet_buffer_add_packet h (Some b) (Some p) ts = Some (r, h', Some b') ∧
    add_result h b p ts q pk r h' b' ∧ config b' = config b ∧
    (∀ x, x ∉ owned b → x ∉ owned b' → pkt_get h' x = pkt_get h x) ∧
    (∀ x, x ∈ owned b → x ∉ owned b' → pkt_get h' x = None) ∧
    p ∉ owned b'.
Proof. apply add_refines. Qed.

Lemma drop_expired_suffix now secs q : ∃ l, q = l ++ drop_expired now secs q.
Proof.
  induction q as [|e q [l IH]]; simpl; [by exists []|].
  case_match; [|by exists []]. exists (e :: l). simpl. by f_equal.
Qed.

Lemma evicted_suffix now secs maxp q : ∃ l, q = l ++ evicted now secs maxp q.
Proof.
  destruct (drop_expired_suffix now secs q) as [l Hl]. unfold evicted, make_room.
  case_match; [|by exists l]. destruct (drop_expired now secs q) as [|e q'] eqn:E; simpl in *.
  - by exists l.
  - exists (l ++ [e]). by rewrite <-app_assoc.
Qed.

Lemma drop_expired_window now secs q :
  StronglySorted (λ e1 e2 : entry, e1.1 ≤ e2.1) q →
  Forall (λ e, now - e.1 ≤ secs) (drop_expired now secs q).
Proof.
  induction 1 as [|e q Hq IH Hle]; simpl; [constructor|]. case_match; [done|]. unbool.
  constructor; [lia|]. eapply Forall_impl; [done|]. simpl. lia.
Qed.

(** As long as packets arrive in order of their time stamps, the buffer
    holds, after each successful add, exactly a final segment of what was
    added, ending with the new packet; all of it lies within
    [buffer_seconds] of the newest packet and fits in [max_packets] slots. *)
Theorem packet_buffer_window h b q p pk ts h' b' :
  represents h b q → active b = true → pkt_get h p = Some pk → p ∉ owned b →
  0 ≤ buffer_seconds b →
  StronglySorted (λ e1 e2 : entry, e1.1 ≤ e2.1) (q ++ [(ts, pk)]) →
  packet_buffer_add_packet h (Some b) (Some p) ts = Some (0, h', Some b') →
  ∃ q' l, represents h' b' q' ∧ q ++ [(ts, pk)] = l ++ q' ∧ last q' = Some (ts, pk) ∧
    Forall (λ e, ts - e.1 ≤ buffer_seconds b') q' ∧
    StronglySorted (λ e1 e2 : entry, e1.1 ≤ e2.1) q' ∧
    Z.of_nat (length q') ≤ max_packets b' ∧ newest_packet_time b' = ts.
Proof.
  intros HR Hact Hp Hown Hsecs Hsort Heq.
  destruct (add_refines h b q p pk ts HR Hact Hp Hown) as (r1 & h1 & b1 & Heq1 & Hadd & Hc & _).
  rewrite Heq in Heq1. injection Heq1 as; subst.
  destruct Hadd as [(_ & HR1 & Hn & _)|(? & _)]; [|done].
  set (q1 := evicted _ _ _ _) in *.
  destruct (evicted_suffix ts (buffer_seconds b) (max_packets b) q) as [l Hl]. fold q1 in Hl.
  exists (q1 ++ [(ts, pk)]), l. split; [done|]. split; [by rewrite app_assoc, <-Hl|].
  split; [by rewrite last_snoc|].
  replace (buffer_seconds b1) with (buffer_seconds b) by (unfold config in Hc; congruence).
  assert (Hq : StronglySorted (λ e1 e2 : entry, e1.1 ≤ e2.1) q)
    by (by apply StronglySorted_app in Hsort as (_ & ? & _)).
  split_and!; [| |by eapply represents_fits|done].
  - apply Forall_app. split; [|constructor; [simpl; lia|constructor]].
    pose proof (drop_expired_window ts (buffer_seconds b) q Hq) as Hw.
    unfold q1, evicted, make_room. case_match; [|done].
    destruct (drop_expired _ _ _); [done|]. by apply Forall_cons in Hw as [_ ?].
  - rewrite Hl, <-app_assoc in Hsort. by apply StronglySorted_app in Hsort as (_ & _ & ?).
Qed.

(** [packet_buffer_flush] hands every buffered packet to the callback,
    oldest first and before it is freed, returns how many it accepted, frees
    them all, frees nothing else and leaves an empty buffer. *)
Theorem packet_buffer_flush_spec {U} h b q (cb : AVPacket → U → Z * U) u :
  represents h b q → active b = true →
  ∃ h' b', packet_buffer_flush h (Some b) (Some cb) u
             = Some ((deliver cb q (u, 0)).2, h', Some b', (deliver cb q (u, 0)).1) ∧
    represents h' b' [] ∧ config b' = config b ∧ owned b' = [] ∧ frees h b h' b'.
Proof. apply flush_refines. Qed.

(** [packet_buffer_pop_oldest] transfers the oldest packet, alive, to the
    caller: it is no longer owned by the buffer, the rest of the queue is
    unchanged and [oldest_packet_time] is the time of the new oldest packet;
    an empty buffer is left alone with [-1]. *)
Theorem packet_buffer_pop_oldest_spec h b q :
  represents h b q → active b = true →
  match q with
  | [] => packet_buffer_pop_oldest (Some b) = Some (-1, Some b, None)
  | e :: q' =>
      ∃ b' p, packet_buffer_pop_oldest (Some b) = Some (0, Some b', Some (Some p)) ∧
        represents h b' q' ∧ config b' = config b ∧ pkt_get h p = Some e.2 ∧ p ∈ owned b ∧
        (∀ r, (r ∈ owned b') ↔ (r ∈ owned b ∧ r ≠ p)) ∧
        (∀ e', hd_error q' = Some e' → oldest_packet_time b' = e'.1)
  end.
Proof.
  intros HR Hact. destruct q as [|e q]; [|by apply pop_refines].
  apply pop_empty; [|done]. by rewrite (represents_count _ _ _ HR).
Qed.
End buffer_properties.

(** ** Correctness of the pool *)

Section pool_properties.
Implicit Types (st : pool_state).

(** At 15 frames per second and the durations the pool accepts, the estimate
    in floating point is exact. *)
Lemma estimate_exact d :
  5 ≤ d ≤ 30 → packet_buffer_estimate_packet_count 15 d = Some (18 * d).
Proof.
  intros Hd.
  assert (Hall : Forall (λ n, packet_buffer_estimate_packet_count 15 (Z.of_nat n)
                              = Some (18 * Z.of_nat n)) (seq 5 26)).
  { apply (bool_decide_unpack _). by vm_compute. }
  rewrite Forall_forall in Hall. specialize (Hall (Z.to_nat d)).
  rewrite Z2Nat.id in Hall by lia. apply Hall, elem_of_seq. lia.
Qed.

Definition inactive (b : packet_buffer_t) : bool := negb (active b).

Lemma buffers_set_buffer st i b : buffers (buffer_pool (set_buffer st i b)) = <[i := b]> (buffers (buffer_pool st)).
Proof. done. Qed.

(** With a free slot and working allocators, [create_packet_buffer]
    takes the first free slot; whatever the slot held before, the new buffer
    is empty, with room for 18 packets per second of window, and
    [get_packet_buffer] finds it by its name when no active buffer already
    had that name and the name fits its field. *)
Theorem create_packet_buffer_spec {H} `{PacketHeap H} (h : H) st name secs m sp ensure_dir i :
  pool_initialized st = true → MIN_BUFFER_SECONDS ≤ secs ≤ MAX_BUFFER_SECONDS →
  find_idx inactive (buffers (buffer_pool st)) = Some i →
  (∀ p, ensure_dir p = 0) →
  ∃ st' b, create_packet_buffer true true sp ensure_dir st (Some name) secs m = Some (Some i, st') ∧
    buffers (buffer_pool st') = <[i := b]> (buffers (buffer_pool st)) ∧
    active_buffers (buffer_pool st') = active_buffers (buffer_pool st) + 1 ∧
    represents h b [] ∧ active b = true ∧ max_packets b = 18 * secs ∧
    buffer_seconds b = secs ∧ mode b = m ∧
    ((length name < 256)%nat →
     (∀ j b', buffers (buffer_pool st) !! j = Some b' → active b' = true → stream_name b' ≠ name) →
     get_packet_buffer st' (Some name) = Some i).
Proof.
  unfold MIN_BUFFER_SECONDS, MAX_BUFFER_SECONDS. intros Hinit Hsecs Hfree Hdir.
  assert (∃ path st',
    create_packet_buffer true true sp ensure_dir st (Some name) secs m = Some (Some i, st') ∧
    buffers (buffer_pool st') = <[i := fresh_buffer name secs (18 * secs) m
      (Some (replicate (Z.to_nat (18 * secs)) empty_slot)) path true true]> (buffers (buffer_pool st)) ∧
    active_buffers (buffer_pool st') = active_buffers (buffer_pool st) + 1 ∧
    pool_initialized st' = true) as (path & st' & Heq & Hb & Ha & Hi).
  { unfold create_packet_buffer. rewrite Hinit. unfold MIN_BUFFER_SECONDS, MAX_BUFFER_SECONDS.
    rewrite (proj2 (Z.ltb_ge _ _)) by lia. rewrite Z.gtb_ltb, (proj2 (Z.ltb_ge _ _)) by lia.
    fold inactive. rewrite Hfree. rewrite estimate_exact by lia. csimpl.
    case_match; [by eexists _, _|]. destruct sp; [|by eexists _, _].
    rewrite Hdir. simpl. by eexists _, _. }
  exists st'. eexists. split; [done|]. split; [done|]. split_and!; try done.
  - apply fresh_represents. lia.
  - intros Hname Hnone. unfold get_packet_buffer. rewrite Hi, Hb. simpl.
    apply find_idx_lt in Hfree as Hlt.
    eapply find_idx_unique; [by apply list_lookup_insert_eq| |].
    + simpl. rewrite strcpy_trunc_id by done. apply streq_refl.
    + intros j b Hj Hact. destruct (decide (j = i)) as [->|Hne]; [done|].
      rewrite list_lookup_insert_ne in Hj by done. unbool. by destruct (Hnone j b).
Qed.

(** Nothing ever adds to the memory accounted at the level of the pool,
    which [destroy_packet_buffer] subtracts from: destroying the first buffer
    that still holds packets makes the total wrap around, to [2^64] less the
    bytes held. *)
Theorem destroy_packet_buffer_wraps_total {H} `{PacketHeap H} (h : H) st i b :
  pool_initialized st = true → pool_memory_usage (buffer_pool st) = 0 →
  buffers (buffer_pool st) !! i = Some b → active b = true →
  0 < current_memory_usage b < 2 ^ 64 →
  packet_buffer_get_total_memory_usage (destroy_packet_buffer h st i).2
  = 2 ^ 64 - current_memory_usage b.
Proof.
  intros Hinit Hmem Hi Hact Hb. unfold destroy_packet_buffer. rewrite Hi, Hact. simpl.
  unfold packet_buffer_get_total_memory_usage. simpl. rewrite Hinit, Hmem. simpl.
  unfold u64. replace (0 - current_memory_usage b)
    with (2 ^ 64 - current_memory_usage b + (-1) * 2 ^ 64) by lia.
  rewrite Z.mod_add by lia. apply Z.mod_small. lia.
Qed.

(** When the disk directory cannot be made, [create_packet_buffer]
    returns [NULL] but keeps the slot active with its mutex destroyed, not
    counted in [active_buffers]: [get_packet_buffer] hands it out by name. *)
Theorem create_packet_buffer_failure_leaks st name secs m sp ensure_dir i :
  pool_initialized st = true → MIN_BUFFER_SECONDS ≤ secs ≤ MAX_BUFFER_SECONDS →
  find_idx inactive (buffers (buffer_pool st)) = Some i →
  m ≠ BUFFER_MODE_MEMORY → (∀ p, ensure_dir p ≠ 0) → (length name < 256)%nat →
  (∀ j b', buffers (buffer_pool st) !! j = Some b' → active b' = true → stream_name b' ≠ name) →
  ∃ st' b, create_packet_buffer true true (Some sp) ensure_dir st (Some name) secs m
             = Some (None, st') ∧
    get_packet_buffer st' (Some name) = Some i ∧
    buffers (buffer_pool st') !! i = Some b ∧ active b = true ∧ mutex_initialized b = false ∧
    active_buffers (buffer_pool st') = active_buffers (buffer_pool st).
Proof.
  unfold MIN_BUFFER_SECONDS, MAX_BUFFER_SECONDS. intros Hinit Hsecs Hfree Hm Hdir Hname Hnone.
  apply find_idx_lt in Hfree as Hlt.
  unfold create_packet_buffer. rewrite Hinit. unfold MIN_BUFFER_SECONDS, MAX_BUFFER_SECONDS.
  rewrite (proj2 (Z.ltb_ge _ _)) by lia. rewrite Z.gtb_ltb, (proj2 (Z.ltb_ge _ _)) by lia.
  fold inactive. rewrite Hfree, estimate_exact by lia. csimpl.
  rewrite bool_decide_eq_false_2 by done. rewrite (proj2 (Z.eqb_neq _ _)) by done.
  eexists _, _. split; [done|]. split; [|by rewrite buffers_set_buffer, list_lookup_insert_eq].
  unfold get_packet_buffer. simpl. rewrite Hinit. simpl.
  eapply find_idx_unique; [by apply list_lookup_insert_eq| |].
  - simpl. rewrite strcpy_trunc_id by done. apply streq_refl.
  - intros j b Hj Hact. destruct (decide (j = i)) as [->|Hne]; [done|].
    rewrite list_lookup_insert_ne in Hj by done. unbool. by destruct (Hnone j b).
Qed.
End pool_properties.

(** ** Witnesses *)

Definition example_add : option (Z * map_heap * option packet_buffer_t) :=
  packet_buffer_add_packet example_heap (Some example_buffer) (Some 7%positive) 10.
Definition example_heap1 : map_heap := default ∅ ((λ r, r.1.2) <$> example_add).
Definition example_buffer1 : packet_buffer_t := default zero_buffer (r ← example_add; r.2).

Lemma example_not_owned : 7%positive ∉ owned example_buffer.
Proof. by apply (bool_decide_unpack _); vm_compute. Qed.

Lemma packet_buffer_run_safe_witness :
  is_Some (packet_buffer_flush example_heap1 (Some example_buffer1)
             (Some (λ pk n, (0, n + av_size pk))) 0).
Proof.
  refine (proj1 (proj2 (proj2 (proj2 (proj2
    (packet_buffer_run_safe example_heap (lit "cam") 5 3 BUFFER_MODE_MEMORY []
       example_heap1 example_buffer1 _ _))))) _ _ _).
  - lia.
  - apply rtc_once. apply (step_add _ _ 7%positive example_packet 10 0).
    + by vm_compute.
    + exact example_not_owned.
    + by vm_compute.
Defined.

Lemma packet_buffer_add_packet_spec_witness :
  ∃ r h' b', packet_buffer_add_packet example_heap2 (Some example_buffer2) (Some 7%positive) 17
             = Some (r, h', Some b') ∧
    add_result example_heap2 example_buffer2 7%positive 17 example_queue example_packet r h' b'.
Proof.
  destruct (packet_buffer_add_packet_spec example_heap2 example_buffer2 example_queue
              7%positive example_packet 17) as (r & h' & b' & ? & ? & _).
  - apply example_represents2.
  - by vm_compute.
  - by vm_compute.
  - apply example_represents2.
  - exists r, h', b'. split_and!; assumption.
Defined.

(** The packet of time 10 has left the window. *)
Definition example_add3 : option (Z * map_heap * option packet_buffer_t) :=
  packet_buffer_add_packet example_heap2 (Some example_buffer2) (Some 7%positive) 17.
Definition example_heap3 : map_heap := default ∅ ((λ r, r.1.2) <$> example_add3).
Definition example_buffer3 : packet_buffer_t := default zero_buffer (r ← example_add3; r.2).

Lemma packet_buffer_window_witness :
  count example_buffer3 = 2 ∧
  ∃ q' l, represents example_heap3 example_buffer3 q' ∧
    example_queue ++ [(17, example_packet)] = l ++ q' ∧ last q' = Some (17, example_packet).
Proof.
  split; [by vm_compute|].
  destruct (packet_buffer_window example_heap2 example_buffer2 example_queue 7%positive
              example_packet 17 example_heap3 example_buffer3) as (q' & l & ? & ? & ? & _).
  - apply example_represents2.
  - by vm_compute.
  - by vm_compute.
  - apply example_represents2.
  - by apply (bool_decide_unpack _); vm_compute.
  - repeat constructor.
    all: apply (bool_decide_unpack _); by vm_compute.
  - by vm_compute.
  - exists q', l. split_and!; assumption.
Defined.

Lemma packet_buffer_flush_spec_witness :
  ∃ h' b', packet_buffer_flush example_heap2 (Some example_buffer2)
             (Some (λ pk n, (0, n + av_size pk))) 0 = Some (2, h', Some b', 80) ∧
    represents h' b' [].
Proof.
  destruct (packet_buffer_flush_spec example_heap2 example_buffer2 example_queue
              (λ pk n, (0, n + av_size pk)) 0) as (h' & b' & ? & ? & _).
  - apply example_represents2.
  - by vm_compute.
  - exists h', b'. split_and!; assumption.
Defined.

Lemma packet_buffer_pop_oldest_spec_witness :
  ∃ b' p, packet_buffer_pop_oldest (Some example_buffer2) = Some (0, Some b', Some (Some p)) ∧
    pkt_get example_heap2 p = Some example_packet.
Proof.
  destruct (packet_buffer_pop_oldest_spec example_heap2 example_buffer2 example_queue)
    as (b' & p & ? & _ & _ & ? & _).
  - apply example_represents2.
  - by vm_compute.
  - exists b', p. split_and!; assumption.
Defined.

Definition example_pool : pool_state := mkPoolState zero_pool true.

Lemma create_packet_buffer_spec_witness :
  ∃ st' b, create_packet_buffer true true (Some (lit "/rec")) (λ _, 0) example_pool
             (Some (lit "cam")) 10 BUFFER_MODE_HYBRID = Some (Some O, st') ∧
    represents (∅ : map_heap) b [] ∧ get_packet_buffer st' (Some (lit "cam")) = Some O.
Proof.
  destruct (create_packet_buffer_spec (∅ : map_heap) example_pool (lit "cam") 10
              BUFFER_MODE_HYBRID (Some (lit "/rec")) (λ _, 0) 0)
    as (st' & b & ? & _ & _ & ? & _ & _ & _ & _ & Hget).
  - done.
  - done.
  - by vm_compute.
  - done.
  - exists st', b. split; [done|]. split; [done|]. apply Hget; [by vm_compute; lia|].
    intros j b' Hj Hact. apply lookup_replicate in Hj as [-> _]. done.
Defined.

Lemma destroy_packet_buffer_wraps_total_witness :
  packet_buffer_get_total_memory_usage
    (destroy_packet_buffer example_heap2 (set_buffer example_pool 3 example_buffer2) 3).2
  = 18446744073709551536.
Proof.
  refine (destroy_packet_buffer_wraps_total _ (set_buffer example_pool 3 example_buffer2) 3
            example_buffer2 _ _ _ _ _); by vm_compute.
Defined.

Lemma create_packet_buffer_failure_leaks_witness :
  ∃ st' b, create_packet_buffer true true (Some (lit "/rec")) (λ _, -1) example_pool
             (Some (lit "cam")) 10 BUFFER_MODE_DISK = Some (None, st') ∧
    buffers (buffer_pool st') !! O = Some b ∧ active b = true ∧ mutex_initialized b = false.
Proof.
  destruct (create_packet_buffer_failure_leaks example_pool (lit "cam") 10
              BUFFER_MODE_DISK (lit "/rec") (λ _, -1) 0) as (st' & b & ? & _ & ? & ? & ? & _).
  - done.
  - done.
  - by vm_compute.
  - done.
  - done.
  - by vm_compute; lia.
  - intros j b' Hj Hact. apply lookup_replicate in Hj as [-> _]. done.
  - exists st', b. split_and!; assumption.
Defined.
