(* ===== verification/TimestampManager.v ===== *)
(** * Timestamp trackers: [src/video/timestamp_manager.c]

    The array [timestamp_trackers] of [MAX_STREAMS] slots that remembers, per
    stream, the times of the last keyframe and of the last detection, read by
    the recorders to decide on segment rotation.  [time (NULL)] is a parameter
    of the operations that read the clock.  [tracker_of] is the finite map the
    array implements. *)
From Stdlib Require Import ZArith Lia Bool.
From Stdlib Require Import Strings.Byte.
From stdpp Require Import base numbers list strings.
From S2P Require Import Prelude.
#[local] Open Scope Z_scope.

Record timestamp_tracker_t := mkTracker {
  stream_name : cstr;
  last_pts : Z;
  last_dts : Z;
  pts_discontinuity_count : Z;
  expected_next_pts : Z;
  is_udp_stream : bool;
  initialized : bool;
  last_keyframe_time : Z;
  last_detection_time : Z
}.

#[global] Instance tracker_eq_dec : EqDecision timestamp_tracker_t.
Proof. solve_decision. Defined.

Abbreviation trackers := (list timestamp_tracker_t).

(** The assignments that every creation and reuse of a slot performs. *)
Definition new_tracker (name : cstr) (udp : bool) (keyframe detection : Z)
    : timestamp_tracker_t :=
  mkTracker (strcpy_trunc MAX_STREAM_NAME name) AV_NOPTS_VALUE AV_NOPTS_VALUE 0
    AV_NOPTS_VALUE udp true keyframe detection.

(** An unused slot. *)
Definition unused : timestamp_tracker_t :=
  mkTracker [] AV_NOPTS_VALUE AV_NOPTS_VALUE 0 AV_NOPTS_VALUE false false 0 0.

Definition set_keyframe (t : timestamp_tracker_t) (time : Z) : timestamp_tracker_t :=
  mkTracker (stream_name t) (last_pts t) (last_dts t) (pts_discontinuity_count t)
    (expected_next_pts t) (is_udp_stream t) (initialized t) time (last_detection_time t).

Definition set_detection (t : timestamp_tracker_t) (time : Z) : timestamp_tracker_t :=
  mkTracker (stream_name t) (last_pts t) (last_dts t) (pts_discontinuity_count t)
    (expected_next_pts t) (is_udp_stream t) (initialized t) (last_keyframe_time t) time.

Definition set_udp (t : timestamp_tracker_t) (udp : bool) : timestamp_tracker_t :=
  mkTracker (stream_name t) (last_pts t) (last_dts t) (pts_discontinuity_count t)
    (expected_next_pts t) udp (initialized t) (last_keyframe_time t) (last_detection_time t).

Definition reset_tracker (t : timestamp_tracker_t) : timestamp_tracker_t :=
  mkTracker (stream_name t) AV_NOPTS_VALUE AV_NOPTS_VALUE 0 AV_NOPTS_VALUE
    (is_udp_stream t) (initialized t) 0 0.

Definition named (name : cstr) (t : timestamp_tracker_t) : bool :=
  initialized t && streq (stream_name t) name.

Definition find_named (ts : trackers) (name : cstr) : option nat := find_idx (named name) ts.
Definition find_unused (ts : trackers) : option nat :=
  find_idx (λ t, negb (initialized t)) ts.

(** Not heard from for five minutes. *)
Definition stale (now : Z) (t : timestamp_tracker_t) : bool :=
  initialized t && (last_keyframe_time t >? 0) && (now - last_keyframe_time t >? 300).

(** The loop over [oldest_idx] and [oldest_time], from slot [i] on. *)
Fixpoint find_oldest (ts : trackers) (i : nat) (oldest_time : Z) (oldest : option nat)
    : option nat :=
  match ts with
  | [] => oldest
  | t :: ts =>
      if initialized t && (last_keyframe_time t <? oldest_time)
      then find_oldest ts (S i) (last_keyframe_time t) (Some i)
      else find_oldest ts (S i) oldest_time oldest
  end.

(** Result: the index of the tracker ([None] for [NULL]). *)
Definition get_timestamp_tracker (now : Z) (ts : trackers) (name : option cstr)
    : option nat * trackers :=
  match name with
  | None => (None, ts)
  | Some name =>
      let local := strcpy_trunc MAX_STREAM_NAME name in
      match find_named ts local with
      | Some i => (Some i, ts)
      | None =>
          match find_unused ts with
          | Some i => (Some i, <[i := new_tracker local false 0 0]> ts)
          | None =>
              match find_idx (stale now) ts with
              | Some i => (Some i, <[i := new_tracker local false 0 0]> ts)
              | None => (None, ts)
              end
          end
      end
  end.

Definition init_timestamp_trackers (ts : trackers) : trackers := (λ _, unused) <$> ts.

Definition set_timestamp_tracker_udp_flag (ts : trackers) (name : option cstr) (is_udp : bool)
    : trackers :=
  match name with
  | None => ts
  | Some name =>
      let local := strcpy_trunc MAX_STREAM_NAME name in
      match find_named ts local with
      | Some i => alter (λ t, set_udp t is_udp) i ts
      | None =>
          match find_unused ts with
          | Some i => <[i := new_tracker local is_udp 0 0]> ts
          | None => ts
          end
      end
  end.

Definition reset_timestamp_tracker (ts : trackers) (name : option cstr) : trackers :=
  match name with
  | None => ts
  | Some name =>
      match find_named ts name with
      | Some i => alter reset_tracker i ts
      | None => ts
      end
  end.

Definition remove_timestamp_tracker (ts : trackers) (name : option cstr) : trackers :=
  match name with
  | None => ts
  | Some name =>
      match find_named ts name with
      | Some i => <[i := unused]> ts
      | None => ts
      end
  end.

Definition cleanup_timestamp_trackers (ts : trackers) : trackers := (λ _, unused) <$> ts.

(** [now]: the clock at the update (or at the start of the search for the
    oldest slot); [now']: the clock when a slot is reused. *)
Definition update_keyframe_time (now now' : Z) (ts : trackers) (name : option cstr) : trackers :=
  match name with
  | None => ts
  | Some name =>
      match find_named ts name with
      | Some i => alter (λ t, set_keyframe t now) i ts
      | None =>
          match find_unused ts with
          | Some i => <[i := new_tracker name false now 0]> ts
          | None =>
              match find_oldest ts 0 now None with
              | Some i => <[i := new_tracker name false now' 0]> ts
              | None => ts
              end
          end
      end
  end.

(** [keyframe_time]: [None] for [NULL], else the value pointed to, before and
    (in the result) after the call. *)
Definition last_keyframe_received (ts : trackers) (name : option cstr) (keyframe_time : option Z)
    : Z * option Z * trackers :=
  match name with
  | None => (0, keyframe_time, ts)
  | Some name =>
      match t ← find_named ts name; ts !! t with
      | Some t =>
          let check_time := match keyframe_time with
                            | Some c => if c >? 0 then c else 0
                            | None => 0
                            end in
          let last_kf_time := last_keyframe_time t in
          let result := if last_kf_time >? 0 then
                          if (check_time =? 0) || (last_kf_time >? check_time) then 1 else 0
                        else 0 in
          (result, (λ _, last_kf_time) <$> keyframe_time, ts)
      | None =>
          ((0, (λ _, 0) <$> keyframe_time),
           match find_unused ts with
           | Some i => <[i := new_tracker name false 0 0]> ts
           | None => ts
           end)
      end
  end.

Definition get_last_detection_time (ts : trackers) (name : option cstr) : Z * trackers :=
  match name with
  | None => (0, ts)
  | Some name =>
      match t ← find_named ts name; ts !! t with
      | Some t => (last_detection_time t, ts)
      | None => (0, match find_unused ts with
                    | Some i => <[i := new_tracker name false 0 0]> ts
                    | None => ts
                    end)
      end
  end.

Definition update_last_detection_time (now : Z) (ts : trackers) (name : option cstr)
    (detection_time : Z) : trackers :=
  match name with
  | None => ts
  | Some name =>
      match find_named ts name with
      | Some i => alter (λ t, set_detection t detection_time) i ts
      | None =>
          match find_unused ts with
          | Some i => <[i := new_tracker name false 0 detection_time]> ts
          | None =>
              match find_oldest ts 0 now None with
              | Some i => <[i := new_tracker name false 0 detection_time]> ts
              | None => ts
              end
          end
      end
  end.

(** ** The finite map the array implements *)

Definition tracker_of (ts : trackers) (name : cstr) : option timestamp_tracker_t :=
  i ← find_named ts name; ts !! i.

(** No two slots in use have the same name. *)
Definition unique (ts : trackers) : Prop :=
  ∀ i j t1 t2, ts !! i = Some t1 → ts !! j = Some t2 →
    initialized t1 = true → initialized t2 = true → stream_name t1 = stream_name t2 → i = j.

(** Names that fit their field. *)
Definition fits (name : cstr) : Prop := (length name < MAX_STREAM_NAME)%nat.

(** A slot is available to the stream without taking one from another. *)
Definition room (ts : trackers) (name : cstr) : Prop :=
  is_Some (find_named ts name) ∨ is_Some (find_unused ts).

Inductive tracker_op :=
| OpGet (now : Z) (name : option cstr)
| OpUdp (name : option cstr) (udp : bool)
| OpReset (name : option cstr)
| OpRemove (name : option cstr)
| OpKeyframe (now now' : Z) (name : option cstr)
| OpCheck (name : option cstr) (keyframe_time : option Z)
| OpGetDetection (name : option cstr)
| OpDetection (now : Z) (name : option cstr) (detection_time : Z)
| OpInit
| OpCleanup.

Definition apply_op (ts : trackers) (o : tracker_op) : trackers :=
  match o with
  | OpGet now name => (get_timestamp_tracker now ts name).2
  | OpUdp name udp => set_timestamp_tracker_udp_flag ts name udp
  | OpReset name => reset_timestamp_tracker ts name
  | OpRemove name => remove_timestamp_tracker ts name
  | OpKeyframe now now' name => update_keyframe_time now now' ts name
  | OpCheck name kt => (last_keyframe_received ts name kt).2
  | OpGetDetection name => (get_last_detection_time ts name).2
  | OpDetection now name d => update_last_detection_time now ts name d
  | OpInit => init_timestamp_trackers ts
  | OpCleanup => cleanup_timestamp_trackers ts
  end.

Definition op_name (o : tracker_op) : option cstr :=
  match o with
  | OpGet _ name | OpUdp name _ | OpReset name | OpRemove name | OpKeyframe _ _ name
  | OpCheck name _ | OpGetDetection name | OpDetection _ name _ => name
  | OpInit | OpCleanup => None
  end.

Definition op_fits (o : tracker_op) : Prop := ∀ name, op_name o = Some name → fits name.

Section trackers.
Implicit Types (ts : trackers) (t : timestamp_tracker_t) (name : cstr).

Lemma named_true name t :
  named name t = true ↔ initialized t = true ∧ stream_name t = name.
Proof. unfold named. by rewrite andb_true_iff, streq_true. Qed.

Lemma find_named_Some ts name i :
  find_named ts name = Some i →
  ∃ t, ts !! i = Some t ∧ initialized t = true ∧ stream_name t = name.
Proof. intros (t & ? & (? & ?)%named_true)%find_idx_lookup. eauto. Qed.

Lemma find_named_None ts name i t :
  find_named ts name = None → ts !! i = Some t → initialized t = true → stream_name t ≠ name.
Proof.
  intros Hn Hi Hinit <-. apply find_idx_None with (i := i) (x := t) in Hn; [|done].
  assert (named (stream_name t) t = true) by (by apply named_true). congruence.
Qed.

Lemma find_named_unique ts i t :
  unique ts → ts !! i = Some t → initialized t = true →
  find_named ts (stream_name t) = Some i.
Proof.
  intros Hu Hi Hinit. apply (find_idx_unique _ _ _ t); [done|by apply named_true|].
  intros j y Hj (? & ?)%named_true. eauto.
Qed.

Lemma tracker_of_lookup ts i t :
  unique ts → ts !! i = Some t → initialized t = true →
  tracker_of ts (stream_name t) = Some t.
Proof. intros. unfold tracker_of. by rewrite (find_named_unique _ i t). Qed.

Lemma tracker_of_Some ts name t :
  tracker_of ts name = Some t →
  ∃ i, ts !! i = Some t ∧ find_named ts name = Some i ∧
       initialized t = true ∧ stream_name t = name.
Proof.
  unfold tracker_of. destruct (find_named ts name) as [i|] eqn:E; [|done]. simpl.
  intros Hi. destruct (find_named_Some _ _ _ E) as (t' & ? & ? & ?). simplify_eq. eauto.
Qed.

Lemma tracker_of_None ts name :
  tracker_of ts name = None ↔ find_named ts name = None.
Proof.
  unfold tracker_of. destruct (find_named ts name) as [i|] eqn:E; [|done].
  destruct (find_named_Some _ _ _ E) as (t' & Ht & _). csimpl. by rewrite Ht.
Qed.

(** Writing a slot that belongs to [name], or to nobody. *)
Lemma unique_insert ts i t :
  unique ts →
  (∀ j, find_named ts (stream_name t) = Some j → j = i) →
  unique (<[i := t]> ts).
Proof.
  intros Hu Hnone j k t1 t2 Hj Hk H1 H2 Heq.
  destruct (decide (j = i)) as [->|Hji], (decide (k = i)) as [->|Hki]; [done| | |].
  - rewrite list_lookup_insert_ne in Hk by done.
    apply list_lookup_insert_Some in Hj as [(_ & <- & _)|[? _]]; [|done].
    symmetry. apply Hnone. rewrite Heq. by apply find_named_unique.
  - rewrite list_lookup_insert_ne in Hj by done.
    apply list_lookup_insert_Some in Hk as [(_ & <- & _)|[? _]]; [|done].
    apply Hnone. rewrite <-Heq. by apply find_named_unique.
  - rewrite list_lookup_insert_ne in Hj, Hk by done. eauto.
Qed.

Lemma unique_insert_unused ts i t :
  unique ts → initialized t = false → unique (<[i := t]> ts).
Proof.
  intros Hu Hinit j k t1 t2 Hj Hk H1 H2 Heq.
  apply list_lookup_insert_Some in Hj as [(_ & <- & _)|[_ Hj]]; [congruence|].
  apply list_lookup_insert_Some in Hk as [(_ & <- & _)|[_ Hk]]; [congruence|]. eauto.
Qed.

Lemma unique_unused ts : unique ((λ _, unused) <$> ts).
Proof.
  intros i j t1 t2 Hi _ Hinit. apply list_lookup_fmap_Some in Hi as (? & -> & _). done.
Qed.

(** The map after a write: the slot's stream has the new tracker, every
    other stream but the one that lost the slot is untouched. *)
Lemma tracker_of_insert ts i t n :
  unique ts → (i < length ts)%nat → initialized t = true →
  (∀ j, find_named ts (stream_name t) = Some j → j = i) →
  (∀ t0, ts !! i = Some t0 → initialized t0 = true → stream_name t0 = stream_name t) →
  tracker_of (<[i := t]> ts) n
  = if decide (n = stream_name t) then Some t else tracker_of ts n.
Proof.
  intros Hu Hlt Hinit Hi Hslot.
  pose proof (unique_insert _ _ _ Hu Hi) as Hu'.
  destruct (decide (n = stream_name t)) as [->|Hne].
  - apply (tracker_of_lookup _ i); [done|by apply list_lookup_insert_eq|done].
  - destruct (tracker_of ts n) as [t'|] eqn:E.
    + apply tracker_of_Some in E as (k & Hk & _ & Hkin & <-).
      assert (k ≠ i) by (intros ->; by rewrite (Hslot t') in Hne).
      apply (tracker_of_lookup _ k); [done|by rewrite list_lookup_insert_ne|done].
    + apply tracker_of_None. apply tracker_of_None in E.
      apply find_idx_None. intros k x Hk.
      apply not_true_iff_false. intros [Hx <-]%named_true.
      apply list_lookup_insert_Some in Hk as [(_ & <- & _)|[_ Hk]]; [done|].
      by apply (find_named_None _ _ _ _ E Hk).
Qed.

Lemma new_tracker_name name udp kf d :
  fits name → stream_name (new_tracker name udp kf d) = name.
Proof. intros. by apply strcpy_trunc_id. Qed.

Lemma unique_upsert ts name i t :
  unique ts → find_named ts name = None → stream_name t = name → unique (<[i := t]> ts).
Proof. intros Hu Hn <-. apply unique_insert; [done|]. intros j. by rewrite Hn. Qed.

Lemma unique_alter ts name i f :
  unique ts → find_named ts name = Some i →
  (∀ t, stream_name (f t) = stream_name t) → unique (alter f i ts).
Proof.
  intros Hu Hi Hf. destruct (find_named_Some _ _ _ Hi) as (t & Ht & _ & Hname).
  rewrite (alter_insert _ _ _ _ Ht). apply unique_insert; [done|].
  rewrite Hf, Hname, Hi. by intros j [= ->].
Qed.

Lemma unique_op ts o : unique ts → op_fits o → unique (apply_op ts o).
Proof.
  intros Hu Hfits.
  assert (Hnew : ∀ name udp kf d, op_name o = Some name →
            stream_name (new_tracker name udp kf d) = name).
  { intros. apply new_tracker_name. by apply Hfits. }
  assert (Hloc : ∀ name udp kf d,
            stream_name (new_tracker (strcpy_trunc MAX_STREAM_NAME name) udp kf d)
            = strcpy_trunc MAX_STREAM_NAME name).
  { intros. apply strcpy_trunc_idem. }
  destruct o as [now [name|]|[name|] udp|[name|]|[name|]|now now' [name|]|[name|] kt
                |[name|]|now [name|] d| |]; simpl; try done; try apply unique_unused.
  - destruct (find_named _ _) as [i|] eqn:E; [done|].
    repeat case_match; try done; eapply unique_upsert; eauto.
  - destruct (find_named _ _) as [i|] eqn:E; [by eapply unique_alter|].
    case_match; [|done]. eapply unique_upsert; eauto.
  - destruct (find_named _ _) as [i|] eqn:E; [by eapply unique_alter|done].
  - case_match; [by apply unique_insert_unused|done].
  - destruct (find_named _ _) as [i|] eqn:E; [by eapply unique_alter|].
    repeat case_match; try done; eapply unique_upsert; eauto.
  - destruct (find_named ts name) as [i|] eqn:E; simpl.
    + destruct (find_named_Some _ _ _ E) as (t & -> & _). done.
    + case_match; [|done]. eapply unique_upsert; eauto.
  - destruct (find_named ts name) as [i|] eqn:E; simpl.
    + destruct (find_named_Some _ _ _ E) as (t & -> & _). done.
    + case_match; [|done]. eapply unique_upsert; eauto.
  - destruct (find_named _ _) as [i|] eqn:E; [by eapply unique_alter|].
    repeat case_match; try done; eapply unique_upsert; eauto.
Qed.

(** Starting from the initial table, no sequence of operations on names
    that fit their field ever gives two slots in use the same name. *)
Theorem trackers_unique ops :
  Forall op_fits ops →
  unique (foldl apply_op (replicate MAX_STREAMS unused) ops).
Proof.
  intros Hops.
  assert (Hu : unique (replicate MAX_STREAMS unused)).
  { intros i j t1 t2 Hi _ Hinit. by apply lookup_replicate in Hi as [-> _]. }
  revert Hu. generalize (replicate MAX_STREAMS unused).
  induction Hops as [|o ops Ho _ IH]; intros ts Hu; simpl; [done|].
  by apply IH, unique_op.
Qed.

(** Writing through the "find, else take an unused slot" of an update. *)
Lemma tracker_of_upsert ts name i t :
  unique ts → initialized t = true → stream_name t = name →
  (find_named ts name = Some i ∨ (find_named ts name = None ∧ find_unused ts = Some i)) →
  ∀ n, tracker_of (<[i := t]> ts) n = if decide (n = name) then Some t else tracker_of ts n.
Proof.
  intros Hu Hinit <- Hi n. apply tracker_of_insert; [done| |done| |].
  - destruct Hi as [Hi|[_ Hi]]; by eapply find_idx_lt.
  - intros j Hj. destruct Hi as [Hi|[Hi _]]; congruence.
  - intros t0 Ht0 Hinit0. destruct Hi as [Hi|[_ Hi]].
    + apply find_named_Some in Hi as (? & ? & _ & ?). congruence.
    + apply find_idx_lookup in Hi as (y & Hy & Hfree). unbool. congruence.
Qed.

Lemma update_keyframe_time_map now now' ts name n :
  unique ts → fits name → room ts name →
  tracker_of (update_keyframe_time now now' ts (Some name)) n
  = if decide (n = name)
    then Some (set_keyframe (default (new_tracker name false now 0) (tracker_of ts name)) now)
    else tracker_of ts n.
Proof.
  intros Hu Hf Hroom. simpl. destruct (find_named ts name) as [i|] eqn:E.
  - destruct (find_named_Some _ _ _ E) as (t & Ht & Hinit & Hname).
    rewrite (alter_insert _ _ _ _ Ht), (tracker_of_upsert _ name) by (try left; done).
    by rewrite <-Hname, (tracker_of_lookup ts i t).
  - destruct Hroom as [[? ?]|[i Hi]]; [congruence|]. rewrite Hi.
    rewrite (tracker_of_upsert _ name) by (try (by apply new_tracker_name); auto).
    by rewrite (proj2 (tracker_of_None ts name) E).
Qed.

(** Once a keyframe of a stream has been recorded, a keyframe check of
    the stream writes its time back and answers [1] exactly when that time
    is after the (positive) time asked about, or none is asked; no other
    stream's tracker changes. *)
Theorem keyframe_check_spec now now' ts name kt ts' :
  unique ts → fits name → room ts name →
  update_keyframe_time now now' ts (Some name) = ts' →
  (∃ r, last_keyframe_received ts' (Some name) kt = (r, (λ _, now) <$> kt, ts') ∧
        (r = 0 ∨ r = 1) ∧ (r = 1 ↔ 0 < now ∧ ∀ c, kt = Some c → 0 < c → c < now)) ∧
  ∀ n, n ≠ name → tracker_of ts' n = tracker_of ts n.
Proof.
  intros Hu Hf Hroom <-. split; [|intros n Hn; by rewrite update_keyframe_time_map, decide_False].
  unfold last_keyframe_received. fold (tracker_of (update_keyframe_time now now' ts (Some name)) name).
  rewrite update_keyframe_time_map, decide_True by done. simpl.
  eexists. split; [done|].
  destruct (now >? 0) eqn:En; unbool; [|split; [by left|lia]].
  destruct kt as [c|]; simpl; [|split; [by right|done]].
  destruct (c >? 0) eqn:Ec; unbool.
  - rewrite (proj2 (Z.eqb_neq _ _)) by lia. simpl. destruct (now >? c) eqn:Enc; unbool.
    + split; [by right|]. split; [|done]. intros _. split; [lia|]. intros ? [= <-]. lia.
    + split; [by left|]. split; [done|]. intros [_ Hc]. specialize (Hc c eq_refl). lia.
  - split; [by right|]. split; [|done]. intros _. split; [lia|]. intros ? [= <-]. lia.
Qed.

(** Resetting a stream forgets its timestamps and both of its times but
    keeps its name, its slot and its UDP flag, and touches no other stream;
    removing it frees the slot. *)
Theorem reset_remove_spec ts name t :
  unique ts → tracker_of ts name = Some t →
  (∀ n, tracker_of (reset_timestamp_tracker ts (Some name)) n
        = if decide (n = name)
          then Some (mkTracker name AV_NOPTS_VALUE AV_NOPTS_VALUE 0 AV_NOPTS_VALUE
                       (is_udp_stream t) true 0 0)
          else tracker_of ts n) ∧
  (∀ n, tracker_of (remove_timestamp_tracker ts (Some name)) n
        = if decide (n = name) then None else tracker_of ts n) ∧
  is_Some (find_unused (remove_timestamp_tracker ts (Some name))).
Proof.
  intros Hu Ht. apply tracker_of_Some in Ht as (i & Hi & Hfind & Hinit & <-). simpl.
  rewrite Hfind. apply lookup_lt_Some in Hi as Hlt. split_and!.
  - intros n. rewrite (alter_insert _ _ _ _ Hi), (tracker_of_upsert _ (stream_name t)) by auto.
    unfold reset_tracker. by rewrite Hinit.
  - intros n. destruct (decide (n = stream_name t)) as [->|Hne].
    + apply tracker_of_None, find_idx_None. intros k x Hk.
      apply not_true_iff_false. intros [Hx Heq]%named_true.
      apply list_lookup_insert_Some in Hk as [(_ & <- & _)|[Hki Hk]]; [done|].
      rewrite <-Heq, (find_named_unique ts k x) in Hfind by done. congruence.
    + destruct (tracker_of ts n) as [t'|] eqn:E.
      * apply tracker_of_Some in E as (k & Hk & _ & Hkin & <-).
        apply (tracker_of_lookup _ k); [by apply unique_insert_unused| |done].
        rewrite list_lookup_insert_ne; [done|]. intros ->. congruence.
      * apply tracker_of_None in E. apply tracker_of_None, find_idx_None. intros k x Hk.
        apply not_true_iff_false. intros [Hx <-]%named_true.
        apply list_lookup_insert_Some in Hk as [(_ & <- & _)|[_ Hk]]; [done|].
        by apply (find_named_None _ _ _ _ E Hk).
  - apply (find_idx_is_Some _ _ i unused); [by apply list_lookup_insert_eq|done].
Qed.

(** A name longer than its field is stored truncated but looked up in
    full: every keyframe update of such a stream takes another slot, all
    with the same name, as long as a slot is unused. *)
Theorem long_name_duplicates now now' ts name i :
  (MAX_STREAM_NAME ≤ length name)%nat → (∀ t, t ∈ ts → (length (stream_name t) < MAX_STREAM_NAME)%nat) →
  find_unused ts = Some i →
  let ts1 := update_keyframe_time now now' ts (Some name) in
  ts1 !! i = Some (new_tracker name false now 0) ∧
  find_named ts1 name = None ∧
  (∀ j, find_unused ts1 = Some j →
    let ts2 := update_keyframe_time now now' ts1 (Some name) in
    i ≠ j ∧ ts2 !! i = Some (new_tracker name false now 0) ∧
    ts2 !! j = Some (new_tracker name false now 0)).
Proof.
  intros Hlong Hts Hi.
  assert (Hnone : ∀ l : trackers, (∀ t, t ∈ l → (length (stream_name t) < MAX_STREAM_NAME)%nat) →
                        find_named l name = None).
  { intros l Hl. apply find_idx_None. intros k x Hk. apply not_true_iff_false.
    intros [_ Heq]%named_true. apply list_elem_of_lookup_2, Hl in Hk. rewrite Heq in Hk. lia. }
  apply find_idx_lt in Hi as Hlt. simpl. rewrite (Hnone ts Hts), Hi.
  assert (Hts1 : ∀ t, t ∈ <[i := new_tracker name false now 0]> ts →
                      (length (stream_name t) < MAX_STREAM_NAME)%nat).
  { intros t [k Hk]%list_elem_of_lookup.
    apply list_lookup_insert_Some in Hk as [(_ & <- & _)|[_ Hk%list_elem_of_lookup_2]]; [|auto].
    pose proof (strcpy_trunc_length MAX_STREAM_NAME name). simpl. unfold MAX_STREAM_NAME in *. lia. }
  split; [by apply list_lookup_insert_eq|]. split; [by apply Hnone|].
  intros j Hj. rewrite (Hnone _ Hts1), Hj.
  apply find_idx_lt in Hj as Hjlt. apply find_idx_lookup in Hj as (x & Hx & Hun).
  assert (i ≠ j) by (intros ->; rewrite list_lookup_insert_eq in Hx by done; by simplify_eq).
  split; [done|]. rewrite list_lookup_insert_ne, !list_lookup_insert_eq by done. done.
Qed.
End trackers.

(** ** Witnesses *)

Definition example_ops : list tracker_op :=
  [OpUdp (Some (lit "cam")) true; OpKeyframe 1000 1000 (Some (lit "cam"));
   OpCheck (Some (lit "door")) None].

Definition example_trackers : trackers :=
  foldl apply_op (replicate MAX_STREAMS unused) example_ops.

Lemma example_ops_fit : Forall op_fits example_ops.
Proof.
  unfold example_ops. repeat (apply Forall_cons; split); [..|done].
  all: intros name [= <-]; by apply (bool_decide_unpack _); vm_compute.
Qed.

Lemma example_trackers_unique : unique example_trackers.
Proof.
  assert (Hu : unique (replicate MAX_STREAMS unused)) by apply (unique_unused (replicate MAX_STREAMS unused)).
  unfold example_trackers. revert Hu. generalize (replicate MAX_STREAMS unused).
  pose proof example_ops_fit as Hf. induction Hf as [|o l Ho _ IH]; simpl; [done|].
  intros ts Hu. by apply IH, unique_op.
Qed.

Lemma trackers_unique_witness :
  unique (foldl apply_op (replicate MAX_STREAMS unused) example_ops).
Proof. apply trackers_unique. exact example_ops_fit. Defined.

Lemma keyframe_check_spec_witness :
  ∃ r, last_keyframe_received (update_keyframe_time 1010 1010 example_trackers (Some (lit "cam")))
         (Some (lit "cam")) (Some 1005)
       = (r, Some 1010, update_keyframe_time 1010 1010 example_trackers (Some (lit "cam"))) ∧ r = 1.
Proof.
  destruct (keyframe_check_spec 1010 1010 example_trackers (lit "cam") (Some 1005)
              (update_keyframe_time 1010 1010 example_trackers (Some (lit "cam"))))
    as [(r & Hr & _ & Hone) _].
  - exact example_trackers_unique.
  - by apply (bool_decide_unpack _); vm_compute.
  - left. exists 0%nat. by vm_compute.
  - reflexivity.
  - exists r. split; [exact Hr|]. apply Hone. split; [lia|]. intros c [= <-]. lia.
Defined.

Lemma reset_remove_spec_witness :
  tracker_of (reset_timestamp_tracker example_trackers (Some (lit "cam"))) (lit "cam")
  = Some (mkTracker (lit "cam") AV_NOPTS_VALUE AV_NOPTS_VALUE 0 AV_NOPTS_VALUE true true 0 0).
Proof.
  destruct (reset_remove_spec example_trackers (lit "cam")
              (mkTracker (lit "cam") AV_NOPTS_VALUE AV_NOPTS_VALUE 0 AV_NOPTS_VALUE true true 1000 0))
    as (H & _).
  - exact example_trackers_unique.
  - by vm_compute.
  - rewrite (H (lit "cam")), decide_True by reflexivity. reflexivity.
Defined.

Lemma long_name_duplicates_witness :
  find_named (update_keyframe_time 7 7 (replicate MAX_STREAMS unused)
                (Some (replicate 300 Byte.x61))) (replicate 300 Byte.x61) = None.
Proof.
  refine (proj1 (proj2 (long_name_duplicates 7 7 (replicate MAX_STREAMS unused)
                          (replicate 300 Byte.x61) 0 _ _ _))).
  - by apply (bool_decide_unpack _); vm_compute.
  - intros t [-> _]%elem_of_replicate. by apply (bool_decide_unpack _); vm_compute.
  - by vm_compute.
Defined.
