(* ===== verification/StreamState.v ===== *)
(** * Stream state manager: [src/video/stream_state.c], [include/video/stream_state.h]

    The table of stream state managers and the operations that drive a stream
    through its states.  The components a stream starts and stops (HLS
    streaming, MP4 recording, the recording schedule, telemetry) are the
    interface [StreamServices]; the timestamp trackers are those of
    [TimestampManager].  A [stream_state_manager_t *] is the index of its slot.

    Starting and stopping a stream hold a lock only at their beginning and at
    their end: both are written as a beginning, the unlocked work, and an end.
    The operations compose them sequentially; [interleave] lets any number of
    threads interleave them. *)
From Stdlib Require Import ZArith Lia Bool.
From Stdlib Require Import Strings.Byte.
From Stdlib Require Import SpecFloat.
From stdpp Require Import base numbers list strings relations.
From S2P Require Import Prelude.
From S2P Require Import CFloat.
From S2P Require Import TimestampManager.
#[local] Open Scope Z_scope.

(** ** Data *)

Inductive stream_state_t :=
| STREAM_STATE_INACTIVE
| STREAM_STATE_STARTING
| STREAM_STATE_ACTIVE
| STREAM_STATE_STOPPING
| STREAM_STATE_ERROR
| STREAM_STATE_RECONNECTING.

#[global] Instance stream_state_eq_dec : EqDecision stream_state_t.
Proof. solve_decision. Defined.

Inductive stream_protocol_t := STREAM_PROTOCOL_TCP | STREAM_PROTOCOL_UDP.

#[global] Instance stream_protocol_eq_dec : EqDecision stream_protocol_t.
Proof. solve_decision. Defined.

Definition STREAM_ERR_MODEL_LOAD : Z := 1.
Definition STREAM_ERROR_MESSAGE_MAX : nat := 256.
Definition ETIMEDOUT : Z := 110.
Definition EINVAL : Z := 22.
Definition EIO : Z := 5.

(** The fields of [stream_config_t] this component reads; [cfg_other] stands
    for the ones it only copies. *)
Record stream_config_t := mkStreamConfig {
  cfg_name : cstr;
  cfg_streaming_enabled : bool;
  cfg_record : bool;
  cfg_detection_based_recording : bool;
  cfg_protocol : stream_protocol_t;
  cfg_is_onvif : bool;
  cfg_fps : Z;
  cfg_other : list Z
}.

Record stream_features_t := mkFeatures {
  streaming_enabled : bool;
  recording_enabled : bool;
  detection_enabled : bool;
  motion_detection_enabled : bool
}.

Record stream_protocol_state_t := mkProtocolState {
  protocol : stream_protocol_t;
  is_multicast : bool;
  reconnect_attempts : Z;
  last_reconnect_time : Z;
  buffer_size : Z;
  timeout_ms : Z
}.

Record stream_timestamp_state_t := mkTimestampState {
  ts_last_pts : Z;
  ts_last_dts : Z;
  ts_expected_next_pts : Z;
  ts_discontinuity_count : Z;
  timestamps_initialized : bool
}.

Record stream_stats_t := mkStats {
  bytes_received : Z;
  frames_received : Z;
  frames_dropped : Z;
  errors : Z;
  reconnects : Z;
  bitrate : spec_float;
  stats_fps : spec_float;
  uptime : Z;
  last_frame_time : Z
}.

Record stream_state_manager_t := mkManager {
  name : cstr;
  state : stream_state_t;
  features : stream_features_t;
  protocol_state : stream_protocol_state_t;
  timestamp_state : stream_timestamp_state_t;
  stats : stream_stats_t;
  config : stream_config_t;
  ref_count : Z;
  component_refs : list Z;
  callbacks_enabled : bool;
  last_error_message : cstr
}.

(** [enum stream_component_t] *)
Definition STREAM_COMPONENT_API : nat := 4.
Definition STREAM_COMPONENT_COUNT : nat := 6.

(** Assignments to one member of a manager. *)
Definition set_state (s : stream_state_t) (m : stream_state_manager_t) : stream_state_manager_t :=
  mkManager (name m) s (features m) (protocol_state m) (timestamp_state m) (stats m) (config m)
    (ref_count m) (component_refs m) (callbacks_enabled m) (last_error_message m).
Definition set_features (f : stream_features_t) (m : stream_state_manager_t) : stream_state_manager_t :=
  mkManager (name m) (state m) f (protocol_state m) (timestamp_state m) (stats m) (config m)
    (ref_count m) (component_refs m) (callbacks_enabled m) (last_error_message m).
Definition set_protocol_state (p : stream_protocol_state_t) (m : stream_state_manager_t) : stream_state_manager_t :=
  mkManager (name m) (state m) (features m) p (timestamp_state m) (stats m) (config m)
    (ref_count m) (component_refs m) (callbacks_enabled m) (last_error_message m).
Definition set_timestamp_state (t : stream_timestamp_state_t) (m : stream_state_manager_t) : stream_state_manager_t :=
  mkManager (name m) (state m) (features m) (protocol_state m) t (stats m) (config m)
    (ref_count m) (component_refs m) (callbacks_enabled m) (last_error_message m).
Definition set_stats (s : stream_stats_t) (m : stream_state_manager_t) : stream_state_manager_t :=
  mkManager (name m) (state m) (features m) (protocol_state m) (timestamp_state m) s (config m)
    (ref_count m) (component_refs m) (callbacks_enabled m) (last_error_message m).
Definition set_config (c : stream_config_t) (m : stream_state_manager_t) : stream_state_manager_t :=
  mkManager (name m) (state m) (features m) (protocol_state m) (timestamp_state m) (stats m) c
    (ref_count m) (component_refs m) (callbacks_enabled m) (last_error_message m).
Definition set_refs (n : Z) (refs : list Z) (m : stream_state_manager_t) : stream_state_manager_t :=
  mkManager (name m) (state m) (features m) (protocol_state m) (timestamp_state m) (stats m) (config m)
    n refs (callbacks_enabled m) (last_error_message m).
Definition set_callbacks (b : bool) (m : stream_state_manager_t) : stream_state_manager_t :=
  mkManager (name m) (state m) (features m) (protocol_state m) (timestamp_state m) (stats m) (config m)
    (ref_count m) (component_refs m) b (last_error_message m).
Definition set_message (s : cstr) (m : stream_state_manager_t) : stream_state_manager_t :=
  mkManager (name m) (state m) (features m) (protocol_state m) (timestamp_state m) (stats m) (config m)
    (ref_count m) (component_refs m) (callbacks_enabled m) s.

Definition f64_zero : spec_float := S754_zero false.

Definition zero_stats : stream_stats_t := mkStats 0 0 0 0 0 f64_zero f64_zero 0 0.

(** The manager [create_stream_state] builds. *)
Definition new_manager (c : stream_config_t) : stream_state_manager_t :=
  mkManager (strcpy_trunc MAX_STREAM_NAME (cfg_name c)) STREAM_STATE_INACTIVE
    (mkFeatures (cfg_streaming_enabled c) (cfg_record c) (cfg_detection_based_recording c) false)
    (mkProtocolState (cfg_protocol c) false 0 0 0 0)
    (mkTimestampState AV_NOPTS_VALUE AV_NOPTS_VALUE AV_NOPTS_VALUE 0 false)
    zero_stats c 1
    (<[STREAM_COMPONENT_API := 1]> (replicate STREAM_COMPONENT_COUNT 0)) true [].

(** ** The components a stream drives *)

Class StreamServices (W : Type) := {
  stream_start_hls : cstr → W → Z * W;
  stream_stop_hls : cstr → W → Z * W;
  (** [go2rtc_integration_start_recording] or [start_mp4_recording],
      depending on [USE_GO2RTC] *)
  start_recording : cstr → W → Z * W;
  stop_mp4_recording : cstr → W → Z * W;
  is_recording_scheduled : stream_config_t → W → bool;
  metrics_set_configured_fps : cstr → Z → W → W;
  metrics_record_error : cstr → cstr → W → W;
  metrics_record_reconnect : cstr → W → W
}.

(** ** Operations on one manager

    They are those of a non-[NULL] pointer: on [NULL] each returns at once
    ([-1], [-2] for the wait, [false] or [STREAM_STATE_INACTIVE] for the
    readers). *)

Definition protocol_settings (p : stream_protocol_t) (s : stream_protocol_state_t)
    : stream_protocol_state_t :=
  let '(size, timeout) := match p with
                          | STREAM_PROTOCOL_UDP => (16777216, 10000)
                          | STREAM_PROTOCOL_TCP => (8388608, 5000)
                          end in
  mkProtocolState p (is_multicast s) 0 0 size timeout.

(** The locked part of [update_stream_state_config]; the flag: whether the
    stream has to be restarted. *)
Definition config_section (c : stream_config_t) (m : stream_state_manager_t)
    : bool * stream_state_manager_t :=
  let old := config m in
  let protocol_changing := negb (bool_decide (cfg_protocol old = cfg_protocol c)) in
  let streaming_changing := xorb (cfg_streaming_enabled old) (cfg_streaming_enabled c) in
  let recording_changing := xorb (cfg_record old) (cfg_record c) in
  let detection_changing :=
    xorb (cfg_detection_based_recording old) (cfg_detection_based_recording c) in
  let onvif_changing := xorb (cfg_is_onvif old) (cfg_is_onvif c) in
  let old_state := state m in
  let m := set_config c m in
  let m := set_features
             (mkFeatures (cfg_streaming_enabled c) (cfg_record c)
                (cfg_detection_based_recording c) (motion_detection_enabled (features m))) m in
  let m := if protocol_changing
           then set_protocol_state (protocol_settings (cfg_protocol c) (protocol_state m)) m
           else m in
  (bool_decide (old_state = STREAM_STATE_ACTIVE) &&
     (protocol_changing || streaming_changing || recording_changing || detection_changing
        || onvif_changing), m).

(** [start_stream_with_state], first locked section: [None] when the stream
    already runs, else the feature flags read. *)
Definition start_begin (m : stream_state_manager_t)
    : option (bool * bool * stream_state_manager_t) :=
  if bool_decide (state m = STREAM_STATE_ACTIVE) then None
  else Some (streaming_enabled (features m), recording_enabled (features m),
             set_state STREAM_STATE_STARTING m).

(** Last locked section: the result and the state. *)
Definition start_end (any_component_started : bool) (m : stream_state_manager_t)
    : Z * stream_state_manager_t :=
  if any_component_started then (0, set_state STREAM_STATE_ACTIVE m)
  else (-1, set_state STREAM_STATE_ERROR m).

(** [stop_stream_with_state], first locked section. *)
Inductive stop_outcome :=
| AlreadyStopped
| AlreadyStopping
| Stopping (m : stream_state_manager_t).

Definition stop_begin (m : stream_state_manager_t) : stop_outcome :=
  if bool_decide (state m = STREAM_STATE_INACTIVE) then AlreadyStopped else
  if bool_decide (state m = STREAM_STATE_STOPPING) then AlreadyStopping else
  let m1 := set_state STREAM_STATE_STOPPING m in
  Stopping (if negb (streaming_enabled (features m)) then set_callbacks false m1 else m1).

Definition stop_end (m : stream_state_manager_t) : stream_state_manager_t :=
  set_callbacks true (set_state STREAM_STATE_INACTIVE m).

(** [struct timeval] *)
Abbreviation timeval := (Z * Z)%type.

Definition deadline (now : timeval) (timeout_ms : Z) : timeval :=
  let sec := now.1 + cdiv timeout_ms 1000 in
  let usec := now.2 + cmod timeout_ms 1000 * 1000 in
  if usec >=? 1000000 then (sec + 1, usec - 1000000) else (sec, usec).

Definition reached (end_time current : timeval) : bool :=
  (current.1 >? end_time.1) || ((current.1 =? end_time.1) && (current.2 >=? end_time.2)).

(** The polling loop: what each poll sees of the manager, and the time after
    it.  [None]: still polling after the given ones. *)
Fixpoint wait_loop (end_time : timeval) (polls : list (stream_state_manager_t * timeval))
    : option (Z * stream_state_manager_t) :=
  match polls with
  | [] => None
  | (m, current) :: polls =>
      if bool_decide (state m = STREAM_STATE_INACTIVE) then Some (0, m) else
      if reached end_time current then Some (-1, m) else wait_loop end_time polls
  end.

Definition wait_for_stream_stop (now : timeval) (timeout_ms : Z)
    (polls : list (stream_state_manager_t * timeval)) : option (Z * stream_state_manager_t) :=
  wait_loop (deadline now timeout_ms) polls.

Definition update_stream_timestamps (m : stream_state_manager_t) (pts dts : Z)
    : Z * stream_state_manager_t :=
  let t := timestamp_state m in
  let expected :=
    if negb (timestamps_initialized t) then pts
    else pts + (if cfg_fps (config m) >? 0 then cdiv 90000 (cfg_fps (config m)) else 3000) in
  (0, set_timestamp_state (mkTimestampState pts dts expected (ts_discontinuity_count t) true) m).

(** ** Reference counts *)

Definition stream_state_add_ref (component : Z) (m : stream_state_manager_t)
    : Z * stream_state_manager_t :=
  if (component <? 0) || (component >=? Z.of_nat STREAM_COMPONENT_COUNT) then (-1, m) else
  let m := set_refs (ref_count m + 1) (alter (λ n, n + 1) (Z.to_nat component) (component_refs m)) m in
  (ref_count m, m).

Definition stream_state_release_ref (component : Z) (m : stream_state_manager_t)
    : Z * stream_state_manager_t :=
  if (component <? 0) || (component >=? Z.of_nat STREAM_COMPONENT_COUNT) then (-1, m) else
  if default 0 (component_refs m !! Z.to_nat component) <=? 0 then (ref_count m, m) else
  let m := set_refs (ref_count m - 1) (alter (λ n, n - 1) (Z.to_nat component) (component_refs m)) m in
  (ref_count m, m).

Definition stream_state_get_ref_count (m : stream_state_manager_t) : Z := ref_count m.
Definition is_stream_state_stopping (m : stream_state_manager_t) : bool :=
  bool_decide (state m = STREAM_STATE_STOPPING).
Definition set_stream_callbacks_enabled (m : stream_state_manager_t) (b : bool)
    : Z * stream_state_manager_t := (0, set_callbacks b m).
Definition are_stream_callbacks_enabled (m : stream_state_manager_t) : bool := callbacks_enabled m.
Definition get_stream_operational_state (m : stream_state_manager_t) : stream_state_t := state m.
Definition get_stream_statistics (m : stream_state_manager_t) : Z * stream_stats_t := (0, stats m).

(** ** Operations that drive the components *)

Section operations.
Context {W : Type} `{StreamServices W}.
Implicit Types (w : W) (m : stream_state_manager_t) (ts : trackers).

(** The unlocked work of a start: what it starts, and whether anything
    started. *)
Definition start_work (streaming recording : bool) m w : bool * W :=
  let '(any, w) :=
    if streaming then
      let '(hls_result, w) := stream_start_hls (name m) w in (hls_result =? 0, w)
    else (false, w) in
  if recording then
    if negb (is_recording_scheduled (config m) w) then (true, w)
    else let '(mp4_result, w) := start_recording (name m) w in
         (any || (mp4_result =? 0), w)
  else (any, w).

Definition start_stream_with_state m w : Z * stream_state_manager_t * W :=
  match start_begin m with
  | None => (0, m, w)
  | Some (streaming, recording, m) =>
      let '(any, w) := start_work streaming recording m w in
      let '(r, m) := start_end any m in
      let w := if any && (cfg_fps (config m) >? 0)
               then metrics_set_configured_fps (name m) (cfg_fps (config m)) w else w in
      (r, m, w)
  end.

Definition stop_work m w ts : W * trackers :=
  let '(_, w) := stream_stop_hls (name m) w in
  let '(_, w) := stop_mp4_recording (name m) w in
  (w, reset_timestamp_tracker ts (Some (name m))).

(** [polls]: the start and the polls of the wait for another thread's stop;
    [None] when it has not come to an end. *)
Definition stop_stream_with_state m w ts (wait_for_completion : bool)
    (now : timeval) (polls : list (stream_state_manager_t * timeval))
    : option (Z * stream_state_manager_t * W * trackers) :=
  match stop_begin m with
  | AlreadyStopped => Some (0, m, w, ts)
  | AlreadyStopping =>
      if wait_for_completion then
        '(r, m) ← wait_for_stream_stop now 10000 polls; Some (r, m, w, ts)
      else Some (0, m, w, ts)
  | Stopping m =>
      let '(w, ts) := stop_work m w ts in Some (0, stop_end m, w, ts)
  end.

(** [stop_stream_with_state (state, false); start_stream_with_state (state);] *)
Definition restart m w ts : option (stream_state_manager_t * W * trackers) :=
  '(_, m, w, ts) ← stop_stream_with_state m w ts false (0, 0) [];
  let '(_, m, w) := start_stream_with_state m w in
  Some (m, w, ts).

Definition update_stream_state_config m w ts (c : option stream_config_t)
    : option (Z * stream_state_manager_t * W * trackers) :=
  match c with
  | None => Some (-1, m, w, ts)
  | Some c =>
      let '(again, m) := config_section c m in
      if again then '(m, w, ts) ← restart m w ts; Some (0, m, w, ts)
      else Some (0, m, w, ts)
  end.

Definition update_stream_protocol m w ts (p : stream_protocol_t)
    : option (Z * stream_state_manager_t * W * trackers) :=
  if bool_decide (cfg_protocol (config m) = p) then Some (0, m, w, ts) else
  let c := config m in
  let m := set_config (mkStreamConfig (cfg_name c) (cfg_streaming_enabled c) (cfg_record c)
             (cfg_detection_based_recording c) p (cfg_is_onvif c) (cfg_fps c) (cfg_other c)) m in
  let m := set_protocol_state (protocol_settings p (protocol_state m)) m in
  if bool_decide (state m = STREAM_STATE_ACTIVE) then
    '(m, w, ts) ← restart m w ts; Some (0, m, w, ts)
  else Some (0, m, w, ts).

(** The locked part of [set_stream_feature]: [None] for an unknown feature,
    else whether the flag changed. *)
Definition feature_section m (feature : cstr) (enabled : bool)
    : option (bool * stream_state_manager_t) :=
  let f := features m in
  let c := config m in
  if streq feature (lit "streaming") then
    Some (if xorb (streaming_enabled f) enabled then
            (true, set_config (mkStreamConfig (cfg_name c) enabled (cfg_record c)
                     (cfg_detection_based_recording c) (cfg_protocol c) (cfg_is_onvif c)
                     (cfg_fps c) (cfg_other c))
                   (set_features (mkFeatures enabled (recording_enabled f)
                      (detection_enabled f) (motion_detection_enabled f)) m))
          else (false, m))
  else if streq feature (lit "recording") then
    Some (if xorb (recording_enabled f) enabled then
            (true, set_config (mkStreamConfig (cfg_name c) (cfg_streaming_enabled c) enabled
                     (cfg_detection_based_recording c) (cfg_protocol c) (cfg_is_onvif c)
                     (cfg_fps c) (cfg_other c))
                   (set_features (mkFeatures (streaming_enabled f) enabled
                      (detection_enabled f) (motion_detection_enabled f)) m))
          else (false, m))
  else if streq feature (lit "detection") then
    Some (if xorb (detection_enabled f) enabled then
            (true, set_config (mkStreamConfig (cfg_name c) (cfg_streaming_enabled c)
                     (cfg_record c) enabled (cfg_protocol c) (cfg_is_onvif c)
                     (cfg_fps c) (cfg_other c))
                   (set_features (mkFeatures (streaming_enabled f) (recording_enabled f)
                      enabled (motion_detection_enabled f)) m))
          else (false, m))
  else if streq feature (lit "motion_detection") then
    Some (if xorb (motion_detection_enabled f) enabled then
            (true, set_features (mkFeatures (streaming_enabled f) (recording_enabled f)
                      (detection_enabled f) enabled) m)
          else (false, m))
  else None.

Definition set_stream_feature m w ts (feature : option cstr) (enabled : bool)
    : option (Z * stream_state_manager_t * W * trackers) :=
  match feature with
  | None => Some (-1, m, w, ts)
  | Some feature =>
      match feature_section m feature enabled with
      | None => Some (-1, m, w, ts)
      | Some (false, m) => Some (0, m, w, ts)
      | Some (true, m) =>
          let active := bool_decide (state m = STREAM_STATE_ACTIVE) in
          if streq feature (lit "recording") then
            let w := if enabled then
                       if active then (start_recording (name m) w).2 else w
                     else (stop_mp4_recording (name m) w).2 in
            Some (0, m, w, ts)
          else if active then
            if streq feature (lit "streaming") then
              Some (0, m, if enabled then (stream_start_hls (name m) w).2
                          else (stream_stop_hls (name m) w).2, ts)
            else '(m, w, ts) ← restart m w ts; Some (0, m, w, ts)
          else Some (0, m, w, ts)
      end
  end.

Definition error_type (error_code : Z) : cstr :=
  if error_code =? - ETIMEDOUT then lit "timeout"
  else if error_code =? - EINVAL then lit "protocol"
  else if error_code =? - EIO then lit "io"
  else if error_code =? STREAM_ERR_MODEL_LOAD then lit "model"
  else lit "io".

(** The locked part of [handle_stream_error]; the flag: reconnect. *)
Definition error_section m w (now error_code : Z) (message : option cstr)
    : bool * stream_state_manager_t * W :=
  let s := stats m in
  let count_error (r : Z) := mkStats (bytes_received s) (frames_received s) (frames_dropped s)
    (u64 (errors s + 1)) r (bitrate s) (stats_fps s) (uptime s) (last_frame_time s) in
  let m := set_message match message with
                       | Some e => strcpy_trunc STREAM_ERROR_MESSAGE_MAX e
                       | None => []
                       end m in
  let w := metrics_record_error (name m) (error_type error_code) w in
  let permanent_error := error_code =? STREAM_ERR_MODEL_LOAD in
  if bool_decide (state m = STREAM_STATE_ACTIVE) && negb permanent_error then
    let p := protocol_state m in
    let m := set_stats (count_error (u64 (reconnects s + 1))) m in
    let m := set_protocol_state (mkProtocolState (protocol p) (is_multicast p)
               (reconnect_attempts p + 1) now (buffer_size p) (timeout_ms p)) m in
    (true, set_state STREAM_STATE_RECONNECTING m, metrics_record_reconnect (name m) w)
  else
    (false, set_state STREAM_STATE_ERROR (set_stats (count_error (reconnects s)) m), w).

Definition handle_stream_error m w ts (now error_code : Z) (message : option cstr)
    : option (Z * stream_state_manager_t * W * trackers) :=
  let '(should_reconnect, m, w) := error_section m w now error_code message in
  if should_reconnect then '(m, w, ts) ← restart m w ts; Some (0, m, w, ts)
  else Some (0, m, w, ts).

(** ** The table *)

Record state_table := mkTable {
  stream_states : list (option stream_state_manager_t);
  table_initialized : bool
}.

Definition init_stream_state_manager (calloc_ok : bool) (max_streams : Z) (t : state_table)
    : Z * state_table :=
  if table_initialized t then (0, t) else
  let max_streams := if max_streams <? 1 then 1 else max_streams in
  let max_streams := if max_streams >? Z.of_nat MAX_STREAMS
                     then Z.of_nat MAX_STREAMS else max_streams in
  if negb calloc_ok then (-1, t) else
  (0, mkTable (replicate (Z.to_nat max_streams) None) true).

(** The loop of [shutdown_stream_state_manager] over the slots. *)
Fixpoint shutdown_slots (l : list (option stream_state_manager_t)) w ts : option (W * trackers) :=
  match l with
  | [] => Some (w, ts)
  | None :: l => shutdown_slots l w ts
  | Some m :: l =>
      '(w, ts) ← (if bool_decide (state m = STREAM_STATE_ACTIVE) ||
                     bool_decide (state m = STREAM_STATE_STARTING)
                  then '(_, _, w, ts) ← stop_stream_with_state m w ts false (0, 0) [];
                       Some (w, ts)
                  else Some (w, ts));
      shutdown_slots l w ts
  end.

Definition shutdown_stream_state_manager (t : state_table) w ts : option (state_table * W * trackers) :=
  if negb (table_initialized t) then Some (t, w, ts) else
  '(w, ts) ← shutdown_slots (stream_states t) w ts;
  Some (mkTable [] false, w, ts).

Definition slot_empty (s : option stream_state_manager_t) : bool :=
  match s with None => true | Some _ => false end.
Definition slot_named (n : cstr) (s : option stream_state_manager_t) : bool :=
  match s with None => false | Some m => streq (name m) n end.

(** [alloc_ok]: the allocation and both mutex initialisations succeed. *)
Definition create_stream_state (alloc_ok : bool) (t : state_table) (c : option stream_config_t)
    : option nat * state_table :=
  match c with
  | None => (None, t)
  | Some c =>
      if negb (table_initialized t) then (None, t) else
      match find_idx slot_empty (stream_states t) with
      | None => (None, t)
      | Some slot =>
          match find_idx (slot_named (cfg_name c)) (stream_states t) with
          | Some _ => (None, t)
          | None =>
              if negb alloc_ok then (None, t) else
              (Some slot, mkTable (<[slot := Some (new_manager c)]> (stream_states t)) true)
          end
      end
  end.

Definition get_stream_state_by_name (t : state_table) (n : option cstr) : option nat :=
  match n with
  | None => None
  | Some n => if negb (table_initialized t) then None
              else find_idx (slot_named n) (stream_states t)
  end.

Definition get_stream_state_count (t : state_table) : nat :=
  if negb (table_initialized t) then O
  else count_if (λ s, negb (slot_empty s)) (stream_states t).

Definition get_stream_state_by_index (t : state_table) (index : Z) : option stream_state_manager_t :=
  if (index <? 0) || (index >=? Z.of_nat (length (stream_states t))) || negb (table_initialized t)
  then None else mjoin (stream_states t !! Z.to_nat index).

Definition remove_stream_state (t : state_table) (slot : nat) w ts
    (now : timeval) (polls : list (stream_state_manager_t * timeval))
    : option (Z * state_table * W * trackers) :=
  if negb (table_initialized t) then Some (-1, t, w, ts) else
  match mjoin (stream_states t !! slot) with
  | None => Some (-1, t, w, ts)
  | Some m =>
      if ref_count m >? 1 then Some (-1, t, w, ts) else
      '(w, ts) ← (if bool_decide (state m = STREAM_STATE_ACTIVE) ||
                     bool_decide (state m = STREAM_STATE_STARTING) ||
                     bool_decide (state m = STREAM_STATE_RECONNECTING) ||
                     bool_decide (state m = STREAM_STATE_STOPPING)
                  then '(_, _, w, ts) ← stop_stream_with_state m w ts true now polls;
                       Some (w, ts)
                  else Some (w, ts));
      Some (0, mkTable (<[slot := None]> (stream_states t)) true, w,
            remove_timestamp_tracker ts (Some (name m)))
  end.
End operations.

(** ** Reference counts *)

Definition sum (l : list Z) : Z := foldr Z.add 0 l.

Record refs_ok (m : stream_state_manager_t) : Prop := {
  refs_length : length (component_refs m) = STREAM_COMPONENT_COUNT;
  refs_nonneg : Forall (λ n, 0 ≤ n) (component_refs m);
  refs_sum : ref_count m = sum (component_refs m)
}.

Lemma sum_alter f i l n :
  l !! i = Some n → sum (alter f i l) = sum l + (f n - n).
Proof.
  revert i. induction l as [|x l IH]; intros [|i] Hi; simplify_eq/=; [lia|].
  rewrite (IH i) by done. lia.
Qed.

Lemma sum_bounds l :
  Forall (λ n, 0 ≤ n) l → 0 ≤ sum l ∧ ∀ i n, l !! i = Some n → n ≤ sum l.
Proof.
  induction 1 as [|x l Hx Hl [IH1 IH2]]; simpl; [done|].
  split; [lia|]. intros [|i] n Hi; simplify_eq/=; [lia|]. specialize (IH2 i n Hi). lia.
Qed.

Lemma Forall_alter_nonneg f i l :
  Forall (λ n, 0 ≤ n) l → (∀ n, l !! i = Some n → 0 ≤ n → 0 ≤ f n) →
  Forall (λ n, 0 ≤ n) (alter f i l).
Proof.
  intros Hl Hf. apply Forall_lookup. intros j n Hj. rewrite Forall_lookup in Hl.
  destruct (decide (i = j)) as [->|Hne].
  - rewrite list_lookup_alter_eq in Hj. apply fmap_Some in Hj as (x & Hx & ->).
    by apply (Hf x); [|eapply Hl].
  - rewrite list_lookup_alter_ne in Hj by done. by eapply Hl.
Qed.

Inductive ref_op := AddRef (component : Z) | ReleaseRef (component : Z).

Definition apply_ref (m : stream_state_manager_t) (o : ref_op) : stream_state_manager_t :=
  match o with
  | AddRef c => (stream_state_add_ref c m).2
  | ReleaseRef c => (stream_state_release_ref c m).2
  end.

Definition is_component (c : Z) : Prop := 0 ≤ c < Z.of_nat STREAM_COMPONENT_COUNT.

Lemma component_guard c :
  (c <? 0) || (c >=? Z.of_nat STREAM_COMPONENT_COUNT) = false ↔ is_component c.
Proof. unfold is_component. rewrite orb_false_iff, Z.ltb_ge, Z.geb_leb, Z.leb_gt. done. Qed.

Lemma refs_ok_op m o : refs_ok m → refs_ok (apply_ref m o).
Proof.
  intros [Hlen Hpos Hsum]. destruct o as [c|c]; simpl; unfold stream_state_add_ref, stream_state_release_ref.
  - destruct (_ || _) eqn:E; [done|]. apply component_guard in E. unfold is_component in E.
    destruct (lookup_lt_is_Some_2 (component_refs m) (Z.to_nat c)) as [n Hn]; [lia|].
    constructor; simpl.
    + by rewrite length_alter.
    + apply Forall_alter_nonneg; [done|]. intros. lia.
    + rewrite (sum_alter _ _ _ n) by done. lia.
  - destruct (_ || _) eqn:E; [done|]. apply component_guard in E. unfold is_component in E.
    destruct (lookup_lt_is_Some_2 (component_refs m) (Z.to_nat c)) as [n Hn]; [lia|].
    rewrite Hn. simpl. destruct (n <=? 0) eqn:Epos; [done|]. unbool.
    constructor; simpl.
    + by rewrite length_alter.
    + apply Forall_alter_nonneg; [done|]. intros. simplify_eq. lia.
    + rewrite (sum_alter _ _ _ n) by done. lia.
Qed.

Lemma refs_ok_new c : refs_ok (new_manager c).
Proof. constructor; simpl; [done| |done]. by apply (bool_decide_unpack _). Qed.

(** Whatever references the components of a stream add and release, in
    any order and any number of times, its total is the sum of the components'
    counts, none of which goes below zero: the total reaches at most one only
    when the components hold at most one reference together, so
    [remove_stream_state] never frees a stream that is otherwise referenced. *)
Theorem ref_counts_consistent c ops :
  let m := foldl apply_ref (new_manager c) ops in
  refs_ok m ∧ 0 ≤ ref_count m ∧
  (∀ i n, component_refs m !! i = Some n → n ≤ ref_count m) ∧
  (ref_count m ≤ 1 → ∀ i j, i ≠ j → ∀ a b,
     component_refs m !! i = Some a → component_refs m !! j = Some b → a + b ≤ 1).
Proof.
  intros m. assert (Hok : refs_ok m).
  { subst m. generalize (refs_ok_new c). generalize (new_manager c).
    induction ops as [|o ops IH]; intros m Hm; simpl; [done|]. by apply IH, refs_ok_op. }
  destruct Hok as [Hlen Hpos Hsum]. split; [done|]. clear Hlen.
  destruct (sum_bounds _ Hpos) as [Hge Hle1]. split; [lia|]. split.
  { intros i n Hi. rewrite Hsum. eauto. }
  intros Hone i j Hij a b Ha Hb. rewrite Hsum in Hone.
  assert (Hz : ∀ n, component_refs m !! i = Some n → sum (alter (λ _, 0) i (component_refs m)) = sum (component_refs m) - n).
  { intros n Hn. rewrite (sum_alter _ _ _ n) by done. lia. }
  specialize (Hz a Ha).
  destruct (sum_bounds (alter (λ _, 0) i (component_refs m))) as [_ Hle2].
  { apply Forall_alter_nonneg; [done|]. done. }
  specialize (Hle2 j b). rewrite list_lookup_alter_ne in Hle2 by done.
  specialize (Hle2 Hb). lia.
Qed.

(** ** Sequential behaviour of a stream *)

Section sequential.
Context {W : Type} `{StreamServices W}.
Implicit Types (w : W) (m : stream_state_manager_t) (ts : trackers).

(** Starting a stream that is not active ends in [ACTIVE] with result 0
    exactly when a component it enables started (a recording outside its
    schedule counts as started) and in [ERROR] with -1 otherwise; nothing
    but the state of the manager changes, and telemetry learns the configured
    rate only of streams that run.  An active stream is left alone. *)
Theorem start_stream_with_state_spec m w r m' w' :
  start_stream_with_state m w = (r, m', w') →
  if decide (state m = STREAM_STATE_ACTIVE) then r = 0 ∧ m' = m ∧ w' = w else
  let f := features m in
  let hls := stream_start_hls (name m) w in
  let w1 := if streaming_enabled f then hls.2 else w in
  let rec := start_recording (name m) w1 in
  let deferred := negb (is_recording_scheduled (config m) w1) in
  let w2 := if recording_enabled f && negb deferred then rec.2 else w1 in
  let started := (streaming_enabled f && (hls.1 =? 0)) ||
                 (recording_enabled f && (deferred || (rec.1 =? 0))) in
  m' = set_state (if started then STREAM_STATE_ACTIVE else STREAM_STATE_ERROR) m ∧
  r = (if started then 0 else -1) ∧
  w' = (if started && (cfg_fps (config m) >? 0)
        then metrics_set_configured_fps (name m) (cfg_fps (config m)) w2 else w2).
Proof.
  unfold start_stream_with_state, start_begin, start_work. intros Heq.
  destruct (decide (state m = STREAM_STATE_ACTIVE)) as [E|E].
  { rewrite bool_decide_eq_true_2 in Heq by done. by simplify_eq. }
  rewrite bool_decide_eq_false_2 in Heq by done. simpl in *.
  destruct (streaming_enabled (features m)), (recording_enabled (features m)); simpl in *;
    repeat (match type of Heq with
            | context [stream_start_hls ?c ?w] => destruct (stream_start_hls c w) as [? ?]
            | context [is_recording_scheduled ?c ?w] => destruct (is_recording_scheduled c w)
            | context [start_recording ?c ?w] => destruct (start_recording c w) as [? ?]
            | context [?z =? 0] => destruct (z =? 0)
            | context [cfg_fps ?c >? 0] => destruct (cfg_fps c >? 0)
            end; simpl in *);
    rewrite ?orb_true_r; simplify_eq; split_and!; reflexivity.
Qed.

(** Stopping a stream always returns 0 and, unless a stop of it is in
    progress, leaves it [INACTIVE] with callbacks enabled, whatever HLS and
    MP4 answer; both are always told to stop and its timestamp tracker is
    reset, unless it was stopped already; a second stop changes nothing. *)
Theorem stop_stream_with_state_spec m w ts wait now polls :
  state m ≠ STREAM_STATE_STOPPING →
  ∃ m' w' ts', stop_stream_with_state m w ts wait now polls = Some (0, m', w', ts') ∧
    state m' = STREAM_STATE_INACTIVE ∧
    (state m ≠ STREAM_STATE_INACTIVE →
       callbacks_enabled m' = true ∧
       m' = set_callbacks true (set_state STREAM_STATE_INACTIVE m) ∧
       w' = (stop_mp4_recording (name m) (stream_stop_hls (name m) w).2).2 ∧
       ts' = reset_timestamp_tracker ts (Some (name m))) ∧
    stop_stream_with_state m' w' ts' wait now polls = Some (0, m', w', ts').
Proof.
  intros Hst. unfold stop_stream_with_state, stop_begin.
  destruct (decide (state m = STREAM_STATE_INACTIVE)) as [E|E].
  { rewrite (bool_decide_eq_true_2 (state m = _)) by done. exists m, w, ts.
    split_and!; [done|done|done|]. by rewrite bool_decide_eq_true_2. }
  rewrite !(bool_decide_eq_false_2 (state m = _)) by done. unfold stop_work.
  destruct (streaming_enabled (features m)); simpl;
    destruct (stream_stop_hls (name m) w) as [? w1] eqn:E1; simpl;
    destruct (stop_mp4_recording (name m) w1) as [? w2] eqn:E2; simpl;
    (eexists _, _, _; split; [done|]; split_and!; [done|intros _; by split_and!|done]).
Qed.

Lemma restart_spec m w ts :
  state m ≠ STREAM_STATE_STOPPING →
  ∃ m' w' ts', restart m w ts = Some (m', w', ts') ∧
    (state m' = STREAM_STATE_ACTIVE ∨ state m' = STREAM_STATE_ERROR) ∧
    stats m' = stats m ∧ protocol_state m' = protocol_state m ∧
    last_error_message m' = last_error_message m ∧ features m' = features m.
Proof.
  intros Hst. unfold restart, stop_stream_with_state, stop_begin.
  assert (Hstart : ∀ m1 w1, state m1 = STREAM_STATE_INACTIVE →
    ∃ r m' w', start_stream_with_state m1 w1 = (r, m', w') ∧
      (state m' = STREAM_STATE_ACTIVE ∨ state m' = STREAM_STATE_ERROR) ∧
      stats m' = stats m1 ∧ protocol_state m' = protocol_state m1 ∧
      last_error_message m' = last_error_message m1 ∧ features m' = features m1).
  { intros m1 w1 E1. unfold start_stream_with_state, start_begin. rewrite E1. simpl.
    destruct (start_work _ _ _ _) as [[|] w2]; simpl; eexists _, _, _; split_and!; eauto. }
  destruct (decide (state m = STREAM_STATE_INACTIVE)) as [E|E].
  { rewrite (bool_decide_eq_true_2 (state m = _)) by done. csimpl.
    destruct (Hstart m w E) as (r & m' & w' & -> & ?). by exists m', w', ts. }
  rewrite !(bool_decide_eq_false_2 (state m = _)) by done.
  destruct (streaming_enabled (features m)); simpl;
    destruct (stop_work _ w ts) as [w1 ts1]; csimpl;
    match goal with |- context [start_stream_with_state ?m1 w1] =>
      destruct (Hstart m1 w1 eq_refl) as (r & m' & w' & -> & ?)
    end; by exists m', w', ts1.
Qed.

(** An error on an active stream, unless permanent, is counted once as
    an error and once as a reconnection, and the stream is restarted: it
    ends [ACTIVE] or in [ERROR].  Any other error only sets [ERROR].  The
    message is stored, and is still there when the reconnection succeeds. *)
Theorem handle_stream_error_spec m w ts now code msg :
  ∃ m' w' ts', handle_stream_error m w ts now code msg = Some (0, m', w', ts') ∧
    errors (stats m') = u64 (errors (stats m) + 1) ∧
    last_error_message m' = default [] (strcpy_trunc STREAM_ERROR_MESSAGE_MAX <$> msg) ∧
    features m' = features m ∧
    if decide (state m = STREAM_STATE_ACTIVE ∧ code ≠ STREAM_ERR_MODEL_LOAD) then
      reconnects (stats m') = u64 (reconnects (stats m) + 1) ∧
      reconnect_attempts (protocol_state m') = reconnect_attempts (protocol_state m) + 1 ∧
      last_reconnect_time (protocol_state m') = now ∧
      (state m' = STREAM_STATE_ACTIVE ∨ state m' = STREAM_STATE_ERROR)
    else
      state m' = STREAM_STATE_ERROR ∧ reconnects (stats m') = reconnects (stats m) ∧
      protocol_state m' = protocol_state m ∧ ts' = ts.
Proof.
  unfold handle_stream_error, error_section. simpl.
  destruct (decide (state m = STREAM_STATE_ACTIVE ∧ code ≠ STREAM_ERR_MODEL_LOAD)) as [[E1 E2]|E].
  - rewrite bool_decide_eq_true_2 by done. rewrite (proj2 (Z.eqb_neq _ _)) by done. simpl.
    match goal with |- context [restart ?m1 ?w1 ts] =>
      destruct (restart_spec m1 w1 ts) as (m' & w' & ts' & -> & Hst & Hs & Hp & Hm & Hf); [done|]
    end. csimpl. exists m', w', ts'. rewrite Hs, Hp, Hm, Hf. split_and!; try done.
    by destruct msg.
  - assert (bool_decide (state m = STREAM_STATE_ACTIVE) && negb (code =? STREAM_ERR_MODEL_LOAD)
            = false) as ->.
    { apply not_true_iff_false. intros ?. unbool. apply E. auto. }
    eexists _, _, _. split; [done|]. simpl. split_and!; try done. by destruct msg.
Qed.
End sequential.

(** ** Interleaving

    Where a thread is between the locked sections of the operations.  A thread
    that restarts a stream begins a start when its stop is over. *)

Inductive phase :=
| Idle
| BeginStop (then_start : bool)
| Stopping_ (then_start : bool)
| BeginStart
| Starting_ (any_component_started : bool).

Definition after_stop (then_start : bool) : phase := if then_start then BeginStart else Idle.

(** One locked section of one thread.  What the unlocked work starts is any
    boolean: it depends on the other components. *)
Inductive section_step : stream_state_manager_t * phase → stream_state_manager_t * phase → Prop :=
| sec_call_stop m : section_step (m, Idle) (m, BeginStop false)
| sec_call_start m : section_step (m, Idle) (m, BeginStart)
| sec_stop_skip m r :
    stop_begin m = AlreadyStopped ∨ stop_begin m = AlreadyStopping →
    section_step (m, BeginStop r) (m, after_stop r)
| sec_stop_begin m m' r :
    stop_begin m = Stopping m' → section_step (m, BeginStop r) (m', Stopping_ r)
| sec_stop_end m r : section_step (m, Stopping_ r) (stop_end m, after_stop r)
| sec_start_skip m : start_begin m = None → section_step (m, BeginStart) (m, Idle)
| sec_start_begin m m' s r any :
    start_begin m = Some (s, r, m') → section_step (m, BeginStart) (m', Starting_ any)
| sec_start_end m any : section_step (m, Starting_ any) ((start_end any m).2, Idle)
| sec_error {W} `{StreamServices W} m (w : W) now code msg r m' w' :
    error_section m w now code msg = (r, m', w') →
    section_step (m, Idle) (m', if r then BeginStop true else Idle)
| sec_config m c r m' :
    config_section c m = (r, m') →
    section_step (m, Idle) (m', if r then BeginStop true else Idle)
| sec_feature {W} `{StreamServices W} m feature enabled changed m' r :
    feature_section m feature enabled = Some (changed, m') →
    section_step (m, Idle) (m', if r : bool then BeginStop true else Idle)
| sec_refs m o : section_step (m, Idle) (apply_ref m o, Idle)
| sec_timestamps m pts dts : section_step (m, Idle) ((update_stream_timestamps m pts dts).2, Idle).

(** Any thread takes a step. *)
Inductive interleave : stream_state_manager_t * list phase → stream_state_manager_t * list phase → Prop :=
| interleave_step m ps i p m' p' :
    ps !! i = Some p → section_step (m, p) (m', p') →
    interleave (m, ps) (m', <[i := p']> ps).

Record phases_ok (m : stream_state_manager_t) (ps : list phase) : Prop := {
  ok_starting : state m = STREAM_STATE_STARTING → ∃ i any, ps !! i = Some (Starting_ any);
  ok_stopping : state m = STREAM_STATE_STOPPING → ∃ i r, ps !! i = Some (Stopping_ r);
  ok_reconnecting : state m = STREAM_STATE_RECONNECTING → ∃ i, ps !! i = Some (BeginStop true);
  ok_callbacks : callbacks_enabled m = false → ∃ i r, ps !! i = Some (Stopping_ r)
}.

(** A thread that moves from a phase that justifies nothing keeps every
    justification. *)
Lemma keep_phase {A} (P : A → phase) (ps : list phase) i p p' :
  ps !! i = Some p → (∀ a, p ≠ P a) →
  (∃ k a, ps !! k = Some (P a)) → ∃ k a, <[i := p']> ps !! k = Some (P a).
Proof.
  intros Hi Hp (k & a & Hk). exists k, a. rewrite list_lookup_insert_ne; [done|].
  intros ->. rewrite Hi in Hk. simplify_eq. by apply (Hp a).
Qed.

Lemma keep_reconnect (ps : list phase) i p p' :
  ps !! i = Some p → p ≠ BeginStop true →
  (∃ k, ps !! k = Some (BeginStop true)) → ∃ k, <[i := p']> ps !! k = Some (BeginStop true).
Proof.
  intros Hi Hp (k & Hk). exists k. rewrite list_lookup_insert_ne; [done|].
  intros ->. rewrite Hi in Hk. by simplify_eq.
Qed.

(** A section that leaves the state and the callbacks alone. *)
Lemma phases_ok_keep m m' ps i p p' :
  phases_ok m ps → ps !! i = Some p → state m' = state m →
  callbacks_enabled m' = callbacks_enabled m →
  (∀ any, p ≠ Starting_ any) → (∀ r, p ≠ Stopping_ r) →
  (p = BeginStop true → state m ≠ STREAM_STATE_RECONNECTING) →
  phases_ok m' (<[i := p']> ps).
Proof.
  intros [H1 H2 H3 H4] Hi Hs Hc Hp1 Hp2 Hp3. constructor; rewrite ?Hs, ?Hc.
  - intros E. by apply (keep_phase Starting_ ps i p); [..|apply H1].
  - intros E. by apply (keep_phase Stopping_ ps i p); [..|apply H2].
  - intros E. apply (keep_reconnect ps i p); [done| |by apply H3]. intros ->. by apply Hp3.
  - intros E. by apply (keep_phase Stopping_ ps i p); [..|apply H4].
Qed.

Lemma feature_section_state {W} `{StreamServices W} m feature enabled changed m' :
  feature_section m feature enabled = Some (changed, m') →
  state m' = state m ∧ callbacks_enabled m' = callbacks_enabled m.
Proof. unfold feature_section. intros Heq. repeat case_match; by simplify_eq. Qed.

Lemma config_section_state c m r m' :
  config_section c m = (r, m') →
  state m' = state m ∧ callbacks_enabled m' = callbacks_enabled m ∧
  (r = true → state m = STREAM_STATE_ACTIVE).
Proof.
  unfold config_section. intros Heq. simplify_eq.
  split_and!; [by case_match|by case_match|]. intros ?. by unbool.
Qed.

Lemma apply_ref_state m o :
  state (apply_ref m o) = state m ∧ callbacks_enabled (apply_ref m o) = callbacks_enabled m.
Proof.
  destruct o; simpl; unfold stream_state_add_ref, stream_state_release_ref; by repeat case_match.
Qed.

Lemma phases_ok_step m ps m' ps' :
  phases_ok m ps → interleave (m, ps) (m', ps') → phases_ok m' ps'.
Proof.
  intros Hok Hstep. inversion Hstep as [? ? i p ? p' Hi Hsec]; subst. clear Hstep.
  apply lookup_lt_Some in Hi as Hlt. pose proof Hok as [H1 H2 H3 H4].
  inversion Hsec as [?|?|? r Hb|?? r Hb|? r|? Hb|?? s r any Hb|? any|W ?? w now code msg r ? w' He
                    |? c r ? Hc|W ?? f en changed ? r Hf|? o|? pts dts]; subst;
    try (by apply (phases_ok_keep _ _ ps i _ _ Hok Hi)).
  - (* a stop that has nothing to do *)
    apply (phases_ok_keep _ _ ps i _ _ Hok Hi); try done. intros _ E.
    unfold stop_begin in Hb. rewrite E in Hb. simpl in Hb. by destruct Hb.
  - (* a stop begins *)
    unfold stop_begin in Hb. repeat case_match; simplify_eq; constructor; simpl; try done;
      intros _; exists i, r; by apply list_lookup_insert_eq.
  - (* a stop ends *)
    by constructor.
  - (* a start begins *)
    unfold start_begin in Hb. case_match; simplify_eq. constructor; simpl; try done.
    + intros _. exists i, any. by apply list_lookup_insert_eq.
    + intros E. by apply (keep_phase Stopping_ ps i BeginStart); [..|apply H4].
  - (* a start ends *)
    unfold start_end. destruct any; constructor; simpl; try done;
      intros E; by apply (keep_phase Stopping_ ps i _ _ Hi); [|apply H4].
  - (* an error *)
    unfold error_section in He. simpl in He. case_match; simplify_eq; constructor; simpl; try done.
    + intros _. exists i. by apply list_lookup_insert_eq.
    + intros E. by apply (keep_phase Stopping_ ps i Idle); [..|apply H4].
    + intros E. by apply (keep_phase Stopping_ ps i Idle); [..|apply H4].
  - destruct (config_section_state _ _ _ _ Hc) as (? & ? & _).
    by apply (phases_ok_keep _ _ ps i _ _ Hok Hi).
  - destruct (feature_section_state _ _ _ _ _ Hf).
    by apply (phases_ok_keep _ _ ps i _ _ Hok Hi).
  - destruct (apply_ref_state m o). by apply (phases_ok_keep _ _ ps i _ _ Hok Hi).
Qed.


(** A stop does not wait for a start in progress: the stop can run from
    beginning to end, leaving the stream [INACTIVE], and the start then sets it
    [ACTIVE], both having succeeded. *)
Theorem stop_overtaken_by_start c :
  ∃ m1 m2 ps1 ps2,
    rtc interleave (new_manager c, [Idle; Idle]) (m1, ps1) ∧
    state m1 = STREAM_STATE_STARTING ∧ ps1 = [Starting_ true; Idle] ∧
    rtc interleave (m1, ps1) (m2, ps2) ∧
    state m2 = STREAM_STATE_INACTIVE ∧ ps2 = [Starting_ true; Idle] ∧
    interleave (m2, ps2) (set_state STREAM_STATE_ACTIVE m2, [Idle; Idle]).
Proof.
  set (m0 := new_manager c). set (m1 := set_state STREAM_STATE_STARTING m0).
  set (ms := if cfg_streaming_enabled c then set_state STREAM_STATE_STOPPING m1
             else set_callbacks false (set_state STREAM_STATE_STOPPING m1)).
  exists m1, (stop_end ms), [Starting_ true; Idle], [Starting_ true; Idle]. split_and!; try done.
  - eapply rtc_l.
    { apply (interleave_step m0 [Idle; Idle] 0%nat Idle m0 BeginStart); [done|]. constructor. }
    apply rtc_once. apply (interleave_step m0 [BeginStart; Idle] 0%nat BeginStart m1 (Starting_ true));
      [done|]. by apply (sec_start_begin _ _ (cfg_streaming_enabled c) (cfg_record c)).
  - eapply rtc_l.
    { apply (interleave_step m1 [Starting_ true; Idle] 1%nat Idle m1 (BeginStop false)); [done|].
      constructor. }
    eapply rtc_l.
    { apply (interleave_step m1 [Starting_ true; BeginStop false] 1%nat (BeginStop false)
               ms (Stopping_ false)); [done|].
      apply sec_stop_begin. unfold stop_begin, ms. simpl. by destruct (cfg_streaming_enabled c). }
    apply rtc_once. apply (interleave_step ms [Starting_ true; Stopping_ false] 1%nat
                             (Stopping_ false) (stop_end ms) Idle); [done|].
    apply (sec_stop_end ms false).
  - apply (interleave_step (stop_end ms) [Starting_ true; Idle] 0%nat (Starting_ true) _ Idle);
      [done|]. apply (sec_start_end _ true).
Qed.

(** ** Waiting for a stop *)

Definition micros (t : timeval) : Z := t.1 * 1000000 + t.2.
Definition normal (t : timeval) : Prop := 0 ≤ t.2 < 1000000.

Lemma deadline_spec now timeout :
  normal now → 0 ≤ timeout →
  micros (deadline now timeout) = micros now + timeout * 1000 ∧ normal (deadline now timeout).
Proof.
  intros Hn Ht. unfold deadline, micros, normal, cdiv, cmod in *.
  rewrite Z.quot_div_nonneg, Z.rem_mod_nonneg by lia.
  pose proof (Z.div_mod timeout 1000 ltac:(lia)). pose proof (Z.mod_pos_bound timeout 1000 ltac:(lia)).
  case_match; unbool; simpl; lia.
Qed.

Lemma reached_spec e t : normal e → normal t → reached e t = true ↔ micros e ≤ micros t.
Proof.
  unfold reached, normal, micros. intros.
  rewrite orb_true_iff, andb_true_iff, Z.gtb_lt, Z.eqb_eq, Z.geb_le. nia.
Qed.

Lemma wait_loop_done e polls m t :
  (m, t) ∈ polls → reached e t = true → ∃ r m', wait_loop e polls = Some (r, m').
Proof.
  induction polls as [|[m1 t1] polls IH]; [by intros []%elem_of_nil|].
  intros Hin Ht. simpl. case_match; [by eexists _, _|].
  destruct (reached e t1) eqn:E; [by eexists _, _|].
  apply elem_of_cons in Hin as [?|?]; [simplify_eq; congruence|auto].
Qed.

Lemma wait_loop_result e polls r m :
  wait_loop e polls = Some (r, m) →
  (r = 0 ∧ state m = STREAM_STATE_INACTIVE) ∨
  (r = -1 ∧ state m ≠ STREAM_STATE_INACTIVE ∧ ∃ t, (m, t) ∈ polls ∧ reached e t = true).
Proof.
  induction polls as [|[m1 t1] polls IH]; simpl; [done|]. case_match; unbool.
  { intros [= <- <-]. by left. }
  destruct (reached e t1) eqn:E.
  - intros [= <- <-]. right. split_and!; [done..|]. exists t1. split; [by left|done].
  - intros Hr. destruct (IH Hr) as [?|(? & ? & t & ? & ?)]; [by left|right].
    split_and!; [done..|]. exists t. split; [by right|done].
Qed.

(** Waiting for a stop ends by the first poll at or after the timeout; it
    returns 0 only having seen the stream [INACTIVE] and -1 only once the whole
    timeout has elapsed.  In particular a timeout of 0 ends with the first poll:
    it does not wait. *)
Theorem wait_for_stream_stop_spec now timeout polls :
  normal now → 0 ≤ timeout → Forall (λ p, normal p.2) polls →
  (∀ m t, (m, t) ∈ polls → micros now + timeout * 1000 ≤ micros t →
     ∃ r m', wait_for_stream_stop now timeout polls = Some (r, m')) ∧
  (∀ r m, wait_for_stream_stop now timeout polls = Some (r, m) →
     (r = 0 ∧ state m = STREAM_STATE_INACTIVE) ∨
     (r = -1 ∧ state m ≠ STREAM_STATE_INACTIVE ∧
        ∃ t, (m, t) ∈ polls ∧ micros now + timeout * 1000 ≤ micros t)) ∧
  (∀ m t rest, timeout = 0 → polls = (m, t) :: rest → micros now ≤ micros t →
     state m ≠ STREAM_STATE_INACTIVE →
     wait_for_stream_stop now timeout polls = Some (-1, m)).
Proof.
  intros Hn Ht Hpolls. destruct (deadline_spec now timeout Hn Ht) as [Hd Hdn].
  rewrite Forall_forall in Hpolls. unfold wait_for_stream_stop. split_and!.
  - intros m t Hin Hle. apply (wait_loop_done _ _ m t Hin), reached_spec; [done|by apply (Hpolls (m, t))|lia].
  - intros r m Hr. destruct (wait_loop_result _ _ _ _ Hr) as [?|(? & ? & t & Hin & Hre)]; [by left|right].
    split_and!; [done..|]. exists t. split; [done|].
    apply reached_spec in Hre; [lia|done|by apply (Hpolls (m, t))].
  - intros m t rest -> -> Hle Hst. simpl. rewrite bool_decide_eq_false_2 by done.
    assert (Hmt : normal t) by (apply (Hpolls (m, t)); by left).
    rewrite (proj2 (reached_spec _ t Hdn Hmt)); [done|lia].
Qed.

(** ** The table *)

Definition table_unique (t : state_table) : Prop :=
  ∀ i j m1 m2, stream_states t !! i = Some (Some m1) → stream_states t !! j = Some (Some m2) →
    name m1 = name m2 → i = j.

(** Creating a stream fails without effect when the table is full or has
    a stream of that name; otherwise it takes the first free slot, keeps names
    unique, and (for a name that fits) lookup by name finds it. *)
Theorem create_stream_state_spec t c s t' :
  table_unique t → create_stream_state true t (Some c) = (s, t') →
  (length (cfg_name c) < MAX_STREAM_NAME)%nat → table_initialized t = true →
  match s with
  | None => t' = t ∧ (find_idx slot_empty (stream_states t) = None ∨
                      is_Some (get_stream_state_by_name t (Some (cfg_name c))))
  | Some i => stream_states t !! i = Some None ∧
              stream_states t' = <[i := Some (new_manager c)]> (stream_states t) ∧
              table_unique t' ∧ get_stream_state_by_name t' (Some (cfg_name c)) = Some i ∧
              get_stream_state_count t' = S (get_stream_state_count t)
  end.
Proof.
  intros Hu Hcreate Hfit Hinit. unfold create_stream_state, get_stream_state_by_name in *.
  rewrite Hinit in *. simpl in *.
  destruct (find_idx slot_empty (stream_states t)) as [i|] eqn:Hfree; [|simplify_eq; by split; [|left]].
  destruct (find_idx (slot_named (cfg_name c)) _) as [j|] eqn:Hname; simplify_eq.
  { split; [done|]. right. by exists j. }
  destruct (find_idx_lookup _ _ _ Hfree) as (o & Hi & Ho). destruct o; [done|].
  apply find_idx_lt in Hfree as Hlt. simpl.
  assert (Hnew : name (new_manager c) = cfg_name c) by (by apply strcpy_trunc_id).
  assert (Hnone : ∀ k m, stream_states t !! k = Some (Some m) → name m ≠ cfg_name c).
  { intros k m Hk Heq. apply find_idx_None with (i := k) (x := Some m) in Hname; [|done].
    simpl in Hname. by rewrite Heq, streq_refl in Hname. }
  split_and!; [done|done| | |].
  - intros k l m1 m2 Hk Hl Heq. simpl in *.
    apply list_lookup_insert_Some in Hk as [(? & ? & _)|[? Hk]];
      apply list_lookup_insert_Some in Hl as [(? & ? & _)|[? Hl]]; simplify_eq; [done|..].
    + destruct (Hnone l m2 Hl). by rewrite <-Heq.
    + destruct (Hnone k m1 Hk). by rewrite Heq.
    + eauto.
  - apply (find_idx_unique _ _ _ (Some (new_manager c))); [by apply list_lookup_insert_eq| |].
    + unfold slot_named. rewrite Hnew. apply streq_refl.
    + intros k [m|] Hk Hs; [|done]. simpl in Hs. unbool.
      apply list_lookup_insert_Some in Hk as [(-> & _)|[_ Hk]]; [done|]. by destruct (Hnone k m Hk).
  - unfold get_stream_state_count. simpl. rewrite Hinit. simpl.
    pose proof (count_if_insert (λ s, negb (slot_empty s)) _ i None (Some (new_manager c)) Hi) as Hc.
    simpl in Hc. lia.
Qed.

(** ** Witnesses *)

(** Services that log their calls; HLS starts, recordings fail. *)
#[local] Instance log_services : StreamServices (list cstr) := {
  stream_start_hls n w := (0, w ++ [lit "hls"]);
  stream_stop_hls n w := (0, w ++ [lit "stop hls"]);
  start_recording n w := (-1, w ++ [lit "mp4"]);
  stop_mp4_recording n w := (0, w ++ [lit "stop mp4"]);
  is_recording_scheduled _ _ := true;
  metrics_set_configured_fps n fps w := w ++ [lit "fps"];
  metrics_record_error n e w := w ++ [e];
  metrics_record_reconnect n w := w ++ [lit "reconnect"]
}.

Definition example_config : stream_config_t :=
  mkStreamConfig (lit "cam") true true false STREAM_PROTOCOL_TCP false 25 [].

Definition example_manager : stream_state_manager_t := new_manager example_config.

Lemma start_stream_with_state_spec_witness :
  ∃ m' w', start_stream_with_state example_manager [] = (0, m', w') ∧
    m' = set_state STREAM_STATE_ACTIVE example_manager ∧
    w' = [lit "hls"; lit "mp4"; lit "fps"].
Proof.
  exists (set_state STREAM_STATE_ACTIVE example_manager), [lit "hls"; lit "mp4"; lit "fps"].
  assert (Heq : start_stream_with_state example_manager []
    = (0, set_state STREAM_STATE_ACTIVE example_manager, [lit "hls"; lit "mp4"; lit "fps"]))
    by reflexivity.
  destruct (start_stream_with_state_spec example_manager [] _ _ _ Heq) as (? & _ & ?).
  split_and!; assumption.
Defined.

Lemma stop_stream_with_state_spec_witness :
  ∃ m' w' ts', stop_stream_with_state (set_state STREAM_STATE_ACTIVE example_manager) [] [] false
                 (0, 0) [] = Some (0, m', w', ts') ∧ state m' = STREAM_STATE_INACTIVE.
Proof.
  destruct (stop_stream_with_state_spec (set_state STREAM_STATE_ACTIVE example_manager) [] []
              false (0, 0) []) as (m' & w' & ts' & ? & ? & _).
  - discriminate.
  - exists m', w', ts'. split; assumption.
Defined.


Lemma wait_for_stream_stop_spec_witness :
  wait_for_stream_stop (5, 0) 0 [(set_state STREAM_STATE_STOPPING example_manager, (5, 20))]
  = Some (-1, set_state STREAM_STATE_STOPPING example_manager).
Proof.
  refine (proj2 (proj2 (wait_for_stream_stop_spec (5, 0) 0
    [(set_state STREAM_STATE_STOPPING example_manager, (5, 20))] _ _ _)) _ (5, 20) [] _ _ _ _).
  - unfold normal; simpl; lia.
  - lia.
  - constructor; [unfold normal; simpl; lia|constructor].
  - reflexivity.
  - reflexivity.
  - unfold micros; simpl; lia.
  - discriminate.
Defined.

Lemma create_stream_state_spec_witness :
  get_stream_state_by_name
    (create_stream_state true (mkTable [None; None] true) (Some example_config)).2
    (Some (lit "cam")) = Some O.
Proof.
  assert (Heq : create_stream_state true (mkTable [None; None] true) (Some example_config)
    = (Some O, mkTable [Some example_manager; None] true)) by (vm_compute; reflexivity).
  destruct (create_stream_state_spec (mkTable [None; None] true) example_config _ _
              ltac:(by intros [|[|]] ?) Heq) as (_ & _ & _ & Hget & _).
  - apply (bool_decide_unpack _). vm_compute. exact I.
  - reflexivity.
  - rewrite Heq. exact Hget.
Defined.
