(* ===== verification/ShutdownCoordinator.v ===== *)
(** * Shutdown coordinator: [src/core/shutdown_coordinator.c]

    The registry of the program's long-lived components and the protocol by
    which they are told to stop, in order of priority, and waited for.  The
    array [components] is kept up to [component_count]: its other slots are
    never read.  The wait is two locked sections around
    [pthread_cond_timedwait], whose result is a parameter. *)
From Stdlib Require Import ZArith Lia Bool.
From Stdlib Require Import Strings.Byte.
From stdpp Require Import base numbers list strings sorting relations.
From S2P Require Import Prelude.
#[local] Open Scope Z_scope.

Definition MAX_COMPONENTS : nat := 32.

Inductive component_state_t := COMPONENT_RUNNING | COMPONENT_STOPPING | COMPONENT_STOPPED.

#[global] Instance component_state_eq_dec : EqDecision component_state_t.
Proof. solve_decision. Defined.

Inductive component_type_t :=
| COMPONENT_DETECTION_THREAD
| COMPONENT_SERVER_THREAD
| COMPONENT_HLS_WRITER
| COMPONENT_MP4_WRITER
| COMPONENT_OTHER.

(** [context] is opaque and never read. *)
Record component_info_t := mkComponent {
  name : cstr;
  type : component_type_t;
  state : component_state_t;
  context : Z;
  priority : Z
}.

Record shutdown_coordinator_t := mkCoordinator {
  shutdown_initiated : bool;
  coordinator_destroyed : bool;
  components : list component_info_t;
  all_components_stopped : bool
}.

Definition set_comp_state (s : component_state_t) (c : component_info_t) : component_info_t :=
  mkComponent (name c) (type c) s (context c) (priority c).

Definition set_components (g : shutdown_coordinator_t) (cs : list component_info_t) (flag : bool)
    : shutdown_coordinator_t :=
  mkCoordinator (shutdown_initiated g) (coordinator_destroyed g) cs flag.

(** [mutex_ok], [cond_ok]: whether [pthread_mutex_init] and
    [pthread_cond_init] succeed. *)
Definition init_shutdown_coordinator (mutex_ok cond_ok : bool) : Z * shutdown_coordinator_t :=
  if negb mutex_ok || negb cond_ok then (-1, mkCoordinator false false [] false)
  else (0, mkCoordinator false false [] true).

Definition shutdown_coordinator_cleanup (g : shutdown_coordinator_t) : shutdown_coordinator_t :=
  if coordinator_destroyed g then g else
  mkCoordinator (shutdown_initiated g) true (components g) (all_components_stopped g).

Definition is_coordinator_destroyed (g : shutdown_coordinator_t) : bool := coordinator_destroyed g.

Definition stopped (c : component_info_t) : bool := bool_decide (state c = COMPONENT_STOPPED).

(** The loop that chooses [reuse_idx]: a stopped slot of that name if there is
    one, else the first stopped slot. *)
Fixpoint reuse_loop (cs : list component_info_t) (n : cstr) (i : nat) (reuse_idx : option nat)
    : option nat :=
  match cs with
  | [] => reuse_idx
  | c :: cs =>
      if stopped c then
        let reuse_idx := match reuse_idx with Some r => Some r | None => Some i end in
        if streq (name c) n then Some i else reuse_loop cs n (S i) reuse_idx
      else reuse_loop cs n (S i) reuse_idx
  end.

Definition register_component (g : shutdown_coordinator_t) (n : option cstr)
    (t : component_type_t) (ctx prio : Z) : Z * shutdown_coordinator_t :=
  match n with
  | None => (-1, g)
  | Some n =>
      let cs := components g in
      let c := mkComponent (strcpy_trunc 64 n) t COMPONENT_RUNNING ctx prio in
      match reuse_loop cs n 0 None with
      | Some slot => (Z.of_nat slot, set_components g (<[slot := c]> cs) false)
      | None =>
          if (length cs <? MAX_COMPONENTS)%nat
          then (Z.of_nat (length cs), set_components g (cs ++ [c]) false)
          else (-1, g)
      end
  end.

(** The store of [update_component_state], without lock. *)
Definition update_store (g : shutdown_coordinator_t) (id : Z) (s : component_state_t)
    : shutdown_coordinator_t :=
  set_components g (alter (set_comp_state s) (Z.to_nat id) (components g)) (all_components_stopped g).

(** Its locked section. *)
Definition update_check (g : shutdown_coordinator_t) : shutdown_coordinator_t :=
  let all_stopped := forallb stopped (components g) in
  if all_stopped && negb (all_components_stopped g)
  then set_components g (components g) true else g.

Definition update_component_state (g : shutdown_coordinator_t) (id : Z) (s : component_state_t)
    : shutdown_coordinator_t :=
  if coordinator_destroyed g then g else
  if (id <? 0) || (id >=? Z.of_nat (length (components g))) then g else
  let g := update_store g id s in
  if bool_decide (s = COMPONENT_STOPPED) then
    if coordinator_destroyed g then g else update_check g
  else g.

Definition get_component_state (g : shutdown_coordinator_t) (id : Z) : component_state_t :=
  if (id <? 0) || (id >=? Z.of_nat (length (components g))) then COMPONENT_STOPPED
  else match components g !! Z.to_nat id with
       | Some c => state c
       | None => COMPONENT_STOPPED
       end.

(** ** Shutdown in order of priority *)

(** [component_priority_t]: the id and the priority. *)
Abbreviation component_priority_t := (nat * Z)%type.

(** The inner loop of the sort: compare and swap the first [k] adjacent
    pairs. *)
Fixpoint bubble_pass (k : nat) (l : list component_priority_t) : list component_priority_t :=
  match k, l with
  | S k, x :: y :: l' =>
      if x.2 <? y.2 then y :: bubble_pass k (x :: l') else x :: bubble_pass k (y :: l')
  | _, _ => l
  end.

Definition bubble_sort (l : list component_priority_t) : list component_priority_t :=
  let count := length l in
  foldl (λ l i, bubble_pass (count - i - 1) l) l (seq 0 (count - 1)).

Definition priorities (cs : list component_info_t) : list component_priority_t :=
  imap (λ i c, (i, priority c)) cs.

Definition running (c : component_info_t) : bool := bool_decide (state c = COMPONENT_RUNNING).

(** Signal one component; the ids signalled so far are kept, latest first. *)
Definition signal (acc : list component_info_t * list nat) (p : component_priority_t)
    : list component_info_t * list nat :=
  let '(cs, signalled) := acc in
  match cs !! p.1 with
  | Some c => if running c
              then (<[p.1 := set_comp_state COMPONENT_STOPPING c]> cs, p.1 :: signalled)
              else (cs, signalled)
  | None => (cs, signalled)
  end.

(** Result: the coordinator and the ids signalled, in order. *)
Definition initiate_shutdown (g : shutdown_coordinator_t) : shutdown_coordinator_t * list nat :=
  if coordinator_destroyed g then (g, []) else
  let cs := components g in
  let '(cs', signalled) := foldl signal (cs, []) (bubble_sort (priorities cs)) in
  (mkCoordinator true (coordinator_destroyed g) cs' (all_components_stopped g), rev signalled).

Definition is_shutdown_initiated (g : shutdown_coordinator_t) : bool := shutdown_initiated g.

(** ** Waiting *)

(** Before the wait: [Some] result when there is nothing to wait for. *)
Definition wait_begin (g : shutdown_coordinator_t) : option bool :=
  if coordinator_destroyed g then Some true else
  if all_components_stopped g then Some true else None.

(** After [pthread_cond_timedwait] returned [result]. *)
Definition wait_end (result : Z) (g : shutdown_coordinator_t) : bool * shutdown_coordinator_t :=
  let all_stopped := all_components_stopped g in
  if negb (result =? 0) || negb all_stopped then
    (true, set_components g
             ((λ c, if stopped c then c else set_comp_state COMPONENT_STOPPED c) <$> components g)
             true)
  else (all_stopped, g).

(** [woken]: the coordinator when the wait returns, other threads having run. *)
Definition wait_for_all_components_stopped (g woken : shutdown_coordinator_t) (result : Z)
    : bool * shutdown_coordinator_t :=
  match wait_begin g with
  | Some r => (r, g)
  | None => wait_end result woken
  end.

(** ** The sort *)

Definition geq (p q : component_priority_t) : Prop := q.2 ≤ p.2.

(** A pass over the first [S k] elements moves a smallest one last. *)
Lemma bubble_pass_spec k a b :
  length a = S k →
  ∃ a' x, bubble_pass k (a ++ b) = a' ++ x :: b ∧ length a' = k ∧ a' ++ [x] ≡ₚ a ∧
          ∀ y, y ∈ a → x.2 ≤ y.2.
Proof.
  revert a. induction k as [|k IH]; intros a Ha.
  { destruct a as [|x [|? ?]]; simplify_eq/=. exists [], x. split_and!; try done.
    intros y Hy%list_elem_of_singleton. by subst. }
  destruct a as [|x [|y a]]; simplify_eq/=. destruct (x.2 <? y.2) eqn:E; unbool.
  - destruct (IH (x :: a)) as (a' & z & Heq & Hlen & Hperm & Hmin); [simpl; lia|].
    simpl in Heq. rewrite Heq. exists (y :: a'), z. split_and!; [done|simpl; lia| |].
    + simpl. rewrite Hperm. by apply perm_swap.
    + intros w Hw. rewrite !elem_of_cons in Hw. destruct Hw as [->|[->|Hw]].
      * apply Hmin. by left.
      * specialize (Hmin x ltac:(by left)). lia.
      * apply Hmin. by right.
  - destruct (IH (y :: a)) as (a' & z & Heq & Hlen & Hperm & Hmin); [simpl; lia|].
    simpl in Heq. rewrite Heq. exists (x :: a'), z. split_and!; [done|simpl; lia| |].
    + simpl. by rewrite Hperm.
    + intros w Hw. rewrite elem_of_cons in Hw. destruct Hw as [->|Hw].
      * specialize (Hmin y ltac:(by left)). lia.
      * by apply Hmin.
Qed.

(** After [i] passes the last [i] elements are sorted and final. *)
Record bubbled (l0 l a b : list component_priority_t) : Prop := {
  bub_split : l = a ++ b;
  bub_perm : l ≡ₚ l0;
  bub_sorted : StronglySorted geq b;
  bub_above : ∀ x y, x ∈ a → y ∈ b → geq x y
}.

Lemma bubbled_pass l0 l a b k :
  bubbled l0 l a b → length a = S k →
  ∃ a' x, bubbled l0 (bubble_pass k l) a' (x :: b) ∧ length a' = k.
Proof.
  intros [-> Hp Hs Hab] Ha. destruct (bubble_pass_spec k a b Ha) as (a' & x & -> & Hlen & Hperm & Hmin).
  exists a', x. split; [|done]. constructor.
  - done.
  - rewrite <-Hp, <-Hperm, <-app_assoc. done.
  - constructor; [done|]. apply Forall_forall. intros y Hy. apply Hab; [|done].
    rewrite <-Hperm. apply elem_of_app. right. by left.
  - intros y z Hy Hz. assert (Hya : y ∈ a) by (rewrite <-Hperm; apply elem_of_app; by left).
    apply elem_of_cons in Hz as [->|Hz]; [by apply Hmin|by apply Hab].
Qed.

Lemma bubbled_loop l0 l a b i n count :
  bubbled l0 l a b → length a = (count - i)%nat → (i + n = count - 1)%nat → (0 < count)%nat →
  ∃ a' b', bubbled l0 (foldl (λ l i, bubble_pass (count - i - 1) l) l (seq i n)) a' b' ∧
           length a' = 1%nat.
Proof.
  revert l a b i. induction n as [|n IH]; intros l a b i Hb Ha Hin Hc; simpl.
  { exists a, b. split; [done|]. lia. }
  destruct (bubbled_pass l0 l a b (count - i - 1) Hb) as (a' & x & Hb' & Ha'); [lia|].
  apply (IH _ a' (x :: b)); [done|lia..].
Qed.

Lemma bubble_sort_spec l : StronglySorted geq (bubble_sort l) ∧ bubble_sort l ≡ₚ l.
Proof.
  unfold bubble_sort. destruct l as [|x l]; [split; [constructor|done]|].
  destruct (bubbled_loop (x :: l) (x :: l) (x :: l) [] 0 (length (x :: l) - 1) (length (x :: l)))
    as (a & b & [Heq Hp Hs Hab] & Ha); simpl; try lia.
  - constructor; [by rewrite app_nil_r|done|constructor|]. by intros ? ? _ ?%elem_of_nil.
  - simpl in *. split; [|done]. rewrite Heq. destruct a as [|z [|? ?]]; simplify_eq/=.
    constructor; [done|]. apply Forall_forall. intros y Hy. apply Hab; [by left|done].
Qed.

Lemma priorities_lookup cs p :
  p ∈ priorities cs ↔ ∃ c, cs !! p.1 = Some c ∧ p.2 = priority c.
Proof.
  unfold priorities. rewrite list_elem_of_lookup. split.
  - intros (i & Hi). apply list_lookup_imap_Some in Hi as (c & Hc & ->). eauto.
  - intros (c & Hc & Hp). exists p.1. rewrite list_lookup_imap, Hc. simpl.
    rewrite <-Hp. by destruct p.
Qed.

Lemma priorities_fst cs : (priorities cs).*1 = seq 0 (length cs).
Proof.
  unfold priorities. apply list_eq. intros i. rewrite list_lookup_fmap, list_lookup_imap.
  destruct (cs !! i) as [c|] eqn:E; simpl.
  - symmetry. apply lookup_seq. apply lookup_lt_Some in E. lia.
  - symmetry. apply lookup_seq_ge. apply lookup_ge_None in E. lia.
Qed.

Definition runs (cs : list component_info_t) (i : nat) : bool :=
  from_option running false (cs !! i).

(** Signalling the ids of [ps], none twice. *)
Lemma signal_loop ps cs acc :
  NoDup (ps.*1) →
  let '(cs', acc') := foldl signal (cs, acc) ps in
  acc' = rev (List.filter (runs cs) ps.*1) ++ acc ∧
  length cs' = length cs ∧
  ∀ i, cs' !! i = (λ c, if bool_decide (i ∈ ps.*1) && running c
                        then set_comp_state COMPONENT_STOPPING c else c) <$> cs !! i.
Proof.
  revert cs acc. induction ps as [|[id p] ps IH]; intros cs acc Hnd.
  { simpl. split_and!; [done|done|]. intros i. by destruct (cs !! i). }
  csimpl in *. apply NoDup_cons in Hnd as [Hnin Hnd]. unfold runs at 1.
  assert (Hmem : ∀ i c, i ≠ id → (if bool_decide (i ∈ ps.*1) && running c
      then set_comp_state COMPONENT_STOPPING c else c)
      = (if bool_decide (i ∈ id :: ps.*1) && running c
         then set_comp_state COMPONENT_STOPPING c else c)).
  { intros i c Hne. rewrite (bool_decide_ext (i ∈ id :: ps.*1) (i ∈ ps.*1)); [done|].
    rewrite elem_of_cons. naive_solver. }
  destruct (cs !! id) as [c|] eqn:Hid; [destruct (running c) eqn:Hrun|]; simpl.
  - specialize (IH (<[id:=set_comp_state COMPONENT_STOPPING c]> cs) (id :: acc) Hnd).
    destruct (foldl signal _ ps) as [cs' acc']. destruct IH as (-> & -> & Hcs').
    rewrite Hrun. split_and!.
    + simpl. rewrite <-app_assoc. simpl. do 2 f_equal. apply List.filter_ext_in.
      intros i Hi%list_elem_of_In. unfold runs. rewrite list_lookup_insert_ne; [done|]. by intros ->.
    + by rewrite length_insert.
    + intros i. rewrite Hcs'. destruct (decide (i = id)) as [->|Hne].
      * rewrite list_lookup_insert_eq by (by eapply lookup_lt_Some). rewrite Hid. simpl.
        rewrite (bool_decide_eq_false_2 (id ∈ ps.*1)) by done. simpl.
        rewrite bool_decide_eq_true_2 by (by left). by rewrite Hrun.
      * rewrite list_lookup_insert_ne by done. destruct (cs !! i); [|done]. simpl.
        f_equal. by apply Hmem.
  - specialize (IH cs acc Hnd). destruct (foldl signal _ ps) as [cs' acc'].
    destruct IH as (-> & -> & Hcs'). rewrite Hrun.
    split_and!; [done|done|]. intros i. rewrite Hcs'. destruct (decide (i = id)) as [->|Hne].
    + rewrite Hid. simpl. by rewrite Hrun, !andb_false_r.
    + destruct (cs !! i); [|done]. simpl. f_equal. by apply Hmem.
  - specialize (IH cs acc Hnd). destruct (foldl signal _ ps) as [cs' acc'].
    destruct IH as (-> & -> & Hcs').
    split_and!; [done|done|]. intros i. rewrite Hcs'. destruct (cs !! i) eqn:Hi; [|done]. simpl.
    f_equal. apply Hmem. congruence.
Qed.

(** ** Correctness *)

Definition priority_of (cs : list component_info_t) (i : nat) : Z :=
  from_option priority 0 (cs !! i).

Lemma StronglySorted_filter {A} (R : A → A → Prop) (f : A → bool) l :
  StronglySorted R l → StronglySorted R (List.filter f l).
Proof.
  induction 1 as [|x l Hl IH Hx]; simpl; [constructor|]. destruct (f x); [|done].
  constructor; [done|]. rewrite Forall_forall in *. intros y [Hy _]%list_elem_of_In%filter_In.
  apply Hx. by apply list_elem_of_In.
Qed.

Lemma Permutation_filter {A} (f : A → bool) l1 l2 :
  l1 ≡ₚ l2 → List.filter f l1 ≡ₚ List.filter f l2.
Proof.
  induction 1 as [|x l1 l2 _ IH|x y l|l1 l2 l3 _ IH1 _ IH2]; simpl; repeat case_match; auto.
  - constructor.
  - by rewrite IH1.
Qed.

(** Shutdown signals every running component, and no other, exactly once
    and in order of decreasing priority; they become [STOPPING] and nothing
    else changes; once the coordinator is destroyed it does nothing. *)
Theorem initiate_shutdown_spec g g' signalled :
  initiate_shutdown g = (g', signalled) → coordinator_destroyed g = false →
  StronglySorted (λ i j, priority_of (components g) j ≤ priority_of (components g) i) signalled ∧
  signalled ≡ₚ List.filter (runs (components g)) (seq 0 (length (components g))) ∧
  components g' = (λ c, if running c then set_comp_state COMPONENT_STOPPING c else c)
                    <$> components g ∧
  shutdown_initiated g' = true ∧ all_components_stopped g' = all_components_stopped g.
Proof.
  unfold initiate_shutdown. intros Heq Hd. rewrite Hd in Heq. set (cs := components g) in *.
  destruct (bubble_sort_spec (priorities cs)) as [Hsort Hperm].
  assert (Hfst : (bubble_sort (priorities cs)).*1 ≡ₚ seq 0 (length cs))
    by (by rewrite Hperm, priorities_fst).
  pose proof (signal_loop (bubble_sort (priorities cs)) cs []) as Hloop.
  destruct (foldl signal _ _) as [cs' acc]. simplify_eq/=.
  destruct Hloop as (-> & Hlen & Hcs'); [by rewrite Hfst; apply NoDup_seq|].
  rewrite app_nil_r, rev_involutive. split_and!; [| | |done|done].
  - apply StronglySorted_filter.
    assert (Hmem : Forall (λ p, priority_of cs p.1 = p.2) (bubble_sort (priorities cs))).
    { apply Forall_forall. intros p Hp. rewrite Hperm in Hp.
      apply priorities_lookup in Hp as (c & Hc & ->). unfold priority_of. by rewrite Hc. }
    clear -Hsort Hmem. induction Hsort as [|p l Hl IH Hp]; csimpl; [constructor|].
    apply Forall_cons in Hmem as [Hmp Hmem]. constructor; [by apply IH|].
    rewrite Forall_fmap. rewrite Forall_forall in *. intros q Hq. simpl.
    rewrite Hmp, Hmem by done. by apply (Hp q).
  - by apply Permutation_filter.
  - apply list_eq. intros i. rewrite Hcs', list_lookup_fmap.
    destruct (cs !! i) as [c|] eqn:E; [|done]. simpl.
    rewrite bool_decide_eq_true_2; [done|]. rewrite Hfst, elem_of_seq.
    apply lookup_lt_Some in E. lia.
Qed.

(** ** The registry *)

Lemma reuse_loop_stopped cs n i r k :
  reuse_loop cs n i r = Some k →
  r = Some k ∨ (∃ c, (i ≤ k)%nat ∧ cs !! (k - i)%nat = Some c ∧ stopped c = true).
Proof.
  revert i r. induction cs as [|c cs IH]; intros i r; simpl; [by left|].
  destruct (stopped c) eqn:E; [case_match|].
  - intros [= <-]. right. exists c. by rewrite Nat.sub_diag.
  - intros Hk. destruct (IH _ _ Hk) as [Hr|(c' & Hle & Hc' & Hs)].
    + destruct r as [r|]; [by left|]. simplify_eq. right. exists c. by rewrite Nat.sub_diag.
    + right. exists c'. split; [lia|]. by replace (k - i)%nat with (S (k - S i)) by lia.
  - intros Hk. destruct (IH _ _ Hk) as [Hr|(c' & Hle & Hc' & Hs)]; [by left|].
    right. exists c'. split; [lia|]. by replace (k - i)%nat with (S (k - S i)) by lia.
Qed.

Lemma reuse_loop_None cs n i :
  reuse_loop cs n i None = None → Forall (λ c, stopped c = false) cs.
Proof.
  assert (Hsome : ∀ cs i r, ∃ k, reuse_loop cs n i (Some r) = Some k).
  { clear. induction cs as [|c cs IH]; intros i r; simpl; [by eexists|].
    repeat case_match; eauto. }
  revert i. induction cs as [|c cs IH]; intros i; simpl; [constructor|].
  destruct (stopped c) eqn:E.
  - case_match; [done|]. destruct (Hsome cs (S i) i) as [k Hk]. by rewrite Hk.
  - intros Hr. constructor; [done|]. by eapply IH.
Qed.

(** One operation, by any thread; a component that has stopped is not reported
    to be running or stopping again. *)
Inductive coordinator_step : shutdown_coordinator_t → shutdown_coordinator_t → Prop :=
| step_register g n t ctx prio : coordinator_step g (register_component g n t ctx prio).2
| step_update g id s :
    s = COMPONENT_STOPPED ∨ get_component_state g id ≠ COMPONENT_STOPPED →
    coordinator_step g (update_component_state g id s)
| step_initiate g : coordinator_step g (initiate_shutdown g).1
| step_cleanup g : coordinator_step g (shutdown_coordinator_cleanup g)
| step_wait g result : coordinator_step g (wait_end result g).2.

Record coordinator_ok (g : shutdown_coordinator_t) : Prop := {
  coord_slots : (length (components g) ≤ MAX_COMPONENTS)%nat;
  coord_flag : all_components_stopped g = true → Forall (λ c, stopped c = true) (components g)
}.

Lemma stopped_set s c : stopped (set_comp_state s c) = bool_decide (s = COMPONENT_STOPPED).
Proof. done. Qed.

Lemma coordinator_ok_step g g' : coordinator_step g g' → coordinator_ok g → coordinator_ok g'.
Proof.
  destruct 1 as [g n t ctx prio|g id s Hs|g|g|g result]; intros [Hlen Hflag].
  - unfold register_component. destruct n as [n|]; [|by constructor].
    destruct (reuse_loop _ _ _ _) as [slot|]; simpl.
    { constructor; simpl; [by rewrite length_insert|done]. }
    case_match eqn:E; simpl; [|by constructor].
    apply Nat.ltb_lt in E. constructor; simpl; [rewrite length_app; simpl; lia|done].
  - unfold update_component_state. do 2 (case_match; [by constructor|]).
    assert (Hstore : coordinator_ok (update_store g id s)).
    { constructor; simpl; [by rewrite length_alter|]. intros Hf. specialize (Hflag Hf).
      apply Forall_lookup. intros k c Hk. rewrite Forall_lookup in Hflag.
      destruct (decide (Z.to_nat id = k)) as [Heq|Hne];
        [|rewrite list_lookup_alter_ne in Hk by done; by eapply Hflag].
      subst k. rewrite list_lookup_alter_eq in Hk. apply fmap_Some in Hk as (c0 & Hc0 & ->).
      destruct Hs as [->|Hs]; [done|]. exfalso. apply Hs. unfold get_component_state.
      destruct (_ || _); [done|]. rewrite Hc0. specialize (Hflag _ _ Hc0).
      unfold stopped in Hflag. by unbool. }
    case_match; [|done]. case_match; [done|]. unfold update_check. case_match eqn:E; [|done].
    apply andb_true_iff in E as [E _]. constructor; simpl; [apply Hstore|]. intros _. apply Forall_forall. intros c Hc. rewrite forallb_forall in E. by apply E, list_elem_of_In.
  - unfold initiate_shutdown. case_match; [by constructor|].
    pose proof (bubble_sort_spec (priorities (components g))) as [_ Hperm].
    pose proof (signal_loop (bubble_sort (priorities (components g))) (components g) []) as Hloop.
    destruct (foldl signal _ _) as [cs' acc]. simpl.
    destruct Hloop as (_ & Hl & Hcs'); [rewrite Hperm, priorities_fst; apply NoDup_seq|].
    constructor; simpl; [by rewrite Hl|]. intros Hf. specialize (Hflag Hf).
    apply Forall_lookup. intros i c. rewrite Hcs'. intros (c0 & Hc0 & ->)%fmap_Some.
    rewrite Forall_lookup in Hflag. specialize (Hflag _ _ Hc0).
    unfold stopped, running in *. unbool. rewrite Hflag, andb_false_r. by rewrite Hflag.
  - unfold shutdown_coordinator_cleanup. case_match; by constructor.
  - unfold wait_end. case_match; [|by constructor]. constructor; simpl; [by rewrite length_fmap|].
    intros _. rewrite Forall_fmap. apply Forall_forall. intros c _. simpl.
    by destruct (stopped c) eqn:E.
Qed.

(** Through any sequence of operations the registry holds at most 32
    components, and the flag the shutdown waits for is set only while every
    registered component has stopped. *)
Theorem coordinator_run g :
  rtc coordinator_step (init_shutdown_coordinator true true).2 g →
  coordinator_ok g.
Proof.
  intros Hrun. assert (Hok : coordinator_ok (init_shutdown_coordinator true true).2)
    by (constructor; simpl; [lia|constructor]).
  induction Hrun as [|g1 g2 g3 Hs _ IH]; [done|]. apply IH. by eapply coordinator_ok_step.
Qed.

(** Registering takes a slot that is stopped or new, or fails when all 32
    are in use by components that have not stopped; the component runs, and the
    others keep their slots. *)
Theorem register_component_spec g n t ctx prio id g' :
  register_component g (Some n) t ctx prio = (id, g') →
  (length (components g) ≤ MAX_COMPONENTS)%nat →
  if decide (id = -1) then
    g' = g ∧ length (components g) = MAX_COMPONENTS ∧
    Forall (λ c, stopped c = false) (components g)
  else
    all_components_stopped g' = false ∧ 0 ≤ id ∧
    components g' !! Z.to_nat id
      = Some (mkComponent (strcpy_trunc 64 n) t COMPONENT_RUNNING ctx prio) ∧
    (∀ c, components g !! Z.to_nat id = Some c → stopped c = true) ∧
    (∀ i, i ≠ Z.to_nat id → components g' !! i = components g !! i).
Proof.
  unfold register_component. intros Heq Hlen.
  destruct (reuse_loop (components g) n 0 None) as [slot|] eqn:E.
  - simplify_eq. rewrite decide_False by lia. simpl. rewrite Nat2Z.id.
    destruct (reuse_loop_stopped _ _ _ _ _ E) as [?|(c & _ & Hc & Hs)]; [done|].
    rewrite Nat.sub_0_r in Hc. split_and!; [done|lia| | |].
    + apply list_lookup_insert_eq. by eapply lookup_lt_Some.
    + intros. by simplify_eq.
    + intros i Hi. by rewrite list_lookup_insert_ne.
  - apply reuse_loop_None in E. case_match eqn:Hlt; simplify_eq.
    + rewrite decide_False by lia. simpl. rewrite Nat2Z.id. split_and!; [done|lia| | |].
      * by rewrite lookup_app_r, Nat.sub_diag.
      * intros c Hc%lookup_lt_Some. lia.
      * intros i Hi. destruct (decide (i < length (components g))%nat).
        -- by rewrite lookup_app_l.
        -- rewrite !lookup_ge_None_2; [done|lia|rewrite length_app; simpl; lia].
    + rewrite decide_True by done. apply Nat.ltb_ge in Hlt. split_and!; [done|lia|done].
Qed.

(** The wait always reports success.  If it was woken without every
    component having stopped, by the timeout or by a spurious wake-up, it marks
    them all [STOPPED] itself. *)
Theorem wait_always_succeeds g woken result :
  (∃ g', wait_for_all_components_stopped g woken result = (true, g')) ∧
  (wait_begin g = None → result ≠ 0 ∨ all_components_stopped woken = false →
   Forall (λ c, stopped c = true)
     (components (wait_for_all_components_stopped g woken result).2)).
Proof.
  unfold wait_for_all_components_stopped, wait_begin, wait_end. split.
  - destruct (coordinator_destroyed g); [by eexists|].
    destruct (all_components_stopped g); [by eexists|].
    destruct (all_components_stopped woken), (result =? 0); by eexists.
  - intros Hb Hr. destruct (coordinator_destroyed g); [done|].
    destruct (all_components_stopped g); [done|].
    assert (negb (result =? 0) || negb (all_components_stopped woken) = true) as ->.
    { destruct Hr as [Hr| ->]; [by rewrite (proj2 (Z.eqb_neq _ _) Hr)|apply orb_true_r]. }
    simpl. rewrite Forall_fmap. apply Forall_forall. intros c _. simpl.
    by destruct (stopped c) eqn:Ec.
Qed.

(** The id of a stopped component is reused: a late second report by the
    old holder marks the new component as stopped, and the shutdown does not
    wait for it. *)
Theorem stale_id_stops_successor n1 n2 t p1 p2 :
  let '(id1, g1) := register_component (init_shutdown_coordinator true true).2 (Some n1) t 1 p1 in
  let g2 := update_component_state g1 id1 COMPONENT_STOPPED in
  let '(id2, g3) := register_component g2 (Some n2) t 2 p2 in
  let g4 := update_component_state g3 id1 COMPONENT_STOPPED in
  id1 = id2 ∧ all_components_stopped g3 = false ∧ get_component_state g3 id2 = COMPONENT_RUNNING ∧
  get_component_state g4 id2 = COMPONENT_STOPPED ∧ wait_begin g4 = Some true.
Proof.
  simpl. unfold register_component. simpl. by destruct (streq _ n2).
Qed.

(** ** Witnesses *)

Definition example_coordinator : shutdown_coordinator_t :=
  mkCoordinator false false
    [mkComponent (lit "api") COMPONENT_SERVER_THREAD COMPONENT_RUNNING 0 10;
     mkComponent (lit "hls") COMPONENT_HLS_WRITER COMPONENT_STOPPED 0 60;
     mkComponent (lit "mp4") COMPONENT_MP4_WRITER COMPONENT_RUNNING 0 70;
     mkComponent (lit "det") COMPONENT_DETECTION_THREAD COMPONENT_RUNNING 0 70] false.

Lemma initiate_shutdown_spec_witness :
  (initiate_shutdown example_coordinator).2 = [2; 3; 0]%nat ∧
  StronglySorted (λ i j, priority_of (components example_coordinator) j
                         ≤ priority_of (components example_coordinator) i) [2; 3; 0]%nat.
Proof.
  split; [reflexivity|].
  refine (proj1 (initiate_shutdown_spec example_coordinator _ _ _ _)); [reflexivity|reflexivity].
Defined.

Lemma coordinator_run_witness :
  coordinator_ok (register_component (init_shutdown_coordinator true true).2 (Some (lit "api"))
                    COMPONENT_SERVER_THREAD 0 10).2.
Proof. apply coordinator_run, rtc_once, step_register. Defined.

Lemma register_component_spec_witness :
  components (register_component example_coordinator (Some (lit "new")) COMPONENT_OTHER 7 5).2
    !! 1%nat = Some (mkComponent (lit "new") COMPONENT_OTHER COMPONENT_RUNNING 7 5).
Proof.
  destruct (register_component_spec example_coordinator (lit "new") COMPONENT_OTHER 7 5 1 _
              eq_refl) as (_ & _ & Hc & _).
  - simpl. unfold MAX_COMPONENTS. lia.
  - exact Hc.
Defined.
