(* ===== verification/Telemetry.v ===== *)
(** * Telemetry: [src/telemetry/player_telemetry.c], [src/telemetry/stream_metrics.c]

    [Module PlayerTelemetry]: the ring of the latest player events.
    [Module StreamMetrics]: the per-stream metric slots, the sampler that turns
    counters into rates and a health status, and the sparkline rings.  The
    clock is a parameter; [double] and [float] are those of [CFloat]. *)
From Stdlib Require Import ZArith Lia Bool.
From Stdlib Require Import Strings.Byte.
From Stdlib Require Import SpecFloat.
From stdpp Require Import base numbers list strings.
From S2P Require Import Prelude.
From S2P Require Import Arrays.
From S2P Require Import CFloat.
#[local] Open Scope Z_scope.

Module PlayerTelemetry.

Definition PLAYER_TELEMETRY_RING_SIZE : nat := 256.

Record player_telemetry_event_t := mkEvent {
  ev_stream_name : cstr;
  session_id : cstr;
  transport : cstr;
  ttff_ms : spec_float;
  rebuffer_count : Z;
  rebuffer_duration_ms : spec_float;
  resolution_switches : Z;
  webrtc_rtt_ms : spec_float;
  ev_timestamp : Z
}.

Definition zero_event : player_telemetry_event_t :=
  mkEvent [] [] [] (S754_zero false) 0 (S754_zero false) 0 (S754_zero false) 0.

Record telemetry_state := mkTelemetry {
  g_events : list player_telemetry_event_t;
  g_head : Z;
  g_count : Z;
  g_initialized : bool
}.

Definition player_telemetry_init (st : telemetry_state) : telemetry_state :=
  mkTelemetry (replicate PLAYER_TELEMETRY_RING_SIZE zero_event) 0 0 true.

Definition player_telemetry_shutdown (st : telemetry_state) : telemetry_state :=
  mkTelemetry (g_events st) 0 0 false.

(** The copy, with the current time when the event has none. *)
Definition stamp (now : Z) (e : player_telemetry_event_t) : player_telemetry_event_t :=
  if ev_timestamp e =? 0 then
    mkEvent (ev_stream_name e) (session_id e) (transport e) (ttff_ms e) (rebuffer_count e)
      (rebuffer_duration_ms e) (resolution_switches e) (webrtc_rtt_ms e) now
  else e.

Definition player_telemetry_record (now : Z) (st : telemetry_state)
    (event : option player_telemetry_event_t) : option telemetry_state :=
  match event with
  | None => Some st
  | Some event =>
      if negb (g_initialized st) then Some st else
      events ← aset (g_events st) (g_head st) (stamp now event);
      Some (mkTelemetry events (cmod (g_head st + 1) (Z.of_nat PLAYER_TELEMETRY_RING_SIZE))
              (if g_count st <? Z.of_nat PLAYER_TELEMETRY_RING_SIZE
               then g_count st + 1 else g_count st) true)
  end.

(** The events written to [out], one per iteration from [i] on. *)
Fixpoint snapshot_loop (n : nat) (i : Z) (st : telemetry_state)
    : option (list player_telemetry_event_t) :=
  match n with
  | O => Some []
  | S n =>
      e ← aget (g_events st)
            (cmod (g_head st - 1 - i + Z.of_nat PLAYER_TELEMETRY_RING_SIZE)
               (Z.of_nat PLAYER_TELEMETRY_RING_SIZE));
      rest ← snapshot_loop n (i + 1) st;
      Some (e :: rest)
  end.

Definition player_telemetry_snapshot (st : telemetry_state) (max_count : Z)
    : option (Z * list player_telemetry_event_t) :=
  if (max_count <=? 0) || negb (g_initialized st) then Some (0, []) else
  let to_copy := if g_count st <? max_count then g_count st else max_count in
  out ← snapshot_loop (Z.to_nat to_copy) 0 st;
  Some (to_copy, out).

Definition player_telemetry_count (st : telemetry_state) : Z := g_count st.

(** ** The ring and its history *)

Definition N : Z := Z.of_nat PLAYER_TELEMETRY_RING_SIZE.

Definition holds (st : telemetry_state) (hist : list player_telemetry_event_t) : Prop :=
  g_initialized st = true ∧
  ring_history PLAYER_TELEMETRY_RING_SIZE (g_events st) (g_head st) (g_count st) hist.

Lemma init_holds st : holds (player_telemetry_init st) [].
Proof. split; [done|]. apply ring_history_init; unfold PLAYER_TELEMETRY_RING_SIZE; [lia|done]. Qed.

Lemma record_holds now st hist e :
  holds st hist →
  ∃ st', player_telemetry_record now st (Some e) = Some st' ∧ holds st' (stamp now e :: hist).
Proof.
  intros [Hinit Hr]. unfold player_telemetry_record. rewrite Hinit. simpl.
  pose proof Hr as []. unfold aset.
  rewrite (proj2 (Z.leb_le _ _)) by lia. rewrite (proj2 (Z.ltb_lt (g_head st) (Z.of_nat (length (g_events st))))) by lia.
  csimpl. eexists. split; [done|]. split; [done|]. simpl.
  by apply ring_history_push.
Qed.

Lemma snapshot_loop_spec n i st hist :
  holds st hist → 0 ≤ i → i + Z.of_nat n ≤ g_count st →
  snapshot_loop n i st = Some (take n (drop (Z.to_nat i) hist)).
Proof.
  intros [Hinit Hr]. pose proof Hr as []. revert i. induction n as [|n IH]; intros i Hi Hn; simpl.
  { by rewrite take_0. }
  unfold cmod. fold N. unfold PLAYER_TELEMETRY_RING_SIZE in *.
  rewrite Z.rem_mod_nonneg by (unfold N, PLAYER_TELEMETRY_RING_SIZE; lia).
  unfold N, PLAYER_TELEMETRY_RING_SIZE.
  replace (g_head st - 1 - i + Z.of_nat 256) with (g_head st - 1 - i + 1 * Z.of_nat 256) by lia.
  rewrite Z.mod_add by lia.
  pose proof (Z.mod_pos_bound (g_head st - 1 - i) (Z.of_nat 256) ltac:(lia)) as Hb.
  unfold aget. rewrite (proj2 (Z.leb_le _ _)) by lia.
  specialize (rh_slot (Z.to_nat i)). rewrite Z2Nat.id in rh_slot by lia.
  rewrite rh_slot by lia.
  destruct (lookup_lt_is_Some_2 hist (Z.to_nat i)) as [e He]; [lia|]. rewrite He. csimpl.
  rewrite IH by lia. csimpl. rewrite (drop_S _ _ _ He). simpl.
  by replace (Z.to_nat (i + 1)) with (S (Z.to_nat i)) by lia.
Qed.

#[local] Arguments player_telemetry_record : simpl never.

(** Events recorded one after the other, each with the time of its record. *)
Fixpoint record_all (st : telemetry_state) (events : list (Z * player_telemetry_event_t))
    : option telemetry_state :=
  match events with
  | [] => Some st
  | (now, e) :: events => st ← player_telemetry_record now st (Some e); record_all st events
  end.

(** Whatever was recorded since the initialisation, a snapshot returns
    the latest events, most recent first, as many as asked for, recorded and
    kept (256); events without a time carry the time of their record. *)
Theorem player_telemetry_snapshot_spec st0 events max_count :
  0 < max_count →
  ∃ st, record_all (player_telemetry_init st0) events = Some st ∧
    player_telemetry_snapshot st max_count
    = Some (Z.min (Z.min (Z.of_nat (length events)) N) max_count,
            take (Z.to_nat (Z.min N max_count)) (rev ((λ p, stamp p.1 p.2) <$> events))).
Proof.
  intros Hmax.
  assert (Hrec : ∀ st hist, holds st hist →
    ∃ st', record_all st events = Some st' ∧ holds st' (rev ((λ p, stamp p.1 p.2) <$> events) ++ hist)).
  { induction events as [|[now e] events IH]; intros st hist Hst; csimpl; [by exists st|].
    destruct (record_holds now st hist e Hst) as (st1 & -> & Hst1). csimpl.
    destruct (IH st1 _ Hst1) as (st2 & -> & Hst2). exists st2. split; [done|].
    by rewrite <-app_assoc. }
  destruct (Hrec _ [] (init_holds st0)) as (st & -> & Hst). exists st. split; [done|].
  rewrite app_nil_r in Hst. unfold player_telemetry_snapshot.
  rewrite (proj2 (Z.leb_gt _ _)) by lia. rewrite (proj1 Hst). simpl.
  assert (Hcount : g_count st = Z.min (Z.of_nat (length events)) N).
  { destruct Hst as [_ []]. rewrite rh_count, length_rev, length_fmap.
    unfold N. rewrite Nat2Z.inj_min. done. }
  set (to_copy := if g_count st <? max_count then g_count st else max_count).
  assert (Hto : to_copy = Z.min (Z.min (Z.of_nat (length events)) N) max_count).
  { subst to_copy. rewrite <-Hcount. case_match; unbool; lia. }
  rewrite (snapshot_loop_spec _ _ st _ Hst) by (unfold N, PLAYER_TELEMETRY_RING_SIZE in *; lia).
  csimpl. rewrite Hto. f_equal. f_equal. rewrite drop_0.
  set (l := rev _). assert (Hl : length l = length events) by (subst l; by rewrite length_rev, length_fmap).
  unfold N, PLAYER_TELEMETRY_RING_SIZE in *.
  destruct (decide (Z.of_nat (length events) < Z.min 256 max_count)).
  - rewrite !take_ge; [done|lia..].
  - f_equal. lia.
Qed.

Lemma player_telemetry_snapshot_spec_witness :
  ∃ st, record_all (player_telemetry_init (mkTelemetry [] 0 0 false))
          [(7, zero_event); (8, zero_event); (9, zero_event)] = Some st ∧
    player_telemetry_snapshot st 2 = Some (2, [stamp 9 zero_event; stamp 8 zero_event]).
Proof.
  destruct (player_telemetry_snapshot_spec (mkTelemetry [] 0 0 false)
              [(7, zero_event); (8, zero_event); (9, zero_event)] 2 ltac:(lia)) as (st & Hst & Hsn).
  exists st. split; [exact Hst|exact Hsn].
Defined.

End PlayerTelemetry.

Module StreamMetrics.

Definition METRICS_RING_SIZE : nat := 720.
Definition STREAM_HEALTH_FRAME_TIMEOUT_UP : Z := 5.
Definition STREAM_HEALTH_FRAME_TIMEOUT_DOWN : Z := 10.
Definition RECORDING_GAP_THRESHOLD_SEC : Z := 5.

Inductive stream_health_status_t := STREAM_HEALTH_UP | STREAM_HEALTH_DEGRADED | STREAM_HEALTH_DOWN.

Record metrics_ring_sample_t := mkSample {
  sample_fps : spec_float;
  sample_bitrate_kbps : spec_float;
  sample_timestamp : Z
}.

(** The groups of fields of [stream_metrics_t], as its comments group them. *)
Record gauges := mkGauges {
  last_frame_ts : Z;
  current_fps : spec_float;
  current_bitrate_bps : spec_float;
  connection_latency_ms : spec_float;
  configured_fps : spec_float
}.

Record counters := mkCounters {
  frames_total : Z;
  frames_dropped : Z;
  bytes_received : Z;
  reconnects_total : Z;
  uptime_seconds : Z
}.

Record error_counters := mkErrors {
  error_decode : Z;
  error_timeout : Z;
  error_protocol : Z;
  error_io : Z
}.

Record recording_metrics := mkRecording {
  recording_active : bool;
  recording_bytes_written : Z;
  recording_segments_total : Z;
  recording_gaps_total : Z
}.

Record sample_ring := mkRing {
  ring : list metrics_ring_sample_t;
  ring_head : Z;
  ring_count : Z
}.

Record sampler_state := mkSampler {
  prev_frames_total : Z;
  prev_bytes_received : Z;
  prev_sample_time : Z
}.

Record stream_metrics_t := mkMetrics {
  stream_name : cstr;
  active : bool;
  health_status : stream_health_status_t;
  stream_up : bool;
  gauge : gauges;
  counter : counters;
  error_counter : error_counters;
  recording : recording_metrics;
  samples : sample_ring;
  last_segment_end_time : Z;
  stream_start_time : Z;
  prev : sampler_state
}.

Definition F64 := binary64.
Definition d_of_Z (z : Z) : spec_float := f_of_Z F64 z.

Definition zero_sample : metrics_ring_sample_t := mkSample (S754_zero false) (S754_zero false) 0.

(** A slot after [calloc] (enum value 0 is [STREAM_HEALTH_UP]). *)
Definition zero_slot : stream_metrics_t :=
  mkMetrics [] false STREAM_HEALTH_UP false
    (mkGauges 0 (S754_zero false) (S754_zero false) (S754_zero false) (S754_zero false))
    (mkCounters 0 0 0 0 0) (mkErrors 0 0 0 0) (mkRecording false 0 0 0)
    (mkRing (replicate METRICS_RING_SIZE zero_sample) 0 0) 0 0 (mkSampler 0 0 0).

Record metrics_state := mkState {
  g_metrics : list stream_metrics_t;
  g_initialized : bool
}.

Definition upd_counter (f : counters → counters) (m : stream_metrics_t) : stream_metrics_t :=
  mkMetrics (stream_name m) (active m) (health_status m) (stream_up m) (gauge m) (f (counter m))
    (error_counter m) (recording m) (samples m) (last_segment_end_time m) (stream_start_time m) (prev m).
Definition upd_gauge (f : gauges → gauges) (m : stream_metrics_t) : stream_metrics_t :=
  mkMetrics (stream_name m) (active m) (health_status m) (stream_up m) (f (gauge m)) (counter m)
    (error_counter m) (recording m) (samples m) (last_segment_end_time m) (stream_start_time m) (prev m).
Definition upd_errors (f : error_counters → error_counters) (m : stream_metrics_t) : stream_metrics_t :=
  mkMetrics (stream_name m) (active m) (health_status m) (stream_up m) (gauge m) (counter m)
    (f (error_counter m)) (recording m) (samples m) (last_segment_end_time m) (stream_start_time m) (prev m).
Definition upd_recording (f : recording_metrics → recording_metrics) (seg_end : Z)
    (m : stream_metrics_t) : stream_metrics_t :=
  mkMetrics (stream_name m) (active m) (health_status m) (stream_up m) (gauge m) (counter m)
    (error_counter m) (f (recording m)) (samples m) seg_end (stream_start_time m) (prev m).

(** [strncmp (s, t, MAX_STREAM_NAME) == 0] *)
Definition strneq (s t : cstr) : bool := streq (take MAX_STREAM_NAME s) (take MAX_STREAM_NAME t).

Definition is_stream (name : cstr) (m : stream_metrics_t) : bool :=
  active m && strneq (stream_name m) name.

(** One loop: the slot of the stream, else the first free slot met. *)
Definition find_slot (ms : list stream_metrics_t) (name : cstr) : option nat :=
  match find_idx (is_stream name) ms with
  | Some i => Some i
  | None => find_idx (λ m, negb (active m)) ms
  end.

Definition find_active_slot (ms : list stream_metrics_t) (name : cstr) : option nat :=
  find_idx (is_stream name) ms.

Definition metrics_init (calloc_ok : bool) (max_streams : Z) (st : metrics_state)
    : Z * metrics_state :=
  if g_initialized st then (0, st) else
  let max_streams := if (max_streams <=? 0) || (max_streams >? Z.of_nat MAX_STREAMS)
                     then Z.of_nat MAX_STREAMS else max_streams in
  if negb calloc_ok then (-1, mkState [] false)
  else (0, mkState (replicate (Z.to_nat max_streams) zero_slot) true).

Definition metrics_shutdown (st : metrics_state) : metrics_state :=
  if g_initialized st then mkState [] false else st.

(** The assignments of [metrics_get_slot] to a slot it takes. *)
Definition take_slot (now : Z) (name : cstr) (m : stream_metrics_t) : stream_metrics_t :=
  mkMetrics (strcpy_trunc MAX_STREAM_NAME name) true STREAM_HEALTH_DOWN false
    (mkGauges 0 (current_fps (gauge m)) (current_bitrate_bps (gauge m))
       (connection_latency_ms (gauge m)) (d_of_Z 30))
    (mkCounters 0 0 0 0 0) (mkErrors 0 0 0 0) (mkRecording false 0 0 0)
    (mkRing (ring (samples m)) 0 0) 0 now (mkSampler 0 0 0).

(** Without a concurrent caller the loop ends in its first iteration. *)
Definition metrics_get_slot (now : Z) (st : metrics_state) (name : option cstr)
    : option nat * metrics_state :=
  match name with
  | None | Some [] => (None, st)
  | Some name =>
      if negb (g_initialized st) then (None, st) else
      match find_slot (g_metrics st) name with
      | None => (None, st)
      | Some i =>
          (Some i,
           match g_metrics st !! i with
           | Some m => if active m then st
                       else mkState (<[i := take_slot now name m]> (g_metrics st)) true
           | None => st
           end)
      end
  end.

(** The updates: on the slot of the stream, if it has or gets one. *)
Definition on_slot (now : Z) (st : metrics_state) (name : option cstr)
    (f : stream_metrics_t → stream_metrics_t) : metrics_state :=
  if negb (g_initialized st) then st else
  let '(slot, st) := metrics_get_slot now st name in
  match slot with
  | Some i => mkState (alter f i (g_metrics st)) (g_initialized st)
  | None => st
  end.

Definition release (m : stream_metrics_t) : stream_metrics_t :=
  mkMetrics (stream_name m) false (health_status m) (stream_up m) (gauge m) (counter m)
    (error_counter m) (recording m) (samples m) (last_segment_end_time m) (stream_start_time m) (prev m).

Definition metrics_release_slot (st : metrics_state) (name : option cstr) : metrics_state :=
  match name with
  | None => st
  | Some name =>
      if negb (g_initialized st) then st else
      match find_active_slot (g_metrics st) name with
      | Some i => mkState (alter release i (g_metrics st)) true
      | None => st
      end
  end.

(** [now]: the clock at the allocation of the slot, [now']: at the update. *)
Definition metrics_record_frame (now now' : Z) (st : metrics_state) (name : option cstr)
    (bytes : Z) (is_video : bool) : metrics_state :=
  on_slot now st name (λ m,
    upd_gauge (λ g, mkGauges now' (current_fps g) (current_bitrate_bps g)
                      (connection_latency_ms g) (configured_fps g))
      (upd_counter (λ c, mkCounters
         (if is_video then u64 (frames_total c + 1) else frames_total c) (frames_dropped c)
         (u64 (bytes_received c + u64 bytes)) (reconnects_total c) (uptime_seconds c)) m)).

Definition metrics_record_drop (now : Z) (st : metrics_state) (name : option cstr) : metrics_state :=
  on_slot now st name (upd_counter (λ c,
    mkCounters (frames_total c) (u64 (frames_dropped c + 1)) (bytes_received c)
      (reconnects_total c) (uptime_seconds c))).

Definition metrics_record_error (now : Z) (st : metrics_state) (name error_type : option cstr)
    : metrics_state :=
  match error_type with
  | None => st
  | Some t =>
      on_slot now st name (upd_errors (λ e,
        if streq t (lit "decode") then
          mkErrors (u64 (error_decode e + 1)) (error_timeout e) (error_protocol e) (error_io e)
        else if streq t (lit "timeout") then
          mkErrors (error_decode e) (u64 (error_timeout e + 1)) (error_protocol e) (error_io e)
        else if streq t (lit "protocol") then
          mkErrors (error_decode e) (error_timeout e) (u64 (error_protocol e + 1)) (error_io e)
        else if streq t (lit "io") then
          mkErrors (error_decode e) (error_timeout e) (error_protocol e) (u64 (error_io e + 1))
        else e))
  end.

Definition metrics_record_reconnect (now : Z) (st : metrics_state) (name : option cstr)
    : metrics_state :=
  on_slot now st name (upd_counter (λ c,
    mkCounters (frames_total c) (frames_dropped c) (bytes_received c)
      (u64 (reconnects_total c + 1)) (uptime_seconds c))).

Definition metrics_record_segment_complete (now : Z) (st : metrics_state) (name : option cstr)
    (start_time end_time bytes : Z) : metrics_state :=
  on_slot now st name (λ m,
    let last := last_segment_end_time m in
    let gap := (last >? 0) && (start_time >? 0) &&
               fgt (d_of_Z (start_time - last)) (d_of_Z RECORDING_GAP_THRESHOLD_SEC) in
    upd_recording (λ r,
      mkRecording (recording_active r) (u64 (recording_bytes_written r + bytes))
        (u64 (recording_segments_total r + 1))
        (if gap then u64 (recording_gaps_total r + 1) else recording_gaps_total r))
      (if end_time >? 0 then end_time else last) m).

Definition metrics_set_recording_active (now : Z) (st : metrics_state) (name : option cstr)
    (active : bool) : metrics_state :=
  on_slot now st name (λ m, upd_recording (λ r,
    mkRecording active (recording_bytes_written r) (recording_segments_total r)
      (recording_gaps_total r)) (last_segment_end_time m) m).

Definition metrics_set_connection_latency (now : Z) (st : metrics_state) (name : option cstr)
    (latency_ms : spec_float) : metrics_state :=
  on_slot now st name (upd_gauge (λ g,
    mkGauges (last_frame_ts g) (current_fps g) (current_bitrate_bps g) latency_ms (configured_fps g))).

Definition metrics_set_configured_fps (now : Z) (st : metrics_state) (name : option cstr)
    (fps : spec_float) : metrics_state :=
  on_slot now st name (upd_gauge (λ g,
    mkGauges (last_frame_ts g) (current_fps g) (current_bitrate_bps g) (connection_latency_ms g) fps)).

(** ** The sampler *)

Definition half : spec_float := f_lit F64 1 2.

(** [0.5 * old + 0.5 * delta / dt] *)
Definition smooth (old delta dt : spec_float) : spec_float :=
  fadd F64 (fmul F64 half old) (fdiv F64 (fmul F64 half delta) dt).

Definition health (now : Z) (g : gauges) : stream_health_status_t :=
  let frame_age := if last_frame_ts g >? 0 then d_of_Z (now - last_frame_ts g) else d_of_Z 999 in
  if fgt frame_age (d_of_Z STREAM_HEALTH_FRAME_TIMEOUT_DOWN) then STREAM_HEALTH_DOWN
  else if fgt frame_age (d_of_Z STREAM_HEALTH_FRAME_TIMEOUT_UP) ||
          flt (current_fps g) (fmul F64 (configured_fps g) half) then STREAM_HEALTH_DEGRADED
  else STREAM_HEALTH_UP.

(** The body of the loop of [sampler_thread_func] for one active slot; [None]:
    undefined (an uptime below zero converted to [uint64_t], or a ring index
    out of range). *)
Definition sample_slot (now : Z) (m : stream_metrics_t) : option stream_metrics_t :=
  let c := counter m in
  let g := gauge m in
  let p := prev m in
  let dt := d_of_Z (now - prev_sample_time p) in
  let g := if (prev_sample_time p >? 0) && fgt dt (d_of_Z 0) then
             let df := d_of_Z (u64 (frames_total c - prev_frames_total p)) in
             let db := d_of_Z (u64 (bytes_received c - prev_bytes_received p)) in
             mkGauges (last_frame_ts g) (smooth (current_fps g) df dt)
               (smooth (current_bitrate_bps g) (fmul F64 db (d_of_Z 8)) dt)
               (connection_latency_ms g) (configured_fps g)
           else g in
  uptime ← (if stream_start_time m >? 0 then f_to_u64 (d_of_Z (now - stream_start_time m))
            else Some (uptime_seconds c));
  let status := health now g in
  let s := samples m in
  r ← aset (ring s) (ring_head s)
        (mkSample (f_convert binary32 (current_fps g))
           (f_convert binary32 (fdiv F64 (current_bitrate_bps g) (d_of_Z 1000))) now);
  Some (mkMetrics (stream_name m) (active m) status
          (match status with STREAM_HEALTH_UP => true | _ => false end) g
          (mkCounters (frames_total c) (frames_dropped c) (bytes_received c) (reconnects_total c) uptime)
          (error_counter m) (recording m)
          (mkRing r (cmod (ring_head s + 1) (Z.of_nat METRICS_RING_SIZE))
             (if ring_count s <? Z.of_nat METRICS_RING_SIZE then ring_count s + 1 else ring_count s))
          (last_segment_end_time m) (stream_start_time m)
          (mkSampler (frames_total c) (bytes_received c) now)).

Definition sampler_tick (now : Z) (st : metrics_state) : option metrics_state :=
  ms ← mapM (λ m, if active m then sample_slot now m else Some m) (g_metrics st);
  Some (mkState ms (g_initialized st)).

(** ** Readers *)

Definition metrics_snapshot_all (st : metrics_state) (max_count : Z) : list stream_metrics_t :=
  if negb (g_initialized st) || (max_count <=? 0) then []
  else take (Z.to_nat max_count) (List.filter active (g_metrics st)).

Fixpoint ring_loop (n : nat) (read_pos : Z) (r : list metrics_ring_sample_t)
    : option (list metrics_ring_sample_t) :=
  match n with
  | O => Some []
  | S n =>
      s ← aget r read_pos;
      rest ← ring_loop n (cmod (read_pos + 1) (Z.of_nat METRICS_RING_SIZE)) r;
      Some (s :: rest)
  end.

Definition read_ring (s : sample_ring) (max_count : Z) : option (Z * list metrics_ring_sample_t) :=
  let avail := ring_count s in
  let to_copy := if avail <? max_count then avail else max_count in
  let start := if avail <? Z.of_nat METRICS_RING_SIZE then 0 else ring_head s in
  let skip := avail - to_copy in
  out ← ring_loop (Z.to_nat to_copy) (cmod (start + skip) (Z.of_nat METRICS_RING_SIZE)) (ring s);
  Some (to_copy, out).

Definition metrics_get_ring_data (st : metrics_state) (name : option cstr) (max_count : Z)
    : option (Z * list metrics_ring_sample_t) :=
  match name with
  | None => Some (0, [])
  | Some name =>
      if negb (g_initialized st) || (max_count <=? 0) then Some (0, []) else
      match find_active_slot (g_metrics st) name with
      | None => Some (0, [])
      | Some i => m ← g_metrics st !! i; read_ring (samples m) max_count
      end
  end.

Definition metrics_get_max_streams (st : metrics_state) : nat := length (g_metrics st).

(** ** The sparkline *)

Lemma ring_loop_spec r p l :
  length r = METRICS_RING_SIZE → 0 ≤ p < Z.of_nat METRICS_RING_SIZE →
  (∀ i, (i < length l)%nat →
     r !! Z.to_nat ((p + Z.of_nat i) `mod` Z.of_nat METRICS_RING_SIZE) = l !! i) →
  ring_loop (length l) p r = Some l.
Proof.
  intros Hr. revert p. induction l as [|x l IH]; intros p Hp Hl; [done|]. simpl.
  pose proof (Hl O ltac:(simpl; lia)) as H0. simpl in H0.
  rewrite Z.add_0_r, Z.mod_small in H0 by lia.
  unfold aget. rewrite (proj2 (Z.leb_le _ _)) by lia. rewrite H0. csimpl.
  unfold cmod. rewrite Z.rem_mod_nonneg by lia. rewrite IH; [done| |].
  - apply Z.mod_pos_bound. unfold METRICS_RING_SIZE. lia.
  - intros i Hi. rewrite Zplus_mod_idemp_l. specialize (Hl (S i) ltac:(simpl; lia)).
    simpl in Hl. rewrite <-Hl. do 3 f_equal. lia.
Qed.

Lemma read_ring_spec s hist max_count :
  ring_history METRICS_RING_SIZE (ring s) (ring_head s) (ring_count s) hist → 0 < max_count →
  let n := Z.min (ring_count s) max_count in
  read_ring s max_count = Some (n, reverse (take (Z.to_nat n) hist)).
Proof.
  intros [] Hmax n. unfold read_ring. unfold METRICS_RING_SIZE in *.
  assert ((if ring_count s <? max_count then ring_count s else max_count) = n) as ->.
  { subst n. destruct (Z.ltb_spec (ring_count s) max_count); lia. }
  set (start := if ring_count s <? Z.of_nat 720 then 0 else ring_head s).
  assert (Hlen : length (reverse (take (Z.to_nat n) hist)) = Z.to_nat n).
  { rewrite length_reverse, length_take. lia. }
  pose proof (ring_loop_spec (ring s) (cmod (start + (ring_count s - n)) (Z.of_nat 720))
                (reverse (take (Z.to_nat n) hist))) as Hloop.
  rewrite Hlen in Hloop. unfold METRICS_RING_SIZE in Hloop.
  assert (0 ≤ start + (ring_count s - n)) by (subst start; case_match; lia).
  rewrite Hloop; [done|done| |].
  - unfold cmod. rewrite Z.rem_mod_nonneg by lia. apply Z.mod_pos_bound. lia.
  - intros i Hi. rewrite reverse_lookup by (rewrite length_take; lia).
    rewrite lookup_take_lt by (rewrite length_take; lia).
    rewrite length_take, Nat.min_l by lia. rewrite <-rh_slot by lia. f_equal. f_equal.
    unfold cmod. rewrite Z.rem_mod_nonneg, Zplus_mod_idemp_l by lia.
    destruct (Z.ltb_spec (ring_count s) (Z.of_nat 720)) as [Hlt|Hge]; subst start.
    + f_equal. specialize (rh_filling Hlt). lia.
    + replace (ring_head s + (ring_count s - n) + Z.of_nat i)
        with (ring_head s - 1 - Z.of_nat (Z.to_nat n - S i) + 1 * Z.of_nat 720) by lia.
      by rewrite Z.mod_add by lia.
Qed.

(** The life of a slot since it was taken: ticks of the sampler, whose samples
    are kept most recent first, and any update that leaves the samples alone. *)
Inductive sampled : stream_metrics_t → list metrics_ring_sample_t → Prop :=
| sampled_taken now name m :
    length (ring (samples m)) = METRICS_RING_SIZE → sampled (take_slot now name m) []
| sampled_tick now m m' hist :
    sampled m hist → sample_slot now m = Some m' →
    sampled m' (mkSample (f_convert binary32 (current_fps (gauge m')))
                  (f_convert binary32 (fdiv F64 (current_bitrate_bps (gauge m')) (d_of_Z 1000)))
                  now :: hist)
| sampled_update m m' hist : sampled m hist → samples m' = samples m → sampled m' hist.

Lemma sampled_history m hist :
  sampled m hist →
  ring_history METRICS_RING_SIZE (ring (samples m)) (ring_head (samples m)) (ring_count (samples m)) hist.
Proof.
  induction 1 as [now name m Hm|now m m' hist _ IH Htick|m m' hist _ IH ->]; [| |done].
  - apply ring_history_init; [unfold METRICS_RING_SIZE; lia|done].
  - unfold sample_slot in Htick.
    match type of Htick with (?u ≫= _) = _ => destruct u as [uptime|]; [|done] end.
    csimpl in Htick.
    match type of Htick with (?u ≫= _) = _ => destruct u as [r|] eqn:Hset; [|done] end.
    csimpl in Htick. simplify_eq. simpl. apply aset_inv in Hset as [_ ->].
    by apply ring_history_push.
Qed.

(** The sparkline of a stream is the latest samples taken since its slot
    was allocated, at most 720 and at most as many as asked for, in the order
    they were taken. *)
Theorem metrics_get_ring_data_spec st name i m hist max_count :
  g_initialized st = true → find_active_slot (g_metrics st) name = Some i →
  g_metrics st !! i = Some m → sampled m hist → 0 < max_count →
  let n := Z.min (Z.min (Z.of_nat (length hist)) 720) max_count in
  metrics_get_ring_data st (Some name) max_count = Some (n, reverse (take (Z.to_nat n) hist)).
Proof.
  intros Hinit Hfind Hi Hs Hmax n. unfold metrics_get_ring_data.
  rewrite Hinit, (proj2 (Z.leb_gt _ _)) by lia. simpl. rewrite Hfind, Hi. csimpl.
  pose proof (sampled_history _ _ Hs) as Hr. rewrite (read_ring_spec _ _ _ Hr Hmax).
  rewrite (rh_count _ _ _ _ _ Hr). unfold METRICS_RING_SIZE. subst n.
  by replace (Z.of_nat (Nat.min (length hist) 720)) with (Z.min (Z.of_nat (length hist)) 720) by lia.
Qed.

(** A slot taken over from a released stream starts with all counters,
    errors and samples cleared, but keeps the rates and the latency of the
    stream that had it: until its second sample, a new stream reports (and
    smooths from) its predecessor's frame rate. *)
Theorem reused_slot_keeps_rates now now' st name name' m i :
  g_initialized st = true → find_active_slot (g_metrics st) name = Some i →
  g_metrics st !! i = Some m →
  find_slot (g_metrics (metrics_release_slot st (Some name))) name' = Some i → name' ≠ [] →
  (∀ m', g_metrics (metrics_release_slot st (Some name)) !! i = Some m' → active m' = false) →
  ∃ m', g_metrics (metrics_get_slot now (metrics_release_slot st (Some name)) (Some name')).2 !! i
          = Some m' ∧
    active m' = true ∧ counter m' = mkCounters 0 0 0 0 0 ∧ error_counter m' = mkErrors 0 0 0 0 ∧
    ring_count (samples m') = 0 ∧
    current_fps (gauge m') = current_fps (gauge m) ∧
    current_bitrate_bps (gauge m') = current_bitrate_bps (gauge m) ∧
    connection_latency_ms (gauge m') = connection_latency_ms (gauge m) ∧
    (∀ m'', sample_slot now' m' = Some m'' → current_fps (gauge m'') = current_fps (gauge m)).
Proof.
  intros Hinit Hfind Hi Hslot Hname Hinact. unfold metrics_get_slot.
  assert (Hrel : metrics_release_slot st (Some name)
                 = mkState (alter release i (g_metrics st)) true).
  { unfold metrics_release_slot. by rewrite Hinit, Hfind. }
  rewrite Hrel in *. destruct name' as [|c name']; [done|]. simpl in *. rewrite Hslot.
  assert (Hi' : alter release i (g_metrics st) !! i = Some (release m)).
  { by rewrite list_lookup_alter_eq, Hi. }
  rewrite Hi'. simpl. rewrite list_lookup_insert_eq.
  2:{ rewrite length_alter. by eapply lookup_lt_Some. }
  eexists. split; [done|]. simpl. split_and!; try done.
  intros m'' Htick. unfold sample_slot in Htick.
  match type of Htick with (?u ≫= _) = _ => destruct u as [uptime|]; [|done] end.
  csimpl in Htick.
  match type of Htick with (?u ≫= _) = _ => destruct u as [r|] eqn:Hset; [|done] end.
  csimpl in Htick. by simplify_eq.
Qed.

(** ** Witnesses *)

Definition example_state : metrics_state :=
  metrics_record_frame 100 100 (metrics_init true 4 (mkState [] false)).2 (Some (lit "cam")) 1500 true.

Definition example_tick : metrics_state := default example_state (sampler_tick 105 example_state).

Lemma metrics_get_ring_data_spec_witness :
  metrics_get_ring_data example_tick (Some (lit "cam")) 10
  = Some (1, [mkSample (S754_zero false) (S754_zero false) 105]).
Proof.
  refine (metrics_get_ring_data_spec example_tick (lit "cam") 0
            (default zero_slot (g_metrics example_tick !! 0%nat))
            [mkSample (S754_zero false) (S754_zero false) 105] 10 _ _ _ _ _).
  - vm_compute. reflexivity.
  - vm_compute. reflexivity.
  - vm_compute. reflexivity.
  - refine (sampled_tick 105 (default zero_slot (g_metrics example_state !! 0%nat)) _ [] _ _).
    + refine (sampled_update (take_slot 100 (lit "cam") zero_slot) _ [] _ _).
      * apply sampled_taken. vm_compute. reflexivity.
      * vm_compute. reflexivity.
    + vm_compute. reflexivity.
  - lia.
Defined.

(** A stream at ten frames per second, released; the slot goes to another. *)
Definition example_running : metrics_state :=
  mkState [mkMetrics (lit "cam") true STREAM_HEALTH_UP true
             (mkGauges 100 (d_of_Z 10) (d_of_Z 80000) (d_of_Z 3) (d_of_Z 10))
             (mkCounters 500 0 90000 1 50) (mkErrors 0 1 0 0) (mkRecording true 10 2 0)
             (mkRing (replicate METRICS_RING_SIZE zero_sample) 4 4) 0 50 (mkSampler 500 90000 100)]
    true.

Lemma reused_slot_keeps_rates_witness :
  ∃ m', g_metrics (metrics_get_slot 200 (metrics_release_slot example_running (Some (lit "cam")))
                     (Some (lit "door"))).2 !! 0%nat = Some m' ∧
    counter m' = mkCounters 0 0 0 0 0 ∧ current_fps (gauge m') = d_of_Z 10.
Proof.
  destruct (reused_slot_keeps_rates 200 205 example_running (lit "cam") (lit "door")
              (default zero_slot (g_metrics example_running !! 0%nat)) 0)
    as (m' & ? & _ & ? & _ & _ & ? & _).
  - reflexivity.
  - vm_compute. reflexivity.
  - reflexivity.
  - vm_compute. reflexivity.
  - discriminate.
  - intros m' Hm'. vm_compute in Hm'. injection Hm' as <-. reflexivity.
  - exists m'. split_and!; assumption.
Defined.

End StreamMetrics.
