(* ===== verification/BatchDelete.v ===== *)
(** * Batch delete jobs: [src/web/batch_delete_progress.c]

    The table of ten deletion jobs whose progress the web interface polls, and
    the UUIDs that name them.  The random bytes of [getrandom] and the clock
    are parameters. *)
From Stdlib Require Import ZArith Lia Bool.
From Stdlib Require Import Strings.Byte.
From stdpp Require Import base numbers list strings.
From S2P Require Import Prelude.
#[local] Open Scope Z_scope.

(** ** UUIDs *)

(** Set the version (byte 6) and variant (byte 8) bits. *)
Definition uuid_bits (uuid : list byte) : list byte :=
  alter (λ b, Z_byte (Z.lor (Z.land (byte_Z b) 63) 128)) 8%nat
    (alter (λ b, Z_byte (Z.lor (Z.land (byte_Z b) 15) 64)) 6%nat uuid).

(** The text of 16 bytes; [random] has 16. *)
Definition generate_uuid_v4 (random : list byte) : cstr :=
  let u := uuid_bits random in
  let part (i n : nat) := concat (hex2 <$> take n (drop i u)) in
  part 0%nat 4%nat ++ lit "-" ++ part 4%nat 2%nat ++ lit "-" ++ part 6%nat 2%nat ++ lit "-" ++
  part 8%nat 2%nat ++ lit "-" ++ part 10%nat 6%nat.

(** ** Jobs *)

Definition MAX_BATCH_DELETE_JOBS : nat := 10.
Definition JOB_RETENTION_TIME : Z := 300.

Inductive batch_delete_status_t :=
| BATCH_DELETE_STATUS_PENDING
| BATCH_DELETE_STATUS_RUNNING
| BATCH_DELETE_STATUS_COMPLETE
| BATCH_DELETE_STATUS_ERROR.

#[global] Instance batch_delete_status_eq_dec : EqDecision batch_delete_status_t.
Proof. solve_decision. Defined.

Record batch_delete_progress_t := mkJob {
  job_id : cstr;
  status : batch_delete_status_t;
  total : Z;
  current : Z;
  succeeded : Z;
  failed : Z;
  status_message : cstr;
  error_message : cstr;
  created_at : Z;
  updated_at : Z;
  is_active : bool
}.

Definition zero_job : batch_delete_progress_t :=
  mkJob [] BATCH_DELETE_STATUS_PENDING 0 0 0 0 [] [] 0 0 false.

Record jobs_state := mkJobs {
  g_jobs : list batch_delete_progress_t;
  g_initialized : bool
}.

Definition batch_delete_progress_init (st : jobs_state) : Z * jobs_state :=
  if g_initialized st then (0, st)
  else (0, mkJobs (replicate MAX_BATCH_DELETE_JOBS zero_job) true).

Definition batch_delete_progress_cleanup (st : jobs_state) : jobs_state :=
  if negb (g_initialized st) then st
  else mkJobs (replicate MAX_BATCH_DELETE_JOBS zero_job) false.

(** Finished, and not updated for the retention time. *)
Definition expired (now : Z) (j : batch_delete_progress_t) : bool :=
  (bool_decide (status j = BATCH_DELETE_STATUS_COMPLETE) ||
   bool_decide (status j = BATCH_DELETE_STATUS_ERROR)) &&
  (now - updated_at j >? JOB_RETENTION_TIME).

Definition find_available_slot (now : Z) (jobs : list batch_delete_progress_t) : option nat :=
  match find_idx (λ j, negb (is_active j)) jobs with
  | Some i => Some i
  | None => find_idx (expired now) jobs
  end.

Definition has_id (id : cstr) (j : batch_delete_progress_t) : bool :=
  is_active j && streq (job_id j) id.

Definition find_job_by_id (jobs : list batch_delete_progress_t) (id : cstr) : option nat :=
  find_idx (has_id id) jobs.

(** Result: return value and the id written to [job_id_out]. [out]: whether
    [job_id_out] is not [NULL]. *)
Definition batch_delete_progress_create_job (now : Z) (random : list byte) (st : jobs_state)
    (total : Z) (out : bool) : Z * option cstr * jobs_state :=
  if negb (g_initialized st) then (-1, None, st) else
  if negb out then (-1, None, st) else
  match find_available_slot now (g_jobs st) with
  | None => (-1, None, st)
  | Some slot =>
      let id := generate_uuid_v4 random in
      let j := mkJob id BATCH_DELETE_STATUS_PENDING total 0 0 0
                 (strcpy_trunc 256 (lit "Preparing to delete " ++ decimal total
                                      ++ lit " recordings...")) [] now now true in
      (0, Some (strcpy_trunc 64 id), mkJobs (<[slot := j]> (g_jobs st)) true)
  end.

(** The operations on one job: [-1] when there is none with that id. *)
Definition on_job (st : jobs_state) (id : option cstr)
    (f : batch_delete_progress_t → batch_delete_progress_t) : Z * jobs_state :=
  if negb (g_initialized st) then (-1, st) else
  match id with
  | None => (-1, st)
  | Some id =>
      match find_job_by_id (g_jobs st) id with
      | None => (-1, st)
      | Some slot => (0, mkJobs (alter f slot (g_jobs st)) true)
      end
  end.

Definition batch_delete_progress_set_total (now : Z) (st : jobs_state) (id : option cstr)
    (t : Z) : Z * jobs_state :=
  on_job st id (λ j, mkJob (job_id j) (status j) t (current j) (succeeded j) (failed j)
    (status_message j) (error_message j) (created_at j) now (is_active j)).

Definition batch_delete_progress_update (now : Z) (st : jobs_state) (id : option cstr)
    (cur succ fail : Z) (message : option cstr) : Z * jobs_state :=
  on_job st id (λ j, mkJob (job_id j) BATCH_DELETE_STATUS_RUNNING (total j) cur succ fail
    (match message with Some m => strcpy_trunc 256 m | None => status_message j end)
    (error_message j) (created_at j) now (is_active j)).

Definition batch_delete_progress_complete (now : Z) (st : jobs_state) (id : option cstr)
    (succ fail : Z) : Z * jobs_state :=
  on_job st id (λ j, mkJob (job_id j) BATCH_DELETE_STATUS_COMPLETE (total j) (total j) succ fail
    (strcpy_trunc 256 (lit "Batch delete operation complete")) (error_message j)
    (created_at j) now (is_active j)).

Definition batch_delete_progress_error (now : Z) (st : jobs_state) (id : option cstr)
    (message : option cstr) : Z * jobs_state :=
  on_job st id (λ j, mkJob (job_id j) BATCH_DELETE_STATUS_ERROR (total j) (current j)
    (succeeded j) (failed j)
    (strcpy_trunc 256 (lit "Error: " ++ default (lit "Unknown error") message))
    (match message with Some m => strcpy_trunc 256 m | None => error_message j end)
    (created_at j) now (is_active j)).

Definition batch_delete_progress_get (st : jobs_state) (id : option cstr)
    : option batch_delete_progress_t :=
  if negb (g_initialized st) then None else
  id ← id;
  slot ← find_job_by_id (g_jobs st) id;
  g_jobs st !! slot.

Definition batch_delete_progress_delete (st : jobs_state) (id : option cstr) : Z * jobs_state :=
  on_job st id (λ _, zero_job).

(** ** Correctness *)

(** No two jobs in use have the same id. *)
Definition unique_ids (jobs : list batch_delete_progress_t) : Prop :=
  ∀ i j a b, jobs !! i = Some a → jobs !! j = Some b →
    is_active a = true → is_active b = true → job_id a = job_id b → i = j.

Lemma has_id_true id j : has_id id j = true ↔ is_active j = true ∧ job_id j = id.
Proof. unfold has_id. by rewrite andb_true_iff, streq_true. Qed.

Lemma find_job_unique jobs i j :
  unique_ids jobs → jobs !! i = Some j → is_active j = true →
  find_job_by_id jobs (job_id j) = Some i.
Proof.
  intros Hu Hi Ha. apply (find_idx_unique _ _ _ j); [done|by apply has_id_true|].
  intros k y Hk (? & ?)%has_id_true. eauto.
Qed.

Definition hex_char (c : byte) : Prop := c ∈ lit "0123456789abcdef".

Lemma hex_digit_char n : 0 ≤ n < 16 → hex_char (hex_digit n).
Proof.
  intros Hn. unfold hex_char, hex_digit.
  destruct (lookup_lt_is_Some_2 (lit "0123456789abcdef") (Z.to_nat n)) as [c Hc].
  { assert (length (lit "0123456789abcdef") = 16%nat) as -> by reflexivity. lia. }
  rewrite Hc. simpl. by eapply list_elem_of_lookup_2.
Qed.

Lemma hex_high b : hex_char (hex_digit (Z.shiftr (byte_Z b) 4)).
Proof.
  pose proof (byte_Z_range b). apply hex_digit_char.
  rewrite Z.shiftr_div_pow2 by lia. split; [apply Z.div_pos; lia|apply Z.div_lt_upper_bound; lia].
Qed.

Lemma hex_low b : hex_char (hex_digit (Z.land (byte_Z b) 15)).
Proof.
  apply hex_digit_char. rewrite (Z.land_ones _ 4) by lia. apply Z.mod_pos_bound. lia.
Qed.

Lemma version_digit b :
  hex_digit (Z.shiftr (byte_Z (Z_byte (Z.lor (Z.land (byte_Z b) 15) 64))) 4) = Byte.x34.
Proof. destruct b; reflexivity. Qed.

Lemma variant_digit b :
  hex_digit (Z.shiftr (byte_Z (Z_byte (Z.lor (Z.land (byte_Z b) 63) 128))) 4) ∈ lit "89ab".
Proof. apply (bool_decide_unpack _). destruct b; reflexivity. Qed.

#[local] Arguments hex_digit : simpl never.
#[local] Arguments Z_byte : simpl never.
#[local] Arguments lit : simpl never.

(** The id of a job has the form of a version 4, variant 1 UUID, whatever
    the random bytes: 36 characters, hyphens after 8, 13, 18 and 23, version
    digit [4], variant digit [8], [9], [a] or [b], lower-case hexadecimal
    elsewhere; so it fits its 64-byte field. *)
Theorem generate_uuid_v4_form random :
  length random = 16%nat →
  let id := generate_uuid_v4 random in
  length id = 36%nat ∧ id !! 14%nat = Some Byte.x34 ∧
  (∃ v, id !! 19%nat = Some v ∧ v ∈ lit "89ab") ∧
  ∀ i c, id !! i = Some c →
    if decide (i ∈ [8; 13; 18; 23]%nat) then c = Byte.x2d else hex_char c.
Proof.
  intros Hlen. do 16 (destruct random as [|? random]; [done|]). destruct random; [|done].
  unfold generate_uuid_v4, uuid_bits. simpl. split_and!.
  - done.
  - by rewrite version_digit.
  - eexists. split; [done|apply variant_digit].
  - intros i c Hc.
    do 36 (destruct i as [|i]; [simpl in Hc; simplify_eq; try apply hex_high; try apply hex_low; done|]).
    done.
Qed.

(** Creating a job fails only when all ten slots hold jobs that are
    unfinished or finished less than the retention time ago; it replaces no
    such job: every one of them can still be read, unchanged, and the new job
    is found by the id returned. *)
Theorem create_job_spec now random st n r id st' :
  batch_delete_progress_create_job now random st n true = (r, id, st') →
  g_initialized st = true → unique_ids (g_jobs st) → length random = 16%nat →
  (∀ j, j ∈ g_jobs st → is_active j = true → job_id j ≠ generate_uuid_v4 random) →
  if decide (r = 0) then
    id = Some (generate_uuid_v4 random) ∧ unique_ids (g_jobs st') ∧
    (∃ j, batch_delete_progress_get st' id = Some j ∧ status j = BATCH_DELETE_STATUS_PENDING ∧
          total j = n ∧ current j = 0 ∧ updated_at j = now) ∧
    (∀ j, j ∈ g_jobs st → is_active j = true → expired now j = false →
          batch_delete_progress_get st' (Some (job_id j)) = Some j)
  else
    r = -1 ∧ st' = st ∧ Forall (λ j, is_active j = true ∧ expired now j = false) (g_jobs st).
Proof.
  unfold batch_delete_progress_create_job. intros Heq Hinit Hu Hlen Hnew. rewrite Hinit in Heq.
  simpl in Heq. destruct (find_available_slot now (g_jobs st)) as [slot|] eqn:Hslot; simplify_eq.
  - rewrite decide_True by done.
    destruct (generate_uuid_v4_form random Hlen) as [Hid _].
    rewrite strcpy_trunc_id by (rewrite Hid; lia). split; [done|].
    set (j := mkJob _ _ _ _ _ _ _ _ _ _ _).
    assert (Hold : ∃ o, g_jobs st !! slot = Some o ∧ (is_active o = false ∨ expired now o = true)).
    { unfold find_available_slot in Hslot.
      destruct (find_idx (λ j, negb (is_active j)) (g_jobs st)) as [k|] eqn:E; simplify_eq.
      - apply find_idx_lookup in E as (o & Ho & Hf). unbool. eauto.
      - apply find_idx_lookup in Hslot as (o & Ho & Hf). eauto. }
    destruct Hold as (o & Ho & Hfree). apply lookup_lt_Some in Ho as Hlt.
    assert (Hu' : unique_ids (<[slot := j]> (g_jobs st))).
    { intros i k a b Hi Hk Ha Hb Heq.
      apply list_lookup_insert_Some in Hi as [(? & ? & _)|[? Hi]];
        apply list_lookup_insert_Some in Hk as [(? & ? & _)|[? Hk]]; simplify_eq; [done|..].
      - destruct (Hnew b); [by eapply list_elem_of_lookup_2|done|done].
      - destruct (Hnew a); [by eapply list_elem_of_lookup_2|done|done].
      - eauto. }
    split; [done|]. split.
    + exists j. split; [|done]. unfold batch_delete_progress_get. simpl.
      change (generate_uuid_v4 random) with (job_id j).
      rewrite (find_job_unique _ slot j) by (try apply list_lookup_insert_eq; done).
      csimpl. by apply list_lookup_insert_eq.
    + intros a [i Hi]%list_elem_of_lookup Ha Hex. unfold batch_delete_progress_get. simpl.
      assert (i ≠ slot) by (intros ->; destruct Hfree; congruence).
      rewrite (find_job_unique _ i a) by (try rewrite list_lookup_insert_ne; done).
      csimpl. by rewrite list_lookup_insert_ne.
  - rewrite decide_False by done. split_and!; [done..|]. unfold find_available_slot in Hslot.
    destruct (find_idx _ _) as [k|] eqn:E; [done|].
    apply Forall_lookup. intros i a Hi. split.
    + rewrite find_idx_None in E. specialize (E i a Hi). by unbool.
    + rewrite find_idx_None in Hslot. eauto.
Qed.

(** ** Witnesses *)

Definition example_random : list byte := replicate 16 Byte.xff.

Lemma generate_uuid_v4_form_witness :
  generate_uuid_v4 example_random = lit "ffffffff-ffff-4fff-bfff-ffffffffffff" ∧
  length (generate_uuid_v4 example_random) = 36%nat.
Proof.
  split; [vm_compute; reflexivity|].
  refine (proj1 (generate_uuid_v4_form example_random _)). reflexivity.
Defined.

Definition example_jobs : jobs_state := (batch_delete_progress_init (mkJobs [] false)).2.

Lemma create_job_spec_witness :
  ∃ id st' j, batch_delete_progress_create_job 50 example_random example_jobs 12 true
              = (0, Some id, st') ∧
    batch_delete_progress_get st' (Some id) = Some j ∧ total j = 12.
Proof.
  destruct (batch_delete_progress_create_job 50 example_random example_jobs 12 true)
    as [[r id] st'] eqn:Heq.
  assert (Hr : r = 0) by (vm_compute in Heq; congruence). subst r.
  destruct (create_job_spec 50 example_random example_jobs 12 0 id st' Heq) as (-> & _ & (j & Hj & _ & Ht & _) & _).
  - reflexivity.
  - intros i k a b Hi Hk Ha. apply lookup_replicate in Hi as [-> _]. discriminate Ha.
  - reflexivity.
  - intros j [-> _]%elem_of_replicate Ha. discriminate Ha.
  - exists (generate_uuid_v4 example_random), st', j. split_and!; [reflexivity|exact Hj|exact Ht].
Defined.
