(* ===== verification/Auth.v ===== *)
(** * Access control: [src/database/db_auth.c]

    The decisions of the authentication module that do not go through SQLite:
    session lifetimes, the CIDR allow-list of a user, the tag restriction, the
    role names and the hexadecimal coding of salts and hashes.  The address
    conversions of the C library are the interface [InetConversions]. *)
From Stdlib Require Import ZArith Lia Bool.
From Stdlib Require Import Strings.Byte.
From stdpp Require Import base numbers list strings.
From S2P Require Import Prelude.
From S2P Require Import Libc.
From S2P Require Import CStrings.
#[local] Open Scope Z_scope.

(** ** Lifetimes *)

Definition DEFAULT_SESSION_EXPIRY : Z := 604800.
Definition DEFAULT_TRUSTED_DEVICE_EXPIRY : Z := 2592000.

(** The configured hours (or days), as [int] seconds. *)
Definition default_session_absolute_expiry_seconds (auth_absolute_timeout_hours : Z) : Z :=
  let seconds := auth_absolute_timeout_hours * 3600 in
  if seconds <=? 0 then DEFAULT_SESSION_EXPIRY else
  if seconds >? INT32_MAX then INT32_MAX else seconds.

Definition default_session_idle_expiry_seconds (auth_timeout_hours : Z) : Z :=
  let seconds := auth_timeout_hours * 3600 in
  if seconds <=? 0 then DEFAULT_SESSION_EXPIRY else
  if seconds >? INT32_MAX then INT32_MAX else seconds.

Definition default_trusted_device_expiry_seconds (trusted_device_days : Z) : Z :=
  let seconds := trusted_device_days * 86400 in
  if seconds <=? 0 then DEFAULT_TRUSTED_DEVICE_EXPIRY else
  if seconds >? INT32_MAX then INT32_MAX else seconds.

Definition should_refresh_session_tracking (now last_activity_at idle_expires_at : Z) : bool :=
  let refresh_interval := 60 in
  if last_activity_at <=? 0 then true else
  if now - last_activity_at >=? refresh_interval then true else
  if idle_expires_at <=? now + refresh_interval then true else false.

Definition tracking_value_differs (stored_value current_value : option cstr) : bool :=
  match current_value with
  | None => false
  | Some c => negb (streq (default [] stored_value) c)
  end.

(** ** CIDR entries *)

Inductive af := AF_INET | AF_INET6.

#[global] Instance af_eq_dec : EqDecision af.
Proof. solve_decision. Defined.

Definition INET6_ADDRSTRLEN : nat := 46.
Definition USER_ALLOWED_LOGIN_CIDRS_MAX : nat := 1024.

Definition address_bytes (f : af) : nat := match f with AF_INET => 4 | AF_INET6 => 16 end.

Class InetConversions := {
  inet_pton : af → cstr → option (list byte);
  inet_ntop : af → list byte → option cstr
}.

Definition slash : byte := Byte.x2f.

(** What the module relies on: the sizes of the addresses, and that the text
    of an address denotes it, in its own family. *)
Definition address_char (c : byte) : bool :=
  let z := byte_Z c in
  ((48 <=? z) && (z <=? 57)) || ((97 <=? z) && (z <=? 102)) || (z =? 46) || (z =? 58).

Class InetLaws `{InetConversions} := {
  pton_length f s a : inet_pton f s = Some a → length a = address_bytes f;
  ntop_pton f a t : length a = address_bytes f → inet_ntop f a = Some t → inet_pton f t = Some a;
  ntop6_not_v4 a t : inet_ntop AF_INET6 a = Some t → inet_pton AF_INET t = None;
  ntop_text f a t : inet_ntop f a = Some t → t ≠ [] ∧ Forall (λ c, address_char c = true) t
}.

Section cidr.
Context `{InetConversions}.

(** The address and the prefix length as written. *)
Definition cidr_parts (cidr : cstr) : option (cstr * option Z) :=
  if (INET6_ADDRSTRLEN + 5 <=? length cidr)%nat then None else
  let trimmed := trim cidr in
  if empty trimmed then None else
  match split_last slash trimmed with
  | Some (before, after) =>
      if empty before || empty after then None else
      let address := trim before in
      let prefix_text := trim after in
      if empty address || empty prefix_text then None else
      match strtol10 prefix_text with
      | Some (prefix, []) => Some (address, Some prefix)
      | _ => None
      end
  | None =>
      let address := trim trimmed in
      if empty address then None else Some (address, None)
  end.

(** [None] for -1; else the family, the address and the prefix length. *)
Definition parse_cidr_entry (cidr : cstr) : option (af * list byte * Z) :=
  '(address, prefix) ← cidr_parts cidr;
  match inet_pton AF_INET address with
  | Some network =>
      match prefix with
      | None => Some (AF_INET, network, 32)
      | Some p => if (p <? 0) || (p >? 32) then None else Some (AF_INET, network, p)
      end
  | None =>
      match inet_pton AF_INET6 address with
      | Some network =>
          match prefix with
          | None => Some (AF_INET6, network, 128)
          | Some p => if (p <? 0) || (p >? 128) then None else Some (AF_INET6, network, p)
          end
      | None => None
      end
  end.

(** [a[i]] of a zeroed [unsigned char a[16]] that begins with the address. *)
Definition addr_byte (a : list byte) (i : Z) : Z := byte_Z (default Byte.x00 (a !! Z.to_nat i)).

Definition prefix_matches (ip network : list byte) (prefix_len : Z) : bool :=
  let full_bytes := cdiv prefix_len 8 in
  let remaining_bits := cmod prefix_len 8 in
  if (full_bytes >? 0) &&
     negb (streq (take (Z.to_nat full_bytes) ip) (take (Z.to_nat full_bytes) network))
  then false else
  if remaining_bits =? 0 then true else
  let mask := u8 (Z.shiftl 255 (8 - remaining_bits)) in
  Z.land (addr_byte ip full_bytes) mask =? Z.land (addr_byte network full_bytes) mask.

Definition ip_matches_cidr (client_ip cidr : option cstr) : bool :=
  match client_ip, cidr with
  | Some client_ip, Some cidr =>
      match (match inet_pton AF_INET client_ip with
             | Some ip => Some (AF_INET, ip)
             | None => match inet_pton AF_INET6 client_ip with
                       | Some ip => Some (AF_INET6, ip)
                       | None => None
                       end
             end) with
      | None => false
      | Some (ip_family, ip) =>
          match parse_cidr_entry cidr with
          | Some (cidr_family, network, prefix_len) =>
              if negb (bool_decide (cidr_family = ip_family)) then false
              else prefix_matches ip network prefix_len
          | None => false
          end
      end
  | _, _ => false
  end.

Definition list_delim (c : byte) : bool := bool_decide (c = Byte.x2c) || bool_decide (c = Byte.x0a).

(** The loop of [normalize_allowed_login_cidrs]: what is in [normalized] and
    [has_entries]; [None] for -1. *)
Fixpoint normalize_loop (size : nat) (tokens : list cstr) (normalized : cstr) (has_entries : bool)
    : option (cstr * bool) :=
  match tokens with
  | [] => Some (normalized, has_entries)
  | token :: tokens =>
      let trimmed := trim token in
      if empty trimmed then normalize_loop size tokens normalized has_entries else
      '(family, network, prefix_len) ← parse_cidr_entry trimmed;
      address_text ← inet_ntop family network;
      let entry := address_text ++ slash :: decimal prefix_len in
      if (INET6_ADDRSTRLEN + 5 <=? length entry)%nat then None else
      let separator := if has_entries then [Byte.x0a] else [] in
      if (size <? length normalized + length separator + length entry + 1)%nat then None else
      normalize_loop size tokens (normalized ++ separator ++ entry) true
  end.

Definition normalize_allowed_login_cidrs (allowed_login_cidrs : option cstr) (size : nat)
    : option (cstr * bool) :=
  if (size =? 0)%nat then None else
  match allowed_login_cidrs with
  | None => Some ([], false)
  | Some l =>
      if (USER_ALLOWED_LOGIN_CIDRS_MAX <=? length l)%nat then None
      else normalize_loop size (strtok list_delim [] l) [] false
  end.

Record user_t := mkUser {
  id : Z;
  username : cstr;
  email : cstr;
  role : Z;
  api_key : cstr;
  created_at : Z;
  updated_at : Z;
  last_login : Z;
  is_active : bool;
  password_change_locked : bool;
  totp_enabled : bool;
  allowed_tags : cstr;
  has_tag_restriction : bool;
  allowed_login_cidrs : cstr;
  has_login_cidr_restriction : bool
}.

(** [memset (user, 0, sizeof (user_t))] *)
Definition zero_user : user_t := mkUser 0 [] [] 0 [] 0 0 0 false false false [] false [] false.

Definition set_login_cidrs (cidrs : cstr) (restricted : bool) (u : user_t) : user_t :=
  mkUser (id u) (username u) (email u) (role u) (api_key u) (created_at u) (updated_at u) (last_login u)
    (is_active u) (password_change_locked u) (totp_enabled u) (allowed_tags u) (has_tag_restriction u)
    cidrs restricted.

Definition set_tags (tags : cstr) (restricted : bool) (u : user_t) : user_t :=
  mkUser (id u) (username u) (email u) (role u) (api_key u) (created_at u) (updated_at u) (last_login u)
    (is_active u) (password_change_locked u) (totp_enabled u) tags restricted
    (allowed_login_cidrs u) (has_login_cidr_restriction u).

Definition db_auth_ip_allowed_for_user (user : option user_t) (client_ip : option cstr) : bool :=
  match user with
  | None => false
  | Some user =>
      if negb (has_login_cidr_restriction user) then true else
      match client_ip with
      | None | Some [] => false
      | Some ip =>
          existsb (λ token,
            let trimmed := trim token in
            negb (empty trimmed) && ip_matches_cidr (Some ip) (Some trimmed))
            (strtok list_delim [] (strcpy_trunc USER_ALLOWED_LOGIN_CIDRS_MAX (allowed_login_cidrs user)))
      end
  end.
End cidr.

(** ** Tags *)

(** [while ( *p && *p != ',') p++; if ( *p == ',') p++;] *)
Fixpoint next_entry (s : cstr) : cstr :=
  match s with
  | c :: s => if bool_decide (c = Byte.x2c) then s else next_entry s
  | [] => []
  end.

(** [strncmp (p, token, tlen) == 0], and the character after it. *)
Definition tag_here (p token : cstr) : bool :=
  bool_decide (take (length token) p = token) &&
  match p !! length token with
  | None => true
  | Some next => bool_decide (next = Byte.x2c) || bool_decide (next = Byte.x20)
  end.

(** The scan of the allowed list; [n] bounds its iterations (its length). *)
Fixpoint tag_allowed (n : nat) (p token : cstr) : bool :=
  match n with
  | O => false
  | S n =>
      match p with
      | [] => false
      | _ => let p := skip_blanks p in
             if tag_here p token then true else tag_allowed n (next_entry p) token
      end
  end.

Definition db_auth_stream_allowed_for_user (user : option user_t) (stream_tags : option cstr) : bool :=
  match user with
  | None => false
  | Some user =>
      if negb (has_tag_restriction user) then true else
      match stream_tags with
      | None | Some [] => false
      | Some tags =>
          existsb (λ token, tag_allowed (S (length (allowed_tags user))) (allowed_tags user)
                              (trim_blanks token))
            (strtok comma [] (strcpy_trunc 256 tags))
      end
  end.

(** ** Roles *)

Definition USER_ROLE_ADMIN : Z := 0.
Definition USER_ROLE_USER : Z := 1.
Definition USER_ROLE_VIEWER : Z := 2.
Definition USER_ROLE_API : Z := 3.

Definition role_names : list cstr := [lit "admin"; lit "user"; lit "viewer"; lit "api"].

Definition db_auth_get_role_name (role : Z) : cstr :=
  if (role <? 0) || (role >=? Z.of_nat (length role_names)) then lit "unknown"
  else default [] (role_names !! Z.to_nat role).

Definition db_auth_get_role_id (role_name : option cstr) : Z :=
  match role_name with
  | None => -1
  | Some n => match find_idx (λ r, streq r n) role_names with
              | Some i => Z.of_nat i
              | None => -1
              end
  end.

(** ** Hexadecimal *)

(** The string written, [None] for -1. *)
Definition bin_to_hex (data : list byte) (hex_length : nat) : option cstr :=
  if (hex_length <? length data * 2 + 1)%nat then None else Some (concat (hex2 <$> data)).

(** [strtol (byte, NULL, 16)] of a string of two characters: a blank or a sign
    may come first, and the value ends at the first other character. *)
Definition hex_pair (c d : byte) : Z :=
  match hex_value c with
  | Some h => match hex_value d with Some l => 16 * h + l | None => h end
  | None => let one := default 0 (hex_value d) in
            if isspace c || bool_decide (c = Byte.x2b) then one
            else if bool_decide (c = Byte.x2d) then - one else 0
  end.

(** The writes to [data]: [Some None] is -1, [None] a write out of bounds. *)
Fixpoint hex_loop (hex : cstr) (data : list byte) (i : nat) : option (list byte) :=
  match hex with
  | [] => Some data
  | [c] => if (i <? length data)%nat then Some (<[i := Z_byte (hex_pair c Byte.x00)]> data) else None
  | c :: d :: hex =>
      if (i <? length data)%nat
      then hex_loop hex (<[i := Z_byte (hex_pair c d)]> data) (S i) else None
  end.

Definition hex_to_bin (hex : cstr) (data : list byte) : option (option (list byte)) :=
  if (length data <? length hex / 2)%nat then Some None
  else d ← hex_loop hex data 0; Some (Some d).

#[local] Arguments ip_matches_cidr : simpl never.
#[local] Arguments USER_ALLOWED_LOGIN_CIDRS_MAX : simpl never.

(** ** Tokens and trimming *)

Lemma ltrim_id s : Forall (λ c, isgraph c = true) s → ltrim s = s.
Proof. intros [|c s' Hc _]; [done|]. simpl. by rewrite Hc. Qed.

Lemma trim_id s : Forall (λ c, isgraph c = true) s → trim s = s.
Proof.
  intros Hs. unfold trim, rtrim. rewrite (ltrim_id (reverse s)) by by apply Forall_reverse.
  by rewrite reverse_involutive, ltrim_id.
Qed.

(** The characters of a normalized entry, apart from its slash. *)
Lemma address_char_plain c :
  address_char c = true → isgraph c = true ∧ c ≠ slash ∧ list_delim c = false.
Proof.
  pose proof (byte_forall (λ c, negb (address_char c) ||
    (isgraph c && negb (bool_decide (c = slash)) && negb (list_delim c)))) as Hc.
  specialize (Hc ltac:(vm_compute; reflexivity) c). simpl in Hc.
  intros E. rewrite E in Hc. simpl in Hc. by unbool.
Qed.

Definition decimal_fine (p : Z) : bool :=
  match strtol10 (decimal p) with
  | Some (v, []) => (v =? p) && negb (empty (decimal p)) && forallb address_char (decimal p)
  | _ => false
  end.

Lemma decimal_prefix p :
  0 ≤ p ≤ 128 →
  strtol10 (decimal p) = Some (p, []) ∧ decimal p ≠ [] ∧ Forall (λ c, address_char c = true) (decimal p).
Proof.
  intros Hp. assert (Hall : forallb (λ n, decimal_fine (Z.of_nat n)) (seq 0 129) = true)
    by (vm_compute; reflexivity).
  rewrite forallb_forall in Hall. specialize (Hall (Z.to_nat p)). rewrite in_seq, Z2Nat.id in Hall by lia.
  specialize (Hall ltac:(lia)). unfold decimal_fine in Hall. revert Hall.
  destruct (strtol10 (decimal p)) as [[v [|? ?]]|] eqn:E; intros Hall; try done. unbool. subst v.
  split_and!; [done| |].
  - intros E'. by rewrite E' in *.
  - rewrite forallb_forall in *. apply Forall_forall. intros c ?%list_elem_of_In. eauto.
Qed.

(** ** Prefixes *)

(** The [i]-th bit of an address, from the most significant one. *)
Definition addr_bit (a : list byte) (i : Z) : bool := Z.testbit (addr_byte a (i / 8)) (7 - i `mod` 8).

Lemma byte_bits a b :
  0 ≤ a < 256 → 0 ≤ b < 256 → (∀ j, 0 ≤ j < 8 → Z.testbit a j = Z.testbit b j) → a = b.
Proof.
  intros Ha Hb Hbits. apply Z.bits_inj'. intros j Hj. destruct (decide (j < 8)); [by apply Hbits|].
  assert (Hhigh : ∀ z, 0 ≤ z < 256 → Z.testbit z j = false); [|by rewrite !Hhigh].
  intros z Hz. rewrite <-(Z.mod_small z (2 ^ 8)) by lia. apply Z.mod_pow2_bits_high. lia.
Qed.

Lemma mask_bits r j :
  1 ≤ r ≤ 7 → 0 ≤ j → Z.testbit (u8 (Z.shiftl 255 (8 - r))) j = (8 - r <=? j) && (j <? 8).
Proof.
  intros Hr Hj. unfold u8. destruct (decide (j < 8)).
  - rewrite Z.mod_pow2_bits_low, Z.shiftl_spec by lia. rewrite (proj2 (Z.ltb_lt j 8)), andb_true_r by done.
    change 255 with (Z.ones 8). destruct (Z.leb_spec (8 - r) j).
    + rewrite Z.ones_spec_low by lia. done.
    + rewrite Z.testbit_neg_r by lia. done.
  - rewrite Z.mod_pow2_bits_high by lia. rewrite (proj2 (Z.ltb_ge j 8)), andb_false_r by lia. done.
Qed.

Lemma masked_bits a b r :
  1 ≤ r ≤ 7 →
  let mask := u8 (Z.shiftl 255 (8 - r)) in
  Z.land a mask = Z.land b mask ↔ ∀ k, 0 ≤ k < r → Z.testbit a (7 - k) = Z.testbit b (7 - k).
Proof.
  intros Hr mask. split.
  - intros E k Hk. assert (E' : Z.testbit (Z.land a mask) (7 - k) = Z.testbit (Z.land b mask) (7 - k)) by by rewrite E.
    rewrite !Z.land_spec in E'. unfold mask in E'. rewrite mask_bits in E' by lia.
    rewrite (proj2 (Z.leb_le (8 - r) (7 - k))), (proj2 (Z.ltb_lt (7 - k) 8)) in E' by lia.
    by rewrite !andb_true_r in E'.
  - intros E. apply Z.bits_inj'. intros j Hj. rewrite !Z.land_spec. unfold mask. rewrite mask_bits by lia.
    destruct (Z.leb_spec (8 - r) j), (Z.ltb_spec j 8); simpl; rewrite ?andb_false_r; [|done..].
    rewrite !andb_true_r. replace j with (7 - (7 - j)) by lia. apply E. lia.
Qed.

Lemma take_bits a b n :
  (n ≤ length a)%nat → (n ≤ length b)%nat →
  take n a = take n b ↔ ∀ i, 0 ≤ i < 8 * Z.of_nat n → addr_bit a i = addr_bit b i.
Proof.
  intros Ha Hb. split.
  - intros E i Hi. unfold addr_bit, addr_byte.
    assert (i / 8 < Z.of_nat n) by (apply Z.div_lt_upper_bound; lia).
    assert (0 ≤ i / 8) by (apply Z.div_pos; lia).
    rewrite <-(lookup_take_lt a n), E, lookup_take_lt by lia. done.
  - intros E. apply list_eq. intros k. destruct (decide (k < n)%nat).
    2: { rewrite !lookup_take_ge by lia. done. }
    rewrite !lookup_take_lt by lia.
    destruct (lookup_lt_is_Some_2 a k ltac:(lia)) as [x Hx].
    destruct (lookup_lt_is_Some_2 b k ltac:(lia)) as [y Hy].
    rewrite Hx, Hy. f_equal. apply byte_Z_inj, byte_bits; [apply byte_Z_range..|].
    intros j Hj. specialize (E (8 * Z.of_nat k + (7 - j)) ltac:(lia)). revert E.
    unfold addr_bit, addr_byte.
    rewrite (Z.mul_comm 8), Z.add_comm, Z.div_add, Z.mod_add, Z.div_small, Z.mod_small by lia.
    rewrite Z.add_0_l, Nat2Z.id, Hx, Hy. simpl. by replace (7 - (7 - j)) with j by lia.
Qed.

Lemma prefix_matches_bits ip network p :
  0 ≤ p → p ≤ 8 * Z.of_nat (length ip) → length network = length ip →
  prefix_matches ip network p = true ↔ ∀ i, 0 ≤ i < p → addr_bit ip i = addr_bit network i.
Proof.
  intros Hp0 Hp Hlen. unfold prefix_matches, cdiv, cmod.
  rewrite Z.quot_div_nonneg, Z.rem_mod_nonneg by lia.
  pose proof (Z.div_mod p 8 ltac:(lia)) as Hdm. pose proof (Z.mod_pos_bound p 8 ltac:(lia)) as Hr.
  set (q := p / 8) in *. set (r := p `mod` 8) in *.
  assert (Hq : 0 ≤ q) by (apply Z.div_pos; lia).
  pose proof (take_bits ip network (Z.to_nat q) ltac:(lia) ltac:(lia)) as Ht. rewrite Z2Nat.id in Ht by done.
  destruct ((q >? 0) && _) eqn:E.
  { split; [done|]. intros Hall. unbool. exfalso.
    match goal with H : _ ≠ _ |- _ => apply H, Ht end. intros; apply Hall; lia. }
  assert (Hfull : ∀ i, 0 ≤ i < 8 * q → addr_bit ip i = addr_bit network i).
  { apply Ht. apply andb_false_iff in E as [E|E]; unbool; [|done]. by replace (Z.to_nat q) with O by lia. }
  destruct (Z.eqb_spec r 0) as [Hr0|Hr0].
  { split; [|done]. intros _ i Hi. apply Hfull. lia. }
  rewrite Z.eqb_eq, masked_bits by lia. split.
  - intros Hm i Hi. destruct (decide (i < 8 * q)); [apply Hfull; lia|].
    unfold addr_bit. replace i with (i - q * 8 + q * 8) by lia.
    rewrite Z.div_add, Z.mod_add, Z.div_small, Z.mod_small by lia. apply Hm. lia.
  - intros Hall k Hk. specialize (Hall (k + q * 8) ltac:(lia)). revert Hall. unfold addr_bit.
    by rewrite Z.div_add, Z.mod_add, Z.div_small, Z.mod_small by lia.
Qed.

(** ** CIDR entries *)

(** The family and the bytes of a client address. *)
Definition address_of `{InetConversions} (text : cstr) : option (af * list byte) :=
  match inet_pton AF_INET text with
  | Some a => Some (AF_INET, a)
  | None => a ← inet_pton AF_INET6 text; Some (AF_INET6, a)
  end.

Section cidr_lemmas.
Context `{InetLaws}.

Lemma parse_cidr_entry_inv s f n p :
  parse_cidr_entry s = Some (f, n, p) →
  (∃ text, inet_pton f text = Some n) ∧ length n = address_bytes f ∧ 0 ≤ p ≤ 8 * Z.of_nat (address_bytes f).
Proof.
  unfold parse_cidr_entry. destruct (cidr_parts s) as [[address prefix]|]; [simpl|done]. intros E.
  destruct (inet_pton AF_INET address) eqn:E4; [|destruct (inet_pton AF_INET6 address) eqn:E6; [|done]];
    (destruct prefix as [q|]; [destruct ((q <? 0) || _) eqn:Eq; [done|]|]); simplify_eq; unbool;
    (split_and!; [by eexists|by eapply pton_length|simpl; lia..]).
Qed.

(** An entry as [normalize_allowed_login_cidrs] writes it. *)
Lemma cidr_parts_normalized text p :
  text ≠ [] → Forall (λ c, address_char c = true) text → 0 ≤ p ≤ 128 →
  (length (text ++ slash :: decimal p) < INET6_ADDRSTRLEN + 5)%nat →
  cidr_parts (text ++ slash :: decimal p) = Some (text, Some p).
Proof.
  intros Hne Ht Hp Hlen. destruct (decimal_prefix p Hp) as (Hs & Hdne & Hd).
  assert (Hg : ∀ s, Forall (λ c, address_char c = true) s → Forall (λ c, isgraph c = true) s ∧ slash ∉ s).
  { intros s Hs'. split.
    - eapply Forall_impl; [exact Hs'|]. intros c Hc. by apply address_char_plain.
    - intros Hin. rewrite Forall_forall in Hs'. by destruct (address_char_plain _ (Hs' _ Hin)) as (_ & ? & _). }
  destruct (Hg _ Ht) as [Hgt _], (Hg _ Hd) as [Hgd Hsd].
  unfold cidr_parts. rewrite (proj2 (Nat.leb_gt _ _)) by done.
  rewrite trim_id by (apply Forall_app; split; [done|]; by constructor).
  rewrite split_last_app, !trim_id, Hs by done. by destruct text, (decimal p).
Qed.

(** a client address matches a CIDR entry exactly when the entry is well
    formed, both are of one family, and they agree on the first [prefix_len]
    bits, counted from the most significant bit of the first byte. *)
Theorem ip_matches_cidr_spec client cidr :
  ip_matches_cidr (Some client) (Some cidr) = true ↔
  ∃ f ip network p,
    address_of client = Some (f, ip) ∧ parse_cidr_entry cidr = Some (f, network, p) ∧
    0 ≤ p ≤ 8 * Z.of_nat (length ip) ∧ length network = length ip ∧
    ∀ i, 0 ≤ i < p → addr_bit ip i = addr_bit network i.
Proof.
  assert (Hlen : ∀ f ip, address_of client = Some (f, ip) → length ip = address_bytes f).
  { unfold address_of. intros f ip E. destruct (inet_pton AF_INET client) eqn:E4; simplify_option_eq;
      match goal with Hp : inet_pton _ _ = Some _ |- _ => exact (pton_length _ _ _ Hp) end. }
  assert (Haddr : address_of client = match inet_pton AF_INET client with
    | Some ip => Some (AF_INET, ip)
    | None => match inet_pton AF_INET6 client with Some ip => Some (AF_INET6, ip) | None => None end
    end) by (unfold address_of; by repeat case_match).
  unfold ip_matches_cidr. rewrite <-Haddr. clear Haddr.
  destruct (address_of client) as [[f ip]|]; [|split; [done|]; by intros (?&?&?&?&?&_)].
  specialize (Hlen _ _ eq_refl).
  destruct (parse_cidr_entry cidr) as [[[f' network] p]|] eqn:Ep;
    [|split; [done|]; by intros (?&?&?&?&?&?&_)].
  apply parse_cidr_entry_inv in Ep as (_ & Hn & Hp). case_bool_decide as Hf; simpl.
  - subst f'. rewrite prefix_matches_bits by lia. split.
    + intros Hb. exists f, ip, network, p. split_and!; try done; lia.
    + intros (?&?&?&?&?&?&?&?&Hb). by simplify_eq.
  - split; [done|]. intros (?&?&?&?&?&?&?&?&Hb). by simplify_eq.
Qed.

(** ** Normalization *)

(** A token is an entry that the check accepts for the client [ip]. *)
Definition entry_allows (ip : cstr) (token : cstr) : bool :=
  negb (empty (trim token)) && ip_matches_cidr (Some ip) (Some (trim token)).

Lemma entry_allows_normalized ip token f n p text :
  parse_cidr_entry (trim token) = Some (f, n, p) → inet_ntop f n = Some text → empty (trim token) = false →
  (length (text ++ slash :: decimal p) < INET6_ADDRSTRLEN + 5)%nat →
  entry_allows ip (text ++ slash :: decimal p) = entry_allows ip token.
Proof.
  intros Hparse Hntop Hne Hlen.
  pose proof (parse_cidr_entry_inv _ _ _ _ Hparse) as (_ & Hn & Hp).
  assert (0 ≤ p ≤ 128) by (destruct f; simpl in Hp; lia).
  destruct (ntop_text _ _ _ Hntop) as [Htne Ht]. pose proof (ntop_pton _ _ _ Hn Hntop) as Hpton.
  assert (Htrim : trim (text ++ slash :: decimal p) = text ++ slash :: decimal p).
  { apply trim_id, Forall_app. split; [|constructor; [done|]].
    - eapply Forall_impl; [exact Ht|]. intros c Hc. by apply address_char_plain.
    - eapply Forall_impl; [by apply decimal_prefix|]. intros c Hc. by apply address_char_plain. }
  unfold entry_allows. rewrite Htrim, Hne.
  assert (Hp' : parse_cidr_entry (text ++ slash :: decimal p) = Some (f, n, p)).
  { unfold parse_cidr_entry. rewrite cidr_parts_normalized by done. simpl.
    destruct f; simpl in *.
    - rewrite Hpton. by rewrite (proj2 (Z.ltb_ge _ _)), Z.gtb_ltb, (proj2 (Z.ltb_ge _ _)) by lia.
    - rewrite (ntop6_not_v4 _ _ Hntop), Hpton.
      by rewrite (proj2 (Z.ltb_ge _ _)), Z.gtb_ltb, (proj2 (Z.ltb_ge _ _)) by lia. }
  unfold ip_matches_cidr. rewrite Hp', Hparse. by destruct text.
Qed.

(** The tokens are appended one by one, each in its normal form. *)
Lemma normalize_loop_spec ip size ts norm has n has' :
  normalize_loop size ts norm has = Some (n, has') → (length norm < size)%nat →
  ∃ es, n = norm ++ (if has then concat (cons Byte.x0a <$> es) else join Byte.x0a es) ∧
        tokens list_delim es ∧ existsb (entry_allows ip) es = existsb (entry_allows ip) ts ∧
        (length n < size)%nat.
Proof.
  revert norm has. induction ts as [|token ts IH]; intros norm has E Hsize; cbn [normalize_loop] in E.
  { simplify_eq. exists []. split_and!; [destruct has'; by rewrite app_nil_r|constructor|done|done]. }
  cbn [existsb]. destruct (empty (trim token)) eqn:Hne.
  { unfold entry_allows at 2. rewrite Hne. by apply IH in E. }
  destruct (parse_cidr_entry (trim token)) as [[[f a] p]|] eqn:Hparse; [cbn [mbind option_bind] in E|done].
  destruct (inet_ntop f a) as [text|] eqn:Hntop; [cbn [mbind option_bind] in E|done].
  destruct (Nat.leb_spec (INET6_ADDRSTRLEN + 5) (length (text ++ slash :: decimal p))) as [|Hlen]; [done|].
  destruct (Nat.ltb_spec size (length norm + length (if has then [Byte.x0a] else []) +
    length (text ++ slash :: decimal p) + 1)) as [|Hfit]; [done|].
  apply IH in E as (es & -> & Hes & Hall & Hn); [|rewrite !length_app in *; lia].
  exists ((text ++ slash :: decimal p) :: es). split_and!.
  - destruct has; unfold join; cbn [fmap list_fmap concat drop app]; rewrite <-?app_assoc; cbn [app]; by rewrite <-?app_assoc.
  - constructor; [|done]. split; [by destruct text|].
    pose proof (parse_cidr_entry_inv _ _ _ _ Hparse) as (_ & _ & Hp).
    assert (0 ≤ p ≤ 128) by (destruct f; simpl in Hp; lia).
    destruct (ntop_text _ _ _ Hntop) as [_ Ht], (decimal_prefix p) as (_ & _ & Hd); [done|].
    apply Forall_app. split; [|constructor; [done|]]; (eapply Forall_impl; [eassumption|]);
      intros c Hc; by apply address_char_plain.
  - cbn [existsb]. rewrite Hall. f_equal. by apply (entry_allows_normalized ip token f a p text).
  - done.
Qed.

(** C40: the list stored after normalization grants exactly what the list as
    typed grants, for every client. *)
Theorem normalize_preserves_access raw normalized has_entries restricted u client :
  normalize_allowed_login_cidrs (Some raw) USER_ALLOWED_LOGIN_CIDRS_MAX = Some (normalized, has_entries) →
  db_auth_ip_allowed_for_user (Some (set_login_cidrs normalized restricted u)) client =
  db_auth_ip_allowed_for_user (Some (set_login_cidrs raw restricted u)) client.
Proof.
  unfold normalize_allowed_login_cidrs. rewrite (proj2 (Nat.eqb_neq _ _)) by done.
  destruct (Nat.leb_spec USER_ALLOWED_LOGIN_CIDRS_MAX (length raw)) as [|Hraw]; [done|]. intros E.
  unfold db_auth_ip_allowed_for_user; simpl.
  destruct restricted; simpl; [|done].
  destruct client as [[|c ip]|]; [done| |done].
  apply (normalize_loop_spec (c :: ip)) in E as (es & -> & Hes & Hall & Hn); [|by apply Nat.ltb_lt].
  rewrite !strcpy_trunc_id by done. cbn [app]. rewrite strtok_join by done.
  exact Hall.
Qed.
End cidr_lemmas.

(** ** Tags *)

Definition tag_char (c : byte) : Prop := c ≠ Byte.x2c ∧ c ≠ Byte.x20.

(** Tags as the interface writes them: not empty, without commas or blanks. *)
Definition plain_tags (ts : list cstr) : Prop := Forall (λ t, t ≠ [] ∧ Forall tag_char t) ts.

Lemma skip_blanks_plain t rest : t ≠ [] → Forall tag_char t → skip_blanks (t ++ rest) = t ++ rest.
Proof. intros Hne Ht. destruct Ht as [|c t [_ Hc] Ht]; [done|]. simpl. by rewrite bool_decide_eq_false_2. Qed.

Lemma trim_blanks_plain t : t ≠ [] → Forall tag_char t → trim_blanks t = t.
Proof.
  intros Hne Ht. unfold trim_blanks. rewrite <-(app_nil_r t) at 1. rewrite skip_blanks_plain by done.
  rewrite app_nil_r, <-(app_nil_r (reverse t)), skip_blanks_plain, app_nil_r; [apply reverse_involutive| |by apply Forall_reverse].
  intros E. apply Hne. by rewrite <-(reverse_involutive t), E.
Qed.

Lemma next_entry_plain t rest : Forall tag_char t → next_entry (t ++ rest) = next_entry rest.
Proof.
  induction 1 as [|c t [Hc _] _ IH]; [done|]. simpl. by rewrite bool_decide_eq_false_2.
Qed.

Lemma next_entry_length p : (length (next_entry p) ≤ length p - 1)%nat.
Proof. induction p as [|c p IH]; simpl; [done|]. case_bool_decide; lia. Qed.

Lemma skip_blanks_length p : (length (skip_blanks p) ≤ length p)%nat.
Proof. induction p as [|c p IH]; simpl; [done|]. case_bool_decide; simpl; lia. Qed.

(** More iterations than characters change nothing: the scan ends. *)
Lemma tag_allowed_fuel token n m p :
  (length p < n)%nat → (length p < m)%nat → tag_allowed n p token = tag_allowed m p token.
Proof.
  revert m p. induction n as [|n IH]; intros [|m] p Hn Hm; try lia. simpl.
  destruct p as [|c p]; [done|].
  pose proof (next_entry_length (skip_blanks (c :: p))). pose proof (skip_blanks_length (c :: p)).
  destruct (tag_here _ token); [done|]. apply IH; simpl in *; lia.
Qed.

(** Against one plain entry, followed by nothing or by a comma, the comparison
    is equality. *)
Lemma tag_here_plain e rest token :
  Forall tag_char e → Forall tag_char token → head rest = None ∨ head rest = Some Byte.x2c →
  tag_here (e ++ rest) token = bool_decide (e = token).
Proof.
  intros He Ht Hrest. apply Bool.eq_iff_eq_true. unfold tag_here.
  rewrite andb_true_iff, !bool_decide_eq_true. split.
  - intros [Htake Hnext]. destruct (Nat.lt_trichotomy (length token) (length e)) as [Hl|[Hl|Hl]].
    + destruct (lookup_lt_is_Some_2 e (length token) Hl) as [c Hc].
      rewrite (lookup_app_l_Some _ _ _ _ Hc) in Hnext.
      destruct (Forall_lookup_1 _ _ _ _ He Hc) as [? ?].
      by rewrite !bool_decide_eq_false_2 in Hnext.
    + by rewrite take_app_length' in Htake.
    + destruct (lookup_lt_is_Some_2 token (length e) Hl) as [c Hc].
      destruct (Forall_lookup_1 _ _ _ _ Ht Hc) as [Hcomma _].
      rewrite <-Htake, lookup_take_lt, lookup_app_r, Nat.sub_diag in Hc by lia.
      destruct rest; simpl in *; [done|]. by destruct Hrest; simplify_eq.
  - intros ->. rewrite take_app_length, lookup_app_r, Nat.sub_diag by lia. split; [done|].
    destruct rest; simpl in *; [done|]. destruct Hrest; simplify_eq. done.
Qed.

Lemma tag_allowed_join token ts n :
  plain_tags ts → Forall tag_char token → (length (join Byte.x2c ts) < n)%nat →
  tag_allowed n (join Byte.x2c ts) token = existsb (λ t, bool_decide (t = token)) ts.
Proof.
  intros Hts Htok. revert n. induction Hts as [|t ts [Hne Ht] Hts IH]; intros [|n] Hn; [lia|done|lia|].
  assert (Ej : join Byte.x2c (t :: ts) = t ++ concat (cons Byte.x2c <$> ts)) by done.
  rewrite Ej in *. cbn [tag_allowed existsb].
  rewrite skip_blanks_plain, tag_here_plain, next_entry_plain; try done;
    [|destruct ts; [by left|by right]].
  destruct (t ++ _) eqn:E; [by destruct t|]. rewrite <-E in *. clear E.
  destruct (bool_decide (t = token)); [done|]. simpl.
  replace (next_entry _) with (join Byte.x2c ts) by by destruct ts.
  apply IH. rewrite length_app in Hn. unfold join. rewrite length_drop. destruct t; [done|]. simpl in Hn. lia.
Qed.

(** with plain tag lists, a restricted user is allowed a stream exactly
    when they share a tag. *)
Theorem stream_allowed_spec u allowed stream :
  plain_tags allowed → plain_tags stream →
  has_tag_restriction u = true → allowed_tags u = join Byte.x2c allowed →
  (length (join Byte.x2c stream) < 256)%nat →
  db_auth_stream_allowed_for_user (Some u) (Some (join Byte.x2c stream)) = true ↔
  ∃ t, t ∈ allowed ∧ t ∈ stream.
Proof.
  intros Ha Hs Hr Hu Hlen. unfold db_auth_stream_allowed_for_user. rewrite Hr, Hu. cbn [negb].
  assert (Htok : tokens comma stream).
  { eapply Forall_impl; [exact Hs|]. intros t [Hne Ht]. split; [done|].
    eapply Forall_impl; [exact Ht|]. intros c [Hc _]. by apply bool_decide_eq_false. }
  assert (Hcheck : existsb (λ token, tag_allowed (S (length (join Byte.x2c allowed)))
      (join Byte.x2c allowed) (trim_blanks token)) stream = true ↔ ∃ t, t ∈ allowed ∧ t ∈ stream).
  { rewrite existsb_exists. setoid_rewrite <-list_elem_of_In. split.
    - intros (t & Hin & Ht). destruct (proj1 (Forall_forall _ _) Hs t Hin) as [Hne Hc].
      rewrite trim_blanks_plain, tag_allowed_join, existsb_exists in Ht by (done || lia).
      destruct Ht as (t' & Hin'%list_elem_of_In & ->%bool_decide_eq_true). eauto.
    - intros (t & Hin' & Hin). destruct (proj1 (Forall_forall _ _) Hs t Hin) as [Hne Hc].
      exists t. split; [done|]. rewrite trim_blanks_plain, tag_allowed_join, existsb_exists by (done || lia).
      exists t. by rewrite <-list_elem_of_In, bool_decide_eq_true. }
  rewrite <-Hcheck, strcpy_trunc_id, strtok_join by done.
  destruct (join Byte.x2c stream) eqn:E; [|done]. destruct stream as [|t stream]; [done|].
  apply Forall_inv in Hs as [Hne _]. destruct t; [done|]. unfold join in E. discriminate.
Qed.

(** an allowed tag of several words also admits its first word: a stream
    tagged [t] is allowed for a user whose only tag is [t ++ " " ++ more]. *)
Theorem tag_first_word_allowed u t more :
  t ≠ [] → Forall tag_char t → (length t < 256)%nat →
  has_tag_restriction u = true → allowed_tags u = t ++ Byte.x20 :: more →
  db_auth_stream_allowed_for_user (Some u) (Some t) = true.
Proof.
  intros Hne Ht Hlen Hr Hu. unfold db_auth_stream_allowed_for_user. rewrite Hr, Hu. cbn [negb].
  assert (Htok : strtok comma [] (strcpy_trunc 256 t) = [t]).
  { rewrite strcpy_trunc_id by done. rewrite <-(app_nil_r t) at 1. change (t ++ []) with (join Byte.x2c [t]).
    apply strtok_join; [done|]. constructor; [|done]. split; [done|].
    eapply Forall_impl; [exact Ht|]. intros c [Hc _]. by apply bool_decide_eq_false. }
  rewrite Htok. cbn [existsb]. rewrite trim_blanks_plain by done. cbn [tag_allowed].
  rewrite skip_blanks_plain by done.
  assert (Hhere : tag_here (t ++ Byte.x20 :: more) t = true).
  { unfold tag_here. rewrite take_app_length, lookup_app_r, Nat.sub_diag by lia. simpl.
    by rewrite bool_decide_eq_true_2. }
  rewrite Hhere. by destruct t.
Qed.

(** ** Hexadecimal *)

Lemma concat_hex2_length d : length (concat (hex2 <$> d)) = (2 * length d)%nat.
Proof. induction d as [|b d IH]; [done|]. cbn [fmap list_fmap concat]. rewrite length_app, IH. simpl. lia. Qed.

Lemma hex_pair_hex2 b : ∃ c d, hex2 b = [c; d] ∧ Z_byte (hex_pair c d) = b.
Proof.
  pose proof (byte_forall (λ b, match hex2 b with
    | [c; d] => bool_decide (Z_byte (hex_pair c d) = b) | _ => false end)) as Hb.
  specialize (Hb ltac:(vm_compute; reflexivity) b).
  unfold hex2 in *. eexists _, _. split; [done|]. by unbool.
Qed.

Lemma hex_loop_app pre d post :
  (length pre + length d ≤ length pre + length post)%nat →
  hex_loop (concat (hex2 <$> d)) (pre ++ post) (length pre) = Some (pre ++ d ++ drop (length d) post).
Proof.
  revert pre post. induction d as [|b d IH]; intros pre post Hlen; cbn [fmap list_fmap concat]; [by rewrite drop_0|].
  destruct (hex_pair_hex2 b) as (c & c' & Hcc & Hb). destruct post as [|x post]; simpl in Hlen; [lia|].
  rewrite Hcc. cbn [app hex_loop]. rewrite (proj2 (Nat.ltb_lt _ _)) by (rewrite length_app; simpl; lia).
  rewrite Hb, insert_app_r_alt, Nat.sub_diag by lia. cbn [insert list_insert].
  rewrite (cons_middle b), (assoc_L (++)).
  replace (S (length pre)) with (length (pre ++ [b])) by (rewrite length_app; simpl; lia).
  rewrite IH by lia. simpl. by rewrite <-app_assoc.
Qed.

(** what [bin_to_hex] writes, [hex_to_bin] reads back, into the beginning
    of any buffer that is large enough. *)
Theorem hex_roundtrip d n hex data :
  bin_to_hex d n = Some hex → (length d ≤ length data)%nat →
  hex_to_bin hex data = Some (Some (d ++ drop (length d) data)).
Proof.
  unfold bin_to_hex. intros E Hlen. destruct (n <? _)%nat; [done|]. injection E as <-.
  unfold hex_to_bin. rewrite concat_hex2_length, Nat.mul_comm, Nat.div_mul by done.
  rewrite (proj2 (Nat.ltb_ge _ _)) by done. pose proof (hex_loop_app [] d data) as Hl.
  simpl in Hl. rewrite Hl by lia. done.
Qed.

Lemma hex_loop_overrun hex data i :
  (i ≤ length data)%nat →
  hex_loop hex data i = None ↔ (2 * (length data - i) < length hex)%nat.
Proof.
  remember (length hex) as n eqn:Hn. revert hex data i Hn.
  induction n as [n IH] using lt_wf_ind. intros [|c [|d hex]] data i Hn Hi; subst n; simpl.
  - split; [done|intros; exfalso; lia].
  - destruct (Nat.ltb_spec i (length data)); [split; [done|intros; exfalso; lia]|split; [lia|done]].
  - destruct (Nat.ltb_spec i (length data)); [|split; [lia|done]].
    rewrite (IH (length hex)); rewrite ?length_insert; simpl; try done; lia.
Qed.

(** [hex_to_bin] writes outside its buffer exactly when the string has
    one digit more than the buffer has room for. *)
Theorem hex_to_bin_overrun hex data :
  hex_to_bin hex data = None ↔ length hex = (2 * length data + 1)%nat.
Proof.
  unfold hex_to_bin. pose proof (Nat.div_mod_eq (length hex) 2) as Hd.
  pose proof (Nat.mod_upper_bound (length hex) 2 ltac:(lia)).
  destruct (Nat.ltb_spec (length data) (length hex / 2)); [split; [done|intros; exfalso; lia]|].
  pose proof (hex_loop_overrun hex data 0 ltac:(lia)) as Hl. rewrite Nat.sub_0_r in Hl.
  destruct (hex_loop hex data 0); simpl.
  - split; [done|]. intros E. assert (Some l = None) by (apply Hl; lia). done.
  - split; [|done]. intros _. assert (2 * length data < length hex)%nat by by apply Hl. lia.
Qed.

(** ** Lifetimes *)

Lemma default_session_idle_expiry_seconds_range h :
  0 < default_session_idle_expiry_seconds h ≤ INT32_MAX.
Proof. unfold default_session_idle_expiry_seconds, DEFAULT_SESSION_EXPIRY, INT32_MAX. repeat case_match; unbool; lia. Qed.

Lemma role_roundtrip r :
  0 ≤ r < 4 → db_auth_get_role_id (Some (db_auth_get_role_name r)) = r.
Proof. intros Hr. assert (r = 0 ∨ r = 1 ∨ r = 2 ∨ r = 3) as [->|[->|[->| ->]]] by lia; vm_compute; reflexivity. Qed.

(** ** Concrete instances *)

(** A resolver that knows three addresses. *)
Definition known_addresses : list (af * list byte * cstr) :=
  [ (AF_INET, [Byte.x0a; Byte.x01; Byte.x02; Byte.x00], lit "10.1.2.0");
    (AF_INET, [Byte.x0a; Byte.x01; Byte.x03; Byte.x07], lit "10.1.3.7");
    (AF_INET6, replicate 15 Byte.x00 ++ [Byte.x01], lit "::1") ].

Definition known_conversions : InetConversions := {|
  inet_pton f s := k ← find_idx (λ k, bool_decide (k.1.1 = f) && streq k.2 s) known_addresses;
                   k ← known_addresses !! k; Some k.1.2;
  inet_ntop f a := k ← find_idx (λ k, bool_decide (k.1.1 = f) && streq k.1.2 a) known_addresses;
                   k ← known_addresses !! k; Some k.2
|}.

Lemma known_inv {A} (p : af * list byte * cstr → bool) (g : af * list byte * cstr → A) x :
  (k ← find_idx p known_addresses; k ← known_addresses !! k; Some (g k)) = Some x →
  Exists (λ k, p k = true ∧ g k = x) known_addresses.
Proof.
  intros E. destruct (find_idx p known_addresses) as [i|] eqn:Ei; [|done].
  apply find_idx_lookup in Ei as (k & Hk & Hp). apply Exists_exists. exists k.
  split; [by eapply list_elem_of_lookup_2|]. cbn [mbind option_bind] in E. rewrite Hk in E.
  by injection E as <-.
Qed.

#[local] Existing Instance known_conversions.

Lemma known_laws : InetLaws.
Proof.
  split.
  - intros f s a E%known_inv. repeat (apply Exists_cons in E as [[Hp E]|E]); [..|by apply Exists_nil in E];
      unbool; simpl in *; subst; reflexivity.
  - intros f a t _ E%known_inv. repeat (apply Exists_cons in E as [[Hp E]|E]); [..|by apply Exists_nil in E];
      unbool; simpl in *; subst; vm_compute; reflexivity.
  - intros a t E%known_inv. repeat (apply Exists_cons in E as [[Hp E]|E]); [..|by apply Exists_nil in E];
      unbool; simpl in *; try done; subst; vm_compute; reflexivity.
  - intros f a t E%known_inv. repeat (apply Exists_cons in E as [[Hp E]|E]); [..|by apply Exists_nil in E];
      unbool; simpl in *; subst; (split; [done|]); apply (bool_decide_unpack _); vm_compute; reflexivity.
Qed.

#[local] Existing Instance known_laws.

Lemma ip_matches_cidr_spec_witness :
  ip_matches_cidr (Some (lit "10.1.3.7")) (Some (lit " 10.1.2.0 / 23")) = true ∧
  ∃ f ip network p,
    address_of (lit "10.1.3.7") = Some (f, ip) ∧ parse_cidr_entry (lit " 10.1.2.0 / 23") = Some (f, network, p) ∧
    0 ≤ p ≤ 8 * Z.of_nat (length ip) ∧ length network = length ip ∧
    ∀ i, 0 ≤ i < p → addr_bit ip i = addr_bit network i.
Proof. split; [vm_compute; reflexivity|]. apply ip_matches_cidr_spec. vm_compute; reflexivity. Defined.

Lemma normalize_preserves_access_witness :
  normalize_allowed_login_cidrs (Some (lit " 10.1.2.0/23,, ::1")) USER_ALLOWED_LOGIN_CIDRS_MAX =
    Some (lit "10.1.2.0/23" ++ Byte.x0a :: lit "::1/128", true) ∧
  db_auth_ip_allowed_for_user
    (Some (set_login_cidrs (lit "10.1.2.0/23" ++ Byte.x0a :: lit "::1/128") true zero_user)) (Some (lit "10.1.3.7")) =
  db_auth_ip_allowed_for_user
    (Some (set_login_cidrs (lit " 10.1.2.0/23,, ::1") true zero_user)) (Some (lit "10.1.3.7")).
Proof.
  assert (E : normalize_allowed_login_cidrs (Some (lit " 10.1.2.0/23,, ::1")) USER_ALLOWED_LOGIN_CIDRS_MAX =
       Some (lit "10.1.2.0/23" ++ Byte.x0a :: lit "::1/128", true)) by (vm_compute; reflexivity).
  split; [exact E|]. exact (normalize_preserves_access _ _ _ true zero_user (Some (lit "10.1.3.7")) E).
Defined.

Definition plain_tags_b (ts : list cstr) : bool :=
  forallb (λ t, negb (empty t) && forallb (λ c, negb (bool_decide (c = Byte.x2c)) && negb (bool_decide (c = Byte.x20))) t) ts.

Lemma plain_tags_b_true ts : plain_tags_b ts = true → plain_tags ts.
Proof.
  unfold plain_tags_b. rewrite forallb_forall. intros H. apply Forall_forall. intros t Ht%list_elem_of_In.
  specialize (H t Ht). apply andb_true_iff in H as [Hne Hc]. split; [by destruct t|].
  rewrite forallb_forall in Hc. apply Forall_forall. intros c Hin%list_elem_of_In.
  specialize (Hc c Hin). by unbool.
Qed.

Lemma stream_allowed_spec_witness :
  ∃ u, has_tag_restriction u = true ∧ allowed_tags u = join Byte.x2c [lit "yard"; lit "gate"] ∧
  (db_auth_stream_allowed_for_user (Some u) (Some (join Byte.x2c [lit "gate"; lit "door"])) = true ↔
   ∃ t, t ∈ [lit "yard"; lit "gate"] ∧ t ∈ [lit "gate"; lit "door"]).
Proof.
  exists (set_tags (join Byte.x2c [lit "yard"; lit "gate"]) true zero_user). split; [reflexivity|]. split; [reflexivity|].
  apply stream_allowed_spec.
  - apply plain_tags_b_true. vm_compute; reflexivity.
  - apply plain_tags_b_true. vm_compute; reflexivity.
  - reflexivity.
  - reflexivity.
  - apply Nat.ltb_lt. vm_compute; reflexivity.
Defined.

Lemma tag_first_word_allowed_witness :
  ∃ u, allowed_tags u = lit "front yard" ∧ db_auth_stream_allowed_for_user (Some u) (Some (lit "front")) = true.
Proof.
  exists (set_tags (lit "front yard") true zero_user). split; [reflexivity|].
  apply (tag_first_word_allowed _ _ (lit "yard")).
  - discriminate.
  - assert (Hp : plain_tags [lit "front"]) by (apply plain_tags_b_true; vm_compute; reflexivity).
    by apply Forall_inv in Hp as [_ ?].
  - apply Nat.ltb_lt. vm_compute; reflexivity.
  - reflexivity.
  - vm_compute; reflexivity.
Defined.

Lemma hex_roundtrip_witness :
  bin_to_hex [Byte.x7f; Byte.x0a] 5 = Some (lit "7f0a") ∧
  hex_to_bin (lit "7f0a") [Byte.x01; Byte.x02; Byte.x03] = Some (Some [Byte.x7f; Byte.x0a; Byte.x03]).
Proof.
  split; [vm_compute; reflexivity|].
  apply (hex_roundtrip [Byte.x7f; Byte.x0a] 5); [vm_compute; reflexivity|simpl; lia].
Defined.
