(* ===== verification/HttpMessage.v ===== *)
(** * HTTP requests and responses: [src/web/request_response.c]

    The accessors of requests (headers, query and path parameters, body), the
    URL decoder they use, and the construction of responses.  A fixed array of
    characters holding a string is the string; [num_headers] is the length of
    the list of headers. *)
From Stdlib Require Import ZArith Lia Bool.
From Stdlib Require Import Strings.Byte.
From stdpp Require Import base numbers list strings sets.
From S2P Require Import Prelude.
From S2P Require Import Libc.
From S2P Require Import CStrings.
#[local] Open Scope Z_scope.

Definition MAX_HEADERS : nat := 50.

(** ** Data *)

Record http_header_t := mkHeader { header_name : cstr; header_value : cstr }.

(** The fields of [http_request_t] that the code below reads. *)
Record http_request_t := mkRequest {
  path : cstr;
  query_string : cstr;
  user_agent : cstr;
  body : option (list byte);
  headers : list http_header_t;
  client_ip : cstr
}.

Record http_response_t := mkResponse {
  status_code : Z;
  content_type : cstr;
  response_body : option cstr;
  body_length : Z;
  body_allocated : bool;
  response_headers : list http_header_t
}.

Definition http_response_init : http_response_t := mkResponse 200 [] None 0 false [].

Definition http_request_init : http_request_t := mkRequest [] [] [] None [] [].

(** ** Decoding *)

(** [sscanf (s, "%2x", &value)]: white space is skipped, then at most two
    characters are read: digits, or a sign and one digit.  [None] when nothing
    matches. *)
Definition sscanf_2x (s : cstr) : option Z :=
  match skip_space s with
  | [] => None
  | c :: rest =>
      let second := d ← head rest; hex_value d in
      match hex_value c with
      | Some h =>
          match second with
          | Some l => Some (16 * h + l)
          | None => if bool_decide (c = Byte.x30) &&
                       (bool_decide (head rest = Some Byte.x78) || bool_decide (head rest = Some Byte.x58))
                    then None else Some h
          end
      | None =>
          if bool_decide (c = Byte.x2b) then second
          else if bool_decide (c = Byte.x2d) then v ← second; Some (u32 (- v))
          else None
      end
  end.

(** The characters written to [dst]; [room] is [dst_size - 1 - j]. *)
Fixpoint url_decode_loop (src : cstr) (room : nat) : list byte :=
  match room, src with
  | O, _ | _, [] => []
  | S room, c :: rest =>
      if bool_decide (c = Byte.x25) && (2 <=? length rest)%nat then
        match sscanf_2x rest with
        | Some value => Z_byte value :: url_decode_loop (drop 2 rest) room
        | None => c :: url_decode_loop rest room
        end
      else if bool_decide (c = Byte.x2b) then Byte.x20 :: url_decode_loop rest room
      else c :: url_decode_loop rest room
  end.

(** [None] for -1; what is read back is the string up to a decoded NUL. *)
Definition url_decode (src : cstr) (dst_size : nat) : option cstr :=
  if (dst_size =? 0)%nat then None
  else Some (cstring (url_decode_loop src (dst_size - 1) ++ [NUL])).

(** ** Requests *)

Definition http_request_get_header (req : http_request_t) (name : cstr) : option cstr :=
  i ← find_idx (λ h, strcaseeq (header_name h) name) (headers req);
  h ← headers req !! i; Some (header_value h).

(** [strncmp (p, name, strlen (name)) == 0 && p[strlen (name)] == '=']: what follows. *)
Definition after_name (name p : cstr) : option cstr :=
  if bool_decide (take (length name) p = name) && bool_decide (p !! length name = Some Byte.x3d)
  then Some (drop (S (length name)) p) else None.

(** The scan of the query string; [n] bounds the parameters. *)
Fixpoint query_loop (n : nat) (p name : cstr) (value_len : nat) : option cstr :=
  match n with
  | O => None
  | S n =>
      match p with
      | [] => None
      | _ =>
          match after_name name p with
          | Some val_start =>
              let raw := until Byte.x26 val_start in
              let val_len := if (value_len <=? length raw)%nat then (value_len - 1)%nat else length raw in
              if (val_len <? 1024)%nat then url_decode (take val_len raw) value_len
              else Some (take val_len raw)
          | None =>
              match split_first Byte.x26 p with
              | Some (_, p) => query_loop n p name value_len
              | None => None
              end
          end
      end
  end.

(** [None] for -1; the result of the code is the length of the value. *)
Definition http_request_get_query_param (req : http_request_t) (name : cstr) (value_len : nat) : option cstr :=
  if (value_len =? 0)%nat then None
  else query_loop (S (length (query_string req))) (query_string req) name value_len.

Definition http_request_get_body_str (req : http_request_t) (buf_len : nat) : option (list byte) :=
  if (buf_len =? 0)%nat then None else
  match body req with
  | None | Some [] => Some []
  | Some b => Some (take (if (length b <? buf_len - 1)%nat then length b else (buf_len - 1)%nat) b)
  end.

Fixpoint skip_slashes (s : cstr) : cstr :=
  match s with
  | c :: s' => if bool_decide (c = Byte.x2f) then skip_slashes s' else s
  | [] => []
  end.

Definition http_request_extract_path_param (req : http_request_t) (prefix : cstr) (buf_size : nat) : option cstr :=
  if (buf_size =? 0)%nat then None else
  if negb (bool_decide (take (length prefix) (path req) = prefix)) then None else
  let param := skip_slashes (drop (length prefix) (path req)) in
  let param_len := length (skip_slashes (reverse (until Byte.x3f param))) in
  if (param_len =? 0)%nat || (buf_size <=? param_len)%nat then None
  else url_decode param (param_len + 1).

(** ** Responses *)

Definition set_headers (res : http_response_t) (hs : list http_header_t) : http_response_t :=
  mkResponse (status_code res) (content_type res) (response_body res) (body_length res) (body_allocated res) hs.

Definition set_body (res : http_response_t) (b : option cstr) (n : Z) (allocated : bool) : http_response_t :=
  mkResponse (status_code res) (content_type res) b n allocated (response_headers res).

Definition http_response_free (res : http_response_t) : http_response_t :=
  if body_allocated res && bool_decide (response_body res ≠ None) then set_body res None 0 false else res.

Definition http_response_add_header (res : http_response_t) (name value : cstr) : Z * http_response_t :=
  if (MAX_HEADERS <=? length (response_headers res))%nat then (-1, res)
  else (0, set_headers res (response_headers res ++ [mkHeader (strcpy_trunc 128 name) (strcpy_trunc 1024 value)])).

Definition add_header (name value : string) (res : http_response_t) : http_response_t :=
  (http_response_add_header res (lit name) (lit value)).2.

Definition http_response_add_cors_headers (res : http_response_t) : http_response_t :=
  add_header "Access-Control-Max-Age" "86400"
    (add_header "Access-Control-Allow-Credentials" "true"
      (add_header "Access-Control-Allow-Headers" "Content-Type, Authorization, X-Requested-With"
        (add_header "Access-Control-Allow-Methods" "GET, POST, PUT, DELETE, OPTIONS"
          (add_header "Access-Control-Allow-Origin" "*" res)))).

(** [alloc] is whether [malloc] succeeds; the old body is freed before. *)
Definition http_response_set_body (alloc : bool) (res : http_response_t) (b : cstr) : Z * http_response_t :=
  if alloc then (0, set_body res (Some b) (Z.of_nat (length b)) true)
  else (-1, set_body res None (body_length res) (body_allocated res)).

Definition http_response_set_json (alloc : bool) (res : http_response_t) (code : Z) (json_str : cstr)
    : Z * http_response_t :=
  let res := mkResponse code (strcpy_trunc 128 (lit "application/json")) (response_body res) (body_length res)
               (body_allocated res) (response_headers res) in
  let res := http_response_add_cors_headers res in
  let res := add_header "Cache-Control" "no-cache, no-store, must-revalidate" res in
  let res := add_header "Pragma" "no-cache" res in
  let res := add_header "Expires" "0" res in
  http_response_set_body alloc res json_str.

(** The message is not escaped; [json_buf] has room for all of it. *)
Definition http_response_set_json_error (alloc : bool * bool) (res : http_response_t) (code : Z) (error_message : cstr)
    : Z * http_response_t :=
  if alloc.1 then
    http_response_set_json alloc.2 res code
      (Byte.x7b :: Byte.x22 :: lit "error" ++ Byte.x22 :: Byte.x3a :: Byte.x22 :: error_message ++ [Byte.x22; Byte.x7d])
  else (-1, res).

(** ** Responses *)

Lemma add_header_status name value res : status_code (add_header name value res) = status_code res.
Proof. unfold add_header, http_response_add_header. by case_match. Qed.

Lemma set_body_status alloc res b : status_code (http_response_set_body alloc res b).2 = status_code res.
Proof. by destruct alloc. Qed.

Lemma add_cors_headers_status res : status_code (http_response_add_cors_headers res) = status_code res.
Proof. unfold http_response_add_cors_headers. by rewrite !add_header_status. Qed.

Lemma set_json_status alloc res code json : status_code (http_response_set_json alloc res code json).2 = code.
Proof.
  unfold http_response_set_json. by rewrite set_body_status, !add_header_status, add_cors_headers_status.
Qed.

Lemma set_json_error_status alloc res code msg :
  alloc.1 = true → status_code (http_response_set_json_error alloc res code msg).2 = code.
Proof. intros Halloc. unfold http_response_set_json_error. rewrite Halloc. apply set_json_status. Qed.

(** A response holds at most [MAX_HEADERS] headers. *)
Lemma add_header_bound name value res :
  (length (response_headers res) ≤ MAX_HEADERS)%nat →
  (length (response_headers (http_response_add_header res name value).2) ≤ MAX_HEADERS)%nat.
Proof.
  intros Hl. unfold http_response_add_header. destruct (Nat.leb_spec MAX_HEADERS (length (response_headers res))); [done|].
  cbn [snd set_headers response_headers]. rewrite length_app. cbn [length]. lia.
Qed.

(** ** Query parameters *)

Lemma after_name_param name n v :
  Byte.x3d ∉ name → Byte.x3d ∉ n →
  after_name name (n ++ Byte.x3d :: v) = if bool_decide (name = n) then Some v else None.
Proof.
  intros Hname Hn. pose proof (first_sep Byte.x3d name n v Hname Hn) as Hs. unfold after_name.
  case_bool_decide as Ht; case_bool_decide as Hc; case_bool_decide as He; simpl; try naive_solver.
  subst n. by rewrite (cons_middle Byte.x3d), (assoc_L (++)), drop_app_length' by (rewrite length_app; simpl; lia).
Qed.

(** A query string as it is sent: names without ['='] or ['&'], values without ['&']. *)
Definition query_param (p : cstr * cstr) : cstr := p.1 ++ Byte.x3d :: p.2.

Definition plain_params (ps : list (cstr * cstr)) : Prop :=
  Forall (λ p, (Byte.x3d ∉ p.1) ∧ (Byte.x26 ∉ p.1) ∧ (Byte.x26 ∉ p.2)) ps.

Definition first_param (name : cstr) (ps : list (cstr * cstr)) : option cstr :=
  snd <$> head (filter (λ p, p.1 = name) ps).

Lemma query_loop_spec name ps n len :
  plain_params ps → Byte.x3d ∉ name → (0 < len ≤ 1024)%nat →
  (length (join Byte.x26 (query_param <$> ps)) < n)%nat →
  query_loop n (join Byte.x26 (query_param <$> ps)) name len =
  v ← first_param name ps; url_decode (strcpy_trunc len v) len.
Proof.
  intros Hps Hname Hlen. revert n. induction Hps as [|[k v] ps (Hk & Hk' & Hv) Hps IH]; intros [|n] Hn; [lia|done|lia|].
  assert (Ej : join Byte.x26 (query_param <$> (k, v) :: ps) =
               k ++ Byte.x3d :: (v ++ concat (cons Byte.x26 <$> (query_param <$> ps)))).
  { unfold join, query_param at 1. simpl. by rewrite <-app_assoc. }
  rewrite Ej in *. cbn [query_loop]. rewrite after_name_param by done.
  assert (Hq : Byte.x26 ∉ k ++ Byte.x3d :: v).
  { rewrite elem_of_app, elem_of_cons. simpl in *. intros [?|[?|?]]; done. }
  destruct (k ++ _) eqn:Enil; [by destruct k|]. rewrite <-Enil in *. clear Enil.
  unfold first_param. cbn [filter list_filter fst]. case_bool_decide as He.
  - subst k. rewrite decide_True by done. cbn [head fmap option_fmap option_map snd mbind option_bind].
    assert (Hu : until Byte.x26 (v ++ concat (cons Byte.x26 <$> (query_param <$> ps))) = v).
    { destruct ps; simpl; [rewrite app_nil_r; by apply until_none|by apply until_app]. }
    rewrite Hu. unfold strcpy_trunc. destruct (Nat.leb_spec len (length v)); rewrite (proj2 (Nat.ltb_lt _ _)) by lia; [done|].
    by rewrite firstn_all, take_ge by lia.
  - rewrite decide_False by congruence.
    assert (Ea : ∀ r, k ++ Byte.x3d :: (v ++ r) = (k ++ Byte.x3d :: v) ++ r) by (intros r; by rewrite <-app_assoc).
    rewrite Ea.
    destruct ps as [|q ps].
    + simpl. rewrite app_nil_r, split_first_none by done. done.
    + cbn [fmap list_fmap concat app]. rewrite split_first_app by done.
      apply IH. unfold join. cbn [fmap list_fmap concat app drop].
      cbn [fmap list_fmap concat app] in Hn.
      repeat (rewrite length_app in Hn || cbn [length] in Hn || rewrite length_app || rewrite drop_0). lia.
Qed.

(** the value of a query parameter is the decoded text of the first
    parameter of that name, cut to the buffer; the scan of the query string
    ends. *)
Theorem query_param_spec req name ps len :
  plain_params ps → Byte.x3d ∉ name → (0 < len ≤ 1024)%nat →
  query_string req = join Byte.x26 (query_param <$> ps) →
  http_request_get_query_param req name len = v ← first_param name ps; url_decode (strcpy_trunc len v) len.
Proof.
  intros Hps Hname Hlen Hq. unfold http_request_get_query_param.
  rewrite (proj2 (Nat.eqb_neq len 0)) by lia. rewrite Hq. apply query_loop_spec; [done..|lia].
Qed.

(** What is decoded fits the array. *)
Lemma url_decode_loop_length src room : (length (url_decode_loop src room) ≤ room)%nat.
Proof.
  revert src. induction room as [|room IH]; intros src; [by destruct src|]. destruct src as [|c rest]; simpl; [lia|].
  repeat case_match; simpl; by apply le_n_S.
Qed.

Lemma url_decode_length src n v : url_decode src n = Some v → (length v < n)%nat.
Proof.
  unfold url_decode. destruct (Nat.eqb_spec n 0); [done|]. intros [= <-].
  pose proof (cstring_length (url_decode_loop src (n - 1)) []). pose proof (url_decode_loop_length src (n - 1)). lia.
Qed.

(** ** Path parameters *)

Definition plain_char (c : byte) : Prop := c ∉ [Byte.x25; Byte.x2b; Byte.x3f; Byte.x2f; NUL].

Lemma plain_char_ne c :
  plain_char c → c ≠ Byte.x25 ∧ c ≠ Byte.x2b ∧ c ≠ Byte.x3f ∧ c ≠ Byte.x2f ∧ c ≠ NUL.
Proof. unfold plain_char. rewrite !not_elem_of_cons. tauto. Qed.

Lemma url_decode_loop_plain a rest room :
  Forall plain_char a → url_decode_loop (a ++ rest) (length a + room) = a ++ url_decode_loop rest room.
Proof.
  induction 1 as [|c a (H1 & H2 & _)%plain_char_ne _ IH]; [done|].
  cbn [app length Nat.add url_decode_loop]. by rewrite !bool_decide_eq_false_2, IH by done.
Qed.

Lemma hex_value_not_special h x : hex_value h = Some x → plain_char h ∧ isspace h = false.
Proof.
  intros E. pose proof (byte_forall (λ h, negb (bool_decide (is_Some (hex_value h))) ||
    (bool_decide (h ∉ [Byte.x25; Byte.x2b; Byte.x3f; Byte.x2f; NUL]) && negb (isspace h)))) as Hf.
  specialize (Hf ltac:(vm_compute; reflexivity) h). cbv beta in Hf. rewrite E in Hf.
  rewrite bool_decide_eq_true_2 in Hf by done. simpl in Hf. by unbool.
Qed.

(** the decoder is given the length of the encoded parameter as the room
    for the decoded one, and the rest of the path as its input: a parameter
    that ends in an escape keeps the slash that is to be stripped. *)
Theorem path_param_overshoot req prefix buf_size a h l x y :
  path req = prefix ++ a ++ [Byte.x25; h; l; Byte.x2f] → Forall plain_char a →
  hex_value h = Some x → hex_value l = Some y → u8 (16 * x + y) ≠ 0 → (length a + 3 < buf_size)%nat →
  http_request_extract_path_param req prefix buf_size = Some (a ++ [Z_byte (16 * x + y); Byte.x2f]).
Proof.
  intros Hpath Ha Hh Hl Hc Hsize. unfold http_request_extract_path_param.
  rewrite (proj2 (Nat.eqb_neq buf_size 0)) by lia.
  rewrite Hpath, take_app_length, bool_decide_eq_true_2, drop_app_length by done. cbn [negb].
  destruct (hex_value_not_special h x Hh) as [Hph Hsh], (hex_value_not_special l y Hl) as [Hpl _].
  assert (Ha' : ∀ c, c ∈ a → plain_char c) by (intros c ?; by eapply Forall_forall).
  apply plain_char_ne in Hph, Hpl.
  assert (Hq : Byte.x3f ∉ a ++ [Byte.x25; h; l; Byte.x2f]).
  { rewrite elem_of_app, !elem_of_cons, elem_of_nil. intros [Hin%Ha'%plain_char_ne|Hin]; naive_solver. }
  assert (Hskip : skip_slashes (a ++ [Byte.x25; h; l; Byte.x2f]) = a ++ [Byte.x25; h; l; Byte.x2f]).
  { destruct a as [|c a]; [done|]. apply Forall_inv, plain_char_ne in Ha.
    cbn [app skip_slashes]. rewrite bool_decide_eq_false_2; [done|tauto]. }
  rewrite Hskip, until_none by done.
  assert (Hlen : length (skip_slashes (reverse (a ++ [Byte.x25; h; l; Byte.x2f]))) = (length a + 3)%nat).
  { rewrite reverse_app. change (reverse [_; h; l; _]) with [Byte.x2f; l; h; Byte.x25].
    cbn [app skip_slashes]. rewrite bool_decide_eq_true_2, bool_decide_eq_false_2 by tauto.
    cbn [length]. rewrite length_reverse. lia. }
  rewrite Hlen, (proj2 (Nat.eqb_neq _ 0)), (proj2 (Nat.leb_gt _ _)) by lia. cbn [orb].
  unfold url_decode. rewrite (proj2 (Nat.eqb_neq _ 0)) by lia. f_equal.
  replace (length a + 3 + 1 - 1)%nat with (length a + 3)%nat by lia. rewrite url_decode_loop_plain by done.
  assert (Hd : url_decode_loop [Byte.x25; h; l; Byte.x2f] 3 = [Z_byte (16 * x + y); Byte.x2f]).
  { cbn [url_decode_loop]. rewrite bool_decide_eq_true_2 by done. cbn [length Nat.leb andb].
    unfold sscanf_2x. rewrite skip_space_id by done. rewrite Hh. cbn [head mbind option_bind]. by rewrite Hl. }
  rewrite Hd. apply (cstring_terminated _ []). unfold no_nul. rewrite elem_of_app, !elem_of_cons, elem_of_nil.
  intros [Hin%Ha'%plain_char_ne|[E|[E|[]]]]; [naive_solver| |done].
  apply Hc. by rewrite <-byte_Z_Z_byte, <-E.
Qed.

(** ** Concrete instances *)

Lemma query_param_spec_witness :
  ∃ req, query_string req = lit "a=1&ab=x%2Fy&ab=z" ∧
         http_request_get_query_param req (lit "ab") 64 = Some (lit "x/y").
Proof.
  exists (mkRequest [] (lit "a=1&ab=x%2Fy&ab=z") [] None [] []). split; [reflexivity|].
  rewrite (query_param_spec _ _ [(lit "a", lit "1"); (lit "ab", lit "x%2Fy"); (lit "ab", lit "z")]).
  - vm_compute; reflexivity.
  - apply (bool_decide_unpack _); vm_compute; reflexivity.
  - apply (bool_decide_unpack _); vm_compute; reflexivity.
  - lia.
  - vm_compute; reflexivity.
Defined.

Lemma path_param_overshoot_witness :
  ∃ req, path req = lit "/api/streams/front%20/" ∧
         http_request_extract_path_param req (lit "/api/streams/") 256 = Some (lit "front /").
Proof.
  exists (mkRequest (lit "/api/streams/front%20/") [] [] None [] []). split; [reflexivity|].
  apply (path_param_overshoot _ (lit "/api/streams/") 256 (lit "front") Byte.x32 Byte.x30 2 0).
  - reflexivity.
  - unfold plain_char. apply (bool_decide_unpack _); vm_compute; reflexivity.
  - reflexivity.
  - reflexivity.
  - vm_compute. discriminate.
  - simpl; lia.
Defined.
