(* ===== verification/HttpUtils.v ===== *)
(** * Identity of a request: [src/web/httpd_utils.c]

    Who sends a request: the address of the client behind trusted proxies,
    cookies, HTTP Basic credentials, API keys, and the decision to treat the
    request as one of a user.  The statements on the user tables, which go
    through SQLite, are the interface [AuthStore]; undefined behaviour of a
    trimmed copy is the outer [None]. *)
From Stdlib Require Import ZArith Lia Bool.
From Stdlib Require Import Strings.Byte.
From stdpp Require Import base numbers list strings sets.
From S2P Require Import Prelude.
From S2P Require Import Libc.
From S2P Require Import CStrings.
From S2P Require Import Auth.
From S2P Require Import HttpMessage.
#[local] Open Scope Z_scope.

(** The members of [g_config] that are read. *)
Record config_t := mkConfig {
  web_auth_enabled : bool;
  auth_absolute_timeout_hours : Z;
  trusted_device_days : Z;
  trusted_proxy_cidrs : cstr;
  demo_mode : bool
}.

(** ** Base64 *)

Definition base64_alphabet : cstr := lit "ABCDEFGHIJKLMNOPQRSTUVWXYZabcdefghijklmnopqrstuvwxyz0123456789+/".

(** [table[c]]: 0 for the characters that are not listed. *)
Definition base64_table (c : byte) : Z :=
  match find_idx (λ x, bool_decide (x = c)) base64_alphabet with Some i => Z.of_nat i | None => 0 end.

Fixpoint base64_loop (src : cstr) (accum bits : Z) (dst : list byte) (dst_size : nat) : list byte :=
  match src with
  | [] => dst
  | c :: src =>
      if bool_decide (c = Byte.x3d) then dst else
      if bool_decide (c = Byte.x20) || bool_decide (c = Byte.x0a) || bool_decide (c = Byte.x0d)
      then base64_loop src accum bits dst dst_size else
      let accum := Z.lor (u32 (Z.shiftl accum 6)) (base64_table c) in
      let bits := bits + 6 in
      if bits >=? 8 then
        let bits := bits - 8 in
        let dst := if (length dst <? dst_size - 1)%nat
                   then dst ++ [Z_byte (Z.land (Z.shiftr accum bits) 255)] else dst in
        base64_loop src accum bits dst dst_size
      else base64_loop src accum bits dst dst_size
  end.

(** The characters of [dst] before its terminator at [j]; [dst_size] > 0. *)
Definition base64_decode (src : cstr) (dst_size : nat) : list byte := base64_loop src 0 0 [] dst_size.

(** ** The address of the client *)

(** An array [char a[n]], zeroed before [s] was copied to it. *)
Definition field (n : nat) (s : cstr) : mem := s ++ replicate (n - length s) NUL.

(** [copy_trimmed_value] into a zeroed array; the inner [None] is a length of 0. *)
Definition copy_trimmed (size : nat) (m : mem) : option (option cstr) :=
  '(len, out) ← copy_trimmed_value (Some (replicate size NUL)) (Z.of_nat size) (Some m) 0;
  Some (if len =? 0 then None else Some (cstring (default [] out))).

Section client_ip.
Context `{InetConversions}.

(** The text of an address in normal form; all callers give it
    [INET6_ADDRSTRLEN] bytes. *)
Definition normalize_ip_literal (input : cstr) : option cstr :=
  if (INET6_ADDRSTRLEN + 8 <=? length input)%nat then None else
  let candidate := trim input in
  if empty candidate then None else
  candidate ← match candidate with
              | c :: inner =>
                  if bool_decide (c = Byte.x5b) then
                    match split_first Byte.x5d inner with
                    | Some (address, []) => Some address
                    | _ => None
                    end
                  else Some candidate
              | [] => Some candidate
              end;
  match inet_pton AF_INET candidate with
  | Some addr => inet_ntop AF_INET addr
  | None => addr ← inet_pton AF_INET6 candidate; inet_ntop AF_INET6 addr
  end.

Definition ip_matches_cidr_list (cidr_list ip : cstr) : bool :=
  if empty cidr_list || empty ip then false
  else db_auth_ip_allowed_for_user
         (Some (set_login_cidrs (strcpy_trunc USER_ALLOWED_LOGIN_CIDRS_MAX cidr_list) true zero_user)) (Some ip).

(** The last of the addresses that is not a trusted proxy. *)
Definition last_untrusted (trusted : cstr) (tokens : list cstr) : option cstr :=
  head (filter (λ t, ip_matches_cidr_list trusted t = false) (reverse tokens)).

Definition max_forwarded : nat := 16.

(** [None] for -1. *)
Definition resolve_client_ip_from_forwarded_headers (cfg : config_t) (req : http_request_t) (client_ip_size : nat)
    : option cstr :=
  let from_real_ip :=
    match http_request_get_header req (lit "X-Real-IP") with
    | None | Some [] => None
    | Some x_real_ip =>
        normalized ← normalize_ip_literal x_real_ip; Some (strcpy_trunc client_ip_size normalized)
    end in
  match http_request_get_header req (lit "X-Forwarded-For") with
  | None | Some [] => from_real_ip
  | Some forwarded =>
      if (1024 <=? length forwarded)%nat then None else
      normalized_tokens ← mapM normalize_ip_literal (take max_forwarded (strtok comma [] forwarded));
      match last_untrusted (trusted_proxy_cidrs cfg) normalized_tokens with
      | Some ip => Some (strcpy_trunc client_ip_size ip)
      | None => from_real_ip
      end
  end.

Definition httpd_get_effective_client_ip (cfg : config_t) (req : http_request_t) (client_ip_size : nat)
    : option (option cstr) :=
  if (client_ip_size =? 0)%nat || empty (client_ip req) then Some None else
  match normalize_ip_literal (client_ip req) with
  | None => copy_trimmed client_ip_size (field 64 (client_ip req))
  | Some peer_ip =>
      let direct := strcpy_trunc client_ip_size peer_ip in
      if negb (empty (trusted_proxy_cidrs cfg)) && ip_matches_cidr_list (trusted_proxy_cidrs cfg) peer_ip then
        Some (Some (default direct (resolve_client_ip_from_forwarded_headers cfg req client_ip_size)))
      else Some (Some direct)
  end.
End client_ip.

(** ** Credentials *)

Definition strncaseeq (n : nat) (s t : cstr) : bool := strcaseeq (take n s) (take n t).

Definition httpd_get_basic_auth_credentials (req : http_request_t) (username_size password_size : nat)
    : option (cstr * cstr) :=
  auth ← http_request_get_header req (lit "Authorization");
  if negb (strncaseeq 6 auth (lit "Basic ")) then None else
  let encoded := skip_blanks (drop 6 auth) in
  let decoded := cstring (base64_decode encoded 256 ++ [NUL]) in
  '(username, password) ← split_first Byte.x3a decoded;
  Some (strcpy_trunc username_size username, strcpy_trunc password_size password).

(** The outer [None] is undefined behaviour, the inner one -1. *)
Definition httpd_get_api_key (req : http_request_t) (api_key_size : nat) : option (option cstr) :=
  if (api_key_size =? 0)%nat then Some None else
  from_header ← match http_request_get_header req (lit "X-API-Key") with
                | Some header_value => copy_trimmed api_key_size (field 1024 header_value)
                | None => Some None
                end;
  match from_header with
  | Some key => Some (Some key)
  | None =>
      match http_request_get_header req (lit "Authorization") with
      | Some auth => if strncaseeq 7 auth (lit "Bearer ")
                     then copy_trimmed api_key_size (drop 7 (field 1024 auth)) else Some None
      | None => Some None
      end
  end.

(** [while ( *cursor == ' ' || *cursor == ';') cursor++;] *)
Fixpoint skip_cookie_sep (s : cstr) : cstr :=
  match s with
  | c :: s' => if bool_decide (c = Byte.x20) || bool_decide (c = Byte.x3b) then skip_cookie_sep s' else s
  | [] => []
  end.

(** The scan of the cookies; [n] bounds them. *)
Fixpoint cookie_loop (n : nat) (cursor cookie_name : cstr) (value_size : nat) : option cstr :=
  match n with
  | O => None
  | S n =>
      match cursor with
      | [] => None
      | _ =>
          let cursor := skip_cookie_sep cursor in
          match after_name cookie_name cursor with
          | Some value_start =>
              let value := until Byte.x3b value_start in
              if empty value || (value_size <=? length value)%nat then None else Some value
          | None =>
              match split_first Byte.x3b cursor with
              | Some (_, cursor) => cookie_loop n cursor cookie_name value_size
              | None => None
              end
          end
      end
  end.

Definition httpd_get_cookie_value (req : http_request_t) (cookie_name : cstr) (value_size : nat) : option cstr :=
  if (value_size =? 0)%nat then None else
  cookie ← http_request_get_header req (lit "Cookie");
  cookie_loop (S (length cookie)) cookie cookie_name value_size.

Definition httpd_get_session_token (req : http_request_t) (token_size : nat) : option cstr :=
  httpd_get_cookie_value req (lit "session") token_size.

(** ** Cookies of a response *)

Definition httpd_auth_absolute_timeout_seconds (cfg : config_t) : Z :=
  let seconds := auth_absolute_timeout_hours cfg * 3600 in
  if (seconds <=? 0) || (seconds >? INT32_MAX) then 604800 else seconds.

Definition httpd_trusted_device_lifetime_seconds (cfg : config_t) : Z :=
  let seconds := trusted_device_days cfg * 86400 in
  if (seconds <=? 0) || (seconds >? INT32_MAX) then 0 else seconds.

Definition cookie_header (name token : cstr) (max_age : Z) : cstr :=
  strcpy_trunc 256 (name ++ lit "=" ++ token ++ lit "; Path=/; Max-Age=" ++ decimal max_age ++
                    lit "; HttpOnly; SameSite=Lax").

Definition httpd_add_session_cookie (cfg : config_t) (res : http_response_t) (token : cstr) : http_response_t :=
  if empty token then res else
  (http_response_add_header res (lit "Set-Cookie")
     (cookie_header (lit "session") token (httpd_auth_absolute_timeout_seconds cfg))).2.

Definition httpd_clear_session_cookie (res : http_response_t) : http_response_t :=
  add_header "Set-Cookie" "session=; Path=/; Max-Age=0; HttpOnly; SameSite=Lax" res.

Definition httpd_add_trusted_device_cookie (cfg : config_t) (res : http_response_t) (token : cstr) : http_response_t :=
  let lifetime := httpd_trusted_device_lifetime_seconds cfg in
  if empty token || (lifetime <=? 0) then res else
  (http_response_add_header res (lit "Set-Cookie") (cookie_header (lit "trusted_device") token lifetime)).2.

Definition httpd_clear_trusted_device_cookie (res : http_response_t) : http_response_t :=
  add_header "Set-Cookie" "trusted_device=; Path=/; Max-Age=0; HttpOnly; SameSite=Lax" res.

(** ** The decision *)

(** The statements on the user tables, on a state [D]: [None] (or [false]) is
    a return code other than 0. *)
Class AuthStore (D : Type) := {
  db_auth_validate_session : cstr → D → option Z * D;
  db_auth_get_user_by_id : Z → D → option user_t * D;
  db_auth_validate_session_with_context : cstr → cstr → cstr → D → bool * D;
  db_auth_authenticate : cstr → cstr → D → option Z * D;
  db_auth_get_user_by_api_key : cstr → D → option user_t * D
}.

Definition pseudo_user (name : string) (r : Z) : user_t :=
  mkUser 0 (strcpy_trunc 64 (lit name)) [] r [] 0 0 0 true false false [] false [] false.

Section decision.
Context `{InetConversions} {D : Type} `{!AuthStore D}.

(** The address the allow-lists are checked against. *)
Definition request_ip (cfg : config_t) (req : http_request_t) : option cstr :=
  ip ← httpd_get_effective_client_ip cfg req 64; Some (default (strcpy_trunc 64 (client_ip req)) ip).

Definition session_login (req : http_request_t) (ip : cstr) (d : D) : option user_t * D :=
  match httpd_get_session_token req 64 with
  | None => (None, d)
  | Some session_token =>
      let '(user_id, d) := db_auth_validate_session session_token d in
      match user_id with
      | None => (None, d)
      | Some user_id =>
          let '(user, d) := db_auth_get_user_by_id user_id d in
          match user with
          | None => (None, d)
          | Some user =>
              if db_auth_ip_allowed_for_user (Some user) (Some ip) then
                let '(ok, d) := db_auth_validate_session_with_context session_token ip (user_agent req) d in
                (if ok : bool then Some user else None, d)
              else (None, d)
          end
      end
  end.

Definition basic_login (req : http_request_t) (ip : cstr) (d : D) : option user_t * D :=
  match httpd_get_basic_auth_credentials req 64 64 with
  | None => (None, d)
  | Some (username, password) =>
      if negb (empty username) && negb (empty password) then
        let '(user_id, d) := db_auth_authenticate username password d in
        match user_id with
        | None => (None, d)
        | Some user_id =>
            let '(user, d) := db_auth_get_user_by_id user_id d in
            (match user with
             | Some user => if db_auth_ip_allowed_for_user (Some user) (Some ip) then Some user else None
             | None => None
             end, d)
        end
      else (None, d)
  end.

Definition api_key_login (req : http_request_t) (ip : cstr) (d : D) : option (option user_t * D) :=
  key ← httpd_get_api_key req 128;
  match key with
  | None => Some (None, d)
  | Some key =>
      let '(user, d) := db_auth_get_user_by_api_key key d in
      Some (match user with
            | Some user =>
                if is_active user && db_auth_ip_allowed_for_user (Some user) (Some ip) then Some user else None
            | None => None
            end, d)
  end.

(** [Some (Some user, _)] is 1, [Some (None, _)] is 0. *)
Definition httpd_get_authenticated_user (cfg : config_t) (req : http_request_t) (d : D)
    : option (option user_t * D) :=
  ip ← request_ip cfg req;
  if negb (web_auth_enabled cfg) then Some (Some (pseudo_user "admin" USER_ROLE_ADMIN), d) else
  let '(user, d) := session_login req ip d in
  match user with
  | Some user => Some (Some user, d)
  | None =>
      let '(user, d) := basic_login req ip d in
      match user with
      | Some user => Some (Some user, d)
      | None => api_key_login req ip d
      end
  end.

(** [alloc] is for the allocations of the error body. *)
Definition httpd_check_admin_privileges (cfg : config_t) (alloc : bool * bool) (req : http_request_t)
    (res : http_response_t) (d : D) : option (Z * http_response_t * D) :=
  if negb (web_auth_enabled cfg) then Some (1, res, d) else
  '(user, d) ← httpd_get_authenticated_user cfg req d;
  match user with
  | Some user =>
      if role user =? USER_ROLE_ADMIN then Some (1, res, d)
      else Some (0, (http_response_set_json_error alloc res 403 (lit "Forbidden: Admin privileges required")).2, d)
  | None => Some (0, (http_response_set_json_error alloc res 401 (lit "Unauthorized: Authentication required")).2, d)
  end.

Definition httpd_is_demo_mode (cfg : config_t) : Z := if demo_mode cfg then 1 else 0.

Definition httpd_check_viewer_access (cfg : config_t) (req : http_request_t) (d : D) : option (option user_t * D) :=
  '(user, d) ← httpd_get_authenticated_user cfg req d;
  match user with
  | Some user => Some (Some user, d)
  | None =>
      if negb (web_auth_enabled cfg) then Some (Some (pseudo_user "anonymous" USER_ROLE_VIEWER), d)
      else if demo_mode cfg then Some (Some (pseudo_user "demo" USER_ROLE_VIEWER), d)
      else Some (None, d)
  end.
End decision.

#[local] Arguments ip_matches_cidr_list : simpl never.
#[local] Arguments normalize_ip_literal : simpl never.
#[local] Arguments max_forwarded : simpl never.
#[local] Arguments trusted_proxy_cidrs !_ /.

(** ** Base64 *)

Definition base64_char (v : Z) : byte := default NUL (base64_alphabet !! Z.to_nat v).

(** The encoding of RFC 4648, with padding. *)
Fixpoint base64_encode (d : list byte) : cstr :=
  match d with
  | a :: b :: c :: d =>
      let a := byte_Z a in let b := byte_Z b in let c := byte_Z c in
      base64_char (a / 4) :: base64_char (a `mod` 4 * 16 + b / 16) ::
      base64_char (b `mod` 16 * 4 + c / 64) :: base64_char (c `mod` 64) :: base64_encode d
  | [a; b] =>
      let a := byte_Z a in let b := byte_Z b in
      [base64_char (a / 4); base64_char (a `mod` 4 * 16 + b / 16); base64_char (b `mod` 16 * 4); Byte.x3d]
  | [a] =>
      let a := byte_Z a in [base64_char (a / 4); base64_char (a `mod` 4 * 16); Byte.x3d; Byte.x3d]
  | [] => []
  end.

Lemma base64_char_table v :
  0 ≤ v < 64 → base64_table (base64_char v) = v ∧
  base64_char v ∉ [Byte.x3d; Byte.x20; Byte.x0a; Byte.x0d].
Proof.
  intros Hv. assert (Hall : forallb (λ n, (base64_table (base64_char (Z.of_nat n)) =? Z.of_nat n) &&
    bool_decide (base64_char (Z.of_nat n) ∉ [Byte.x3d; Byte.x20; Byte.x0a; Byte.x0d])) (seq 0 64) = true)
    by (vm_compute; reflexivity).
  rewrite forallb_forall in Hall. specialize (Hall (Z.to_nat v)). rewrite in_seq, Z2Nat.id in Hall by lia.
  specialize (Hall ltac:(lia)). by unbool.
Qed.

Lemma lor_low x v : 0 ≤ v < 64 → Z.lor (u32 (Z.shiftl x 6)) v = u32 (x * 64) + v.
Proof.
  intros Hv. rewrite Z.shiftl_mul_pow2 by lia. change (2 ^ 6) with 64.
  rewrite <-Z.lxor_lor, <-Z.add_nocarry_lxor; [done| |];
    (apply Z.bits_inj'; intros n Hn; rewrite Z.land_spec, Z.bits_0; unfold u32;
     destruct (decide (n < 6));
     [rewrite Z.mod_pow2_bits_low by lia; change 64 with (2 ^ 6); by rewrite Z.mul_pow2_bits_low by lia|
      rewrite <-(Z.mod_small v (2 ^ 6)) by lia; rewrite (Z.mod_pow2_bits_high v) by lia; apply andb_false_r]).
Qed.

(** One character of a group: what it does to the accumulator. *)
Lemma base64_step v src x bits dst size :
  0 ≤ v < 64 →
  base64_loop (base64_char v :: src) x bits dst size =
  let x' := u32 (x * 64) + v in
  if bits + 6 >=? 8 then
    base64_loop src x' (bits - 2)
      (if (length dst <? size - 1)%nat then dst ++ [Z_byte (Z.land (Z.shiftr x' (bits - 2)) 255)] else dst) size
  else base64_loop src x' (bits + 6) dst size.
Proof.
  intros Hv. destruct (base64_char_table v Hv) as [Ht Hn]. rewrite !not_elem_of_cons in Hn.
  cbn [base64_loop]. rewrite !bool_decide_eq_false_2 by tauto. cbn [orb].
  rewrite Ht, lor_low by done. cbv zeta. by replace (bits + 6 - 8) with (bits - 2) by lia.
Qed.

Lemma low_byte x k r :
  0 ≤ k → x `mod` 2 ^ (k + 8) = r → Z_byte (Z.land (Z.shiftr x k) 255) = Z_byte (r / 2 ^ k).
Proof.
  intros Hk <-. change 255 with (Z.ones 8). rewrite Z.land_ones, Z.shiftr_div_pow2 by lia. f_equal.
  rewrite Z.pow_add_r by lia. rewrite Z.rem_mul_r by lia.
  rewrite Z.mul_comm, Z.div_add by lia. rewrite (Z.div_small (x `mod` 2 ^ k)); [lia|]. apply Z.mod_pos_bound. lia.
Qed.

(** A character that does not complete a byte, and one that does. *)
Lemma base64_first v src x dst size :
  0 ≤ v < 64 →
  base64_loop (base64_char v :: src) x 0 dst size = base64_loop src (u32 (x * 64) + v) 6 dst size.
Proof. intros Hv. by rewrite base64_step. Qed.

Lemma base64_next v src x k dst size :
  0 ≤ v < 64 → 0 ≤ k → (length dst + 1 < size)%nat →
  base64_loop (base64_char v :: src) x (k + 2) dst size =
  base64_loop src (u32 (x * 64) + v) k
    (dst ++ [Z_byte (((u32 (x * 64) + v) `mod` 2 ^ (k + 8)) / 2 ^ k)]) size.
Proof.
  intros Hv Hk Hsize. rewrite base64_step by done. cbv zeta.
  rewrite (proj2 (Z.geb_le _ _)), (proj2 (Nat.ltb_lt _ _)) by lia.
  replace (k + 2 - 2) with k by lia. by erewrite low_byte.
Qed.

Lemma u32_low x v k : 0 ≤ k ≤ 32 → (u32 x + v) `mod` 2 ^ k = (x + v) `mod` 2 ^ k.
Proof.
  intros Hk. unfold u32. replace (2 ^ 32) with (2 ^ k * 2 ^ (32 - k)) by (rewrite <-Z.pow_add_r by lia; f_equal; lia).
  assert (0 < 2 ^ k) by (apply Z.pow_pos_nonneg; lia). assert (0 < 2 ^ (32 - k)) by (apply Z.pow_pos_nonneg; lia).
  rewrite Z.rem_mul_r, <-Z.add_assoc, (Z.mul_comm (2 ^ k)), Z.add_assoc, <-Z.add_assoc, (Z.add_comm (_ * _)), Z.add_assoc by lia.
  rewrite Z.mod_add by lia. by rewrite Zplus_mod_idemp_l.
Qed.

(** The two last characters determine the low 12 bits of the accumulator. *)
Lemma two_low x s s' j :
  0 ≤ s < 64 → 0 ≤ j ≤ 12 → (u32 ((u32 (x * 64) + s) * 64) + s') `mod` 2 ^ j = (64 * s + s') `mod` 2 ^ j.
Proof.
  intros Hs Hj. rewrite u32_low by lia.
  pose proof (u32_low (x * 64) s 6 ltac:(lia)) as Hl.
  assert (Hq : ∃ q, u32 (x * 64) + s = 64 * q + s).
  { exists ((u32 (x * 64) + s) / 64). change (2 ^ 6) with 64 in Hl.
    rewrite (Z.add_comm (x * 64)), Z.mod_add, (Z.mod_small s) in Hl by lia.
    pose proof (Z.div_mod (u32 (x * 64) + s) 64 ltac:(lia)). lia. }
  destruct Hq as [q ->].
  replace ((64 * q + s) * 64 + s') with (64 * s + s' + q * 2 ^ (12 - j) * 2 ^ j).
  - apply Z.mod_add. apply Z.pow_nonzero; lia.
  - rewrite <-Z.mul_assoc, <-Z.pow_add_r by lia. replace (12 - j + j) with 12 by lia. lia.
Qed.

Lemma base64_loop_encode n d x dst size :
  (length d ≤ n)%nat → (length dst + length d < size)%nat →
  base64_loop (base64_encode d) x 0 dst size = dst ++ d.
Proof.
  assert (Hend : ∀ src x bits dst, base64_loop (Byte.x3d :: src) x bits dst size = dst) by done.
  revert d x dst. induction n as [|n IH]; intros d x dst Hd Hsize.
  { destruct d; simpl in *; [by rewrite app_nil_r|lia]. }
  assert (Hb : ∀ z a, z = byte_Z a → Z_byte z = a) by (intros z a ->; apply Z_byte_byte_Z).
  destruct d as [|a [|b [|c d]]]; simpl in Hd, Hsize; [by rewrite app_nil_r|..]; cbn [base64_encode];
    pose proof (byte_Z_range a).
  - rewrite base64_first by divlia. rewrite (base64_next _ _ _ 4) by divlia.
    rewrite Hend, two_low by divlia. do 2 f_equal. apply Hb. divlia.
  - pose proof (byte_Z_range b).
    rewrite base64_first by divlia. rewrite (base64_next _ _ _ 4) by divlia.
    rewrite (base64_next _ _ _ 2) by (rewrite ?length_app; simpl; divlia).
    rewrite Hend, !two_low, <-app_assoc by divlia. f_equal. cbn [app]. f_equal; [|f_equal]; apply Hb; divlia.
  - pose proof (byte_Z_range b). pose proof (byte_Z_range c).
    rewrite base64_first by divlia. rewrite (base64_next _ _ _ 4) by divlia.
    rewrite (base64_next _ _ _ 2) by (rewrite ?length_app; simpl; divlia).
    rewrite (base64_next _ _ _ 0) by (rewrite ?length_app; simpl; divlia).
    rewrite IH by (rewrite ?length_app; simpl; divlia). rewrite !two_low, <-!app_assoc by divlia.
    f_equal. cbn [app]. f_equal; [|f_equal; [|f_equal]]; apply Hb; divlia.
Qed.

Lemma base64_roundtrip d size : (length d < size)%nat → base64_decode (base64_encode d) size = d.
Proof. intros Hd. by apply (base64_loop_encode (length d) d 0 []). Qed.

Lemma base64_encode_no_blank d : skip_blanks (base64_encode d) = base64_encode d.
Proof.
  assert (Hc : ∀ v s, 0 ≤ v < 64 → skip_blanks (base64_char v :: s) = base64_char v :: s).
  { intros v s Hv. destruct (base64_char_table v Hv) as [_ Hn]. rewrite !not_elem_of_cons in Hn.
    cbn [skip_blanks]. by rewrite bool_decide_eq_false_2 by tauto. }
  destruct d as [|a [|b [|c d]]]; cbn [base64_encode]; try pose proof (byte_Z_range a); [done|apply Hc; divlia..].
Qed.

(** HTTP Basic credentials sent in the standard encoding are recovered,
    cut to the buffers, when they fit in the decoder's 255 bytes. *)
Theorem basic_auth_roundtrip req user pass usize psize :
  http_request_get_header req (lit "Authorization") =
    Some (lit "Basic " ++ base64_encode (user ++ Byte.x3a :: pass)) →
  Byte.x3a ∉ user → no_nul user → no_nul pass → (length user + length pass < 255)%nat →
  httpd_get_basic_auth_credentials req usize psize = Some (strcpy_trunc usize user, strcpy_trunc psize pass).
Proof.
  intros Hh Hu Hnu Hnp Hlen. unfold httpd_get_basic_auth_credentials. rewrite Hh. cbn [mbind option_bind].
  unfold strncaseeq. change (take 6 (lit "Basic " ++ _)) with (lit "Basic ").
  change (take 6 (lit "Basic ")) with (lit "Basic "). rewrite strcaseeq_refl. cbn [negb].
  change (drop 6 (lit "Basic " ++ base64_encode (user ++ Byte.x3a :: pass)))
    with (base64_encode (user ++ Byte.x3a :: pass)).
  rewrite base64_encode_no_blank, base64_roundtrip by (rewrite length_app; simpl; lia).
  rewrite (cstring_terminated _ []).
  - by rewrite split_first_app.
  - apply no_nul_app. split; [done|]. by apply no_nul_cons.
Qed.

(** ** The address of the client *)

Section client_ip_lemmas.
Context `{InetConversions}.

Lemma last_untrusted_app trusted far client proxies :
  ip_matches_cidr_list trusted client = false →
  Forall (λ p, ip_matches_cidr_list trusted p = true) proxies →
  last_untrusted trusted (far ++ client :: proxies) = Some client.
Proof.
  intros Hc Hp. unfold last_untrusted. rewrite reverse_app, reverse_cons, <-app_assoc, filter_app.
  assert (Hnil : filter (λ t, ip_matches_cidr_list trusted t = false) (reverse proxies) = []).
  { apply Forall_reverse in Hp. induction Hp as [|p l Hp' _ IH]; [done|]. rewrite filter_cons_False; [done|congruence]. }
  rewrite Hnil. cbn [app]. by rewrite filter_cons_True.
Qed.

(** What the headers say is looked at only when the peer is a trusted proxy. *)
Lemma effective_client_ip_trusted cfg req size peer :
  (0 < size)%nat → normalize_ip_literal (client_ip req) = Some peer →
  ip_matches_cidr_list (trusted_proxy_cidrs cfg) peer = true →
  httpd_get_effective_client_ip cfg req size =
  Some (Some (default (strcpy_trunc size peer) (resolve_client_ip_from_forwarded_headers cfg req size))).
Proof.
  intros Hsize Hpeer Htrust. unfold httpd_get_effective_client_ip.
  rewrite (proj2 (Nat.eqb_neq size 0)) by lia. rewrite Hpeer, Htrust.
  assert (Hne : empty (trusted_proxy_cidrs cfg) = false).
  { unfold ip_matches_cidr_list in Htrust. by destruct (empty (trusted_proxy_cidrs cfg)). }
  rewrite Hne. by destruct (client_ip req).
Qed.

(** the peer is its own client unless it is a trusted proxy: no header of
    the request changes its address. *)
Theorem untrusted_peer_headers cfg req size peer hs :
  (0 < size)%nat → client_ip req ≠ [] → normalize_ip_literal (client_ip req) = Some peer →
  ip_matches_cidr_list (trusted_proxy_cidrs cfg) peer = false →
  httpd_get_effective_client_ip cfg
    (mkRequest (path req) (query_string req) (user_agent req) (body req) hs (client_ip req)) size =
  Some (Some (strcpy_trunc size peer)).
Proof.
  intros Hsize Hne Hpeer Htrust. unfold httpd_get_effective_client_ip. cbn [client_ip].
  rewrite (proj2 (Nat.eqb_neq size 0)) by lia. rewrite Hpeer, Htrust, andb_false_r. by destruct (client_ip req).
Qed.

Lemma resolve_forwarded cfg req size forwarded far client proxies :
  http_request_get_header req (lit "X-Forwarded-For") = Some forwarded →
  forwarded ≠ [] → (length forwarded < 1024)%nat →
  mapM normalize_ip_literal (take max_forwarded (strtok comma [] forwarded)) = Some (far ++ client :: proxies) →
  ip_matches_cidr_list (trusted_proxy_cidrs cfg) client = false →
  Forall (λ p, ip_matches_cidr_list (trusted_proxy_cidrs cfg) p = true) proxies →
  resolve_client_ip_from_forwarded_headers cfg req size = Some (strcpy_trunc size client).
Proof.
  intros Hh Hne Hlen Hm Hc Hp. unfold resolve_client_ip_from_forwarded_headers. rewrite Hh.
  destruct forwarded as [|x forwarded]; [done|]. rewrite (proj2 (Nat.leb_gt _ _)) by lia.
  rewrite Hm. cbn [mbind option_bind]. by rewrite last_untrusted_app.
Qed.

(** behind trusted proxies the client is the last forwarded address that
    is not a proxy; what the client itself wrote before it is ignored. *)
Theorem forwarded_client cfg req size peer forwarded far client proxies :
  (0 < size)%nat → normalize_ip_literal (client_ip req) = Some peer →
  ip_matches_cidr_list (trusted_proxy_cidrs cfg) peer = true →
  http_request_get_header req (lit "X-Forwarded-For") = Some forwarded →
  (length forwarded < 1024)%nat →
  mapM normalize_ip_literal (strtok comma [] forwarded) = Some (far ++ client :: proxies) →
  (length far + length proxies < max_forwarded)%nat →
  ip_matches_cidr_list (trusted_proxy_cidrs cfg) client = false →
  Forall (λ p, ip_matches_cidr_list (trusted_proxy_cidrs cfg) p = true) proxies →
  httpd_get_effective_client_ip cfg req size = Some (Some (strcpy_trunc size client)).
Proof.
  intros Hsize Hpeer Htrust Hh Hlen Hm Hmax Hc Hp. rewrite (effective_client_ip_trusted _ _ _ peer) by done.
  rewrite (resolve_forwarded _ _ _ forwarded far client proxies); try done.
  - intros ->. by destruct far.
  - pose proof (length_mapM _ _ _ Hm) as Hl. rewrite length_app in Hl. simpl in Hl.
    rewrite take_ge by lia. done.
Qed.

(** only the first sixteen addresses are looked at: when the sixteenth is
    not a proxy it is taken for the client, whatever the proxies appended. *)
Theorem forwarded_beyond_sixteen cfg req size peer forwarded first rest far client :
  (0 < size)%nat → normalize_ip_literal (client_ip req) = Some peer →
  ip_matches_cidr_list (trusted_proxy_cidrs cfg) peer = true →
  http_request_get_header req (lit "X-Forwarded-For") = Some forwarded →
  (length forwarded < 1024)%nat →
  strtok comma [] forwarded = first ++ rest → length first = max_forwarded →
  mapM normalize_ip_literal first = Some (far ++ [client]) →
  ip_matches_cidr_list (trusted_proxy_cidrs cfg) client = false →
  httpd_get_effective_client_ip cfg req size = Some (Some (strcpy_trunc size client)).
Proof.
  intros Hsize Hpeer Htrust Hh Hlen Htok Hfirst Hm Hc. rewrite (effective_client_ip_trusted _ _ _ peer) by done.
  rewrite (resolve_forwarded _ _ _ forwarded far client []); try done.
  - intros ->. by destruct first.
  - by rewrite Htok, <-Hfirst, take_app_length.
Qed.
End client_ip_lemmas.

(** ** The decision *)

Section decision_lemmas.
Context `{InetConversions} {D : Type} `{!AuthStore D}.

(** What ties a user to a request: a session cookie, a password or an API key
    that the user tables confirm, at some of their states. *)
Inductive proven_identity (req : http_request_t) (ip : cstr) (u : user_t) : Prop :=
  | by_session token user_id d0 d1 d2 :
      httpd_get_session_token req 64 = Some token →
      (db_auth_validate_session token d0).1 = Some user_id →
      (db_auth_get_user_by_id user_id d1).1 = Some u →
      (db_auth_validate_session_with_context token ip (user_agent req) d2).1 = true →
      proven_identity req ip u
  | by_password name password user_id d0 d1 :
      httpd_get_basic_auth_credentials req 64 64 = Some (name, password) →
      name ≠ [] → password ≠ [] →
      (db_auth_authenticate name password d0).1 = Some user_id →
      (db_auth_get_user_by_id user_id d1).1 = Some u →
      proven_identity req ip u
  | by_api_key key d0 :
      httpd_get_api_key req 128 = Some (Some key) →
      (db_auth_get_user_by_api_key key d0).1 = Some u →
      is_active u = true →
      proven_identity req ip u.

Definition accepted (req : http_request_t) (ip : cstr) (u : user_t) : Prop :=
  proven_identity req ip u ∧ db_auth_ip_allowed_for_user (Some u) (Some ip) = true.

Lemma session_login_accepted req ip d u d' : session_login req ip d = (Some u, d') → accepted req ip u.
Proof.
  unfold session_login. intros E. destruct (httpd_get_session_token req 64) as [token|] eqn:Et; [|done].
  destruct (db_auth_validate_session token d) as [[user_id|] d1] eqn:Ev; [|done].
  destruct (db_auth_get_user_by_id user_id d1) as [[u'|] d2] eqn:Eu; [|done].
  destruct (db_auth_ip_allowed_for_user _ _) eqn:Ei; [|done].
  destruct (db_auth_validate_session_with_context _ _ _ _) as [[] d3] eqn:Ec; simplify_eq.
  split; [|done]. eapply (by_session _ _ _ token user_id d d1 d2); by rewrite ?Ev, ?Eu, ?Ec.
Qed.

Lemma basic_login_accepted req ip d u d' : basic_login req ip d = (Some u, d') → accepted req ip u.
Proof.
  unfold basic_login. intros E. destruct (httpd_get_basic_auth_credentials req 64 64) as [[n p]|] eqn:Ec; [|done].
  destruct (negb (empty n) && negb (empty p)) eqn:Ene; [|done].
  destruct (db_auth_authenticate n p d) as [[user_id|] d1] eqn:Ea; [|done].
  destruct (db_auth_get_user_by_id user_id d1) as [[u'|] d2] eqn:Eu; [|done].
  destruct (db_auth_ip_allowed_for_user _ _) eqn:Ei; simplify_eq. unbool.
  split; [|done]. eapply (by_password _ _ _ n p user_id d d1); rewrite ?Ea, ?Eu; try done; by intros ->.
Qed.

Lemma api_key_login_accepted req ip d u d' : api_key_login req ip d = Some (Some u, d') → accepted req ip u.
Proof.
  unfold api_key_login. intros E. destruct (httpd_get_api_key req 128) as [[key|]|] eqn:Ek; [|done..].
  cbn [mbind option_bind] in E. destruct (db_auth_get_user_by_api_key key d) as [[u'|] d1] eqn:Eu; [|done].
  destruct (is_active u' && _) eqn:Ea; simplify_eq. unbool.
  split; [|done]. eapply (by_api_key _ _ _ key d); by rewrite ?Eu.
Qed.

Lemma enabled_accepted cfg req d u d' :
  web_auth_enabled cfg = true → httpd_get_authenticated_user cfg req d = Some (Some u, d') →
  ∃ ip, request_ip cfg req = Some ip ∧ accepted req ip u.
Proof.
  unfold httpd_get_authenticated_user. intros Hen E. rewrite Hen in E.
  destruct (request_ip cfg req) as [ip|]; [cbn [mbind option_bind negb] in E|done].
  exists ip. split; [done|]. destruct (session_login req ip d) as [[u1|] d1] eqn:Es.
  { simplify_eq. by eapply session_login_accepted. }
  destruct (basic_login req ip d1) as [[u2|] d2] eqn:Eb.
  { simplify_eq. by eapply basic_login_accepted. }
  by eapply api_key_login_accepted.
Qed.

(** with authentication enabled, a request is one of a user only with a
    credential that the user tables confirm and from an address that the
    login allow-list of that user admits; with it disabled, every request is
    one of the administrator. *)
Theorem authenticated_user_sound cfg req d u d' :
  httpd_get_authenticated_user cfg req d = Some (Some u, d') →
  if web_auth_enabled cfg then ∃ ip, request_ip cfg req = Some ip ∧ accepted req ip u
  else u = pseudo_user "admin" USER_ROLE_ADMIN ∧ d' = d.
Proof.
  intros E. destruct (web_auth_enabled cfg) eqn:Hen; [by eapply enabled_accepted|].
  unfold httpd_get_authenticated_user in E. rewrite Hen in E.
  destruct (request_ip cfg req) as [ip|]; [cbn [mbind option_bind negb] in E; by simplify_eq|done].
Qed.

(** with authentication enabled, an administrative action is allowed only
    to an accepted user whose role is administrator, and leaves the response
    alone; otherwise the response is an error 401 or 403. *)
Theorem check_admin_privileges_spec cfg alloc req res d r res' d' :
  web_auth_enabled cfg = true → alloc.1 = true →
  httpd_check_admin_privileges cfg alloc req res d = Some (r, res', d') →
  (r = 1 ∧ res' = res ∧ ∃ ip u, request_ip cfg req = Some ip ∧ accepted req ip u ∧ role u = USER_ROLE_ADMIN) ∨
  (r = 0 ∧ status_code res' ∈ [401; 403]).
Proof.
  intros Hen Halloc E. unfold httpd_check_admin_privileges in E. rewrite Hen in E. cbn [negb] in E.
  destruct (httpd_get_authenticated_user cfg req d) as [[user d1]|] eqn:Eu; [cbn [mbind option_bind] in E|done].
  destruct user as [u|]; [destruct (Z.eqb_spec (role u) USER_ROLE_ADMIN) as [Hr|]|]; simplify_eq.
  - left. destruct (enabled_accepted _ _ _ _ _ Hen Eu) as (ip & ? & ?). eauto 10.
  - right. rewrite set_json_error_status by done. set_solver.
  - right. rewrite set_json_error_status by done. set_solver.
Qed.
End decision_lemmas.

(** ** Cookies *)

(** A cookie as browsers send it, after some blanks. *)
Definition cookie_text (c : nat * (cstr * cstr)) : cstr := replicate c.1 Byte.x20 ++ query_param c.2.

Definition plain_cookies (cs : list (nat * (cstr * cstr))) : Prop :=
  Forall (λ c, c.2.1 ≠ [] ∧ Byte.x20 ∉ c.2.1 ∧ (Byte.x3b ∉ c.2.1) ∧ (Byte.x3d ∉ c.2.1) ∧ (Byte.x3b ∉ c.2.2)) cs.

Lemma skip_cookie_sep_text k name s :
  name ≠ [] → Byte.x20 ∉ name → Byte.x3b ∉ name →
  skip_cookie_sep (replicate k Byte.x20 ++ name ++ s) = name ++ s.
Proof.
  intros Hne Hb Hs. induction k as [|k IH]; [|done]. destruct name as [|c name]; [done|].
  apply not_elem_of_cons in Hb as [Hb _], Hs as [Hs _].
  cbn [replicate app skip_cookie_sep]. by rewrite !bool_decide_eq_false_2.
Qed.

Lemma cookie_loop_spec name cs n size :
  plain_cookies cs → Byte.x3d ∉ name →
  (length (join Byte.x3b (cookie_text <$> cs)) < n)%nat →
  cookie_loop n (join Byte.x3b (cookie_text <$> cs)) name size =
  v ← first_param name (snd <$> cs); if empty v || (size <=? length v)%nat then None else Some v.
Proof.
  intros Hcs Hname. revert n. induction Hcs as [|[k [c v]] cs (Hne & Hb & Hs & He & Hv) Hcs IH]; intros [|n] Hn; [lia|done|lia|].
  simpl in Hne, Hb, Hs, He, Hv.
  set (R := concat (cons Byte.x3b <$> (cookie_text <$> cs))) in *.
  assert (Ej : join Byte.x3b (cookie_text <$> (k, (c, v)) :: cs) = replicate k Byte.x20 ++ c ++ Byte.x3d :: (v ++ R)).
  { unfold join, cookie_text at 1, query_param at 1. simpl. by rewrite <-!app_assoc. }
  rewrite Ej in *. cbn [cookie_loop]. rewrite skip_cookie_sep_text, after_name_param by done.
  destruct (replicate k Byte.x20 ++ _) eqn:Enil; [by destruct k, c|]. rewrite <-Enil in *. clear Enil.
  unfold first_param. cbn [fmap list_fmap snd filter list_filter fst]. case_bool_decide as Hd.
  - subst c. rewrite decide_True by done. cbn [head fmap option_fmap option_map snd mbind option_bind].
    assert (Hu : until Byte.x3b (v ++ R) = v).
    { unfold R. destruct cs; simpl; [rewrite app_nil_r; by apply until_none|by apply until_app]. }
    by rewrite Hu.
  - rewrite decide_False by congruence.
    assert (Hq : Byte.x3b ∉ c ++ Byte.x3d :: v) by (rewrite elem_of_app, elem_of_cons; naive_solver).
    assert (Ea : c ++ Byte.x3d :: (v ++ R) = (c ++ Byte.x3d :: v) ++ R) by (by rewrite <-app_assoc).
    rewrite Ea. destruct cs as [|q cs]; unfold R in *; cbn [fmap list_fmap concat app].
    + by rewrite app_nil_r, split_first_none.
    + rewrite split_first_app by done. apply IH. unfold join. cbn [fmap list_fmap concat app drop].
      cbn [fmap list_fmap concat app] in Hn.
      repeat (rewrite length_app in Hn || cbn [length] in Hn || rewrite length_app || rewrite drop_0). lia.
Qed.

(** the value of a cookie is that of the first cookie of that name, if it
    is not empty and fits; the scan of the header ends. *)
Theorem cookie_value_spec req name cs size :
  plain_cookies cs → Byte.x3d ∉ name → (0 < size)%nat →
  http_request_get_header req (lit "Cookie") = Some (join Byte.x3b (cookie_text <$> cs)) →
  httpd_get_cookie_value req name size =
  v ← first_param name (snd <$> cs); if empty v || (size <=? length v)%nat then None else Some v.
Proof.
  intros Hcs Hname Hsize Hh. unfold httpd_get_cookie_value. rewrite (proj2 (Nat.eqb_neq size 0)) by lia.
  rewrite Hh. cbn [mbind option_bind]. apply cookie_loop_spec; [done..|lia].
Qed.

(** ** Concrete instances *)

#[local] Existing Instance known_conversions.

Definition example_config : config_t := mkConfig true 168 30 (lit "::1") false.

Definition example_request (ip : cstr) (hs : list http_header_t) : http_request_t :=
  mkRequest [] [] [] None hs ip.

(** User tables with one administrator, whose session and password are known. *)
#[local] Instance example_store : AuthStore unit := {|
  db_auth_validate_session t d := (if streq t (lit "tok") then Some 1 else None, d);
  db_auth_get_user_by_id i d := (if i =? 1 then Some (pseudo_user "root" USER_ROLE_ADMIN) else None, d);
  db_auth_validate_session_with_context t ip agent d := (streq t (lit "tok"), d);
  db_auth_authenticate n p d := (if streq n (lit "root") && streq p (lit "pw") then Some 1 else None, d);
  db_auth_get_user_by_api_key k d := (None, d)
|}.

Lemma untrusted_peer_headers_witness :
  httpd_get_effective_client_ip example_config
    (example_request (lit "10.1.3.7") [mkHeader (lit "X-Real-IP") (lit "::1")]) 64 = Some (Some (lit "10.1.3.7")).
Proof.
  apply (untrusted_peer_headers example_config (example_request (lit "10.1.3.7") []) 64 (lit "10.1.3.7")
    [mkHeader (lit "X-Real-IP") (lit "::1")]).
  - lia.
  - discriminate.
  - vm_compute; reflexivity.
  - vm_compute; reflexivity.
Defined.

Definition example_forwarded : cstr := lit "10.1.2.0, 10.1.3.7,::1".

Lemma forwarded_client_witness :
  httpd_get_effective_client_ip example_config
    (example_request (lit "[::1]") [mkHeader (lit "x-forwarded-for") example_forwarded]) 64 =
  Some (Some (lit "10.1.3.7")).
Proof.
  apply (forwarded_client example_config
    (example_request (lit "[::1]") [mkHeader (lit "x-forwarded-for") example_forwarded]) 64 (lit "::1")
    example_forwarded [lit "10.1.2.0"] (lit "10.1.3.7") [lit "::1"]).
  - lia.
  - vm_compute; reflexivity.
  - vm_compute; reflexivity.
  - vm_compute; reflexivity.
  - apply Nat.ltb_lt; vm_compute; reflexivity.
  - vm_compute; reflexivity.
  - apply Nat.ltb_lt; vm_compute; reflexivity.
  - vm_compute; reflexivity.
  - constructor; [vm_compute; reflexivity|constructor].
Defined.

(** Sixteen copies of an address, then the one a proxy appended. *)
Definition example_spoof : cstr := concat (replicate 16 (lit "10.1.2.0,")) ++ lit "10.1.3.7".

Lemma forwarded_beyond_sixteen_witness :
  httpd_get_effective_client_ip example_config
    (example_request (lit "::1") [mkHeader (lit "X-Forwarded-For") example_spoof]) 64 =
  Some (Some (lit "10.1.2.0")).
Proof.
  apply (forwarded_beyond_sixteen example_config
    (example_request (lit "::1") [mkHeader (lit "X-Forwarded-For") example_spoof]) 64 (lit "::1")
    example_spoof (replicate 16 (lit "10.1.2.0")) [lit "10.1.3.7"] (replicate 15 (lit "10.1.2.0")) (lit "10.1.2.0")).
  - lia.
  - vm_compute; reflexivity.
  - vm_compute; reflexivity.
  - vm_compute; reflexivity.
  - apply Nat.ltb_lt; vm_compute; reflexivity.
  - vm_compute; reflexivity.
  - vm_compute; reflexivity.
  - vm_compute; reflexivity.
  - vm_compute; reflexivity.
Defined.

Definition example_login : http_request_t :=
  example_request (lit "10.1.3.7") [mkHeader (lit "Cookie") (lit "a=b; session=tok")].

Lemma authenticated_user_sound_witness :
  ∃ u d, httpd_get_authenticated_user example_config example_login tt = Some (Some u, d) ∧
         if web_auth_enabled example_config
         then ∃ ip, request_ip example_config example_login = Some ip ∧ accepted example_login ip u
         else u = pseudo_user "admin" USER_ROLE_ADMIN ∧ d = tt.
Proof.
  exists (pseudo_user "root" USER_ROLE_ADMIN), tt.
  assert (E : httpd_get_authenticated_user example_config example_login tt =
              Some (Some (pseudo_user "root" USER_ROLE_ADMIN), tt)) by (vm_compute; reflexivity).
  split; [exact E|]. exact (authenticated_user_sound _ _ _ _ _ E).
Defined.

Lemma check_admin_privileges_spec_witness :
  ∃ res', httpd_check_admin_privileges example_config (true, true) example_login http_response_init tt =
          Some (1, res', tt) ∧
  ((1 = 1 ∧ res' = http_response_init ∧ ∃ ip u, request_ip example_config example_login = Some ip ∧
      accepted example_login ip u ∧ role u = USER_ROLE_ADMIN) ∨ (1 = 0 ∧ status_code res' ∈ [401; 403])).
Proof.
  exists http_response_init.
  assert (E : httpd_check_admin_privileges example_config (true, true) example_login http_response_init tt =
              Some (1, http_response_init, tt)) by (vm_compute; reflexivity).
  split; [exact E|]. exact (check_admin_privileges_spec example_config (true, true) _ _ _ _ _ _ eq_refl eq_refl E).
Defined.

Lemma basic_auth_roundtrip_witness :
  httpd_get_basic_auth_credentials
    (example_request [] [mkHeader (lit "authorization") (lit "Basic cm9vdDpwdw==")]) 64 64 =
  Some (lit "root", lit "pw").
Proof.
  apply (basic_auth_roundtrip _ (lit "root") (lit "pw") 64 64).
  - vm_compute; reflexivity.
  - apply (bool_decide_unpack _); vm_compute; reflexivity.
  - apply (bool_decide_unpack _); vm_compute; reflexivity.
  - apply (bool_decide_unpack _); vm_compute; reflexivity.
  - apply Nat.ltb_lt; vm_compute; reflexivity.
Defined.

Lemma cookie_value_spec_witness :
  httpd_get_cookie_value (example_request [] [mkHeader (lit "Cookie") (lit "a=b;  session=tok")]) (lit "session") 64 =
  Some (lit "tok").
Proof.
  rewrite (cookie_value_spec _ _ [(0%nat, (lit "a", lit "b")); (2%nat, (lit "session", lit "tok"))]).
  - vm_compute; reflexivity.
  - apply (bool_decide_unpack _); vm_compute; reflexivity.
  - apply (bool_decide_unpack _); vm_compute; reflexivity.
  - lia.
  - vm_compute; reflexivity.
Defined.
