(* ===== verification/ZoneFilter.v ===== *)
(** * Filters of detections: [src/video/zone_filter.c]

    Which detections of a frame count: those in an enabled zone of the stream,
    of a class and confidence the zone admits, and those the include or exclude
    list of the stream keeps; and the mask of the motion grid.  Coordinates are
    [float]s, each operation rounded.  The zones and the configuration, read
    from the database, are arguments. *)
From Stdlib Require Import ZArith Lia Bool.
From Stdlib Require Import SpecFloat.
From Stdlib Require Import Strings.Byte.
From stdpp Require Import base numbers list strings.
From S2P Require Import Prelude.
From S2P Require Import Libc.
From S2P Require Import Arrays.
From S2P Require Import CFloat.
#[local] Open Scope Z_scope.

(** ** Data *)

Definition MAX_DETECTIONS : nat := 20.
Definition MAX_ZONE_ID_LENGTH : nat := 32.

Record zone_point_t := mkPoint { px : spec_float; py : spec_float }.

(** [polygon_count] is the length of [polygon]. *)
Record detection_zone_t := mkZone {
  id : cstr;
  stream_name : cstr;
  name : cstr;
  enabled : bool;
  color : cstr;
  polygon : list zone_point_t;
  filter_classes : cstr;
  min_confidence : spec_float
}.

Record detection_t := mkDetection {
  label : cstr;
  confidence : spec_float;
  det_x : spec_float;
  det_y : spec_float;
  det_width : spec_float;
  det_height : spec_float;
  track_id : Z;
  zone_id : cstr
}.

(** [detection_result_t] is the list of its first [count] detections. *)
Abbreviation detection_result_t := (list detection_t).

Definition set_zone_id (z : cstr) (d : detection_t) : detection_t :=
  mkDetection (label d) (confidence d) (det_x d) (det_y d) (det_width d) (det_height d) (track_id d)
    (strcpy_trunc MAX_ZONE_ID_LENGTH z).

(** ** Zones *)

(** The ray from the point crosses the edge from [pj] to [pi]. *)
Definition edge_crossed (x y : spec_float) (pi pj : zone_point_t) : bool :=
  let xi := px pi in let yi := py pi in let xj := px pj in let yj := py pj in
  negb (eqb (fgt yi y) (fgt yj y)) &&
  flt x (fadd binary32 (fdiv binary32 (fmul binary32 (fsub binary32 xj xi) (fsub binary32 y yi))
                          (fsub binary32 yj yi)) xi).

(** The loop; [pj] is the vertex before [pts]. *)
Fixpoint polygon_loop (x y : spec_float) (pj : zone_point_t) (pts : list zone_point_t) (inside : bool) : bool :=
  match pts with
  | [] => inside
  | pi :: pts => polygon_loop x y pi pts (if edge_crossed x y pi pj then negb inside else inside)
  end.

Definition point_in_polygon (x y : spec_float) (polygon : list zone_point_t) : bool :=
  match last polygon with
  | Some pj => if (length polygon <? 3)%nat then false else polygon_loop x y pj polygon false
  | None => false
  end.

Definition detection_in_zone (d : detection_t) (zone : detection_zone_t) : bool :=
  if negb (enabled zone) then false else
  let two := f_lit binary32 2 1 in
  point_in_polygon (fadd binary32 (det_x d) (fdiv binary32 (det_width d) two))
    (fadd binary32 (det_y d) (fdiv binary32 (det_height d) two)) (polygon zone).

(** The loop over the tokens of a list of classes. *)
Definition class_listed (l : cstr) (classes : cstr) : bool :=
  existsb (λ token, streq (trim_blanks token) l) (strtok comma [] (strcpy_trunc 256 classes)).

Definition detection_class_matches (d : detection_t) (zone : detection_zone_t) : bool :=
  if empty (filter_classes zone) then true else class_listed (label d) (filter_classes zone).

Definition detection_meets_confidence (d : detection_t) (zone : detection_zone_t) : bool :=
  if fle (min_confidence zone) (S754_zero false) then true else fge (confidence d) (min_confidence zone).

(** The search for the first zone that accepts a detection: its id. *)
Fixpoint matched_zone (d : detection_t) (zones : list detection_zone_t) : option cstr :=
  match zones with
  | [] => None
  | zone :: zones =>
      if negb (enabled zone) then matched_zone d zones else
      if negb (detection_in_zone d zone) then matched_zone d zones else
      if negb (detection_class_matches d zone) then matched_zone d zones else
      if negb (detection_meets_confidence d zone) then matched_zone d zones else
      Some (id zone)
  end.

(** The loop over the detections; [filtered] is what is kept so far. *)
Fixpoint zones_loop (zones : list detection_zone_t) (dets filtered : detection_result_t) : detection_result_t :=
  match dets with
  | [] => filtered
  | d :: dets =>
      match matched_zone d zones with
      | Some z => zones_loop zones dets (filtered ++ [set_zone_id z d])
      | None => zones_loop zones dets filtered
      end
  end.

(** [zones] is [None] when the query fails. *)
Definition filter_detections_by_zones (zones : option (list detection_zone_t)) (result : detection_result_t)
    : Z * detection_result_t :=
  if (length result =? 0)%nat then (0, result) else
  match zones with
  | None => (-1, result)
  | Some zones =>
      if (length zones =? 0)%nat then (0, result) else
      if (count_if enabled zones =? 0)%nat then (0, result) else
      (0, zones_loop zones result [])
  end.

(** ** Object lists *)

Definition label_in_list (l class_list : cstr) : bool :=
  if empty class_list then false else class_listed l class_list.

Fixpoint objects_loop (include : bool) (class_list : cstr) (dets filtered : detection_result_t)
    : detection_result_t :=
  match dets with
  | [] => filtered
  | d :: dets =>
      if (length filtered <? MAX_DETECTIONS)%nat then
        let in_list := label_in_list (label d) class_list in
        let keep := if include then in_list else negb in_list in
        objects_loop include class_list dets (if keep then filtered ++ [d] else filtered)
      else filtered
  end.

(** [config] is the filter mode and its list, [None] when there is no stream. *)
Definition filter_detections_by_stream_objects (config : option (cstr * cstr)) (result : detection_result_t)
    : Z * detection_result_t :=
  if (length result =? 0)%nat then (0, result) else
  match config with
  | None => (0, result)
  | Some (mode, class_list) =>
      if empty mode || streq mode (lit "none") then (0, result) else
      if empty class_list then (0, result) else
      let is_include := streq mode (lit "include") in
      let is_exclude := streq mode (lit "exclude") in
      if negb is_include && negb is_exclude then (0, result) else
      (0, objects_loop is_include class_list result [])
  end.

(** ** The mask of the motion grid *)

Definition cell_center (grid_size g : Z) : spec_float :=
  fdiv binary32 (fadd binary32 (f_of_Z binary32 g) (f_lit binary32 1 2)) (f_of_Z binary32 grid_size).

Definition in_any_zone (zones : list detection_zone_t) (x y : spec_float) : bool :=
  existsb (λ zone, enabled zone && point_in_polygon x y (polygon zone)) zones.

(** [for (i = 0; i < n; i++) mask[i] = true] *)
Fixpoint fill_mask (i : Z) (n : nat) (mask : list bool) : option (list bool) :=
  match n with
  | O => Some mask
  | S n => mask ← aset mask i true; fill_mask (i + 1) n mask
  end.

Fixpoint mask_row (zones : list detection_zone_t) (grid_size gy gx : Z) (n : nat) (mask : list bool)
    : option (list bool) :=
  match n with
  | O => Some mask
  | S n =>
      mask ← aset mask (gy * grid_size + gx)
               (in_any_zone zones (cell_center grid_size gx) (cell_center grid_size gy));
      mask_row zones grid_size gy (gx + 1) n mask
  end.

Fixpoint mask_rows (zones : list detection_zone_t) (grid_size gy : Z) (n : nat) (mask : list bool)
    : option (list bool) :=
  match n with
  | O => Some mask
  | S n =>
      mask ← mask_row zones grid_size gy 0 (Z.to_nat grid_size) mask;
      mask_rows zones grid_size (gy + 1) n mask
  end.

(** [None] is a write outside [zone_mask]. *)
Definition build_motion_zone_mask (zones : option (list detection_zone_t)) (grid_size : Z) (zone_mask : list bool)
    : option (Z * list bool) :=
  if grid_size <=? 0 then Some (-1, zone_mask) else
  let total_cells := Z.to_nat (grid_size * grid_size) in
  match zones with
  | None => zone_mask ← fill_mask 0 total_cells zone_mask; Some (-1, zone_mask)
  | Some zones =>
      let enabled_zone_count := count_if enabled zones in
      if (length zones =? 0)%nat || (enabled_zone_count =? 0)%nat
      then zone_mask ← fill_mask 0 total_cells zone_mask; Some (0, zone_mask)
      else zone_mask ← mask_rows zones grid_size 0 (Z.to_nat grid_size) zone_mask;
           Some (Z.of_nat enabled_zone_count, zone_mask)
  end.

(** ** Points in polygons *)

Lemma polygon_loop_xorb x y pj pts b : polygon_loop x y pj pts b = xorb b (polygon_loop x y pj pts false).
Proof.
  revert pj b. induction pts as [|p pts IH]; intros pj b; simpl; [by destruct b|].
  destruct (edge_crossed x y p pj); rewrite ?(IH p (negb b)), ?(IH p b), ?(IH p true); by destruct b, (polygon_loop x y p pts false).
Qed.

Lemma polygon_loop_snoc x y pj pts p b :
  polygon_loop x y pj (pts ++ [p]) b =
  (if edge_crossed x y p (default pj (last pts)) then negb (polygon_loop x y pj pts b) else polygon_loop x y pj pts b).
Proof.
  revert pj b. induction pts as [|q pts IH]; intros pj b; [done|]. cbn [app polygon_loop]. rewrite IH.
  rewrite last_cons. by destruct (last pts).
Qed.

Lemma point_in_polygon_step x y p pts : point_in_polygon x y (pts ++ [p]) = point_in_polygon x y (p :: pts).
Proof.
  unfold point_in_polygon. rewrite last_snoc, last_cons, length_app. cbn [length]. rewrite Nat.add_comm. cbn [Nat.add].
  destruct (last pts) as [q|] eqn:El.
  - destruct (S (length pts) <? 3)%nat; [done|]. rewrite polygon_loop_snoc, El. cbn [default polygon_loop].
    rewrite (polygon_loop_xorb x y p pts (if edge_crossed x y p q then _ else _)).
    change (Datatypes.id q) with q. by destruct (edge_crossed x y p q), (polygon_loop x y p pts false).
  - apply last_None in El as ->. done.
Qed.

(** a polygon is a cycle: the vertex its list starts with does not matter
    to the test, rounding included. *)
Theorem point_in_polygon_cycle x y a b : point_in_polygon x y (a ++ b) = point_in_polygon x y (b ++ a).
Proof.
  revert b. induction a as [|p a IH]; intros b; [by rewrite app_nil_r|].
  rewrite (cons_middle p b a), (assoc_L (++)), <-IH, (assoc_L (++)). by rewrite point_in_polygon_step.
Qed.

(** A point on one side of all vertices, seen vertically, is outside. *)
Lemma point_in_polygon_beside x y polygon c :
  Forall (λ p, fgt (py p) y = c) polygon → point_in_polygon x y polygon = false.
Proof.
  intros Hp. unfold point_in_polygon. destruct (last polygon) as [q|] eqn:El; [|done]. destruct (_ <? 3)%nat; [done|].
  assert (Hq : fgt (py q) y = c) by (rewrite Forall_forall in Hp; by apply Hp, last_Some_elem_of).
  clear El. revert q Hq. induction Hp as [|p polygon Hp _ IH]; intros q Hq; [done|]. cbn [polygon_loop].
  unfold edge_crossed. rewrite Hp, Hq, eqb_reflx. cbn [negb andb]. by apply IH.
Qed.

(** ** Zones and detections *)

(** The checks of a detection against one zone. *)
Definition accepts (d : detection_t) (zone : detection_zone_t) : bool :=
  detection_in_zone d zone && detection_class_matches d zone && detection_meets_confidence d zone.

Lemma matched_zone_find d zones :
  matched_zone d zones = i ← find_idx (accepts d) zones; zone ← zones !! i; Some (id zone).
Proof.
  induction zones as [|zone zones IH]; [done|]. cbn [matched_zone find_idx]. unfold accepts at 1.
  assert (Hen : enabled zone = false → detection_in_zone d zone = false) by (unfold detection_in_zone; by intros ->).
  assert (Hnext : matched_zone d zones =
    i ← S <$> find_idx (accepts d) zones; zone ← (zone :: zones) !! i; Some (id zone)).
  { rewrite IH. by destruct (find_idx (accepts d) zones). }
  destruct (enabled zone); cbn [negb]; [|by rewrite Hen].
  by destruct (detection_in_zone d zone), (detection_class_matches d zone), (detection_meets_confidence d zone).
Qed.

(** A detection marked with the first zone that accepts it. *)
Definition zoned (zones : list detection_zone_t) (d : detection_t) : option detection_t :=
  i ← find_idx (accepts d) zones; zone ← zones !! i; Some (set_zone_id (id zone) d).

Lemma zones_loop_omap zones dets filtered : zones_loop zones dets filtered = filtered ++ omap (zoned zones) dets.
Proof.
  revert filtered. induction dets as [|d dets IH]; intros filtered; cbn [zones_loop omap list_omap].
  { by rewrite app_nil_r. }
  assert (Hz : zoned zones d = z ← matched_zone d zones; Some (set_zone_id z d)).
  { rewrite matched_zone_find. unfold zoned. destruct (find_idx _ _) as [i|]; [|done]. cbn [mbind option_bind].
    by destruct (zones !! i). }
  rewrite Hz. destruct (matched_zone d zones); cbn [mbind option_bind]; rewrite IH; [|done]. by rewrite <-app_assoc.
Qed.

(** when a stream has an enabled zone, the filter keeps exactly the
    detections that some zone accepts, in their order, each marked with the
    first zone that accepts it; without one it keeps them all. *)
Theorem filter_detections_by_zones_spec zones result :
  filter_detections_by_zones (Some zones) result =
  (0, if existsb enabled zones
      then omap (zoned zones) result
      else result).
Proof.
  assert (Hcount : (count_if enabled zones =? 0)%nat = negb (existsb enabled zones)).
  { induction zones as [|zone zones IH]; [done|]. simpl. by destruct (enabled zone). }
  unfold filter_detections_by_zones. rewrite Hcount.
  destruct result as [|d result]; [simpl; by case_match|].
  cbn [length Nat.eqb]. destruct (existsb enabled zones) eqn:Hen; cbn [negb]; [|by case_match].
  destruct zones as [|zone zones]; [done|]. cbn [length Nat.eqb]. by rewrite zones_loop_omap.
Qed.

Lemma objects_loop_filter include class_list dets filtered :
  (length filtered + length dets ≤ MAX_DETECTIONS)%nat →
  objects_loop include class_list dets filtered =
  filtered ++ filter (λ d, label_in_list (label d) class_list = include) dets.
Proof.
  revert filtered. induction dets as [|d dets IH]; intros filtered Hlen; cbn [objects_loop].
  { by rewrite app_nil_r. }
  cbn [length] in Hlen. rewrite (proj2 (Nat.ltb_lt _ _)) by lia.
  destruct (label_in_list (label d) class_list) eqn:El, include; cbn [negb];
    rewrite IH by (rewrite ?length_app; simpl; lia);
    (rewrite filter_cons_True by done; by rewrite <-app_assoc) || by rewrite filter_cons_False by congruence.
Qed.

(** an include list keeps the detections whose label it holds, an exclude
    list the others; no list, no mode or an unknown mode keeps them all. *)
Theorem filter_detections_by_stream_objects_spec mode class_list result :
  (length result ≤ MAX_DETECTIONS)%nat →
  filter_detections_by_stream_objects (Some (mode, class_list)) result =
  (0, if empty class_list then result
      else if streq mode (lit "include") then filter (λ d, label_in_list (label d) class_list = true) result
      else if streq mode (lit "exclude") then filter (λ d, label_in_list (label d) class_list = false) result
      else result).
Proof.
  intros Hlen. unfold filter_detections_by_stream_objects.
  destruct result as [|d result]; [simpl; by repeat case_match|]. cbn [length Nat.eqb].
  destruct (streq mode (lit "include")) eqn:Ei; [|destruct (streq mode (lit "exclude")) eqn:Ee].
  - apply streq_true in Ei as ->. cbn [empty orb streq]. destruct (empty class_list); [done|].
    by rewrite objects_loop_filter.
  - apply streq_true in Ee as ->. destruct (empty class_list); [done|]. by rewrite objects_loop_filter.
  - destruct (empty mode || streq mode (lit "none")); [by destruct (empty class_list)|].
    destruct (empty class_list); [done|]. cbn [negb andb]. done.
Qed.

(** ** The mask of the motion grid *)

Lemma fill_mask_spec n i mask :
  0 ≤ i → i + Z.of_nat n ≤ Z.of_nat (length mask) →
  ∃ mask', fill_mask i n mask = Some mask' ∧ length mask' = length mask ∧
    ∀ k, mask' !! k = if decide (i ≤ Z.of_nat k < i + Z.of_nat n) then Some true else mask !! k.
Proof.
  revert i mask. induction n as [|n IH]; intros i mask Hi Hlen; cbn [fill_mask].
  { exists mask. split_and!; [done..|]. intros k. by rewrite decide_False by lia. }
  rewrite <-(Z2Nat.id i), aset_nat by lia. cbn [mbind option_bind].
  destruct (IH (Z.of_nat (Z.to_nat i) + 1) (<[Z.to_nat i := true]> mask)) as (mask' & E & Hl & Hk);
    rewrite ?length_insert; [lia..|].
  exists mask'. split_and!; [done|by rewrite Hl, length_insert|]. intros k. rewrite Hk.
  destruct (decide (k = Z.to_nat i)) as [->|].
  - rewrite decide_False, decide_True by lia. apply list_lookup_insert_eq. lia.
  - rewrite list_lookup_insert_ne by done. by repeat case_decide; lia || done.
Qed.

Section mask.
Context (zones : list detection_zone_t) (g : Z).

Definition cell (gy gx : Z) : bool := in_any_zone zones (cell_center g gx) (cell_center g gy).

Lemma mask_row_spec n gy gx mask :
  0 ≤ gy → 0 ≤ gx → gx + Z.of_nat n ≤ g → (gy + 1) * g ≤ Z.of_nat (length mask) →
  ∃ mask', mask_row zones g gy gx n mask = Some mask' ∧ length mask' = length mask ∧
    ∀ k, mask' !! k = if decide (gy * g + gx ≤ Z.of_nat k < gy * g + gx + Z.of_nat n)
                      then Some (cell gy (Z.of_nat k - gy * g)) else mask !! k.
Proof.
  revert gx mask. induction n as [|n IH]; intros gx mask Hgy Hgx Hn Hlen; cbn [mask_row].
  { exists mask. split_and!; [done..|]. intros k. by rewrite decide_False by lia. }
  assert (Hi : 0 ≤ gy * g + gx < Z.of_nat (length mask)) by nia.
  rewrite <-(Z2Nat.id (gy * g + gx)), aset_nat by lia. cbn [mbind option_bind].
  destruct (IH (gx + 1) (<[Z.to_nat (gy * g + gx) := cell gy gx]> mask)) as (mask' & E & Hl & Hk);
    rewrite ?length_insert; [lia..|].
  exists mask'. split_and!; [done|by rewrite Hl, length_insert|]. intros k. rewrite Hk.
  destruct (decide (k = Z.to_nat (gy * g + gx))) as [->|].
  - rewrite decide_False, decide_True by lia. rewrite list_lookup_insert_eq by lia.
    do 2 f_equal. lia.
  - rewrite list_lookup_insert_ne by done. by repeat case_decide; lia || done.
Qed.

Lemma mask_rows_spec n gy mask :
  0 ≤ gy → 0 ≤ g → (gy + Z.of_nat n) * g ≤ Z.of_nat (length mask) →
  ∃ mask', mask_rows zones g gy n mask = Some mask' ∧ length mask' = length mask ∧
    ∀ k, mask' !! k = if decide (gy * g ≤ Z.of_nat k < (gy + Z.of_nat n) * g)
                      then Some (cell (Z.of_nat k / g) (Z.of_nat k `mod` g)) else mask !! k.
Proof.
  revert gy mask. induction n as [|n IH]; intros gy mask Hgy Hg Hlen; cbn [mask_rows].
  { exists mask. split_and!; [done..|]. intros k. by rewrite decide_False by lia. }
  destruct (mask_row_spec (Z.to_nat g) gy 0 mask) as (mask1 & E1 & Hl1 & Hk1); [nia..|].
  rewrite E1. cbn [mbind option_bind].
  destruct (IH (gy + 1) mask1) as (mask' & E & Hl & Hk); [nia..|].
  exists mask'. split_and!; [done|congruence|]. intros k. rewrite Hk, Hk1.
  destruct (decide (gy * g + 0 ≤ Z.of_nat k < gy * g + 0 + Z.of_nat (Z.to_nat g))).
  - rewrite decide_False, decide_True by nia.
    assert (Hdiv : Z.of_nat k / g = gy) by (symmetry; apply (Z.div_unique _ _ _ (Z.of_nat k - gy * g)); nia).
    assert (Hmod : Z.of_nat k `mod` g = Z.of_nat k - gy * g)
      by (symmetry; apply (Z.mod_unique _ _ gy); nia).
    by rewrite Hdiv, Hmod.
  - repeat case_decide; nia || done.
Qed.
End mask.

(** the mask of a grid has one entry per cell, [true] exactly when the
    center of the cell lies in an enabled zone; no write leaves the array. *)
Theorem build_motion_zone_mask_spec zones g mask :
  0 < g → g * g ≤ Z.of_nat (length mask) → existsb enabled zones = true →
  ∃ mask', build_motion_zone_mask (Some zones) g mask = Some (Z.of_nat (count_if enabled zones), mask') ∧
    length mask' = length mask ∧
    (∀ gy gx, 0 ≤ gy < g → 0 ≤ gx < g → mask' !! Z.to_nat (gy * g + gx) = Some (cell zones g gy gx)) ∧
    (∀ k, g * g ≤ Z.of_nat k → mask' !! k = mask !! k).
Proof.
  intros Hg Hlen Hen. unfold build_motion_zone_mask. rewrite (proj2 (Z.leb_gt _ _)) by lia.
  assert (Hc : count_if enabled zones ≠ 0%nat).
  { clear -Hen. induction zones as [|zone zones IH]; [done|]. simpl in *. destruct (enabled zone); [done|auto]. }
  rewrite (proj2 (Nat.eqb_neq (count_if _ _) 0)), orb_false_r by done.
  destruct zones as [|zone zones]; [done|]. cbn [length Nat.eqb].
  destruct (mask_rows_spec (zone :: zones) g (Z.to_nat g) 0 mask) as (mask' & E & Hl & Hk); [nia..|].
  rewrite E. cbn [mbind option_bind]. exists mask'. split_and!; [done..| |].
  - intros gy gx Hgy Hgx. rewrite Hk, decide_True, Z2Nat.id by nia.
    by rewrite (Z.add_comm (gy * g)), Z.div_add, Z.mod_add, Z.div_small, Z.mod_small by lia.
  - intros k Hk'. by rewrite Hk, decide_False by nia.
Qed.

(** ** Concrete instances *)

Definition example_zone : detection_zone_t :=
  let p a b := mkPoint (f_lit binary32 a 10) (f_lit binary32 b 10) in
  mkZone (lit "z") [] [] true [] [p 1 1; p 9 1; p 9 6; p 1 6] (lit "person, car") (f_lit binary32 1 2).

Definition example_detection (l : cstr) (a b : Z) : detection_t :=
  mkDetection l (f_lit binary32 3 4) (f_lit binary32 a 10) (f_lit binary32 b 10)
    (f_lit binary32 2 10) (f_lit binary32 2 10) (-1) [].

Example filter_zones_example :
  filter_detections_by_zones (Some [example_zone])
    [example_detection (lit "car") 2 2; example_detection (lit "car") 2 8; example_detection (lit "dog") 2 2] =
  (0, [set_zone_id (lit "z") (example_detection (lit "car") 2 2)]).
Proof. vm_compute. reflexivity. Qed.

Lemma filter_detections_by_stream_objects_spec_witness :
  filter_detections_by_stream_objects (Some (lit "exclude", lit "car,bus"))
    [example_detection (lit "car") 2 2; example_detection (lit "dog") 2 2] =
  (0, [example_detection (lit "dog") 2 2]).
Proof.
  rewrite filter_detections_by_stream_objects_spec.
  - vm_compute; reflexivity.
  - apply Nat.leb_le. vm_compute; reflexivity.
Defined.

Lemma build_motion_zone_mask_spec_witness :
  ∃ mask', build_motion_zone_mask (Some [example_zone]) 2 (replicate 5 false) = Some (1, mask') ∧
    length mask' = 5%nat ∧
    (∀ gy gx, 0 ≤ gy < 2 → 0 ≤ gx < 2 → mask' !! Z.to_nat (gy * 2 + gx) = Some (cell [example_zone] 2 gy gx)) ∧
    (∀ k, 2 * 2 ≤ Z.of_nat k → mask' !! k = replicate 5 false !! k).
Proof.
  apply (build_motion_zone_mask_spec [example_zone] 2 (replicate 5 false)).
  - lia.
  - apply Z.leb_le. vm_compute; reflexivity.
  - vm_compute; reflexivity.
Defined.
