(* ===== verification/MotionRegions.v ===== *)
(** * Regions of motion: the clustering of [detect_motion] in
    [src/video/motion_detection.c]

    The cells of the grid that are in motion are labelled by a flood fill, and
    every label becomes a detection with the box of its cells.  The theorem: the
    labels are the connected components, and the boxes are their extents. *)
From Stdlib Require Import ZArith Lia Bool.
From Stdlib Require Import SpecFloat.
From stdpp Require Import base numbers list strings sets relations.
From S2P Require Import Prelude.
From S2P Require Import Arrays.
From S2P Require Import Loops.
From S2P Require Import CFloat.
From S2P Require Import ZoneFilter.
From S2P Require Import Frames.
#[local] Open Scope Z_scope.

Definition MOTION_LABEL : cstr := lit "motion".
Definition MAX_LABEL_LENGTH : nat := 32.

(** [int labels[32 * 32]], [int queue[32 * 32]] *)
Definition MAX_CELLS : Z := 32 * 32.

(** The neighbours of a cell: [dx] and [dy]. *)
Definition directions : list (Z * Z) := [(-1, 0); (1, 0); (0, -1); (0, 1)].

Section regions.
Context (gs : Z) (scores : list spec_float).

(** ** The flood fill *)

(** [queue[tail++] = i]; the queue is the list of its slots up to [tail]. *)
Definition enqueue (queue : list Z) (i : Z) : option (list Z) :=
  if Z.of_nat (length queue) <? MAX_CELLS then Some (queue ++ [i]) else None.

Definition visit_neighbour (comp cx cy : Z) (d : Z * Z) (s : list Z * list Z) : option (list Z * list Z) :=
  let '(queue, labels) := s in
  let nx := cx + d.1 in
  let ny := cy + d.2 in
  if (nx <? 0) || (nx >=? gs) || (ny <? 0) || (ny >=? gs) then Some s else
  let ni := ny * gs + nx in
  l ← aget labels ni;
  if l >=? 0 then Some s else
  score ← aget scores ni;
  if fgt score one_percent then
    labels ← aset labels ni comp;
    queue ← enqueue queue ni;
    Some (queue, labels)
  else Some s.

(** [while (head < tail)]; [fuel] bounds the turns. *)
Fixpoint flood_fill (fuel : nat) (comp : Z) (queue : list Z) (head : Z) (labels : list Z) : option (list Z) :=
  match fuel with
  | O => None
  | S fuel =>
      if head <? Z.of_nat (length queue) then
        ci ← aget queue head;
        cy ← quotient ci gs;
        let cx := cmod ci gs in
        s ← for_in directions (visit_neighbour comp cx cy) (queue, labels);
        flood_fill fuel comp s.1 (head + 1) s.2
      else Some labels
  end.

(** The cells in the order of the two loops, which are both left when there are
    [MAX_DETECTIONS] components. *)
Fixpoint label_cells (fuel : nat) (cells : list Z) (num_components : Z) (labels : list Z) : option (Z * list Z) :=
  match cells with
  | [] => Some (num_components, labels)
  | idx :: cells =>
      score ← aget scores idx;
      l ← aget labels idx;
      if fle score one_percent || (l >=? 0) then label_cells fuel cells num_components labels else
      queue ← enqueue [] idx;
      labels ← aset labels idx num_components;
      labels ← flood_fill fuel num_components queue 0 labels;
      if num_components + 1 >=? Z.of_nat MAX_DETECTIONS then Some (num_components + 1, labels)
      else label_cells fuel cells (num_components + 1) labels
  end.

(** Every cell enters the queue once: one turn per cell, and the last test. *)
Definition label_regions : option (Z * list Z) :=
  let total := gs * gs in
  if total <=? MAX_CELLS then
    label_cells (S (Z.to_nat total)) (range 0 total) 0 (replicate (Z.to_nat total) (-1))
  else None.

(** ** The detections *)

Record extent := mkExtent {
  min_x : Z;
  min_y : Z;
  max_x : Z;
  max_y : Z;
  peak_score : spec_float;
  cell_count : Z
}.

Definition extend (labels : list Z) (c i : Z) (e : extent) : option extent :=
  l ← aget labels i;
  if negb (l =? c) then Some e else
  cy ← quotient i gs;
  let cx := cmod i gs in
  score ← aget scores i;
  Some (mkExtent (if cx <? min_x e then cx else min_x e) (if cy <? min_y e then cy else min_y e)
          (if cx >? max_x e then cx else max_x e) (if cy >? max_y e then cy else max_y e)
          (if fgt score (peak_score e) then score else peak_score e) (cell_count e + 1)).

(** [sqrtf], at most 1. *)
Definition motion_confidence (score : spec_float) : spec_float :=
  let conf := SFsqrt (fprec binary32) (femax binary32) score in
  if fgt conf (f_of_Z binary32 1) then f_of_Z binary32 1 else conf.

Definition box_detection (e : extent) : detection_t :=
  mkDetection (strcpy_trunc MAX_LABEL_LENGTH MOTION_LABEL) (motion_confidence (peak_score e))
    (ratio (min_x e) gs) (ratio (min_y e) gs)
    (ratio (max_x e - min_x e + 1) gs) (ratio (max_y e - min_y e + 1) gs) 0 [].

Definition add_region (labels : list Z) (c : Z) (result : detection_result_t) : option detection_result_t :=
  e ← for_in (range 0 (gs * gs)) (extend labels c) (mkExtent gs gs (-1) (-1) (S754_zero false) 0);
  if (max_x e <? 0) || (cell_count e =? 0) then Some result else
  if (length result <? MAX_DETECTIONS)%nat then Some (result ++ [box_detection e]) else None.

Definition motion_regions : option detection_result_t :=
  '(num_components, labels) ← label_regions;
  let clamp := if num_components >? Z.of_nat MAX_DETECTIONS then Z.of_nat MAX_DETECTIONS else num_components in
  for_in (range 0 clamp) (add_region labels) [].
End regions.

(** ** The labels are the connected components *)

Section components.
Context (gs : Z) (scores : list spec_float).
Context (grid : 1 ≤ gs ≤ 32) (sized : Z.of_nat (length scores) = gs * gs).

Definition cell (i : Z) : Prop := 0 ≤ i < gs * gs.
Definition lab (labels : list Z) (i : Z) : Z := default (-1) (aget labels i).

(** A cell in motion. *)
Definition active (i : Z) : Prop := ∃ s, aget scores i = Some s ∧ fgt s one_percent = true.

(** [j] is the neighbour of [i] in one of the four directions. *)
Definition beside (i j : Z) : Prop :=
  ∃ d, d ∈ directions ∧ 0 ≤ i `mod` gs + d.1 < gs ∧ 0 ≤ i / gs + d.2 < gs ∧ j = (i / gs + d.2) * gs + (i `mod` gs + d.1).

Definition link (i j : Z) : Prop := active i ∧ active j ∧ beside i j.
Definition connected : Z → Z → Prop := rtc link.

Lemma cell_coordinates i : cell i → 0 ≤ i / gs < gs ∧ 0 ≤ i `mod` gs < gs ∧ i = i / gs * gs + i `mod` gs.
Proof.
  intros Hi. unfold cell in Hi. pose proof (Z.div_mod i gs ltac:(lia)). pose proof (Z.mod_pos_bound i gs ltac:(lia)).
  split; [split; [apply Z.div_pos; lia|apply Z.div_lt_upper_bound; lia]|lia].
Qed.

Lemma active_cell i : active i → cell i.
Proof. intros (s & E & _). apply aget_Some_range in E. unfold cell. lia. Qed.

Lemma beside_cell i j : beside i j → cell j.
Proof.
  intros (d & _ & Hx & Hy & ->). unfold cell. pose proof (address_range gs gs (i / gs + d.2) (i `mod` gs + d.1) Hx Hy). lia.
Qed.

Lemma beside_sym i j : cell i → beside i j → beside j i.
Proof.
  intros Hi (d & Hd & Hx & Hy & ->). destruct (cell_coordinates i Hi) as (Hiy & Hix & Hii).
  exists (- d.1, - d.2). set (y := i / gs + d.2) in *. set (x := i `mod` gs + d.1) in *.
  assert ((y * gs + x) / gs = y) as -> by (rewrite Z.add_comm, Z.div_add, Z.div_small by lia; lia).
  assert ((y * gs + x) `mod` gs = x) as -> by (rewrite Z.add_comm, Z.mod_add, Z.mod_small by lia; lia).
  cbn [fst snd]. split; [|unfold x, y; split; [lia|split; [lia|]]; replace (i / gs + d.2 + - d.2) with (i / gs) by lia;
    replace (i `mod` gs + d.1 + - d.1) with (i `mod` gs) by lia; done].
  unfold directions in *. rewrite !elem_of_cons in *. destruct Hd as [-> | [-> | [-> | [-> | []%elem_of_nil]]]]; simpl; auto.
Qed.

Lemma link_sym i j : link i j → link j i.
Proof. intros (Hi & Hj & Hb). split; [done|]. split; [done|]. by apply beside_sym; [apply active_cell|]. Qed.

#[local] Instance connected_sym : Symmetric connected.
Proof. intros i j H. induction H; [done|]. eapply rtc_r; [eassumption|by apply link_sym]. Qed.

(** What the labels mean once [num] components are found. *)
Record labelled (num : Z) (L : list Z) : Prop := {
  labels_sized : Z.of_nat (length L) = gs * gs;
  labels_range : ∀ i, cell i → -1 ≤ lab L i < num;
  labels_active : ∀ i, cell i → 0 ≤ lab L i → active i;
  labels_closed : ∀ i j, cell i → 0 ≤ lab L i → link i j → lab L j = lab L i;
  labels_used : ∀ c, 0 ≤ c < num → ∃ i, cell i ∧ lab L i = c;
  labels_connected : ∀ i j, cell i → cell j → 0 ≤ lab L i → lab L i = lab L j → connected i j
}.

(** The fill of component [c] from [seed], which starts from the labels [L0]. *)
Record filling (L0 : list Z) (seed c : Z) (s : list Z * list Z) : Prop := {
  fill_sized : Z.of_nat (length s.2) = gs * gs;
  fill_distinct : NoDup s.1;
  fill_seed : seed ∈ s.1;
  fill_members : ∀ i, i ∈ s.1 → active i ∧ connected seed i ∧ lab s.2 i = c ∧ lab L0 i < 0;
  fill_others : ∀ i, cell i → i ∉ s.1 → lab s.2 i = lab L0 i
}.

Lemma distinct_cells q : NoDup q → (∀ i, i ∈ q → cell i) → Z.of_nat (length q) ≤ gs * gs.
Proof.
  intros Hnd Hq. assert (q ⊆+ range 0 (gs * gs)) as Hs.
  { apply NoDup_submseteq; [done|]. intros i Hi. apply elem_of_range. by apply Hq. }
  apply submseteq_length in Hs. unfold range in Hs. rewrite length_seqZ in Hs. lia.
Qed.

Lemma NoDup_snoc (q : list Z) i : NoDup q → i ∉ q → NoDup (q ++ [i]).
Proof.
  intros Hq Hi. apply NoDup_app. split; [done|]. split; [|apply NoDup_singleton].
  by intros j Hj ->%list_elem_of_singleton.
Qed.

Lemma enqueue_cell q i :
  NoDup q → i ∉ q → (∀ j, j ∈ q ++ [i] → cell j) → enqueue q i = Some (q ++ [i]).
Proof.
  intros Hnd Hi Hc. unfold enqueue, MAX_CELLS.
  assert (Z.of_nat (length (q ++ [i])) ≤ gs * gs) as Hl.
  { apply distinct_cells; [|done]. by apply NoDup_snoc. }
  rewrite length_app in Hl. simpl in Hl. rewrite (proj2 (Z.ltb_lt _ _)) by nia. done.
Qed.

Lemma aset_lab L i v :
  cell i → Z.of_nat (length L) = gs * gs →
  ∃ L', aset L i v = Some L' ∧ Z.of_nat (length L') = gs * gs ∧ lab L' i = v ∧ (∀ j, j ≠ i → lab L' j = lab L j).
Proof.
  intros Hi Hl. unfold cell in Hi. unfold aset.
  rewrite (proj2 (andb_true_iff _ _)) by (split; [apply Z.leb_le|apply Z.ltb_lt]; lia).
  eexists. split; [done|]. split; [by rewrite length_insert|]. unfold lab, aget. split.
  - rewrite (proj2 (Z.leb_le _ _)) by lia. rewrite list_lookup_insert_eq by lia. done.
  - intros j Hj. case_match eqn:Hz; [|done]. apply Z.leb_le in Hz. rewrite list_lookup_insert_ne by lia. done.
Qed.

Lemma aget_lab L i : cell i → Z.of_nat (length L) = gs * gs → aget L i = Some (lab L i).
Proof.
  intros Hi Hl. unfold lab. destruct (aget_in L i) as [v E]; [unfold cell in Hi; lia|]. by rewrite E.
Qed.

Lemma score_in i : cell i → ∃ s, aget scores i = Some s.
Proof.
  intros Hi. unfold cell in Hi. unfold aget. rewrite (proj2 (Z.leb_le _ _)) by lia. apply lookup_lt_is_Some_2. lia.
Qed.

(** One neighbour of a cell of the queue. *)
Lemma visit_filling num L0 seed c ci d s :
  labelled num L0 → 0 ≤ c → filling L0 seed c s → ci ∈ s.1 → d ∈ directions →
  ∃ s', visit_neighbour gs scores c (ci `mod` gs) (ci / gs) d s = Some s' ∧ filling L0 seed c s' ∧ s.1 `prefix_of` s'.1 ∧
    (∀ j, link ci j → j = (ci / gs + d.2) * gs + (ci `mod` gs + d.1) →
      0 ≤ ci `mod` gs + d.1 < gs → 0 ≤ ci / gs + d.2 < gs → j ∈ s'.1).
Proof.
  intros HL Hc Hs Hci Hd. destruct s as [q L]. cbn [fst snd] in *. unfold visit_neighbour.
  set (nx := ci `mod` gs + d.1). set (ny := ci / gs + d.2).
  destruct ((nx <? 0) || (nx >=? gs) || (ny <? 0) || (ny >=? gs)) eqn:Eb.
  { exists (q, L). split; [done|]. split; [done|]. split; [done|]. intros j _ _ Hx Hy.
    rewrite !orb_true_iff in Eb. destruct Eb as [[[Eb|Eb]|Eb]|Eb]; unbool; lia. }
  unbool. assert (cell (ny * gs + nx)) as Hcell by (unfold cell; pose proof (address_range gs gs ny nx); lia).
  set (ni := ny * gs + nx) in *. rewrite (aget_lab L ni) by (done || apply Hs). cbn [mbind option_bind].
  destruct (fill_members _ _ _ _ Hs ci Hci) as (Hact & Hconn & _ & Hfresh). cbn [fst snd] in *.
  assert (beside ci ni) as Hbeside by (exists d; split; [done|]; split; [unfold nx in *; lia|]; split; [unfold ny in *; lia|done]).
  destruct (lab L ni >=? 0) eqn:El; unbool.
  { exists (q, L). split; [done|]. split; [done|]. split; [done|]. intros j Hlink -> _ _. fold nx ny ni in Hlink |- *.
    destruct (decide (ni ∈ q)) as [|Hni]; [done|]. exfalso. pose proof (fill_others _ _ _ _ Hs ni Hcell Hni) as Eo.
    cbn [snd] in Eo. rewrite Eo in El.
    pose proof (labels_closed _ _ HL ni ci Hcell El (link_sym _ _ Hlink)). lia. }
  destruct (score_in ni Hcell) as [score Escore]. rewrite Escore. cbn [mbind option_bind].
  destruct (fgt score one_percent) eqn:Ef.
  2:{ exists (q, L). split; [done|]. split; [done|]. split; [done|]. intros j (_ & (s1 & E1 & F1) & _) -> _ _.
      fold nx ny ni in E1. congruence. }
  assert (active ni) as Hactive by (exists score; done).
  assert (ni ∉ q) as Hni by (intros Hin; destruct (fill_members _ _ _ _ Hs ni Hin) as (_ & _ & E & _); cbn [fst snd] in *; lia).
  destruct (aset_lab L ni c Hcell (fill_sized _ _ _ _ Hs)) as (L' & -> & Hlen & Hat & Hne). cbn [mbind option_bind].
  assert (∀ j, j ∈ q ++ [ni] → cell j) as Hcells.
  { intros j [Hj| ->%list_elem_of_singleton]%elem_of_app; [|done]. apply active_cell, (fill_members _ _ _ _ Hs j Hj). }
  rewrite (enqueue_cell q ni) by (done || apply Hs). cbn [mbind option_bind]. exists (q ++ [ni], L'). split; [done|].
  split; [|split; [by exists [ni]|]].
  2:{ intros j _ -> _ _. apply elem_of_app. right. by apply list_elem_of_singleton. }
  split; cbn [fst snd]; [done| | | |].
  - apply NoDup_snoc; [apply Hs|done].
  - apply elem_of_app. left. apply Hs.
  - intros j [Hj| ->%list_elem_of_singleton]%elem_of_app.
    + rewrite Hne by (intros ->; done). by apply (fill_members _ _ _ _ Hs j Hj).
    + split; [done|]. split; [eapply rtc_r; [done|]; by split|]. split; [done|].
      pose proof (fill_others _ _ _ _ Hs ni Hcell Hni) as Eo. cbn [snd] in Eo. lia.
  - intros j Hj Hout. rewrite Hne; [apply (fill_others _ _ _ _ Hs); [done|]|].
    + intros Hq. apply Hout, elem_of_app. by left.
    + intros ->. apply Hout, elem_of_app. right. by apply list_elem_of_singleton.
Qed.
Lemma visit_all num L0 seed c ci s :
  labelled num L0 → 0 ≤ c → filling L0 seed c s → ci ∈ s.1 →
  ∃ s', for_in directions (visit_neighbour gs scores c (ci `mod` gs) (ci / gs)) s = Some s' ∧
    filling L0 seed c s' ∧ s.1 `prefix_of` s'.1 ∧ (∀ j, link ci j → j ∈ s'.1).
Proof.
  intros HL Hc Hs Hci.
  destruct (for_in_spec (λ dn s', filling L0 seed c s' ∧ s.1 `prefix_of` s'.1 ∧
    (∀ d j, d ∈ dn → link ci j → j = (ci / gs + d.2) * gs + (ci `mod` gs + d.1) →
      0 ≤ ci `mod` gs + d.1 < gs → 0 ≤ ci / gs + d.2 < gs → j ∈ s'.1)) directions
    (visit_neighbour gs scores c (ci `mod` gs) (ci / gs)) s) as (s' & E & Hf & Hp & Hd).
  - split; [done|]. split; [done|]. by intros d j []%elem_of_nil.
  - intros dn d rest s1 Hl (Hf & Hp & Hd).
    destruct (visit_filling num L0 seed c ci d s1) as (s2 & E & Hf2 & Hp2 & Hd2); try done.
    { eapply elem_of_prefix; [exact Hci|done]. }
    { rewrite Hl. apply elem_of_app. right. by left. }
    exists s2. split; [done|]. split; [done|]. split; [by etransitivity|].
    intros d' j [Hin| ->%list_elem_of_singleton]%elem_of_app Hlink Hj Hx Hy; [|by apply Hd2].
    eapply elem_of_prefix; [by eapply (Hd d')|done].
  - exists s'. split; [done|]. split; [done|]. split; [done|]. intros j Hlink.
    destruct Hlink as (Ha & Hb & d & Hin & Hx & Hy & Hj). apply (Hd d j Hin); [|done..]. split; [done|]. split; [done|]. by exists d.
Qed.

Lemma flood_fill_spec num L0 seed c fuel q head L :
  labelled num L0 → 0 ≤ c → filling L0 seed c (q, L) →
  0 ≤ head ≤ Z.of_nat (length q) → gs * gs - head < Z.of_nat fuel →
  (∀ k i j, Z.of_nat k < head → q !! k = Some i → link i j → j ∈ q) →
  ∃ q' L', flood_fill gs scores fuel c q head L = Some L' ∧ filling L0 seed c (q', L') ∧ (∀ i j, i ∈ q' → link i j → j ∈ q').
Proof.
  intros HL Hc. revert q head L. induction fuel as [|fuel IH]; intros q head L Hs Hhead Hfuel Hdone.
  - assert (Z.of_nat (length q) ≤ gs * gs); [|lia]. apply distinct_cells; [apply Hs|].
    intros i Hi. apply active_cell, (fill_members _ _ _ _ Hs i Hi).
  - cbn [flood_fill]. destruct (head <? Z.of_nat (length q)) eqn:Eh; unbool.
    + destruct (lookup_lt_is_Some_2 q (Z.to_nat head)) as [ci Hci]; [lia|].
      assert (aget q head = Some ci) as -> by (unfold aget; by rewrite (proj2 (Z.leb_le _ _)) by lia).
      assert (ci ∈ q) as Hin by (eapply list_elem_of_lookup_2; done).
      assert (cell ci) as Hcell by (apply active_cell, (fill_members _ _ _ _ Hs ci Hin)).
      cbn [mbind option_bind]. unfold quotient, cdiv, cmod. rewrite (proj2 (Z.eqb_neq _ _)) by lia. cbn [mbind option_bind].
      unfold cell in Hcell. rewrite Z.quot_div_nonneg, Z.rem_mod_nonneg by lia.
      destruct (visit_all num L0 seed c ci (q, L) HL Hc Hs Hin) as ([q1 L1] & -> & Hf & Hp & Hlinks).
      cbn [mbind option_bind fst snd] in *. apply IH; [done| |lia|].
      * destruct Hp as [r ->]. rewrite length_app. lia.
      * intros k i j Hk Hki Hlink. destruct (decide (k = Z.to_nat head)) as [->|Hne].
        -- assert (i = ci) as -> by (pose proof (prefix_lookup_Some _ _ _ _ Hci Hp); congruence). by apply Hlinks.
        -- assert (∃ i', q !! k = Some i') as [i' Hi'] by (apply lookup_lt_is_Some_2; lia).
           assert (i = i') as -> by (pose proof (prefix_lookup_Some _ _ _ _ Hi' Hp); congruence).
           eapply elem_of_prefix; [apply (Hdone k i'); [lia|done..]|done].
    + exists q, L. split; [done|]. split; [done|]. intros i j [k Hk]%list_elem_of_lookup Hlink.
      apply (Hdone k i j); [|done..]. apply lookup_lt_Some in Hk. lia.
Qed.

(** A new component is labelled. *)
Lemma component_labelled num L0 seed q L :
  labelled num L0 → 0 ≤ num → filling L0 seed num (q, L) → (∀ i j, i ∈ q → link i j → j ∈ q) →
  labelled (num + 1) L ∧ 0 ≤ lab L seed ∧ (∀ i, cell i → 0 ≤ lab L0 i → lab L i = lab L0 i).
Proof.
  intros HL Hnum Hs Hclosed.
  assert (∀ i, i ∈ q → cell i ∧ active i ∧ connected seed i ∧ lab L i = num ∧ lab L0 i < 0) as Hin.
  { intros i Hi. destruct (fill_members _ _ _ _ Hs i Hi) as (Ha & ?). split; [by apply active_cell|done]. }
  assert (∀ i, cell i → i ∉ q → lab L i = lab L0 i) as Hout by apply (fill_others _ _ _ _ Hs).
  assert (∀ i, cell i → 0 ≤ lab L0 i → i ∉ q) as Hold by (intros i Hi H0 Hq; destruct (Hin i Hq); lia).
  assert (∀ i, cell i → lab L i = num → i ∈ q) as Hnew.
  { intros i Hi E. destruct (decide (i ∈ q)) as [|Hq]; [done|]. rewrite Hout in E by done. pose proof (labels_range _ _ HL i Hi). lia. }
  split; [|split; [destruct (Hin seed (fill_seed _ _ _ _ Hs)) as (_ & _ & _ & -> & _); done|intros; apply Hout; auto]].
  split.
  - apply (fill_sized _ _ _ _ Hs).
  - intros i Hi. destruct (decide (i ∈ q)) as [Hq|Hq]; [destruct (Hin i Hq); lia|].
    rewrite Hout by done. pose proof (labels_range _ _ HL i Hi). lia.
  - intros i Hi Hl. destruct (decide (i ∈ q)) as [Hq|Hq]; [by apply Hin|].
    rewrite Hout in Hl by done. by apply (labels_active _ _ HL).
  - intros i j Hi Hl Hlink. destruct (decide (i ∈ q)) as [Hq|Hq].
    + destruct (Hin i Hq) as (_ & _ & _ & -> & _). by apply Hin, (Hclosed i).
    + rewrite (Hout i) in * by done. pose proof (labels_closed _ _ HL i j Hi Hl Hlink) as E.
      assert (cell j) by (apply active_cell; apply Hlink). rewrite Hout; [done|done|]. apply Hold; [done|lia].
  - intros c Hc. destruct (decide (c = num)) as [->|Hne].
    + exists seed. destruct (Hin seed (fill_seed _ _ _ _ Hs)) as (? & _ & _ & ? & _). done.
    + destruct (labels_used _ _ HL c) as (i & Hi & E); [lia|]. exists i. split; [done|]. rewrite Hout; [done|done|].
      apply Hold; [done|lia].
  - intros i j Hi Hj Hl E. destruct (decide (i ∈ q)) as [Hq|Hq].
    + assert (j ∈ q) as Hqj by (apply Hnew; [done|]; rewrite <-E; by apply Hin).
      etransitivity; [symmetry; apply (Hin i Hq)|apply (Hin j Hqj)].
    + assert (j ∉ q) as Hqj by (intros Hqj; apply Hq, Hnew; [done|]; rewrite E; by apply Hin).
      rewrite !Hout in * by done. by apply (labels_connected _ _ HL).
Qed.
Context (numbers : Forall (λ s, s ≠ S754_nan) scores).

Lemma fle_active i s : aget scores i = Some s → fle s one_percent = false ↔ active i.
Proof.
  intros E. assert (s ≠ S754_nan) as Hs.
  { unfold aget in E. destruct (0 <=? i); [|done]. by apply (Forall_lookup_1 _ _ _ _ numbers E). }
  rewrite fle_fgt by done. rewrite negb_false_iff. split; [by exists s|]. intros (s' & E' & F). congruence.
Qed.

Lemma label_cells_spec cells num L :
  (∀ i, i ∈ cells → cell i) → labelled num L → 0 ≤ num < 20 →
  ∃ num' L', label_cells gs scores (S (Z.to_nat (gs * gs))) cells num L = Some (num', L') ∧ labelled num' L' ∧
    num ≤ num' ≤ 20 ∧ (∀ i, cell i → 0 ≤ lab L i → 0 ≤ lab L' i) ∧
    (num' < 20 → ∀ i, i ∈ cells → active i → 0 ≤ lab L' i).
Proof.
  revert num L. induction cells as [|i cells IH]; intros num L Hcells HL Hnum.
  - exists num, L. split; [done|]. split; [done|]. split; [lia|]. split; [auto|]. by intros _ i ?%elem_of_nil.
  - assert (cell i) as Hi by (apply Hcells; by left). assert (∀ j, j ∈ cells → cell j) as Hrest by (intros; apply Hcells; by right).
    cbn [label_cells]. destruct (score_in i Hi) as [s Es]. rewrite Es. cbn [mbind option_bind].
    rewrite (aget_lab L i) by (done || apply HL). cbn [mbind option_bind].
    destruct (fle s one_percent || (lab L i >=? 0)) eqn:E.
    + destruct (IH num L) as (num' & L' & E' & HL' & Hn & Hkeep & Hall); [done..|].
      exists num', L'. split; [done|]. split; [done|]. split; [done|]. split; [done|].
      intros Hlt j [->|Hj]%elem_of_cons Ha; [|by apply Hall]. apply Hkeep; [done|].
      rewrite (proj2 (fle_active i s Es) Ha) in E. simpl in E. unbool. lia.
    + unbool. rewrite (fle_active i s Es) in *. rename select (active i) into Ha.
      change (enqueue [] i) with (Some [i]). cbn [mbind option_bind].
      destruct (aset_lab L i num Hi (labels_sized _ _ HL)) as (L1 & -> & Hlen & Hat & Hne). cbn [mbind option_bind].
      destruct (flood_fill_spec num L i num (S (Z.to_nat (gs * gs))) [i] 0 L1) as (q & L2 & -> & Hf & Hclosed);
        [done|lia| |simpl; lia|lia|lia|].
      { split; cbn [fst snd]; [done|apply NoDup_singleton|by left| |].
        - intros j ->%list_elem_of_singleton. split; [done|]. split; [done|]. split; [done|lia].
        - intros j Hj Hout. apply Hne. intros ->. apply Hout. by left. }
      cbn [mbind option_bind]. destruct (component_labelled num L i q L2) as (HL2 & Hseed & Hold); [done|lia|done..|].
      destruct (num + 1 >=? Z.of_nat MAX_DETECTIONS) eqn:Em; unfold MAX_DETECTIONS in Em; unbool.
      * exists (num + 1), L2. split; [done|]. split; [done|]. split; [lia|]. split; [|lia].
        intros j Hj Hl. rewrite Hold by done. done.
      * destruct (IH (num + 1) L2) as (num' & L' & E' & HL' & Hn & Hkeep & Hall); [done..|lia|].
        exists num', L'. split; [done|]. split; [done|]. split; [lia|]. split.
        -- intros j Hj Hl. apply Hkeep; [done|]. by rewrite Hold by done.
        -- intros Hlt j [->|Hj]%elem_of_cons Hj'; [by apply Hkeep|by apply Hall].
Qed.

Lemma lab_start i : lab (replicate (Z.to_nat (gs * gs)) (-1)) i = -1.
Proof.
  unfold lab, aget. case_match; [|done].
  destruct (replicate (Z.to_nat (gs * gs)) (-1) !! Z.to_nat i) eqn:E; [|done]. by apply lookup_replicate in E as [-> _].
Qed.

Lemma label_regions_spec :
  ∃ num L, label_regions gs scores = Some (num, L) ∧ labelled num L ∧ 0 ≤ num ≤ 20 ∧
    (num < 20 → ∀ i, active i → 0 ≤ lab L i).
Proof.
  unfold label_regions, MAX_CELLS. rewrite (proj2 (Z.leb_le _ _)) by nia.
  destruct (label_cells_spec (range 0 (gs * gs)) 0 (replicate (Z.to_nat (gs * gs)) (-1))) as (num & L & E & HL & Hn & _ & Hall).
  - intros i Hi%elem_of_range. done.
  - split.
    + rewrite length_replicate. lia.
    + intros i _. rewrite lab_start. lia.
    + intros i _. rewrite lab_start. lia.
    + intros i j _. rewrite lab_start. lia.
    + lia.
    + intros i j _ _. rewrite lab_start. lia.
  - lia.
  - exists num, L. split; [done|]. split; [done|]. split; [lia|]. intros Hlt i Ha. apply Hall; [done| |done].
    apply elem_of_range. by apply active_cell.
Qed.
(** [e] is the smallest box around the cells of [M], with their highest score. *)
Record bounds (M : Z → Prop) (e : extent) : Prop := {
  box_inside : ∀ i, M i → min_x e ≤ i `mod` gs ≤ max_x e ∧ min_y e ≤ i / gs ≤ max_y e;
  box_left : ∃ i, M i ∧ i `mod` gs = min_x e;
  box_right : ∃ i, M i ∧ i `mod` gs = max_x e;
  box_top : ∃ i, M i ∧ i / gs = min_y e;
  box_bottom : ∃ i, M i ∧ i / gs = max_y e;
  box_peak : ∃ i, M i ∧ aget scores i = Some (peak_score e);
  box_highest : ∀ i s, M i → aget scores i = Some s → fgt s (peak_score e) = false
}.

Lemma score_number i s : aget scores i = Some s → s ≠ S754_nan.
Proof. unfold aget. case_match; [|done]. by apply (Forall_lookup_1 _ _ _ _ numbers). Qed.

Lemma bounds_ext M M' e : (∀ i, M i ↔ M' i) → bounds M e → bounds M' e.
Proof.
  intros HM [? (?&?&?) (?&?&?) (?&?&?) (?&?&?) (?&?&?) Hh]. split; setoid_rewrite <-HM; eauto.
Qed.

(** One more cell. *)
Lemma extent_grows M e i s :
  bounds M e → cell i → aget scores i = Some s →
  let cx := i `mod` gs in let cy := i / gs in
  bounds (λ j, M j ∨ j = i)
    (mkExtent (if cx <? min_x e then cx else min_x e) (if cy <? min_y e then cy else min_y e)
       (if cx >? max_x e then cx else max_x e) (if cy >? max_y e then cy else max_y e)
       (if fgt s (peak_score e) then s else peak_score e) (cell_count e + 1)).
Proof.
  intros [Hin (l & Hl & El) (r & Hr & Er) (t & Ht & Et) (b & Hb & Eb) (p & Hp & Ep) Hhigh] Hi Es cx cy.
  split; cbn [min_x min_y max_x max_y peak_score].
  - intros j [Hj| ->]; [specialize (Hin j Hj)|fold cx cy]; repeat case_match; unbool; lia.
  - case_match; [exists i|exists l]; auto.
  - case_match; [exists i|exists r]; auto.
  - case_match; [exists i|exists t]; auto.
  - case_match; [exists i|exists b]; auto.
  - case_match; [exists i|exists p]; auto.
  - assert (s ≠ S754_nan) as Ns by by apply (score_number i). assert (peak_score e ≠ S754_nan) as Np by by apply (score_number p).
    intros j s' [Hj| ->] Es'; apply not_true_is_false; intros F.
    + assert (s' ≠ S754_nan) as Ns' by by apply (score_number j). specialize (Hhigh j s' Hj Es').
      destruct (fgt s (peak_score e)) eqn:G; [|congruence]. apply not_true_iff_false in Hhigh.
      rewrite fgt_key in * by done. unfold key_lt in *. lia.
    + assert (s' = s) as -> by congruence. destruct (fgt s (peak_score e)) eqn:G; [|congruence].
      rewrite fgt_key in F by done. unfold key_lt in F. lia.
Qed.

Definition member (L : list Z) (c i : Z) : Prop := cell i ∧ lab L i = c.

Lemma extent_spec num L c :
  labelled num L → 0 ≤ c < num →
  ∃ e, for_in (range 0 (gs * gs)) (extend gs scores L c) (mkExtent gs gs (-1) (-1) (S754_zero false) 0) = Some e ∧
    bounds (member L c) e ∧ 0 < cell_count e.
Proof.
  intros HL Hc.
  destruct (for_range_spec (λ n e, (∀ i, member L c i → n ≤ i) ∧ e = mkExtent gs gs (-1) (-1) (S754_zero false) 0 ∨
      bounds (λ i, member L c i ∧ i < n) e ∧ 0 < cell_count e) 0 (gs * gs) (extend gs scores L c)
    (mkExtent gs gs (-1) (-1) (S754_zero false) 0)) as (e & E & He).
  - nia.
  - left. split; [|done]. intros i [Hi _]. apply Hi.
  - intros n e Hn He. unfold extend. rewrite (aget_lab L n) by (done || apply HL). cbn [mbind option_bind].
    destruct (lab L n =? c) eqn:El; unbool; cbn [negb].
    + unfold quotient, cdiv, cmod. rewrite (proj2 (Z.eqb_neq _ _)) by lia. destruct (score_in n Hn) as [s Es].
      rewrite Es. cbn [mbind option_bind]. rewrite Z.quot_div_nonneg, Z.rem_mod_nonneg by lia.
      eexists. split; [done|]. right. destruct He as [[Hnone ->]|[He Hcount]].
      * cbn [min_x min_y max_x max_y peak_score cell_count]. destruct (cell_coordinates n Hn) as (Hy & Hx & Hnn).
        rewrite !(proj2 (Z.ltb_lt _ _)), !(proj2 (Z.gtb_lt _ _)) by lia.
        assert (active n) as (s' & Es' & Fs') by (apply (labels_active _ _ HL n Hn); lia).
        assert (s' = s) as -> by congruence. rewrite positive_score by done. split; [|lia].
        apply (bounds_ext (λ i, i = n)).
        { intros i. split; [intros ->; split; [done|lia]|]. intros [Hi Hlt]. specialize (Hnone i Hi). lia. }
        split; cbn [min_x min_y max_x max_y peak_score]; try (by exists n); [intros i ->; lia|].
        intros i s' -> Es2. assert (s' = s) as -> by congruence. apply not_true_iff_false.
        rewrite fgt_key by by apply (score_number n). unfold key_lt. lia.
      * split; [|simpl; lia]. eapply bounds_ext; [|by apply extent_grows].
        intros i. simpl. split; [intros [[? ?]| ->]; (split; [done|lia])|].
        intros [Hi Hlt]. destruct (decide (i = n)); [by right|left; split; [done|lia]].
    + exists e. split; [done|]. destruct He as [[Hnone ->]|[He Hcount]].
      * left. split; [|done]. intros i Hi. specialize (Hnone i Hi). destruct (decide (i = n)) as [->|]; [|lia]. by destruct Hi.
      * right. split; [|done]. eapply bounds_ext; [|exact He]. intros i. simpl. split; [intros [? ?]; split; [done|lia]|].
        intros [Hi Hlt]. split; [done|]. destruct (decide (i = n)) as [->|]; [by destruct Hi|lia].
  - exists e. split; [done|]. destruct He as [[Hnone _]|[He Hcount]].
    + destruct (labels_used _ _ HL c Hc) as (i & Hi & El). specialize (Hnone i (conj Hi El)). unfold cell in Hi. lia.
    + split; [|done]. eapply bounds_ext; [|exact He]. intros i. unfold member, cell. simpl. lia.
Qed.

(** The detections of a frame are the connected regions of cells in motion.
    There are at most twenty; the cells of a region are exactly those connected
    to one another, each region is reported once, with the smallest box that
    holds its cells and the confidence of its highest score, and unless there
    are twenty no cell in motion is left out. *)
Definition reports_components (result : detection_result_t) : Prop :=
  ∃ L extents, result = box_detection gs <$> extents ∧ (length extents ≤ 20)%nat ∧
    (∀ i j, cell i → cell j → 0 ≤ lab L i → lab L i = lab L j ↔ connected i j) ∧
    (∀ i, cell i → 0 ≤ lab L i → active i) ∧
    ((length extents < 20)%nat → ∀ i, active i → 0 ≤ lab L i) ∧
    (∀ k e, extents !! k = Some e → bounds (member L (Z.of_nat k)) e) ∧
    (∀ i, 0 ≤ lab L i → lab L i < Z.of_nat (length extents)).

Lemma motion_regions_spec : ∃ result, motion_regions gs scores = Some result ∧ reports_components result.
Proof.
  destruct label_regions_spec as (num & L & E & HL & Hnum & Hall).
  destruct (for_range_spec (λ n r, ∃ extents, r = box_detection gs <$> extents ∧ Z.of_nat (length extents) = n ∧
      ∀ k e, extents !! k = Some e → bounds (member L (Z.of_nat k)) e) 0 num (add_region gs scores L) [])
    as (r & Er & extents & -> & Hlen & Hbox).
  - lia.
  - by exists [].
  - intros c r Hc (extents & -> & Hlen & Hbox). unfold add_region.
    destruct (extent_spec num L c HL Hc) as (e & -> & He & Hcount). cbn [mbind option_bind].
    destruct (box_right _ _ He) as (i & [Hi _] & Ei). destruct (cell_coordinates i Hi) as (_ & Hx & _).
    rewrite (proj2 (Z.ltb_ge _ _)), (proj2 (Z.eqb_neq _ _)) by lia. cbn [orb].
    rewrite length_fmap, (proj2 (Nat.ltb_lt _ _)) by (unfold MAX_DETECTIONS; lia).
    eexists. split; [done|]. exists (extents ++ [e]). rewrite fmap_app, length_app. split; [done|]. split; [simpl; lia|].
    intros k e' [[_ Hk]|[-> <-]]%lookup_snoc_Some; [by apply Hbox|]. by rewrite Hlen.
  - exists (box_detection gs <$> extents). unfold motion_regions. rewrite E. cbn [mbind option_bind]. split.
    + unfold MAX_DETECTIONS. change (Z.of_nat 20) with 20. destruct (num >? 20) eqn:G; unbool; [lia|done].
    + exists L, extents. split; [done|]. split; [lia|]. split; [|split; [apply HL|split; [|split; [done|]]]].
      2:{ intros Hlt. apply Hall. lia. }
      2:{ intros i Hl. rewrite Hlen. destruct (decide (cell i)) as [Hi|Hi]; [by apply (labels_range _ _ HL)|].
        unfold lab in Hl. destruct (aget L i) as [v|] eqn:Ev; [|done]. apply aget_Some_range in Ev.
        rewrite (labels_sized _ _ HL) in Ev. done. }
      intros i j Hi Hj Hl. split; [by apply (labels_connected _ _ HL)|]. intros Hr.
      clear Hj. induction Hr as [i|i k j Hlink Hr IH]; [done|].
      pose proof (labels_closed _ _ HL i k Hi Hl Hlink) as Ek. rewrite <-Ek. apply IH; [|lia].
      apply active_cell. apply Hlink.
Qed.
End components.

(** An L and a dot, in a 4 by 4 grid. *)
Definition example_scores : list spec_float :=
  (λ n, ratio n 10) <$> [5;0;0;0; 7;0;0;1; 9;3;0;0; 0;0;0;0].

Example example_labels : label_regions 4 example_scores = Some (2, [0;-1;-1;-1; 0;-1;-1;1; 0;0;-1;-1; -1;-1;-1;-1]).
Proof. vm_compute. reflexivity. Qed.
