(* ===== verification/MotionDetection.v ===== *)
(** * Motion detection: [src/video/motion_detection.c]

    The table of streams, their configuration, and [detect_motion] over the
    images of [Frames] and the regions of [MotionRegions].  Memory is the class
    [Heap]: an allocation may fail, and what it returns holds anything.  An
    operation is a run that counts its allocations, [None] where it is
    undefined. *)
From Stdlib Require Import ZArith Lia Bool.
From Stdlib Require Import SpecFloat.
From stdpp Require Import base numbers list strings sets.
From S2P Require Import Prelude.
From S2P Require Import Arrays.
From S2P Require Import Loops.
From S2P Require Import CFloat.
From S2P Require Import ZoneFilter.
From S2P Require Import Frames.
From S2P Require Import MotionRegions.
#[local] Open Scope Z_scope.

Definition MAX_MOTION_STREAMS : nat := MAX_STREAMS.
Definition DEFAULT_SENSITIVITY : spec_float := f_lit binary32 15 100.
Definition DEFAULT_MIN_MOTION_AREA : spec_float := f_lit binary32 5 1000.
Definition DEFAULT_COOLDOWN_TIME : Z := 3.
Definition DEFAULT_MOTION_HISTORY : Z := 2.
Definition DEFAULT_BLUR_RADIUS : Z := 1.
Definition DEFAULT_NOISE_THRESHOLD : Z := 10.
Definition DEFAULT_USE_GRID_DETECTION : bool := true.
Definition DEFAULT_GRID_SIZE : Z := 6.
Definition DEFAULT_DOWNSCALE_ENABLED : bool := true.
Definition DEFAULT_DOWNSCALE_FACTOR : Z := 2.

(** ** Memory *)

(** The [k]-th allocation, of [n] bytes. *)
Class Heap := {
  malloc : nat → Z → option frame;
  malloc_length k n f : malloc k n = Some f → Z.of_nat (length f) = Z.max n 0
}.

(** The sizes of the structures on a 64-bit target. *)
Definition sizeof_float : Z := 4.
Definition sizeof_frame_history : Z := 16.
Definition sizeof_motion_stream : Z := 464.

(** A run takes the number of the next allocation. *)
Definition Run (A : Type) : Type := nat → option (A * nat).

#[global] Instance Run_ret : MRet Run := λ A a k, Some (a, k).
#[global] Instance Run_bind : MBind Run := λ A B f m k, '(a, k) ← m k; f a k.
#[global] Instance Run_fmap : FMap Run := λ A B f m k, '(a, k) ← m k; Some (f a, k).

Definition lift {A} (o : option A) : Run A := λ k, (λ a, (a, k)) <$> o.
Definition alloc `{Heap} (n : Z) : Run (option frame) := λ k, Some (malloc k n, S k).

(** ** A stream *)

Record motion_config := mkConfig {
  sensitivity : spec_float;
  min_motion_area : spec_float;
  cooldown_time : Z;
  blur_radius : Z;
  noise_threshold : Z;
  use_grid_detection : bool;
  grid_size : Z;
  history_size : Z;
  enabled : bool;
  downscale_enabled : bool;
  downscale_factor : Z
}.

Record frame_history_t := mkHistory { hist_frame : option frame; hist_timestamp : Z }.

(** The buffers are pointers: [None] is NULL. *)
Record motion_buffers := mkBuffers {
  prev_frame : option frame;
  blur_buffer : option frame;
  background : option frame;
  frame_history : option (list frame_history_t);
  history_index : Z;
  grid_scores : option (list spec_float);
  width : Z;
  height : Z;
  channels : Z;
  downscaled_width : Z;
  downscaled_height : Z
}.

(** A [timespec] is its seconds and nanoseconds. *)
Record motion_statistics := mkStatistics {
  allocated_memory : Z;
  peak_memory : Z;
  last_frame_start : Z * Z;
  last_processing_time : spec_float;
  avg_processing_time : spec_float;
  peak_processing_time : spec_float;
  frames_processed : Z
}.

Record motion_stream_t := mkMotion {
  stream_name : cstr;
  config : motion_config;
  buffers : motion_buffers;
  last_detection_time : Z;
  last_background_update_time : Z;
  statistics : motion_statistics
}.

Definition set_config (c : motion_config) (s : motion_stream_t) : motion_stream_t :=
  mkMotion (stream_name s) c (buffers s) (last_detection_time s) (last_background_update_time s) (statistics s).
Definition set_buffers (b : motion_buffers) (s : motion_stream_t) : motion_stream_t :=
  mkMotion (stream_name s) (config s) b (last_detection_time s) (last_background_update_time s) (statistics s).
Definition set_detection (t : Z) (s : motion_stream_t) : motion_stream_t :=
  mkMotion (stream_name s) (config s) (buffers s) t (last_background_update_time s) (statistics s).
Definition set_background_update (t : Z) (s : motion_stream_t) : motion_stream_t :=
  mkMotion (stream_name s) (config s) (buffers s) (last_detection_time s) t (statistics s).
Definition set_statistics (p : motion_statistics) (s : motion_stream_t) : motion_stream_t :=
  mkMotion (stream_name s) (config s) (buffers s) (last_detection_time s) (last_background_update_time s) p.

Definition f_zero : spec_float := S754_zero false.

(** What [calloc] leaves. *)
Definition no_buffers : motion_buffers := mkBuffers None None None None 0 None 0 0 0 0 0.
Definition no_statistics : motion_statistics := mkStatistics 0 0 (0, 0) f_zero f_zero f_zero 0.

Definition new_stream (name : cstr) : motion_stream_t :=
  mkMotion (strcpy_trunc MAX_STREAM_NAME name)
    (mkConfig DEFAULT_SENSITIVITY DEFAULT_MIN_MOTION_AREA DEFAULT_COOLDOWN_TIME DEFAULT_BLUR_RADIUS
       DEFAULT_NOISE_THRESHOLD DEFAULT_USE_GRID_DETECTION DEFAULT_GRID_SIZE DEFAULT_MOTION_HISTORY false
       DEFAULT_DOWNSCALE_ENABLED DEFAULT_DOWNSCALE_FACTOR)
    no_buffers 0 0 no_statistics.

(** ** The table *)

Record motion_system := mkSystem {
  motion_streams : list (option motion_stream_t);
  initialized : bool
}.

Definition init_motion_detection_system (sys : motion_system) : motion_system :=
  if initialized sys then sys else mkSystem (replicate MAX_MOTION_STREAMS None) true.

Definition shutdown_motion_detection_system (sys : motion_system) : motion_system :=
  if negb (initialized sys) then sys else mkSystem (replicate MAX_MOTION_STREAMS None) false.

Definition has_name (name : cstr) (slot : option motion_stream_t) : bool :=
  match slot with
  | Some s => negb (bool_decide (stream_name s = [])) && streq (stream_name s) name
  | None => false
  end.

Definition is_free (slot : option motion_stream_t) : bool := match slot with Some _ => false | None => true end.

Section operations.
Context `{Heap}.

(** The slot of a stream, which is created if need be. *)
Definition get_motion_stream (name : cstr) (sys : motion_system) : Run (option nat * motion_system) :=
  let sys := if initialized sys then sys else init_motion_detection_system sys in
  match find_idx (has_name name) (motion_streams sys) with
  | Some i => mret (Some i, sys)
  | None =>
      match find_idx is_free (motion_streams sys) with
      | None => mret (None, sys)
      | Some i =>
          p ← alloc sizeof_motion_stream;
          match p with
          | None => mret (None, sys)
          | Some _ => mret (Some i, mkSystem (<[i := Some (new_stream name)]> (motion_streams sys)) (initialized sys))
          end
      end
  end.

(** An operation on the stream of this name: [-1] without a name or a slot. *)
Definition on_stream {A} (missing : A) (name : option cstr) (f : motion_stream_t → Run (A * motion_stream_t))
    (sys : motion_system) : Run (A * motion_system) :=
  match name with
  | None => mret (missing, sys)
  | Some name =>
      '(slot, sys) ← get_motion_stream name sys;
      match slot with
      | None => mret (missing, sys)
      | Some i =>
          s ← lift (mjoin (motion_streams sys !! i));
          '(r, s) ← f s;
          mret (r, mkSystem (<[i := Some s]> (motion_streams sys)) (initialized sys))
      end
  end.

(** ** Configuration *)

Definition in_unit (x : spec_float) : bool := fgt x f_zero && fle x (f_of_Z binary32 1).

Definition configured (sens area : spec_float) (cooldown : Z) (c : motion_config) : motion_config :=
  mkConfig (if in_unit sens then sens else DEFAULT_SENSITIVITY)
    (if in_unit area then area else DEFAULT_MIN_MOTION_AREA)
    (if cooldown >? 0 then cooldown else DEFAULT_COOLDOWN_TIME)
    (blur_radius c) (noise_threshold c) (use_grid_detection c) (grid_size c) (history_size c) (enabled c)
    (downscale_enabled c) (downscale_factor c).

Definition configure_motion_detection (name : option cstr) (sens area : spec_float) (cooldown : Z)
    : motion_system → Run (Z * motion_system) :=
  on_stream (-1) name (λ s, mret (0, set_config (configured sens area cooldown (config s)) s)).

Definition configured_advanced (radius noise : Z) (use_grid : bool) (size history : Z) (c : motion_config) : motion_config :=
  mkConfig (sensitivity c) (min_motion_area c) (cooldown_time c)
    (if (radius >=? 0) && (radius <=? 5) then radius else DEFAULT_BLUR_RADIUS)
    (if (noise >=? 0) && (noise <=? 50) then noise else DEFAULT_NOISE_THRESHOLD)
    use_grid
    (if (size >=? 2) && (size <=? 32) then size else DEFAULT_GRID_SIZE)
    (if (history >? 0) && (history <=? 10) then history else DEFAULT_MOTION_HISTORY)
    (enabled c) (downscale_enabled c) (downscale_factor c).

(** The scores go when the grid changes, the history when its size does. *)
Definition drop_resized (old new : motion_config) (b : motion_buffers) : motion_buffers :=
  mkBuffers (prev_frame b) (blur_buffer b) (background b)
    (if history_size new =? history_size old then frame_history b else None) (history_index b)
    (if grid_size new =? grid_size old then grid_scores b else None)
    (width b) (height b) (channels b) (downscaled_width b) (downscaled_height b).

Definition configure_advanced (radius noise : Z) (use_grid : bool) (size history : Z) (s : motion_stream_t)
    : motion_stream_t :=
  let c := configured_advanced radius noise use_grid size history (config s) in
  set_config c (set_buffers (drop_resized (config s) c (buffers s)) s).

Definition configure_advanced_motion_detection (name : option cstr) (radius noise : Z) (use_grid : bool) (size history : Z)
    : motion_system → Run (Z * motion_system) :=
  on_stream (-1) name (λ s, mret (0, configure_advanced radius noise use_grid size history s)).

Definition optimized (downscale : bool) (factor : Z) (s : motion_stream_t) : motion_stream_t :=
  let c := config s in
  let b := buffers s in
  let factor := if (factor >=? 1) && (factor <=? 4) then factor else DEFAULT_DOWNSCALE_FACTOR in
  let s := set_config (mkConfig (sensitivity c) (min_motion_area c) (cooldown_time c) (blur_radius c)
             (noise_threshold c) (use_grid_detection c) (grid_size c) (history_size c) (enabled c) downscale factor) s in
  if (width b >? 0) && (height b >? 0) then
    set_buffers (mkBuffers (prev_frame b) (blur_buffer b) (background b) (frame_history b) (history_index b)
      (grid_scores b) (width b) (height b) (channels b)
      (downscaled_size (width b) factor) (downscaled_size (height b) factor)) s
  else s.

Definition configure_motion_detection_optimizations (name : option cstr) (downscale : bool) (factor : Z)
    : motion_system → Run (Z * motion_system) :=
  on_stream (-1) name (λ s, mret (0, optimized downscale factor s)).

Definition set_enabled (on : bool) (s : motion_stream_t) : motion_stream_t :=
  let c := config s in
  let s := if negb on && enabled c then set_buffers no_buffers s else s in
  set_config (mkConfig (sensitivity c) (min_motion_area c) (cooldown_time c) (blur_radius c) (noise_threshold c)
    (use_grid_detection c) (grid_size c) (history_size c) on (downscale_enabled c) (downscale_factor c)) s.

Definition set_motion_detection_enabled (name : option cstr) (on : bool) : motion_system → Run (Z * motion_system) :=
  on_stream (-1) name (λ s, mret (0, set_enabled on s)).

Definition is_motion_detection_enabled (name : option cstr) : motion_system → Run (bool * motion_system) :=
  on_stream false name (λ s, mret (enabled (config s), s)).

(** ** One frame *)

(** A frame that arrives: its bytes, its size and the time. *)
Record arriving := mkArriving {
  frame_data : frame;
  in_width : Z;
  in_height : Z;
  in_channels : Z;
  frame_time : Z
}.

(** The grey copy: [None] where the allocation fails or the format is unknown. *)
Definition grey_frame (a : arriving) : Run (option frame) :=
  if in_channels a =? 3 then
    buf ← alloc (in_width a * in_height a);
    lift (rgb_to_grayscale buf (frame_data a) (in_width a) (in_height a))
  else if in_channels a =? 1 then
    buf ← alloc (in_width a * in_height a);
    match buf with
    | None => mret None
    | Some buf => f ← lift (copy_bytes buf (frame_data a) (in_width a * in_height a)); mret (Some f)
    end
  else mret None.

(** The frame that is processed, and its size: the original one where there is
    no memory for a smaller one. *)
Definition processing (c : motion_config) (a : arriving) (gray : frame) : Run (frame * Z * Z) :=
  if downscale_enabled c && (downscale_factor c >? 1) then
    buf ← alloc (downscale_bytes (in_width a) (in_height a) (downscale_factor c));
    r ← lift (downscale_grayscale buf gray (in_width a) (in_height a) (downscale_factor c));
    mret (default (gray, in_width a, in_height a) r)
  else mret (gray, in_width a, in_height a).

(** The buffers for a new size, filled from the frame.  Where an allocation
    fails, the size is left as it was. *)
Definition reset_buffers (s : motion_stream_t) (f : frame) (w h : Z) : Run (Z * motion_stream_t) :=
  let c := config s in
  let b := buffers s in
  prev ← alloc (w * h);
  blur ← alloc (w * h);
  bg ← alloc (w * h);
  let kept prev blur bg scores :=
    set_buffers (mkBuffers prev blur bg None (history_index b) scores (width b) (height b) (channels b)
      (downscaled_width b) (downscaled_height b)) s in
  match prev, blur, bg with
  | Some prev, Some blur, Some bg =>
      bg ← lift (copy_bytes bg f (w * h));
      prev ← lift (copy_bytes prev f (w * h));
      p ← (if use_grid_detection c then alloc (grid_size c * grid_size c * sizeof_float) else mret None);
      if use_grid_detection c && negb (bool_decide (is_Some p))
      then mret (-1, kept (Some prev) (Some blur) (Some bg) None) else
      let scores := if use_grid_detection c then Some (replicate (Z.to_nat (grid_size c * grid_size c)) f_zero) else None in
      q ← alloc (history_size c * sizeof_frame_history);
      match q with
      | None => mret (-1, kept (Some prev) (Some blur) (Some bg) None)
      | Some _ =>
          mret (0, set_buffers (mkBuffers (Some prev) (Some blur) (Some bg)
            (Some (replicate (Z.to_nat (history_size c)) (mkHistory None 0))) 0 scores w h 1 w h) s)
      end
  | _, _, _ => mret (-1, kept None None None None)
  end.

(** The mask of the grid; it lives on the stack up to 32 by 32 cells. *)
Definition zone_mask_for (zones : option (list detection_zone_t)) (size : Z) : Run (option (list bool)) :=
  buf ← (if size * size <=? 1024 then mret (Some (replicate 1024 false))
         else p ← alloc (size * size); mret ((λ _, replicate (Z.to_nat (size * size)) false) <$> p));
  match buf with
  | None => mret None
  | Some buf => r ← lift (build_motion_zone_mask zones size buf); mret (Some r.2)
  end.

Definition add_frame_to_history (s : motion_stream_t) (f : frame) (timestamp : Z) : Run motion_stream_t :=
  let b := buffers s in
  let with_history history index :=
    set_buffers (mkBuffers (prev_frame b) (blur_buffer b) (background b) (Some history) index (grid_scores b)
      (width b) (height b) (channels b) (downscaled_width b) (downscaled_height b)) s in
  match frame_history b with
  | None => mret s
  | Some history =>
      old ← lift (aget history (history_index b));
      p ← alloc (width b * height b);
      match p with
      | None =>
          history ← lift (aset history (history_index b) (mkHistory None (hist_timestamp old)));
          mret (with_history history (history_index b))
      | Some buf =>
          f ← lift (copy_bytes buf f (width b * height b));
          history ← lift (aset history (history_index b) (mkHistory (Some f) timestamp));
          mret (with_history history (cmod (history_index b + 1) (history_size (config s))))
      end
  end.

(** The share of the background that one update replaces. *)
Definition learning_rate (detected : bool) (last now : Z) : spec_float :=
  let base_rate := if detected then f_lit binary32 1 100 else f_lit binary32 5 100 in
  let dt := if last >? 0 then f_of_Z binary32 (now - last) else f_of_Z binary32 1 in
  let dt := if flt dt f_zero then f_zero else dt in
  let dt := if fgt dt (f_of_Z binary32 5) then f_of_Z binary32 5 else dt in
  let rate := fmul binary32 base_rate dt in
  if fgt rate (f_lit binary32 25 100) then f_lit binary32 25 100 else rate.

(** A detection without the grid: the whole frame. *)
Definition full_frame_detection (score : spec_float) : detection_t :=
  mkDetection (strcpy_trunc MAX_LABEL_LENGTH MOTION_LABEL) (motion_confidence score)
    f_zero f_zero (f_of_Z binary32 1) (f_of_Z binary32 1) 0 [].

(** Whether there is motion, its score, and the scores of the cells. *)
Definition compare_frames (zones : option (list detection_zone_t)) (s : motion_stream_t) (blur : frame) (w h : Z)
    : Run (bool * spec_float * option (list spec_float)) :=
  let c := config s in
  let b := buffers s in
  prev ← lift (prev_frame b);
  bg ← lift (background b);
  if use_grid_detection c then
    zone_mask ← zone_mask_for zones (grid_size c);
    r ← lift (calculate_grid_motion blur prev bg w h (sensitivity c) (noise_threshold c) (grid_size c) (grid_scores b)
                f_zero zone_mask);
    let '(score, area, scores) := r in
    mret (fge area (min_motion_area c) && fgt score one_percent, score, scores)
  else
    area ← lift (changed_share blur prev bg w h (sensitivity c) (noise_threshold c));
    mret (fge area (min_motion_area c), area, grid_scores b).

(** The frame becomes the previous one and enters history and background. *)
Definition remember_frame (s : motion_stream_t) (blur : frame) (scores : option (list spec_float)) (detected : bool)
    (now w h : Z) : Run motion_stream_t :=
  let b := buffers s in
  let s := set_buffers (mkBuffers (prev_frame b) (Some blur) (background b) (frame_history b) (history_index b) scores
             (width b) (height b) (channels b) (downscaled_width b) (downscaled_height b)) s in
  s ← add_frame_to_history s blur now;
  let b := buffers s in
  bg ← lift (background b);
  bg ← lift (update_background_model bg blur w h (learning_rate detected (last_background_update_time s) now));
  prev ← lift (prev_frame b);
  prev ← lift (copy_bytes prev blur (w * h));
  mret (set_background_update now
    (set_buffers (mkBuffers (Some prev) (Some blur) (Some bg) (frame_history b) (history_index b) (grid_scores b)
       (width b) (height b) (channels b) (downscaled_width b) (downscaled_height b)) s)).

Definition report (s : motion_stream_t) (score : spec_float) : Run detection_result_t :=
  let c := config s in
  if use_grid_detection c && (grid_size c >? 0) then
    scores ← lift (grid_scores (buffers s));
    lift (motion_regions (grid_size c) scores)
  else mret [full_frame_detection score].

Definition f_milliseconds (start finish : Z * Z) : spec_float :=
  fadd binary32 (fmul binary32 (f_of_Z binary32 (finish.1 - start.1)) (f_of_Z binary32 1000))
    (fdiv binary32 (f_of_Z binary32 (finish.2 - start.2)) (f_of_Z binary32 1000000)).

Definition count_frame (start finish : Z * Z) (memory : Z) (p : motion_statistics) : motion_statistics :=
  let time := f_milliseconds start finish in
  let n := frames_processed p + 1 in
  mkStatistics memory (if memory >? peak_memory p then memory else peak_memory p) (last_frame_start p) time
    (fdiv binary32 (fadd binary32 (fmul binary32 (avg_processing_time p) (f_of_Z binary32 (n - 1))) time) (f_of_Z binary32 n))
    (if fgt time (peak_processing_time p) then time else peak_processing_time p) n.

(** The part after the reallocation. *)
Definition analyse (zones : option (list detection_zone_t)) (s : motion_stream_t) (f : frame) (w h now : Z)
    (start finish : Z * Z) (memory : Z) : Run (Z * detection_result_t * motion_stream_t) :=
  dst ← lift (blur_buffer (buffers s));
  temp ← (if blur_radius (config s) <=? 0 then mret None else alloc (w * h));
  blur ← lift (apply_box_blur temp f dst w h (blur_radius (config s)));
  r ← compare_frames zones s blur w h;
  let '(detected, score, scores) := r in
  s ← remember_frame s blur scores detected now w h;
  let s := if detected : bool then set_detection now s else s in
  result ← (if detected then report s score else mret []);
  mret (0, result, set_statistics (count_frame start finish memory (statistics s)) s).

(** [last_frame_start] is set on every call. *)
Definition begin_frame (start : Z * Z) (s : motion_stream_t) : motion_stream_t :=
  let p := statistics s in
  set_statistics (mkStatistics (allocated_memory p) (peak_memory p) start (last_processing_time p)
    (avg_processing_time p) (peak_processing_time p) (frames_processed p)) s.

Definition detect_in (zones : option (list detection_zone_t)) (start finish : Z * Z) (a : arriving) (s : motion_stream_t)
    : Run (Z * detection_result_t * motion_stream_t) :=
  let s := begin_frame start s in
  if negb (enabled (config s)) then mret (0, [], s) else
  if (last_detection_time s >? 0) && (frame_time a - last_detection_time s <? cooldown_time (config s))
  then mret (0, [], s) else
  gray ← grey_frame a;
  match gray with
  | None => mret (-1, [], s)
  | Some gray =>
      r ← processing (config s) a gray;
      let '(f, w, h) := r in
      let memory := u64 (w * h) in
      if negb (bool_decide (is_Some (prev_frame (buffers s)))) || negb (width (buffers s) =? w) || negb (height (buffers s) =? h)
      then '(code, s) ← reset_buffers s f w h; mret (code, [], s)
      else analyse zones s f w h (frame_time a) start finish memory
  end.

(** The times are those of [CLOCK_MONOTONIC] before and after.  The result of a
    call that is refused at once is left as it was. *)
Definition detect_motion (zones : option (list detection_zone_t)) (start finish : Z * Z) (name : option cstr)
    (a : option arriving) (result : detection_result_t) (sys : motion_system)
    : Run (Z * detection_result_t * motion_system) :=
  match name, a with
  | Some _, Some a =>
      if (in_width a <=? 0) || (in_height a <=? 0) || (in_channels a <=? 0) then mret (-1, result, sys) else
      '(r, sys) ← on_stream (-1, []) name (λ s, '(code, result, s) ← detect_in zones start finish a s;
                                             mret ((code, result), s)) sys;
      mret (r, sys)
  | _, _ => mret (-1, result, sys)
  end.

(** ** Statistics *)

Definition get_motion_detection_memory_usage (name : option cstr) : motion_system → Run (option (Z * Z) * motion_system) :=
  on_stream None name (λ s, mret (Some (allocated_memory (statistics s), peak_memory (statistics s)), s)).

Definition get_motion_detection_cpu_usage (name : option cstr)
    : motion_system → Run (option (spec_float * spec_float) * motion_system) :=
  on_stream None name (λ s, mret (Some (avg_processing_time (statistics s), peak_processing_time (statistics s)), s)).

Definition reset_motion_detection_statistics (name : option cstr) : motion_system → Run (Z * motion_system) :=
  on_stream (-1) name (λ s,
    let p := statistics s in
    mret (0, set_statistics (mkStatistics (allocated_memory p) (allocated_memory p) (last_frame_start p)
      (last_processing_time p) f_zero f_zero 0) s)).
End operations.

(** ** Histories *)

Inductive motion_call :=
| Init
| Shutdown
| Configure (name : option cstr) (sens area : spec_float) (cooldown : Z)
| ConfigureAdvanced (name : option cstr) (radius noise : Z) (use_grid : bool) (size history : Z)
| Optimize (name : option cstr) (downscale : bool) (factor : Z)
| SetEnabled (name : option cstr) (on : bool)
| IsEnabled (name : option cstr)
| Detect (zones : option (list detection_zone_t)) (start finish : Z * Z) (name : option cstr) (a : option arriving)
| MemoryUsage (name : option cstr)
| CpuUsage (name : option cstr)
| ResetStatistics (name : option cstr).

Section histories.
Context `{Heap}.

Definition perform (c : motion_call) (sys : motion_system) : Run motion_system :=
  match c with
  | Init => mret (init_motion_detection_system sys)
  | Shutdown => mret (shutdown_motion_detection_system sys)
  | Configure name sens area cooldown => snd <$> configure_motion_detection name sens area cooldown sys
  | ConfigureAdvanced name radius noise use_grid size history =>
      snd <$> configure_advanced_motion_detection name radius noise use_grid size history sys
  | Optimize name downscale factor => snd <$> configure_motion_detection_optimizations name downscale factor sys
  | SetEnabled name on => snd <$> set_motion_detection_enabled name on sys
  | IsEnabled name => snd <$> is_motion_detection_enabled name sys
  | Detect zones start finish name a => snd <$> detect_motion zones start finish name a [] sys
  | MemoryUsage name => snd <$> get_motion_detection_memory_usage name sys
  | CpuUsage name => snd <$> get_motion_detection_cpu_usage name sys
  | ResetStatistics name => snd <$> reset_motion_detection_statistics name sys
  end.

Fixpoint perform_all (cs : list motion_call) (sys : motion_system) : Run motion_system :=
  match cs with
  | [] => mret sys
  | c :: cs => sys ← perform c sys; perform_all cs sys
  end.
End histories.

(** ** Learning rates *)

Lemma clamped_dt last now :
  let dt := if last >? 0 then f_of_Z binary32 (now - last) else f_of_Z binary32 1 in
  let dt := if flt dt f_zero then f_zero else dt in
  nonneg (if fgt dt (f_of_Z binary32 5) then f_of_Z binary32 5 else dt).
Proof.
  cbv zeta. set (dt := if last >? 0 then _ else _). assert (dt ≠ S754_nan) as Hn by (unfold dt; case_match; apply f_of_Z_number).
  destruct (flt dt f_zero) eqn:E; [done|]. assert (nonneg dt) as Hp by (by destruct dt as [[]|[]| |[] m e]).
  by destruct (fgt dt (f_of_Z binary32 5)).
Qed.

Lemma learning_rate_alpha detected last now :
  ∃ alpha, f_to_int (fmul binary32 (learning_rate detected last now) (f_of_Z binary32 256)) = Some alpha ∧ 0 ≤ alpha ≤ 256.
Proof.
  unfold learning_rate. pose proof (clamped_dt last now) as Hdt. cbv zeta in *. set (dt := if fgt _ (f_of_Z binary32 5) then _ else _) in *.
  set (base := if detected then _ else _). set (rate := fmul binary32 base dt).
  assert (nonneg rate) as Hrate by (unfold rate, base; destruct detected; vm_compute (f_lit _ _ _); by apply fmul_nonneg).
  assert (∃ x, (if fgt rate (f_lit binary32 25 100) then f_lit binary32 25 100 else rate) = x ∧ is_float x ∧
    fge x (S754_zero false) = true ∧ fle x (S754_finite false 8388608 (-23 - 2)) = true) as (x & -> & Hf & Hge & Hle).
  { eexists. split; [reflexivity|]. destruct (fgt rate (f_lit binary32 25 100)) eqn:E; [done|].
    split; [apply fmul_is_float|]. split; [by apply nonneg_fge|].
    change (S754_finite false 8388608 (-23 - 2)) with (f_lit binary32 25 100).
    rewrite fle_fgt by (done || by apply nonneg_number). by rewrite E. }
  destruct (small_times_byte 2 x 256) as (z & E & Hz); [lia|done..|by right|]. by exists z.
Qed.

(** ** Runs *)

Lemma run_bind {A B} (m : Run A) (f : A → Run B) k a k' : m k = Some (a, k') → (m ≫= f) k = f a k'.
Proof. intros E. unfold mbind, Run_bind. by rewrite E. Qed.

Lemma lift_bind {A B} (o : option A) (f : A → Run B) k a : o = Some a → (lift o ≫= f) k = f a k.
Proof. intros ->. done. Qed.

Lemma ret_bind {A B} (a : A) (f : A → Run B) k : (mret a ≫= f) k = f a k.
Proof. done. Qed.

Lemma alloc_bind `{Heap} {B} n (f : option frame → Run B) k : (alloc n ≫= f) k = f (malloc k n) (S k).
Proof. done. Qed.

(** ** What every operation keeps *)

Record config_ok (c : motion_config) : Prop := {
  sensitivity_ok : is_float (sensitivity c) ∧ in_unit (sensitivity c) = true;
  area_ok : in_unit (min_motion_area c) = true;
  cooldown_ok : 0 < cooldown_time c;
  blur_ok : 0 ≤ blur_radius c ≤ 5;
  noise_ok : 0 ≤ noise_threshold c ≤ 50;
  grid_ok : 2 ≤ grid_size c ≤ 32;
  history_ok : 1 ≤ history_size c ≤ 10;
  factor_ok : 1 ≤ downscale_factor c ≤ 4
}.

(** The buffers are all there, of the size that the stream remembers, or the
    next frame replaces them. *)
Record buffers_ok (c : motion_config) (b : motion_buffers) : Prop := {
  size_ok : 0 < width b ∧ 0 < height b;
  prev_ok : ∃ f, prev_frame b = Some f ∧ image (width b) (height b) f;
  blurred_ok : ∃ f, blur_buffer b = Some f ∧ Z.of_nat (length f) = width b * height b;
  background_ok : ∃ f, background b = Some f ∧ image (width b) (height b) f;
  ring_ok : ∀ l, frame_history b = Some l → Z.of_nat (length l) = history_size c ∧ 0 ≤ history_index b < history_size c;
  scores_ok : ∀ l, grid_scores b = Some l → Z.of_nat (length l) = grid_size c * grid_size c
}.

Definition stream_ok (s : motion_stream_t) : Prop :=
  config_ok (config s) ∧ (prev_frame (buffers s) = None ∨ buffers_ok (config s) (buffers s)).

Definition arriving_ok (a : arriving) : Prop :=
  0 < in_width a ≤ INT32_MAX ∧ 0 < in_height a ≤ INT32_MAX ∧ 0 < in_channels a ∧ bytes (frame_data a) ∧
  Z.of_nat (length (frame_data a)) = in_width a * in_height a * in_channels a.

(** The size at which a frame is processed. *)
Definition processed_size (c : motion_config) (a : arriving) : Z * Z :=
  if downscale_enabled c && (downscale_factor c >? 1)
  then (downscaled_size (in_width a) (downscale_factor c), downscaled_size (in_height a) (downscale_factor c))
  else (in_width a, in_height a).

Section safety.
Context `{Heap}.
Context (plentiful : ∀ k n, is_Some (malloc k n)).

Lemma malloc_some k n : 0 ≤ n → ∃ f, malloc k n = Some f ∧ Z.of_nat (length f) = n.
Proof. intros Hn. destruct (plentiful k n) as [f E]. exists f. split; [done|]. rewrite (malloc_length _ _ _ E). lia. Qed.

Lemma grey_frame_spec a k :
  arriving_ok a → ∃ r k', grey_frame a k = Some (r, k') ∧
    (∀ f, r = Some f → image (in_width a) (in_height a) f) ∧ (in_channels a = 1 ∨ in_channels a = 3 → is_Some r).
Proof.
  intros (Hw & Hh & Hc & Hb & Hl). unfold grey_frame.
  destruct (malloc_some k (in_width a * in_height a)) as (buf & Em & Hlen); [nia|].
  destruct (in_channels a =? 3) eqn:E3; unbool.
  - rewrite alloc_bind, Em. rewrite E3 in Hl.
    destruct (rgb_to_grayscale_image buf (frame_data a) (in_width a) (in_height a)) as (f & E & Hf); [lia..|done|].
    unfold lift. rewrite E. eexists _, _. split; [done|]. split; [by intros f' [= <-]|by eexists].
  - destruct (in_channels a =? 1) eqn:E1; unbool.
    + rewrite alloc_bind, Em, (lift_bind _ _ _ (frame_data a)) by (apply copy_bytes_whole; nia).
      eexists _, _. split; [done|]. split; [|by eexists]. intros f [= <-]. split; [nia|done].
    + eexists _, _. split; [done|]. split; [done|lia].
Qed.

Lemma processing_spec c a gray k :
  config_ok c → 0 < in_width a → 0 < in_height a → image (in_width a) (in_height a) gray →
  ∃ f k', processing c a gray k = Some (f, (processed_size c a).1, (processed_size c a).2, k') ∧
    image (processed_size c a).1 (processed_size c a).2 f ∧ 0 < (processed_size c a).1 ∧ 0 < (processed_size c a).2.
Proof.
  intros Hc Hw Hh Hg. unfold processing, processed_size.
  destruct (downscale_enabled c && (downscale_factor c >? 1)) eqn:E; [|by exists gray, k].
  unbool. pose proof (downscaled_size_pos (in_width a) (downscale_factor c)).
  pose proof (downscaled_size_pos (in_height a) (downscale_factor c)).
  assert ((downscale_factor c <=? 1) = false) as E1 by (apply Z.leb_gt; lia).
  destruct (malloc_some k (downscale_bytes (in_width a) (in_height a) (downscale_factor c))) as (buf & Em & Hlen).
  { unfold downscale_bytes. rewrite E1. nia. }
  rewrite alloc_bind, Em.
  destruct (downscale_grayscale_image buf gray (in_width a) (in_height a) (downscale_factor c) Hg Hlen)
    as (f & w & h & E & Hf & -> & ->). rewrite E1 in *. rewrite (lift_bind _ _ _ _ E).
  exists f, (S k). cbn [fst snd default]. split; [done|]. split; [done|lia].
Qed.

Lemma reset_buffers_spec s f w h k :
  config_ok (config s) → 0 < w → 0 < h → image w h f →
  ∃ s' k', reset_buffers s f w h k = Some (0, s', k') ∧ stream_ok s' ∧ config s' = config s ∧
    prev_frame (buffers s') = Some f ∧ width (buffers s') = w ∧ height (buffers s') = h.
Proof.
  intros Hc Hw Hh [Hlf Hbf]. pose proof (history_ok _ Hc). pose proof (grid_ok _ Hc).
  unfold reset_buffers. assert (0 ≤ w * h) by nia.
  destruct (malloc_some k (w * h)) as (prev & E1 & L1); [done|]. rewrite alloc_bind, E1.
  destruct (malloc_some (S k) (w * h)) as (blur & E2 & L2); [done|]. rewrite alloc_bind, E2.
  destruct (malloc_some (S (S k)) (w * h)) as (bg & E3 & L3); [done|]. rewrite alloc_bind, E3.
  rewrite !(lift_bind _ _ _ f) by (by apply copy_bytes_whole).
  assert (∃ p k', (if use_grid_detection (config s) then alloc (grid_size (config s) * grid_size (config s) * sizeof_float)
    else mret None) (S (S (S k))) = Some (p, k') ∧ (use_grid_detection (config s) && negb (bool_decide (is_Some p)) = false))
    as (p & k1 & Ep & Hp).
  { destruct (use_grid_detection (config s)); [|by eexists _, _].
    destruct (plentiful (S (S (S k))) (grid_size (config s) * grid_size (config s) * sizeof_float)) as [x E].
    unfold alloc. rewrite E. by eexists _, _. }
  rewrite (run_bind _ _ _ _ _ Ep), Hp, alloc_bind.
  destruct (plentiful k1 (history_size (config s) * sizeof_frame_history)) as [x ->].
  eexists _, _. split; [done|]. split; [|done]. split; [done|]. right. split; cbn.
  - done.
  - exists f. done.
  - exists blur. done.
  - exists f. done.
  - intros l [= <-]. rewrite length_replicate. lia.
  - intros l. destruct (use_grid_detection (config s)); [|done]. intros [= <-]. rewrite length_replicate. nia.
Qed.

Lemma zone_mask_for_spec zones gs k :
  2 ≤ gs ≤ 32 → ∃ n mask, build_motion_zone_mask zones gs (replicate 1024 false) = Some (n, mask) ∧
    zone_mask_for zones gs k = Some (Some mask, k) ∧ length mask = 1024%nat.
Proof.
  intros Hgs.
  assert (∃ n mask, build_motion_zone_mask zones gs (replicate 1024 false) = Some (n, mask) ∧ length mask = 1024%nat)
    as (n & mask & E & Hl).
  { unfold build_motion_zone_mask. rewrite (proj2 (Z.leb_gt _ _)) by lia.
    assert (∀ z, ∃ mask, (zone_mask ← fill_mask 0 (Z.to_nat (gs * gs)) (replicate 1024 false); Some (z : Z, zone_mask))
      = Some (z, mask) ∧ length mask = 1024%nat) as Hfill.
    { intros z. destruct (fill_mask_spec (Z.to_nat (gs * gs)) 0 (replicate 1024 false)) as (mask & -> & Hl & _);
        [lia|rewrite length_replicate; nia|]. eexists. split; [done|]. by rewrite Hl, length_replicate. }
    destruct zones as [zones|]; [|destruct (Hfill (-1)) as (mask & E & Hl); by exists (-1), mask].
    destruct (_ || _); [destruct (Hfill 0) as (mask & E & Hl); by exists 0, mask|].
    destruct (mask_rows_spec zones gs (Z.to_nat gs) 0 (replicate 1024 false)) as (mask & -> & Hl & _);
      [lia..|rewrite length_replicate; nia|]. eexists _, _. split; [done|]. by rewrite Hl, length_replicate. }
  exists n, mask. split; [done|]. split; [|done]. unfold zone_mask_for. rewrite (proj2 (Z.leb_le _ _)) by nia.
  by rewrite ret_bind, (lift_bind _ _ _ _ E).
Qed.

(** Two streams that differ in the history only. *)
Definition same_but_history (s s' : motion_stream_t) : Prop :=
  set_buffers (buffers s) s' = s ∧
  (prev_frame (buffers s'), blur_buffer (buffers s'), background (buffers s'), grid_scores (buffers s'))
  = (prev_frame (buffers s), blur_buffer (buffers s), background (buffers s), grid_scores (buffers s)) ∧
  (width (buffers s'), height (buffers s')) = (width (buffers s), height (buffers s)).

Lemma add_frame_to_history_spec s f t k :
  buffers_ok (config s) (buffers s) → image (width (buffers s)) (height (buffers s)) f →
  ∃ s' k', add_frame_to_history s f t k = Some (s', k') ∧ same_but_history s s' ∧ buffers_ok (config s) (buffers s').
Proof.
  intros Hb Hf. unfold add_frame_to_history. destruct (frame_history (buffers s)) as [l|] eqn:El.
  2:{ exists s, k. split; [done|]. split; [|done]. split; [by destruct s|done]. }
  destruct (ring_ok _ _ Hb l El) as [Hlen Hidx].
  assert (∃ old, aget l (history_index (buffers s)) = Some old) as [old Eold].
  { unfold aget. rewrite (proj2 (Z.leb_le _ _)) by lia. apply lookup_lt_is_Some_2. lia. }
  rewrite (lift_bind _ _ _ _ Eold), alloc_bind. destruct (size_ok _ _ Hb) as [Hw Hh]. destruct Hf as [Hlf _].
  destruct (malloc_some k (width (buffers s) * height (buffers s))) as (buf & -> & Lbuf); [nia|].
  rewrite (lift_bind _ _ _ f) by (by apply copy_bytes_whole).
  destruct (aset l (history_index (buffers s)) (mkHistory (Some f) t)) as [l'|] eqn:E.
  2:{ unfold aset in E. rewrite (proj2 (andb_true_iff _ _)) in E by (split; [apply Z.leb_le|apply Z.ltb_lt]; lia). done. }
  rewrite (lift_bind _ _ _ l') by done. apply aset_inv in E as [_ ->]. eexists _, _. split; [done|].
  split; [split; [by destruct s|done]|]. destruct Hb. split; cbn; [done..| |done].
  intros l2 [= <-]. rewrite length_insert. split; [done|]. unfold cmod. rewrite Z.rem_mod_nonneg by lia.
  apply Z.mod_pos_bound. lia.
Qed.

Lemma remember_frame_spec s blur scores detected now k :
  buffers_ok (config s) (buffers s) → image (width (buffers s)) (height (buffers s)) blur →
  (∀ l, scores = Some l → Z.of_nat (length l) = grid_size (config s) * grid_size (config s)) →
  ∃ s' k', remember_frame s blur scores detected now (width (buffers s)) (height (buffers s)) k = Some (s', k') ∧
    config s' = config s ∧ buffers_ok (config s) (buffers s') ∧ grid_scores (buffers s') = scores ∧
    prev_frame (buffers s') = Some blur ∧
    width (buffers s') = width (buffers s) ∧ height (buffers s') = height (buffers s).
Proof.
  intros Hb Hblur Hscores. unfold remember_frame.
  set (s1 := set_buffers _ s). assert (buffers_ok (config s1) (buffers s1)) as Hb1.
  { destruct Hb. split; cbn; try done. exists blur. split; [done|apply Hblur]. }
  destruct (add_frame_to_history_spec s1 blur now k Hb1) as (s2 & k' & E & (Hs2 & Hsame & Hdim) & Hb2); [done|].
  rewrite (run_bind _ _ _ _ _ E). clear E.
  assert (config s2 = config s) as Hc2 by (exact (f_equal config Hs2)).
  simplify_eq/=. destruct (size_ok _ _ Hb) as [Hw Hh].
  destruct (background_ok _ _ Hb2) as (bg & Ebg & Hbg). rewrite (lift_bind _ _ _ _ Ebg).
  rename select (width (buffers s2) = _) into Ew. rename select (height (buffers s2) = _) into Eh. rewrite Ew, Eh in Hbg.
  destruct (learning_rate_alpha detected (last_background_update_time s2) now) as (alpha & Ealpha & Halpha).
  destruct (update_background_model_spec bg blur (width (buffers s)) (height (buffers s)) _ alpha Hbg Hblur ltac:(lia) ltac:(lia)
    Ealpha Halpha) as (bg' & Ebg' & Hbg' & _).
  rewrite (lift_bind _ _ _ _ Ebg').
  destruct (prev_ok _ _ Hb2) as (prev & Eprev & Hprev). rewrite (lift_bind _ _ _ _ Eprev).
  rewrite (lift_bind _ _ _ blur) by (apply copy_bytes_whole; [apply Hblur|rewrite <-Ew, <-Eh; apply Hprev]).
  eexists _, _. split; [done|]. cbn. split; [done|]. split; [|done]. split; cbn; rewrite ?Ew, ?Eh; try done.
  - exists blur. done.
  - exists blur. split; [done|apply Hblur].
  - exists bg'. done.
  - apply (ring_ok _ _ Hb2).
Qed.

Lemma sensitivity_threshold c :
  config_ok c → ∃ threshold, f_to_int (fmul binary32 (sensitivity c) (f_of_Z binary32 255)) = Some threshold.
Proof.
  intros Hc. destruct (sensitivity_ok _ Hc) as [Hf Hu]. unfold in_unit in Hu. unbool.
  destruct (small_times_byte 0 (sensitivity c) 255) as (z & E & _); [lia|done| | |by left|by exists z].
  - apply nonneg_fge. by destruct (sensitivity c) as [[]|[]| |[] m e].
  - done.
Qed.

(** The grid: an area above the threshold is enough. *)
Lemma compare_grid zones s blur k :
  config_ok (config s) → buffers_ok (config s) (buffers s) → use_grid_detection (config s) = true →
  image (width (buffers s)) (height (buffers s)) blur → width (buffers s) * height (buffers s) < 2 ^ 64 →
  ∃ prev bg n mask threshold,
    prev_frame (buffers s) = Some prev ∧ background (buffers s) = Some bg ∧
    build_motion_zone_mask zones (grid_size (config s)) (replicate 1024 false) = Some (n, mask) ∧
    f_to_int (fmul binary32 (sensitivity (config s)) (f_of_Z binary32 255)) = Some threshold ∧
    match grid_scores (buffers s) with
    | None => compare_frames zones s blur (width (buffers s)) (height (buffers s)) k = Some (false, f_zero, None, k)
    | Some scores =>
        let score := score_of blur prev bg (width (buffers s)) (height (buffers s)) threshold (noise_threshold (config s))
                       (grid_size (config s)) (zone_test (Some mask)) in
        let active := length (filter (λ c, fgt (score c) one_percent = true) (grid_cells (grid_size (config s)))) in
        let total := length (filter (λ c, zone_test (Some mask) (c.1 * grid_size (config s) + c.2) = true)
                               (grid_cells (grid_size (config s)))) in
        ∃ peak scores', compare_frames zones s blur (width (buffers s)) (height (buffers s)) k
          = Some ((0 <? total)%nat && fge (ratio (Z.of_nat active) (Z.of_nat total)) (min_motion_area (config s)), peak, Some scores', k) ∧
          Z.of_nat (length scores') = grid_size (config s) * grid_size (config s) ∧
          (∀ c, c ∈ grid_cells (grid_size (config s)) → aget scores' (c.1 * grid_size (config s) + c.2) = Some (score c))
    end.
Proof.
  intros Hc Hb Hg Hblur Hsmall. destruct (prev_ok _ _ Hb) as (prev & Eprev & Hprev).
  destruct (background_ok _ _ Hb) as (bg & Ebg & Hbg). pose proof (grid_ok _ Hc) as Hgrid.
  destruct (zone_mask_for_spec zones (grid_size (config s)) k Hgrid) as (n & mask & Emask & Erun & Hmask).
  destruct (sensitivity_threshold (config s) Hc) as [threshold Ethr].
  exists prev, bg, n, mask, threshold. do 4 (split; [done|]).
  assert (fge (S754_zero false) (min_motion_area (config s)) = false) as Hmin.
  { pose proof (area_ok _ Hc) as Hu. unfold in_unit in Hu. unbool.
    by destruct (min_motion_area (config s)) as [[]|[]| |[] m e]. }
  assert (compare_frames zones s blur (width (buffers s)) (height (buffers s)) k
    = (r ← lift (calculate_grid_motion blur prev bg (width (buffers s)) (height (buffers s)) (sensitivity (config s))
                   (noise_threshold (config s)) (grid_size (config s)) (grid_scores (buffers s)) f_zero (Some mask));
       let '(score, area, scores) := r in
       mret (fge area (min_motion_area (config s)) && fgt score one_percent, score, scores)) k) as Hrun.
  { unfold compare_frames. rewrite (lift_bind _ _ _ _ Eprev), (lift_bind _ _ _ _ Ebg), Hg.
    by rewrite (run_bind _ _ _ _ _ Erun). }
  destruct (grid_scores (buffers s)) as [scores|] eqn:Escores.
  2:{ rewrite Hrun, (lift_bind _ _ _ (S754_zero false, f_zero, None)) by done. unfold f_zero. by rewrite Hmin. }
  destruct (size_ok _ _ Hb) as [Hw Hh]. cbv zeta.
  destruct (calculate_grid_motion_spec blur prev bg (width (buffers s)) (height (buffers s)) threshold
    (noise_threshold (config s)) (grid_size (config s)) Hblur Hprev Hbg ltac:(lia) ltac:(lia) ltac:(lia)
    (sensitivity (config s)) scores f_zero (Some mask) Ethr) as (peak & scores' & E & Hlen & Hat & H0 & H1).
  { by apply (scores_ok _ _ Hb). }
  { intros m [= <-]. nia. }
  exists peak, scores'. split; [|done]. rewrite Hrun. rewrite (lift_bind _ _ _ _ E). unfold mret, Run_ret.
  do 4 f_equal. unfold moving in *.
  match goal with |- context [(?t =? 0)%nat] => set (total := t) in * end.
  match goal with |- context [ratio (Z.of_nat ?a) _] => set (active := a) in * end.
  destruct (Nat.eqb_spec total 0) as [Et|Et]; [by rewrite Et, Hmin|].
  rewrite (proj2 (Nat.ltb_lt _ _)) by lia. cbn [andb]. destruct (decide (active = 0%nat)) as [Ea|Ea].
  - rewrite Ea. unfold ratio. rewrite fdiv_zero, Hmin; [done|]. split; [lia|].
    assert (Z.of_nat total ≤ 32 * 32) as Ht; [|lia].
    assert (total ≤ length (grid_cells (grid_size (config s))))%nat by apply length_filter.
    unfold grid_cells in *. rewrite length_nested in *. unfold range in *. rewrite length_seqZ in *. nia.
  - rewrite H1 by lia. apply andb_true_r.
Qed.

Lemma changed_share_defined curr prev bg w h sens noise :
  0 ≤ w → 0 ≤ h → image w h curr → image w h prev → image w h bg → is_Some (changed_share curr prev bg w h sens noise).
Proof.
  intros Hw Hh Hc Hp Hb. unfold changed_share.
  match goal with |- context [for_in ?l ?body ?s] =>
    destruct (for_in_keeps (λ _, True) l body s) as (n & -> & _); [done| |by eexists] end.
  intros y s Hy%elem_of_range2 _. apply for_in_keeps; [done|]. intros x s' Hx%elem_of_range2 _.
  rewrite (pixel_diff_spec curr prev bg w h) by (done || lia). by eexists.
Qed.

(** What a frame reports, given how it compares. *)
Definition reported (c : motion_config) (detected : bool) (peak : spec_float) (scores : option (list spec_float))
    (result : detection_result_t) : Prop :=
  if negb detected then result = [] else
  if use_grid_detection c then ∃ l, scores = Some l ∧ reports_components (grid_size c) l result
  else result = [full_frame_detection peak].

Lemma report_spec s detected peak k :
  config_ok (config s) →
  (detected = true → use_grid_detection (config s) = true →
    ∃ l, grid_scores (buffers s) = Some l ∧ Z.of_nat (length l) = grid_size (config s) * grid_size (config s) ∧
      Forall (λ x, x ≠ S754_nan) l) →
  ∃ result, (if detected then report s peak else mret []) k = Some (result, k) ∧
    reported (config s) detected peak (grid_scores (buffers s)) result.
Proof.
  intros Hc Hscores. destruct detected; [|by exists []]. unfold report, reported. cbn [negb].
  pose proof (grid_ok _ Hc). destruct (use_grid_detection (config s)); [|by eexists].
  rewrite (proj2 (Z.gtb_lt _ _)) by lia. cbn [andb]. destruct Hscores as (l & El & Hlen & Hnum); [done..|].
  rewrite (lift_bind _ _ _ _ El). destruct (motion_regions_spec (grid_size (config s)) l) as (r & E & Hr); [lia|done..|].
  unfold lift. rewrite E. exists r. split; [done|]. by exists l.
Qed.

Lemma analyse_spec zones s f now start finish memory k :
  config_ok (config s) → buffers_ok (config s) (buffers s) → image (width (buffers s)) (height (buffers s)) f →
  let w := width (buffers s) in let h := height (buffers s) in
  ∃ blur k1, image w h blur ∧
    (∀ y x, 0 ≤ y < h → 0 ≤ x < w → aget blur (y * w + x) = Some (box_blurred f w h (blur_radius (config s)) y x)) ∧
    ∀ detected peak scores, compare_frames zones s blur w h k1 = Some (detected, peak, scores, k1) →
      (∀ l, scores = Some l → Z.of_nat (length l) = grid_size (config s) * grid_size (config s)) →
      (detected = true → use_grid_detection (config s) = true → ∃ l, scores = Some l ∧ Forall (λ x, x ≠ S754_nan) l) →
      ∃ result s' k', analyse zones s f w h now start finish memory k = Some (0, result, s', k') ∧
        config s' = config s ∧ buffers_ok (config s) (buffers s') ∧ reported (config s) detected peak scores result ∧
        grid_scores (buffers s') = scores ∧ width (buffers s') = w ∧ height (buffers s') = h.
Proof.
  intros Hc Hb Hf w h. destruct (size_ok _ _ Hb) as [Hw Hh]. pose proof (blur_ok _ Hc) as Hr.
  destruct (blurred_ok _ _ Hb) as (dst & Edst & Hdst).
  assert (∃ temp k1, (if blur_radius (config s) <=? 0 then mret None else alloc (w * h)) k = Some (temp, k1) ∧
    (0 < blur_radius (config s) → ∃ t, temp = Some t ∧ Z.of_nat (length t) = w * h)) as (temp & k1 & Etemp & Htemp).
  { destruct (blur_radius (config s) <=? 0) eqn:E; unbool; [exists None, k; split; [done|lia]|].
    destruct (malloc_some k (w * h)) as (t & Et & Hlen); [unfold w, h; nia|]. unfold alloc. rewrite Et.
    eexists _, _. split; [done|]. intros _. by exists t. }
  destruct (apply_box_blur_spec temp f dst w h (blur_radius (config s))) as (blur & Eblur & Hblur & Hpix); [done|done|lia|done..|].
  exists blur, k1. split; [done|]. split; [done|]. intros detected peak scores Ecmp Hsized Hnum.
  unfold analyse. rewrite (lift_bind _ _ _ _ Edst), (run_bind _ _ _ _ _ Etemp), (lift_bind _ _ _ _ Eblur), (run_bind _ _ _ _ _ Ecmp).
  destruct (remember_frame_spec s blur scores detected now k1) as (s1 & k2 & Erem & Hc1 & Hb1 & Hs1 & _ & Hw1 & Hh1); [done..|].
  fold w h in Erem. rewrite (run_bind _ _ _ _ _ Erem).
  set (s2 := if detected then set_detection now s1 else s1).
  assert (config s2 = config s ∧ buffers s2 = buffers s1) as [Hc2 Hb2] by (unfold s2; by destruct detected).
  destruct (report_spec s2 detected peak k2) as (result & Eres & Hres).
  { by rewrite Hc2. }
  { rewrite Hc2, Hb2, Hs1. intros Hd Hg. destruct (Hnum Hd Hg) as (l & El & Hl). exists l. split; [done|]. split; [by apply Hsized|done]. }
  rewrite (run_bind _ _ _ _ _ Eres). eexists _, _, _. split; [done|]. rewrite Hc2, Hb2, Hs1 in Hres.
  cbn. by rewrite Hb2, Hc2.
Qed.

Lemma processed_small c a :
  config_ok c → arriving_ok a → (processed_size c a).1 * (processed_size c a).2 < 2 ^ 64.
Proof.
  intros Hc (Hw & Hh & _). unfold INT32_MAX in *. pose proof (factor_ok _ Hc).
  assert (∀ n, 0 < n ≤ 2147483647 → downscaled_size n (downscale_factor c) ≤ 2147483647) as Hd.
  { intros n Hn. unfold downscaled_size, cdiv. rewrite Z.quot_div_nonneg by lia. case_match; [lia|].
    apply Z.div_le_upper_bound; nia. }
  unfold processed_size. destruct (_ && _); cbn [fst snd]; [|nia].
  pose proof (Hd (in_width a) ltac:(lia)). pose proof (Hd (in_height a) ltac:(lia)).
  pose proof (downscaled_size_pos (in_width a) (downscale_factor c)).
  pose proof (downscaled_size_pos (in_height a) (downscale_factor c)). nia.
Qed.

(** A frame that the stream compares: after the first one of its size. *)
Definition compared (s : motion_stream_t) (a : arriving) : Prop :=
  enabled (config s) = true ∧
  (last_detection_time s ≤ 0 ∨ cooldown_time (config s) ≤ frame_time a - last_detection_time s) ∧
  (in_channels a = 1 ∨ in_channels a = 3) ∧
  is_Some (prev_frame (buffers s)) ∧ processed_size (config s) a = (width (buffers s), height (buffers s)).

Lemma detect_compared zones start finish a s k :
  stream_ok s → arriving_ok a → compared s a →
  ∃ gray f blur k1 k2 k3, grey_frame a k = Some (Some gray, k1) ∧
    processing (config s) a gray k1 = Some (f, width (buffers s), height (buffers s), k2) ∧
    image (width (buffers s)) (height (buffers s)) blur ∧ width (buffers s) * height (buffers s) < 2 ^ 64 ∧
    (∀ y x, 0 ≤ y < height (buffers s) → 0 ≤ x < width (buffers s) → aget blur (y * width (buffers s) + x)
      = Some (box_blurred f (width (buffers s)) (height (buffers s)) (blur_radius (config s)) y x)) ∧
    ∀ detected peak scores,
      compare_frames zones s blur (width (buffers s)) (height (buffers s)) k3 = Some (detected, peak, scores, k3) →
      (∀ l, scores = Some l → Z.of_nat (length l) = grid_size (config s) * grid_size (config s)) →
      (detected = true → use_grid_detection (config s) = true → ∃ l, scores = Some l ∧ Forall (λ x, x ≠ S754_nan) l) →
      ∃ result s' k', detect_in zones start finish a s k = Some (0, result, s', k') ∧
        config s' = config s ∧ buffers_ok (config s) (buffers s') ∧ reported (config s) detected peak scores result ∧
        grid_scores (buffers s') = scores ∧ width (buffers s') = width (buffers s) ∧ height (buffers s') = height (buffers s).
Proof.
  intros [Hc Hb] Ha (Hen & Hcool & Hch & Hprev & Hsize). destruct Hb as [E|Hb]; [rewrite E in Hprev; by destruct Hprev|].
  destruct (grey_frame_spec a k Ha) as (r & k1 & Egray & Himg & Hsome). destruct (Hsome Hch) as [gray ->].
  assert (0 < in_width a ∧ 0 < in_height a) as [Hiw Hih] by (destruct Ha as ((?&_)&(?&_)&_); done).
  destruct (processing_spec (config s) a gray k1 Hc Hiw Hih (Himg gray eq_refl)) as (f & k2 & Eproc & Hf & _).
  pose proof (processed_small (config s) a Hc Ha) as Hsmall. rewrite Hsize in *. cbn [fst snd] in *.
  destruct (analyse_spec zones (begin_frame start s) f (frame_time a) start finish
    (u64 (width (buffers s) * height (buffers s))) k2 Hc Hb Hf) as (blur & k3 & Hblur & Hpix & Hrun).
  exists gray, f, blur, k1, k2, k3. do 5 (split; [done|]). intros detected peak scores Ecmp Hsized Hnum.
  destruct (Hrun detected peak scores Ecmp Hsized Hnum) as (result & s' & k' & E & Hs'). exists result, s', k'. split; [|exact Hs'].
  unfold detect_in. change (config (begin_frame start s)) with (config s). change (buffers (begin_frame start s)) with (buffers s).
  change (last_detection_time (begin_frame start s)) with (last_detection_time s). rewrite Hen. cbn [negb].
  assert ((last_detection_time s >? 0) && (frame_time a - last_detection_time s <? cooldown_time (config s)) = false) as ->.
  { apply andb_false_iff. destruct Hcool; [left|right]; rewrite ?Z.gtb_ltb; apply Z.ltb_ge; lia. }
  rewrite (run_bind _ _ _ _ _ Egray), (run_bind _ _ _ _ _ Eproc), bool_decide_eq_true_2 by done.
  rewrite !Z.eqb_refl. exact E.
Qed.

Lemma compare_frames_defined zones s blur k :
  config_ok (config s) → buffers_ok (config s) (buffers s) →
  image (width (buffers s)) (height (buffers s)) blur → width (buffers s) * height (buffers s) < 2 ^ 64 →
  ∃ detected peak scores,
    compare_frames zones s blur (width (buffers s)) (height (buffers s)) k = Some (detected, peak, scores, k) ∧
    (∀ l, scores = Some l → Z.of_nat (length l) = grid_size (config s) * grid_size (config s)) ∧
    (detected = true → use_grid_detection (config s) = true → ∃ l, scores = Some l ∧ Forall (λ x, x ≠ S754_nan) l).
Proof.
  intros Hc Hb Hblur Hsmall. pose proof (grid_ok _ Hc). destruct (size_ok _ _ Hb) as [Hw Hh].
  destruct (use_grid_detection (config s)) eqn:Eg.
  - destruct (compare_grid zones s blur k Hc Hb Eg Hblur Hsmall) as (prev & bg & n & mask & threshold & Eprev & Ebg & _ & _ & Hcmp).
    destruct (grid_scores (buffers s)) as [scores|]; [|by eexists false, _, _].
    destruct Hcmp as (peak & scores' & E & Hlen & Hat). eexists _, _, _. split; [exact E|]. split; [by intros l [= <-]|].
    intros _ _. exists scores'. split; [done|]. destruct (prev_ok _ _ Hb) as (? & Ep & Hprev). destruct (background_ok _ _ Hb) as (? & Eb & Hbg).
    eapply scores_numbers; [..|exact Hat]; done || lia.
  - destruct (prev_ok _ _ Hb) as (prev & Ep & Hprev). destruct (background_ok _ _ Hb) as (bg & Eb & Hbg).
    destruct (changed_share_defined blur prev bg (width (buffers s)) (height (buffers s)) (sensitivity (config s))
      (noise_threshold (config s))) as [area Earea]; [lia..|done|done|done|].
    eexists _, _, _. unfold compare_frames. rewrite (lift_bind _ _ _ _ Ep), (lift_bind _ _ _ _ Eb), Eg, (lift_bind _ _ _ _ Earea).
    split; [done|]. split; [apply (scores_ok _ _ Hb)|]. done.
Qed.

Lemma reported_length c detected peak scores result : reported c detected peak scores result → (length result ≤ 20)%nat.
Proof.
  unfold reported. destruct (negb detected); [intros ->; simpl; lia|]. destruct (use_grid_detection c); [|intros ->; simpl; lia].
  intros (l & _ & L & extents & -> & Hlen & _). by rewrite length_fmap.
Qed.

Lemma detect_in_safe zones start finish a s k :
  stream_ok s → arriving_ok a →
  ∃ code result s' k', detect_in zones start finish a s k = Some (code, result, s', k') ∧ stream_ok s' ∧ (length result ≤ 20)%nat.
Proof.
  intros Hs Ha. assert (stream_ok (begin_frame start s)) as Hs0 by exact Hs. destruct Hs as [Hc Hb].
  unfold detect_in. change (config (begin_frame start s)) with (config s). change (buffers (begin_frame start s)) with (buffers s).
  change (last_detection_time (begin_frame start s)) with (last_detection_time s).
  destruct (enabled (config s)) eqn:Een; cbn [negb]; [|eexists 0, [], _, _; split; [done|]; split; [done|simpl; lia]].
  destruct ((last_detection_time s >? 0) && _) eqn:Ecool; [eexists 0, [], _, _; split; [done|]; split; [done|simpl; lia]|].
  destruct (grey_frame_spec a k Ha) as (r & k1 & Egray & Himg & Hsome). rewrite (run_bind _ _ _ _ _ Egray).
  destruct r as [gray|]; [|eexists (-1), [], _, _; split; [done|]; split; [done|simpl; lia]].
  assert (0 < in_width a ∧ 0 < in_height a) as [Hiw Hih] by (destruct Ha as ((?&_)&(?&_)&_); done).
  destruct (processing_spec (config s) a gray k1 Hc Hiw Hih (Himg gray eq_refl)) as (f & k2 & Eproc & Hf & Hpw & Hph).
  pose proof (processed_small (config s) a Hc Ha) as Hsmall.
  destruct (processed_size (config s) a) as [w h] eqn:Esize. cbn [fst snd] in *. rewrite (run_bind _ _ _ _ _ Eproc).
  destruct (_ || _ || _) eqn:Enew.
  - destruct (reset_buffers_spec (begin_frame start s) f w h k2 Hc Hpw Hph Hf) as (s' & k' & E & Hs' & _).
    rewrite (run_bind _ _ _ _ _ E). eexists 0, [], _, _. split; [done|]. split; [done|simpl; lia].
  - rewrite !orb_false_iff, !negb_false_iff in Enew. destruct Enew as [[Eprev Ew] Eh]. unbool. subst w h.
    destruct Hb as [E|Hb]; [rewrite E in Eprev; by destruct Eprev|].
    destruct (analyse_spec zones (begin_frame start s) f (frame_time a) start finish
      (u64 (width (buffers s) * height (buffers s))) k2 Hc Hb Hf) as (blur & k3 & Hblur & _ & Hrun).
    destruct (compare_frames_defined zones (begin_frame start s) blur k3 Hc Hb Hblur Hsmall) as (d & p & sc & Ecmp & Hsized & Hnum).
    destruct (Hrun d p sc Ecmp Hsized Hnum) as (result & s' & k' & E & Hc' & Hb' & Hres & _). exists 0, result, s', k'.
    split; [exact E|]. split; [|by apply (reported_length _ _ _ _ _ Hres)].
    change (config (begin_frame start s)) with (config s) in *. split; [by rewrite Hc'|right; by rewrite Hc'].
Qed.

Definition system_ok (sys : motion_system) : Prop :=
  Forall (λ slot, match slot with Some s => stream_ok s | None => True end) (motion_streams sys).

(** Arguments of C types: [float]s, and a buffer that is as long as announced. *)
Definition call_ok (c : motion_call) : Prop :=
  match c with
  | Configure _ sens _ _ => is_float sens
  | Detect _ _ _ _ (Some a) => 0 < in_width a → 0 < in_height a → 0 < in_channels a → arriving_ok a
  | _ => True
  end.

Lemma default_config_ok name : stream_ok (new_stream name).
Proof. split; [|by left]. split; vm_compute; (repeat split; done || (intros ?; done)). Qed.

Lemma on_stream_ok {A} (missing : A) name (f : motion_stream_t → Run (A * motion_stream_t)) sys k :
  system_ok sys →
  (∀ s k, stream_ok s → ∃ r s' k', f s k = Some (r, s', k') ∧ stream_ok s') →
  ∃ r sys' k', on_stream missing name f sys k = Some (r, sys', k') ∧ system_ok sys'.
Proof.
  intros Hsys Hf. unfold on_stream. destruct name as [name|]; [|by eexists _, _, _].
  assert (∃ slot sys1 k1, get_motion_stream name sys k = Some (slot, sys1, k1) ∧ system_ok sys1 ∧
    ∀ i, slot = Some i → ∃ s, motion_streams sys1 !! i = Some (Some s)) as (slot & sys1 & k1 & E & Hsys1 & Hslot).
  { unfold get_motion_stream. set (sys0 := if initialized sys then sys else init_motion_detection_system sys).
    assert (system_ok sys0) as H0.
    { unfold sys0, init_motion_detection_system. destruct (initialized sys); [done|]. by apply Forall_replicate. }
    destruct (find_idx (has_name name) (motion_streams sys0)) as [i|] eqn:Ei.
    { eexists _, _, _. split; [done|]. split; [done|]. intros j [= <-].
      apply find_idx_Some in Ei as (slot & Es & Ht & _). destruct slot as [s|]; [by exists s|done]. }
    destruct (find_idx is_free (motion_streams sys0)) as [i|] eqn:Efree; [|by eexists _, _, _].
    destruct (plentiful k sizeof_motion_stream) as [p Ep]. rewrite alloc_bind, Ep.
    eexists _, _, _. split; [done|]. split.
    - apply Forall_insert; [done|apply default_config_ok].
    - intros j [= <-]. eexists. cbn. apply list_lookup_insert_eq. by apply find_idx_lt in Efree. }
  rewrite (run_bind _ _ _ _ _ E). destruct slot as [i|]; [|by eexists _, _, _].
  destruct (Hslot i eq_refl) as [s Es].
  rewrite (lift_bind _ _ _ s) by (by rewrite Es).
  destruct (Hf s k1) as (r & s' & k' & Er & Hs').
  { by apply (Forall_lookup_1 _ _ _ _ Hsys1 Es). }
  rewrite (run_bind _ _ _ _ _ Er). eexists _, _, _. split; [done|]. by apply Forall_insert.
Qed.

Lemma configured_ok sens area cooldown c : is_float sens → config_ok c → config_ok (configured sens area cooldown c).
Proof.
  intros Hf []. split; cbn; try done.
  - destruct (in_unit sens) eqn:E; [done|]. by vm_compute.
  - destruct (in_unit area) eqn:E; [done|]. by vm_compute.
  - destruct (cooldown >? 0) eqn:E; unbool; [done|]. by vm_compute.
Qed.

Lemma configure_advanced_ok radius noise use_grid size history s :
  stream_ok s → stream_ok (configure_advanced radius noise use_grid size history s).
Proof.
  intros [[] Hb]. split.
  - split; cbn; try done; unfold DEFAULT_BLUR_RADIUS, DEFAULT_NOISE_THRESHOLD, DEFAULT_GRID_SIZE, DEFAULT_MOTION_HISTORY;
      case_match; unbool; lia.
  - destruct Hb as [E|[]]; [by left|right]. split; cbn; try done.
    + intros l. destruct (_ =? _) eqn:E; unbool; [|done]. rewrite E. apply ring_ok0.
    + intros l. destruct (_ =? _) eqn:E; unbool; [|done]. rewrite E. apply scores_ok0.
Qed.

Lemma optimized_ok downscale factor s : stream_ok s → stream_ok (optimized downscale factor s).
Proof.
  intros [[] Hb]. unfold optimized. split.
  - destruct (_ && _); split; cbn; try done; unfold DEFAULT_DOWNSCALE_FACTOR; case_match; unbool; lia.
  - destruct (_ && _); cbn; (destruct Hb as [E|[]]; [by left|right]); by split.
Qed.

Lemma set_enabled_ok on s : stream_ok s → stream_ok (set_enabled on s).
Proof.
  intros [[] Hb]. unfold set_enabled. split.
  - destruct (_ && _); by split.
  - destruct (_ && _); cbn; [by left|]. destruct Hb as [E|[]]; [by left|right]. by split.
Qed.

Lemma fmap_run {A B} (g : A → B) (m : Run A) k a k' : m k = Some (a, k') → (g <$> m) k = Some (g a, k').
Proof. intros E. unfold fmap, Run_fmap. by rewrite E. Qed.

Lemma perform_ok c sys k : system_ok sys → call_ok c → ∃ sys' k', perform c sys k = Some (sys', k') ∧ system_ok sys'.
Proof.
  intros Hsys Hc.
  assert (∀ A missing name (f : motion_stream_t → Run (A * motion_stream_t)),
    (∀ s k, stream_ok s → ∃ r s' k', f s k = Some (r, s', k') ∧ stream_ok s') →
    ∃ sys' k', (snd <$> on_stream missing name f sys) k = Some (sys', k') ∧ system_ok sys') as Hon.
  { intros A missing name f Hf. destruct (on_stream_ok missing name f sys k Hsys Hf) as (r & sys' & k' & E & H').
    rewrite (fmap_run _ _ _ _ _ E). by eexists _, _. }
  assert (∀ A missing name (f : motion_stream_t → A * motion_stream_t), (∀ s, stream_ok s → stream_ok (f s).2) →
    ∃ sys' k', (snd <$> on_stream missing name (λ s, mret (f s)) sys) k = Some (sys', k') ∧ system_ok sys') as Hpure.
  { intros A missing name f Hf. apply Hon. intros s k1 Hs. exists (f s).1, (f s).2, k1. split; [by destruct (f s)|auto]. }
  destruct c; cbn [perform].
  - eexists _, _. split; [done|]. unfold init_motion_detection_system. destruct (initialized sys); [done|]. by apply Forall_replicate.
  - eexists _, _. split; [done|]. unfold shutdown_motion_detection_system. destruct (initialized sys); [by apply Forall_replicate|done].
  - apply (Hpure _ _ _ (λ s, (0, set_config (configured sens area cooldown (config s)) s))). intros s [Hs Hb].
    split; [by apply configured_ok|]. destruct Hb as [E|[]]; [by left|right]. by split.
  - apply (Hpure _ _ _ (λ s, (0, configure_advanced radius noise use_grid size history s))). intros s. apply configure_advanced_ok.
  - apply (Hpure _ _ _ (λ s, (0, optimized downscale factor s))). intros s. apply optimized_ok.
  - apply (Hpure _ _ _ (λ s, (0, set_enabled on s))). intros s. apply set_enabled_ok.
  - by apply (Hpure _ _ _ (λ s, (enabled (config s), s))).
  - unfold detect_motion. destruct name as [name|]; [|by eexists _, _]. destruct a as [a|]; [|by eexists _, _].
    destruct (_ || _ || _) eqn:E; [by eexists _, _|]. rewrite !orb_false_iff in E. destruct E as [[Ew Eh] Ech]. unbool.
    assert (arriving_ok a) as Ha by (apply Hc; lia).
    edestruct (on_stream_ok (-1, []) (Some name) (λ s, '(code, result, s) ← detect_in zones start finish a s; mret ((code, result), s)) sys k Hsys)
      as (r & sys' & k' & E & H').
    { intros s k1 Hs. destruct (detect_in_safe zones start finish a s k1 Hs Ha) as (code & result & s' & k' & E & Hs' & _).
      rewrite (run_bind _ _ _ _ _ E). eexists _, _, _. done. }
    rewrite (fmap_run _ _ k (r.1, r.2, sys') k'); [by eexists _, _|]. rewrite (run_bind _ _ _ _ _ E). by destruct r.
  - by apply (Hpure _ _ _ (λ s, (Some (allocated_memory (statistics s), peak_memory (statistics s)), s))).
  - by apply (Hpure _ _ _ (λ s, (Some (avg_processing_time (statistics s), peak_processing_time (statistics s)), s))).
  - by apply (Hpure _ _ _ (λ s, (0, set_statistics (mkStatistics (allocated_memory (statistics s)) (allocated_memory (statistics s))
      (last_frame_start (statistics s)) (last_processing_time (statistics s)) f_zero f_zero 0) s))).
Qed.

Definition at_boot : motion_system := mkSystem (replicate MAX_MOTION_STREAMS None) false.



(** ** A change of the grid *)

(** The frames of a stream, one after the other: what each reports. *)
Fixpoint watch (zones : option (list detection_zone_t)) (start finish : Z * Z) (frames : list arriving) (s : motion_stream_t)
    : Run (list detection_result_t * motion_stream_t) :=
  match frames with
  | [] => mret ([], s)
  | a :: frames =>
      '(_, result, s) ← detect_in zones start finish a s;
      '(results, s) ← watch zones start finish frames s;
      mret (result :: results, s)
  end.

(** The grid is on and its scores are gone. *)
Definition blind (w h : Z) (c : motion_config) (s : motion_stream_t) : Prop :=
  stream_ok s ∧ config s = c ∧ use_grid_detection c = true ∧ grid_scores (buffers s) = None ∧
  is_Some (prev_frame (buffers s)) ∧ width (buffers s) = w ∧ height (buffers s) = h.

Lemma blind_step zones start finish a w h c s k :
  blind w h c s → arriving_ok a → in_channels a = 1 ∨ in_channels a = 3 → processed_size c a = (w, h) →
  ∃ code s' k', detect_in zones start finish a s k = Some (code, [], s', k') ∧ blind w h c s'.
Proof.
  intros Hbl Ha Hch Hsize. pose proof Hbl as (Hs & Ec & Hg & Hnone & Hprev & Hw & Hh).
  destruct (decide (enabled (config s) = true)) as [Hen|Hen]; [|apply not_true_iff_false in Hen].
  2:{ exists 0, (begin_frame start s), k. unfold detect_in. change (config (begin_frame start s)) with (config s).
      rewrite Hen. split; [done|exact Hbl]. }
  destruct (decide (last_detection_time s ≤ 0 ∨ cooldown_time (config s) ≤ frame_time a - last_detection_time s)) as [Hcool|Hcool].
  2:{ exists 0, (begin_frame start s), k. unfold detect_in. change (config (begin_frame start s)) with (config s).
      change (last_detection_time (begin_frame start s)) with (last_detection_time s). rewrite Hen. cbn [negb].
      rewrite (proj2 (Z.gtb_lt _ _)), (proj2 (Z.ltb_lt _ _)) by lia. split; [done|exact Hbl]. }
  assert (compared s a) as Hcmp by (split_and!; [done..|by rewrite Ec, Hw, Hh]).
  destruct (detect_compared zones start finish a s k Hs Ha Hcmp)
    as (gray & f & blur & k1 & k2 & k3 & Egray & Eproc & Hblur & Hsmall & _ & Hrun).
  destruct Hs as [Hc [E|Hb]]; [rewrite E in Hprev; by destruct Hprev|]. rewrite <-Ec in Hg.
  destruct (compare_grid zones s blur k3 Hc Hb Hg Hblur Hsmall) as (prev & bg & n & mask & threshold & _ & _ & _ & _ & Hsc).
  rewrite Hnone in Hsc. destruct (Hrun _ _ _ Hsc) as (result & s' & k' & E & Hc' & Hb' & Hres & Hs' & Hw' & Hh'); [done..|].
  cbn in Hres. subst result. exists 0, s', k'. split; [exact E|].
  split; [split; [by rewrite Hc'|right; by rewrite Hc']|]. destruct (prev_ok _ _ Hb') as (p & Ep & _).
  split_and!; [congruence|by rewrite <-Ec|done|by rewrite Ep|congruence..].
Qed.

Lemma blind_watch zones start finish w h c frames s :
  blind w h c s →
  Forall (λ a, arriving_ok a ∧ (in_channels a = 1 ∨ in_channels a = 3) ∧ processed_size c a = (w, h)) frames →
  ∀ k, ∃ s' k', watch zones start finish frames s k = Some (replicate (length frames) [], s', k').
Proof.
  intros Hbl Hframes. revert s Hbl. induction Hframes as [|a frames (Ha & Hch & Hsize) _ IH]; intros s Hbl k; [by eexists _, _|].
  destruct (blind_step zones start finish a w h c s k Hbl Ha Hch Hsize) as (code & s1 & k1 & E & Hbl1).
  destruct (IH s1 Hbl1 k1) as (s2 & k2 & E2). exists s2, k2. cbn [watch length replicate].
  by rewrite (run_bind _ _ _ _ _ E), (run_bind _ _ _ _ _ E2).
Qed.

(** Changing the size of the grid turns motion detection off.  The scores of
    the old grid are released and nothing allocates new ones while the frames
    keep their size: from then on every frame of that size reports nothing,
    whatever it shows. *)
Theorem grid_change_blinds zones start finish s radius noise size history frames k :
  stream_ok s → is_Some (prev_frame (buffers s)) → 2 ≤ size ≤ 32 → size ≠ grid_size (config s) →
  Forall (λ a, arriving_ok a ∧ (in_channels a = 1 ∨ in_channels a = 3) ∧
    processed_size (config s) a = (width (buffers s), height (buffers s))) frames →
  ∃ s' k', watch zones start finish frames (configure_advanced radius noise true size history s) k
    = Some (replicate (length frames) [], s', k').
Proof.
  intros Hs Hprev Hsize Hnew Hframes. set (s1 := configure_advanced _ _ _ _ _ s).
  assert (blind (width (buffers s)) (height (buffers s)) (config s1) s1) as Hbl.
  { split; [by apply configure_advanced_ok|]. do 2 (split; [done|]). split; [|done].
    cbn. rewrite (proj2 (Z.geb_le size 2)), (proj2 (Z.leb_le size 32)) by lia. cbn [andb].
    by rewrite (proj2 (Z.eqb_neq _ _)). }
  revert k. apply (blind_watch zones start finish _ _ _ _ _ Hbl). exact Hframes.
Qed.
End safety.

(** ** Examples *)

(** A heap that never fails, and one whose allocation number [n] fails. *)
Definition example_heap_but (n : nat) : Heap.
Proof.
  refine {| malloc k size := if (k =? n)%nat then None else Some (replicate (Z.to_nat size) 85) |}.
  intros k size f. destruct (k =? n)%nat; [done|]. intros [= <-]. rewrite length_replicate. lia.
Defined.

Definition example_heap : Heap.
Proof.
  refine {| malloc k size := Some (replicate (Z.to_nat size) 85) |}.
  intros k size f [= <-]. rewrite length_replicate. lia.
Defined.

Lemma example_plentiful k n : is_Some (@malloc example_heap k n).
Proof. by eexists. Qed.

Definition example_config : motion_config :=
  mkConfig DEFAULT_SENSITIVITY DEFAULT_MIN_MOTION_AREA DEFAULT_COOLDOWN_TIME 1 10 true 2 2 true false 1.

Definition example_start : motion_stream_t := mkMotion (lit "front") example_config no_buffers 0 0 no_statistics.

(** The left half of a square is dark, and the right half [v]. *)
Definition edge (n v t : Z) : arriving :=
  mkArriving ((λ k, if k `mod` n <? n / 2 then 0 else v) <$> seqZ 0 (n * n)) n n 1 t.

(** A scene that stands still: the first frame is remembered as it is, the second
    one blurred, and the difference along the edge is motion. *)
Example still_scene_reported :
  option_map (λ r, map (λ l, length l) r.1.1)
    (@watch example_heap None (0, 0) (0, 0) [edge 8 255 10; edge 8 255 11] example_start 0%nat)
  = Some [0%nat; 1%nat].
Proof. vm_compute. reflexivity. Qed.

(** The scores of the second frame cannot be allocated: the buffers have its size
    and the stream remembers the size of the first, so that the third frame is
    written behind the end of the buffers. *)
Example failed_allocation_overflows :
  is_Some (@watch (example_heap_but 10) None (0, 0) (0, 0) [edge 4 255 10; edge 2 255 11] example_start 0%nat) ∧
  @watch (example_heap_but 10) None (0, 0) (0, 0) [edge 4 255 10; edge 2 255 11; edge 4 255 12] example_start 0%nat = None.
Proof. split; [eexists|]; vm_compute; reflexivity. Qed.

(** A stream without a name takes a new slot on every call, until there are none. *)
Example empty_name_fills_table :
  (sys ← @perform_all example_heap (replicate 256 (IsEnabled (Some []))) at_boot;
   r ← @configure_motion_detection example_heap (Some (lit "front")) DEFAULT_SENSITIVITY DEFAULT_MIN_MOTION_AREA 3 sys;
   mret r.1) 0%nat = Some (-1, 256%nat).
Proof. vm_compute. reflexivity. Qed.

(** ** The hypotheses of the theorems can hold *)

Definition example_stream : motion_stream_t :=
  mkMotion (lit "front") example_config
    (mkBuffers (Some (replicate 16 0)) (Some (replicate 16 0)) (Some (replicate 16 0)) None 0 (Some (replicate 4 f_zero)) 4 4 1 4 4)
    0 0 no_statistics.

Lemma black_image : image 4 4 (replicate 16 0).
Proof. split; [done|]. apply Forall_replicate. lia. Qed.

Lemma example_stream_ok : stream_ok example_stream.
Proof.
  split.
  - split; vm_compute; (repeat split; done || (intros ?; done)).
  - right. split; cbn; [done|eexists; split; [done|apply black_image]|by eexists|eexists; split; [done|apply black_image]|done|].
    by intros l [= <-].
Qed.

Lemma edge_ok : arriving_ok (edge 4 255 10).
Proof.
  split; [done|]. split; [done|]. split; [done|]. split; [|vm_compute; reflexivity].
  apply Forall_fmap, Forall_forall. intros k _. cbn. case_match; lia.
Qed.

Lemma example_compared : compared example_stream (edge 4 255 10).
Proof. split_and!; [done|by left|by left|by eexists|done]. Qed.



Lemma grid_change_blinds_witness :
  ∃ s' k', @watch example_heap None (0, 0) (0, 0) [edge 4 255 10] (configure_advanced 1 10 true 3 2 example_stream) 0%nat
    = Some ([[]], s', k').
Proof.
  apply (@grid_change_blinds example_heap example_plentiful None (0, 0) (0, 0) example_stream 1 10 3 2 [edge 4 255 10] 0%nat).
  - apply example_stream_ok.
  - by eexists.
  - lia.
  - done.
  - constructor; [|constructor]. split; [apply edge_ok|]. split; [by left|done].
Defined.
