(* ===== verification/UnifiedDetection.v ===== *)
(** * The detection thread: [src/video/unified_detection_thread.c]

    One thread per stream reads packets, keeps the last seconds of them, runs
    detection and decides when to record.  A context is the record [ctx]; what
    the thread does to files, the database and the metrics is the list
    [effects] it appends to.  Clocks, FFmpeg and the services answer through
    the arguments of each step.  The pre-detection buffer is the interface
    [PreBuffer]; [PacketBuffer] implements it at the end of this file. *)
From Stdlib Require Import ZArith Lia Bool.
From Stdlib Require Import SpecFloat.
From Stdlib Require Import Strings.Byte.
From stdpp Require Import base numbers list strings sets gmap.
From S2P Require Import Prelude.
From S2P Require Import CFloat.
From S2P Require Import ZoneFilter.
From S2P Require Import PacketBuffer.
#[local] Open Scope Z_scope.

(** ** Constants and states *)

Definition BASE_RECONNECT_DELAY_MS : Z := 500.
Definition MAX_RECONNECT_DELAY_MS : Z := 30000.
Definition MAX_PACKET_TIMEOUT_SEC : Z := 10.
Definition FPS_MEASUREMENT_WINDOW_SEC : Z := 5.

Inductive unified_detection_state_t :=
  | UDT_STATE_INITIALIZING | UDT_STATE_CONNECTING | UDT_STATE_BUFFERING | UDT_STATE_RECORDING
  | UDT_STATE_POST_BUFFER | UDT_STATE_RECONNECTING | UDT_STATE_STOPPING | UDT_STATE_STOPPED.

#[global] Instance unified_detection_state_eq_dec : EqDecision unified_detection_state_t.
Proof. solve_decision. Defined.

(** ** The pre-detection buffer *)

(** [packet_buffer_add_packet], [packet_buffer_clear], [packet_buffer_flush]
    and the duration of [packet_buffer_get_stats], on the buffer of a stream. *)
Class PreBuffer (B : Type) := {
  pre_add : B → AVPacket → Z → B;
  pre_clear : B → B;
  pre_flush : ∀ U, B → (AVPacket → U → Z * U) → U → B * U;
  pre_duration : B → Z
}.
Arguments pre_flush {B _ U} _ _ _.

(** What the recorder relies on: the buffer holds a queue of timed packets; a
    packet is added behind a part of the queue (or, without memory, not at
    all), and a flush hands out all of it, oldest first. *)
Class PreBufferLaws (B : Type) `{PreBuffer B} := {
  pre_holds : B → list (Z * AVPacket) → Prop;
  pre_add_holds b q pk now :
    pre_holds b q → ∃ q1 q2, q = q1 ++ q2 ∧
      (pre_holds (pre_add b pk now) (q2 ++ [(now, pk)]) ∨ pre_holds (pre_add b pk now) q2);
  pre_clear_holds b q : pre_holds b q → pre_holds (pre_clear b) [];
  pre_flush_delivers {U} b q (cb : AVPacket → U → Z * U) u :
    pre_holds b q →
    (pre_flush b cb u).2 = foldl (λ u e, (cb e.2 u).2) u q ∧ pre_holds (pre_flush b cb u).1 []
}.

(** ** Effects *)

Inductive effect :=
  | EvCreate (path : cstr)                        (** [mp4_writer_create] that succeeds *)
  | EvInitialize (pkt : AVPacket)                 (** [mp4_writer_initialize] that succeeds *)
  | EvWrite (pkt : AVPacket)                      (** [mp4_writer_write_packet] *)
  | EvClose                                       (** [mp4_writer_close] *)
  | EvAddRecording (path : cstr) (start_time end_time size : Z) (is_complete : bool) (id : Z)
  | EvUpdateRecording (id end_time size : Z)      (** [update_recording_metadata], complete; the storage cache follows *)
  | EvUpdateStart (id start_time : Z)             (** [update_recording_start_time] *)
  | EvLinkDetections (id lookback : Z)            (** [update_detections_recording_id] *)
  | EvStoreDetections (count time : Z) (current : bool) (id : Z)   (** and the MQTT topics *)
  | EvRecordingActive (active : bool)             (** [metrics_set_recording_active] *)
  | EvSegmentComplete (start_time end_time size : Z)
  | EvFrame (size : Z) (is_video : bool)          (** [metrics_record_frame] *)
  | EvVideoFps (fps : Z).                         (** [udt_update_stream_video_params] *)

(** ** The context *)

Record settings := mkSettings {
  output_dir : cstr;
  api_model : bool;           (** [is_api_detection (model_path)] *)
  detection_threshold : spec_float;
  annotation_only : bool;
  detection_interval : Z;
  pre_buffer_seconds : Z;
  post_buffer_seconds : Z;
  record_audio : bool
}.

Record mp4_writer_t := mkWriter {
  is_initialized : bool;
  creation_time : Z;
  start_time_corrected : bool;
  has_audio : bool
}.

Record recording := mkRecording {
  mp4_writer : option mp4_writer_t;
  current_recording_path : cstr;
  current_recording_id : Z
}.

Record timing := mkTiming {
  last_detection_time : Z;
  last_detection_check_time : Z;
  post_buffer_end_time : Z
}.

(** The slots other threads write. *)
Record signals := mkSignals {
  external_motion_trigger : Z;
  detection_stream_connected : bool;
  detection_stream_result : bool;
  detection_stream_pending : Z;     (** the number of detections *)
  detection_stream_pending_ts : Z
}.

(** [input_ctx] is the time base of the video stream. *)
Record connection := mkConnection {
  input_ctx : option (Z * Z);
  video_stream_idx : Z;
  audio_stream_idx : Z;
  reconnect_attempt : Z;
  consecutive_failures : Z;
  last_packet_time : Z
}.

Record replay := mkReplay {
  stream_connect_time : Z;
  first_video_pts : Z;
  first_video_pts_set : bool;
  stream_is_live : bool
}.

Record fps_measurement := mkFps {
  fps_is_provisional : bool;
  fps_measurement_frame_count : Z;
  fps_measurement_start_ns : Z
}.

Record totals := mkTotals {
  total_packets_processed : Z;
  total_detections : Z;
  total_recordings : Z
}.

Record ctx (B : Type) := mkCtx {
  cfg : settings;
  running : bool;
  state : unified_detection_state_t;
  packet_buffer : B;
  rec : recording;
  times : timing;
  sig : signals;
  conn : connection;
  live : replay;
  fps : fps_measurement;
  stats : totals;
  effects : list effect
}.
Arguments mkCtx {B} _ _ _ _ _ _ _ _ _ _ _ _.
Arguments cfg {B} _.
Arguments running {B} _.
Arguments state {B} _.
Arguments packet_buffer {B} _.
Arguments rec {B} _.
Arguments times {B} _.
Arguments sig {B} _.
Arguments conn {B} _.
Arguments live {B} _.
Arguments fps {B} _.
Arguments stats {B} _.
Arguments effects {B} _.

(** What the detector finds on a frame: the snapshot API answers ([count]
    detections, one of them above the threshold or not), or the flag of the
    ONVIF thread is read, or a model gives raw detections, which are filtered
    by the zones and the object lists of the stream. *)
Inductive frame_result :=
  | ApiSnapshot (ok : bool) (count : Z) (above : bool)
  | OnvifFlag (motion : bool)
  | ModelFailed
  | ModelResult (raw : detection_result_t) (zones : option (list detection_zone_t)) (objects : option (cstr * cstr)).

(** What the world answers while a packet is processed: the clocks, the
    services a recording needs, and the detector. *)
Record answers := mkAnswers {
  now : Z;                    (** [time (NULL)] on entry *)
  clock : Z;                  (** [time (NULL)] when a recording starts or stops *)
  monotonic_ns : Z;
  dir_ok : bool;              (** the output directory exists or is made *)
  create_ok : bool;           (** [mp4_writer_create] *)
  audio_ok : bool;            (** the audio parameters can be prepared *)
  recording_id : Z;           (** [add_recording_metadata] *)
  file_size : Z;              (** [stat] *)
  frame : frame_result        (** the detector *)
}.

(** ** Updates *)

Section updates.
Context {B : Type}.
Implicit Types c : ctx B.

Definition set_running (r : bool) c : ctx B :=
  mkCtx (cfg c) r (state c) (packet_buffer c) (rec c) (times c) (sig c) (conn c) (live c) (fps c) (stats c) (effects c).

Definition set_state (s : unified_detection_state_t) c : ctx B :=
  mkCtx (cfg c) (running c) s (packet_buffer c) (rec c) (times c) (sig c) (conn c) (live c) (fps c) (stats c) (effects c).

Definition set_packet_buffer (b : B) c : ctx B :=
  mkCtx (cfg c) (running c) (state c) b (rec c) (times c) (sig c) (conn c) (live c) (fps c) (stats c) (effects c).

Definition set_rec (r : recording) c : ctx B :=
  mkCtx (cfg c) (running c) (state c) (packet_buffer c) r (times c) (sig c) (conn c) (live c) (fps c) (stats c) (effects c).

Definition set_times (t : timing) c : ctx B :=
  mkCtx (cfg c) (running c) (state c) (packet_buffer c) (rec c) t (sig c) (conn c) (live c) (fps c) (stats c) (effects c).

Definition set_sig (s : signals) c : ctx B :=
  mkCtx (cfg c) (running c) (state c) (packet_buffer c) (rec c) (times c) s (conn c) (live c) (fps c) (stats c) (effects c).

Definition set_conn (k : connection) c : ctx B :=
  mkCtx (cfg c) (running c) (state c) (packet_buffer c) (rec c) (times c) (sig c) k (live c) (fps c) (stats c) (effects c).

Definition set_live (l : replay) c : ctx B :=
  mkCtx (cfg c) (running c) (state c) (packet_buffer c) (rec c) (times c) (sig c) (conn c) l (fps c) (stats c) (effects c).

Definition set_fps (f : fps_measurement) c : ctx B :=
  mkCtx (cfg c) (running c) (state c) (packet_buffer c) (rec c) (times c) (sig c) (conn c) (live c) f (stats c) (effects c).

Definition set_stats (t : totals) c : ctx B :=
  mkCtx (cfg c) (running c) (state c) (packet_buffer c) (rec c) (times c) (sig c) (conn c) (live c) (fps c) t (effects c).

Definition emit (es : list effect) c : ctx B :=
  mkCtx (cfg c) (running c) (state c) (packet_buffer c) (rec c) (times c) (sig c) (conn c) (live c) (fps c) (stats c)
    (effects c ++ es).

Definition set_writer (w : option mp4_writer_t) c : ctx B :=
  set_rec (mkRecording w (current_recording_path (rec c)) (current_recording_id (rec c))) c.

Definition set_last_detection (t : Z) c : ctx B :=
  set_times (mkTiming t (last_detection_check_time (times c)) (post_buffer_end_time (times c))) c.

Definition set_last_check (t : Z) c : ctx B :=
  set_times (mkTiming (last_detection_time (times c)) t (post_buffer_end_time (times c))) c.

Definition set_post_buffer_end (t : Z) c : ctx B :=
  set_times (mkTiming (last_detection_time (times c)) (last_detection_check_time (times c)) t) c.
End updates.

(** ** Recordings *)

Section recorder.
Context {B : Type} `{PreBuffer B}.
(** The name [strftime] and [localtime_r] give to a time; whether
    [mp4_writer_initialize] accepts a packet; [g_config.detection_grace_period]. *)
Context (timestamp_text : Z → cstr) (init_ok : AVPacket → bool) (grace_period : Z).
Implicit Types c : ctx B.

Definition is_key (pkt : AVPacket) : bool := negb (Z.land (av_flags pkt) AV_PKT_FLAG_KEY =? 0).

(** The stream of a packet is known: there is an [input_stream] for it. *)
Definition input_stream (k : connection) (pkt : AVPacket) : bool :=
  ((av_stream_index pkt =? video_stream_idx k) && (video_stream_idx k >=? 0)) ||
  ((av_stream_index pkt =? audio_stream_idx k) && (audio_stream_idx k >=? 0)).

(** The result is 0 exactly when the first component is [true]. *)
Definition udt_start_recording (a : answers) c : bool * ctx B :=
  if annotation_only (cfg c) then (true, c) else
  if negb (dir_ok a) then (false, c) else
  let path := strcpy_trunc MAX_PATH_LENGTH
                (output_dir (cfg c) ++ lit "/detection_" ++ timestamp_text (clock a) ++ lit ".mp4") in
  if negb (create_ok a) then (false, set_rec (mkRecording None path (current_recording_id (rec c))) c) else
  let audio := record_audio (cfg c) && (audio_stream_idx (conn c) >=? 0) && audio_ok a in
  let c := emit [EvCreate path; EvAddRecording path (clock a) 0 0 false (recording_id a); EvRecordingActive true] c in
  let c := set_rec (mkRecording (Some (mkWriter false (clock a) false audio)) path (recording_id a)) c in
  (true, set_stats (mkTotals (total_packets_processed (stats c)) (total_detections (stats c))
                             (total_recordings (stats c) + 1)) c).

Definition udt_stop_recording (a : answers) c : ctx B :=
  if annotation_only (cfg c) then c else
  match mp4_writer (rec c) with
  | None => c
  | Some w =>
      let path := current_recording_path (rec c) in
      let id := current_recording_id (rec c) in
      let c := emit [EvRecordingActive false; EvSegmentComplete (creation_time w) (clock a) (file_size a); EvClose] c in
      let c := if id >? 0 then emit [EvUpdateRecording id (clock a) (file_size a)] c
               else match path with
                    | [] => c
                    | _ => emit [EvAddRecording path (creation_time w) (clock a) (file_size a) true (recording_id a)] c
                    end in
      set_rec (mkRecording None [] 0) c
  end.

(** The state a flush threads through its callback. *)
Record flush_callback_ctx_t := mkFlush {
  flush_writer : mp4_writer_t;
  flush_effects : list effect;
  found_keyframe : bool;
  writer_initialized : bool
}.

Definition set_initialized (w : mp4_writer_t) : mp4_writer_t :=
  mkWriter true (creation_time w) (start_time_corrected w) (has_audio w).

Definition flush_packet_callback (k : connection) (pkt : AVPacket) (u : flush_callback_ctx_t)
    : Z * flush_callback_ctx_t :=
  let found := found_keyframe u || (is_key pkt && (av_stream_index pkt =? video_stream_idx k)) in
  if negb found then (0, u) else
  let u := mkFlush (flush_writer u) (flush_effects u) true (writer_initialized u) in
  match input_ctx k with
  | Some _ =>
      if negb (input_stream k pkt) then (0, u) else
      if negb (writer_initialized u) && negb (is_initialized (flush_writer u)) then
        if (av_stream_index pkt =? video_stream_idx k) && is_key pkt then
          if init_ok pkt
          then (0, mkFlush (set_initialized (flush_writer u))
                     (flush_effects u ++ [EvInitialize pkt; EvWrite pkt]) true true)
          else (-1, u)
        else (0, u)
      else (0, mkFlush (flush_writer u) (flush_effects u ++ [EvWrite pkt]) true (writer_initialized u))
  | None => (0, u)
  end.

Definition flush_prebuffer_to_recording c : ctx B :=
  match mp4_writer (rec c) with
  | None => c
  | Some w =>
      let '(b, u) := pre_flush (packet_buffer c) (flush_packet_callback (conn c)) (mkFlush w [] false false) in
      emit (flush_effects u) (set_writer (Some (flush_writer u)) (set_packet_buffer b c))
  end.

(** Date the recording from its first packet.  There is a writer: the callers
    have just started the recording and are not annotation-only. *)
Definition correct_start_time (t pre_dur : Z) c : ctx B :=
  match mp4_writer (rec c) with
  | None => c
  | Some w =>
      let id := current_recording_id (rec c) in
      if negb (start_time_corrected w) && (pre_dur >? 0) && (id >? 0) then
        let clamped_pre := if pre_dur >? pre_buffer_seconds (cfg c) then pre_buffer_seconds (cfg c) else pre_dur in
        let corrected := t - clamped_pre in
        emit [EvUpdateStart id corrected]
          (set_writer (Some (mkWriter (is_initialized w) corrected true (has_audio w))) c)
      else c
  end.

(** The start of a recording and of its file, as the two triggers do it. *)
Definition open_recording (a : answers) c : bool * ctx B :=
  let '(ok, c) := udt_start_recording a c in
  if negb ok then (false, c) else
  let pre_dur := pre_duration (packet_buffer c) in
  let c := flush_prebuffer_to_recording c in
  let c := set_state UDT_STATE_RECORDING c in
  (true, correct_start_time (now a) pre_dur c).

Definition handle_recording_state (a : answers) (detected : bool) c : ctx B :=
  let current_state := state c in
  if detected then
    let c := set_last_detection (now a) c in
    if annotation_only (cfg c) then c else
    match current_state with
    | UDT_STATE_BUFFERING =>
        let '(ok, c) := open_recording a c in
        if ok then
          emit [EvLinkDetections (current_recording_id (rec c)) (now a - (detection_interval (cfg c) + grace_period))] c
        else c
    | UDT_STATE_POST_BUFFER => set_state UDT_STATE_RECORDING c
    | _ => c
    end
  else
    match annotation_only (cfg c), current_state with
    | false, UDT_STATE_RECORDING =>
        let since_last := now a - last_detection_time (times c) in
        let grace_window := detection_interval (cfg c) + grace_period in
        if since_last >? grace_window then
          set_state UDT_STATE_POST_BUFFER (set_post_buffer_end (now a + post_buffer_seconds (cfg c)) c)
        else c
    | _, _ => c
    end.

(** The detections of an annotation-only recorder belong to the current
    recording of another component: the flag of [EvStoreDetections]. *)
Definition report_detections (count t : Z) c : ctx B :=
  if count =? 0 then c else
  let c := if api_model (cfg c) then c
           else emit [EvStoreDetections count t (annotation_only (cfg c))
                        (if annotation_only (cfg c) then 0 else current_recording_id (rec c))] c in
  set_stats (mkTotals (total_packets_processed (stats c)) (u64 (total_detections (stats c) + u64 count))
                      (total_recordings (stats c))) c.

(** The last part of [detect_on_decoded_frame]. *)
Definition surviving_detections (threshold : spec_float) (raw : detection_result_t)
    (zones : option (list detection_zone_t)) (objects : option (cstr * cstr)) : detection_result_t :=
  let result := (filter_detections_by_zones zones raw).2 in
  let result := (filter_detections_by_stream_objects objects result).2 in
  filter (λ d, fge (confidence d) threshold = true) result.

Definition run_detection_on_frame (a : answers) c : bool * ctx B :=
  match frame a with
  | ApiSnapshot ok count above => if ok then (above, report_detections count (now a) c) else (false, c)
  | OnvifFlag motion =>
      (motion, if motion then set_stats (mkTotals (total_packets_processed (stats c))
                                 (u64 (total_detections (stats c) + 1)) (total_recordings (stats c))) c else c)
  | ModelFailed => (false, c)
  | ModelResult raw zones objects =>
      let result := surviving_detections (detection_threshold (cfg c)) raw zones objects in
      if (length result =? 0)%nat then (false, c)
      else (true, report_detections (Z.of_nat (length result)) (now a) c)
  end.

(** ** Packets *)

Definition is_video c (pkt : AVPacket) : bool := av_stream_index pkt =? video_stream_idx (conn c).

(** The statistics, and the measurement of the frame rate.  [measured_fps] is
    in range: the window is at least five seconds and the count an [int]. *)
Definition count_packet (a : answers) (pkt : AVPacket) c : ctx B :=
  let c := set_stats (mkTotals (u64 (total_packets_processed (stats c) + 1)) (total_detections (stats c))
                               (total_recordings (stats c))) c in
  if is_video c pkt && fps_is_provisional (fps c) then
    let frame_count := fps_measurement_frame_count (fps c) + 1 in
    let c := set_fps (mkFps true frame_count (fps_measurement_start_ns (fps c))) c in
    let elapsed := fdiv binary64 (f_of_Z binary64 (monotonic_ns a - fps_measurement_start_ns (fps c)))
                     (f_of_Z binary64 1000000000) in
    if fge elapsed (f_of_Z binary64 FPS_MEASUREMENT_WINDOW_SEC) && (frame_count >? 1) then
      let measured_fps := default 0 (f_to_int (fadd binary64 (fdiv binary64 (f_of_Z binary64 frame_count) elapsed)
                                                 (f_lit binary64 1 2))) in
      if measured_fps >? 0 then
        emit [EvVideoFps measured_fps] (set_fps (mkFps false frame_count (fps_measurement_start_ns (fps c))) c)
      else c
    else c
  else c.

(** How far the packet is behind the wall clock, in seconds. *)
Definition replay_lag (a : answers) (pkt : AVPacket) (time_base : Z * Z) c : spec_float :=
  let d := f_of_Z binary64 in
  let wall_elapsed := d (now a - stream_connect_time (live c)) in
  if negb (av_pts pkt =? AV_NOPTS_VALUE) && negb (first_video_pts (live c) =? AV_NOPTS_VALUE) then
    fsub binary64 wall_elapsed
      (fmul binary64 (d (av_pts pkt - first_video_pts (live c))) (fdiv binary64 (d time_base.1) (d time_base.2)))
  else
    let warmup := d (pre_buffer_seconds (cfg c) * 2) in
    if flt wall_elapsed warmup then fsub binary64 warmup wall_elapsed else d 0.

(** Whether the packet enters the pre-buffer, which starts at the first
    keyframe after the replay of the proxy's own buffer. *)
Definition gate_packet (a : answers) (pkt : AVPacket) c : bool * ctx B :=
  let key := is_video c pkt && is_key pkt in
  let l := live c in
  match is_video c pkt, input_ctx (conn c) with
  | true, Some time_base =>
      if video_stream_idx (conn c) >=? 0 then
        if negb (first_video_pts_set l) then
          let c := if negb (av_pts pkt =? AV_NOPTS_VALUE)
                   then set_live (mkReplay (stream_connect_time l) (av_pts pkt) true (stream_is_live l)) c else c in
          (stream_is_live l && key, c)
        else if stream_is_live l then (true, c)
        else if fle (replay_lag a pkt time_base c) (f_of_Z binary64 (pre_buffer_seconds (cfg c))) && key then
          let c := set_packet_buffer (pre_clear (packet_buffer c)) c in
          (true, set_live (mkReplay (stream_connect_time l) (first_video_pts l) (first_video_pts_set l) true) c)
        else (false, c)
      else (false, c)
  | true, None => (false, c)
  | false, _ => (stream_is_live l, c)
  end.

Definition buffer_packet (a : answers) (pkt : AVPacket) c : ctx B :=
  let '(should_buffer, c) := gate_packet a pkt c in
  let c := if should_buffer then set_packet_buffer (pre_add (packet_buffer c) pkt (now a)) c else c in
  emit [EvFrame (av_size pkt) (is_video c pkt)] c.

(** The hand-off from the detection stream, when it is connected. *)
Definition consume_detection_stream (a : answers) c : ctx B :=
  if detection_stream_connected (sig c) then
    let s := sig c in
    if detection_stream_result s then
      let c := set_sig (mkSignals (external_motion_trigger s) (detection_stream_connected s) false
                          (detection_stream_pending s) (detection_stream_pending_ts s)) c in
      let result_ts := detection_stream_pending_ts s in
      let c := report_detections (detection_stream_pending s) (if result_ts >? 0 then result_ts else now a) c in
      handle_recording_state a true c
    else handle_recording_state a false c
  else c.

(** A packet while a recording is open. *)
Definition write_packet (pkt : AVPacket) c : ctx B :=
  match mp4_writer (rec c), input_ctx (conn c) with
  | Some w, Some _ =>
      let video := is_video c pkt in
      let known := if video then video_stream_idx (conn c) >=? 0 else audio_stream_idx (conn c) >=? 0 in
      if negb known then c else
      let '(w, es) := if negb (is_initialized w) && video && is_key pkt && init_ok pkt
                      then (set_initialized w, [EvInitialize pkt]) else (w, []) in
      emit (es ++ if is_initialized w then [EvWrite pkt] else []) (set_writer (Some w) c)
  | _, _ => c
  end.

(** [current_state] is the local variable of the C function, which is not read
    again after the expiry. *)
Definition record_packet (a : answers) (pkt : AVPacket) (current_state : unified_detection_state_t) c : ctx B :=
  match current_state with
  | UDT_STATE_RECORDING => write_packet pkt c
  | UDT_STATE_POST_BUFFER =>
      let c := write_packet pkt c in
      if now a >=? post_buffer_end_time (times c)
      then set_state UDT_STATE_BUFFERING (udt_stop_recording a c) else c
  | _ => c
  end.

Definition external_trigger (a : answers) (current_state : unified_detection_state_t) c : ctx B :=
  let s := sig c in
  let ext_trigger := external_motion_trigger s in
  let c := set_sig (mkSignals 0 (detection_stream_connected s) (detection_stream_result s)
                      (detection_stream_pending s) (detection_stream_pending_ts s)) c in
  if ext_trigger =? 1 then
    let c := set_last_detection (now a) c in
    if annotation_only (cfg c) then c else
    match current_state with
    | UDT_STATE_BUFFERING => (open_recording a c).2
    | UDT_STATE_POST_BUFFER => set_state UDT_STATE_RECORDING c
    | _ => c
    end
  else if ext_trigger =? 2 then
    match annotation_only (cfg c), current_state with
    | false, UDT_STATE_RECORDING =>
        set_state UDT_STATE_POST_BUFFER (set_post_buffer_end (now a + post_buffer_seconds (cfg c)) c)
    | _, _ => c
    end
  else c.

Definition main_stream_detection (a : answers) c : ctx B :=
  if negb (bool_decide (state c = UDT_STATE_POST_BUFFER)) && negb (detection_stream_connected (sig c)) then
    let time_since_last_check := now a - last_detection_check_time (times c) in
    if time_since_last_check >=? detection_interval (cfg c)
    then let '(detected, c) := run_detection_on_frame a (set_last_check (now a) c) in
         handle_recording_state a detected c
    else c
  else c.

Definition process_packet (a : answers) (pkt : AVPacket) c : ctx B :=
  let current_state := state c in
  let is_keyframe := is_video c pkt && is_key pkt in
  let c := count_packet a pkt c in
  let c := buffer_packet a pkt c in
  let connected := detection_stream_connected (sig c) in
  let c := consume_detection_stream a c in
  let current_state := if connected then state c else current_state in
  let c := record_packet a pkt current_state c in
  if is_keyframe then main_stream_detection a (external_trigger a current_state c) else c.

(** ** The thread *)

Definition disconnect_from_stream c : ctx B :=
  let k := conn c in
  set_conn (mkConnection None (-1) (-1) (reconnect_attempt k) (consecutive_failures k) (last_packet_time k)) c.

(** What [connect_to_stream] finds: time base, stream indices, and the frame
    rate it stores, with whether it is provisional. *)
Record stream_info := mkStreamInfo {
  info_time_base : Z * Z;
  info_video : Z;
  info_audio : Z;
  info_fps : option (Z * bool)
}.

(** One turn of the loop: the clock when it connects or fails to read, the
    outcome of [connect_to_stream] and of [av_read_frame]. *)
Record turn := mkTurn {
  turn_answers : answers;
  turn_time : Z;
  turn_connect : option stream_info;
  turn_read : option AVPacket
}.

(** The context and the local variables of the thread. *)
Record thread := mkThread {
  thread_ctx : ctx B;
  reconnect_delay_ms : Z;
  saw_real_packets : bool
}.

Definition backoff (delay : Z) : Z :=
  let delay := delay * 2 in if delay >? MAX_RECONNECT_DELAY_MS then MAX_RECONNECT_DELAY_MS else delay.

Definition connected (t : Z) (a : answers) (i : stream_info) c : ctx B :=
  let c := match info_fps i with
           | Some (f, provisional) =>
               emit [EvVideoFps f]
                 (set_fps (if provisional then mkFps true 0 (monotonic_ns a)
                           else mkFps false (fps_measurement_frame_count (fps c)) (fps_measurement_start_ns (fps c))) c)
           | None => c
           end in
  let c := set_conn (mkConnection (Some (info_time_base i)) (info_video i) (info_audio i) 0
                       (consecutive_failures (conn c)) t) c in
  let c := set_stats (mkTotals 0 0 (total_recordings (stats c))) c in
  let c := set_last_check t c in
  set_live (mkReplay t AV_NOPTS_VALUE false false) c.

(** The body of the loop, for the state it reads. *)
Definition udt_turn (i : turn) (th : thread) : thread :=
  let c := thread_ctx th in
  let a := turn_answers i in
  match state c with
  | UDT_STATE_INITIALIZING => mkThread (set_state UDT_STATE_CONNECTING c) (reconnect_delay_ms th) (saw_real_packets th)
  | UDT_STATE_CONNECTING =>
      match turn_connect i with
      | Some info => mkThread (set_state UDT_STATE_BUFFERING (connected (turn_time i) a info c)) (reconnect_delay_ms th) false
      | None =>
          let k := conn c in
          mkThread (set_conn (mkConnection (input_ctx k) (video_stream_idx k) (audio_stream_idx k)
                      (reconnect_attempt k + 1) (consecutive_failures k + 1) (last_packet_time k)) c)
            (backoff (reconnect_delay_ms th)) (saw_real_packets th)
      end
  | UDT_STATE_BUFFERING | UDT_STATE_RECORDING | UDT_STATE_POST_BUFFER =>
      match turn_read i with
      | Some pkt =>
          let k := conn c in
          let first := (av_size pkt >? 0) && negb (saw_real_packets th) in
          let c := if av_size pkt >? 0
                   then set_conn (mkConnection (input_ctx k) (video_stream_idx k) (audio_stream_idx k) (reconnect_attempt k)
                                    (if first then 0 else consecutive_failures k) (turn_time i)) c else c in
          mkThread (process_packet a pkt c) (if first then BASE_RECONNECT_DELAY_MS else reconnect_delay_ms th)
            (saw_real_packets th || first)
      | None =>
          if turn_time i - last_packet_time (conn c) >? MAX_PACKET_TIMEOUT_SEC then
            let k := conn c in
            let silent := negb (saw_real_packets th) in
            let c := if silent then set_conn (mkConnection (input_ctx k) (video_stream_idx k) (audio_stream_idx k)
                                 (reconnect_attempt k) (consecutive_failures k + 1) (last_packet_time k)) c else c in
            mkThread (set_state UDT_STATE_RECONNECTING (disconnect_from_stream c))
              (if silent then backoff (reconnect_delay_ms th) else reconnect_delay_ms th) (saw_real_packets th)
          else th
      end
  | UDT_STATE_RECONNECTING =>
      let c := match mp4_writer (rec c) with Some _ => udt_stop_recording a c | None => c end in
      let c := set_packet_buffer (pre_clear (packet_buffer c)) c in
      mkThread (set_state UDT_STATE_CONNECTING c) (reconnect_delay_ms th) (saw_real_packets th)
  | UDT_STATE_STOPPING =>
      let c := match mp4_writer (rec c) with Some _ => udt_stop_recording a c | None => c end in
      mkThread (set_state UDT_STATE_STOPPED (disconnect_from_stream c)) (reconnect_delay_ms th) (saw_real_packets th)
  | UDT_STATE_STOPPED => mkThread (set_running false c) (reconnect_delay_ms th) (saw_real_packets th)
  end.

(** After the loop. *)
Definition udt_exit (a : answers) (th : thread) : ctx B :=
  let c := thread_ctx th in
  let c := match mp4_writer (rec c) with Some _ => udt_stop_recording a c | None => c end in
  set_state UDT_STATE_STOPPED (disconnect_from_stream c).

(** ** Other threads *)

Definition unified_detection_notify_motion (motion_active : bool) c : ctx B :=
  let s := sig c in
  set_sig (mkSignals (if motion_active then 1 else 2) (detection_stream_connected s) (detection_stream_result s)
             (detection_stream_pending s) (detection_stream_pending_ts s)) c.

Definition stop_unified_detection_thread c : ctx B := set_state UDT_STATE_STOPPING (set_running false c).

(** The detection stream connects, or disconnects and withdraws a pending
    result, or leaves a result. *)
Definition detection_stream_connect (b : bool) c : ctx B :=
  let s := sig c in
  set_sig (mkSignals (external_motion_trigger s) b (b && detection_stream_result s)
             (detection_stream_pending s) (detection_stream_pending_ts s)) c.

Definition detection_stream_detect (count ts : Z) c : ctx B :=
  let s := sig c in
  set_sig (mkSignals (external_motion_trigger s) (detection_stream_connected s) true count ts) c.

Inductive event :=
  | Turn (i : turn)
  | NotifyMotion (motion_active : bool)
  | StreamConnected (b : bool)
  | StreamDetected (count ts : Z)
  | StopThread.

Definition on_ctx (f : ctx B → ctx B) (th : thread) : thread :=
  mkThread (f (thread_ctx th)) (reconnect_delay_ms th) (saw_real_packets th).

(** The loop takes turns while the thread is running; what other threads do
    falls between them. *)
Definition step (e : event) (th : thread) : thread :=
  match e with
  | Turn i => if running (thread_ctx th) then udt_turn i th else th
  | NotifyMotion m => on_ctx (unified_detection_notify_motion m) th
  | StreamConnected b => on_ctx (detection_stream_connect b) th
  | StreamDetected n ts => on_ctx (detection_stream_detect n ts) th
  | StopThread => on_ctx stop_unified_detection_thread th
  end.

Definition run (es : list event) (th : thread) : thread := foldl (λ th e, step e th) th es.

(** The context [start_unified_detection_thread] makes from its arguments and
    the configuration of the stream. *)
Definition DEFAULT_DETECTION_INTERVAL : Z := 5.

Definition start_settings (dir : cstr) (api : bool) (threshold : spec_float) (pre post : Z) (annotation : bool)
    (interval : Z) (audio : bool) : settings :=
  mkSettings dir api threshold annotation (if interval >? 0 then interval else DEFAULT_DETECTION_INTERVAL)
    (if pre >? 0 then pre else 10) (if post >? 0 then post else 5) audio.

Definition new_thread (s : settings) (b : B) (t : Z) : thread :=
  mkThread (mkCtx s true UDT_STATE_INITIALIZING b (mkRecording None [] 0) (mkTiming 0 t 0)
              (mkSignals 0 false false 0 0) (mkConnection None 0 0 0 0 t) (mkReplay t AV_NOPTS_VALUE false false)
              (mkFps false 0 0) (mkTotals 0 0 0) []) BASE_RECONNECT_DELAY_MS false.
End recorder.

(** ** The life of a recording in the effects

    A file is created and entered in the database, is initialized and written
    while it is open, is closed, and its entry is completed: exactly once, and
    one file at a time. *)
Inductive phase :=
  | Idle
  | Created
  | Open (id : Z)
  | Closed (id : Z).

Definition phase_step (p : option phase) (e : effect) : option phase :=
  match p, e with
  | Some Idle, EvCreate _ => Some Created
  | Some Created, EvAddRecording _ _ _ _ false id => Some (Open id)
  | Some (Open id), EvInitialize _ | Some (Open id), EvWrite _ => Some (Open id)
  | Some (Open id), EvUpdateStart id' _ => if id =? id' then Some (Open id) else None
  | Some (Open id), EvClose => Some (Closed id)
  | Some (Closed id), EvUpdateRecording id' _ _ => if (id =? id') && (id >? 0) then Some Idle else None
  | Some (Closed id), EvAddRecording _ _ _ _ true _ => if id >? 0 then None else Some Idle
  | Some p, (EvLinkDetections _ _ | EvStoreDetections _ _ _ _ | EvRecordingActive _ | EvSegmentComplete _ _ _ |
             EvFrame _ _ | EvVideoFps _) => Some p
  | _, _ => None
  end.

Definition file_phase (es : list effect) : option phase := foldl phase_step (Some Idle) es.

Definition writes_file (e : effect) : bool :=
  match e with EvInitialize _ | EvWrite _ => true | _ => false end.

Definition beside_files (e : effect) : bool :=
  match e with
  | EvLinkDetections _ _ | EvStoreDetections _ _ _ _ | EvRecordingActive _ | EvSegmentComplete _ _ _
  | EvFrame _ _ | EvVideoFps _ => true
  | _ => false
  end.

Lemma file_phase_app es es' : file_phase (es ++ es') = foldl phase_step (file_phase es) es'.
Proof. apply foldl_app. Qed.

Lemma phase_writes id es : Forall (λ e, writes_file e = true) es → foldl phase_step (Some (Open id)) es = Some (Open id).
Proof. induction 1 as [|e es He _ IH]; [done|]. by destruct e. Qed.

Lemma phase_beside p es : Forall (λ e, beside_files e = true) es → foldl phase_step (Some p) es = Some p.
Proof. induction 1 as [|e es He _ IH]; [done|]. by destruct e, p. Qed.

Section lemmas.
Context {B : Type} `{PreBufferLaws B}.
Context (timestamp_text : Z → cstr) (init_ok : AVPacket → bool) (grace_period : Z).
Implicit Types c : ctx B.

Definition expected_phase c : phase :=
  match mp4_writer (rec c) with Some _ => Open (current_recording_id (rec c)) | None => Idle end.

(** The invariant: the effects agree with the writer, which an annotation-only
    recorder never has, and the buffer holds some queue. *)
Record ok c : Prop := {
  ok_buffer : ∃ q, pre_holds (packet_buffer c) q;
  ok_phase : file_phase (effects c) = Some (expected_phase c);
  ok_writer : mp4_writer (rec c) ≠ None → annotation_only (cfg c) = false ∧ current_recording_path (rec c) ≠ []
}.

(** Where a writer can be open. *)
Definition recording_state (s : unified_detection_state_t) : Prop :=
  s ∈ [UDT_STATE_RECORDING; UDT_STATE_POST_BUFFER; UDT_STATE_RECONNECTING; UDT_STATE_STOPPING].

Lemma recording_is_recording : recording_state UDT_STATE_RECORDING.
Proof. unfold recording_state. rewrite !elem_of_cons. tauto. Qed.

Lemma post_buffer_is_recording : recording_state UDT_STATE_POST_BUFFER.
Proof. unfold recording_state. rewrite !elem_of_cons. tauto. Qed.

Definition placed c : Prop := mp4_writer (rec c) ≠ None → recording_state (state c).

Definition good c : Prop := ok c ∧ placed c.

(** What the invariant reads. *)
Definition same_record c c' : Prop :=
  packet_buffer c' = packet_buffer c ∧ rec c' = rec c ∧ annotation_only (cfg c') = annotation_only (cfg c) ∧
  effects c' = effects c.

Lemma ok_same c c' : same_record c c' → ok c → ok c'.
Proof.
  intros (Hb & Hr & Ha & He) [Hq Hp Hw]. split.
  - by rewrite Hb.
  - unfold expected_phase in *. by rewrite He, Hr.
  - by rewrite Hr, Ha.
Qed.

Lemma ok_emit es c : Forall (λ e, beside_files e = true) es → ok c → ok (emit es c).
Proof.
  intros Hes [Hq Hp Hw]. split; [done| |done]. simpl. rewrite file_phase_app, Hp. by apply phase_beside.
Qed.

Lemma ok_emit_writes es c w :
  Forall (λ e, writes_file e = true) es → mp4_writer (rec c) = Some w → ok c → ok (emit es c).
Proof.
  intros Hes Hrec [Hq Hp Hw]. split; [done| |done]. simpl. rewrite file_phase_app, Hp. unfold expected_phase at 1.
  unfold expected_phase. simpl. rewrite Hrec. by apply phase_writes.
Qed.

Lemma ok_set_writer c w w' : mp4_writer (rec c) = Some w → ok c → ok (set_writer (Some w') c).
Proof.
  intros Hrec [Hq Hp Hw]. split; [done| |].
  - simpl. rewrite Hp. unfold expected_phase. simpl. by rewrite Hrec.
  - intros _. apply Hw. congruence.
Qed.

Lemma start_recording_ok a c c' :
  udt_start_recording timestamp_text a c = (true, c') → annotation_only (cfg c) = false →
  mp4_writer (rec c) = None → ok c →
  ok c' ∧ mp4_writer (rec c') ≠ None ∧ state c' = state c ∧ cfg c' = cfg c ∧ packet_buffer c' = packet_buffer c ∧
  conn c' = conn c.
Proof.
  unfold udt_start_recording. intros E Ha Hnone [Hq Hp Hw]. rewrite Ha in E.
  destruct (negb (dir_ok a)); [done|]. destruct (negb (create_ok a)); [done|]. injection E as <-.
  split; [|done]. split; [done| |].
  - simpl. rewrite file_phase_app, Hp. unfold expected_phase. by rewrite Hnone.
  - intros _. split; [done|]. cbn [rec set_stats set_rec current_recording_path]. unfold strcpy_trunc. by destruct (output_dir (cfg c)).
Qed.

Lemma start_recording_fails a c c' :
  udt_start_recording timestamp_text a c = (false, c') → mp4_writer (rec c) = None → ok c →
  ok c' ∧ mp4_writer (rec c') = None ∧ state c' = state c ∧ effects c' = effects c.
Proof.
  unfold udt_start_recording. intros E Hnone Hok. pose proof Hok as [Hq Hp Hw]. destruct (annotation_only (cfg c)); [done|].
  destruct (negb (dir_ok a)); [injection E as <-; by split_and!|].
  destruct (negb (create_ok a)); [|done]. injection E as <-. split; [|done]. split; [done| |done].
  unfold expected_phase in *. simpl. by rewrite Hnone in Hp.
Qed.

Lemma stop_recording_ok a c :
  ok c → ok (udt_stop_recording a c) ∧ (annotation_only (cfg c) = false → mp4_writer (rec (udt_stop_recording a c)) = None) ∧
         state (udt_stop_recording a c) = state c ∧ cfg (udt_stop_recording a c) = cfg c.
Proof.
  intros Hok. pose proof Hok as [Hq Hp Hw]. unfold udt_stop_recording. destruct (annotation_only (cfg c)) eqn:Ha; [by split_and!|].
  destruct (mp4_writer (rec c)) as [w|] eqn:Hrec; [|by split_and!].
  destruct Hw as [_ Hpath]; [done|]. unfold expected_phase in Hp. rewrite Hrec in Hp.
  destruct (current_recording_id (rec c) >? 0) eqn:Hid.
  - split_and!; try done. split; [done| |done]. simpl. rewrite !file_phase_app, Hp. simpl. by rewrite Z.eqb_refl, Hid.
  - destruct (current_recording_path (rec c)); [done|]. split_and!; try done. split; [done| |done].
    simpl. rewrite !file_phase_app, Hp. simpl. by rewrite Hid.
Qed.

(** ** The flush *)

Lemma flush_callback_writes k pkt u :
  Forall (λ e, writes_file e = true) (flush_effects u) →
  Forall (λ e, writes_file e = true) (flush_effects (flush_packet_callback init_ok k pkt u).2).
Proof.
  intros Hu. unfold flush_packet_callback. destruct (negb _); [done|]. destruct (input_ctx k); [|done].
  destruct (negb (input_stream k pkt)); [done|]. cbn [flush_effects writer_initialized flush_writer].
  repeat case_match; simplify_eq/=; try done; apply Forall_app; (split; [done|]); by repeat constructor.
Qed.

Lemma flush_writes k q u :
  Forall (λ e, writes_file e = true) (flush_effects u) →
  Forall (λ e, writes_file e = true)
    (flush_effects (foldl (λ u (e : Z * AVPacket), (flush_packet_callback init_ok k e.2 u).2) u q)).
Proof. revert u. induction q as [|e q IH]; intros u Hu; [done|]. by apply IH, flush_callback_writes. Qed.

Lemma flush_ok c w :
  mp4_writer (rec c) = Some w → ok c →
  ok (flush_prebuffer_to_recording init_ok c) ∧ mp4_writer (rec (flush_prebuffer_to_recording init_ok c)) ≠ None ∧
  state (flush_prebuffer_to_recording init_ok c) = state c ∧ cfg (flush_prebuffer_to_recording init_ok c) = cfg c.
Proof.
  intros Hrec [[q Hq] Hp Hw]. unfold flush_prebuffer_to_recording. rewrite Hrec.
  destruct (pre_flush_delivers (packet_buffer c) q (flush_packet_callback init_ok (conn c)) (mkFlush w [] false false) Hq)
    as [Hu Hb]. destruct (pre_flush _ _ _) as [b u]. simpl in Hu, Hb.
  split_and!; try done. eapply ok_emit_writes.
  - rewrite Hu. by apply flush_writes.
  - done.
  - apply (ok_set_writer _ w); [done|]. split; [by exists []|done..].
Qed.

Lemma correct_start_ok t d c :
  ok c → ok (correct_start_time t d c) ∧ state (correct_start_time t d c) = state c.
Proof.
  intros Hok. unfold correct_start_time. destruct (mp4_writer (rec c)) as [w|] eqn:Hrec; [|by split].
  destruct (negb _ && _ && _); [|by split]. split; [|done].
  set (w' := mkWriter _ _ true _). destruct (ok_set_writer c w w' Hrec Hok) as [Hq Hp Hw].
  unfold expected_phase in Hp. simpl in Hp. split; [done| |done].
  unfold expected_phase. simpl. rewrite file_phase_app, Hp. simpl. by rewrite Z.eqb_refl.
Qed.

Lemma open_recording_good a c b c' :
  open_recording timestamp_text init_ok a c = (b, c') → annotation_only (cfg c) = false →
  mp4_writer (rec c) = None → ok c →
  ok c' ∧ (b = true → state c' = UDT_STATE_RECORDING) ∧ (b = false → state c' = state c ∧ mp4_writer (rec c') = None).
Proof.
  unfold open_recording. intros E Ha Hnone Hok.
  destruct (udt_start_recording timestamp_text a c) as [[] c1] eqn:Es; cbn [negb] in E; simplify_eq.
  - destruct (start_recording_ok _ _ _ Es Ha Hnone Hok) as (Hok1 & Hw1 & _).
    destruct (mp4_writer (rec c1)) as [w|] eqn:Hrec; [|done].
    destruct (flush_ok c1 w Hrec Hok1) as (Hok2 & _ & _).
    assert (Hok3 : ok (set_state UDT_STATE_RECORDING (flush_prebuffer_to_recording init_ok c1))) by (eapply ok_same; [|exact Hok2]; repeat split).
    split; [by apply correct_start_ok|]. split; [|done]. intros _. by rewrite (proj2 (correct_start_ok _ _ _ Hok3)).
  - by destruct (start_recording_fails _ _ _ Es Hnone Hok) as (? & ? & ? & _).
Qed.

(** ** One packet *)

Lemma good_set_state_recording c s : recording_state s → good c → good (set_state s c).
Proof. intros Hs [Hok _]. split; [|by intros _]. eapply ok_same; [|exact Hok]. repeat split. Qed.

Lemma good_beside es c : Forall (λ e, beside_files e = true) es → good c → good (emit es c).
Proof. intros Hes [Hok Hp]. split; [by apply ok_emit|done]. Qed.

Lemma good_same c c' : same_record c c' → state c' = state c → good c → good c'.
Proof. intros Hs Hst [Hok Hp]. split; [by eapply ok_same|]. unfold placed. destruct Hs as (_ & -> & _). by rewrite Hst. Qed.

(** What does not touch the recording keeps the invariant. *)
Ltac unchanged Hg := eapply good_same; [| |exact Hg]; [repeat split|reflexivity].

Lemma buffering_closed c : good c → state c = UDT_STATE_BUFFERING → mp4_writer (rec c) = None.
Proof.
  intros [_ Hp] Hs. destruct (mp4_writer (rec c)) eqn:E; [|done]. unfold placed in Hp. rewrite E, Hs in Hp.
  specialize (Hp ltac:(done)). unfold recording_state in Hp. rewrite !elem_of_cons, elem_of_nil in Hp. naive_solver.
Qed.

Lemma open_recording_good' a c :
  good c → state c = UDT_STATE_BUFFERING → annotation_only (cfg c) = false →
  good (open_recording timestamp_text init_ok a c).2.
Proof.
  intros Hg Hs Ha. pose proof (buffering_closed c Hg Hs) as Hnone.
  destruct (open_recording timestamp_text init_ok a c) as [b c'] eqn:E.
  destruct (open_recording_good a c b c' E Ha Hnone (proj1 Hg)) as (Hok & Ht & Hf). split; [done|].
  intros Hw. destruct b.
  - simpl. rewrite Ht by done. apply recording_is_recording.
  - by destruct Hf.
Qed.

Lemma handle_good a d c : good c → good (handle_recording_state timestamp_text init_ok grace_period a d c).
Proof.
  intros Hg. unfold handle_recording_state. destruct d.
  - assert (Hg' : good (set_last_detection (now a) c)) by (unchanged Hg).
    destruct (annotation_only (cfg (set_last_detection (now a) c))) eqn:Ha; [done|].
    destruct (state c) eqn:Hs; try done.
    + pose proof (open_recording_good' a _ Hg' Hs Ha) as Ho. destruct (open_recording _ _ _ _) as [[] c'] eqn:E; [|done].
      apply good_beside; [by repeat constructor|done].
    + by apply good_set_state_recording; [apply recording_is_recording|].
  - destruct (annotation_only (cfg c)), (state c) eqn:Hs; try done. case_match; [|done].
    apply good_set_state_recording; [apply post_buffer_is_recording|].
    unchanged Hg.
Qed.

Lemma report_good n t c : good c → good (report_detections n t c).
Proof.
  intros Hg. unfold report_detections. destruct (n =? 0); [done|]. destruct (api_model (cfg c)).
  - unchanged Hg.
  - eapply good_same; [| |apply (good_beside [EvStoreDetections n t (annotation_only (cfg c))
      (if annotation_only (cfg c) then 0 else current_recording_id (rec c))]); [by repeat constructor|exact Hg]]; [repeat split|reflexivity].
Qed.

Lemma count_good a pkt c : good c → good (count_packet a pkt c).
Proof.
  intros Hg. unfold count_packet. destruct (_ && _); [|unchanged Hg]. case_match; [|unchanged Hg]. case_match; [|unchanged Hg].
  apply good_beside; [by repeat constructor|]. unchanged Hg.
Qed.

Lemma good_buffer b c q : pre_holds b q → good c → good (set_packet_buffer b c).
Proof. intros Hb [[_ Hp Hw] Hpl]. split; [split; [by exists q|done|done]|done]. Qed.

Lemma good_clear c : good c → good (set_packet_buffer (pre_clear (packet_buffer c)) c).
Proof. intros Hg. pose proof Hg as [[[q Hq] _ _] _]. eapply good_buffer; [by eapply pre_clear_holds|done]. Qed.

Lemma good_add pkt t c : good c → good (set_packet_buffer (pre_add (packet_buffer c) pkt t) c).
Proof.
  intros Hg. pose proof Hg as [[[q Hq] _ _] _].
  destruct (pre_add_holds (packet_buffer c) q pkt t Hq) as (q1 & q2 & _ & [Hb|Hb]); by eapply good_buffer.
Qed.

Lemma gate_good a pkt c : good c → good (gate_packet a pkt c).2.
Proof.
  intros Hg. unfold gate_packet. destruct (is_video c pkt); [|done]. destruct (input_ctx (conn c)) as [tb|]; [|done].
  destruct (_ >=? 0); [|done]. destruct (negb (first_video_pts_set _)); [destruct (negb _); [unchanged Hg|done]|].
  destruct (stream_is_live (live c)); [done|]. destruct (_ && _); [|done].
  pose proof (good_clear c Hg) as Hc. unchanged Hc.
Qed.

Lemma buffer_good a pkt c : good c → good (buffer_packet a pkt c).
Proof.
  intros Hg. unfold buffer_packet. pose proof (gate_good a pkt c Hg) as Hgate.
  destruct (gate_packet a pkt c) as [should_buffer c']; simpl in Hgate.
  apply good_beside; [by repeat constructor|]. destruct should_buffer; [by apply good_add|done].
Qed.

Lemma consume_good a c : good c → good (consume_detection_stream timestamp_text init_ok grace_period a c).
Proof.
  intros Hg. unfold consume_detection_stream. destruct (detection_stream_connected _); [|done].
  destruct (detection_stream_result _); apply handle_good; [|done]. apply report_good. unchanged Hg.
Qed.

Lemma write_good pkt c : good c → good (write_packet init_ok pkt c).
Proof.
  intros [Hok Hp]. unfold write_packet. destruct (mp4_writer (rec c)) as [w|] eqn:Hrec; [|done].
  destruct (input_ctx (conn c)); [|done]. destruct (negb _); [done|].
  set (init := negb (is_initialized w) && _ && _ && _).
  assert (Hgen : ∀ w' es, Forall (λ e, writes_file e = true) es → good (emit es (set_writer (Some w') c))).
  { intros w' es Hes. split.
    - eapply (ok_emit_writes _ _ w'); [done..|]. by apply (ok_set_writer _ w).
    - intros _. apply Hp. by rewrite Hrec. }
  destruct init; simpl; apply Hgen; [|destruct (is_initialized w)]; by repeat constructor.
Qed.

Lemma stop_good a c : good c → good (udt_stop_recording a c) ∧ mp4_writer (rec (udt_stop_recording a c)) = None.
Proof.
  intros [Hok Hp]. destruct (stop_recording_ok a c Hok) as (Hok' & Hnone & _).
  assert (Hn : mp4_writer (rec (udt_stop_recording a c)) = None).
  { destruct (annotation_only (cfg c)) eqn:Ha; [|by apply Hnone]. destruct Hok as [_ _ Hw].
    unfold udt_stop_recording. rewrite Ha. destruct (mp4_writer (rec c)); [|done].
    destruct Hw as [Hw _]; [done|congruence]. }
  split; [|done]. split; [done|]. intros Hw. by rewrite Hn in Hw.
Qed.

Lemma good_closed s c : good c → mp4_writer (rec c) = None → good (set_state s c).
Proof.
  intros [Hok _] Hn. split; [eapply ok_same; [|exact Hok]; repeat split|]. intros Hw. by destruct (Hw Hn).
Qed.

Lemma record_good a pkt s c : good c → good (record_packet init_ok a pkt s c).
Proof.
  intros Hg. unfold record_packet. destruct s; try done; [by apply write_good|].
  pose proof (write_good pkt c Hg) as Hw. case_match; [|done]. by apply good_closed; apply stop_good.
Qed.

(** The local variable says BUFFERING only when the state does. *)
Lemma external_good a s c :
  (s = UDT_STATE_BUFFERING → state c = UDT_STATE_BUFFERING) → good c →
  good (external_trigger timestamp_text init_ok a s c).
Proof.
  intros Hs Hg. unfold external_trigger. set (c1 := set_sig _ c).
  assert (Hg1 : good c1) by (unchanged Hg). case_match.
  - assert (Hg2 : good (set_last_detection (now a) c1)) by (unchanged Hg1).
    destruct (annotation_only (cfg (set_last_detection (now a) c1))) eqn:Ha; [done|]. destruct s; try done.
    + apply open_recording_good'; [done|by apply Hs|done].
    + by apply good_set_state_recording; [apply recording_is_recording|].
  - case_match; [|done]. destruct (annotation_only (cfg c1)), s; try done.
    apply good_set_state_recording; [apply post_buffer_is_recording|]. unchanged Hg1.
Qed.

Lemma run_detection_good a c : good c → good (run_detection_on_frame a c).2.
Proof.
  intros Hg. unfold run_detection_on_frame. destruct (frame a) as [[]| [] | | ]; simpl; try done.
  - by apply report_good.
  - unchanged Hg.
  - case_match; [done|]. by apply report_good.
Qed.

Lemma main_good a c : good c → good (main_stream_detection timestamp_text init_ok grace_period a c).
Proof.
  intros Hg. unfold main_stream_detection. destruct (_ && _); [|done]. case_match; [|done].
  assert (Hg1 : good (set_last_check (now a) c)) by (unchanged Hg).
  pose proof (run_detection_good a _ Hg1) as Hr. destruct (run_detection_on_frame a _) as [d c1]. by apply handle_good.
Qed.

Lemma record_state a pkt s c : s = UDT_STATE_BUFFERING → record_packet init_ok a pkt s c = c.
Proof. by intros ->. Qed.

Lemma count_state a pkt c : state (count_packet a pkt c) = state c.
Proof. unfold count_packet. by repeat case_match. Qed.

Lemma buffer_state a pkt c : state (buffer_packet a pkt c) = state c.
Proof.
  unfold buffer_packet. destruct (gate_packet a pkt c) as [b c'] eqn:E.
  assert (Hs : state c' = state c) by (revert E; unfold gate_packet; repeat case_match; intros; by simplify_eq).
  by destruct b.
Qed.

Lemma process_good a pkt c : good c → good (process_packet timestamp_text init_ok grace_period a pkt c).
Proof.
  intros Hg. unfold process_packet. set (c1 := count_packet a pkt c). set (c2 := buffer_packet a pkt c1).
  assert (Hg2 : good c2) by (apply buffer_good, count_good, Hg).
  assert (Hs2 : state c2 = state c) by (unfold c2, c1; by rewrite buffer_state, count_state).
  pose proof (consume_good a c2 Hg2) as Hg3.
  set (s := if detection_stream_connected (sig c2) then _ else _).
  assert (Hs : s = state (consume_detection_stream timestamp_text init_ok grace_period a c2)).
  { unfold s. destruct (detection_stream_connected (sig c2)) eqn:E; [done|].
    unfold consume_detection_stream. by rewrite E. }
  destruct (_ && _); [|by apply record_good]. apply main_good, external_good; [|by apply record_good].
  intros Hb. rewrite record_state by done. by rewrite <-Hs.
Qed.

(** ** The thread *)

Lemma closed_unless_recording c : good c → ¬ recording_state (state c) → mp4_writer (rec c) = None.
Proof. intros [_ Hp] Hs. destruct (mp4_writer (rec c)) eqn:E; [|done]. destruct Hs. apply Hp. by rewrite E. Qed.

Ltac not_recording := unfold recording_state; rewrite !elem_of_cons, elem_of_nil; naive_solver.

Lemma close_good a c :
  good c → let c' := match mp4_writer (rec c) with Some _ => udt_stop_recording a c | None => c end in
  good c' ∧ mp4_writer (rec c') = None.
Proof. intros Hg. destruct (mp4_writer (rec c)) eqn:E; [by apply stop_good|done]. Qed.

Lemma connected_good t a i c :
  good c → good (connected t a i c) ∧ rec (connected t a i c) = rec c.
Proof.
  intros Hg. unfold connected. destruct (info_fps i) as [[f p]|]; (split; [|done]).
  - eapply good_same; [| |apply (good_beside [EvVideoFps f] c)]; [by repeat split|done|by repeat constructor|exact Hg].
  - unchanged Hg.
Qed.

Lemma turn_good i th :
  good (thread_ctx th) → good (thread_ctx (udt_turn timestamp_text init_ok grace_period i th)).
Proof.
  intros Hg. unfold udt_turn. set (c := thread_ctx th) in *.
  assert (Hread : good (thread_ctx
    match turn_read i with
    | Some pkt =>
        let k := conn c in
        let first := (av_size pkt >? 0) && negb (saw_real_packets th) in
        let c := if av_size pkt >? 0
                 then set_conn (mkConnection (input_ctx k) (video_stream_idx k) (audio_stream_idx k) (reconnect_attempt k)
                                  (if first then 0 else consecutive_failures k) (turn_time i)) c else c in
        mkThread (process_packet timestamp_text init_ok grace_period (turn_answers i) pkt c)
          (if first then BASE_RECONNECT_DELAY_MS else reconnect_delay_ms th) (saw_real_packets th || first)
    | None =>
        if turn_time i - last_packet_time (conn c) >? MAX_PACKET_TIMEOUT_SEC then
          let k := conn c in
          let silent := negb (saw_real_packets th) in
          let c := if silent then set_conn (mkConnection (input_ctx k) (video_stream_idx k) (audio_stream_idx k)
                               (reconnect_attempt k) (consecutive_failures k + 1) (last_packet_time k)) c else c in
          mkThread (set_state UDT_STATE_RECONNECTING (disconnect_from_stream c))
            (if silent then backoff (reconnect_delay_ms th) else reconnect_delay_ms th) (saw_real_packets th)
        else th
    end)).
  { destruct (turn_read i) as [pkt|]; cbv zeta.
    - simpl. apply process_good. case_match; [unchanged Hg|done].
    - case_match; [|done]. apply good_set_state_recording; [unfold recording_state; rewrite !elem_of_cons; tauto|].
      destruct (negb _); unchanged Hg. }
  destruct (state c) eqn:Hs; cbn [thread_ctx]; try exact Hread; clear Hread.
  - apply good_closed; [done|]. apply closed_unless_recording; [done|]. rewrite Hs. not_recording.
  - assert (Hn : mp4_writer (rec c) = None) by (apply closed_unless_recording; [done|]; rewrite Hs; not_recording).
    destruct (turn_connect i) as [info|]; cbn [thread_ctx]; [|unchanged Hg].
    destruct (connected_good (turn_time i) (turn_answers i) info c Hg) as [Hc Hr]. apply good_closed; [done|]. by rewrite Hr.
  - destruct (close_good (turn_answers i) c Hg) as [Hc Hn]. apply good_closed; [by apply good_clear|done].
  - destruct (close_good (turn_answers i) c Hg) as [Hc Hn]. apply good_closed; [unchanged Hc|done].
  - unchanged Hg.
Qed.

Lemma step_good e th :
  good (thread_ctx th) → good (thread_ctx (step timestamp_text init_ok grace_period e th)).
Proof.
  intros Hg. destruct e; cbn [step on_ctx thread_ctx]; try (unchanged Hg).
  - destruct (running (thread_ctx th)); [by apply turn_good|done].
  - apply good_set_state_recording; [unfold recording_state; rewrite !elem_of_cons; tauto|unchanged Hg].
Qed.

Lemma run_good es th :
  good (thread_ctx th) → good (thread_ctx (run timestamp_text init_ok grace_period es th)).
Proof. revert th. induction es as [|e es IH]; intros th Hg; [done|]. by apply IH, step_good. Qed.

Lemma new_thread_good s b q t : pre_holds b q → good (thread_ctx (new_thread s b t)).
Proof. intros Hb. split; [split; [by exists q|done|by intros []]|by intros []]. Qed.

(** C1: whatever the camera, the detector and the other threads do, and in
    every order, recordings are made one at a time: a file is entered in the
    database when it is created, written only while it is open, closed, and its
    entry completed.  It is open only in the recording states, or until the
    thread has reconnected or stopped; when the thread has exited none is. *)
Theorem recordings_complete s b q t es a :
  pre_holds b q →
  let th := run timestamp_text init_ok grace_period es (new_thread s b t) in
  let c := thread_ctx th in
  file_phase (effects c) = Some (expected_phase c) ∧
  (mp4_writer (rec c) ≠ None → recording_state (state c)) ∧
  file_phase (effects (udt_exit a th)) = Some Idle ∧ mp4_writer (rec (udt_exit a th)) = None.
Proof.
  intros Hb th c. assert (Hg : good c) by (eapply run_good, new_thread_good, Hb).
  destruct (close_good a c Hg) as [[[_ Hp _] _] Hn]. pose proof Hg as [[_ Hphase _] Hplace].
  split_and!; [done..| |exact Hn]. unfold expected_phase in Hp. rewrite Hn in Hp. exact Hp.
Qed.

(** ** What is written *)

Definition written (es : list effect) : list AVPacket :=
  omap (λ e, match e with EvWrite pkt => Some pkt | _ => None end) es.

Lemma written_app es es' : written (es ++ es') = written es ++ written es'.
Proof. apply omap_app. Qed.

(** What the counters, the buffer and the detector leave alone. *)
Record same_control c c' : Prop := {
  sc_rec : rec c' = rec c;
  sc_state : state c' = state c;
  sc_times : times c' = times c;
  sc_sig : sig c' = sig c;
  sc_conn : conn c' = conn c;
  sc_cfg : cfg c' = cfg c;
  sc_written : written (effects c') = written (effects c)
}.

Lemma same_control_trans c1 c2 c3 : same_control c1 c2 → same_control c2 c3 → same_control c1 c3.
Proof. intros [] []. split; congruence. Qed.

Lemma same_control_emit e c : written [e] = [] → same_control c (emit [e] c).
Proof. intros He. split; try done. simpl. by rewrite written_app, He, app_nil_r. Qed.

Lemma count_control a pkt c : same_control c (count_packet a pkt c).
Proof.
  unfold count_packet. destruct (_ && _); [|done]. case_match; [|done]. case_match; [|done].
  eapply same_control_trans; [|by apply same_control_emit]. done.
Qed.

Lemma gate_control a pkt c : same_control c (gate_packet a pkt c).2.
Proof. unfold gate_packet. repeat case_match; done. Qed.

Lemma buffer_control a pkt c : same_control c (buffer_packet a pkt c).
Proof.
  unfold buffer_packet. pose proof (gate_control a pkt c) as Hg. destruct (gate_packet a pkt c) as [b c']. simpl in Hg.
  eapply same_control_trans; [exact Hg|]. eapply same_control_trans; [|by apply same_control_emit]. by destruct b.
Qed.

Lemma report_control n t c : same_control c (report_detections n t c).
Proof.
  unfold report_detections. destruct (n =? 0); [done|]. destruct (api_model (cfg c)); [done|].
  eapply same_control_trans; [by apply (same_control_emit (EvStoreDetections n t (annotation_only (cfg c))
    (if annotation_only (cfg c) then 0 else current_recording_id (rec c))))|done].
Qed.

Lemma run_detection_control a c : same_control c (run_detection_on_frame a c).2.
Proof.
  unfold run_detection_on_frame. destruct (frame a) as [[]| [] | | ]; simpl; try done; [apply report_control|].
  case_match; [done|apply report_control].
Qed.

(** Whether a packet read in a recording state ends up in the file. *)
Definition recordable c (pkt : AVPacket) : bool :=
  match mp4_writer (rec c), input_ctx (conn c) with
  | Some w, Some _ =>
      (if is_video c pkt then video_stream_idx (conn c) >=? 0 else audio_stream_idx (conn c) >=? 0) &&
      (is_initialized w || (is_video c pkt && is_key pkt && init_ok pkt))
  | _, _ => false
  end.

Lemma write_packet_written pkt c :
  let c' := write_packet init_ok pkt c in
  written (effects c') = written (effects c) ++ (if recordable c pkt then [pkt] else []) ∧
  (mp4_writer (rec c) = None → mp4_writer (rec c') = None) ∧
  state c' = state c ∧ times c' = times c ∧ sig c' = sig c ∧ cfg c' = cfg c.
Proof.
  unfold write_packet, recordable. destruct (mp4_writer (rec c)) as [w|] eqn:Hw; [|by rewrite app_nil_r].
  destruct (input_ctx (conn c)); [|by rewrite app_nil_r]. destruct (if is_video c pkt then _ else _); simpl; [|by rewrite app_nil_r].
  destruct (is_initialized w) eqn:Hi, (is_video c pkt && is_key pkt && init_ok pkt) eqn:E; simpl;
    rewrite ?andb_assoc, ?E; simpl; rewrite ?Hi, ?written_app; simpl; rewrite ?app_nil_r; done.
Qed.

(** In a recording, what decides changes the state and the times only. *)
Definition same_file c c' : Prop :=
  rec c' = rec c ∧ written (effects c') = written (effects c) ∧ conn c' = conn c ∧ cfg c' = cfg c.

Definition filming (s : unified_detection_state_t) : Prop := s = UDT_STATE_RECORDING ∨ s = UDT_STATE_POST_BUFFER.

Lemma handle_filming a d c :
  filming (state c) →
  let c' := handle_recording_state timestamp_text init_ok grace_period a d c in
  same_file c c' ∧ filming (state c') ∧ sig c' = sig c.
Proof.
  unfold handle_recording_state, filming, same_file. intros [Hs|Hs]; rewrite Hs;
    destruct d, (annotation_only (cfg c)) eqn:Ha; simpl; rewrite ?Ha; try case_match; simpl; by auto.
Qed.

Lemma external_filming a s c :
  filming s → let c' := external_trigger timestamp_text init_ok a s c in
  same_file c c' ∧ (filming (state c) → filming (state c')) ∧
  detection_stream_connected (sig c') = detection_stream_connected (sig c).
Proof.
  unfold external_trigger, filming, same_file. intros [-> | ->]; repeat case_match; simpl; by auto.
Qed.

Lemma main_filming a c :
  filming (state c) ∨ detection_stream_connected (sig c) = true →
  same_file c (main_stream_detection timestamp_text init_ok grace_period a c).
Proof.
  intros Hc. unfold main_stream_detection, same_file.
  destruct (detection_stream_connected (sig c)); [by rewrite andb_false_r|]. destruct Hc as [Hc|]; [|done].
  destruct (_ && _); [|done]. case_match; [|done].
  pose proof (run_detection_control a (set_last_check (now a) c)) as Hr.
  destruct (run_detection_on_frame a _) as [d c1]. destruct Hr as []. simpl in *.
  destruct (handle_filming a d c1) as [(? & ? & ? & ?) _]; [by rewrite sc_state0|]. split_and!; congruence.
Qed.

Lemma same_file_trans c1 c2 c3 : same_file c1 c2 → same_file c2 c3 → same_file c1 c3.
Proof. unfold same_file. intros (?&?&?&?) (?&?&?&?). split_and!; congruence. Qed.

Lemma same_control_file c c' : same_control c c' → same_file c c'.
Proof. by intros []. Qed.

Lemma same_file_recordable c c' pkt : same_file c c' → recordable c' pkt = recordable c pkt.
Proof. unfold same_file, recordable, is_video. by intros (-> & _ & -> & _). Qed.

Lemma consume_filming a c :
  filming (state c) →
  let c' := consume_detection_stream timestamp_text init_ok grace_period a c in
  same_file c c' ∧ filming (state c') ∧
  detection_stream_connected (sig c') = detection_stream_connected (sig c) ∧
  (detection_stream_connected (sig c) = false → c' = c).
Proof.
  intros Hs. unfold consume_detection_stream. destruct (detection_stream_connected (sig c)) eqn:Hd; [|by split_and!].
  destruct (detection_stream_result (sig c)).
  - set (c1 := set_sig _ c). set (t := if detection_stream_pending_ts (sig c) >? 0 then _ else now a).
    pose proof (report_control (detection_stream_pending (sig c)) t c1) as Hr.
    destruct (handle_filming a true (report_detections (detection_stream_pending (sig c)) t c1)) as (Hf & Hs' & Hsig).
    { by rewrite (sc_state _ _ Hr). }
    split_and!; [|done| |done].
    + assert (H1 : same_file c c1) by done. eapply same_file_trans; [exact H1|]. eapply same_file_trans; [by apply same_control_file|done].
    + rewrite Hsig, (sc_sig _ _ Hr). done.
  - destruct (handle_filming a false c) as (Hf & Hs' & Hsig); [done|]. split_and!; [done..| |done]. by rewrite Hsig.
Qed.

Lemma stop_written a c :
  written (effects (udt_stop_recording a c)) = written (effects c) ∧
  (annotation_only (cfg c) = false → mp4_writer (rec (udt_stop_recording a c)) = None) ∧
  (mp4_writer (rec c) = None → mp4_writer (rec (udt_stop_recording a c)) = None) ∧
  cfg (udt_stop_recording a c) = cfg c ∧ sig (udt_stop_recording a c) = sig c.
Proof.
  unfold udt_stop_recording. destruct (annotation_only (cfg c)); [by split_and!|].
  destruct (mp4_writer (rec c)) eqn:E; [|by split_and!]. split_and!; try done; simpl; repeat case_match; simpl;
    rewrite ?written_app; simpl; by rewrite ?app_nil_r.
Qed.

Lemma record_filming a pkt c :
  filming (state c) →
  let c' := record_packet init_ok a pkt (state c) c in
  written (effects c') = written (effects c) ++ (if recordable c pkt then [pkt] else []) ∧
  (mp4_writer (rec c) = None → mp4_writer (rec c') = None) ∧
  (state c = UDT_STATE_RECORDING → state c' = UDT_STATE_RECORDING) ∧ sig c' = sig c.
Proof.
  destruct (write_packet_written pkt c) as (Hw & Hn & Hs & Ht & Hsig & Hcfg). unfold record_packet.
  intros [Hst|Hst]; rewrite Hst; [by split_and!; try congruence|].
  destruct (now a >=? _); [|by split_and!; try congruence].
  destruct (stop_written a (write_packet init_ok pkt c)) as (Hw' & _ & Hn' & _ & Hsig').
  split_and!; simpl; [by rewrite Hw'|by auto|done|by rewrite Hsig'].
Qed.

(** One packet in a recording: it is written if it can be, once, and nothing
    else is, whatever is decided about the recording. *)
Lemma process_recording a pkt c :
  state c = UDT_STATE_RECORDING →
  let c' := process_packet timestamp_text init_ok grace_period a pkt c in
  written (effects c') = written (effects c) ++ (if recordable c pkt then [pkt] else []) ∧
  (mp4_writer (rec c) = None → mp4_writer (rec c') = None).
Proof.
  intros Hst. unfold process_packet. set (c2 := buffer_packet a pkt (count_packet a pkt c)).
  assert (Hc2 : same_control c c2) by (eapply same_control_trans; [apply count_control|apply buffer_control]).
  pose proof Hc2 as [Hr2 Hs2 _ _ _ _ Hw2]. pose proof (same_file_recordable c c2 pkt (same_control_file _ _ Hc2)) as Hrec2.
  destruct (consume_filming a c2) as (Hf3 & Hs3 & Hd3 & Hsame); [left; congruence|].
  set (c3 := consume_detection_stream timestamp_text init_ok grace_period a c2) in *.
  pose proof (same_file_recordable c2 c3 pkt Hf3) as Hrec3. destruct Hf3 as (Hr3 & Hw3 & _ & _).
  replace (if detection_stream_connected (sig c2) then state c3 else state c) with (state c3)
    by (destruct (detection_stream_connected (sig c2)); [done|]; rewrite Hsame by done; congruence).
  destruct (record_filming a pkt c3 Hs3) as (Hw4 & Hn4 & Hs4 & Hsig4).
  set (c4 := record_packet init_ok a pkt (state c3) c3) in *.
  rewrite Hrec3, Hrec2, Hw3, Hw2, Hr3, Hr2 in *.
  destruct (_ && _); [|by split].
  destruct (external_filming a (state c3) c4 Hs3) as ((Hr5 & Hw5 & _ & _) & Hs5 & Hd5).
  set (c5 := external_trigger timestamp_text init_ok a (state c3) c4) in *.
  destruct (main_filming a c5) as (Hr6 & Hw6 & _ & _).
  - destruct (detection_stream_connected (sig c2)) eqn:Hd; [right; congruence|left]. apply Hs5. left. apply Hs4.
    rewrite Hsame by done. congruence.
  - rewrite Hr6, Hw6, Hr5, Hw5. by split.
Qed.

(** while a recording is on, every packet read is appended to the file,
    once, if its stream is known and the file is initialized or this packet
    initializes it; nothing else is written, whatever the detectors and the
    other threads say at the same time. *)
Theorem recording_appends_packet a pkt c :
  state c = UDT_STATE_RECORDING →
  written (effects (process_packet timestamp_text init_ok grace_period a pkt c))
    = written (effects c) ++ (if recordable c pkt then [pkt] else []).
Proof. intros Hs. apply (process_recording a pkt c Hs). Qed.

(** a motion trigger that arrives with the end of the post-buffer loses the
    motion: the file is closed, and yet the state becomes RECORDING, in which
    no file is opened; a further packet is not recorded either. *)
Theorem motion_at_expiry_lost a pkt c :
  state c = UDT_STATE_POST_BUFFER → annotation_only (cfg c) = false →
  post_buffer_end_time (times c) ≤ now a → is_video c pkt && is_key pkt = true →
  external_motion_trigger (sig c) = 1 → detection_stream_connected (sig c) = false →
  0 ≤ detection_interval (cfg c) + grace_period →
  let c' := process_packet timestamp_text init_ok grace_period a pkt c in
  state c' = UDT_STATE_RECORDING ∧ mp4_writer (rec c') = None ∧
  ∀ a' pkt', let c'' := process_packet timestamp_text init_ok grace_period a' pkt' c' in
    mp4_writer (rec c'') = None ∧ written (effects c'') = written (effects c').
Proof.
  intros Hst Ha Hend Hkey Htr Hdc Hgr c'.
  cut (state c' = UDT_STATE_RECORDING ∧ mp4_writer (rec c') = None).
  { intros [Hs Hn]. split_and!; [done..|]. intros a' pkt'. destruct (process_recording a' pkt' c' Hs) as [Hw Hn'].
    split; [by apply Hn'|]. rewrite Hw. unfold recordable. rewrite Hn. apply app_nil_r. }
  unfold c', process_packet. clear c'. rewrite Hkey.
  set (c2 := buffer_packet a pkt (count_packet a pkt c)).
  assert (Hc2 : same_control c c2) by (eapply same_control_trans; [apply count_control|apply buffer_control]).
  destruct Hc2 as [_ Hs2 Ht2 Hsig2 _ Hcfg2 _]. unfold consume_detection_stream. rewrite Hsig2, Hdc, Hst.
  unfold record_packet. destruct (write_packet_written pkt c2) as (_ & _ & _ & Ht3 & Hsig3 & Hcfg3).
  set (c3 := write_packet init_ok pkt c2) in *. replace (now a >=? post_buffer_end_time (times c3)) with true by (symmetry; rewrite Ht3, Ht2; lia).
  destruct (stop_written a c3) as (_ & Hn & _ & Hcfg4 & Hsig4). specialize (Hn ltac:(congruence)).
  set (c4 := udt_stop_recording a c3) in *. unfold external_trigger, main_stream_detection. simpl.
  rewrite Hsig4, Hsig3, Hsig2, Htr, Hcfg4, Hcfg3, Hcfg2, Ha. simpl. rewrite Hdc. simpl. rewrite Hcfg4, Hcfg3, Hcfg2.
  case_match; [|by split]. set (c5 := set_last_check _ _).
  pose proof (run_detection_control a c5) as Hr. destruct (run_detection_on_frame a c5) as [d c6].
  destruct Hr as [Hr6 Hs6 Ht6 _ _ Hcfg6 _]. simpl in Hr6, Hs6, Ht6, Hcfg6. unfold handle_recording_state.
  rewrite Hs6, Hcfg6, Hcfg4, Hcfg3, Hcfg2, Ha, Ht6. simpl. destruct d; simpl; [rewrite Hcfg6, Hcfg4, Hcfg3, Hcfg2, Ha|].
  - simpl. by rewrite Hs6, Hr6.
  - replace (now a - now a >? detection_interval (cfg c) + grace_period) with false by lia. by rewrite Hs6, Hr6.
Qed.

(** ** The start of a recording *)

(** The part of the pre-buffer a recording begins with: from the first packet
    that can initialize the file. *)
Definition opens (k : connection) (pkt : AVPacket) : bool :=
  (av_stream_index pkt =? video_stream_idx k) && (video_stream_idx k >=? 0) && is_key pkt && init_ok pkt.

Fixpoint clip (k : connection) (q : list AVPacket) : list AVPacket :=
  match q with
  | [] => []
  | pkt :: q => if opens k pkt then pkt :: filter (λ p, input_stream k p = true) q else clip k q
  end.

Definition clip_effects (k : connection) (q : list AVPacket) : list effect :=
  match clip k q with
  | [] => []
  | pkt :: q => EvInitialize pkt :: map EvWrite (pkt :: q)
  end.

Definition deliver_all (k : connection) (q : list (Z * AVPacket)) (u : flush_callback_ctx_t) : flush_callback_ctx_t :=
  foldl (λ u (e : Z * AVPacket), (flush_packet_callback init_ok k e.2 u).2) u q.

Lemma deliver_initialized k q w es tb :
  input_ctx k = Some tb →
  flush_effects (deliver_all k q (mkFlush w es true true))
    = es ++ map EvWrite (filter (λ p, input_stream k p = true) (snd <$> q)).
Proof.
  intros Hk. revert w es. induction q as [|e q IH]; intros w es; [by rewrite app_nil_r|].
  unfold deliver_all in *. cbn [foldl fmap list_fmap]. rewrite filter_cons. unfold flush_packet_callback at 2. simpl. rewrite Hk.
  destruct (input_stream k e.2) eqn:E; simpl; rewrite IH; [by rewrite <-app_assoc|done].
Qed.

Lemma video_known k pkt :
  av_stream_index pkt =? video_stream_idx k = true → input_stream k pkt = (video_stream_idx k >=? 0).
Proof.
  intros E. unfold input_stream. rewrite E. unbool. rewrite E. destruct (video_stream_idx k >=? 0) eqn:Ev; [done|].
  cbn [andb orb]. apply andb_false_iff. rewrite Z.eqb_neq. unbool. lia.
Qed.

(** Until a packet opens the file the flush writes nothing; [found] may have
    been set by a key frame that failed to. *)
Lemma deliver_uninitialized k q w es found tb :
  input_ctx k = Some tb → is_initialized w = false →
  flush_effects (deliver_all k q (mkFlush w es found false)) = es ++ clip_effects k (snd <$> q).
Proof.
  intros Hk Hw. revert found. induction q as [|e q IH]; intros found; [by rewrite app_nil_r|].
  change (deliver_all k (e :: q) ?u) with (deliver_all k q (flush_packet_callback init_ok k e.2 u).2).
  unfold clip_effects. cbn [clip fmap list_fmap]. unfold opens.
  unfold flush_packet_callback. cbn [found_keyframe flush_writer writer_initialized flush_effects]. rewrite Hk, Hw.
  destruct (av_stream_index e.2 =? video_stream_idx k) eqn:Ev.
  - rewrite (video_known _ _ Ev).
    destruct (is_key e.2), (video_stream_idx k >=? 0), found; cbn [andb orb negb]; try apply IH.
    all: destruct (init_ok e.2); cbn [snd]; [|apply IH].
    all: by rewrite (deliver_initialized k q _ _ tb Hk), <-app_assoc.
  - rewrite !andb_false_r. cbn [andb orb]. destruct found, (input_stream k e.2); apply IH.
Qed.

Lemma written_clip k q : written (clip_effects k q) = clip k q.
Proof.
  unfold clip_effects. destruct (clip k q) as [|pkt l]; [done|]. simpl. f_equal. induction l as [|p l IH]; [done|].
  simpl. by f_equal.
Qed.

(** What a recording that starts leaves behind, for the queue [q] of its
    pre-buffer. *)
Definition opening (a : answers) c (path : cstr) (q : list (Z * AVPacket)) : list effect :=
  [EvCreate path; EvAddRecording path (clock a) 0 0 false (recording_id a); EvRecordingActive true] ++
  clip_effects (conn c) (snd <$> q) ++
  if (pre_duration (packet_buffer c) >? 0) && (recording_id a >? 0)
  then [EvUpdateStart (recording_id a) (now a - Z.min (pre_duration (packet_buffer c)) (pre_buffer_seconds (cfg c)))]
  else [].

Lemma flush_spec c w q tb :
  mp4_writer (rec c) = Some w → is_initialized w = false → pre_holds (packet_buffer c) q →
  input_ctx (conn c) = Some tb →
  let c' := flush_prebuffer_to_recording init_ok c in
  effects c' = effects c ++ clip_effects (conn c) (snd <$> q) ∧ pre_holds (packet_buffer c') [] ∧
  (∃ w', mp4_writer (rec c') = Some w' ∧ start_time_corrected w' = start_time_corrected w) ∧
  current_recording_id (rec c') = current_recording_id (rec c) ∧
  conn c' = conn c ∧ cfg c' = cfg c ∧ sig c' = sig c ∧ times c' = times c.
Proof.
  intros Hrec Hi Hq Hk. unfold flush_prebuffer_to_recording. rewrite Hrec.
  destruct (pre_flush_delivers (packet_buffer c) q (flush_packet_callback init_ok (conn c)) (mkFlush w [] false false) Hq)
    as [Hu Hb]. destruct (pre_flush _ _ _) as [b u]. simpl in Hu, Hb.
  fold (deliver_all (conn c) q (mkFlush w [] false false)) in Hu. split_and!; try done.
  - simpl. by rewrite Hu, (deliver_uninitialized _ _ _ _ _ _ Hk Hi).
  - exists (flush_writer u). split; [done|]. rewrite Hu. clear. unfold deliver_all.
    assert (Hgen : ∀ v : flush_callback_ctx_t,
      start_time_corrected (flush_writer (foldl (λ u (e : Z * AVPacket), (flush_packet_callback init_ok (conn c) e.2 u).2) v q))
      = start_time_corrected (flush_writer v)); [|apply Hgen].
    induction q as [|e q IH]; intros v; [done|]. simpl. rewrite IH. unfold flush_packet_callback. repeat case_match; by simplify_eq/=.
Qed.

Lemma open_recording_spec a c c' q tb :
  pre_holds (packet_buffer c) q → annotation_only (cfg c) = false → input_ctx (conn c) = Some tb →
  open_recording timestamp_text init_ok a c = (true, c') →
  (∃ path, effects c' = effects c ++ opening a c path q) ∧ state c' = UDT_STATE_RECORDING ∧
  pre_holds (packet_buffer c') [] ∧ current_recording_id (rec c') = recording_id a ∧ mp4_writer (rec c') ≠ None ∧
  conn c' = conn c ∧ cfg c' = cfg c ∧ sig c' = sig c ∧ times c' = times c.
Proof.
  intros Hq Ha Hk. unfold open_recording, udt_start_recording. rewrite Ha.
  destruct (negb (dir_ok a)); [done|]. destruct (negb (create_ok a)); [done|]. cbn [negb].
  set (path := strcpy_trunc _ _). set (c1 := set_stats _ _). intros [= <-].
  destruct (flush_spec c1 (mkWriter false (clock a) false
    (record_audio (cfg c) && (audio_stream_idx (conn c) >=? 0) && audio_ok a)) q tb) as
    (He & Hb & (w' & Hw' & Hs') & Hid & Hconn & Hcfg & Hsig & Ht); [done..|].
  set (c2 := flush_prebuffer_to_recording init_ok c1) in *.
  change (current_recording_id (rec c1)) with (recording_id a) in Hid.
  change (effects c1) with (effects c ++ [EvCreate path; EvAddRecording path (clock a) 0 0 false (recording_id a); EvRecordingActive true]) in He.
  change (conn c1) with (conn c) in *. change (cfg c1) with (cfg c) in Hcfg.
  change (sig c1) with (sig c) in Hsig. change (times c1) with (times c) in Ht.
  change (packet_buffer c1) with (packet_buffer c). clearbody c2. clear c1.
  unfold correct_start_time. cbn [rec set_state]. rewrite Hw', Hs', Hid. cbn [negb andb start_time_corrected]. unfold opening.
  destruct ((pre_duration _ >? 0) && _); split_and!; try done; try (exists path); simpl;
    rewrite ?He, ?Hw', ?Hcfg, <-?app_assoc, ?app_nil_r; try done.
  simpl. do 8 f_equal. destruct (_ >? _) eqn:E; lia.
Qed.

(** C39: a recording that starts begins with the pre-buffer: the file is created
    and entered in the database; the packets of the buffer are written in
    order, from the first video key frame that initializes the file, less those
    of unknown streams; the entry is dated back by the length of the buffer,
    at most the configured one; the buffer is left empty. *)
Theorem recording_includes_prebuffer a c c' q tb :
  pre_holds (packet_buffer c) q → annotation_only (cfg c) = false → input_ctx (conn c) = Some tb →
  open_recording timestamp_text init_ok a c = (true, c') →
  (∃ path, effects c' = effects c ++ opening a c path q) ∧ state c' = UDT_STATE_RECORDING ∧
  pre_holds (packet_buffer c') [] ∧ current_recording_id (rec c') = recording_id a.
Proof. intros Hq Ha Hk E. by destruct (open_recording_spec a c c' q tb Hq Ha Hk E) as (? & ? & ? & ? & _). Qed.

(** A packet of a live stream enters the pre-buffer. *)
Lemma buffered a pkt c tb :
  opens (conn c) pkt = true → input_ctx (conn c) = Some tb → stream_is_live (live c) = true →
  first_video_pts_set (live c) = true →
  packet_buffer (buffer_packet a pkt (count_packet a pkt c)) = pre_add (packet_buffer c) pkt (now a).
Proof.
  unfold opens. rewrite !andb_true_iff. intros [[[Hv Hi] _] _] Hk Hl Hf.
  assert (Hc : packet_buffer (count_packet a pkt c) = packet_buffer c ∧ live (count_packet a pkt c) = live c ∧
               conn (count_packet a pkt c) = conn c).
  { unfold count_packet. by repeat case_match. }
  destruct Hc as (Hb & Hlive & Hconn). unfold buffer_packet, gate_packet, is_video.
  by rewrite Hconn, Hv, Hk, Hi, Hlive, Hf, Hl, <-Hb.
Qed.

Lemma clip_snoc k q pkt : opens k pkt = true → ∃ l, clip k (q ++ [pkt]) = l ++ [pkt].
Proof.
  intros Ho. assert (Hin : input_stream k pkt = true).
  { unfold opens in Ho. rewrite !andb_true_iff in Ho. destruct Ho as [[[Hv Hi] _] _]. by rewrite video_known. }
  induction q as [|p q [l IH]]; simpl; [rewrite Ho; by exists []|]. destruct (opens k p).
  - exists (p :: filter (λ p, input_stream k p = true) q). by rewrite filter_app, filter_cons_True.
  - by exists l.
Qed.

Lemma report_buffer n t c : packet_buffer (report_detections n t c) = packet_buffer c.
Proof. unfold report_detections. by repeat case_match. Qed.

Lemma open_recording_succeeds a c :
  annotation_only (cfg c) = false → dir_ok a = true → create_ok a = true →
  ∃ c', open_recording timestamp_text init_ok a c = (true, c').
Proof. intros Ha Hd Hc. unfold open_recording, udt_start_recording. rewrite Ha, Hd, Hc. simpl. by eexists. Qed.

Lemma written_opening a c path q : written (opening a c path q) = clip (conn c) (snd <$> q).
Proof.
  unfold opening. rewrite !written_app, written_clip. simpl. destruct (_ && _); simpl; by rewrite app_nil_r.
Qed.

(** The hand-off of the detection stream opens the recording. *)
Lemma consume_opens a c q tb :
  state c = UDT_STATE_BUFFERING → annotation_only (cfg c) = false → dir_ok a = true → create_ok a = true →
  detection_stream_connected (sig c) = true → detection_stream_result (sig c) = true →
  input_ctx (conn c) = Some tb → pre_holds (packet_buffer c) q →
  let c' := consume_detection_stream timestamp_text init_ok grace_period a c in
  written (effects c') = written (effects c) ++ clip (conn c) (snd <$> q) ∧ state c' = UDT_STATE_RECORDING ∧
  mp4_writer (rec c') ≠ None ∧ conn c' = conn c ∧ detection_stream_connected (sig c') = true.
Proof.
  intros Hs Ha Hd Hcr Hdc Hdr Hk Hq. unfold consume_detection_stream. rewrite Hdc, Hdr.
  set (c1 := set_sig _ c). set (t := if detection_stream_pending_ts (sig c) >? 0 then _ else now a).
  destruct (report_control (detection_stream_pending (sig c)) t c1) as [_ Hs2 _ Hsig2 Hconn2 Hcfg2 Hw2].
  pose proof (report_buffer (detection_stream_pending (sig c)) t c1) as Hb2.
  set (c2 := report_detections _ t c1) in *. unfold handle_recording_state.
  change (cfg (set_last_detection (now a) c2)) with (cfg c2). rewrite Hs2, Hcfg2.
  change (cfg c1) with (cfg c). rewrite Ha. change (state c1) with (state c). rewrite Hs.
  set (c3 := set_last_detection (now a) c2).
  assert (Ha3 : annotation_only (cfg c3) = false) by (change (cfg c3) with (cfg c2); by rewrite Hcfg2).
  destruct (open_recording_succeeds a c3 Ha3 Hd Hcr) as (c4 & E). rewrite E.
  destruct (open_recording_spec a c3 c4 q tb) as ([path He] & Hs4 & _ & _ & Hw4 & Hconn4 & _ & Hsig4 & _);
    [|done| |exact E|].
  { change (packet_buffer c3) with (packet_buffer c2). by rewrite Hb2. }
  { change (conn c3) with (conn c2). by rewrite Hconn2. }
  split_and!; simpl; [|done|done| |].
  - rewrite written_app, He, written_app, written_opening. simpl. rewrite app_nil_r.
    change (conn c3) with (conn c2). change (effects c3) with (effects c2). by rewrite Hconn2, Hw2.
  - by rewrite Hconn4.
  - rewrite Hsig4. change (sig c3) with (sig c2). by rewrite Hsig2.
Qed.

(** a recording started by the detection stream writes its first packet
    twice: the packet has just entered the pre-buffer, which is flushed into the
    file, and is then written as the packet at hand. *)
Theorem first_packet_written_twice a pkt c q tb :
  state c = UDT_STATE_BUFFERING → annotation_only (cfg c) = false → dir_ok a = true → create_ok a = true →
  detection_stream_connected (sig c) = true → detection_stream_result (sig c) = true →
  opens (conn c) pkt = true → input_ctx (conn c) = Some tb →
  stream_is_live (live c) = true → first_video_pts_set (live c) = true →
  pre_holds (pre_add (packet_buffer c) pkt (now a)) (q ++ [(now a, pkt)]) →
  ∃ l, written (effects (process_packet timestamp_text init_ok grace_period a pkt c))
         = written (effects c) ++ l ++ [pkt; pkt].
Proof.
  intros Hs Ha Hd Hcr Hdc Hdr Ho Hk Hl Hf Hq. unfold process_packet.
  set (c2 := buffer_packet a pkt (count_packet a pkt c)).
  assert (Hc2 : same_control c c2) by (eapply same_control_trans; [apply count_control|apply buffer_control]).
  rewrite <-(buffered a pkt c tb Ho Hk Hl Hf) in Hq. fold c2 in Hq.
  destruct Hc2 as [_ Hs2 _ Hsig2 Hconn2 Hcfg2 Hw2].
  destruct (consume_opens a c2 (q ++ [(now a, pkt)]) tb) as (Hw3 & Hs3 & Hr3 & Hconn3 & Hdc3);
    rewrite ?Hs2, ?Hcfg2, ?Hsig2, ?Hconn2; [done..|].
  rewrite Hdc. set (c3 := consume_detection_stream timestamp_text init_ok grace_period a c2) in *. rewrite Hs3.
  unfold record_packet. destruct (write_packet_written pkt c3) as (Hw4 & _ & Hs4 & _ & Hsig4 & _).
  assert (Hrec : recordable c3 pkt = true).
  { unfold recordable. destruct (mp4_writer (rec c3)); [|done]. rewrite Hconn3, Hconn2, Hk. unfold is_video.
    rewrite Hconn3, Hconn2. unfold opens in Ho. rewrite !andb_true_iff in Ho. destruct Ho as [[[-> ->] ->] ->].
    by rewrite orb_true_r. }
  rewrite Hrec in Hw4. set (c4 := write_packet init_ok pkt c3) in *.
  destruct (clip_snoc (conn c) (snd <$> q) pkt Ho) as [l El].
  assert (Hw : written (effects c4) = written (effects c) ++ l ++ [pkt; pkt]).
  { rewrite Hw4, Hw3, Hw2, Hconn2, fmap_app. simpl. by rewrite El, <-!app_assoc. }
  exists l. destruct (_ && _); [|done].
  destruct (external_filming a UDT_STATE_RECORDING c4) as ((_ & Hw5 & _ & _) & _ & Hd5); [by left|].
  destruct (main_filming a (external_trigger timestamp_text init_ok a UDT_STATE_RECORDING c4)) as (_ & Hw6 & _ & _).
  - right. by rewrite Hd5, Hsig4.
  - by rewrite Hw6, Hw5.
Qed.

(** ** Without detections *)

Definition nothing_detected (a : answers) : Prop := ∀ c, (run_detection_on_frame a c).1 = false.

Definition idle_signals c : Prop :=
  external_motion_trigger (sig c) = 0 ∧ detection_stream_connected (sig c) = false ∧ annotation_only (cfg c) = false.

Definition grace_window c : Z := detection_interval (cfg c) + grace_period.

(** What a packet does to the state, by the state it finds. *)
Definition quiet_outcome (a : answers) (pkt : AVPacket) c c' : Prop :=
  match state c with
  | UDT_STATE_RECORDING =>
      if is_video c pkt && is_key pkt && (now a - last_detection_check_time (times c) >=? detection_interval (cfg c)) then
        last_detection_check_time (times c') = now a ∧
        (if now a - last_detection_time (times c) >? grace_window c
         then state c' = UDT_STATE_POST_BUFFER ∧ post_buffer_end_time (times c') = now a + post_buffer_seconds (cfg c)
         else state c' = UDT_STATE_RECORDING)
      else last_detection_check_time (times c') = last_detection_check_time (times c) ∧ state c' = UDT_STATE_RECORDING
  | UDT_STATE_POST_BUFFER =>
      if now a >=? post_buffer_end_time (times c) then state c' = UDT_STATE_BUFFERING
      else state c' = UDT_STATE_POST_BUFFER ∧ post_buffer_end_time (times c') = post_buffer_end_time (times c)
  | UDT_STATE_BUFFERING => state c' = UDT_STATE_BUFFERING
  | _ => True
  end.

(** The main stream finds nothing. *)
Lemma main_quiet a c :
  nothing_detected a → detection_stream_connected (sig c) = false → annotation_only (cfg c) = false →
  let c' := main_stream_detection timestamp_text init_ok grace_period a c in
  sig c' = sig c ∧ cfg c' = cfg c ∧ last_detection_time (times c') = last_detection_time (times c) ∧
  match state c with
  | UDT_STATE_RECORDING =>
      if now a - last_detection_check_time (times c) >=? detection_interval (cfg c) then
        last_detection_check_time (times c') = now a ∧
        (if now a - last_detection_time (times c) >? grace_window c
         then state c' = UDT_STATE_POST_BUFFER ∧ post_buffer_end_time (times c') = now a + post_buffer_seconds (cfg c)
         else state c' = UDT_STATE_RECORDING)
      else last_detection_check_time (times c') = last_detection_check_time (times c) ∧ state c' = UDT_STATE_RECORDING
  | UDT_STATE_POST_BUFFER => c' = c
  | s => state c' = s
  end.
Proof.
  intros Hq Hd Ha. unfold main_stream_detection. rewrite Hd. cbn [negb]. rewrite andb_true_r.
  destruct (decide (state c = UDT_STATE_POST_BUFFER)) as [Hs|Hs].
  { rewrite bool_decide_true by done. cbn [negb]. by rewrite Hs. }
  rewrite bool_decide_false by done. cbn [negb]. case_match; [|by destruct (state c)].
  pose proof (Hq (set_last_check (now a) c)) as Hq1.
  pose proof (run_detection_control a (set_last_check (now a) c)) as Hr.
  destruct (run_detection_on_frame a _) as [d c1]. simpl in Hq1. subst d. destruct Hr as [_ Hs1 Ht1 Hsig1 _ Hcfg1 _].
  simpl in *. unfold handle_recording_state, grace_window. rewrite Hcfg1, Ha, Hs1, Ht1. simpl.
  destruct (state c) eqn:Es; simpl; rewrite ?Hs1, ?Ht1, ?Hsig1, ?Hcfg1; try done.
  destruct (_ >? _); simpl; by rewrite ?Hs1, ?Ht1, ?Hsig1, ?Hcfg1.
Qed.

Lemma external_idle a s c :
  external_motion_trigger (sig c) = 0 →
  let c' := external_trigger timestamp_text init_ok a s c in
  sig c' = sig c ∧ cfg c' = cfg c ∧ times c' = times c ∧ state c' = state c.
Proof. unfold external_trigger. intros E. rewrite E. simpl. split_and!; try done. destruct (sig c). simpl in *. by subst. Qed.

Lemma record_quiet a pkt c :
  state c ∈ [UDT_STATE_RECORDING; UDT_STATE_POST_BUFFER; UDT_STATE_BUFFERING] →
  let c' := record_packet init_ok a pkt (state c) c in
  sig c' = sig c ∧ cfg c' = cfg c ∧ times c' = times c ∧
  state c' = (if bool_decide (state c = UDT_STATE_POST_BUFFER) && (now a >=? post_buffer_end_time (times c))
              then UDT_STATE_BUFFERING else state c).
Proof.
  destruct (write_packet_written pkt c) as (_ & _ & Hs & Ht & Hsig & Hcfg). unfold record_packet.
  rewrite !elem_of_cons, elem_of_nil. intros [E|[E|[E|[]]]]; rewrite E; simpl; try by rewrite ?Hs, ?E.
  rewrite Ht. destruct (_ >=? _); simpl; [|by rewrite Hs].
  destruct (stop_written a (write_packet init_ok pkt c)) as (_ & _ & _ & Hc & Hg).
  assert (Htm : times (udt_stop_recording a (write_packet init_ok pkt c)) = times (write_packet init_ok pkt c))
    by (unfold udt_stop_recording; repeat case_match; done).
  split_and!; congruence.
Qed.

Lemma quiet_packet a pkt c :
  nothing_detected a → idle_signals c →
  state c ∈ [UDT_STATE_RECORDING; UDT_STATE_POST_BUFFER; UDT_STATE_BUFFERING] →
  let c' := process_packet timestamp_text init_ok grace_period a pkt c in
  sig c' = sig c ∧ cfg c' = cfg c ∧ last_detection_time (times c') = last_detection_time (times c) ∧
  quiet_outcome a pkt c c'.
Proof.
  intros Hq (He & Hd & Ha) Hin. unfold process_packet.
  set (c2 := buffer_packet a pkt (count_packet a pkt c)).
  assert (Hc2 : same_control c c2) by (eapply same_control_trans; [apply count_control|apply buffer_control]).
  destruct Hc2 as [_ Hs2 Ht2 Hsig2 _ Hcfg2 _]. unfold consume_detection_stream. rewrite Hsig2, Hd.
  rewrite <-Hs2 in *. destruct (record_quiet a pkt c2 Hin) as (Hsig3 & Hcfg3 & Ht3 & Hs3).
  set (c3 := record_packet init_ok a pkt (state c2) c2) in *. unfold quiet_outcome. rewrite <-Hs2, <-Ht2, <-Hcfg2, <-Hsig2.
  unfold grace_window. rewrite <-Hcfg2. destruct (is_video c pkt && is_key pkt); cbn [andb].
  - destruct (external_idle a (state c2) c3) as (Hsig4 & Hcfg4 & Ht4 & Hs4); [by rewrite Hsig3, Hsig2|].
    set (c4 := external_trigger timestamp_text init_ok a (state c2) c3) in *.
    destruct (main_quiet a c4 Hq) as (Hsig5 & Hcfg5 & Hld & Hmain); [congruence..|].
    rewrite Hs4, Hs3, Ht4, Ht3, Hcfg4, Hcfg3 in Hmain. rewrite Ht4, Ht3 in Hld. unfold grace_window in Hmain.
    rewrite Hcfg4, Hcfg3 in Hmain. split_and!; [congruence..|].
    rewrite !elem_of_cons, elem_of_nil in Hin. destruct Hin as [E|[E|[E|[]]]]; rewrite E in Hmain |- *; simpl in Hmain; try done.
    destruct (now a >=? post_buffer_end_time (times c2)); [done|]. rewrite Hmain, Hs4, Hs3, E, Ht4, Ht3. done.
  - split_and!; [done..|by rewrite Ht3|]. rewrite Hs3, Ht3.
    rewrite !elem_of_cons, elem_of_nil in Hin. destruct Hin as [E|[E|[E|[]]]]; rewrite E; simpl; try done.
    by destruct (now a >=? post_buffer_end_time (times c2)).
Qed.

Definition process_all (ps : list (answers * AVPacket)) c : ctx B :=
  foldl (λ c p, process_packet timestamp_text init_ok grace_period p.1 p.2 c) c ps.

Lemma process_all_app ps ps' c : process_all (ps ++ ps') c = process_all ps' (process_all ps c).
Proof. apply foldl_app. Qed.

Lemma process_all_good ps c : good c → good (process_all ps c).
Proof. revert c. induction ps as [|p ps IH]; intros c Hg; [done|]. by apply IH, process_good. Qed.

(** No packet changes the connection. *)
Lemma open_recording_conn a c : conn (open_recording timestamp_text init_ok a c).2 = conn c.
Proof.
  unfold open_recording. assert (Hs : conn (udt_start_recording timestamp_text a c).2 = conn c)
    by (unfold udt_start_recording; repeat case_match; done).
  destruct (udt_start_recording timestamp_text a c) as [[] c1]; simpl in *; [|done]. rewrite <-Hs.
  assert (Hf : conn (flush_prebuffer_to_recording init_ok c1) = conn c1).
  { unfold flush_prebuffer_to_recording. destruct (mp4_writer (rec c1)); [|done]. by destruct (pre_flush _ _ _). }
  rewrite <-Hf. unfold correct_start_time. by repeat case_match.
Qed.

Lemma handle_conn a d c : conn (handle_recording_state timestamp_text init_ok grace_period a d c) = conn c.
Proof.
  unfold handle_recording_state. destruct d; [|by repeat case_match].
  destruct (annotation_only _); [done|]. destruct (state c); try done.
  pose proof (open_recording_conn a (set_last_detection (now a) c)) as Hc. by destruct (open_recording _ _ _ _) as [[] c1].
Qed.

Lemma process_conn a pkt c : conn (process_packet timestamp_text init_ok grace_period a pkt c) = conn c.
Proof.
  unfold process_packet. set (c2 := buffer_packet a pkt (count_packet a pkt c)).
  assert (H2 : conn c2 = conn c) by (unfold c2; by rewrite (sc_conn _ _ (buffer_control _ _ _)), (sc_conn _ _ (count_control _ _ _))).
  set (c3 := consume_detection_stream timestamp_text init_ok grace_period a c2).
  assert (H3 : conn c3 = conn c).
  { rewrite <-H2. unfold c3, consume_detection_stream. destruct (detection_stream_connected _); [|done].
    destruct (detection_stream_result _); rewrite handle_conn; [|done]. by rewrite (sc_conn _ _ (report_control _ _ _)). }
  set (s := if detection_stream_connected _ then _ else _). set (c4 := record_packet init_ok a pkt s c3).
  assert (H4 : conn c4 = conn c).
  { rewrite <-H3. assert (Hw : conn (write_packet init_ok pkt c3) = conn c3) by (unfold write_packet; repeat case_match; done).
    unfold c4, record_packet. destruct s; try done. destruct (_ >=? _); [|done].
    rewrite <-Hw. unfold udt_stop_recording. simpl. by repeat case_match. }
  destruct (_ && _); [|done]. set (c5 := external_trigger timestamp_text init_ok a s c4).
  assert (H5 : conn c5 = conn c).
  { rewrite <-H4. unfold c5, external_trigger. repeat case_match; try done. by rewrite open_recording_conn. }
  rewrite <-H5. unfold main_stream_detection. destruct (_ && _); [|done]. destruct (_ >=? _); [|done].
  pose proof (run_detection_control a (set_last_check (now a) c5)) as Hr. destruct (run_detection_on_frame _ _) as [d c6].
  rewrite handle_conn. exact (sc_conn _ _ Hr).
Qed.

(** A recording on its way to its end: it is checked at [checked] at the
    latest, and then in a post-buffer that ends by [deadline]. *)
Record ending c0 (checked deadline : Z) c : Prop := {
  end_cfg : cfg c = cfg c0;
  end_conn : conn c = conn c0;
  end_idle : idle_signals c;
  end_state :
    (state c = UDT_STATE_RECORDING ∧ last_detection_check_time (times c) ≤ checked ∧
     last_detection_time (times c) + grace_window c ≤ checked) ∨
    (state c = UDT_STATE_POST_BUFFER ∧ post_buffer_end_time (times c) ≤ deadline) ∨
    state c = UDT_STATE_BUFFERING
}.

Lemma ending_step c0 checked deadline a pkt c :
  nothing_detected a → now a + post_buffer_seconds (cfg c0) ≤ deadline ∨ state c ≠ UDT_STATE_RECORDING →
  ending c0 checked deadline c →
  let c' := process_packet timestamp_text init_ok grace_period a pkt c in
  ending c0 checked deadline c' ∧
  (state c ≠ UDT_STATE_RECORDING → state c' ≠ UDT_STATE_RECORDING ∧ (deadline ≤ now a → state c' = UDT_STATE_BUFFERING)) ∧
  (is_video c0 pkt && is_key pkt = true → checked + detection_interval (cfg c0) ≤ now a → 0 < detection_interval (cfg c0) →
   state c' ≠ UDT_STATE_RECORDING).
Proof.
  intros Hq Ht [Hcfg Hconn Hidle Hst] c'.
  destruct (quiet_packet a pkt c Hq Hidle) as (Hsig' & Hcfg' & Hld & Hout).
  { rewrite !elem_of_cons. tauto. }
  fold c' in Hsig', Hcfg', Hld, Hout. unfold quiet_outcome, grace_window, is_video in *. rewrite Hconn, Hcfg in Hout.
  assert (Hall : idle_signals c' ∧ cfg c' = cfg c0 ∧ conn c' = conn c0).
  { unfold idle_signals. rewrite Hsig', Hcfg'. split_and!; try apply Hidle; [done|]. unfold c'. by rewrite process_conn. }
  destruct Hall as (Hidle' & Hc' & Hk').
  destruct Hst as [(Hs & Hl & Hw)|[(Hs & He)|Hs]]; rewrite Hs in Hout.
  - rewrite Hcfg in Hw. destruct Ht as [Ht|Ht]; [|done].
    destruct ((av_stream_index pkt =? video_stream_idx (conn c0)) && is_key pkt); cbn [andb] in Hout.
    + destruct (now a - last_detection_check_time (times c) >=? detection_interval (cfg c0)) eqn:Ei.
      * destruct Hout as [Hl' Hout]. destruct (now a - last_detection_time (times c) >? _) eqn:E.
        -- destruct Hout as [Hs' He']. split; [split; [done..|right; left; split; [done|lia]]|]. split; [done|]. by rewrite Hs'.
        -- split; [split; [done..|left; unfold grace_window; rewrite Hc', Hl', Hld; split_and!; [done|lia|done]]|]. split; [done|]. lia.
      * destruct Hout as [Hl' Hs']. split; [split; [done..|left; unfold grace_window; by rewrite Hc', Hl', Hld]|]. split; [done|]. lia.
    + destruct Hout as [Hl' Hs']. split; [split; [done..|left; unfold grace_window; by rewrite Hc', Hl', Hld]|]. by split.
  - destruct (now a >=? post_buffer_end_time (times c)) eqn:E.
    + split; [split; [done..|by right; right]|]. by rewrite Hout.
    + destruct Hout as [Hs' He']. split; [split; [done..|right; left; split; [done|lia]]|]. rewrite Hs'.
      split; [|done]. intros _. split; [done|]. lia.
  - split; [split; [done..|by right; right]|]. by rewrite Hout.
Qed.

Lemma ending_before c0 checked deadline ps c :
  Forall (λ p, nothing_detected p.1 ∧ now p.1 + post_buffer_seconds (cfg c0) ≤ deadline) ps →
  ending c0 checked deadline c → ending c0 checked deadline (process_all ps c).
Proof.
  intros Hps. revert c. induction Hps as [|p ps [Hq Ht] _ IH]; intros c He; [done|].
  apply IH. by destruct (ending_step c0 checked deadline p.1 p.2 c Hq (or_introl Ht) He).
Qed.

Lemma ending_after c0 checked deadline ps c :
  Forall (λ p, nothing_detected p.1) ps → state c ≠ UDT_STATE_RECORDING → ending c0 checked deadline c →
  ending c0 checked deadline (process_all ps c) ∧ state (process_all ps c) ≠ UDT_STATE_RECORDING.
Proof.
  intros Hps. revert c. induction Hps as [|p ps Hq _ IH]; intros c Hs He; [done|].
  destruct (ending_step c0 checked deadline p.1 p.2 c Hq (or_intror Hs) He) as (He' & Hs' & _). apply IH; [by apply Hs'|done].
Qed.

End lemmas.

(** ** The packet buffer behind the interface *)

(** The buffer of a stream with the heap its packets live in. *)
Definition ring_buffer : Type := map_heap * packet_buffer_t.

(** The thread owns [pkt] for the call and releases it afterwards
    ([av_packet_unref]). *)
Definition ring_add (r : ring_buffer) (pkt : AVPacket) (t : Z) : ring_buffer :=
  let '(h, b) := r in
  let p := fresh (dom h) in
  match packet_buffer_add_packet (<[p := pkt]> h) (Some b) (Some p) t with
  | Some (_, h, Some b) => (av_packet_free h p, b)
  | _ => r
  end.

Definition ring_flush {U} (r : ring_buffer) (cb : AVPacket → U → Z * U) (u : U) : ring_buffer * U :=
  match packet_buffer_flush r.1 (Some r.2) (Some cb) u with
  | Some (_, h, Some b, u) => ((h, b), u)
  | _ => (r, u)
  end.

Definition ring_clear (r : ring_buffer) : ring_buffer :=
  match packet_buffer_clear r.1 (Some r.2) with
  | Some (h, Some b) => (h, b)
  | _ => r
  end.

#[global] Instance ring_pre_buffer : PreBuffer ring_buffer := {
  pre_add := ring_add;
  pre_clear := ring_clear;
  pre_flush U := ring_flush;
  pre_duration r := default 0 (snd <$> (packet_buffer_get_stats (Some r.2)).2)
}.

Definition ring_holds (r : ring_buffer) (q : list (Z * AVPacket)) : Prop :=
  active r.2 = true ∧ represents r.1 r.2 q.

Lemma deliver_foldl {U} (cb : AVPacket → U → Z * U) q u n :
  (deliver cb q (u, n)).1 = foldl (λ u (e : Z * AVPacket), (cb e.2 u).2) u q.
Proof.
  revert u n. induction q as [|e q IH]; intros u n; [done|]. unfold deliver in *. simpl.
  destruct (cb e.2 u) as [r u']. apply IH.
Qed.

Lemma ring_add_holds r q pkt t :
  ring_holds r q → ∃ q1 q2, q = q1 ++ q2 ∧
    (ring_holds (ring_add r pkt t) (q2 ++ [(t, pkt)]) ∨ ring_holds (ring_add r pkt t) q2).
Proof.
  destruct r as [h b]. intros [Hact HR]. simpl in Hact, HR. unfold ring_add. set (p := fresh (dom h)).
  assert (Hp : pkt_get h p = None) by apply not_elem_of_dom, is_fresh.
  assert (Hown : p ∉ owned b) by (intros Hin; by apply (owned_allocated _ _ _ _ HR Hin)).
  destruct (add_refines (<[p := pkt]> h) b q p pkt t) as (x & h' & b' & -> & Hadd & Hc & _ & _ & Hown').
  - apply (represents_frame h); [done|]. intros r Hr. apply lookup_insert_ne. by intros ->.
  - done.
  - apply lookup_insert_eq.
  - done.
  - assert (Hfree : ∀ q', represents h' b' q' → ring_holds (av_packet_free h' p, b') q').
    { intros q' HR'. split; [by apply (config_active b)|]. apply (represents_frame h'); [done|].
      intros r Hr. apply free_other. by intros ->. }
    destruct (evicted_suffix t (buffer_seconds b) (max_packets b) q) as [l Hl].
    exists l, (evicted t (buffer_seconds b) (max_packets b) q). split; [done|].
    destruct Hadd as [(_ & HR' & _)|(_ & HR' & _)]; [left|right]; by apply Hfree.
Qed.

Lemma ring_clear_holds r q : ring_holds r q → ring_holds (ring_clear r) [].
Proof.
  destruct r as [h b]. intros [Hact HR]. destruct (clear_refines h b q HR Hact) as (h' & b' & E & HR' & Hc & _).
  unfold ring_clear. cbn [fst snd]. rewrite E. split; [by apply (config_active b)|done].
Qed.

Lemma ring_flush_delivers {U} r q (cb : AVPacket → U → Z * U) u :
  ring_holds r q →
  (ring_flush r cb u).2 = foldl (λ u (e : Z * AVPacket), (cb e.2 u).2) u q ∧ ring_holds (ring_flush r cb u).1 [].
Proof.
  destruct r as [h b]. intros [Hact HR]. destruct (flush_refines h b q cb u HR Hact) as (h' & b' & E & HR' & Hc & _).
  unfold ring_flush. cbn [fst snd]. rewrite E.
  split; [by rewrite deliver_foldl|]. split; [by apply (config_active b)|done].
Qed.

#[global] Instance ring_pre_buffer_laws : PreBufferLaws ring_buffer := {
  pre_holds := ring_holds;
  pre_add_holds := ring_add_holds;
  pre_clear_holds := ring_clear_holds;
  pre_flush_delivers U := ring_flush_delivers
}.

(** ** A camera, for the witnesses *)

Definition cam_text (t : Z) : cstr := lit "20250101_000000".
Definition cam_init (pkt : AVPacket) : bool := true.

(** Ten seconds of pre-buffer, five of post-buffer, a check every second. *)
Definition cam_settings : settings := start_settings (lit "/rec") false (f_of_Z binary64 0) 0 0 false 1 false.

Definition cam_answers (t : Z) (motion : bool) : answers := mkAnswers t t 0 true true true 7 1000 (OnvifFlag motion).

Definition cam_key (pts : Z) : AVPacket := mkAVPacket pts pts 0 AV_PKT_FLAG_KEY 40 [].

Definition cam_connects (t : Z) : event :=
  Turn (mkTurn (cam_answers t false) t (Some (mkStreamInfo (1, 1) 0 (-1) None)) None).

Definition cam_reads (t : Z) (motion : bool) : event :=
  Turn (mkTurn (cam_answers t motion) t None (Some (cam_key t))).

Definition cam_ring : ring_buffer := (∅, example_buffer).

Lemma cam_holds : pre_holds cam_ring [].
Proof. split; [done|]. by apply fresh_represents. Qed.

Definition cam_run (es : list event) : thread := run cam_text cam_init 2 es (new_thread cam_settings cam_ring 0).

(** The stream is live after two key frames; the third one shows motion. *)
Definition cam_live : list event := [cam_connects 100; cam_connects 100; cam_reads 100 false; cam_reads 101 false].
Definition cam_motion : list event := cam_live ++ [cam_reads 103 true].

Lemma cam_good es : good (thread_ctx (cam_run es)).
Proof. apply run_good, (new_thread_good _ _ []), cam_holds. Qed.

Lemma recordings_complete_witness :
  state (thread_ctx (cam_run cam_motion)) = UDT_STATE_RECORDING ∧
  file_phase (effects (thread_ctx (cam_run cam_motion))) = Some (Open 7) ∧
  file_phase (effects (udt_exit (cam_answers 104 false) (cam_run cam_motion))) = Some Idle.
Proof.
  split; [by vm_compute|].
  destruct (recordings_complete cam_text cam_init 2 cam_settings cam_ring [] 0 cam_motion (cam_answers 104 false) cam_holds)
    as (Hp & _ & He & _).
  split; [|exact He]. etransitivity; [exact Hp|]. by vm_compute.
Defined.

Lemma recording_appends_packet_witness :
  written (effects (process_packet cam_text cam_init 2 (cam_answers 104 false) (cam_key 104) (thread_ctx (cam_run cam_motion))))
    = [cam_key 101; cam_key 103] ++ [cam_key 104].
Proof.
  etransitivity; [apply (recording_appends_packet cam_text cam_init 2); by vm_compute|]. by vm_compute.
Defined.

(** The motion has ended, the post-buffer is over, and there is motion again. *)
Definition cam_again : list event := cam_motion ++ [NotifyMotion false; cam_reads 110 false; NotifyMotion true].

Lemma motion_at_expiry_lost_witness :
  let c' := process_packet cam_text cam_init 2 (cam_answers 116 true) (cam_key 116) (thread_ctx (cam_run cam_again)) in
  state c' = UDT_STATE_RECORDING ∧ mp4_writer (rec c') = None.
Proof.
  destruct (motion_at_expiry_lost cam_text cam_init 2 (cam_answers 116 true) (cam_key 116) (thread_ctx (cam_run cam_again)))
    as (Hs & Hn & _); [by vm_compute..|]. exact (conj Hs Hn).
Defined.

(** A context whose pre-buffer holds two packets. *)
Definition cam_buffered : ctx ring_buffer :=
  set_packet_buffer (example_heap2, example_buffer2) (thread_ctx (cam_run cam_live)).

Lemma cam_buffered_holds : pre_holds (packet_buffer cam_buffered) example_queue.
Proof. split; [by vm_compute|]. apply example_represents2. Qed.

Lemma recording_includes_prebuffer_witness :
  state (open_recording cam_text cam_init (cam_answers 120 true) cam_buffered).2 = UDT_STATE_RECORDING.
Proof.
  refine (proj1 (proj2 (recording_includes_prebuffer cam_text cam_init (cam_answers 120 true) cam_buffered _ example_queue (1, 1) _ _ _ _))).
  - exact cam_buffered_holds.
  - by vm_compute.
  - by vm_compute.
  - by vm_compute.
Defined.

Definition cam_hand_off : ctx ring_buffer :=
  set_packet_buffer cam_ring
    (detection_stream_detect 1 102 (detection_stream_connect true (thread_ctx (cam_run cam_live)))).

Lemma cam_add_holds : pre_holds (pre_add cam_ring (cam_key 102) 102) [(102, cam_key 102)].
Proof.
  destruct (ring_add_holds cam_ring [] (cam_key 102) 102 cam_holds) as (q1 & q2 & Hq & Ho).
  symmetry in Hq. apply app_eq_nil in Hq as [-> ->]. destruct Ho as [Ho|[_ Ho]]; [exact Ho|].
  apply represents_count in Ho. by vm_compute in Ho.
Qed.

Lemma first_packet_written_twice_witness :
  ∃ l, written (effects (process_packet cam_text cam_init 2 (cam_answers 102 false) (cam_key 102) cam_hand_off))
         = written (effects cam_hand_off) ++ l ++ [cam_key 102; cam_key 102].
Proof.
  apply (first_packet_written_twice cam_text cam_init 2 (cam_answers 102 false) (cam_key 102) cam_hand_off [] (1, 1));
    [by vm_compute..|]. exact cam_add_holds.
Defined.

