(* ===== verification/Recordings.v ===== *)
(** * Recording metadata: [src/database/db_recordings.c]

    The table of recordings and the statements on it.  A row is a
    record of its columns, [NULL] being [None].  The queries of the retention policy, the
    updates and the deletions are here; the filters of the web interface are not. *)
From Stdlib Require Import ZArith Lia Bool.
From Stdlib Require Import SpecFloat.
From Stdlib Require Import Strings.Byte.
From stdpp Require Import base numbers list strings sorting relations.
From S2P Require Import Prelude.
From S2P Require Import CFloat.
From S2P Require Import Sql.
#[local] Open Scope Z_scope.

(** ** Data *)

Definition RETENTION_TIER_CRITICAL : Z := 0.
Definition RETENTION_TIER_IMPORTANT : Z := 1.
Definition RETENTION_TIER_STANDARD : Z := 2.
Definition RETENTION_TIER_EPHEMERAL : Z := 3.

Record recording_metadata_t := mkMetadata {
  id : Z;
  stream_name : cstr;
  file_path : cstr;
  start_time : Z;
  end_time : Z;
  size_bytes : Z;
  width : Z;
  height : Z;
  fps : Z;
  codec : cstr;
  is_complete : bool;
  trigger_type : cstr;
  protected : bool;
  retention_override_days : Z;
  retention_tier : Z;
  disk_pressure_eligible : bool
}.

(** The columns of the table [recordings]. *)
Record row := mkRow {
  c_id : Z;
  c_stream_name : cstr;
  c_file_path : cstr;
  c_start_time : Z;
  c_end_time : option Z;
  c_size_bytes : option Z;
  c_width : option Z;
  c_height : option Z;
  c_fps : option Z;
  c_codec : option cstr;
  c_is_complete : option Z;
  c_trigger_type : option cstr;
  c_protected : option Z;
  c_retention_override_days : option Z;
  c_retention_tier : option Z;
  c_disk_pressure_eligible : option Z
}.

(** The rows in the order of their ids; the sequence of [AUTOINCREMENT]; the
    detections, each with the recording it refers to. *)
Record table := mkTable {
  rows : list row;
  sequence : Z;
  detections : list (Z * option Z)
}.

Definition set_rows (rs : list row) (t : table) : table := mkTable rs (sequence t) (detections t).

(** A row read back: texts are cut to the arrays of the structure, a missing
    integer reads as 0. *)
Definition fetch (r : row) : recording_metadata_t :=
  mkMetadata (u64 (c_id r)) (strcpy_trunc 64 (c_stream_name r)) (strcpy_trunc MAX_PATH_LENGTH (c_file_path r))
    (c_start_time r) (default 0 (c_end_time r)) (u64 (default 0 (c_size_bytes r)))
    (s32 (default 0 (c_width r))) (s32 (default 0 (c_height r))) (s32 (default 0 (c_fps r)))
    (strcpy_trunc 16 (default [] (c_codec r))) (negb (s32 (default 0 (c_is_complete r)) =? 0))
    (strcpy_trunc 16 (default (lit "scheduled") (c_trigger_type r)))
    (negb (s32 (default 0 (c_protected r)) =? 0))
    (match c_retention_override_days r with Some d => s32 d | None => -1 end)
    (match c_retention_tier r with Some z => s32 z | None => RETENTION_TIER_STANDARD end)
    (match c_disk_pressure_eligible r with Some z => negb (s32 z =? 0) | None => true end).

(** The queries for retention and quotas do not read the tier and the
    eligibility; the query for orphans reads no protection or override either.
    The arrays they fill are zeroed. *)
Definition fetch_untiered (r : row) : recording_metadata_t :=
  let m := fetch r in
  mkMetadata (id m) (stream_name m) (file_path m) (start_time m) (end_time m) (size_bytes m) (width m) (height m)
    (fps m) (codec m) (is_complete m) (trigger_type m) (protected m) (retention_override_days m) 0 false.

Definition fetch_plain (r : row) : recording_metadata_t :=
  let m := fetch r in
  mkMetadata (id m) (stream_name m) (file_path m) (start_time m) (end_time m) (size_bytes m) (width m) (height m)
    (fps m) (codec m) (is_complete m) (trigger_type m) false 0 0 false.

(** ** Insertion and updates *)

(** The result 0 stands for a failure; the insertion fails when the ids are used
    up. *)
Definition add_recording_metadata (r : sql_run) (metadata : recording_metadata_t) (t : table) : Z * table :=
  if sequence t + 1 >=? 2 ^ 63 then (0, t) else
  match r with
  | Completes =>
      let i := sequence t + 1 in
      let new := mkRow i (stream_name metadata) (file_path metadata) (start_time metadata)
                   (if end_time metadata >? 0 then Some (end_time metadata) else None)
                   (Some (s64 (size_bytes metadata))) (Some (width metadata)) (Some (height metadata))
                   (Some (fps metadata)) (Some (codec metadata)) (Some (if is_complete metadata then 1 else 0))
                   (Some (match trigger_type metadata with [] => lit "scheduled" | s => s end))
                   (Some 0) None (Some (retention_tier metadata))
                   (Some (if disk_pressure_eligible metadata then 1 else 0)) in
      (i, mkTable (rows t ++ [new]) i (detections t))
  | _ => (0, t)
  end.

(** [UPDATE recordings SET .. WHERE id = ?]; no such row is a success. *)
Definition update_row (r : sql_run) (i : Z) (f : row → row) (t : table) : bool * table :=
  match r with
  | Completes => (true, set_rows ((λ x, if c_id x =? s64 i then f x else x) <$> rows t) t)
  | _ => (false, t)
  end.

Definition update_recording_metadata (r : sql_run) (i end_ size : Z) (complete : bool) (t : table) : bool * table :=
  update_row r i (λ x, mkRow (c_id x) (c_stream_name x) (c_file_path x) (c_start_time x) (Some end_) (Some (s64 size))
    (c_width x) (c_height x) (c_fps x) (c_codec x) (Some (if complete then 1 else 0)) (c_trigger_type x)
    (c_protected x) (c_retention_override_days x) (c_retention_tier x) (c_disk_pressure_eligible x)) t.

Definition update_recording_start_time (r : sql_run) (i start : Z) (t : table) : bool * table :=
  update_row r i (λ x, mkRow (c_id x) (c_stream_name x) (c_file_path x) start (c_end_time x) (c_size_bytes x)
    (c_width x) (c_height x) (c_fps x) (c_codec x) (c_is_complete x) (c_trigger_type x)
    (c_protected x) (c_retention_override_days x) (c_retention_tier x) (c_disk_pressure_eligible x)) t.

Definition set_recording_protected (r : sql_run) (i : Z) (p : bool) (t : table) : bool * table :=
  update_row r i (λ x, mkRow (c_id x) (c_stream_name x) (c_file_path x) (c_start_time x) (c_end_time x) (c_size_bytes x)
    (c_width x) (c_height x) (c_fps x) (c_codec x) (c_is_complete x) (c_trigger_type x)
    (Some (if p then 1 else 0)) (c_retention_override_days x) (c_retention_tier x) (c_disk_pressure_eligible x)) t.

Definition set_recording_retention_override (r : sql_run) (i days : Z) (t : table) : bool * table :=
  update_row r i (λ x, mkRow (c_id x) (c_stream_name x) (c_file_path x) (c_start_time x) (c_end_time x) (c_size_bytes x)
    (c_width x) (c_height x) (c_fps x) (c_codec x) (c_is_complete x) (c_trigger_type x)
    (c_protected x) (if days <? 0 then None else Some days) (c_retention_tier x) (c_disk_pressure_eligible x)) t.

Definition set_recording_retention_tier (r : sql_run) (i tier : Z) (t : table) : bool * table :=
  if (tier <? RETENTION_TIER_CRITICAL) || (tier >? RETENTION_TIER_EPHEMERAL) then (false, t) else
  update_row r i (λ x, mkRow (c_id x) (c_stream_name x) (c_file_path x) (c_start_time x) (c_end_time x) (c_size_bytes x)
    (c_width x) (c_height x) (c_fps x) (c_codec x) (c_is_complete x) (c_trigger_type x)
    (c_protected x) (c_retention_override_days x) (Some tier) (c_disk_pressure_eligible x)) t.

Definition set_recording_disk_pressure_eligible (r : sql_run) (i : Z) (e : bool) (t : table) : bool * table :=
  update_row r i (λ x, mkRow (c_id x) (c_stream_name x) (c_file_path x) (c_start_time x) (c_end_time x) (c_size_bytes x)
    (c_width x) (c_height x) (c_fps x) (c_codec x) (c_is_complete x) (c_trigger_type x)
    (c_protected x) (c_retention_override_days x) (c_retention_tier x) (Some (if e then 1 else 0))) t.

(** ** Deletion *)

Definition clear_references (p : Z → bool) (t : table) : table :=
  mkTable (rows t) (sequence t)
    ((λ d, match d.2 with Some i => if p i then (d.1, None) else d | None => d end) <$> detections t).

(** The detections lose their reference first, in a statement of its own. *)
Definition delete_recording_metadata (r1 r2 : sql_run) (i : Z) (t : table) : bool * table :=
  match r1 with
  | Completes =>
      let t := clear_references (λ j, j =? s64 i) t in
      match r2 with
      | Completes => (true, set_rows (filter (λ x, c_id x ≠ s64 i) (rows t)) t)
      | _ => (false, t)
      end
  | _ => (false, t)
  end.

Definition ended_before (cutoff : Z) (x : row) : bool :=
  match c_end_time x with Some e => e <? cutoff | None => false end.

(** The number of rows deleted, [None] for a failure. *)
Definition delete_old_recording_metadata (r1 r2 : sql_run) (now max_age : Z) (t : table) : option Z * table :=
  let cutoff := now - s64 max_age in
  match r1 with
  | Completes =>
      let old := filter (λ x, ended_before cutoff x = true) (rows t) in
      let t := clear_references (λ i, bool_decide (i ∈ c_id <$> old)) t in
      match r2 with
      | Completes => (Some (Z.of_nat (length old)), set_rows (filter (λ x, ended_before cutoff x = false) (rows t)) t)
      | _ => (None, t)
      end
  | _ => (None, t)
  end.

(** ** Queries *)

(** [retention_override_days IS NULL OR start_time < now - days * 86400]. *)
Definition override_allows (sql_now : Z) (x : row) : bool :=
  match c_retention_override_days x with Some d => c_start_time x <? sql_now - d * 86400 | None => true end.

Definition deletable (x : row) : bool := sql_is (c_protected x) 0 && sql_is (c_is_complete x) 1.

Definition past_retention (now sql_now : Z) (name : cstr) (days ddays : Z) (x : row) : bool :=
  let regular_cutoff := if days >? 0 then now - days * 86400 else 0 in
  let detection_cutoff := if ddays >? 0 then now - ddays * 86400 else 0 in
  streq (c_stream_name x) name && deletable x &&
  ((sql_text_not (c_trigger_type x) (lit "detection") && (days >? 0) && (c_start_time x <? regular_cutoff)) ||
   (sql_text_is (c_trigger_type x) (lit "detection") && (ddays >? 0) && (c_start_time x <? detection_cutoff))) &&
  override_allows sql_now x.

Definition is_detection (x : row) : Z := if sql_text_is (c_trigger_type x) (lit "detection") then 1 else 0.

Definition has_override (x : row) : Z :=
  match c_retention_override_days x with Some d => if d <? 0 then 0 else 1 | None => 0 end.

(** The order in which recordings are given up. *)
Definition priority_key (x : row) : list Z :=
  desc (c_retention_tier x) ++ [has_override x; is_detection x; c_start_time x].

(** The age at which a recording of a tier goes, [None] when it leaves [time_t]. *)
Definition tier_age (base : Z) (multiplier : spec_float) : option Z :=
  f_to_i64 (fmul binary64 (fmul binary64 (f_of_Z binary64 base) multiplier) (f_of_Z binary64 86400)).

Definition tier_cutoff (now base : Z) (multiplier : spec_float) : option Z := d ← tier_age base multiplier; Some (now - d).

Definition of_stream (name : option cstr) (x : row) : bool :=
  match name with Some n => streq (c_stream_name x) n | None => true end.

Definition past_tier (sql_now : Z) (name : option cstr) (c0 c1 c2 c3 : Z) (x : row) : bool :=
  of_stream name x && deletable x &&
  ((sql_is (c_retention_tier x) 0 && (c_start_time x <? c0)) || (sql_is (c_retention_tier x) 1 && (c_start_time x <? c1)) ||
   (sql_is (c_retention_tier x) 2 && (c_start_time x <? c2)) || (sql_is (c_retention_tier x) 3 && (c_start_time x <? c3))) &&
  override_allows sql_now x.

Definition pressure_candidate (x : row) : bool :=
  sql_is (c_protected x) 0 && sql_is (c_disk_pressure_eligible x) 1 && sql_is (c_is_complete x) 1.

Definition total_size (xs : list row) : Z := foldr (λ x acc, default 0 (c_size_bytes x) + acc) 0 xs.

(** [SUM (size_bytes)], which is an error out of the range of [int64_t]. *)
Definition sum_sizes (xs : list row) : option Z :=
  let s := total_size xs in
  if (- 2 ^ 63 <=? s) && (s <? 2 ^ 63) then Some s else None.

Section queries.
Context `{Sqlite}.

Definition select (r : sql_run) (where_ : row → bool) (key : row → list Z) (limit : Z) (t : table) : list row :=
  delivered r (take (Z.to_nat limit) (order_by key (filter (λ x, where_ x = true) (rows t)))).

Definition get_recordings_for_retention (r : sql_run) (now sql_now : Z) (db : option table) (name : cstr)
    (retention_days detection_retention_days max_count : Z) : option (list recording_metadata_t) :=
  match db, r with
  | None, _ | _, PrepareFails => None
  | Some t, _ =>
      if max_count <=? 0 then None else
      Some (fetch_untiered <$> select r (past_retention now sql_now name retention_days detection_retention_days)
              (λ x, [is_detection x; c_start_time x]) max_count t)
  end.

Definition get_recordings_for_quota_enforcement (r : sql_run) (db : option table) (name : cstr) (max_count : Z)
    : option (list recording_metadata_t) :=
  match db, r with
  | None, _ | _, PrepareFails => None
  | Some t, _ =>
      if max_count <=? 0 then None else
      Some (fetch_untiered <$> select r (λ x, streq (c_stream_name x) name && deletable x) priority_key max_count t)
  end.

(** [exists_] is [access (path, F_OK) == 0].  The result: the orphans among the
    candidates, and the number of rows stored through [total_checked]. *)
Definition get_orphaned_db_entries (r1 r2 : sql_run) (exists_ : cstr → bool) (db : option table) (max_count : Z)
    : option (list recording_metadata_t) * option Z :=
  match db, r1 with
  | None, _ | _, PrepareFails => (None, None)
  | Some t, _ =>
      if max_count <=? 0 then (None, None) else
      let total_count := match delivered r1 [()] with
                         | [] => 0
                         | _ => s32 (Z.of_nat (length (filter (λ x, deletable x = true) (rows t))))
                         end in
      if total_count =? 0 then (Some [], Some total_count) else
      match r2 with
      | PrepareFails => (None, Some total_count)
      | _ =>
          let candidates := fetch_plain <$> select r2 deletable (λ x, [c_start_time x]) max_count t in
          (Some (filter (λ m, file_path m ≠ [] ∧ exists_ (file_path m) = false) candidates), Some total_count)
      end
  end.

(** [None]: a cutoff is undefined; [Some None]: -1. *)
Definition get_recordings_for_tiered_retention (r : sql_run) (now sql_now : Z) (db : option table) (name : option cstr)
    (base_retention_days : Z) (multipliers : spec_float * spec_float * spec_float * spec_float) (max_count : Z)
    : option (option (list recording_metadata_t)) :=
  match db with
  | None => Some None
  | Some t =>
      if max_count <=? 0 then Some None else
      let '(m0, m1, m2, m3) := multipliers in
      c0 ← tier_cutoff now base_retention_days m0;
      c1 ← tier_cutoff now base_retention_days m1;
      c2 ← tier_cutoff now base_retention_days m2;
      c3 ← tier_cutoff now base_retention_days m3;
      match r with
      | PrepareFails => Some None
      | _ => Some (Some (fetch <$> select r (past_tier sql_now name c0 c1 c2 c3)
                (λ x, desc (c_retention_tier x) ++ [c_start_time x]) max_count t))
      end
  end.

Definition get_recordings_for_pressure_cleanup (r : sql_run) (db : option table) (max_count : Z)
    : option (list recording_metadata_t) :=
  match db, r with
  | None, _ | _, PrepareFails => None
  | Some t, _ =>
      if max_count <=? 0 then None else
      Some (fetch <$> select r pressure_candidate priority_key max_count t)
  end.
End queries.

Definition get_recording_metadata_by_id (r : sql_run) (i : Z) (db : option table) : option recording_metadata_t :=
  t ← db; fetch <$> head (delivered r (filter (λ x, c_id x = s64 i) (rows t))).

(** Some row with the path: the statement reads one. *)
Definition get_recording_metadata_by_path (r : sql_run) (path : cstr) (db : option table) : option recording_metadata_t :=
  t ← db; fetch <$> head (delivered r (filter (λ x, c_file_path x = path) (rows t))).

Definition get_protected_recordings_count (r : sql_run) (name : option cstr) (db : option table) : Z :=
  match db, delivered r [()] with
  | Some t, _ :: _ =>
      s32 (Z.of_nat (length (filter (λ x, sql_is (c_protected x) 1 = true ∧
                                          of_stream name x = true) (rows t))))
  | _, _ => -1
  end.

Definition get_stream_storage_bytes (r : sql_run) (db : option table) (name : option cstr) : Z :=
  match db, delivered r [()] with
  | Some t, _ :: _ =>
      default (-1) (sum_sizes (filter (λ x, sql_is (c_is_complete x) 1 = true ∧
                                            of_stream name x = true) (rows t)))
  | _, _ => -1
  end.

(** ** What the program records *)

(** [memset (&metadata, 0, sizeof (metadata))] *)
Definition zero_metadata : recording_metadata_t := mkMetadata 0 [] [] 0 0 0 0 0 0 [] false [] false 0 0 false.

(** A segment of the recorder: [src/video/mp4_writer_thread.c]. *)
Definition segment_metadata (stream path trigger : cstr) (now : Z) : recording_metadata_t :=
  let stream := match stream with [] => lit "unknown" | s => s end in
  let z := zero_metadata in
  mkMetadata (id z) (strcpy_trunc 64 stream) (strcpy_trunc MAX_PATH_LENGTH path) now 0 0 (width z) (height z) (fps z) (codec z)
    false (strcpy_trunc 16 trigger) (protected z) (retention_override_days z) (retention_tier z) (disk_pressure_eligible z).

(** A detection recording: [src/video/unified_detection_thread.c]. *)
Definition detection_metadata (stream path : cstr) (now : Z) : recording_metadata_t :=
  let z := zero_metadata in
  mkMetadata (id z) (strcpy_trunc 64 stream) (strcpy_trunc MAX_PATH_LENGTH path) now 0 0 (width z) (height z) (fps z) (codec z)
    false (strcpy_trunc 16 (lit "detection")) (protected z) (retention_override_days z) (retention_tier z) (disk_pressure_eligible z).

(** A detection recording that has no row when it ends. *)
Definition ended_detection_metadata (stream path : cstr) (start end_ size : Z) : recording_metadata_t :=
  let z := zero_metadata in
  mkMetadata (id z) (strcpy_trunc 64 stream) (strcpy_trunc MAX_PATH_LENGTH path) start end_ (u64 size) (width z) (height z) (fps z)
    (codec z) true (strcpy_trunc 16 (lit "detection")) (protected z) (retention_override_days z) (retention_tier z)
    (disk_pressure_eligible z).

(** A recording of [src/video/recording.c]. *)
Definition started_metadata (stream path : cstr) (now w h f : Z) (c : cstr) : recording_metadata_t :=
  let z := zero_metadata in
  mkMetadata (id z) (strcpy_trunc 64 stream) (strcpy_trunc MAX_PATH_LENGTH path) now 0 0 w h f (strcpy_trunc 16 c)
    false (trigger_type z) (protected z) (retention_override_days z) RETENTION_TIER_STANDARD (disk_pressure_eligible z).

(** A file that [src/tools/rebuild_recordings.c] enters. *)
Definition rebuilt_metadata (stream path : cstr) (start end_ size w h f : Z) (c : cstr) : recording_metadata_t :=
  let z := zero_metadata in
  mkMetadata (id z) (strcpy_trunc 64 stream) (strcpy_trunc MAX_PATH_LENGTH path) start end_ size w h f (strcpy_trunc 16 c)
    true (trigger_type z) (protected z) (retention_override_days z) (retention_tier z) (disk_pressure_eligible z).

Inductive program_metadata : recording_metadata_t → Prop :=
  | FromSegment s p tr now : program_metadata (segment_metadata s p tr now)
  | FromDetection s p now : program_metadata (detection_metadata s p now)
  | FromEndedDetection s p st e z : program_metadata (ended_detection_metadata s p st e z)
  | FromStart s p now w h f c : program_metadata (started_metadata s p now w h f c)
  | FromRebuild s p st e z w h f c : program_metadata (rebuilt_metadata s p st e z w h f c).

(** The statements the program runs: every operation but
    [set_recording_disk_pressure_eligible], which nothing calls. *)
Inductive program_step (t : table) : table → Prop :=
  | PAdd r m : program_metadata m → program_step t (add_recording_metadata r m t).2
  | PUpdate r i e s c : program_step t (update_recording_metadata r i e s c t).2
  | PStart r i s : program_step t (update_recording_start_time r i s t).2
  | PProtect r i p : program_step t (set_recording_protected r i p t).2
  | POverride r i d : program_step t (set_recording_retention_override r i d t).2
  | PTier r i z : program_step t (set_recording_retention_tier r i z t).2
  | PDelete r1 r2 i : program_step t (delete_recording_metadata r1 r2 i t).2
  | PDeleteOld r1 r2 now age : program_step t (delete_old_recording_metadata r1 r2 now age t).2.

(** ** Lemmas *)

Section query_lemmas.
Context `{SqliteLaws}.

(** What a query returns is in the table and satisfies its condition. *)
Lemma select_in r where_ key limit t x :
  x ∈ select r where_ key limit t → x ∈ rows t ∧ where_ x = true.
Proof.
  unfold select. intros Hx. destruct (delivered_prefix r (take (Z.to_nat limit) (order_by key (filter (λ x, where_ x = true) (rows t)))))
    as [ys Hys].
  assert (Hin : x ∈ take (Z.to_nat limit) (order_by key (filter (λ x, where_ x = true) (rows t)))).
  { rewrite Hys, elem_of_app. by left. }
  apply (subseteq_take (Z.to_nat limit)) in Hin. rewrite (order_by_perm key) in Hin. apply list_elem_of_filter in Hin as [? ?]. done.
Qed.

Lemma select_length r where_ key limit t :
  0 ≤ limit → Z.of_nat (length (select r where_ key limit t)) ≤ limit.
Proof.
  intros Hl. unfold select. destruct (delivered_prefix r (take (Z.to_nat limit) (order_by key (filter (λ x, where_ x = true) (rows t)))))
    as [ys Hys]. apply (f_equal length) in Hys. rewrite length_app, length_take in Hys. lia.
Qed.

(** A completed query with fewer rows than its limit returns them all. *)
Lemma select_all where_ key limit t x :
  Z.of_nat (length (select Completes where_ key limit t)) < limit →
  x ∈ rows t → where_ x = true → x ∈ select Completes where_ key limit t.
Proof.
  unfold select. simpl. rewrite length_take. intros Hl Hx Hw.
  rewrite take_ge by lia. rewrite (order_by_perm key). by apply list_elem_of_filter.
Qed.

Lemma select_submseteq r where_ key limit t : select r where_ key limit t ⊆+ rows t.
Proof.
  unfold select. etrans; [apply sublist_submseteq, delivered_sublist|].
  etrans; [apply sublist_submseteq, sublist_take|]. rewrite order_by_perm. apply sublist_submseteq, sublist_filter.
Qed.

(** A completed query reads the first rows of its order. *)
Lemma select_first where_ key limit t n x y :
  x ∈ take n (select Completes where_ key limit t) → y ∈ rows t → where_ y = true →
  y ∉ take n (select Completes where_ key limit t) → key_le key x y.
Proof.
  unfold select. cbn [delivered]. rewrite take_take. set (k := Nat.min n (Z.to_nat limit)).
  intros Hx Hy Hw Hn. set (l := order_by key (filter (λ x, where_ x = true) (rows t))) in *.
  assert (Hyl : y ∈ l) by (unfold l; rewrite (order_by_perm key); by apply list_elem_of_filter).
  pose proof (order_by_sorted key (filter (λ x, where_ x = true) (rows t))) as Hs. fold l in Hs.
  rewrite <- (take_drop k l) in Hs, Hyl. apply elem_of_app in Hyl as [Hyl|Hyl]; [done|].
  by eapply StronglySorted_app_1_elem_of.
Qed.
End query_lemmas.

(** ** Sizes *)

#[global] Instance total_size_perm : Proper ((≡ₚ) ==> eq) total_size.
Proof. induction 1; unfold total_size in *; cbn in *; lia. Qed.

Lemma total_size_app xs ys : total_size (xs ++ ys) = total_size xs + total_size ys.
Proof. induction xs as [|x xs IH]; cbn; [done|]. unfold total_size in *. cbn in *. lia. Qed.

Definition sized (t : table) : Prop := ∀ x, x ∈ rows t → 0 ≤ default 0 (c_size_bytes x).

Lemma total_size_nonneg xs : (∀ x, x ∈ xs → 0 ≤ default 0 (c_size_bytes x)) → 0 ≤ total_size xs.
Proof.
  induction xs as [|x xs IH]; cbn; [lia|]. intros Hx. assert (0 ≤ total_size xs) by (apply IH; intros; apply Hx; by right).
  specialize (Hx x ltac:(left)). unfold total_size in *. lia.
Qed.

Lemma total_size_filter (p : row → Prop) `{∀ x, Decision (p x)} xs :
  (∀ x, x ∈ xs → 0 ≤ default 0 (c_size_bytes x)) → total_size (filter p xs) ≤ total_size xs.
Proof.
  induction xs as [|x xs IH]; intros Hx; [done|]. assert (Hi : total_size (filter p xs) ≤ total_size xs) by (apply IH; intros; apply Hx; by right).
  specialize (Hx x ltac:(left)). destruct (decide (p x)).
  - rewrite filter_cons_True by done. cbn. unfold total_size in *. lia.
  - rewrite filter_cons_False by done. cbn. unfold total_size in *. lia.
Qed.

(** ** Well-formed tables *)

(** Ids are unique, positive, and none is beyond the sequence. *)
Definition well_formed (t : table) : Prop :=
  NoDup (c_id <$> rows t) ∧ (∀ x, x ∈ rows t → 0 < c_id x ≤ sequence t) ∧ 0 ≤ sequence t < 2 ^ 63.

#[global] Instance well_formed_dec t : Decision (well_formed t).
Proof.
  unfold well_formed. apply and_dec; [apply _|]. apply and_dec; [|apply _].
  destruct (decide (Forall (λ x, 0 < c_id x ≤ sequence t) (rows t))) as [Hf|Hf]; [left|right];
    by rewrite <- (Forall_forall (λ x, 0 < c_id x ≤ sequence t)).
Defined.

(** One statement, whatever becomes of it. *)
Inductive table_step (t : table) : table → Prop :=
  | StepAdd r m : table_step t (add_recording_metadata r m t).2
  | StepUpdate r i e s c : table_step t (update_recording_metadata r i e s c t).2
  | StepStart r i s : table_step t (update_recording_start_time r i s t).2
  | StepProtect r i p : table_step t (set_recording_protected r i p t).2
  | StepOverride r i d : table_step t (set_recording_retention_override r i d t).2
  | StepTier r i z : table_step t (set_recording_retention_tier r i z t).2
  | StepEligible r i e : table_step t (set_recording_disk_pressure_eligible r i e t).2
  | StepDelete r1 r2 i : table_step t (delete_recording_metadata r1 r2 i t).2
  | StepDeleteOld r1 r2 now age : table_step t (delete_old_recording_metadata r1 r2 now age t).2.

(** [t'] comes after [t]: the sequence does not go back, and a row under an id
    of before is that of before, perhaps updated. *)
Definition succeeds (t t' : table) : Prop :=
  sequence t ≤ sequence t' ∧
  ∀ x', x' ∈ rows t' → c_id x' ≤ sequence t → ∃ x, x ∈ rows t ∧ c_id x = c_id x'.

#[global] Instance succeeds_refl : Reflexive succeeds.
Proof. intros t. split; [lia|]. intros x' Hx' _. by exists x'. Qed.

Lemma succeeds_trans t1 t2 t3 : well_formed t1 → succeeds t1 t2 → succeeds t2 t3 → succeeds t1 t3.
Proof.
  intros Hwf [Hs1 H1] [Hs2 H2]. split; [lia|]. intros x3 Hx3 Hle.
  destruct (H2 x3 Hx3 ltac:(lia)) as (x2 & Hx2 & E2). destruct (H1 x2 Hx2 ltac:(lia)) as (x1 & Hx1 & E1).
  exists x1. split; [done|congruence].
Qed.

(** A change of rows that keeps their ids. *)
Lemma well_formed_fmap (f : row → row) t :
  (∀ x, c_id (f x) = c_id x) → well_formed t → well_formed (set_rows (f <$> rows t) t) ∧ succeeds t (set_rows (f <$> rows t) t).
Proof.
  intros Hf (Hnd & Hid & Hs). assert (Ef : c_id <$> (f <$> rows t) = c_id <$> rows t).
  { rewrite <- list_fmap_compose. apply list_fmap_ext. intros ? x _. apply Hf. }
  split.
  - split; [cbn; by rewrite Ef|]. split; [|done]. intros x Hx. cbn in Hx. apply list_elem_of_fmap in Hx as (y & -> & Hy).
    rewrite Hf. by apply Hid.
  - split; cbn; [lia|]. intros x' Hx' _. apply list_elem_of_fmap in Hx' as (y & -> & Hy). exists y. by rewrite Hf.
Qed.

Lemma well_formed_update r i f t :
  (∀ x, c_id (f x) = c_id x) → well_formed t →
  well_formed (update_row r i f t).2 ∧ succeeds t (update_row r i f t).2.
Proof.
  intros Hf Hwf. unfold update_row. destruct r; [by split..|].
  apply well_formed_fmap; [|done]. intros x. destruct (c_id x =? s64 i); [apply Hf|done].
Qed.

Lemma well_formed_filter (p : row → Prop) `{∀ x, Decision (p x)} q t :
  well_formed t → well_formed (set_rows (filter p (rows t)) (clear_references q t)) ∧
  succeeds t (set_rows (filter p (rows t)) (clear_references q t)).
Proof.
  intros (Hnd & Hid & Hs). split.
  - split; [cbn|split; [|done]].
    + eapply sublist_NoDup; [exact Hnd|]. apply fmap_sublist, sublist_filter.
    + intros x Hx. cbn in Hx. apply list_elem_of_filter in Hx as [_ Hx]. by apply Hid.
  - split; cbn; [lia|]. intros x' Hx' _. apply list_elem_of_filter in Hx' as [_ Hx']. by exists x'.
Qed.

Lemma well_formed_clear q t : well_formed t → well_formed (clear_references q t) ∧ succeeds t (clear_references q t).
Proof. intros Hwf. split; [exact Hwf|]. split; cbn; [lia|]. intros x' Hx' _. by exists x'. Qed.

Lemma table_step_well_formed t t' : table_step t t' → well_formed t → well_formed t' ∧ succeeds t t'.
Proof.
  intros [r m|r i e s c|r i s|r i p|r i d|r i z|r i e|r1 r2 i|r1 r2 now age] Hwf;
    try (apply well_formed_update; [done|exact Hwf]).
  - unfold add_recording_metadata. destruct (_ >=? _) eqn:Emax; [by split|]. destruct r; [by split..|]. destruct Hwf as (Hnd & Hid & Hs). cbn. unbool.
    split; [split; [|split]; cbn|split; cbn; [lia|]].
    + rewrite fmap_app. apply NoDup_app. split; [done|]. split; [|apply NoDup_singleton].
      intros i (y & -> & Hy)%list_elem_of_fmap E%list_elem_of_singleton. cbn in E. specialize (Hid y Hy). lia.
    + intros x [Hx| ->%list_elem_of_singleton]%elem_of_app; [specialize (Hid x Hx); lia|cbn; lia].
    + lia.
    + intros x' [Hx| ->%list_elem_of_singleton]%elem_of_app Hle; [by exists x'|cbn in Hle; lia].
  - unfold set_recording_retention_tier. destruct (_ || _); [by split|]. by apply well_formed_update.
  - unfold delete_recording_metadata. destruct r1; [by split..|]. destruct r2; [by apply well_formed_clear..|].
    cbn zeta; cbn [snd rows clear_references]. by apply (well_formed_filter (λ x, c_id x ≠ s64 i) (λ j, j =? s64 i)).
  - unfold delete_old_recording_metadata. destruct r1; [by split..|]. destruct r2; [by apply well_formed_clear..|].
    cbn zeta; cbn [snd rows clear_references]. by apply (well_formed_filter (λ x, ended_before (now - s64 age) x = false)).
Qed.


(** ** Insertion and lookup *)

(** Texts and integers fit their types. *)
Definition metadata_ok (m : recording_metadata_t) : bool :=
  (length (stream_name m) <? 64)%nat && (length (file_path m) <? MAX_PATH_LENGTH)%nat &&
  (length (codec m) <? 16)%nat && (length (trigger_type m) <? 16)%nat &&
  (0 <=? size_bytes m) && (size_bytes m <? 2 ^ 63) &&
  forallb (λ z, (- 2 ^ 31 <=? z) && (z <? 2 ^ 31)) [width m; height m; fps m; retention_tier m].

(** What is stored: the id is the one assigned; a new recording is not protected,
    has no retention of its own, and an empty trigger is [scheduled]. *)
Definition as_stored (i : Z) (m : recording_metadata_t) : recording_metadata_t :=
  mkMetadata i (stream_name m) (file_path m) (start_time m) (if end_time m >? 0 then end_time m else 0) (size_bytes m)
    (width m) (height m) (fps m) (codec m) (is_complete m)
    (match trigger_type m with [] => lit "scheduled" | s => s end) false (-1) (retention_tier m) (disk_pressure_eligible m).

(** Ids tell rows apart. *)
Lemma well_formed_inj t x y : well_formed t → x ∈ rows t → y ∈ rows t → c_id x = c_id y → x = y.
Proof.
  intros (Hnd & _ & _) Hx Hy E. apply list_elem_of_lookup in Hx as [i Hx], Hy as [j Hy].
  assert (i = j) as ->; [|congruence].
  eapply NoDup_lookup; [exact Hnd|by rewrite list_lookup_fmap, Hx|]. by rewrite list_lookup_fmap, Hy, E.
Qed.

Lemma well_formed_s64 t x : well_formed t → x ∈ rows t → s64 (c_id x) = c_id x.
Proof. intros (_ & Hid & Hs) Hx. specialize (Hid x Hx). apply s64_small. lia. Qed.

Lemma well_formed_u64 t x : well_formed t → x ∈ rows t → u64 (c_id x) = c_id x.
Proof. intros (_ & Hid & Hs) Hx. specialize (Hid x Hx). apply u64_small. lia. Qed.

(** [t'] is [t] less the rows under some ids. *)
Definition without (ids : list Z) (t t' : table) : Prop :=
  rows t' = filter (λ x, c_id x ∉ ids) (rows t) ∧ sequence t' = sequence t.

Lemma without_nil t : without [] t t.
Proof.
  split; [|done]. symmetry.
  induction (rows t) as [|x xs IH]; [done|]. rewrite filter_cons_True by apply not_elem_of_nil. by rewrite IH.
Qed.

Lemma without_app ids1 ids2 t1 t2 t3 : without ids1 t1 t2 → without ids2 t2 t3 → without (ids1 ++ ids2) t1 t3.
Proof.
  intros [E1 S1] [E2 S2]. split; [|congruence]. rewrite E2, E1, list_filter_filter. apply list_filter_iff.
  intros x. rewrite not_elem_of_app. tauto.
Qed.

Lemma without_well_formed ids t t' : well_formed t → without ids t t' → well_formed t'.
Proof.
  intros Hwf [E S]. destruct (well_formed_filter (λ x, c_id x ∉ ids) (λ _, false) t Hwf) as [(Hnd & Hid & Hs) _].
  cbn in *. split; [by rewrite E|]. rewrite S. split; [|done]. intros x. rewrite E. apply Hid.
Qed.

Lemma without_split ids t t' : without ids t t' → ∃ gone, rows t ≡ₚ gone ++ rows t'.
Proof.
  intros [E _]. assert (Hs : rows t' ⊆+ rows t) by (rewrite E; apply sublist_submseteq, sublist_filter).
  apply submseteq_Permutation in Hs as [gone Hp]. exists gone. by rewrite Hp, (comm (++)).
Qed.

(** Deleting some of the rows leaves the others. *)
Lemma without_perm sel t t' :
  well_formed t → sel ⊆+ rows t → without (c_id <$> sel) t t' → rows t ≡ₚ sel ++ rows t'.
Proof.
  intros (Hnd & _ & _) [k Hk]%submseteq_Permutation [E _]. rewrite E, Hk at 1. f_equiv. rewrite Hk, filter_app.
  rewrite Hk, fmap_app in Hnd. apply NoDup_app in Hnd as (_ & Hdisj & _).
  assert (E1 : filter (λ x, c_id x ∉ c_id <$> sel) sel = []).
  { apply elem_of_nil_inv. intros x [Hn Hx]%list_elem_of_filter. by apply Hn, list_elem_of_fmap_2. }
  rewrite E1. cbn. symmetry. apply reflexive_eq. clear E E1 Hk. induction k as [|x k IH]; [done|].
  rewrite filter_cons_True; [|intros Hx; by apply (Hdisj _ Hx), list_elem_of_fmap_2; left].
  f_equal. apply IH. intros i Hi Hik. apply (Hdisj i Hi). by right.
Qed.

(** a recording added to the table is read back by its id as it was added. *)
Theorem add_then_get m t i t' :
  well_formed t → metadata_ok m = true → add_recording_metadata Completes m t = (i, t') → i ≠ 0 →
  get_recording_metadata_by_id Completes i (Some t') = Some (as_stored i m).
Proof.
  intros (Hnd & Hid & Hs) Hok Hadd Hi. unfold add_recording_metadata in Hadd.
  destruct (_ >=? _) eqn:Emax; [by injection Hadd as <- <-|]. injection Hadd as <- <-. unbool.
  unfold get_recording_metadata_by_id. cbn [mbind option_bind delivered rows].
  rewrite filter_app, s64_small by lia.
  assert (Hnone : filter (λ x, c_id x = sequence t + 1) (rows t) = []).
  { apply elem_of_nil_inv. intros x [Ex Hx]%list_elem_of_filter. specialize (Hid x Hx). lia. }
  rewrite Hnone. cbn [app]. rewrite filter_cons_True by done. cbn -[strcpy_trunc lit fetch]. f_equal.
  unfold metadata_ok in Hok. cbn in Hok. unbool. rewrite !Nat.leb_le in *.
  assert (Htrig : strcpy_trunc 16 (match trigger_type m with [] => lit "scheduled" | s => s end) =
                  match trigger_type m with [] => lit "scheduled" | s => s end).
  { destruct (trigger_type m) eqn:Et; [done|]. apply strcpy_trunc_id. cbn in *. lia. }
  unfold fetch, as_stored; cbn -[strcpy_trunc lit]. rewrite Htrig, !strcpy_trunc_id by (unfold MAX_PATH_LENGTH; lia).
  rewrite (s64_small (size_bytes m)), !(u64_small (_ + _)), (u64_small (size_bytes m)), (s32_small (width m)),
    (s32_small (height m)), (s32_small (fps m)), (s32_small (retention_tier m)) by lia.
  by destruct (end_time m >? 0), (is_complete m), (disk_pressure_eligible m).
Qed.

(** ** Eligibility under disk pressure *)

Definition empty_table : table := mkTable [] 0 [].

Definition ineligible (t : table) : Prop := ∀ x, x ∈ rows t → c_disk_pressure_eligible x = Some 0.

Lemma ineligible_update r i f t :
  (∀ x, c_disk_pressure_eligible (f x) = c_disk_pressure_eligible x) → ineligible t → ineligible (update_row r i f t).2.
Proof.
  intros Hf Ht. unfold update_row. destruct r; [done|done|]. intros x (y & -> & Hy)%list_elem_of_fmap.
  destruct (c_id y =? s64 i); rewrite ?Hf; by apply Ht.
Qed.

Lemma ineligible_filter (p : row → Prop) `{∀ x, Decision (p x)} q t :
  ineligible t → ineligible (set_rows (filter p (rows t)) (clear_references q t)).
Proof. intros Ht x [_ Hx]%list_elem_of_filter. by apply Ht. Qed.

Lemma program_step_ineligible t t' : program_step t t' → ineligible t → ineligible t'.
Proof.
  intros [r m Hm|r i e s c|r i s|r i p|r i d|r i z|r1 r2 i|r1 r2 now age] Ht; try (by apply ineligible_update).
  - unfold add_recording_metadata. destruct (_ >=? _); [done|]. destruct r; [done|done|].
    intros x [Hx| ->%list_elem_of_singleton]%elem_of_app; [by apply Ht|]. by destruct Hm.
  - unfold set_recording_retention_tier. destruct (_ || _); [done|]. by apply ineligible_update.
  - unfold delete_recording_metadata. destruct r1; [done|done|]. destruct r2; [done|done|].
    cbn zeta; cbn [snd rows clear_references]. by apply (ineligible_filter (λ x, c_id x ≠ s64 i) (λ j, j =? s64 i)).
  - unfold delete_old_recording_metadata. destruct r1; [done|done|]. destruct r2; [done|done|].
    cbn zeta; cbn [snd rows clear_references]. by apply (ineligible_filter (λ x, ended_before (now - s64 age) x = false)).
Qed.

(** no recording that the program itself has entered is ever eligible for
    deletion under disk pressure, however it is completed, updated or marked
    afterwards: the query of the emergency cleanup finds nothing. *)
Theorem program_recordings_ineligible `{SqliteLaws} t r n :
  rtc program_step empty_table t → default [] (get_recordings_for_pressure_cleanup r (Some t) n) = [].
Proof.
  intros Hsteps. assert (Ht : ineligible t).
  { assert (H0' : ineligible empty_table) by (by intros x ?%elem_of_nil). revert H0'.
    induction Hsteps as [|t1 t2 t3 Hs _ IH]; [done|]. intros H1. apply IH. by eapply program_step_ineligible. }
  assert (Hnil : select r pressure_candidate priority_key n t = []).
  { apply elem_of_nil_inv. intros x [Hx Hc]%select_in. unfold pressure_candidate in Hc. rewrite (Ht x Hx) in Hc.
    cbn in Hc. by rewrite andb_false_r in Hc. }
  unfold get_recordings_for_pressure_cleanup. destruct r; [done| |]; (destruct (n <=? 0); [done|]); by rewrite Hnil.
Qed.

(** ** Witnesses *)

Definition sample_metadata (path : cstr) : recording_metadata_t :=
  mkMetadata 0 (lit "door") path 100 0 4096 1920 1080 25 (lit "h264") false [] false (-1) 2 true.


Lemma add_then_get_witness :
  ∃ i t', add_recording_metadata Completes (sample_metadata (lit "a.mp4")) empty_table = (i, t') ∧
          get_recording_metadata_by_id Completes i (Some t') = Some (as_stored i (sample_metadata (lit "a.mp4"))).
Proof.
  eexists _, _. split; [by vm_compute|].
  apply (add_then_get (sample_metadata (lit "a.mp4")) empty_table); [|by vm_compute..|done].
  apply (bool_decide_unpack _). by vm_compute.
Defined.

Lemma program_recordings_ineligible_witness :
  ∃ t, rtc program_step empty_table t ∧ length (filter (λ x, deletable x = true) (rows t)) = 1%nat ∧
       default [] (@get_recordings_for_pressure_cleanup merging_sqlite Completes (Some t) 200) = [].
Proof.
  set (m := segment_metadata (lit "door") (lit "a.mp4") (lit "scheduled") 100).
  set (t1 := (add_recording_metadata Completes m empty_table).2).
  set (t2 := (update_recording_metadata Completes 1 160 4096 true t1).2).
  assert (Hsteps : rtc program_step empty_table t2).
  { eapply rtc_l; [apply (PAdd _ Completes m), FromSegment|]. eapply rtc_l; [apply (PUpdate _ Completes 1 160 4096 true)|].
    apply rtc_refl. }
  exists t2. split; [exact Hsteps|]. split; [by vm_compute|].
  exact (@program_recordings_ineligible merging_sqlite merging_laws t2 Completes 200 Hsteps).
Defined.
