(* ===== verification/Storage.v ===== *)
(** * Storage management: [src/storage/storage_manager.c]

    The retention policy, the quotas, the cleanup under disk pressure and the
    controller thread that schedules them.  A run is a function on a [world]:
    the table of recordings, the disk, the health record, and the log of what
    was done.  The file system is the class [FileSystem].  What the functions
    read from outside (the clock, the outcome of a statement, the flag that
    stops the thread) is a sequence indexed by the number of readings so far.

    A loop that has no bound of its own takes the number of iterations it may
    make; running out of them is [None], like undefined behaviour. *)
From Stdlib Require Import ZArith Lia Bool.
From Stdlib Require Import SpecFloat.
From Stdlib Require Import Strings.Byte.
From stdpp Require Import base numbers list strings.
From S2P Require Import Prelude.
From S2P Require Import CFloat.
From S2P Require Import Sql.
From S2P Require Import Recordings.
#[local] Open Scope Z_scope.

Definition MAX_STREAMS_BATCH : Z := 64.
Definition MAX_RECORDINGS_PER_STREAM : Z := 100.
Definition MAX_ORPHANED_BATCH : Z := 500.
Definition RETENTION_TIME_BUDGET_SEC : Z := 300.
Definition DEFAULT_RETENTION_DAYS : Z := 30.
Definition DETECTION_RETENTION_MULTIPLIER : Z := 3.
Definition ORPHAN_SAFETY_THRESHOLD : spec_float := f_lit binary64 1 2.
Definition MIN_RECORDINGS_FOR_THRESHOLD : Z := 10.
Definition MAX_RECORDING_PATH_LENGTH : nat := 768.
Definition HEARTBEAT_INTERVAL_SEC : Z := 60.
Definition STANDARD_INTERVAL_SEC : Z := 900.
Definition DEEP_INTERVAL_SEC : Z := 21600.
Definition MAX_EMERGENCY_RECORDINGS : Z := 200.

(** ** Disk pressure *)

Inductive disk_pressure_level_t :=
  | DISK_PRESSURE_NORMAL | DISK_PRESSURE_WARNING | DISK_PRESSURE_CRITICAL | DISK_PRESSURE_EMERGENCY.

#[global] Instance disk_pressure_level_eq_dec : EqDecision disk_pressure_level_t.
Proof. solve_decision. Defined.

(** The value of the enumeration. *)
Definition level_Z (l : disk_pressure_level_t) : Z :=
  match l with
  | DISK_PRESSURE_NORMAL => 0 | DISK_PRESSURE_WARNING => 1 | DISK_PRESSURE_CRITICAL => 2 | DISK_PRESSURE_EMERGENCY => 3
  end.

Definition disk_pressure_level_str (l : disk_pressure_level_t) : cstr :=
  match l with
  | DISK_PRESSURE_NORMAL => lit "Normal" | DISK_PRESSURE_WARNING => lit "Warning"
  | DISK_PRESSURE_CRITICAL => lit "Critical" | DISK_PRESSURE_EMERGENCY => lit "Emergency"
  end.

Definition DISK_PRESSURE_WARNING_PCT : spec_float := f_of_Z binary64 20.
Definition DISK_PRESSURE_CRITICAL_PCT : spec_float := f_of_Z binary64 10.
Definition DISK_PRESSURE_EMERGENCY_PCT : spec_float := f_of_Z binary64 5.

Definition evaluate_disk_pressure_level (free_pct : spec_float) : disk_pressure_level_t :=
  if flt free_pct DISK_PRESSURE_EMERGENCY_PCT then DISK_PRESSURE_EMERGENCY else
  if flt free_pct DISK_PRESSURE_CRITICAL_PCT then DISK_PRESSURE_CRITICAL else
  if flt free_pct DISK_PRESSURE_WARNING_PCT then DISK_PRESSURE_WARNING else DISK_PRESSURE_NORMAL.

Definition should_continue_emergency_cleanup (initial_level current_level : disk_pressure_level_t) (aggressive : bool) : bool :=
  if level_Z initial_level <? level_Z DISK_PRESSURE_CRITICAL then true
  else level_Z current_level >=? level_Z DISK_PRESSURE_CRITICAL.

Record storage_health_t := mkHealth {
  pressure_level : disk_pressure_level_t;
  free_space_pct : spec_float;
  free_space_bytes : Z;
  total_space_bytes : Z;
  used_space_bytes : Z;
  last_check_time : Z;
  last_cleanup_time : Z;
  last_deep_time : Z;
  last_cleanup_deleted : Z;
  last_cleanup_freed : Z
}.

(** ** The file system *)

Inductive unlink_result := Unlinked | NoEntry | Refused.

Class FileSystem (F : Type) := {
  unlink : F → cstr → F * unlink_result;
  file_exists : F → cstr → bool;                             (** [access (path, F_OK) == 0] *)
  is_directory : F → cstr → bool;
  statvfs : F → cstr → option (Z * Z * Z);                   (** [f_blocks], [f_bavail], [f_frsize] *)
  list_directory : F → cstr → option (list cstr);            (** without [.] and [..] *)
  stat_regular : F → cstr → option (Z * Z);                  (** [st_mtime], [st_size] of a regular file *)
  lstat_regular : F → cstr → option Z                        (** [st_mtime], not through a symbolic link *)
}.

(** ** The world *)

(** What a run does, in order. *)
Inductive event :=
  | EvUnlink (path : cstr) (recording : Z)
  | EvUnlinkUntracked (path : cstr)
  | EvDeleteRow (recording : Z)
  | EvThumbnails (recording : Z)
  | EvCacheRemove (stream : cstr) (size : Z)
  | EvCacheRefresh
  | EvPressure (old new : disk_pressure_level_t)
  | EvCleanupPublished (deleted tier_deleted freed : Z)
  | EvSessionsCleaned.

Record world (F : Type) := mkWorld {
  db : option table;
  disk : F;
  health : storage_health_t;
  readings : nat;
  log : list event
}.
Arguments mkWorld {F} _ _ _ _ _.
Arguments db {F} _.
Arguments disk {F} _.
Arguments health {F} _.
Arguments readings {F} _.
Arguments log {F} _.

Definition M (F A : Type) : Type := world F → option (A * world F).

#[global] Instance M_ret F : MRet (M F) := λ A a w, Some (a, w).
#[global] Instance M_bind F : MBind (M F) := λ A B k m w, m w ≫= λ r, k r.1 r.2.

(** [for (i = 0; i < count; i++) body], carrying a value. *)
Fixpoint for_each {F A S} (body : A → S → M F S) (l : list A) (s : S) : M F S :=
  match l with
  | [] => mret s
  | a :: l => s ← body a s; for_each body l s
  end.

Section primitives.
Context {F : Type} `{FileSystem F}.

Definition tick : M F nat := λ w, Some (readings w, mkWorld (db w) (disk w) (health w) (S (readings w)) (log w)).
Definition say (e : event) : M F () := λ w, Some ((), mkWorld (db w) (disk w) (health w) (readings w) (log w ++ [e])).
Definition undefined {A} : M F A := λ w, None.
Definition lift {A} (o : option A) : M F A := λ w, a ← o; Some (a, w).
Definition get_db : M F (option table) := λ w, Some (db w, w).
Definition put_db (t : table) : M F () := λ w, Some ((), mkWorld (Some t) (disk w) (health w) (readings w) (log w)).
Definition get_disk : M F F := λ w, Some (disk w, w).
Definition put_disk (d : F) : M F () := λ w, Some ((), mkWorld (db w) d (health w) (readings w) (log w)).
Definition get_health : M F storage_health_t := λ w, Some (health w, w).
Definition put_health (h : storage_health_t) : M F () := λ w, Some ((), mkWorld (db w) (disk w) h (readings w) (log w)).
End primitives.

(** ** Configuration *)

(** A row of the table of streams, as far as it is read here. *)
Record stream_row := mkStream {
  s_name : cstr;
  s_enabled : bool;
  s_retention_days : option Z;
  s_detection_retention_days : option Z;
  s_max_storage_mb : option Z;
  s_tier_critical_multiplier : option spec_float;
  s_tier_important_multiplier : option spec_float;
  s_tier_ephemeral_multiplier : option spec_float
}.

Record stream_retention_config_t := mkRetention {
  retention_days : Z;
  detection_retention_days : Z;
  max_storage_mb : Z
}.

(** The static configuration of the storage manager. *)
Record storage_manager_t := mkManager {
  storage_path : cstr;
  max_size : Z;
  default_retention_days : Z
}.

(** What the functions read from outside.  [time_at n], [sql_at n], [running_at n]
    and [memory_at n] are the clock, the outcome of a statement,
    [unified_ctrl.running] and the outcome of an allocation at reading [n]. *)
Class Environment := {
  streams : list stream_row;
  storage_manager : storage_manager_t;
  time_at : nat → Z;
  sql_at : nat → sql_run;
  running_at : nat → bool;
  memory_at : nat → bool
}.

Definition set_retention_days (days : Z) (m : storage_manager_t) : Z * storage_manager_t :=
  if days <? 0 then (-1, m) else (0, mkManager (storage_path m) (max_size m) days).

Definition set_max_storage_size (size : Z) (m : storage_manager_t) : Z * storage_manager_t :=
  (0, mkManager (storage_path m) size (default_retention_days m)).

(** [snprintf (buf, size, "%s/%s", dir, name)] *)
Definition join (size : nat) (dir name : cstr) : cstr := strcpy_trunc size (dir ++ lit "/" ++ name).

Definition MP4_SUBDIR : cstr := lit "mp4".

(** The sort key of a text column. *)
Definition text_key (s : cstr) : list Z := byte_Z <$> s.

Section operations.
Context {F : Type} `{FileSystem F} `{Sqlite} `{Environment}.

Definition time : M F Z := n ← tick; mret (time_at n).
Definition sql : M F sql_run := n ← tick; mret (sql_at n).
Definition running : M F bool := n ← tick; mret (running_at n).
Definition calloc : M F bool := n ← tick; mret (memory_at n).

(** ** Streams: [src/database/db_streams.c] *)

(** [None]: -1. *)
Definition get_all_stream_names (max_count : Z) : M F (option (list cstr)) :=
  o ← get_db;
  match o with
  | None => mret None
  | Some _ =>
      if max_count <=? 0 then mret None else
      r ← sql;
      match r with
      | PrepareFails => mret None
      | _ => mret (Some (strcpy_trunc MAX_STREAM_NAME <$>
               take (Z.to_nat max_count) (delivered r (order_by text_key (s_name <$> filter (λ s, s_enabled s = true) streams)))))
      end
  end.

Definition find_stream (name : cstr) : M F (option stream_row) :=
  o ← get_db;
  match o with
  | None => mret None
  | Some _ => r ← sql; mret (head (delivered r (filter (λ s, s_name s = name) streams)))
  end.

Definition get_stream_retention_config (name : cstr) : M F (option stream_retention_config_t) :=
  o ← find_stream name;
  mret (s ← o; Some (mkRetention (s32 (default 30 (s_retention_days s))) (s32 (default 90 (s_detection_retention_days s)))
                      (u64 (default 0 (s_max_storage_mb s))))).

(** ** Deletion of one recording *)

Definition delete_metadata (i : Z) : M F bool :=
  o ← get_db;
  match o with
  | None => mret false
  | Some t =>
      r1 ← sql; r2 ← sql;
      let '(ok, t') := delete_recording_metadata r1 r2 i t in
      put_db t';; (if ok : bool then say (EvDeleteRow i) else mret ());; mret ok
  end.

(** Whether the file is no obstacle, and whether it was there. *)
Definition remove_file (r : recording_metadata_t) : M F (bool * bool) :=
  if decide (file_path r = []) then mret (true, false) else
  d ← get_disk;
  let '(d', u) := unlink d (file_path r) in
  put_disk d';;
  match u with
  | Unlinked => say (EvUnlink (file_path r) (id r));; mret (true, true)
  | NoEntry => mret (true, false)
  | Refused => mret (false, false)
  end.

Definition delete_recording_file_and_metadata (r : recording_metadata_t) : M F (bool * Z) :=
  f ← remove_file r;
  if negb f.1 then mret (false, 0) else
  say (EvThumbnails (id r));;
  ok ← delete_metadata (id r);
  if negb ok then mret (false, 0) else
  say (EvCacheRemove (stream_name r) (size_bytes r));;
  mret (true, if f.2 : bool then size_bytes r else 0).

(** ** The retention policy *)

(** Recordings deleted and bytes freed so far. *)
Definition totals : Type := Z * Z.

Definition delete_counted (r : recording_metadata_t) (acc : totals) : M F totals :=
  d ← delete_recording_file_and_metadata r;
  mret (if d.1 : bool then (acc.1 + 1, u64 (acc.2 + d.2)) else acc).

Definition query_retention (name : cstr) (days ddays : Z) : M F (list recording_metadata_t) :=
  now ← time; r ← sql; sql_now ← time; o ← get_db;
  mret (default [] (get_recordings_for_retention r now sql_now o name days ddays MAX_RECORDINGS_PER_STREAM)).

Fixpoint retention_loop (fuel : nat) (budget_start : Z) (name : cstr) (days ddays : Z) (acc : totals) : M F totals :=
  match fuel with
  | O => undefined
  | S fuel =>
      now ← time;
      if now - budget_start >=? RETENTION_TIME_BUDGET_SEC then mret acc else
      batch ← query_retention name days ddays;
      acc ← for_each delete_counted batch acc;
      if Z.of_nat (length batch) =? MAX_RECORDINGS_PER_STREAM
      then retention_loop fuel budget_start name days ddays acc else mret acc
  end.

Definition query_quota (name : cstr) : M F (list recording_metadata_t) :=
  r ← sql; o ← get_db;
  mret (default [] (get_recordings_for_quota_enforcement r o name MAX_RECORDINGS_PER_STREAM)).

(** The loop over the batch stops at the first recording that finds [freed] at
    [to_free]: [freed] does not change after that. *)
Definition delete_for_quota (to_free : Z) (r : recording_metadata_t) (s : Z * totals) : M F (Z * totals) :=
  if s.1 >=? to_free then mret s else
  d ← delete_recording_file_and_metadata r;
  mret (if d.1 : bool then (u64 (s.1 + d.2), (s.2.1 + 1, u64 (s.2.2 + d.2))) else s).

Fixpoint quota_loop (fuel : nat) (budget_start : Z) (name : cstr) (to_free : Z) (s : Z * totals) : M F (Z * totals) :=
  match fuel with
  | O => undefined
  | S fuel =>
      now ← time;
      if now - budget_start >=? RETENTION_TIME_BUDGET_SEC then mret s else
      batch ← query_quota name;
      s ← for_each (delete_for_quota to_free) batch s;
      if (Z.of_nat (length batch) =? MAX_RECORDINGS_PER_STREAM) && (s.1 <? to_free)
      then quota_loop fuel budget_start name to_free s else mret s
  end.

(** A failure of the lookup: the defaults, where the product is undefined when it
    overflows [int]. *)
Definition fallback_config : M F stream_retention_config_t :=
  let days := if default_retention_days storage_manager >? 0 then default_retention_days storage_manager else DEFAULT_RETENTION_DAYS in
  let ddays := days * DETECTION_RETENTION_MULTIPLIER in
  if ddays <? 2 ^ 31 then mret (mkRetention days ddays 0) else undefined.

Definition stream_usage (name : cstr) : M F Z :=
  r ← sql; o ← get_db; mret (u64 (get_stream_storage_bytes r o (Some name))).

Definition enforce_quota (fuel : nat) (budget_start : Z) (name : cstr) (max_storage_mb : Z) (acc : totals) : M F totals :=
  if max_storage_mb >? 0 then
    current_usage ← stream_usage name;
    let max_bytes := u64 (max_storage_mb * 1024 * 1024) in
    if current_usage >? max_bytes then
      s ← quota_loop fuel budget_start name (current_usage - max_bytes) (0, acc);
      mret s.2
    else mret acc
  else mret acc.

Definition apply_stream_policy (fuel : nat) (budget_start : Z) (name : cstr) (acc : totals) : M F totals :=
  o ← get_stream_retention_config name;
  c ← (match o with Some c => mret c | None => fallback_config end);
  if (retention_days c <=? 0) && (detection_retention_days c <=? 0) && (max_storage_mb c =? 0) then mret acc else
  acc ← (if (retention_days c >? 0) || (detection_retention_days c >? 0)
         then retention_loop fuel budget_start name (retention_days c) (detection_retention_days c) acc
         else mret acc);
  enforce_quota fuel budget_start name (max_storage_mb c) acc.

(** The loop over the streams stops when the time is used up. *)
Fixpoint apply_to_streams (fuel : nat) (budget_start : Z) (names : list cstr) (acc : totals) : M F totals :=
  match names with
  | [] => mret acc
  | name :: names =>
      now ← time;
      if now - budget_start >=? RETENTION_TIME_BUDGET_SEC then mret acc else
      acc ← apply_stream_policy fuel budget_start name acc;
      apply_to_streams fuel budget_start names acc
  end.

Definition storage_accessible : M F bool :=
  d ← get_disk;
  mret (is_directory d (storage_path storage_manager) &&
        is_directory d (join MAX_PATH_LENGTH (storage_path storage_manager) MP4_SUBDIR)).

Definition query_orphans : M F (list recording_metadata_t * Z) :=
  r1 ← sql; r2 ← sql; d ← get_disk; o ← get_db;
  let '(orphaned, total_checked) := get_orphaned_db_entries r1 r2 (file_exists d) o MAX_ORPHANED_BATCH in
  mret (default [] orphaned, default 0 total_checked).

(** Whether the share of orphans says that the storage is at fault. *)
Definition orphans_suspicious (orphan_count total_checked : Z) : bool :=
  fgt (fdiv binary64 (f_of_Z binary64 orphan_count) (f_of_Z binary64 total_checked)) ORPHAN_SAFETY_THRESHOLD &&
  (total_checked >=? MIN_RECORDINGS_FOR_THRESHOLD).

Definition clean_up_orphans : M F () :=
  accessible ← storage_accessible;
  if negb accessible then mret () else
  allocated ← calloc;
  if negb allocated then mret () else
  q ← query_orphans;
  if (Z.of_nat (length q.1) >? 0) && (q.2 >? 0) && negb (orphans_suspicious (Z.of_nat (length q.1)) q.2)
  then for_each (λ r _, delete_metadata (id r);; mret ()) q.1 ()
  else mret ().

(** One entry of a directory under the storage path. *)
Definition legacy_file (cutoff : Z) (stream_path name : cstr) (deleted : Z) : M F Z :=
  d ← get_disk;
  match lstat_regular d (stream_path ++ lit "/" ++ name) with
  | None => mret deleted
  | Some mtime =>
      if (default_retention_days storage_manager >? 0) && (mtime <? cutoff) then
        r ← sql; o ← get_db;
        match get_recording_metadata_by_path r (join MAX_RECORDING_PATH_LENGTH stream_path name) o with
        | Some _ => mret deleted
        | None =>
            let '(d', u) := unlink d (stream_path ++ lit "/" ++ name) in
            put_disk d';;
            match u with
            | Unlinked => say (EvUnlinkUntracked (stream_path ++ lit "/" ++ name));; mret (deleted + 1)
            | _ => mret deleted
            end
        end
      else mret deleted
  end.

Definition legacy_directory (cutoff : Z) (entry : cstr) (deleted : Z) : M F Z :=
  let stream_path := join MAX_RECORDING_PATH_LENGTH (storage_path storage_manager) entry in
  d ← get_disk;
  if is_directory d stream_path
  then for_each (legacy_file cutoff stream_path) (default [] (list_directory d stream_path)) deleted
  else mret deleted.

Definition apply_legacy_retention_policy : M F Z :=
  now ← time;
  let cutoff := now - default_retention_days storage_manager * 86400 in
  d ← get_disk;
  match list_directory d (storage_path storage_manager) with
  | None => mret 0
  | Some entries => for_each (legacy_directory cutoff) entries 0
  end.

(** The number of recordings deleted, or -1. *)
Definition apply_retention_policy (fuel : nat) : M F Z :=
  budget_start ← time;
  o ← get_all_stream_names MAX_STREAMS_BATCH;
  match o with
  | None => mret (-1)
  | Some [] => mret 0
  | Some names =>
      allocated ← calloc;
      if negb allocated then mret (-1) else
      acc ← apply_to_streams fuel budget_start names (0, 0);
      now ← time;
      (if now - budget_start <? RETENTION_TIME_BUDGET_SEC then clean_up_orphans else mret ());;
      if (default_retention_days storage_manager >? 0) || (max_size storage_manager >? 0)
      then legacy ← apply_legacy_retention_policy; mret (if legacy >? 0 then acc.1 + legacy else acc.1)
      else mret acc.1
  end.

(** ** Disk pressure *)

Definition get_disk_pressure_level : M F disk_pressure_level_t := h ← get_health; mret (pressure_level h).

Definition get_storage_health : M F storage_health_t := get_health.

Definition free_percentage (avail total : Z) : spec_float :=
  if total >? 0 then fmul binary64 (fdiv binary64 (f_of_Z binary64 avail) (f_of_Z binary64 total)) (f_of_Z binary64 100)
  else f_of_Z binary64 0.

Definition heartbeat_check_disk_pressure : M F () :=
  d ← get_disk;
  match statvfs d (storage_path storage_manager) with
  | None => mret ()
  | Some (blocks, bavail, frsize) =>
      let total := u64 (blocks * frsize) in
      let avail := u64 (bavail * frsize) in
      let used := if total >? avail then total - avail else 0 in
      let free_pct := free_percentage avail total in
      let new_level := evaluate_disk_pressure_level free_pct in
      h ← get_health;
      now ← time;
      put_health (mkHealth new_level free_pct avail total used now (last_cleanup_time h) (last_deep_time h)
                    (last_cleanup_deleted h) (last_cleanup_freed h));;
      if decide (new_level = pressure_level h) then mret () else say (EvPressure (pressure_level h) new_level)
  end.

Definition ensure_disk_space (min_free_bytes : Z) : M F bool :=
  d ← get_disk;
  mret (match statvfs d (storage_path storage_manager) with
        | None => false
        | Some (_, bavail, frsize) => u64 (bavail * frsize) >=? min_free_bytes
        end).

Definition is_storage_available : M F bool :=
  d ← get_disk; mret (is_directory d (storage_path storage_manager)).

Definition delete_recording (path : cstr) : M F Z :=
  d ← get_disk;
  let '(d', u) := unlink d path in
  put_disk d';;
  mret (match u with Unlinked => 0 | _ => -1 end).

(** The statistics of a cleanup, with its time. *)
Definition record_cleanup (deleted freed : Z) : M F () :=
  h ← get_health;
  now ← time;
  put_health (mkHealth (pressure_level h) (free_space_pct h) (free_space_bytes h) (total_space_bytes h)
                (used_space_bytes h) (last_check_time h) now (last_deep_time h) deleted freed).

(** [break] is the flag [stop]. *)
Definition emergency_step (initial : disk_pressure_level_t) (aggressive : bool) (r : recording_metadata_t)
    (s : bool * totals) : M F (bool * totals) :=
  if s.1 : bool then mret s else
  run ← running;
  if negb run then mret (true, s.2) else
  d ← delete_recording_file_and_metadata r;
  if negb d.1 then mret s else
  let acc := (s.2.1 + 1, u64 (s.2.2 + d.2)) in
  if d.2 >? 0 then
    heartbeat_check_disk_pressure;;
    current ← get_disk_pressure_level;
    mret (negb (should_continue_emergency_cleanup initial current aggressive), acc)
  else mret (false, acc).

Definition query_pressure (max_count : Z) : M F (list recording_metadata_t) :=
  r ← sql; o ← get_db;
  mret (default [] (get_recordings_for_pressure_cleanup r o max_count)).

Definition emergency_cleanup (aggressive : bool) : M F () :=
  let max_to_delete := if aggressive then MAX_EMERGENCY_RECORDINGS else MAX_EMERGENCY_RECORDINGS / 2 in
  initial ← get_disk_pressure_level;
  allocated ← calloc;
  if negb allocated then mret () else
  batch ← query_pressure max_to_delete;
  if Z.of_nat (length batch) <=? 0 then mret () else
  s ← for_each (emergency_step initial aggressive) batch (false, (0, 0));
  record_cleanup s.2.1 s.2.2;;
  heartbeat_check_disk_pressure.

(** ** The cycles *)

(** The loop over the batch stops when the thread is asked to. *)
Fixpoint tier_batch (batch : list recording_metadata_t) (acc : totals) : M F totals :=
  match batch with
  | [] => mret acc
  | r :: batch =>
      run ← running;
      if negb run then mret acc else acc ← delete_counted r acc; tier_batch batch acc
  end.

Definition query_tier (name : cstr) (base : Z) (mults : spec_float * spec_float * spec_float * spec_float)
    : M F (list recording_metadata_t) :=
  now ← time; r ← sql; sql_now ← time; o ← get_db;
  q ← lift (get_recordings_for_tiered_retention r now sql_now o (Some name) base mults MAX_RECORDINGS_PER_STREAM);
  mret (default [] q).

Fixpoint tier_loop (fuel : nat) (name : cstr) (base : Z) (mults : spec_float * spec_float * spec_float * spec_float)
    (acc : totals) : M F totals :=
  match fuel with
  | O => undefined
  | S fuel =>
      run ← running;
      if negb run then mret acc else
      batch ← query_tier name base mults;
      acc ← tier_batch batch acc;
      if Z.of_nat (length batch) =? MAX_RECORDINGS_PER_STREAM then tier_loop fuel name base mults acc else mret acc
  end.

Definition positive_or (x y : spec_float) : spec_float := if fgt x (f_of_Z binary64 0) then x else y.

(** The multipliers of the tiers, critical first. *)
Definition tier_multipliers (s : stream_row) : spec_float * spec_float * spec_float * spec_float :=
  let three := f_of_Z binary64 3 in
  let two := f_of_Z binary64 2 in
  let quarter := f_lit binary64 1 4 in
  (positive_or (default three (s_tier_critical_multiplier s)) three,
   positive_or (default two (s_tier_important_multiplier s)) two,
   f_of_Z binary64 1,
   positive_or (default quarter (s_tier_ephemeral_multiplier s)) quarter).

Definition base_retention (s : stream_row) : Z :=
  let days := s32 (default 0 (s_retention_days s)) in
  let base := if days >? 0 then days else default_retention_days storage_manager in
  if base <=? 0 then 30 else base.

Fixpoint tier_streams (fuel : nat) (names : list cstr) (acc : totals) : M F totals :=
  match names with
  | [] => mret acc
  | name :: names =>
      run ← running;
      if negb run then mret acc else
      o ← find_stream name;
      acc ← (match o with
             | None => mret acc
             | Some s => tier_loop fuel name (base_retention s) (tier_multipliers s) acc
             end);
      tier_streams fuel names acc
  end.

Definition tiered_cleanup (fuel : nat) : M F totals :=
  allocated ← calloc;
  if negb allocated then mret (0, 0) else
  o ← get_all_stream_names MAX_STREAMS_BATCH;
  tier_streams fuel (default [] o) (0, 0).

Definition standard_cleanup_cycle (fuel : nat) : M F () :=
  deleted ← apply_retention_policy fuel;
  tier ← tiered_cleanup fuel;
  say EvCacheRefresh;;
  pressure ← get_disk_pressure_level;
  record_cleanup (deleted + tier.1) tier.2;;
  (if level_Z pressure >=? level_Z DISK_PRESSURE_CRITICAL
   then emergency_cleanup (bool_decide (pressure = DISK_PRESSURE_EMERGENCY)) else mret ());;
  if deleted + tier.1 >? 0 then say (EvCleanupPublished deleted tier.1 tier.2) else mret ().

Definition deep_maintenance_cycle (fuel : nat) : M F () :=
  say EvSessionsCleaned;;
  standard_cleanup_cycle fuel;;
  h ← get_health;
  now ← time;
  put_health (mkHealth (pressure_level h) (free_space_pct h) (free_space_bytes h) (total_space_bytes h)
    (used_space_bytes h) (last_check_time h) (last_cleanup_time h) now (last_cleanup_deleted h) (last_cleanup_freed h)).
End operations.

(** ** The controller thread *)

Record controller := mkController {
  last_heartbeat : Z;
  last_standard : Z;
  last_deep : Z;
  force_cleanup : bool;
  force_aggressive : bool
}.

Definition trigger_storage_cleanup (aggressive : bool) (c : controller) : controller :=
  mkController (last_heartbeat c) (last_standard c) (last_deep c) true aggressive.

Section controller.
Context {F : Type} `{FileSystem F} `{Sqlite} `{Environment}.

Definition controller_start : M F controller :=
  now ← time;
  say EvCacheRefresh;;
  heartbeat_check_disk_pressure;;
  mret (mkController now now now false false).

(** The cycles that are due at [now]. *)
Definition scheduled_cycles (fuel : nat) (now : Z) (c : controller) : M F controller :=
  pressure ← get_disk_pressure_level;
  standard ← (if level_Z pressure >=? level_Z DISK_PRESSURE_EMERGENCY then emergency_cleanup true;; mret (last_standard c)
              else if (level_Z pressure >=? level_Z DISK_PRESSURE_CRITICAL) && (now - last_standard c >=? STANDARD_INTERVAL_SEC / 3)
              then standard_cleanup_cycle fuel;; mret now
              else mret (last_standard c));
  standard ← (if now - standard >=? STANDARD_INTERVAL_SEC then standard_cleanup_cycle fuel;; mret now else mret standard);
  deep ← (if now - last_deep c >=? DEEP_INTERVAL_SEC then deep_maintenance_cycle fuel;; mret now else mret (last_deep c));
  mret (mkController (last_heartbeat c) standard deep (force_cleanup c) (force_aggressive c)).

(** One iteration after its wait; [None] when the thread leaves its loop. *)
Definition controller_turn (fuel : nat) (c : controller) : M F (option controller) :=
  run ← running;
  if negb run then mret None else
  now ← time;
  heartbeat_check_disk_pressure;;
  let c' := mkController now (last_standard c) (last_deep c) false false in
  if force_cleanup c then
    (if force_aggressive c then emergency_cleanup true else standard_cleanup_cycle fuel);; mret (Some c')
  else c'' ← scheduled_cycles fuel now c'; mret (Some c'').

(** Iterations, each after the requests made during its wait. *)
Fixpoint controller_run (fuel : nat) (waits : list (list bool)) (c : controller) : M F (option controller) :=
  match waits with
  | [] => mret (Some c)
  | requests :: waits =>
      o ← controller_turn fuel (foldl (λ c a, trigger_storage_cleanup a c) c requests);
      match o with
      | Some c => controller_run fuel waits c
      | None => mret None
      end
  end.
End controller.

(** ** Statistics *)

Record storage_stats_t := mkStats {
  total_space : Z;
  used_space : Z;
  free_space : Z;
  reserved_space : Z;                                        (** 0: the storage manager never sets its own *)
  total_recordings : Z;
  total_recording_bytes : Z;
  oldest_recording_time : Z;
  newest_recording_time : Z
}.

Definition UINT64_MAX : Z := 2 ^ 64 - 1.

(** The times are compared as [uint64_t]. *)
Definition count_file {F} `{FileSystem F} (d : F) (dir : cstr) (s : storage_stats_t) (name : cstr) : storage_stats_t :=
  match stat_regular d (join MAX_RECORDING_PATH_LENGTH dir name) with
  | None => s
  | Some (mtime, size) =>
      let t := u64 mtime in
      mkStats (total_space s) (used_space s) (free_space s) (reserved_space s) (u64 (total_recordings s + 1))
        (u64 (total_recording_bytes s + size))
        (if t <? oldest_recording_time s then t else oldest_recording_time s)
        (if t >? newest_recording_time s then t else newest_recording_time s)
  end.

Definition count_directory {F} `{FileSystem F} (d : F) (base : cstr) (s : storage_stats_t) (entry : cstr) : storage_stats_t :=
  let path := join MAX_RECORDING_PATH_LENGTH base entry in
  if is_directory d path then foldl (count_file d path) s (default [] (list_directory d path)) else s.

(** [None]: -1. *)
Definition get_storage_stats {F} `{FileSystem F} `{Environment} (d : F) : option storage_stats_t :=
  let base := storage_path storage_manager in
  match statvfs d base with
  | None => None
  | Some (blocks, bavail, frsize) =>
      let total := u64 (blocks * frsize) in
      let free := u64 (bavail * frsize) in
      let s := mkStats total (u64 (total - free)) free 0 0 0 0 0 in
      match list_directory d base with
      | None => Some s
      | Some entries =>
          let s := foldl (count_directory d base) (mkStats total (u64 (total - free)) free 0 0 0 UINT64_MAX 0) entries in
          Some (mkStats (total_space s) (used_space s) (free_space s) (reserved_space s) (total_recordings s) (total_recording_bytes s)
                  (if oldest_recording_time s =? UINT64_MAX then 0 else oldest_recording_time s) (newest_recording_time s))
      end
  end.

(** ** Starting and stopping *)

Record thread_state := mkThread { th_running : bool; th_exited : bool }.

(** The argument says whether [pthread_create] succeeds. *)
Definition start_storage_manager_thread (created : bool) (s : thread_state) : Z * thread_state :=
  if th_running s then (0, s)
  else if created then (0, mkThread true false) else (-1, mkThread false false).

Inductive stop_result := NotRunning | Joined | Detached.

(** Fifty looks at [exited], 100 ms apart; [exited_at n] is what look [n] finds. *)
Fixpoint wait_for_exit (n : nat) (k : nat) (exited_at : nat → bool) : stop_result :=
  match n with
  | O => Detached
  | S n => if exited_at k then Joined else wait_for_exit n (S k) exited_at
  end.

Definition stop_storage_manager_thread (exited_at : nat → bool) (s : thread_state) : stop_result * thread_state :=
  if negb (th_running s) && th_exited s then (NotRunning, s)
  else (wait_for_exit 50 0 exited_at, mkThread false (existsb exited_at (seq 0 50))).

(** ** Reasoning about runs *)

(** [wlp]: if the run ends, then in [Q].  [wp]: it ends, and in [Q]. *)
Definition wlp {F A} (m : M F A) (Q : A → world F → Prop) (w : world F) : Prop := ∀ a w', m w = Some (a, w') → Q a w'.
Definition wp {F A} (m : M F A) (Q : A → world F → Prop) (w : world F) : Prop := ∃ a w', m w = Some (a, w') ∧ Q a w'.

Lemma wlp_ret {F A} (a : A) (Q : A → world F → Prop) w : Q a w → wlp (mret a) Q w.
Proof. by intros HQ ? ? [= <- <-]. Qed.

Lemma wlp_bind {F A B} (m : M F A) (k : A → M F B) Q w :
  wlp m (λ a w', wlp (k a) Q w') w → wlp (m ≫= k) Q w.
Proof.
  intros Hm b w'' Hb. unfold mbind, M_bind in Hb. destruct (m w) as [[a w']|] eqn:E; [|done].
  exact (Hm a w' E b w'' Hb).
Qed.

Lemma wp_ret {F A} (a : A) (Q : A → world F → Prop) w : Q a w → wp (mret a) Q w.
Proof. intros HQ. by exists a, w. Qed.

Lemma wp_bind {F A B} (m : M F A) (k : A → M F B) Q w :
  wp m (λ a w', wp (k a) Q w') w → wp (m ≫= k) Q w.
Proof.
  intros (a & w' & Em & b & w'' & Ek & HQ). exists b, w''. split; [|done].
  unfold mbind, M_bind. by rewrite Em.
Qed.

Lemma wp_mono {F A} (m : M F A) (Q Q' : A → world F → Prop) w : wp m Q w → (∀ a w', Q a w' → Q' a w') → wp m Q' w.
Proof. intros (a & w' & Em & HQ) HQQ. exists a, w'. auto. Qed.

(** ** What a cleanup may delete *)

Section safety.
Context {F : Type} `{FileSystem F} `{SqliteLaws} `{Environment}.
(** The rows that may be deleted, the table and the log at the start. *)
Context (allowed : row → bool) (t0 : table) (l0 : list event).
Hypothesis Hwf : well_formed t0.

(** An event is about a row of the table that may be deleted. *)
Definition justified (e : event) : Prop :=
  match e with
  | EvUnlink p i => ∃ x, x ∈ rows t0 ∧ allowed x = true ∧ i = c_id x ∧ p = strcpy_trunc MAX_PATH_LENGTH (c_file_path x)
  | EvDeleteRow i => ∃ x, x ∈ rows t0 ∧ allowed x = true ∧ i = c_id x
  | _ => True
  end.

Definition spared (t : table) : Prop :=
  (∀ x, x ∈ rows t → x ∈ rows t0) ∧ (∀ x, x ∈ rows t0 → allowed x = false → x ∈ rows t).

Definition sparing (w : world F) : Prop :=
  ∃ t evs, db w = Some t ∧ spared t ∧ log w = l0 ++ evs ∧ Forall justified evs.

(** A recording read from the table. *)
Definition legitimate (r : recording_metadata_t) : Prop :=
  ∃ x, x ∈ rows t0 ∧ allowed x = true ∧ id r = c_id x ∧ file_path r = strcpy_trunc MAX_PATH_LENGTH (c_file_path x).

(** A run that spares what it must, with a result in [Q]. *)
Definition keeps {A} (m : M F A) (Q : A → Prop) : Prop :=
  ∀ w, sparing w → wlp m (λ a w', sparing w' ∧ Q a) w.

Lemma keeps_ret {A} (a : A) (Q : A → Prop) : Q a → keeps (mret a) Q.
Proof. intros HQ w Hw. by apply wlp_ret. Qed.

Lemma keeps_bind {A B} (m : M F A) (k : A → M F B) P Q :
  keeps m P → (∀ a, P a → keeps (k a) Q) → keeps (m ≫= k) Q.
Proof.
  intros Hm Hk w Hw. apply wlp_bind. intros a w' Ea. destruct (Hm w Hw a w' Ea) as [Hw' Ha]. by apply Hk.
Qed.

Lemma keeps_seq {A B} (m : M F A) (k : A → M F B) Q :
  keeps m (λ _, True) → (∀ a, keeps (k a) Q) → keeps (m ≫= k) Q.
Proof. intros Hm Hk. eapply keeps_bind; [exact Hm|]. auto. Qed.

Lemma keeps_weaken {A} (m : M F A) (P Q : A → Prop) : keeps m P → (∀ a, P a → Q a) → keeps m Q.
Proof. intros Hm HPQ w Hw a w' E. destruct (Hm w Hw a w' E). auto. Qed.

Lemma keeps_if {A} (b : bool) (m1 m2 : M F A) Q : keeps m1 Q → keeps m2 Q → keeps (if b then m1 else m2) Q.
Proof. by destruct b. Qed.

Lemma keeps_for_each {A S} (body : A → S → M F S) (P : A → Prop) l s :
  (∀ a s, P a → keeps (body a s) (λ _, True)) → Forall P l → keeps (for_each body l s) (λ _, True).
Proof.
  intros Hb Hl. revert s. induction Hl as [|a l Ha Hl IH]; intros s; cbn; [by apply keeps_ret|].
  apply keeps_seq; [by apply Hb|]. intros s'. apply IH.
Qed.

(** The primitives that change neither the table nor, but for justified
    events, the log. *)
Lemma keeps_tick : keeps tick (λ _, True).
Proof. intros w (t & evs & Hdb & Hl) n w' [= <- <-]. split; [|done]. by exists t, evs. Qed.

Lemma keeps_say e : justified e → keeps (say e) (λ _, True).
Proof.
  intros He w (t & evs & Hdb & Hs & Hl & Hj) [] w' [= <-]. split; [|done].
  exists t, (evs ++ [e]). repeat split; try done; cbn; [by apply Hs..| |].
  - by rewrite Hl, app_assoc.
  - apply Forall_app. auto.
Qed.

Lemma keeps_undefined {A} (Q : A → Prop) : keeps undefined Q.
Proof. by intros w Hw a w'. Qed.

Lemma keeps_lift {A} (o : option A) : keeps (lift o) (λ a, o = Some a).
Proof. intros w Hw a w' E. unfold lift in E. destruct o as [b|]; [|done]. injection E as <- <-. done. Qed.

Lemma keeps_get_db : keeps get_db (λ o, ∃ t, o = Some t ∧ spared t).
Proof. intros w Hw o w' [= <- <-]. split; [done|]. destruct Hw as (t & evs & Hdb & Hs & _). by exists t. Qed.

Lemma keeps_put_db t : spared t → keeps (put_db t) (λ _, True).
Proof. intros Ht w (t' & evs & _ & _ & Hl) [] w' [= <-]. split; [|done]. by exists t, evs. Qed.

Lemma keeps_get_disk : keeps get_disk (λ _, True).
Proof. by intros w Hw d w' [= <- <-]. Qed.

Lemma keeps_put_disk d : keeps (put_disk d) (λ _, True).
Proof. intros w (t & evs & Hdb & Hl) [] w' [= <-]. split; [|done]. by exists t, evs. Qed.

Lemma keeps_get_health : keeps get_health (λ _, True).
Proof. by intros w Hw h w' [= <- <-]. Qed.

Lemma keeps_put_health h : keeps (put_health h) (λ _, True).
Proof. intros w (t & evs & Hdb & Hl) [] w' [= <-]. split; [|done]. by exists t, evs. Qed.

Lemma keeps_reading {A} (f : nat → A) : keeps (n ← tick; mret (f n)) (λ _, True).
Proof. apply keeps_seq; [apply keeps_tick|]. intros n. by apply keeps_ret. Qed.

Lemma keeps_sql : keeps sql (λ _, True).
Proof. apply keeps_reading. Qed.

Lemma keeps_time : keeps time (λ _, True).
Proof. apply keeps_reading. Qed.

Lemma keeps_running : keeps running (λ _, True).
Proof. apply keeps_reading. Qed.

Lemma keeps_calloc : keeps calloc (λ _, True).
Proof. apply keeps_reading. Qed.

(** ** The deletion of one recording *)

Lemma keeps_delete_metadata r : legitimate r → keeps (delete_metadata (id r)) (λ _, True).
Proof.
  intros (y & Hy & Hal & Hid & Hpath). unfold delete_metadata.
  eapply keeps_bind; [apply keeps_get_db|]. intros o (t & -> & Hin & Hsp).
  apply keeps_seq; [apply keeps_sql|]. intros r1. apply keeps_seq; [apply keeps_sql|]. intros r2.
  destruct (delete_recording_metadata r1 r2 (id r) t) as [ok t'] eqn:Ed.
  apply keeps_seq.
  - apply keeps_put_db. unfold delete_recording_metadata in Ed.
    destruct r1; [by injection Ed as <- <-..|]. destruct r2; [by injection Ed as <- <-..|].
    injection Ed as <- <-. split; cbn; intros x Hx.
    + apply list_elem_of_filter in Hx as [_ Hx]. auto.
    + intros Hno. apply list_elem_of_filter. split; [|auto]. rewrite Hid, (well_formed_s64 _ _ Hwf Hy). intros E.
      assert (x = y) as ->; [by eapply well_formed_inj|congruence].
  - intros _. apply keeps_seq; [|intros _; by apply keeps_ret].
    destruct ok; [|by apply keeps_ret]. apply keeps_say. by exists y.
Qed.

Lemma keeps_remove_file r : legitimate r → keeps (remove_file r) (λ _, True).
Proof.
  intros (y & Hy & Hal & Hid & Hpath). unfold remove_file. destruct (decide _); [by apply keeps_ret|].
  apply keeps_seq; [apply keeps_get_disk|]. intros d. destruct (unlink d (file_path r)) as [d' u].
  apply keeps_seq; [apply keeps_put_disk|]. intros _. destruct u; [|by apply keeps_ret..].
  apply keeps_seq; [|intros _; by apply keeps_ret]. apply keeps_say. by exists y.
Qed.

Lemma keeps_delete r : legitimate r → keeps (delete_recording_file_and_metadata r) (λ _, True).
Proof.
  intros Hr. unfold delete_recording_file_and_metadata.
  apply keeps_seq; [by apply keeps_remove_file|]. intros f. apply keeps_if; [by apply keeps_ret|].
  apply keeps_seq; [by apply keeps_say|]. intros _. apply keeps_seq; [by apply keeps_delete_metadata|]. intros ok.
  apply keeps_if; [by apply keeps_ret|]. apply keeps_seq; [by apply keeps_say|]. intros _. by apply keeps_ret.
Qed.

(** What a query reads is legitimate when its condition allows only what may be
    deleted. *)
Lemma legitimate_select r where_ key limit t (f : row → recording_metadata_t) :
  spared t → (∀ x, where_ x = true → allowed x = true) →
  (∀ x, id (f x) = u64 (c_id x) ∧ file_path (f x) = strcpy_trunc MAX_PATH_LENGTH (c_file_path x)) →
  Forall legitimate (f <$> select r where_ key limit t).
Proof.
  intros [Hin _] Hw Hf. apply Forall_fmap, Forall_forall. intros x [Hx Hc]%select_in. destruct (Hf x) as [Hid Hpath].
  exists x. split; [auto|]. split; [auto|]. split; [|done]. rewrite Hid. apply (well_formed_u64 t0); auto.
Qed.

(** One step of a proof that an operation spares what it must: the primitives are
    hints, a loop over a batch needs the batch to be legitimate. *)
#[local] Hint Resolve keeps_ret keeps_tick keeps_say keeps_undefined keeps_get_disk keeps_put_disk keeps_get_health
  keeps_put_health keeps_sql keeps_time keeps_running keeps_calloc keeps_delete keeps_delete_metadata : keeps.
#[local] Hint Extern 1 (justified _) => exact I : keeps.

Ltac keep :=
  lazymatch goal with
  | |- ∀ _, _ => intros ?
  | |- keeps (match ?x with _ => _ end) _ => destruct x
  | |- keeps (_ ≫= _) _ => apply keeps_seq
  | |- keeps (let _ := _ in _) _ => cbv zeta
  | |- keeps _ _ => solve [eauto with keeps]
  end.

Lemma keeps_get_db_any : keeps get_db (λ _, True).
Proof. by eapply keeps_weaken; [apply keeps_get_db|]. Qed.

Lemma keeps_lift_any {A} (o : option A) : keeps (lift o) (λ _, True).
Proof. by eapply keeps_weaken; [apply keeps_lift|]. Qed.

#[local] Hint Resolve keeps_get_db_any keeps_lift_any : keeps.

Lemma keeps_get_all_stream_names n : keeps (get_all_stream_names n) (λ _, True).
Proof. unfold get_all_stream_names. repeat keep. Qed.

Lemma keeps_find_stream name : keeps (find_stream name) (λ _, True).
Proof. unfold find_stream. repeat keep. Qed.

Lemma keeps_get_stream_retention_config name : keeps (get_stream_retention_config name) (λ _, True).
Proof. unfold get_stream_retention_config. apply keeps_seq; [apply keeps_find_stream|]. repeat keep. Qed.

Lemma keeps_fallback_config : keeps fallback_config (λ _, True).
Proof. unfold fallback_config. repeat keep. Qed.

Lemma keeps_heartbeat : keeps heartbeat_check_disk_pressure (λ _, True).
Proof. unfold heartbeat_check_disk_pressure. repeat keep. Qed.

Lemma keeps_record_cleanup d f : keeps (record_cleanup d f) (λ _, True).
Proof. unfold record_cleanup. repeat keep. Qed.

Lemma keeps_get_disk_pressure_level : keeps get_disk_pressure_level (λ _, True).
Proof. unfold get_disk_pressure_level. repeat keep. Qed.

Lemma keeps_delete_counted r acc : legitimate r → keeps (delete_counted r acc) (λ _, True).
Proof. intros. unfold delete_counted. repeat keep. Qed.

Lemma keeps_delete_for_quota to_free r s : legitimate r → keeps (delete_for_quota to_free r s) (λ _, True).
Proof. intros. unfold delete_for_quota. repeat keep. Qed.

#[local] Hint Resolve keeps_get_all_stream_names keeps_find_stream keeps_get_stream_retention_config keeps_fallback_config
  keeps_heartbeat keeps_record_cleanup keeps_get_disk_pressure_level keeps_delete_counted keeps_delete_for_quota : keeps.

Lemma keeps_emergency_step initial aggressive r s : legitimate r → keeps (emergency_step initial aggressive r s) (λ _, True).
Proof. intros. unfold emergency_step. repeat keep. Qed.

(** ** The queries *)

Lemma keeps_query_pressure n :
  (∀ x, pressure_candidate x = true → allowed x = true) → keeps (query_pressure n) (Forall legitimate).
Proof.
  intros Hall. unfold query_pressure. apply keeps_seq; [auto with keeps|]. intros r.
  eapply keeps_bind; [apply keeps_get_db|]. intros o (t & -> & Hsp). apply keeps_ret.
  unfold get_recordings_for_pressure_cleanup. destruct r; try done; (destruct (_ <=? _); [done|]);
    by apply legitimate_select.
Qed.

Lemma keeps_emergency_cleanup aggressive :
  (∀ x, pressure_candidate x = true → allowed x = true) → keeps (emergency_cleanup aggressive) (λ _, True).
Proof.
  intros Hall. unfold emergency_cleanup. apply keeps_seq; [auto with keeps|]. intros initial.
  apply keeps_seq; [auto with keeps|]. intros allocated. keep; [by apply keeps_ret|].
  eapply keeps_bind; [by apply keeps_query_pressure|]. intros batch Hb. keep; [by apply keeps_ret|].
  apply keeps_seq; [|repeat keep]. eapply keeps_for_each; [|exact Hb]. intros r s. apply keeps_emergency_step.
Qed.

(** The other operations ask for recordings that are complete and not protected. *)
Hypothesis Hallowed : ∀ x, deletable x = true → allowed x = true.

Lemma keeps_query_retention name days ddays : keeps (query_retention name days ddays) (Forall legitimate).
Proof.
  unfold query_retention. do 3 (apply keeps_seq; [auto with keeps|]; intros ?).
  eapply keeps_bind; [apply keeps_get_db|]. intros o (t & -> & Hsp). apply keeps_ret.
  unfold get_recordings_for_retention. destruct a0; try done; (destruct (_ <=? _); [done|]); apply legitimate_select; try done;
    intros x Hx; unfold past_retention in Hx; unbool; auto.
Qed.

Lemma keeps_query_quota name : keeps (query_quota name) (Forall legitimate).
Proof.
  unfold query_quota. apply keeps_seq; [auto with keeps|]. intros r.
  eapply keeps_bind; [apply keeps_get_db|]. intros o (t & -> & Hsp). apply keeps_ret.
  unfold get_recordings_for_quota_enforcement. destruct r; try done; (destruct (_ <=? _); [done|]); apply legitimate_select; try done;
    intros x Hx; unbool; auto.
Qed.

Lemma keeps_query_tier name base mults : keeps (query_tier name base mults) (Forall legitimate).
Proof.
  unfold query_tier. do 3 (apply keeps_seq; [auto with keeps|]; intros ?).
  eapply keeps_bind; [apply keeps_get_db|]. intros o (t & -> & Hsp).
  eapply keeps_bind; [apply keeps_lift|]. intros q Hq. apply keeps_ret.
  unfold get_recordings_for_tiered_retention in Hq. destruct mults as [[[m0 m1] m2] m3]. cbv [Z.leb Z.compare MAX_RECORDINGS_PER_STREAM] in Hq.
  destruct (tier_cutoff _ _ m0); [|done]. destruct (tier_cutoff _ _ m1); [|done].
  destruct (tier_cutoff _ _ m2); [|done]. destruct (tier_cutoff _ _ m3); [|done]. cbn [mbind option_bind] in Hq.
  destruct a0; apply (inj Some) in Hq; subst q; try done; apply legitimate_select; try done;
    intros x Hx; unfold past_tier in Hx; unbool; auto.
Qed.

Lemma keeps_query_orphans : keeps query_orphans (λ q, Forall legitimate q.1).
Proof.
  unfold query_orphans. do 3 (apply keeps_seq; [auto with keeps|]; intros ?).
  eapply keeps_bind; [apply keeps_get_db|]. intros o (t & -> & Hsp).
  destruct (get_orphaned_db_entries _ _ _ _ _) as [orphaned total] eqn:Eq. apply keeps_ret. cbn.
  assert (Hcand : ∀ r, Forall legitimate (fetch_plain <$> select r deletable (λ x, [c_start_time x]) MAX_ORPHANED_BATCH t)).
  { intros r. by apply legitimate_select. }
  unfold get_orphaned_db_entries in Eq. change (MAX_ORPHANED_BATCH <=? 0) with false in Eq.
  repeat (case_match; simplify_eq; try done); cbn [default from_option];
    apply Forall_forall; intros x [_ Hx]%list_elem_of_filter; (eapply Forall_forall; [apply Hcand|exact Hx]).
Qed.

(** ** The operations *)

#[local] Hint Resolve keeps_emergency_cleanup : keeps.

Lemma keeps_batch {S} (query : M F (list recording_metadata_t)) body (s : S) (k : list recording_metadata_t → S → M F S) :
  keeps query (Forall legitimate) → (∀ r s, legitimate r → keeps (body r s) (λ _, True)) →
  (∀ batch s, keeps (k batch s) (λ _, True)) →
  keeps (batch ← query; s ← for_each body batch s; k batch s) (λ _, True).
Proof.
  intros Hq Hb Hk. eapply keeps_bind; [exact Hq|]. intros batch Hbatch.
  apply keeps_seq; [by eapply keeps_for_each|]. intros s'. apply Hk.
Qed.

Lemma keeps_retention_loop fuel start name days ddays acc : keeps (retention_loop fuel start name days ddays acc) (λ _, True).
Proof.
  revert acc. induction fuel as [|fuel IH]; intros acc; cbn [retention_loop]; [apply keeps_undefined|].
  apply keeps_seq; [auto with keeps|]. intros now. keep; [by apply keeps_ret|].
  apply keeps_batch; [apply keeps_query_retention|auto with keeps|]. intros batch s. keep; [apply IH|by apply keeps_ret].
Qed.

Lemma keeps_quota_loop fuel start name to_free s : keeps (quota_loop fuel start name to_free s) (λ _, True).
Proof.
  revert s. induction fuel as [|fuel IH]; intros s; cbn [quota_loop]; [apply keeps_undefined|].
  apply keeps_seq; [auto with keeps|]. intros now. keep; [by apply keeps_ret|].
  apply keeps_batch; [apply keeps_query_quota|auto with keeps|]. intros batch s'. keep; [apply IH|by apply keeps_ret].
Qed.

#[local] Hint Resolve keeps_retention_loop keeps_quota_loop : keeps.

Lemma keeps_enforce_quota fuel start name mb acc : keeps (enforce_quota fuel start name mb acc) (λ _, True).
Proof. unfold enforce_quota, stream_usage. repeat keep. Qed.

#[local] Hint Resolve keeps_enforce_quota : keeps.

Lemma keeps_apply_to_streams fuel start names acc : keeps (apply_to_streams fuel start names acc) (λ _, True).
Proof.
  revert acc. induction names as [|name names IH]; intros acc; cbn [apply_to_streams]; [by apply keeps_ret|].
  unfold apply_stream_policy. repeat keep.
Qed.

Lemma keeps_clean_up_orphans : keeps clean_up_orphans (λ _, True).
Proof.
  unfold clean_up_orphans. apply keeps_seq; [unfold storage_accessible; repeat keep|]. intros accessible.
  keep; [by apply keeps_ret|]. apply keeps_seq; [auto with keeps|]. intros allocated. keep; [by apply keeps_ret|].
  eapply keeps_bind; [apply keeps_query_orphans|]. intros q Hq. keep; [|by apply keeps_ret].
  eapply keeps_for_each; [|exact Hq]. intros r s Hr. repeat keep.
Qed.

Lemma keeps_for_each_any {A S} (body : A → S → M F S) l s :
  (∀ a s, keeps (body a s) (λ _, True)) → keeps (for_each body l s) (λ _, True).
Proof. intros Hb. apply (keeps_for_each body (λ _, True)); [auto|]. by apply Forall_true. Qed.

Lemma keeps_legacy : keeps apply_legacy_retention_policy (λ _, True).
Proof.
  unfold apply_legacy_retention_policy. repeat keep. apply keeps_for_each_any. intros entry n.
  unfold legacy_directory. repeat keep. apply keeps_for_each_any. intros name n'.
  unfold legacy_file. repeat keep.
Qed.

#[local] Hint Resolve keeps_apply_to_streams keeps_clean_up_orphans keeps_legacy : keeps.

Lemma keeps_apply_retention_policy fuel : keeps (apply_retention_policy fuel) (λ _, True).
Proof. unfold apply_retention_policy. repeat keep. Qed.

Lemma keeps_tier_batch batch acc : Forall legitimate batch → keeps (tier_batch batch acc) (λ _, True).
Proof.
  intros Hb. revert acc. induction Hb as [|r batch Hr Hb IH]; intros acc; cbn [tier_batch]; repeat keep.
Qed.

Lemma keeps_tier_loop fuel name base mults acc : keeps (tier_loop fuel name base mults acc) (λ _, True).
Proof.
  revert acc. induction fuel as [|fuel IH]; intros acc; cbn [tier_loop]; [apply keeps_undefined|].
  apply keeps_seq; [auto with keeps|]. intros run. keep; [by apply keeps_ret|].
  eapply keeps_bind; [apply keeps_query_tier|]. intros batch Hb.
  apply keeps_seq; [by apply keeps_tier_batch|]. intros acc'. keep; [apply IH|by apply keeps_ret].
Qed.

#[local] Hint Resolve keeps_apply_retention_policy keeps_tier_loop : keeps.

Lemma keeps_tier_streams fuel names acc : keeps (tier_streams fuel names acc) (λ _, True).
Proof. revert acc. induction names as [|name names IH]; intros acc; cbn [tier_streams]; repeat keep. Qed.

#[local] Hint Resolve keeps_tier_streams : keeps.

Lemma keeps_emergency aggressive : keeps (emergency_cleanup aggressive) (λ _, True).
Proof.
  apply keeps_emergency_cleanup. intros x Hx. apply Hallowed. unfold pressure_candidate in Hx. unfold deletable. unbool.
  by rewrite andb_true_iff.
Qed.

#[local] Hint Resolve keeps_emergency : keeps.

Lemma keeps_standard_cleanup_cycle fuel : keeps (standard_cleanup_cycle fuel) (λ _, True).
Proof. unfold standard_cleanup_cycle, tiered_cleanup. repeat keep. Qed.

#[local] Hint Resolve keeps_standard_cleanup_cycle : keeps.

Lemma keeps_controller_turn fuel c : keeps (controller_turn fuel c) (λ _, True).
Proof. unfold controller_turn, scheduled_cycles, deep_maintenance_cycle. repeat keep. Qed.

#[local] Hint Resolve keeps_controller_turn : keeps.

Lemma keeps_controller_run fuel waits c : keeps (controller_run fuel waits c) (λ _, True).
Proof. revert c. induction waits as [|requests waits IH]; intros c; cbn [controller_run]; repeat keep. Qed.
End safety.

(** ** Cleanups that meet no failure *)

Section success.
Context {F : Type} {FS : FileSystem F} {SQ : Sqlite} {SL : SqliteLaws} {EN : Environment}.
(** From reading [n0] on, statements complete, and no file resists. *)
Context (n0 : nat) (T : Z).
Hypothesis Hsql : ∀ n, (n0 ≤ n)%nat → sql_at n = Completes.
Hypothesis Hunlink : ∀ d p, (unlink d p).2 ≠ Refused.

Definition has (t : table) (w : world F) : Prop := db w = Some t ∧ (n0 ≤ readings w)%nat.

Lemma wp_sql t Q w : has t w → (∀ w', has t w' → Q Completes w') → wp sql Q w.
Proof.
  intros [Hdb Hn] HQ. eexists _, _. split; [reflexivity|]. cbn. rewrite (Hsql _ Hn). apply HQ. split; cbn; [done|lia].
Qed.

Lemma wp_get_db t Q w : has t w → Q (Some t) w → wp get_db Q w.
Proof. intros [Hdb _] HQ. eexists _, _. split; [reflexivity|]. by rewrite Hdb. Qed.

Lemma wp_say t e Q w : has t w → (∀ w', has t w' → Q () w') → wp (say e) Q w.
Proof. intros Ht HQ. eexists _, _. split; [reflexivity|]. by apply HQ. Qed.

Lemma wp_put_db t t' Q w : has t w → (∀ w', has t' w' → Q () w') → wp (put_db t') Q w.
Proof. intros [_ Hn] HQ. eexists _, _. split; [reflexivity|]. by apply HQ. Qed.

Lemma wp_delete_metadata t i Q w :
  has t w → (∀ t' w', has t' w' → without [s64 i] t t' → Q true w') → wp (delete_metadata i) Q w.
Proof.
  intros Ht HQ. unfold delete_metadata. apply wp_bind, (wp_get_db t); [done|].
  apply wp_bind, (wp_sql t); [done|]. intros w1 H1. apply wp_bind, (wp_sql t); [done|]. intros w2 H2.
  cbv beta iota zeta delta [delete_recording_metadata].
  apply wp_bind. eapply wp_put_db; [done|]. intros w3 H3. apply wp_bind. eapply wp_say; [exact H3|]. intros w4 H4.
  apply wp_ret. eapply HQ; [exact H4|]. split; [|done]. cbn. apply list_filter_iff. intros x.
  by rewrite list_elem_of_singleton.
Qed.

Lemma wp_delete t r Q w :
  has t w →
  (∀ d t' w', has t' w' → without [s64 (id r)] t t' → d = 0 ∨ d = size_bytes r → Q (true, d) w') →
  wp (delete_recording_file_and_metadata r) Q w.
Proof.
  intros Ht HQ. unfold delete_recording_file_and_metadata. apply wp_bind.
  assert (Hfile : wp (remove_file r) (λ f w', has t w' ∧ f.1 = true) w).
  { unfold remove_file. destruct (decide _); [by apply wp_ret|].
    apply wp_bind. eexists _, _. split; [reflexivity|]. specialize (Hunlink (disk w) (file_path r)).
    destruct (unlink (disk w) (file_path r)) as [d' u]. apply wp_bind. eexists _, _. split; [reflexivity|].
    destruct u; [|by apply wp_ret|done]. apply wp_bind. eapply wp_say; [exact Ht|]. intros w' H'. by apply wp_ret. }
  eapply wp_mono; [exact Hfile|]. intros [ok there] w1 [H1 E]. cbn in E. subst ok. cbn [negb fst snd].
  apply wp_bind, (wp_say t); [done|]. intros w2 H2. apply wp_bind, (wp_delete_metadata t); [done|].
  intros t' w3 H3 Hw. cbn [negb]. apply wp_bind, (wp_say t'); [done|]. intros w4 H4. apply wp_ret.
  eapply HQ; [exact H4|exact Hw|]. destruct there; auto.
Qed.

(** A batch of rows of the table, as a query reads it. *)
Definition read_as (f : row → recording_metadata_t) : Prop :=
  ∀ x, id (f x) = u64 (c_id x) ∧ size_bytes (f x) = u64 (default 0 (c_size_bytes x)).

Lemma read_id f t x : read_as f → well_formed t → x ∈ rows t → s64 (id (f x)) = c_id x.
Proof.
  intros Hf Hwf Hx. destruct (Hf x) as [-> _]. rewrite (well_formed_u64 t) by done. by apply (well_formed_s64 t).
Qed.

Lemma wp_delete_all f sel t acc Q w :
  Forall (λ x, s64 (id (f x)) = c_id x) sel → has t w →
  (∀ freed t' w', has t' w' → without (c_id <$> sel) t t' → Q (acc.1 + Z.of_nat (length sel), freed) w') →
  wp (for_each delete_counted (f <$> sel) acc) Q w.
Proof.
  intros Hids. revert t acc w. induction Hids as [|x sel Hx _ IH]; intros t acc w Ht HQ; cbn [for_each fmap list_fmap].
  - apply wp_ret. specialize (HQ acc.2 t w Ht (without_nil t)). rewrite Z.add_0_r in HQ. by destruct acc.
  - apply wp_bind. unfold delete_counted at 1. apply wp_bind, (wp_delete t); [done|]. intros d t1 w1 H1 Hw1 _.
    rewrite Hx in Hw1. apply wp_ret. cbn [fst snd]. apply (IH t1); [done|]. intros freed t2 w2 H2 Hw2. cbn [fst].
    replace (acc.1 + 1 + Z.of_nat (length sel)) with (acc.1 + Z.of_nat (length (x :: sel))) by (cbn [length]; lia).
    apply (HQ _ t2); [done|]. by apply (without_app [c_id x] _ _ t1).
Qed.

Hypothesis Htime : ∀ n, T ≤ time_at n < T + RETENTION_TIME_BUDGET_SEC.

Lemma wp_time t Q w :
  has t w → (∀ now w', T ≤ now < T + RETENTION_TIME_BUDGET_SEC → has t w' → Q now w') → wp time Q w.
Proof.
  intros [Hdb Hn] HQ. eexists _, _. split; [reflexivity|]. cbn. apply HQ; [apply Htime|]. split; cbn; [done|lia].
Qed.

(** What the loop over the batches needs of its query: the batch is of rows of
    the table, and one that is not full has every row that is past. *)
Definition serves (query : M F (list recording_metadata_t)) (past : row → bool) : Prop :=
  ∀ t w, has t w →
  wp query (λ batch w', has t w' ∧ ∃ f sel, batch = f <$> sel ∧ read_as f ∧ sel ⊆+ rows t ∧
    Z.of_nat (length sel) ≤ MAX_RECORDINGS_PER_STREAM ∧
    (Z.of_nat (length sel) ≠ MAX_RECORDINGS_PER_STREAM → ∀ x, x ∈ rows t → past x = true → x ∈ sel)) w.

(** What it needs of the deletion of the batch. *)
Definition clears (op : list recording_metadata_t → totals → M F totals) : Prop :=
  ∀ f sel t acc Q w,
  Forall (λ x, s64 (id (f x)) = c_id x) sel → has t w →
  (∀ freed t' w', has t' w' → without (c_id <$> sel) t t' → Q (acc.1 + Z.of_nat (length sel), freed) w') →
  wp (op (f <$> sel) acc) Q w.

(** The table after a cleanup: what is gone was counted, and nothing past is left. *)
Definition cleared (past : row → bool) (t : table) (acc acc' : totals) (w' : world F) : Prop :=
  ∃ t' gone, has t' w' ∧ well_formed t' ∧ rows t ≡ₚ gone ++ rows t' ∧ acc'.1 = acc.1 + Z.of_nat (length gone) ∧
    ∀ x, x ∈ rows t' → past x = false.

Lemma wp_batch query op past (k : list recording_metadata_t → totals → M F totals) t acc Q w :
  serves query past → clears op → well_formed t → has t w →
  (∀ batch acc' t' w' sel, has t' w' → well_formed t' → rows t ≡ₚ sel ++ rows t' → length batch = length sel →
     Z.of_nat (length sel) ≤ MAX_RECORDINGS_PER_STREAM →
     acc'.1 = acc.1 + Z.of_nat (length sel) →
     (Z.of_nat (length sel) ≠ MAX_RECORDINGS_PER_STREAM → ∀ x, x ∈ rows t' → past x = false) →
     wp (k batch acc') Q w') →
  wp (batch ← query; acc' ← op batch acc; k batch acc') Q w.
Proof.
  intros Hq Hop Hwf Ht Hk. apply wp_bind. eapply wp_mono; [by apply Hq|].
  intros batch w1 (H1 & f & sel & -> & Hf & Hsub & Hle & Hall). apply wp_bind.
  assert (Hids : Forall (λ x, s64 (id (f x)) = c_id x) sel).
  { apply Forall_forall. intros x Hx. apply (read_id f t); [done|done|]. eapply elem_of_submseteq; [exact Hx|done]. }
  apply (Hop f sel t); [done|done|]. intros freed t' w' H' Hw.
  assert (Hwf' : well_formed t') by (by eapply without_well_formed).
  apply (Hk _ (acc.1 + Z.of_nat (length sel), freed) t' w' sel);
    [done|done|by apply without_perm|apply length_fmap|done|done|].
  intros Hpart x Hx. destruct (past x) eqn:Ep; [|done]. exfalso. destruct Hw as [Er _]. rewrite Er in Hx.
  apply list_elem_of_filter in Hx as [Hn Hx]. by apply Hn, list_elem_of_fmap_2, Hall.
Qed.

(** A loop of batches ends: each full one makes the table smaller. *)
Lemma cleared_step past t t' sel acc acc' acc'' w' :
  rows t ≡ₚ sel ++ rows t' → acc'.1 = acc.1 + Z.of_nat (length sel) →
  cleared past t' acc' acc'' w' → cleared past t acc acc'' w'.
Proof.
  intros Hp Ea (t2 & gone & H2 & Hwf2 & Hp2 & Ea2 & Hnone). exists t2, (sel ++ gone). split; [done|]. split; [done|].
  split; [by rewrite Hp, Hp2, app_assoc|]. split; [|done]. rewrite Ea2, Ea, length_app. lia.
Qed.

Lemma cleared_done past t t' sel acc acc' w' :
  has t' w' → well_formed t' → rows t ≡ₚ sel ++ rows t' → acc'.1 = acc.1 + Z.of_nat (length sel) →
  (∀ x, x ∈ rows t' → past x = false) → cleared past t acc acc' w'.
Proof. intros. by exists t', sel. Qed.

Lemma wp_retention_loop fuel start name days ddays t acc w past :
  serves (query_retention name days ddays) past → well_formed t → has t w → T ≤ start →
  (length (rows t) < fuel)%nat →
  wp (retention_loop fuel start name days ddays acc) (cleared past t acc) w.
Proof.
  intros Hq. revert t acc w. induction fuel as [|fuel IH]; intros t acc w Hwf Ht Hs Hfuel; [lia|]. cbn [retention_loop].
  apply wp_bind, (wp_time t); [done|]. intros now w1 Hnow H1.
  destruct (_ >=? _) eqn:Eb; [unbool; lia|]. eapply wp_batch; [exact Hq|exact wp_delete_all|exact Hwf|exact H1|].
  intros batch acc' t' w' sel H' Hwf' Hp Hlen Hle Ea Hnone. rewrite Hlen.
  destruct (_ =? _) eqn:Efull; unbool.
  - eapply wp_mono; [apply (IH t'); try done|intros acc'' w''; by eapply cleared_step].
    apply Permutation_length in Hp. rewrite length_app in Hp. unfold MAX_RECORDINGS_PER_STREAM in Efull. lia.
  - apply wp_ret. eapply cleared_done; [done..|]. by apply Hnone.
Qed.

(** ** The queries serve *)

Lemma read_as_fetch_untiered : read_as fetch_untiered.
Proof. by split. Qed.

Lemma read_as_fetch : read_as fetch.
Proof. by split. Qed.

Lemma query_serves f past where_ key t w' :
  has t w' → read_as f → (∀ x, past x = true → where_ x = true) →
  has t w' ∧ ∃ g sel, f <$> select Completes where_ key MAX_RECORDINGS_PER_STREAM t = g <$> sel ∧ read_as g ∧
    sel ⊆+ rows t ∧ Z.of_nat (length sel) ≤ MAX_RECORDINGS_PER_STREAM ∧
    (Z.of_nat (length sel) ≠ MAX_RECORDINGS_PER_STREAM → ∀ x, x ∈ rows t → past x = true → x ∈ sel).
Proof.
  intros Ht Hf Hp. split; [done|]. exists f, (select Completes where_ key MAX_RECORDINGS_PER_STREAM t).
  assert (Hle : Z.of_nat (length (select Completes where_ key MAX_RECORDINGS_PER_STREAM t)) ≤ MAX_RECORDINGS_PER_STREAM)
    by by apply select_length.
  split; [done|]. split; [done|]. split; [apply select_submseteq|]. split; [done|].
  intros Hne x Hx Hpx. apply select_all; [lia|done|auto].
Qed.

Lemma past_retention_mono now sql_now name days ddays x :
  T ≤ now → T ≤ sql_now → past_retention T T name days ddays x = true → past_retention now sql_now name days ddays x = true.
Proof.
  intros Hnow Hsn. unfold past_retention, override_allows. rewrite !andb_true_iff, !orb_true_iff, !andb_true_iff.
  intros [[Hs Hc] Ho]. split; [split; [done|]|].
  - destruct Hc as [[[Ht Hd] Hc]|[[Ht Hd] Hc]]; [left|right]; rewrite Hd in Hc |- *; unbool; repeat split; try done; lia.
  - destruct (c_retention_override_days x); [unbool; lia|done].
Qed.

Lemma serves_retention name days ddays :
  serves (query_retention name days ddays) (past_retention T T name days ddays).
Proof.
  intros t w Ht. unfold query_retention. apply wp_bind, (wp_time t); [done|]. intros now w1 Hnow H1.
  apply wp_bind, (wp_sql t); [done|]. intros w2 H2. apply wp_bind, (wp_time t); [done|]. intros sql_now w3 Hsn H3.
  apply wp_bind, (wp_get_db t); [done|]. apply wp_ret. apply query_serves; [done|apply read_as_fetch_untiered|].
  intros x. apply past_retention_mono; lia.
Qed.

(** The ages of the four tiers. *)
Definition tier_ages (base : Z) (mults : spec_float * spec_float * spec_float * spec_float) : option (Z * Z * Z * Z) :=
  let '(m0, m1, m2, m3) := mults in
  d0 ← tier_age base m0; d1 ← tier_age base m1; d2 ← tier_age base m2; d3 ← tier_age base m3; Some (d0, d1, d2, d3).

Definition past_ages (now sql_now : Z) (name : cstr) (ages : Z * Z * Z * Z) : row → bool :=
  let '(d0, d1, d2, d3) := ages in past_tier sql_now (Some name) (now - d0) (now - d1) (now - d2) (now - d3).

Lemma past_ages_mono now sql_now name ages x :
  T ≤ now → T ≤ sql_now → past_ages T T name ages x = true → past_ages now sql_now name ages x = true.
Proof.
  intros Hnow Hsn. destruct ages as [[[d0 d1] d2] d3]. unfold past_ages, past_tier, override_allows.
  rewrite !andb_true_iff, !orb_true_iff, !andb_true_iff. intros [[[Hs Hd] Hc] Ho]. split_and!; try apply Hd; [done| |].
  - rewrite !Z.ltb_lt in *. destruct Hc as [[[[? ?]|[? ?]]|[? ?]]|[? ?]]; [do 3 left|do 2 left; right|left; right|right];
      split; try done; lia.
  - destruct (c_retention_override_days x); [rewrite Z.ltb_lt in *; lia|done].
Qed.

Lemma tiered_query now sql_now t name base mults ages max_count :
  tier_ages base mults = Some ages → 0 < max_count →
  get_recordings_for_tiered_retention Completes now sql_now (Some t) (Some name) base mults max_count =
  Some (Some (fetch <$> select Completes (past_ages now sql_now name ages)
                          (λ x, desc (c_retention_tier x) ++ [c_start_time x]) max_count t)).
Proof.
  intros Ha Hm. unfold get_recordings_for_tiered_retention, tier_cutoff. destruct (_ <=? _) eqn:E; [unbool; lia|].
  destruct mults as [[[m0 m1] m2] m3]. cbn in Ha.
  destruct (tier_age base m0); [|done]. destruct (tier_age base m1); [|done]. destruct (tier_age base m2); [|done].
  destruct (tier_age base m3); [|done]. by injection Ha as <-.
Qed.

Lemma serves_tier name base mults ages :
  tier_ages base mults = Some ages → serves (query_tier name base mults) (past_ages T T name ages).
Proof.
  intros Ha t w Ht. unfold query_tier. apply wp_bind, (wp_time t); [done|]. intros now w1 Hnow H1.
  apply wp_bind, (wp_sql t); [done|]. intros w2 H2. apply wp_bind, (wp_time t); [done|]. intros sql_now w3 Hsn H3.
  apply wp_bind, (wp_get_db t); [done|]. rewrite (tiered_query _ _ _ _ _ _ ages) by done.
  apply wp_bind. eexists _, _. split; [reflexivity|]. apply wp_ret. apply query_serves; [done|apply read_as_fetch|].
  intros x. apply past_ages_mono; lia.
Qed.

Lemma wp_running t Q w :
  (∀ n, running_at n = true) → has t w → (∀ w', has t w' → Q true w') → wp running Q w.
Proof.
  intros Hrun [Hdb Hn] HQ. eexists _, _. split; [reflexivity|]. cbn. rewrite Hrun. apply HQ. split; cbn; [done|lia].
Qed.

Lemma clears_tier_batch : (∀ n, running_at n = true) → clears tier_batch.
Proof.
  intros Hrun f sel t acc Q w Hids. revert t acc w. induction Hids as [|x sel Hx _ IH]; intros t acc w Ht HQ; cbn [tier_batch fmap list_fmap].
  - apply wp_ret. specialize (HQ acc.2 t w Ht (without_nil t)). rewrite Z.add_0_r in HQ. by destruct acc.
  - apply wp_bind, (wp_running t); [done|done|]. intros w0 H0. cbn [negb].
    apply wp_bind. unfold delete_counted at 1. apply wp_bind, (wp_delete t); [done|]. intros d t1 w1 H1 Hw1 _.
    rewrite Hx in Hw1. apply wp_ret. cbn [fst snd]. apply (IH t1); [done|]. intros freed t2 w2 H2 Hw2. cbn [fst].
    replace (acc.1 + 1 + Z.of_nat (length sel)) with (acc.1 + Z.of_nat (length (x :: sel))) by (cbn [length]; lia).
    apply (HQ _ t2); [done|]. by apply (without_app [c_id x] _ _ t1).
Qed.

Lemma wp_tier_loop fuel name base mults past t acc w :
  (∀ n, running_at n = true) → serves (query_tier name base mults) past → well_formed t → has t w →
  (length (rows t) < fuel)%nat →
  wp (tier_loop fuel name base mults acc) (cleared past t acc) w.
Proof.
  intros Hrun Hq. revert t acc w. induction fuel as [|fuel IH]; intros t acc w Hwf Ht Hfuel; [lia|]. cbn [tier_loop].
  apply wp_bind, (wp_running t); [done|done|]. intros w1 H1. cbn [negb].
  eapply wp_batch; [exact Hq|by apply clears_tier_batch|exact Hwf|exact H1|].
  intros batch acc' t' w' sel H' Hwf' Hp Hlen Hle Ea Hnone. rewrite Hlen.
  destruct (_ =? _) eqn:Efull; unbool.
  - eapply wp_mono; [apply (IH t'); try done|intros acc'' w''; by eapply cleared_step].
    apply Permutation_length in Hp. rewrite length_app in Hp. unfold MAX_RECORDINGS_PER_STREAM in Efull. lia.
  - apply wp_ret. eapply cleared_done; [done..|]. by apply Hnone.
Qed.

(** ** Quotas *)

Definition quota_candidate (name : cstr) (x : row) : bool := streq (c_stream_name x) name && deletable x.

Definition small (t : table) : Prop := sized t ∧ total_size (rows t) < 2 ^ 63.

Lemma quota_skip l to_free s (w : world F) : to_free ≤ s.1 → for_each (delete_for_quota to_free) l s w = Some (s, w).
Proof.
  intros Hs. assert (Hd : ∀ r, delete_for_quota to_free r s w = Some (s, w)).
  { intros r. unfold delete_for_quota. by rewrite (proj2 (Z.geb_le _ _) Hs). }
  induction l as [|r l IH]; [done|]. cbn [for_each]. unfold mbind, M_bind. by rewrite Hd.
Qed.

(** One batch: a first part of it goes. *)
Lemma wp_quota_batch f sel to_free t s Q w :
  read_as f → Forall (λ x, s64 (id (f x)) = c_id x) sel → (∀ x, x ∈ sel → 0 ≤ default 0 (c_size_bytes x)) →
  0 ≤ s.1 → s.1 + total_size sel < 2 ^ 64 → has t w →
  (∀ k s' t' w', (k ≤ length sel)%nat → has t' w' → without (c_id <$> take k sel) t t' →
     s.1 ≤ s'.1 ≤ s.1 + total_size (take k sel) → k = length sel ∨ to_free ≤ s'.1 → Q s' w') →
  wp (for_each (delete_for_quota to_free) (f <$> sel) s) Q w.
Proof.
  intros Hf Hids Hpos. revert t s w. induction Hids as [|x sel Hx _ IH]; intros t s w H0 Hsum Ht HQ; cbn [for_each fmap list_fmap].
  - apply wp_ret. apply (HQ 0%nat _ t); [done|done|apply without_nil|cbn; lia|by left].
  - apply wp_bind. unfold delete_for_quota at 1. destruct (s.1 >=? to_free) eqn:Efree; unbool.
    + apply wp_ret. assert (Hskip : for_each (delete_for_quota to_free) (f <$> sel) s w = Some (s, w)).
      { apply quota_skip. lia. }
      exists s, w. split; [exact Hskip|]. apply (HQ 0%nat s t); [lia|done|apply without_nil|cbn; lia|by right].
    + assert (Hsel : 0 ≤ total_size sel) by (apply total_size_nonneg; intros y Hy; apply Hpos; by right).
      assert (Hx0 : 0 ≤ default 0 (c_size_bytes x)) by (apply Hpos; left).
      assert (Ex : total_size (x :: sel) = default 0 (c_size_bytes x) + total_size sel) by done.
      apply wp_bind, (wp_delete t); [done|]. intros d t1 w1 H1 Hw1 Hd. rewrite Hx in Hw1. apply wp_ret. cbn [fst snd].
      assert (Hd' : 0 ≤ d ≤ default 0 (c_size_bytes x)).
      { destruct Hd as [-> | ->]; [lia|]. destruct (Hf x) as [_ ->]. rewrite u64_small by lia. lia. }
      assert (Hu : u64 (s.1 + d) = s.1 + d) by (apply u64_small; lia).
      apply (IH ltac:(intros y Hy; apply Hpos; by right) t1); [cbn; lia|cbn; lia|done|]. cbn [fst].
      intros k s' t2 w2 Hk H2 Hw2 Hs' Hstop. apply (HQ (S k) s' t2); [cbn; lia|done| | |].
      * cbn. by apply (without_app [c_id x] _ _ t1).
      * cbn [take]. change (total_size (x :: take k sel)) with (default 0 (c_size_bytes x) + total_size (take k sel)). lia.
      * destruct Hstop as [->|]; [by left|by right].
Qed.

(** What a quota cleanup leaves. *)
Definition quota_kept (name : cstr) (t : table) (freed : Z) (gone : list row) (t' : table) : Prop :=
  well_formed t' ∧ rows t ≡ₚ gone ++ rows t' ∧ (∀ x, x ∈ gone → quota_candidate name x = true) ∧
  freed ≤ total_size gone ∧
  (∀ x y, x ∈ gone → y ∈ rows t' → quota_candidate name y = true → key_le priority_key x y).

Lemma small_without t t' gone : small t → rows t ≡ₚ gone ++ rows t' →
  small t' ∧ 0 ≤ total_size gone ∧ total_size (rows t) = total_size gone + total_size (rows t').
Proof.
  intros [Hs Hb] Hp. assert (Hs' : sized t') by (intros x Hx; apply Hs; rewrite Hp; apply elem_of_app; by right).
  assert (Hg : 0 ≤ total_size gone) by (apply total_size_nonneg; intros x Hx; apply Hs; rewrite Hp; apply elem_of_app; by left).
  rewrite Hp, total_size_app in Hb. repeat split; [done|lia|done|by rewrite Hp, total_size_app].
Qed.

Definition quota_selection (name : cstr) (t : table) : list row :=
  select Completes (quota_candidate name) priority_key MAX_RECORDINGS_PER_STREAM t.

Lemma wp_query_quota name t Q w :
  has t w → (∀ w', has t w' → Q (fetch_untiered <$> quota_selection name t) w') → wp (query_quota name) Q w.
Proof.
  intros Ht HQ. unfold query_quota. apply wp_bind, (wp_sql t); [done|]. intros w2 H2.
  apply wp_bind, (wp_get_db t); [done|]. apply wp_ret. by apply HQ.
Qed.

(** The first part of a selection, deleted. *)
Lemma quota_kept_take name t t' k freed :
  well_formed t → without (c_id <$> take k (quota_selection name t)) t t' →
  freed ≤ total_size (take k (quota_selection name t)) →
  quota_kept name t freed (take k (quota_selection name t)) t'.
Proof.
  intros Hwf Hw Hf. set (sel := quota_selection name t) in *.
  assert (Hsub : take k sel ⊆+ rows t) by (etrans; [apply sublist_submseteq, sublist_take|apply select_submseteq]).
  assert (Hp : rows t ≡ₚ take k sel ++ rows t') by (by apply without_perm).
  split; [by eapply without_well_formed|]. split; [done|]. split; [|split; [done|]].
  - intros x Hx. apply (subseteq_take k) in Hx. unfold sel, quota_selection in Hx. by apply select_in in Hx as [_ Hx].
  - intros x y Hx Hy Hc. eapply select_first; [exact Hx| |done|].
    + rewrite Hp. apply elem_of_app. by right.
    + intros Hyk. destruct Hw as [Er _]. rewrite Er in Hy. apply list_elem_of_filter in Hy as [Hn _].
      by apply Hn, list_elem_of_fmap_2.
Qed.

Lemma quota_kept_trans name t t1 t2 f1 f2 g1 g2 :
  quota_kept name t f1 g1 t1 → quota_kept name t1 f2 g2 t2 → quota_kept name t (f1 + f2) (g1 ++ g2) t2.
Proof.
  intros (Hwf1 & Hp1 & Hc1 & Hf1 & Ho1) (Hwf2 & Hp2 & Hc2 & Hf2 & Ho2). split; [done|].
  split; [by rewrite Hp1, Hp2, app_assoc|]. split; [intros x [Hx|Hx]%elem_of_app; auto|].
  split; [rewrite total_size_app; lia|]. intros x y [Hx|Hx]%elem_of_app Hy Hcy; [|by apply Ho2].
  apply Ho1; [done| |done]. rewrite Hp2. apply elem_of_app. by right.
Qed.

Lemma wp_quota_loop fuel start name to_free t s w :
  well_formed t → small t → has t w → T ≤ start → 0 ≤ s.1 → s.1 + total_size (rows t) < 2 ^ 64 →
  (length (rows t) < fuel)%nat →
  wp (quota_loop fuel start name to_free s) (λ s' w', ∃ t' gone, has t' w' ∧ quota_kept name t (s'.1 - s.1) gone t' ∧
    (to_free ≤ s'.1 ∨ ∀ x, x ∈ rows t' → quota_candidate name x = false)) w.
Proof.
  revert t s w. induction fuel as [|fuel IH]; intros t s w Hwf Hsm Ht Hs H0 Hsum Hfuel; [lia|]. cbn [quota_loop].
  apply wp_bind, (wp_time t); [done|]. intros now w1 Hnow H1. destruct (_ >=? _) eqn:Eb; [unbool; lia|].
  apply wp_bind, (wp_query_quota name t); [done|]. intros w2 H2. apply wp_bind.
  assert (Hin : ∀ x, x ∈ quota_selection name t → x ∈ rows t) by (intros x Hx; unfold quota_selection in Hx; by apply select_in in Hx as [Hx _]).
  assert (Hle : Z.of_nat (length (quota_selection name t)) ≤ MAX_RECORDINGS_PER_STREAM) by by apply select_length.
  assert (Hsel : total_size (quota_selection name t) ≤ total_size (rows t)).
  { destruct (submseteq_Permutation _ _ (select_submseteq Completes (quota_candidate name) priority_key MAX_RECORDINGS_PER_STREAM t))
      as [rest Hrest]. fold (quota_selection name t) in Hrest. rewrite Hrest, total_size_app.
    assert (0 ≤ total_size rest); [|lia]. apply total_size_nonneg. intros x Hx. apply (proj1 Hsm). rewrite Hrest.
    apply elem_of_app. by right. }
  apply (wp_quota_batch fetch_untiered _ _ t); [done| |intros; apply (proj1 Hsm); auto|done|lia|done|].
  { apply Forall_forall. intros x Hx. apply (read_id fetch_untiered t); [done|done|auto]. }
  intros k s' t' w' Hk H' Hw Hs' Hstop. rewrite length_fmap.
  assert (Hkept : quota_kept name t (s'.1 - s.1) (take k (quota_selection name t)) t').
  { apply quota_kept_take; [done|done|lia]. }
  destruct (small_without _ _ _ Hsm (proj1 (proj2 Hkept))) as (Hsm' & Hg & Esum).
  destruct (_ =? _) eqn:Efull; [destruct (_ <? _) eqn:Emore|]; cbn [andb]; unbool.
  - destruct Hstop as [-> |Hstop]; [|lia]. rewrite firstn_all in *.
    assert (Hlt : (length (rows t') < length (rows t))%nat).
    { rewrite (proj1 (proj2 Hkept)), length_app. unfold MAX_RECORDINGS_PER_STREAM in Efull. lia. }
    eapply wp_mono; [apply (IH t'); try done; [apply Hkept|lia|lia|lia]|].
    intros s2 w3 (t2 & gone & H3 & Hk2 & Hend). exists t2, (quota_selection name t ++ gone). split; [done|].
    split; [|done]. replace (s2.1 - s.1) with ((s'.1 - s.1) + (s2.1 - s'.1)) by lia. by eapply quota_kept_trans.
  - apply wp_ret. exists t', (take k (quota_selection name t)). split; [done|]. split; [done|]. left. lia.
  - apply wp_ret. exists t', (take k (quota_selection name t)). split; [done|]. split; [done|].
    destruct Hstop as [-> |Hstop]; [right|by left]. intros x Hx. destruct (quota_candidate name x) eqn:Ec; [|done]. exfalso.
    rewrite firstn_all in Hw. destruct Hw as [Er _]. rewrite Er in Hx. apply list_elem_of_filter in Hx as [Hn Hx].
    apply Hn, list_elem_of_fmap_2. unfold quota_selection in *. apply select_all; [lia|done|done].
Qed.

Definition stream_bytes (name : cstr) (t : table) : Z :=
  total_size (filter (λ x, sql_is (c_is_complete x) 1 = true ∧ of_stream (Some name) x = true) (rows t)).

Lemma stream_bytes_gone name t t' gone :
  rows t ≡ₚ gone ++ rows t' → (∀ x, x ∈ gone → quota_candidate name x = true) →
  stream_bytes name t = total_size gone + stream_bytes name t'.
Proof.
  intros Hp Hc. unfold stream_bytes. rewrite Hp, filter_app, total_size_app. f_equal. f_equal. clear Hp.
  induction gone as [|x gone IH]; [done|]. rewrite filter_cons_True.
  - f_equal. apply IH. intros y Hy. apply Hc. by right.
  - specialize (Hc x ltac:(left)). unfold quota_candidate, deletable in Hc. rewrite !andb_true_iff in Hc. cbn. tauto.
Qed.

Lemma stream_bytes_small name t : small t → 0 ≤ stream_bytes name t < 2 ^ 63.
Proof.
  intros [Hs Hb]. unfold stream_bytes. split.
  - apply total_size_nonneg. intros x [_ Hx]%list_elem_of_filter. by apply Hs.
  - eapply Z.le_lt_trans; [by apply total_size_filter|done].
Qed.

(** Enforcing a quota with the usage [U] as the database tells it. *)
Lemma wp_enforce_quota fuel start name mb t acc w U :
  wp (stream_usage name) (λ u w', u = U ∧ has t w') w →
  well_formed t → small t → T ≤ start → (length (rows t) < fuel)%nat → 0 < mb < 2 ^ 43 →
  wp (enforce_quota fuel start name mb acc) (λ _ w', ∃ t' gone, has t' w' ∧ rows t ≡ₚ gone ++ rows t' ∧
    (∀ x, x ∈ gone → quota_candidate name x = true) ∧
    (∀ x y, x ∈ gone → y ∈ rows t' → quota_candidate name y = true → key_le priority_key x y) ∧
    (U - (stream_bytes name t - stream_bytes name t') ≤ mb * 2 ^ 20 ∨
     ∀ x, x ∈ rows t' → quota_candidate name x = false)) w.
Proof.
  intros Husage Hwf Hsm Hst Hfuel Hmb. unfold enforce_quota. rewrite (proj2 (Z.gtb_lt mb 0)) by lia.
  apply wp_bind. eapply wp_mono; [exact Husage|]. intros u w1 [-> H1]. cbv zeta.
  rewrite (u64_small (mb * 1024 * 1024)) by lia. destruct (_ >? _) eqn:Eover; unbool.
  - apply wp_bind. eapply wp_mono; [apply (wp_quota_loop fuel start name _ t); try done; cbn; unfold small in Hsm; lia|].
    intros s w2 (t' & gone & H2 & (Hwf' & Hp & Hc & Hf & Ho) & Hend). apply wp_ret. exists t', gone. split_and!; try done.
    destruct Hend as [Hend|]; [left|by right]. cbn [fst] in Hf. rewrite (stream_bytes_gone name t t' gone) by done. lia.
  - apply wp_ret. exists t, []. split_and!; try done; [by intros x ?%elem_of_nil|by intros x y ?%elem_of_nil|]. left. lia.
Qed.

(** ** The whole policy *)

(** The table is well formed and what is left of [t]. *)
Definition shrunk (t : table) (w' : world F) : Prop :=
  ∃ t' gone, has t' w' ∧ well_formed t' ∧ small t' ∧ rows t ≡ₚ gone ++ rows t'.

Lemma shrunk_refl t w : has t w → well_formed t → small t → shrunk t w.
Proof. intros. by exists t, []. Qed.

Lemma shrunk_trans t t' gone w : rows t ≡ₚ gone ++ rows t' → shrunk t' w → shrunk t w.
Proof. intros Hp (t2 & gone2 & ? & ? & ? & Hp2). exists t2, (gone ++ gone2). split_and!; try done. by rewrite Hp, Hp2, app_assoc. Qed.

(** The queue of a wp through [shrunk]: a property of the rows that are left
    survives. *)
Lemma shrunk_rows t t' gone x : rows t ≡ₚ gone ++ rows t' → x ∈ rows t' → x ∈ rows t.
Proof. intros -> Hx. apply elem_of_app. by right. Qed.

Lemma wp_stream_usage name t Q w :
  has t w → (∀ w', has t w' → Q (u64 (get_stream_storage_bytes Completes (Some t) (Some name))) w') → wp (stream_usage name) Q w.
Proof.
  intros Ht HQ. unfold stream_usage. apply wp_bind, (wp_sql t); [done|]. intros w1 H1.
  apply wp_bind, (wp_get_db t); [done|]. apply wp_ret. by apply HQ.
Qed.

Lemma wp_enforce_quota_shrinks fuel start name mb t acc w :
  well_formed t → small t → has t w → T ≤ start → (length (rows t) < fuel)%nat →
  wp (enforce_quota fuel start name mb acc) (λ _ w', shrunk t w') w.
Proof.
  intros Hwf Hsm Ht Hs Hfuel. unfold enforce_quota. destruct (mb >? 0); [|apply wp_ret; by apply shrunk_refl].
  apply wp_bind, (wp_stream_usage name t); [done|]. intros w1 H1. cbv zeta.
  destruct (_ >? _); [|apply wp_ret; by apply shrunk_refl]. apply wp_bind.
  eapply wp_mono; [apply (wp_quota_loop fuel start name _ t); try done; cbn; unfold small in Hsm; lia|].
  intros s w2 (t' & gone & H2 & Hk & _). apply wp_ret. exists t', gone. split_and!; [done|apply Hk| |apply Hk].
  eapply (small_without t t'); [done|apply Hk].
Qed.

Lemma wp_find_stream name t Q w :
  has t w → (∀ w', has t w' → Q (head (filter (λ s, s_name s = name) streams)) w') → wp (find_stream name) Q w.
Proof.
  intros Ht HQ. unfold find_stream. apply wp_bind, (wp_get_db t); [done|]. apply wp_bind, (wp_sql t); [done|].
  intros w1 H1. apply wp_ret. by apply HQ.
Qed.

Definition config_of (s : stream_row) : stream_retention_config_t :=
  mkRetention (s32 (default 30 (s_retention_days s))) (s32 (default 90 (s_detection_retention_days s)))
    (u64 (default 0 (s_max_storage_mb s))).

Definition expired (s : stream_row) (x : row) : bool :=
  past_retention T T (s_name s) (retention_days (config_of s)) (detection_retention_days (config_of s)) x.

Lemma expired_off s x :
  retention_days (config_of s) ≤ 0 → detection_retention_days (config_of s) ≤ 0 → expired s x = false.
Proof.
  intros H1 H2. unfold expired, past_retention.
  assert (E1 : (retention_days (config_of s) >? 0) = false) by (unbool; lia).
  assert (E2 : (detection_retention_days (config_of s) >? 0) = false) by (unbool; lia).
  rewrite E1, E2. by rewrite !andb_false_r, andb_false_l.
Qed.

(** The state between the phases: what is left of [t], without expired
    recordings of the streams [ss]. *)
Definition tidied (ss : list stream_row) (t : table) (w' : world F) : Prop :=
  ∃ t' gone, has t' w' ∧ well_formed t' ∧ small t' ∧ rows t ≡ₚ gone ++ rows t' ∧
    ∀ s x, s ∈ ss → x ∈ rows t' → expired s x = false.

(** A phase that runs on what an earlier one has left. *)
Lemma tidied_next {A} (m : M F A) ss1 ss2 t w1 :
  tidied ss1 t w1 →
  (∀ t1, has t1 w1 → well_formed t1 → small t1 → (length (rows t1) ≤ length (rows t))%nat →
     wp m (λ _ w2, tidied ss2 t1 w2) w1) →
  wp m (λ _ w2, tidied (ss1 ++ ss2) t w2) w1.
Proof.
  intros (t1 & g1 & H1 & Hwf1 & Hsm1 & Hp1 & He1) Hm. eapply wp_mono.
  - apply (Hm t1); try done. rewrite Hp1, length_app. lia.
  - intros _ w2 (t2 & g2 & H2 & Hwf2 & Hsm2 & Hp2 & He2). exists t2, (g1 ++ g2). split_and!; try done.
    + by rewrite Hp1, Hp2, app_assoc.
    + intros s x [Hs|Hs]%elem_of_app Hx; [|by apply He2]. apply He1; [done|]. by eapply shrunk_rows.
Qed.

Lemma tidied_nil t w : has t w → well_formed t → small t → tidied [] t w.
Proof. intros. exists t, []. split_and!; try done. by intros s x ?%elem_of_nil. Qed.

Lemma shrunk_tidied t w : shrunk t w → tidied [] t w.
Proof. intros (t' & gone & ? & ? & ? & ?). exists t', gone. split_and!; try done. by intros s x ?%elem_of_nil. Qed.

Lemma wp_apply_stream_policy fuel start s t acc w :
  head (filter (λ s', s_name s' = s_name s) streams) = Some s →
  well_formed t → small t → has t w → T ≤ start → (length (rows t) < fuel)%nat →
  wp (apply_stream_policy fuel start (s_name s) acc) (λ _ w', tidied [s] t w') w.
Proof.
  intros Hs Hwf Hsm Ht Hst Hfuel. unfold apply_stream_policy, get_stream_retention_config.
  apply wp_bind, wp_bind, (wp_find_stream _ t); [done|].
  intros w1 H1. rewrite Hs. apply wp_ret. cbn [mbind option_bind]. apply wp_bind, wp_ret. fold (config_of s).
  assert (Hoff : retention_days (config_of s) ≤ 0 → detection_retention_days (config_of s) ≤ 0 → tidied [s] t w1).
  { intros E1 E2. exists t, []. split_and!; try done. intros s' x ->%list_elem_of_singleton _. by apply expired_off. }
  destruct (_ && _ && _) eqn:Eskip; [apply wp_ret; unbool; by apply Hoff|]. apply wp_bind.
  assert (Hphase1 : wp (if (retention_days (config_of s) >? 0) || (detection_retention_days (config_of s) >? 0)
         then retention_loop fuel start (s_name s) (retention_days (config_of s)) (detection_retention_days (config_of s)) acc
         else mret acc) (λ _ w', tidied [s] t w') w1).
  { destruct (_ || _) eqn:Eon.
    - eapply wp_mono; [apply (wp_retention_loop fuel start _ _ _ t); [apply serves_retention|done..]|].
      intros acc' w' (t' & gone & H' & Hwf' & Hp & _ & Hnone). exists t', gone. split_and!; try done.
      + by eapply (small_without t).
      + intros s' x ->%list_elem_of_singleton. apply Hnone.
    - apply wp_ret. apply orb_false_iff in Eon as [E1 E2]. apply Hoff; unbool; lia. }
  eapply wp_mono; [exact Hphase1|]. intros acc' w2 H2. apply (tidied_next _ [s] []); [done|].
  intros t1 Ht1 Hwf1 Hsm1 Hle. eapply wp_mono; [apply (wp_enforce_quota_shrinks _ _ _ _ t1); try done; lia|].
  intros acc2 w3. apply shrunk_tidied.
Qed.

Lemma wp_apply_to_streams fuel start ss t acc w :
  (∀ s, s ∈ ss → head (filter (λ s', s_name s' = s_name s) streams) = Some s) →
  well_formed t → small t → has t w → T ≤ start → (length (rows t) < fuel)%nat →
  wp (apply_to_streams fuel start (s_name <$> ss) acc) (λ _ w', tidied ss t w') w.
Proof.
  revert t acc w. induction ss as [|s ss IH]; intros t acc w Hss Hwf Hsm Ht Hst Hfuel; cbn [apply_to_streams fmap list_fmap].
  { apply wp_ret. by apply tidied_nil. }
  apply wp_bind, (wp_time t); [done|]. intros now w1 Hnow H1. destruct (_ >=? _) eqn:Eb; [unbool; lia|].
  apply wp_bind. eapply wp_mono; [apply (wp_apply_stream_policy _ _ s t); try done; apply Hss; left|].
  intros acc' w2 H2. apply (tidied_next _ [s] ss); [done|]. intros t1 Ht1 Hwf1 Hsm1 Hle.
  apply (IH t1); try done; [|lia]. intros s' Hs'. apply Hss. by right.
Qed.

Hypothesis Hmemory : ∀ n, memory_at n = true.

Lemma wp_calloc t Q w : has t w → (∀ w', has t w' → Q true w') → wp calloc Q w.
Proof.
  intros [Hdb Hn] HQ. eexists _, _. split; [reflexivity|]. cbn. rewrite Hmemory. apply HQ. split; cbn; [done|lia].
Qed.

(** The loops that leave the table alone. *)
Lemma wp_for_each_has {A S} (body : A → S → M F S) t l s w :
  (∀ a s w, has t w → wp (body a s) (λ _ w', has t w') w) → has t w → wp (for_each body l s) (λ _ w', has t w') w.
Proof.
  intros Hb. revert s w. induction l as [|a l IH]; intros s w Hw; cbn [for_each]; [by apply wp_ret|].
  apply wp_bind. eapply wp_mono; [by apply Hb|]. intros s' w'. apply IH.
Qed.

Lemma wp_get_disk t Q w : has t w → (∀ d, Q d w) → wp get_disk Q w.
Proof. intros Ht HQ. eexists _, _. split; [reflexivity|]. apply HQ. Qed.

Lemma wp_put_disk t d Q w : has t w → (∀ w', has t w' → Q () w') → wp (put_disk d) Q w.
Proof. intros Ht HQ. eexists _, _. split; [reflexivity|]. by apply HQ. Qed.

Lemma wp_legacy_file cutoff path name n t w : has t w → wp (legacy_file cutoff path name n) (λ _ w', has t w') w.
Proof.
  intros Ht. unfold legacy_file. apply wp_bind, (wp_get_disk t); [done|]. intros d.
  destruct (lstat_regular _ _); [|by apply wp_ret]. destruct (_ && _); [|by apply wp_ret].
  apply wp_bind, (wp_sql t); [done|]. intros w1 H1. apply wp_bind, (wp_get_db t); [done|].
  destruct (get_recording_metadata_by_path _ _ _); [by apply wp_ret|]. destruct (unlink _ _) as [d' u].
  apply wp_bind, (wp_put_disk t); [done|]. intros w2 H2. destruct u; [|by apply wp_ret..].
  apply wp_bind, (wp_say t); [done|]. intros w3 H3. by apply wp_ret.
Qed.

Lemma wp_legacy t w : has t w → wp apply_legacy_retention_policy (λ _ w', has t w') w.
Proof.
  intros Ht. unfold apply_legacy_retention_policy. apply wp_bind, (wp_time t); [done|]. intros now w1 _ H1.
  apply wp_bind, (wp_get_disk t); [done|]. intros d. destruct (list_directory _ _); [|by apply wp_ret].
  apply wp_for_each_has; [|done]. clear w Ht w1 H1. intros entry n w1 H1. unfold legacy_directory.
  apply wp_bind, (wp_get_disk t); [done|]. intros d'. destruct (is_directory _ _); [|by apply wp_ret].
  apply wp_for_each_has; [|done]. intros name n' w2. apply wp_legacy_file.
Qed.

Lemma wp_clean_up_orphans t w :
  has t w → well_formed t → small t → wp clean_up_orphans (λ _ w', shrunk t w') w.
Proof.
  intros Ht Hwf Hsm. unfold clean_up_orphans, storage_accessible.
  apply wp_bind, wp_bind, (wp_get_disk t); [done|]. intros d. apply wp_ret.
  destruct (negb _); [apply wp_ret; by apply shrunk_refl|]. apply wp_bind, (wp_calloc t); [done|]. intros w1 H1.
  cbn [negb]. apply wp_bind. unfold query_orphans. apply wp_bind, (wp_sql t); [done|]. intros w2 H2.
  apply wp_bind, (wp_sql t); [done|]. intros w3 H3. apply wp_bind, (wp_get_disk t); [done|]. intros d'.
  apply wp_bind, (wp_get_db t); [done|]. destruct (get_orphaned_db_entries _ _ _ _ _) as [orphaned total].
  apply wp_ret. cbn [fst snd]. destruct (_ && _); [|apply wp_ret; by apply shrunk_refl].
  clear - Hwf Hsm H3 Hsql. generalize (default [] orphaned) as batch. intros batch.
  revert t w3 Hwf Hsm H3. induction batch as [|r batch IH]; intros t w3 Hwf Hsm H3; cbn [for_each].
  { apply wp_ret. by apply shrunk_refl. }
  apply wp_bind, wp_bind, (wp_delete_metadata t); [done|]. intros t' w' H' Hw. apply wp_ret.
  destruct (without_split _ _ _ Hw) as [gone Hp]. eapply wp_mono; [apply (IH t'); try done|].
  - by eapply without_well_formed.
  - by eapply (small_without t).
  - intros [] w''. by eapply shrunk_trans.
Qed.

Definition enabled_streams : list stream_row := filter (λ s, s_enabled s = true) streams.

(** Streams have names of their own that fit, and few enough are enabled. *)
Definition streams_ok : Prop :=
  NoDup (s_name <$> streams) ∧ (∀ s, s ∈ streams → (length (s_name s) < MAX_STREAM_NAME)%nat) ∧
  Z.of_nat (length enabled_streams) ≤ MAX_STREAMS_BATCH.

Lemma stream_by_name s : streams_ok → s ∈ streams → head (filter (λ s', s_name s' = s_name s) streams) = Some s.
Proof.
  intros (Hnd & _ & _). induction streams as [|s0 ss IH]; intros Hs; [by apply elem_of_nil in Hs|].
  cbn in Hnd. apply NoDup_cons in Hnd as [Hn Hnd]. apply elem_of_cons in Hs as [-> |Hs].
  - by rewrite filter_cons_True.
  - rewrite filter_cons_False; [by apply IH|]. intros E. apply Hn. rewrite E. by apply list_elem_of_fmap_2.
Qed.

Lemma wp_get_all_stream_names t Q w :
  streams_ok → has t w →
  (∀ ss w', has t w' → ss ≡ₚ enabled_streams → Q (Some (s_name <$> ss)) w') →
  wp (get_all_stream_names MAX_STREAMS_BATCH) Q w.
Proof.
  intros (Hnd & Hlen & Hfew) Ht HQ. unfold get_all_stream_names. apply wp_bind, (wp_get_db t); [done|].
  apply wp_bind, (wp_sql t); [done|]. intros w1 H1. apply wp_ret.
  fold enabled_streams. cbn [delivered].
  pose proof (order_by_perm text_key (s_name <$> enabled_streams)) as Hp.
  destruct (Permutation_map_inv _ _ Hp) as (ss & Ess & Hss).
  rewrite take_ge by (rewrite Hp, length_fmap; unfold MAX_STREAMS_BATCH in *; lia).
  assert (Ecut : strcpy_trunc MAX_STREAM_NAME <$> order_by text_key (s_name <$> enabled_streams) = s_name <$> ss).
  { rewrite Ess. change (map s_name ss) with (s_name <$> ss). rewrite <- list_fmap_compose. apply list_fmap_ext.
    intros i s Hi. unfold compose. apply strcpy_trunc_id, Hlen. apply list_elem_of_lookup_2 in Hi.
    rewrite <- Hss in Hi. by apply list_elem_of_filter in Hi as [_ Hi]. }
  rewrite Ecut. apply HQ; [done|]. by symmetry.
Qed.

Lemma wp_apply_retention_policy fuel t w :
  streams_ok → well_formed t → small t → has t w → (length (rows t) < fuel)%nat →
  wp (apply_retention_policy fuel) (λ _ w', tidied enabled_streams t w') w.
Proof.
  intros Hok Hwf Hsm Ht Hfuel. unfold apply_retention_policy. apply wp_bind, (wp_time t); [done|].
  intros start w1 Hstart H1. apply wp_bind, (wp_get_all_stream_names t); [done|done|]. intros ss w2 H2 Hss.
  assert (Htidy : ∀ w', tidied ss t w' → tidied enabled_streams t w').
  { intros w' (t' & gone & ? & ? & ? & ? & He). exists t', gone. split_and!; try done. intros s x Hs. apply He. by rewrite Hss. }
  destruct (s_name <$> ss) as [|name names] eqn:En.
  { apply wp_ret, Htidy. apply fmap_nil_inv in En as ->. by apply tidied_nil. }
  rewrite <- En. apply wp_bind, (wp_calloc t); [done|]. intros w3 H3. cbn [negb]. apply wp_bind.
  eapply wp_mono; [apply (wp_apply_to_streams fuel start ss t); try done|].
  { intros s Hs. apply stream_by_name; [done|]. rewrite Hss in Hs. by apply list_elem_of_filter in Hs as [_ Hs]. }
  { lia. }
  intros acc w4 H4. eapply wp_mono; [apply (tidied_next _ ss [] t); [exact H4|]|].
  2: { intros n w'. rewrite app_nil_r. apply Htidy. }
  intros t1 Ht1 Hwf1 Hsm1 Hle. apply wp_bind, (wp_time t1); [done|]. intros now w5 Hnow H5.
  destruct (_ <? _) eqn:Eb; [|unbool; lia]. apply wp_bind. eapply wp_mono; [by apply (wp_clean_up_orphans t1)|].
  intros [] w6 (t2 & g2 & H6 & Hwf2 & Hsm2 & Hp2).
  assert (Hend : ∀ w', has t2 w' → tidied [] t1 w') by (intros w' Hw'; apply shrunk_tidied; by exists t2, g2).
  destruct (_ || _); [|apply wp_ret; by apply Hend]. apply wp_bind. eapply wp_mono; [by apply (wp_legacy t2)|].
  intros n w7 H7. apply wp_ret. by apply Hend.
Qed.
End success.


(** an emergency cleanup deletes only recordings that are complete, not
    protected and marked as eligible under disk pressure. *)
Theorem emergency_spares_ineligible {F} `{FileSystem F} `{SqliteLaws} `{Environment} aggressive (w : world F) w' t :
  db w = Some t → well_formed t → emergency_cleanup aggressive w = Some ((), w') →
  ∃ t', db w' = Some t' ∧ (∀ x, x ∈ rows t' → x ∈ rows t) ∧
    (∀ x, x ∈ rows t → pressure_candidate x = false → x ∈ rows t').
Proof.
  intros Hdb Hwf Hrun.
  assert (Hstart : sparing pressure_candidate t (log w) w).
  { exists t, []. split; [done|]. split; [by split|]. split; [by rewrite app_nil_r|by apply Forall_nil]. }
  destruct (keeps_emergency_cleanup pressure_candidate t (log w) Hwf aggressive (λ _ Hx, Hx) w Hstart () w' Hrun)
    as [(t' & evs & Hdb' & [Hin Hsp] & Hl & Hj) _].
  by exists t'.
Qed.

(** ** Results *)

(** From reading [n0] on nothing fails, within the time budget after [T]. *)
Definition smooth {F} `{FileSystem F} `{Environment} (n0 : nat) (T : Z) : Prop :=
  (∀ n, (n0 ≤ n)%nat → sql_at n = Completes) ∧ (∀ d p, (unlink d p).2 ≠ Refused) ∧
  (∀ n, T ≤ time_at n < T + RETENTION_TIME_BUDGET_SEC) ∧ (∀ n, memory_at n = true).



(** when the usage of a stream cannot be read, enforcing its quota deletes
    every recording of the stream that is complete and not protected, however far
    below the quota it is: the error value -1 is taken for a size. *)
Theorem quota_unknown_usage {F} `{FileSystem F} `{SqliteLaws} `{Environment} fuel start name mb acc T t (w : world F) :
  sql_at (readings w) = PrepareFails → smooth (S (readings w)) T → db w = Some t → well_formed t → small t →
  T ≤ start → (length (rows t) < fuel)%nat → 0 < mb < 2 ^ 43 →
  ∃ acc' w' t', enforce_quota fuel start name mb acc w = Some (acc', w') ∧ db w' = Some t' ∧
    ∀ x, x ∈ rows t' → quota_candidate name x = false.
Proof.
  intros Hfail (Hsql & Hun & Htime & Hmem) Hdb Hwf Hsm Hst Hfuel Hmb. pose proof (stream_bytes_small name t Hsm) as Hb.
  assert (Husage : wp (stream_usage name) (λ u w', u = 2 ^ 64 - 1 ∧ has (S (readings w)) t w') w).
  { eexists _, _. split; [reflexivity|]. cbn. rewrite Hfail, Hdb. by repeat split. }
  destruct (wp_enforce_quota (S (readings w)) T Hsql Hun Htime fuel start name mb t acc w _ Husage Hwf Hsm Hst Hfuel Hmb)
    as (acc' & w' & E & t' & gone & [Hdb' _] & Hp & Hc & Ho & Hend).
  exists acc', w', t'. split_and!; try done. destruct Hend as [Hend|]; [|done].
  rewrite (stream_bytes_gone name t t' gone) in Hend by done.
  assert (Hg := stream_bytes_gone name t t' gone Hp Hc). destruct (small_without t t' gone Hsm Hp) as (Hsm' & _).
  pose proof (stream_bytes_small name t' Hsm'). lia.
Qed.

(** where nothing fails, the loop over a stream's tiers ends, it deletes every
    recording past the age of its tier, and it counts what it deletes. *)
Theorem tier_loop_complete {F} `{FileSystem F} `{SqliteLaws} `{Environment} fuel name base mults ages acc T t (w : world F) :
  smooth (readings w) T → (∀ n, running_at n = true) → tier_ages base mults = Some ages →
  db w = Some t → well_formed t → (length (rows t) < fuel)%nat →
  ∃ acc' w' t' gone, tier_loop fuel name base mults acc w = Some (acc', w') ∧ db w' = Some t' ∧
    rows t ≡ₚ gone ++ rows t' ∧ acc'.1 = acc.1 + Z.of_nat (length gone) ∧
    ∀ x, x ∈ rows t' → past_ages T T name ages x = false.
Proof.
  intros (Hsql & Hun & Htime & _) Hrun Hages Hdb Hwf Hfuel.
  destruct (wp_tier_loop (readings w) Hsql Hun fuel name base mults _ t acc w Hrun
    (serves_tier (readings w) T Hsql Htime name base mults ages Hages) Hwf ltac:(by split) Hfuel)
    as (acc' & w' & E & t' & gone & [Hdb' _] & _ & Hp & Ea & Hnone).
  by exists acc', w', t', gone.
Qed.

(** ** A loop that does not end *)

Lemma bind_None {F A B} (m : M F A) (k : A → M F B) (w : world F) :
  wp m (λ a w', k a w' = None) w → (m ≫= k) w = None.
Proof. intros (a & w' & E & Hk). unfold mbind, M_bind. by rewrite E. Qed.

Lemma filter_length_mono {A} (p q : A → bool) l :
  (∀ x, p x = true → q x = true) →
  (length (filter (λ x, p x = true) l) ≤ length (filter (λ x, q x = true) l))%nat.
Proof.
  intros Hpq. induction l as [|x l IH]; [done|]. rewrite !filter_cons. specialize (Hpq x).
  destruct (decide (p x = true)), (decide (q x = true)); cbn; try lia. exfalso; auto.
Qed.

Section stuck.
Context {F : Type} {FS : FileSystem F} {SQ : Sqlite} {SL : SqliteLaws} {EN : Environment}.
Hypothesis Hunlink : ∀ d p, (unlink d p).2 = Refused.
Hypothesis Hrun : ∀ n, running_at n = true.
Hypothesis Hsql : ∀ n, sql_at n = Completes.

Lemma wp_delete_refused r t acc (w : world F) :
  file_path r ≠ [] → db w = Some t → wp (delete_counted r acc) (λ acc' w', acc' = acc ∧ db w' = Some t) w.
Proof.
  intros Hpath Hdb. unfold delete_counted, delete_recording_file_and_metadata, remove_file. apply wp_bind, wp_bind.
  destruct (decide _); [done|]. apply wp_bind. eexists _, _. split; [reflexivity|].
  specialize (Hunlink (disk w) (file_path r)). destruct (unlink (disk w) (file_path r)) as [d' u]. cbn in Hunlink. subst u.
  apply wp_bind. eexists _, _. split; [reflexivity|]. apply wp_ret. cbn [negb fst snd]. apply wp_ret.
  cbn [fst]. by apply wp_ret.
Qed.

Lemma wp_tier_batch_refused batch t acc (w : world F) :
  Forall (λ r, file_path r ≠ []) batch → db w = Some t →
  wp (tier_batch batch acc) (λ acc' w', acc' = acc ∧ db w' = Some t) w.
Proof.
  intros Hb. revert w. induction Hb as [|r batch Hr _ IH]; intros w Hdb; cbn [tier_batch]; [by apply wp_ret|].
  apply wp_bind. eexists _, _. split; [reflexivity|]. rewrite Hrun. cbn [negb]. apply wp_bind.
  eapply wp_mono; [by apply (wp_delete_refused r t)|]. intros acc' w' [-> Hdb']. by apply IH.
Qed.

Lemma tier_loop_None fuel name base mults ages T t acc (w : world F) :
  (∀ n, T ≤ time_at n) → tier_ages base mults = Some ages → db w = Some t →
  (∀ x, x ∈ rows t → c_file_path x ≠ []) →
  MAX_RECORDINGS_PER_STREAM ≤ Z.of_nat (length (filter (λ x, past_ages T T name ages x = true) (rows t))) →
  tier_loop fuel name base mults acc w = None.
Proof.
  intros Htime Hages Hdb Hpaths Hmany. revert acc w Hdb. induction fuel as [|fuel IH]; intros acc w Hdb; [done|].
  cbn [tier_loop]. apply bind_None. eexists _, _. split; [reflexivity|]. rewrite Hrun. cbn [negb].
  set (past now sql_now := past_ages now sql_now name ages).
  set (key := λ x : row, desc (c_retention_tier x) ++ [c_start_time x]).
  assert (Hq : wp (query_tier name base mults) (λ batch w', db w' = Some t ∧ ∃ now sql_now,
      batch = fetch <$> select Completes (past now sql_now) key MAX_RECORDINGS_PER_STREAM t ∧ T ≤ now ∧ T ≤ sql_now)
      (mkWorld (db w) (disk w) (health w) (S (readings w)) (log w))).
  { unfold query_tier. do 3 (apply wp_bind; eexists _, _; split; [reflexivity|]). rewrite Hsql.
    apply wp_bind. eexists (Some t), _. split; [unfold get_db; cbn; by rewrite Hdb|]. rewrite (tiered_query _ _ _ _ _ _ ages) by done.
    apply wp_bind. eexists _, _. split; [reflexivity|]. apply wp_ret. split; [done|]. eexists _, _. split; [reflexivity|].
    split; apply Htime. }
  apply bind_None. eapply wp_mono; [exact Hq|]. intros batch w1 (Hdb1 & now & sql_now & -> & Hnow & Hsn).
  assert (Hfull : length (select Completes (past now sql_now) key MAX_RECORDINGS_PER_STREAM t) = Z.to_nat MAX_RECORDINGS_PER_STREAM).
  { unfold select. cbn [delivered]. rewrite length_take, (order_by_perm key).
    pose proof (filter_length_mono (past_ages T T name ages) (past now sql_now) (rows t)
      (λ x, past_ages_mono T now sql_now name ages x Hnow Hsn)). lia. }
  apply bind_None. eapply wp_mono; [apply (wp_tier_batch_refused _ t); [|done]|].
  - apply Forall_fmap, Forall_forall. intros x [Hx _]%select_in E. apply (Hpaths x Hx).
    cbn in E. by destruct (c_file_path x).
  - intros acc' w2 [-> Hdb2]. rewrite length_fmap, Hfull. change (_ =? _) with true. by apply IH.
Qed.
End stuck.

(** the loop over a stream's tiers has no bound of its own: when as many
    recordings as a batch holds are past their age and their files cannot be
    unlinked, it repeats the same batch for ever, and the controller never gets to
    look at the disk again. *)
Theorem tier_loop_stuck {F} `{FileSystem F} `{SqliteLaws} `{Environment} name base mults ages T t acc (w : world F) :
  (∀ d p, (unlink d p).2 = Refused) → (∀ n, running_at n = true) → (∀ n, sql_at n = Completes) →
  (∀ n, T ≤ time_at n) → tier_ages base mults = Some ages → db w = Some t →
  (∀ x, x ∈ rows t → c_file_path x ≠ []) →
  MAX_RECORDINGS_PER_STREAM ≤ Z.of_nat (length (filter (λ x, past_ages T T name ages x = true) (rows t))) →
  ∀ fuel, tier_loop fuel name base mults acc w = None.
Proof. intros Hun Hrun Hsql Htime Hages Hdb Hpaths Hmany fuel. by eapply tier_loop_None. Qed.

(** ** The end of an emergency *)

Definition is_deletion (e : event) : bool :=
  match e with EvUnlink _ _ | EvUnlinkUntracked _ | EvDeleteRow _ => true | _ => false end.

(** Nothing is deleted after an event that reports less than critical pressure. *)
Definition quiet_after_recovery (evs : list event) : Prop :=
  ∀ pre old new post, evs = pre ++ EvPressure old new :: post → level_Z new < level_Z DISK_PRESSURE_CRITICAL →
  Forall (λ e, is_deletion e = false) post.

Definition unrecovered (evs : list event) : Prop :=
  ∀ old new, EvPressure old new ∈ evs → level_Z DISK_PRESSURE_CRITICAL ≤ level_Z new.

Lemma unrecovered_quiet evs : unrecovered evs → quiet_after_recovery evs.
Proof. intros Hu pre old new post -> Hlow. specialize (Hu old new). rewrite elem_of_app, elem_of_cons in Hu. lia || (exfalso; specialize (Hu ltac:(auto)); lia). Qed.

Lemma unrecovered_app evs evs' : unrecovered evs → unrecovered evs' → unrecovered (evs ++ evs').
Proof. intros H1 H2 old new [H|H]%elem_of_app; eauto. Qed.

(** One more event, not a deletion, after a quiet log. *)
Lemma quiet_snoc evs e : quiet_after_recovery evs → is_deletion e = false → quiet_after_recovery (evs ++ [e]).
Proof.
  intros Hq He pre old new post E Hlow. destruct post as [|e' post _] using rev_ind; [by apply Forall_nil|].
  rewrite app_comm_cons, app_assoc in E. apply app_inj_tail in E as [E ->].
  apply Forall_app. split; [by eapply Hq|by repeat constructor].
Qed.

Section emergency.
Context {F : Type} {FS : FileSystem F} {SQ : Sqlite} {EN : Environment}.

(** An operation that neither looks at the disk nor changes the health record. *)
Definition calm (w w' : world F) : Prop := health w' = health w ∧ ∃ es, log w' = log w ++ es ∧ unrecovered es.

Lemma calm_refl w : calm w w.
Proof. split; [done|]. exists []. rewrite app_nil_r. split; [done|]. intros old new E. by apply elem_of_nil in E. Qed.

Lemma calm_trans w1 w2 w3 : calm w1 w2 → calm w2 w3 → calm w1 w3.
Proof.
  intros [E1 (es1 & L1 & U1)] [E2 (es2 & L2 & U2)]. split; [congruence|]. exists (es1 ++ es2).
  split; [by rewrite L2, L1, app_assoc|]. by apply unrecovered_app.
Qed.

Definition calmly {A} (m : M F A) : Prop := ∀ w, wlp m (λ _ w', calm w w') w.

Lemma calmly_ret {A} (a : A) : calmly (mret a).
Proof. intros w ? ? [= <- <-]. apply calm_refl. Qed.

Lemma calmly_bind {A B} (m : M F A) (k : A → M F B) : calmly m → (∀ a, calmly (k a)) → calmly (m ≫= k).
Proof.
  intros Hm Hk w. apply wlp_bind. intros a w1 E1 b w2 E2. eapply calm_trans; [by eapply Hm|by eapply Hk].
Qed.

Lemma calmly_say e : (∀ old new, e ≠ EvPressure old new) → calmly (say e).
Proof.
  intros He w [] w' [= <-]. split; [done|]. exists [e]. split; [done|]. intros old new E.
  apply list_elem_of_singleton in E. by destruct (He old new).
Qed.

Lemma calmly_quiet {A} (m : M F A) : (∀ w a w', m w = Some (a, w') → health w' = health w ∧ log w' = log w) → calmly m.
Proof.
  intros Hm w a w' E. destruct (Hm w a w' E) as [Eh El]. split; [done|]. exists []. rewrite app_nil_r.
  split; [done|]. intros old new X. by apply elem_of_nil in X.
Qed.

Lemma calmly_sql : calmly sql.
Proof. apply calmly_quiet. by intros w a w' [= <- <-]. Qed.

Lemma calmly_delete_metadata i : calmly (delete_metadata i).
Proof.
  unfold delete_metadata. apply calmly_bind; [apply calmly_quiet; by intros w a w' [= <- <-]|]. intros [t|]; [|apply calmly_ret].
  apply calmly_bind; [apply calmly_sql|]. intros r1. apply calmly_bind; [apply calmly_sql|]. intros r2.
  destruct (delete_recording_metadata r1 r2 i t) as [ok t'].
  apply calmly_bind; [apply calmly_quiet; by intros w a w' [= <- <-]|]. intros _.
  apply calmly_bind; [|intros _; apply calmly_ret]. destruct ok; [by apply calmly_say|apply calmly_ret].
Qed.

Lemma calmly_remove_file r : calmly (remove_file r).
Proof.
  unfold remove_file. destruct (decide _); [apply calmly_ret|].
  apply calmly_bind; [apply calmly_quiet; by intros w a w' [= <- <-]|]. intros d. destruct (unlink d (file_path r)) as [d' u].
  apply calmly_bind; [apply calmly_quiet; by intros w a w' [= <- <-]|]. intros _.
  destruct u; [|apply calmly_ret..]. apply calmly_bind; [by apply calmly_say|]. intros _. apply calmly_ret.
Qed.

Lemma calmly_delete r : calmly (delete_recording_file_and_metadata r).
Proof.
  unfold delete_recording_file_and_metadata. apply calmly_bind; [apply calmly_remove_file|]. intros f.
  destruct (negb f.1); [apply calmly_ret|]. apply calmly_bind; [by apply calmly_say|]. intros _.
  apply calmly_bind; [apply calmly_delete_metadata|]. intros ok. destruct (negb ok); [apply calmly_ret|].
  apply calmly_bind; [by apply calmly_say|]. intros _. apply calmly_ret.
Qed.

(** A look at the disk: the level may change, and then it is reported. *)
Lemma heartbeat_reports w w' :
  heartbeat_check_disk_pressure w = Some ((), w') →
  (log w' = log w ∧ pressure_level (health w') = pressure_level (health w)) ∨
  log w' = log w ++ [EvPressure (pressure_level (health w)) (pressure_level (health w'))].
Proof.
  unfold heartbeat_check_disk_pressure. unfold mbind, M_bind, get_disk, get_health, time, tick, put_health, mret, M_ret. cbn.
  destruct (statvfs _ _) as [[[blocks bavail] frsize]|]; [|intros [= <-]; by left].
  cbn. destruct (decide _) as [E|E]; intros [= <-]; [left|right]; cbn; by rewrite ?E.
Qed.

(** The loop over the recordings: quiet, and critical while it goes on. *)
Definition pressed (l0 : list event) (s : bool * totals) (w : world F) : Prop :=
  ∃ evs, log w = l0 ++ evs ∧ quiet_after_recovery evs ∧
    (s.1 = false → level_Z DISK_PRESSURE_CRITICAL ≤ level_Z (pressure_level (health w)) ∧ unrecovered evs).

Lemma pressed_calm l0 s s' w w' : s.1 = false → pressed l0 s w → calm w w' → pressed l0 s' w'.
Proof.
  intros Es (evs & El & Hq & Hs) [Eh (es & El' & Hu)]. destruct (Hs Es) as [Hlev Hun].
  assert (Hun' : unrecovered (evs ++ es)) by by apply unrecovered_app.
  exists (evs ++ es). split; [by rewrite El', El, app_assoc|]. split; [by apply unrecovered_quiet|].
  intros _. by rewrite Eh.
Qed.

(** A look at the disk, and the decision it leads to. *)
Lemma pressed_heartbeat l0 s acc w w' :
  s.1 = false → pressed l0 s w → heartbeat_check_disk_pressure w = Some ((), w') →
  pressed l0 (level_Z (pressure_level (health w')) <? level_Z DISK_PRESSURE_CRITICAL, acc) w'.
Proof.
  intros Es (evs & El & Hq & Hs) Hb. destruct (Hs Es) as [Hlev Hun]. cbn [fst].
  destruct (heartbeat_reports w w' Hb) as [[El' Eh]|El'].
  - exists evs. split; [by rewrite El'|]. split; [done|]. intros Hc. by rewrite Eh.
  - exists (evs ++ [EvPressure (pressure_level (health w)) (pressure_level (health w'))]).
    split; [by rewrite El', El, app_assoc|]. split; [by apply quiet_snoc|]. intros Hc. apply Z.ltb_ge in Hc.
    split; [done|]. apply unrecovered_app; [done|]. intros old new E. apply list_elem_of_singleton in E. by injection E as -> ->.
Qed.

Lemma pressed_step l0 initial aggressive r s w :
  level_Z DISK_PRESSURE_CRITICAL ≤ level_Z initial → pressed l0 s w →
  wlp (emergency_step initial aggressive r s) (λ s' w', pressed l0 s' w') w.
Proof.
  intros Hinit Hp. unfold emergency_step. destruct s.1 eqn:Es; [by apply wlp_ret|].
  apply wlp_bind. intros run w1 E1.
  assert (H1 : pressed l0 s w1) by (eapply pressed_calm; [done|done|]; injection E1 as _ <-; exact (conj eq_refl (proj2 (calm_refl w)))).
  destruct (negb run).
  { apply wlp_ret. destruct H1 as (evs & El & Hq & _). exists evs. split; [done|]. by split. }
  apply wlp_bind. intros d w2 E2. apply calmly_delete in E2.
  assert (H2 : ∀ s', pressed l0 s' w2) by (intros s'; by eapply pressed_calm).
  destruct (negb d.1); [by apply wlp_ret|]. cbv zeta. destruct (d.2 >? 0); [|by apply wlp_ret].
  apply wlp_bind. intros [] w3 E3. apply wlp_bind. intros current w4 E4. apply wlp_ret.
  injection E4 as <- <-. unfold should_continue_emergency_cleanup.
  destruct (level_Z initial <? _) eqn:Ei; [unbool; lia|].
  rewrite Z.geb_leb, <- Z.ltb_antisym. by apply (pressed_heartbeat l0 s _ w2).
Qed.

Lemma pressed_loop l0 initial aggressive batch s w :
  level_Z DISK_PRESSURE_CRITICAL ≤ level_Z initial → pressed l0 s w →
  wlp (for_each (emergency_step initial aggressive) batch s) (λ s' w', pressed l0 s' w') w.
Proof.
  intros Hinit. revert s w. induction batch as [|r batch IH]; intros s w Hp; cbn [for_each]; [by apply wlp_ret|].
  apply wlp_bind. intros s' w' E. apply IH. by eapply pressed_step.
Qed.
End emergency.

(** an emergency cleanup that starts at critical pressure or worse deletes
    nothing more once a look at the disk has reported less. *)
Theorem emergency_stops_on_recovery {F} `{FileSystem F} `{Sqlite} `{Environment} aggressive (w w' : world F) :
  level_Z DISK_PRESSURE_CRITICAL ≤ level_Z (pressure_level (health w)) →
  emergency_cleanup aggressive w = Some ((), w') →
  ∃ evs, log w' = log w ++ evs ∧ quiet_after_recovery evs.
Proof.
  intros Hlev. revert w'. enough (Hw : wlp (emergency_cleanup aggressive)
    (λ _ w', ∃ evs, log w' = log w ++ evs ∧ quiet_after_recovery evs) w) by (intros w' E; by eapply Hw).
  assert (Hnil : quiet_after_recovery []) by (by intros [] ? ? ?).
  unfold emergency_cleanup. apply wlp_bind. intros initial w1 [= <- <-]. apply wlp_bind. intros allocated w1 [= <- <-].
  destruct (negb _); [apply wlp_ret; exists []; by rewrite app_nil_r|].
  apply wlp_bind. intros batch w2 E2.
  assert (Hstart : pressed (log w) (false, (0, 0)) w2).
  { injection E2 as _ <-. exists []. rewrite app_nil_r. split; [done|]. split; [done|]. intros _. split; [done|].
    intros old new X. by apply elem_of_nil in X. }
  destruct (_ <=? 0); [apply wlp_ret; destruct Hstart as (evs & ? & ? & _); by exists evs|].
  apply wlp_bind. intros s w3 E3. apply pressed_loop with (l0 := log w) in E3 as (evs & El & Hq & _); [|done|done].
  apply wlp_bind. intros [] w4 [= <-]. intros [] w5 E5.
  destruct (heartbeat_reports _ _ E5) as [[El' _]|El']; rewrite El'; cbn [log]; rewrite El.
  - by exists evs.
  - eexists. rewrite <- app_assoc. split; [reflexivity|]. by apply quiet_snoc.
Qed.

(** the maximum size of the storage has no effect: with a default retention,
    the policy does the same whatever it is set to. *)
Theorem max_size_ignored {F} `{FileSystem F} `{Sqlite} `{Environment} (size : Z) fuel (w : world F) :
  0 < default_retention_days storage_manager →
  let E' := {| streams := streams; storage_manager := (set_max_storage_size size storage_manager).2; time_at := time_at;
               sql_at := sql_at; running_at := running_at; memory_at := memory_at |} in
  @apply_retention_policy F _ _ E' fuel w = apply_retention_policy fuel w.
Proof.
  intros Hdays E'. unfold apply_retention_policy.
  assert (Hgt : (default_retention_days storage_manager >? 0) = true) by (by apply Z.gtb_lt).
  change (@storage_manager E') with (set_max_storage_size size storage_manager).2.
  cbn [set_max_storage_size snd default_retention_days]. rewrite Hgt. reflexivity.
Qed.

(** ** Witnesses *)

(** A disk of files with sizes; all of its files resist when [refuses]. *)
Record simple_disk := mkDisk { files : list (cstr * Z); capacity : Z }.

Definition simple_unlink (refuses : bool) (d : simple_disk) (p : cstr) : simple_disk * unlink_result :=
  if refuses then (d, Refused) else
  if bool_decide (p ∈ (files d).*1) then (mkDisk (filter (λ f, f.1 ≠ p) (files d)) (capacity d), Unlinked) else (d, NoEntry).

Definition simple_fs (refuses : bool) : FileSystem simple_disk := {|
  unlink := simple_unlink refuses;
  file_exists d p := bool_decide (p ∈ (files d).*1);
  is_directory _ _ := true;
  statvfs d _ := Some (capacity d, capacity d - foldr (λ f acc, f.2 + acc) 0 (files d), 1);
  list_directory _ _ := Some [];
  stat_regular _ _ := None;
  lstat_regular _ _ := None
|}.

Lemma simple_fs_unlinks d p : (@unlink _ (simple_fs false) d p).2 ≠ Refused.
Proof. cbn. unfold simple_unlink. by case_bool_decide. Qed.

Definition sample_now : Z := 1700000000.

Definition sample_stream : stream_row := mkStream (lit "door") true (Some 7) (Some 14) (Some 1) None None None.

(** Statements fail at the readings [fails]. *)
Definition sample_environment (fails : nat → bool) : Environment := {|
  streams := [sample_stream];
  storage_manager := mkManager (lit "/data") 0 30;
  time_at _ := sample_now;
  sql_at n := if fails n then PrepareFails else Completes;
  running_at _ := true;
  memory_at _ := true
|}.

Definition sample_row (i age size : Z) (prot : bool) : row :=
  mkRow i (lit "door") (lit "/data/mp4/" ++ [Z_byte (64 + i)]) (sample_now - age * 86400) (Some sample_now) (Some size)
    None None None None (Some 1) (Some (lit "scheduled")) (Some (if prot then 1 else 0)) None (Some 2) (Some 1).

(** An old recording, an old protected one, and two new ones. *)
Definition sample_table : table :=
  mkTable [sample_row 1 30 700000 false; sample_row 2 30 700000 true; sample_row 3 1 700000 false; sample_row 4 0 100000 false] 4 [].

Definition sample_health (l : disk_pressure_level_t) : storage_health_t :=
  mkHealth l (f_of_Z binary64 100) 0 0 0 0 0 0 0 0.

Definition sample_world (l : disk_pressure_level_t) : world simple_disk :=
  mkWorld (Some sample_table)
    (mkDisk ((λ x, (c_file_path x, default 0 (c_size_bytes x))) <$> rows sample_table) 2300000) (sample_health l) 0 [].

Lemma sample_well_formed : well_formed sample_table.
Proof. apply (bool_decide_unpack _). by vm_compute. Qed.

Lemma sample_small : small sample_table.
Proof.
  split; [|by vm_compute].
  assert (Hall : Forall (λ x, 0 ≤ default 0 (c_size_bytes x)) (rows sample_table)).
  { apply (bool_decide_unpack _). by vm_compute. }
  rewrite Forall_forall in Hall. exact Hall.
Qed.

Lemma sample_smooth n0 fails :
  (∀ n, (n0 ≤ n)%nat → fails n = false) →
  @smooth _ (simple_fs false) (sample_environment fails) n0 sample_now.
Proof.
  intros Hf. split; [intros n Hn; cbn; by rewrite Hf|]. split; [apply simple_fs_unlinks|].
  split; [intros n; cbn; unfold RETENTION_TIME_BUDGET_SEC; lia|done].
Qed.


Lemma emergency_spares_ineligible_witness :
  ∃ w' t', @emergency_cleanup _ (simple_fs false) merging_sqlite (sample_environment (λ _, false)) true
             (sample_world DISK_PRESSURE_EMERGENCY) = Some ((), w') ∧ db w' = Some t' ∧ (∀ x, x ∈ rows t' → x ∈ rows sample_table).
Proof.
  destruct (@emergency_cleanup _ (simple_fs false) merging_sqlite (sample_environment (λ _, false)) true
              (sample_world DISK_PRESSURE_EMERGENCY)) as [[[] w']|] eqn:E; [|exfalso; by vm_compute in E].
  destruct (@emergency_spares_ineligible _ (simple_fs false) merging_sqlite merging_laws (sample_environment (λ _, false)) _
              (sample_world DISK_PRESSURE_EMERGENCY) _ sample_table eq_refl sample_well_formed E) as (t' & Hdb & Hin & _).
  exists w', t'. split; [done|]. by split.
Defined.

Lemma emergency_stops_on_recovery_witness :
  ∃ w' evs, @emergency_cleanup _ (simple_fs false) merging_sqlite (sample_environment (λ _, false)) true
              (sample_world DISK_PRESSURE_EMERGENCY) = Some ((), w') ∧ log w' = evs ∧ quiet_after_recovery evs ∧
            EvPressure DISK_PRESSURE_EMERGENCY DISK_PRESSURE_NORMAL ∈ evs.
Proof.
  destruct (@emergency_cleanup _ (simple_fs false) merging_sqlite (sample_environment (λ _, false)) true
              (sample_world DISK_PRESSURE_EMERGENCY)) as [[[] w']|] eqn:E; [|exfalso; by vm_compute in E].
  destruct (@emergency_stops_on_recovery _ (simple_fs false) merging_sqlite (sample_environment (λ _, false)) true
              (sample_world DISK_PRESSURE_EMERGENCY) w' ltac:(by vm_compute) E) as (evs & El & Hq).
  exists w', evs. split; [done|]. split; [exact El|]. split; [exact Hq|].
  vm_compute in E. injection E as <-. vm_compute in El. subst evs. rewrite !elem_of_cons. tauto.
Defined.

Lemma sample_streams_ok fails : @streams_ok (sample_environment fails).
Proof.
  split; [apply NoDup_singleton|]. split; [|by vm_compute]. intros s ->%list_elem_of_singleton. vm_compute. lia.
Qed.



(** The quota of 1 TB is far above the usage. *)
Lemma quota_unknown_usage_witness :
  stream_bytes (lit "door") sample_table ≤ 1000000 * 2 ^ 20 ∧
  ∃ acc' w' t', @enforce_quota _ (simple_fs false) merging_sqlite (sample_environment (λ n, (n =? 0)%nat)) 10 sample_now
                  (lit "door") 1000000 (0, 0) (sample_world DISK_PRESSURE_NORMAL) = Some (acc', w') ∧ db w' = Some t' ∧
    ∀ x, x ∈ rows t' → quota_candidate (lit "door") x = false.
Proof.
  split; [by vm_compute|].
  apply (@quota_unknown_usage _ (simple_fs false) merging_sqlite merging_laws (sample_environment (λ n, (n =? 0)%nat)) 10 sample_now
           (lit "door") 1000000 (0, 0) sample_now sample_table (sample_world DISK_PRESSURE_NORMAL));
    [done| |done|exact sample_well_formed|exact sample_small|lia|cbn; lia|lia].
  apply (sample_smooth 1 (λ n, (n =? 0)%nat)). intros [|n] Hn; [lia|done].
Defined.

(** As many old recordings as a batch holds. *)
Definition crowded_table : table :=
  mkTable ((λ i, sample_row (Z.of_nat i) 30 1000 false) <$> seq 1 100) 100 [].

Definition crowded_world : world simple_disk := mkWorld (Some crowded_table) (mkDisk [] 0) (sample_health DISK_PRESSURE_NORMAL) 0 [].

Definition sample_multipliers : spec_float * spec_float * spec_float * spec_float :=
  @tier_multipliers sample_stream.

Lemma tier_loop_complete_witness :
  ∃ acc' w' t', @tier_loop _ (simple_fs false) merging_sqlite (sample_environment (λ _, false)) 101 (lit "door") 7
                  sample_multipliers (0, 0) crowded_world = Some (acc', w') ∧ db w' = Some t' ∧ rows t' = [] ∧ acc'.1 = 100.
Proof.
  destruct (@tier_loop_complete _ (simple_fs false) merging_sqlite merging_laws (sample_environment (λ _, false)) 101 (lit "door") 7
              sample_multipliers (1814400, 1209600, 604800, 151200) (0, 0) sample_now crowded_table crowded_world
              (sample_smooth 0 (λ _, false) (λ _ _, eq_refl)) (λ _, eq_refl) ltac:(by vm_compute) eq_refl
              ltac:(apply (bool_decide_unpack _); by vm_compute) ltac:(by vm_compute; lia))
    as (acc' & w' & t' & gone & E & Hdb & Hp & Ea & Hnone).
  exists acc', w', t'. split; [exact E|]. split; [exact Hdb|].
  assert (Er : rows t' = []).
  { apply elem_of_nil_inv. intros x Hx. specialize (Hnone x Hx).
    assert (Hin : x ∈ rows crowded_table) by (rewrite Hp; apply elem_of_app; by right).
    assert (Hall : Forall (λ x, past_ages sample_now sample_now (lit "door") (1814400, 1209600, 604800, 151200) x = true) (rows crowded_table))
      by (apply (bool_decide_unpack _); by vm_compute).
    rewrite Forall_forall in Hall. specialize (Hall x Hin). congruence. }
  split; [exact Er|]. apply Permutation_length in Hp. rewrite Er, app_nil_r in Hp. rewrite Ea, <- Hp. by vm_compute.
Defined.

Lemma tier_loop_stuck_witness :
  length (rows crowded_table) = 100%nat ∧
  ∀ fuel, @tier_loop _ (simple_fs true) merging_sqlite (sample_environment (λ _, false)) fuel (lit "door") 7
            sample_multipliers (0, 0) crowded_world = None.
Proof.
  split; [by vm_compute|].
  apply (@tier_loop_stuck _ (simple_fs true) merging_sqlite merging_laws (sample_environment (λ _, false)) (lit "door") 7
           sample_multipliers (1814400, 1209600, 604800, 151200) sample_now crowded_table (0, 0) crowded_world);
    [done|done|done|intros n; apply Z.le_refl|by vm_compute|done| |by vm_compute].
  - assert (Hall : Forall (λ x, c_file_path x ≠ []) (rows crowded_table)) by (apply (bool_decide_unpack _); by vm_compute).
    rewrite Forall_forall in Hall. exact Hall.
Defined.

Lemma max_size_ignored_witness :
  0 < 30 ∧ ∀ fuel w, @apply_retention_policy _ (simple_fs false) merging_sqlite
    {| streams := [sample_stream]; storage_manager := mkManager (lit "/data") 1000 30; time_at _ := sample_now;
       sql_at _ := Completes; running_at _ := true; memory_at _ := true |} fuel w =
    @apply_retention_policy _ (simple_fs false) merging_sqlite
    {| streams := [sample_stream]; storage_manager := mkManager (lit "/data") 0 30; time_at _ := sample_now;
       sql_at _ := Completes; running_at _ := true; memory_at _ := true |} fuel w.
Proof.
  split; [lia|]. intros fuel w.
  apply (@max_size_ignored _ (simple_fs false) merging_sqlite
    {| streams := [sample_stream]; storage_manager := mkManager (lit "/data") 0 30; time_at _ := sample_now;
       sql_at _ := Completes; running_at _ := true; memory_at _ := true |} 1000 fuel w). cbn. lia.
Defined.
