(* ===== verification/Accounts.v ===== *)
(** * Users, sessions and trusted devices: [src/database/db_auth.c]

    The tables behind a login, and every operation on them; the decisions that
    read no table are in [Auth].  A statement is a value, and [apply_statement]
    is what it does when SQLite runs it to the end; an operation is a run on a
    [world]: the open database, if any, and a counter of the readings made from
    outside (the clock, the random generator, the outcome of a statement).  The
    password hash (PBKDF2) and SHA-256 of mbedTLS are the class [Crypto].

    A migration adds columns; the code asks for them by name, and [columns] says
    which are there.  Times are those of the clock, in seconds, far from the
    bounds of [time_t]. *)
From Stdlib Require Import ZArith Lia Bool.
From Stdlib Require Import Strings.Byte.
From stdpp Require Import base numbers list strings relations.
From S2P Require Import Prelude.
From S2P Require Import Sql.
From S2P Require Import Libc.
From S2P Require Import Auth.
#[local] Open Scope Z_scope.

Definition SALT_LENGTH : nat := 16.
Definition SHA256_DIGEST_LENGTH : nat := 32.
Definition USER_ALLOWED_TAGS_MAX : nat := 256.

(** ** Tables *)

Record user_row := mkUserRow {
  u_id : Z;
  u_username : cstr;
  u_password_hash : cstr;
  u_salt : cstr;
  u_role : Z;
  u_email : option cstr;
  u_created_at : Z;
  u_updated_at : Z;
  u_last_login : option Z;
  u_is_active : Z;
  u_api_key : option cstr;
  u_password_change_locked : Z;
  u_totp_secret : option cstr;
  u_totp_enabled : Z;
  u_allowed_tags : option cstr;
  u_allowed_login_cidrs : option cstr
}.

Record session_row := mkSessionRow {
  s_id : Z;
  s_user_id : Z;
  s_token : cstr;
  s_created_at : Z;
  s_last_activity_at : option Z;
  s_idle_expires_at : option Z;
  s_expires_at : Z;
  s_ip_address : option cstr;
  s_user_agent : option cstr
}.

Record device_row := mkDeviceRow {
  d_id : Z;
  d_user_id : Z;
  d_token : cstr;
  d_ip_address : option cstr;
  d_user_agent : option cstr;
  d_created_at : Z;
  d_last_used_at : option Z;
  d_expires_at : Z
}.

(** Each table with the sequence of its ids. *)
Record tables := mkTables {
  users : list user_row;
  sessions : list session_row;
  devices : list device_row;
  user_seq : Z;
  session_seq : Z;
  device_seq : Z
}.

Record columns := mkColumns {
  has_ip_column : bool;
  has_ua_column : bool;
  has_last_activity_column : bool;
  has_idle_expires_column : bool;
  has_totp_secret : bool;
  has_totp_enabled : bool;
  has_allowed_tags : bool;
  has_allowed_login_cidrs : bool
}.

(** A [user_t] is in [Auth]. *)
Record session_t := mkSession {
  session_id : Z;
  session_user_id : Z;
  session_token : cstr;
  session_created_at : Z;
  session_last_activity_at : Z;
  session_idle_expires_at : Z;
  session_expires_at : Z;
  session_ip_address : cstr;
  session_user_agent : cstr
}.

Record trusted_device_t := mkTrustedDevice {
  device_id : Z;
  device_user_id : Z;
  device_token : cstr;
  device_created_at : Z;
  device_last_used_at : Z;
  device_expires_at : Z;
  device_ip_address : cstr;
  device_user_agent : cstr
}.

(** ** Statements *)

(** A value bound to a parameter. *)
Inductive sql_value := SqlInt (z : Z) | SqlText (s : cstr).

(** What a column of type [INTEGER] or [TEXT] gives back of it. *)
Definition as_integer (v : sql_value) : Z :=
  match v with
  | SqlInt z => z
  | SqlText s => match strtol10 s with Some (z, _) => z | None => 0 end
  end.

Definition as_text (v : sql_value) : cstr := match v with SqlInt z => decimal z | SqlText s => s end.

(** An assignment of an [UPDATE users SET ...]. *)
Inductive user_assignment :=
  | SetUsername (s : cstr) | SetPasswordHash (s : cstr) | SetSalt (s : cstr) | SetRole (z : Z)
  | SetEmail (s : cstr) | SetUpdatedAt (z : Z) | SetLastLogin (z : Z) | SetIsActive (z : Z)
  | SetApiKey (s : cstr) | SetPasswordChangeLocked (z : Z) | SetTotpSecret (s : option cstr)
  | SetTotpEnabled (z : Z) | SetAllowedTags (s : option cstr) | SetAllowedLoginCidrs (s : option cstr).

Definition assign_user (a : user_assignment) (u : user_row) : user_row :=
  let '(mkUserRow i n h s r e c up l ac k lk ts te tg ci) := u in
  match a with
  | SetUsername n => mkUserRow i n h s r e c up l ac k lk ts te tg ci
  | SetPasswordHash h => mkUserRow i n h s r e c up l ac k lk ts te tg ci
  | SetSalt s => mkUserRow i n h s r e c up l ac k lk ts te tg ci
  | SetRole r => mkUserRow i n h s r e c up l ac k lk ts te tg ci
  | SetEmail e => mkUserRow i n h s r (Some e) c up l ac k lk ts te tg ci
  | SetUpdatedAt up => mkUserRow i n h s r e c up l ac k lk ts te tg ci
  | SetLastLogin l => mkUserRow i n h s r e c up (Some l) ac k lk ts te tg ci
  | SetIsActive ac => mkUserRow i n h s r e c up l ac k lk ts te tg ci
  | SetApiKey k => mkUserRow i n h s r e c up l ac (Some k) lk ts te tg ci
  | SetPasswordChangeLocked lk => mkUserRow i n h s r e c up l ac k lk ts te tg ci
  | SetTotpSecret ts => mkUserRow i n h s r e c up l ac k lk ts te tg ci
  | SetTotpEnabled te => mkUserRow i n h s r e c up l ac k lk ts te tg ci
  | SetAllowedTags tg => mkUserRow i n h s r e c up l ac k lk ts te tg ci
  | SetAllowedLoginCidrs ci => mkUserRow i n h s r e c up l ac k lk ts te tg ci
  end.

Inductive session_column :=
  | ColUserId | ColToken | ColCreatedAt | ColLastActivityAt | ColIdleExpiresAt | ColExpiresAt
  | ColIpAddress | ColUserAgent.

#[global] Instance session_column_eq_dec : EqDecision session_column.
Proof. solve_decision. Defined.

Inductive session_assignment :=
  | SetLastActivityAt (z : Z) | SetIdleExpiresAt (z : Z) | SetIpAddress (s : cstr) | SetUserAgent (s : cstr).

Definition assign_session (a : session_assignment) (s : session_row) : session_row :=
  let '(mkSessionRow i u t c l d e ip ua) := s in
  match a with
  | SetLastActivityAt l => mkSessionRow i u t c (Some l) d e ip ua
  | SetIdleExpiresAt d => mkSessionRow i u t c l (Some d) e ip ua
  | SetIpAddress ip => mkSessionRow i u t c l d e (Some ip) ua
  | SetUserAgent ua => mkSessionRow i u t c l d e ip (Some ua)
  end.

(** The [WHERE] of a [DELETE]. *)
Inductive session_condition :=
  | SessionToken (token : cstr)
  | SessionUser (user : Z)
  | SessionIdUser (session user : Z)
  | SessionExpired (now : Z)
  | SessionExpiredOrIdle (now : Z).

Definition sql_less (c : option Z) (z : Z) : bool := match c with Some x => x <? z | None => false end.

Definition session_holds (w : session_condition) (s : session_row) : bool :=
  match w with
  | SessionToken token => streq (s_token s) token
  | SessionUser user => s_user_id s =? user
  | SessionIdUser session user => (s_id s =? session) && (s_user_id s =? user)
  | SessionExpired now => s_expires_at s <? now
  | SessionExpiredOrIdle now => (s_expires_at s <? now) || sql_less (s_idle_expires_at s) now
  end.

Inductive device_condition :=
  | DeviceIdUser (device user : Z)
  | DeviceExpired (now : Z).

Definition device_holds (w : device_condition) (d : device_row) : bool :=
  match w with
  | DeviceIdUser device user => (d_id d =? device) && (d_user_id d =? user)
  | DeviceExpired now => d_expires_at d <? now
  end.

Inductive statement :=
  | InsertUser (username hash salt : cstr) (role : Z) (email : cstr) (now : Z) (active : Z)
  | UpdateUser (user : Z) (sets : list user_assignment)
  | DeleteUser (user : Z)
  | InsertSession (columns : list session_column) (values : list sql_value)
  | UpdateSession (session : Z) (sets : list session_assignment)
  | DeleteSessions (where_ : session_condition)
  | InsertDevice (user : Z) (token ip ua : cstr) (now expires : Z)
  | TouchDevice (device now : Z)
  | DeleteDevices (where_ : device_condition).

(** *** What a statement does *)

(** [INSERT]: the parameters are bound by position; one without a value is
    [NULL], a value without a parameter is dropped. *)
Definition bound (columns : list session_column) (values : list sql_value) (c : session_column) : option sql_value :=
  snd <$> (list_find (λ p, p.1 = c) (zip columns values) ≫= λ p, Some p.2).

Definition session_of (i : Z) (columns : list session_column) (values : list sql_value) : option session_row :=
  let value := bound columns values in
  user ← value ColUserId; token ← value ColToken; created ← value ColCreatedAt; expires ← value ColExpiresAt;
  Some (mkSessionRow i (as_integer user) (as_text token) (as_integer created)
          (as_integer <$> value ColLastActivityAt) (as_integer <$> value ColIdleExpiresAt) (as_integer expires)
          (as_text <$> value ColIpAddress) (as_text <$> value ColUserAgent)).

Definition set_users (us : list user_row) (t : tables) : tables :=
  mkTables us (sessions t) (devices t) (user_seq t) (session_seq t) (device_seq t).
Definition set_sessions (ss : list session_row) (t : tables) : tables :=
  mkTables (users t) ss (devices t) (user_seq t) (session_seq t) (device_seq t).
Definition set_devices (ds : list device_row) (t : tables) : tables :=
  mkTables (users t) (sessions t) ds (user_seq t) (session_seq t) (device_seq t).

Definition user_exists (user : Z) (t : tables) : bool := existsb (λ u, u_id u =? user) (users t).

(** The next id, unless the sequence is exhausted. *)
Definition next_id (seq : Z) : option Z := if seq + 1 >=? 2 ^ 63 then None else Some (seq + 1).

(** [None] when a constraint is violated: [UNIQUE], [NOT NULL] or the foreign
    key.  A deleted user takes the sessions and the devices along. *)
Definition apply_statement (s : statement) (t : tables) : option tables :=
  match s with
  | InsertUser username hash salt role email now active =>
      if existsb (λ u, streq (u_username u) username) (users t) then None else
      i ← next_id (user_seq t);
      Some (mkTables (users t ++ [mkUserRow i username hash salt role (Some email) now now None active None 0 None 0 None None])
              (sessions t) (devices t) i (session_seq t) (device_seq t))
  | UpdateUser user sets =>
      let us := (λ u, if u_id u =? user then foldl (flip assign_user) u sets else u) <$> users t in
      if decide (NoDup (u_username <$> us)) then Some (set_users us t) else None
  | DeleteUser user =>
      Some (mkTables (filter (λ u, u_id u ≠ user) (users t)) (filter (λ s, s_user_id s ≠ user) (sessions t))
              (filter (λ d, d_user_id d ≠ user) (devices t)) (user_seq t) (session_seq t) (device_seq t))
  | InsertSession columns values =>
      i ← next_id (session_seq t);
      s ← session_of i columns values;
      if existsb (λ x, streq (s_token x) (s_token s)) (sessions t) then None else
      if user_exists (s_user_id s) t
      then Some (mkTables (users t) (sessions t ++ [s]) (devices t) (user_seq t) i (device_seq t)) else None
  | UpdateSession session sets =>
      Some (set_sessions ((λ s, if s_id s =? session then foldl (flip assign_session) s sets else s) <$> sessions t) t)
  | DeleteSessions w => Some (set_sessions (filter (λ s, session_holds w s = false) (sessions t)) t)
  | InsertDevice user token ip ua now expires =>
      i ← next_id (device_seq t);
      if existsb (λ x, streq (d_token x) token) (devices t) then None else
      if user_exists user t
      then Some (mkTables (users t) (sessions t) (devices t ++ [mkDeviceRow i user token (Some ip) (Some ua) now (Some now) expires])
                   (user_seq t) (session_seq t) i) else None
  | TouchDevice device now =>
      Some (set_devices ((λ d, if d_id d =? device
        then mkDeviceRow (d_id d) (d_user_id d) (d_token d) (d_ip_address d) (d_user_agent d) (d_created_at d) (Some now) (d_expires_at d)
        else d) <$> devices t) t)
  | DeleteDevices w => Some (set_devices (filter (λ d, device_holds w d = false) (devices t)) t)
  end.

(** [sqlite3_changes] of a [DELETE]: cascades do not count. *)
Definition deleted_rows (s : statement) (t : tables) : Z :=
  match s with
  | DeleteSessions w => Z.of_nat (length (filter (λ s, session_holds w s = true) (sessions t)))
  | DeleteDevices w => Z.of_nat (length (filter (λ d, device_holds w d = true) (devices t)))
  | _ => 0
  end.

(** ** The world *)

Record world := mkWorld { store : option tables; readings : nat }.

(** mbedTLS; digests have their length. *)
Class Crypto := {
  pbkdf2 : cstr → list byte → list byte;      (** HMAC-SHA-256, 10000 iterations, 32 bytes *)
  sha256 : cstr → list byte
}.

Class CryptoLaws `{Crypto} := {
  pbkdf2_length p s : length (pbkdf2 p s) = SHA256_DIGEST_LENGTH;
  sha256_length s : length (sha256 s) = SHA256_DIGEST_LENGTH
}.

(** What is read from outside, by the number of the reading; the schema, and
    the members of [g_config] that are read. *)
Class Environment := {
  sql_at : nat → sql_run;
  time_at : nat → Z;
  random_at : nat → nat → option (list byte);   (** reading, number of bytes; [None] when the generator fails *)
  hashing_at : nat → bool;                      (** whether [mbedtls_pkcs5_pbkdf2_hmac] succeeds *)
  stack_at : nat → list byte;                   (** what an array of [SALT_LENGTH] bytes holds before it is written *)
  schema : columns;
  auth_absolute_timeout_hours : Z;
  auth_timeout_hours : Z;
  trusted_device_days : Z;
  web_password : cstr
}.

Class EnvironmentLaws `{Environment} := {
  random_length n k b : random_at n k = Some b → length b = k;
  stack_length n : length (stack_at n) = SALT_LENGTH
}.

Definition M (A : Type) : Type := world → A * world.

#[global] Instance M_ret : MRet M := λ A a w, (a, w).
#[global] Instance M_bind : MBind M := λ A B k m w, let '(a, w) := m w in k a w.

Section operations.
Context {CR : Crypto} {EN : Environment} {SQ : Sqlite} {IC : InetConversions}.

(** An action given by its effect. *)
Definition action {A} (f : world → A * world) : M A := f.

Definition tick : M nat := λ w, (readings w, mkWorld (store w) (S (readings w))).
Definition time : M Z := n ← tick; mret (time_at n).

(** [if (!get_db_handle ()) return fail;] *)
Definition with_db {A} (fail : A) (k : M A) : M A :=
  λ w, match store w with None => (fail, w) | Some _ => k w end.

(** A query: [None] when it cannot be prepared, else the rows that come. *)
Definition query {A} (rows : tables → list A) : M (option (list A)) :=
  n ← tick;
  action (λ w, (match sql_at n, store w with
                | PrepareFails, _ | _, None => None
                | r, Some t => Some (delivered r (rows t))
                end, w)).

(** A statement that changes rows: the rows that it deletes, [None] unless it
    is [SQLITE_DONE].  One that fails leaves the tables alone. *)
Definition execute (s : statement) : M (option Z) :=
  n ← tick;
  action (λ w, match sql_at n, store w with
               | Completes, Some t =>
                   match apply_statement s t with
                   | Some t' => (Some (deleted_rows s t), mkWorld (Some t') (readings w))
                   | None => (None, w)
                   end
               | _, _ => (None, w)
               end).

(** 0 for [SQLITE_DONE], else -1. *)
Definition status (r : option Z) : Z := match r with Some _ => 0 | None => -1 end.

(** ** Helpers *)

Definition select_users (where_ : user_row → bool) (t : tables) : list user_row :=
  filter (λ u, where_ u = true) (users t).

Definition prepare_user_lookup_stmt (where_ : user_row → bool) : M (option (list user_row)) :=
  query (select_users where_).

Definition populate_user_from_stmt (u : user_row) : user_t :=
  let allowed_tags := if has_allowed_tags schema then default [] (u_allowed_tags u) else [] in
  let cidrs := if has_allowed_login_cidrs schema then default [] (u_allowed_login_cidrs u) else [] in
  mkUser (u_id u) (strcpy_trunc 64 (u_username u)) (strcpy_trunc 128 (default [] (u_email u))) (u_role u)
    (strcpy_trunc 64 (default [] (u_api_key u))) (u_created_at u) (u_updated_at u) (default 0 (u_last_login u))
    (negb (u_is_active u =? 0)) (negb (u_password_change_locked u =? 0))
    (has_totp_enabled schema && negb (u_totp_enabled u =? 0))
    (strcpy_trunc USER_ALLOWED_TAGS_MAX allowed_tags) (negb (empty allowed_tags))
    (strcpy_trunc USER_ALLOWED_LOGIN_CIDRS_MAX cidrs) (negb (empty cidrs)).

Definition charset : cstr := lit "abcdefghijklmnopqrstuvwxyzABCDEFGHIJKLMNOPQRSTUVWXYZ0123456789".

Definition random_char (b : byte) : byte := default Byte.x00 (charset !! Z.to_nat (byte_Z b `mod` 62)).

Definition random_text (b : list byte) : cstr := random_char <$> b.

Definition generate_random_string (length : nat) : M (option cstr) :=
  n ← tick; mret (random_text <$> random_at n length).

Definition hash_password (password : cstr) (salt : list byte) : M (option (list byte)) :=
  n ← tick; mret (if hashing_at n then Some (pbkdf2 password salt) else None).

Definition hash_token_identifier (token : option cstr) (token_hash_size : nat) : option cstr :=
  match token with
  | None | Some [] => None
  | Some token =>
      if (token_hash_size <? SHA256_DIGEST_LENGTH * 2 + 1)%nat then None
      else bin_to_hex (sha256 token) token_hash_size
  end.

(** A new salt and the hash of the password with it, in hexadecimal. *)
Definition new_password (password : cstr) : M (option (cstr * cstr)) :=
  n ← tick;
  match random_at n SALT_LENGTH with
  | None => mret None
  | Some salt =>
      match bin_to_hex salt (SALT_LENGTH * 2 + 1) with
      | None => mret None
      | Some salt_hex =>
          hash ← hash_password password salt;
          mret (match hash with
                | None => None
                | Some hash => hash_hex ← bin_to_hex hash (SHA256_DIGEST_LENGTH * 2 + 1); Some (salt_hex, hash_hex)
                end)
      end
  end.

(** Whether the password is that of the row; [None] is a write out of bounds. *)
Definition check_password (hash_hex salt_hex password : cstr) : M (option bool) :=
  n ← tick;
  match hex_to_bin salt_hex (stack_at n) with
  | None => mret None
  | Some None => mret (Some false)
  | Some (Some salt) =>
      hash ← hash_password password salt;
      mret (Some (match hash with
                  | None => false
                  | Some hash =>
                      match bin_to_hex hash (SHA256_DIGEST_LENGTH * 2 + 1) with
                      | None => false
                      | Some computed_hash_hex => streq hash_hex computed_hash_hex
                      end
                  end))
  end.

Definition user_named (username : cstr) (u : user_row) : bool := streq (u_username u) username.
Definition user_numbered (user_id : Z) (u : user_row) : bool := u_id u =? user_id.
Definition user_keyed (key : cstr) (u : user_row) : bool := sql_text_is (u_api_key u) key.

(** ** Users *)

(** The id of the new user, [None] for -1. *)
Definition db_auth_create_user (username password email : option cstr) (role : Z) (is_active : bool) : M (option Z) :=
  match username, password with
  | Some username, Some password =>
      with_db None (
        existing ← query (select_users (user_named username));
        match existing with
        | None | Some (_ :: _) => mret None
        | Some [] =>
            p ← new_password password;
            match p with
            | None => mret None
            | Some (salt_hex, hash_hex) =>
                now ← time;
                r ← execute (InsertUser username hash_hex salt_hex role (default [] email) now (if is_active then 1 else 0));
                match r with
                | None => mret None
                | Some _ => action (λ w, (user_seq <$> store w, w))   (* sqlite3_last_insert_rowid *)
                end
            end
        end)
  | _, _ => mret None
  end.

Definition db_auth_update_user (user_id : Z) (username email : option cstr) (role is_active : Z) : M Z :=
  with_db (-1) (
    found ← query (select_users (user_numbered user_id));
    match found with
    | None | Some [] => mret (-1)
    | Some (_ :: _) =>
        clash ← match username with
                | None => mret (Some [])
                | Some username => query (select_users (λ u, user_named username u && negb (user_numbered user_id u)))
                end;
        match clash with
        | None => mret (-1)
        | Some (_ :: _) => mret (-2)
        | Some [] =>
            now ← time;
            r ← execute (UpdateUser user_id
                  (SetUpdatedAt now :: option_list (SetUsername <$> username) ++ option_list (SetEmail <$> email) ++
                   (if role >=? 0 then [SetRole role] else []) ++
                   (if is_active >=? 0 then [SetIsActive (if is_active =? 0 then 0 else 1)] else [])));
            mret (status r)
        end
    end).

Definition db_auth_change_password (user_id : Z) (new_password_ : option cstr) : M Z :=
  match new_password_ with
  | None => mret (-1)
  | Some password =>
      with_db (-1) (
        found ← query (select_users (user_numbered user_id));
        match found with
        | None | Some [] => mret (-1)
        | Some (u :: _) =>
            if negb (u_password_change_locked u =? 0) then mret (-2) else
            p ← new_password password;
            match p with
            | None => mret (-1)
            | Some (salt_hex, hash_hex) =>
                now ← time;
                r ← execute (UpdateUser user_id [SetPasswordHash hash_hex; SetSalt salt_hex; SetUpdatedAt now]);
                mret (status r)
            end
        end)
  end.

Definition db_auth_delete_user (user_id : Z) : M Z :=
  with_db (-1) (
    found ← query (select_users (user_numbered user_id));
    match found with
    | None | Some [] => mret (-1)
    | Some (_ :: _) => r ← execute (DeleteUser user_id); mret (status r)
    end).

Definition get_user (where_ : user_row → bool) : M (option user_t) :=
  with_db None (
    found ← prepare_user_lookup_stmt where_;
    mret (match found with
          | None | Some [] => None
          | Some (u :: _) => Some (populate_user_from_stmt u)
          end)).

Definition db_auth_get_user_by_id (user_id : Z) : M (option user_t) := get_user (user_numbered user_id).

Definition db_auth_get_user_by_username (username : option cstr) : M (option user_t) :=
  match username with None => mret None | Some username => get_user (user_named username) end.

Definition db_auth_get_user_by_api_key (api_key : option cstr) : M (option user_t) :=
  match api_key with None => mret None | Some key => get_user (user_keyed key) end.

(** The key. *)
Definition db_auth_generate_api_key (user_id : Z) (api_key_size : nat) : M (option cstr) :=
  if (api_key_size <? 33)%nat then mret None else
  with_db None (
    found ← query (select_users (user_numbered user_id));
    match found with
    | None | Some [] => mret None
    | Some (_ :: _) =>
        key ← generate_random_string 32;
        match key with
        | None => mret None
        | Some key =>
            now ← time;
            r ← execute (UpdateUser user_id [SetApiKey key; SetUpdatedAt now]);
            mret ((λ _, key) <$> r)
        end
    end).

Definition db_auth_init : M Z :=
  found ← db_auth_get_user_by_username (Some (lit "admin"));
  match found with
  | Some _ => mret 0
  | None =>
      let initial_password := if negb (empty web_password) then web_password else lit "admin" in
      r ← db_auth_create_user (Some (lit "admin")) (Some initial_password) None USER_ROLE_ADMIN true;
      mret (match r with Some _ => 0 | None => -1 end)
  end.

(** [None] is undefined behaviour, [Some None] is -1. *)
Definition db_auth_authenticate (username password : option cstr) : M (option (option Z)) :=
  match username, password with
  | Some username, Some password =>
      with_db (Some None) (
        found ← query (select_users (user_named username));
        match found with
        | None | Some [] => mret (Some None)
        | Some (u :: _) =>
            if u_is_active u =? 0 then mret (Some None) else
            ok ← check_password (u_password_hash u) (u_salt u) password;
            match ok with
            | None => mret None
            | Some false => mret (Some None)
            | Some true =>
                now ← time;
                _ ← execute (UpdateUser (u_id u) [SetLastLogin now]);
                mret (Some (Some (u_id u)))
            end
        end)
  | _, _ => mret (Some None)
  end.

Definition db_auth_verify_password (user_id : Z) (password : option cstr) : M (option Z) :=
  match password with
  | None => mret (Some (-1))
  | Some password =>
      with_db (Some (-1)) (
        found ← query (select_users (user_numbered user_id));
        match found with
        | None | Some [] => mret (Some (-1))
        | Some (u :: _) =>
            if u_is_active u =? 0 then mret (Some (-1)) else
            ok ← check_password (u_password_hash u) (u_salt u) password;
            mret ((λ ok : bool, if ok then 0 else -1) <$> ok)
        end)
  end.

Definition db_auth_set_password_lock (user_id : Z) (locked : bool) : M Z :=
  with_db (-1) (
    now ← time;
    r ← execute (UpdateUser user_id [SetPasswordChangeLocked (if locked then 1 else 0); SetUpdatedAt now]);
    mret (status r)).

(** ** Sessions *)

(** The columns of the [INSERT] and the values bound to its parameters: they
    do not agree for every schema. *)
Definition session_columns (c : columns) : list session_column :=
  if has_ip_column c && has_ua_column c && has_last_activity_column c && has_idle_expires_column c
  then [ColUserId; ColToken; ColCreatedAt; ColLastActivityAt; ColIdleExpiresAt; ColExpiresAt; ColIpAddress; ColUserAgent]
  else if has_ip_column c && has_ua_column c then [ColUserId; ColToken; ColCreatedAt; ColExpiresAt; ColIpAddress; ColUserAgent]
  else if has_ip_column c && negb (has_ua_column c) then [ColUserId; ColToken; ColCreatedAt; ColExpiresAt; ColIpAddress]
  else if negb (has_ip_column c) && has_ua_column c then [ColUserId; ColToken; ColCreatedAt; ColExpiresAt; ColUserAgent]
  else [ColUserId; ColToken; ColCreatedAt; ColExpiresAt].

Definition session_values (c : columns) (user_id : Z) (token : cstr) (now idle_expires_at expires_at : Z)
    (ip_address user_agent : option cstr) : list sql_value :=
  [SqlInt user_id; SqlText token; SqlInt now] ++
  (if has_last_activity_column c && has_idle_expires_column c then [SqlInt now; SqlInt idle_expires_at] else []) ++
  [SqlInt expires_at] ++
  (if has_ip_column c then [SqlText (default [] ip_address)] else []) ++
  (if has_ua_column c then [SqlText (default [] user_agent)] else []).

(** The token. *)
Definition db_auth_create_session (user_id : Z) (ip_address user_agent : option cstr) (expiry_seconds : Z)
    (token_size : nat) : M (option cstr) :=
  if (token_size <? 33)%nat then mret None else
  with_db None (
    found ← query (select_users (user_numbered user_id));
    match found with
    | None | Some [] => mret None
    | Some (_ :: _) =>
        token ← generate_random_string 32;
        match token with
        | None => mret None
        | Some token =>
            now ← time;
            let absolute_expiry := if expiry_seconds >? 0 then expiry_seconds
                                   else default_session_absolute_expiry_seconds auth_absolute_timeout_hours in
            let idle_expiry := if expiry_seconds >? 0 then expiry_seconds
                               else default_session_idle_expiry_seconds auth_timeout_hours in
            r ← execute (InsertSession (session_columns schema)
                  (session_values schema user_id token now (now + idle_expiry) (now + absolute_expiry) ip_address user_agent));
            mret ((λ _, token) <$> r)
        end
    end).

Definition has_tracking_columns : bool := has_idle_expires_column schema && has_last_activity_column schema.

(** [FROM sessions s JOIN users u ON s.user_id = u.id WHERE s.token = ?] *)
Definition session_join (token : cstr) (t : tables) : list (session_row * user_row) :=
  s ← filter (λ s, streq (s_token s) token = true) (sessions t);
  u ← filter (λ u, u_id u = s_user_id s) (users t);
  [(s, u)].

(** Whether the address and the user agent of the session are to be updated. *)
Definition client_context (session : Z) (ip_address user_agent : option cstr) : M (bool * bool) :=
  if (has_ip_column schema && bool_decide (is_Some ip_address)) || (has_ua_column schema && bool_decide (is_Some user_agent)) then
    found ← query (λ t, filter (λ s, s_id s = session) (sessions t));
    mret (match found with
          | Some (s :: _) =>
              (has_ip_column schema && tracking_value_differs (Some (default [] (s_ip_address s))) ip_address,
               has_ua_column schema && tracking_value_differs (Some (default [] (s_user_agent s))) user_agent)
          | _ => (false, false)
          end)
  else mret (false, false).

(** The user of the session. *)
Definition db_auth_validate_session_with_context (token ip_address user_agent : option cstr) : M (option Z) :=
  match token with
  | None => mret None
  | Some token =>
      with_db None (
        found ← query (session_join token);
        match found with
        | None | Some [] => mret None
        | Some ((s, u) :: _) =>
            now ← time;
            let expires_at := s_expires_at s in
            let idle_expires_at := if has_idle_expires_column schema then default 0 (s_idle_expires_at s) else expires_at in
            let last_activity_at := if has_tracking_columns then default (s_created_at s) (s_last_activity_at s) else 0 in
            if (now >? expires_at) || (now >? idle_expires_at) then mret None else
            if u_is_active u =? 0 then mret None else
            '(update_ip, update_ua) ← client_context (s_id s) ip_address user_agent;
            let refresh_tracking := has_tracking_columns && should_refresh_session_tracking now last_activity_at idle_expires_at in
            if refresh_tracking || update_ip || update_ua then
              let idle := now + default_session_idle_expiry_seconds auth_timeout_hours in
              let new_idle_expires_at := if idle >? expires_at then expires_at else idle in
              _ ← execute (UpdateSession (s_id s)
                    ((if refresh_tracking then [SetLastActivityAt now; SetIdleExpiresAt new_idle_expires_at] else []) ++
                     (if update_ip then [SetIpAddress (default [] ip_address)] else []) ++
                     (if update_ua then [SetUserAgent (default [] user_agent)] else [])));
              mret (Some (s_user_id s))
            else mret (Some (s_user_id s))
        end)
  end.

Definition db_auth_validate_session (token : option cstr) : M (option Z) :=
  db_auth_validate_session_with_context token None None.

Definition db_auth_delete_session (token : option cstr) : M Z :=
  match token with
  | None => mret (-1)
  | Some token => with_db (-1) (r ← execute (DeleteSessions (SessionToken token)); mret (status r))
  end.

Definition db_auth_delete_user_sessions (user_id : Z) : M Z :=
  with_db (-1) (r ← execute (DeleteSessions (SessionUser user_id)); mret (status r)).

(** The number of sessions deleted, or -1. *)
Definition db_auth_cleanup_sessions : M Z :=
  with_db (-1) (
    now ← time;
    r ← execute (DeleteSessions (if has_idle_expires_column schema then SessionExpiredOrIdle now else SessionExpired now));
    match r with
    | None => mret (-1)
    | Some deleted => _ ← execute (DeleteDevices (DeviceExpired now)); mret deleted
    end).

Definition session_live (user_id now : Z) (s : session_row) : bool :=
  (s_user_id s =? user_id) && (s_expires_at s >=? now) &&
  (negb (has_idle_expires_column schema) ||
   match s_idle_expires_at s with None => true | Some d => d >=? now end).

Definition session_activity (s : session_row) : Z :=
  if has_idle_expires_column schema && has_last_activity_column schema
  then default (s_created_at s) (s_last_activity_at s) else s_created_at s.

Definition read_session (s : session_row) : session_t :=
  mkSession (s_id s) (s_user_id s) (strcpy_trunc 128 (s_token s)) (s_created_at s) (session_activity s)
    (if has_idle_expires_column schema then default (s_expires_at s) (s_idle_expires_at s) else s_expires_at s)
    (s_expires_at s) (strcpy_trunc 46 (default [] (s_ip_address s))) (strcpy_trunc 256 (default [] (s_user_agent s))).

(** The sessions written, [None] for -1.  The statement names [ip_address] and
    [user_agent] whatever the schema. *)
Definition db_auth_list_user_sessions (user_id : Z) (sessions_ : bool) (max_count : Z) : M (option (list session_t)) :=
  if negb sessions_ || (max_count <=? 0) then mret (Some []) else
  with_db None (
    now ← time;
    if negb (has_ip_column schema && has_ua_column schema) then mret None else
    found ← query (λ t, take (Z.to_nat max_count)
              (order_by (λ s, desc (Some (session_activity s))) (filter (λ s, session_live user_id now s = true) (sessions t))));
    mret ((λ rows, read_session <$> take (Z.to_nat max_count) rows) <$> found)).

Definition db_auth_delete_session_by_id (user_id session_id : Z) : M Z :=
  with_db (-1) (
    r ← execute (DeleteSessions (SessionIdUser session_id user_id));
    mret (match r with Some changes => if changes >? 0 then 0 else -1 | None => -1 end)).

(** ** Trusted devices *)

(** The token. *)
Definition db_auth_create_trusted_device (user_id : Z) (ip_address user_agent : option cstr) (expiry_seconds : Z)
    (token_size : nat) : M (option cstr) :=
  if (token_size <? 33)%nat then mret None else
  with_db None (
    token ← generate_random_string 32;
    match token with
    | None => mret None
    | Some token =>
        match hash_token_identifier (Some token) (SHA256_DIGEST_LENGTH * 2 + 1) with
        | None => mret None
        | Some token_hash =>
            now ← time;
            let lifetime := if expiry_seconds >? 0 then expiry_seconds
                            else default_trusted_device_expiry_seconds trusted_device_days in
            r ← execute (InsertDevice user_id token_hash (default [] ip_address) (default [] user_agent) now (now + lifetime));
            mret ((λ _, token) <$> r)
        end
    end).

(** The id and the expiry. *)
Definition lookup_trusted_device (user_id : Z) (token : option cstr) : M (option (Z * Z)) :=
  match hash_token_identifier token (SHA256_DIGEST_LENGTH * 2 + 1) with
  | None => mret None
  | Some token_hash =>
      found ← query (λ t, filter (λ d, d_user_id d = user_id ∧ d_token d = token_hash) (devices t));
      mret (match found with
            | Some (d :: _) => Some (d_id d, d_expires_at d)
            | _ => None
            end)
  end.

Definition db_auth_delete_trusted_device_by_id (user_id trusted_device_id : Z) : M Z :=
  with_db (-1) (
    r ← execute (DeleteDevices (DeviceIdUser trusted_device_id user_id));
    mret (match r with Some changes => if changes >? 0 then 0 else -1 | None => -1 end)).

Definition db_auth_get_trusted_device_id (user_id : Z) (token : option cstr) : M (option Z) :=
  with_db None (
    found ← lookup_trusted_device user_id token;
    match found with
    | None => mret None
    | Some (resolved_id, expires_at) =>
        now ← time;
        if now >? expires_at then _ ← db_auth_delete_trusted_device_by_id user_id resolved_id; mret None
        else mret (Some resolved_id)
    end).

Definition db_auth_validate_trusted_device (user_id : Z) (token : option cstr) : M Z :=
  match token with
  | None | Some [] => mret (-1)
  | Some _ =>
      with_db (-1) (
        found ← db_auth_get_trusted_device_id user_id token;
        match found with
        | None => mret (-1)
        | Some trusted_id =>
            now ← time;
            _ ← execute (TouchDevice trusted_id now);
            mret 0
        end)
  end.

Definition read_device (d : device_row) : trusted_device_t :=
  mkTrustedDevice (d_id d) (d_user_id d) [] (d_created_at d) (default (d_created_at d) (d_last_used_at d)) (d_expires_at d)
    (strcpy_trunc 46 (default [] (d_ip_address d))) (strcpy_trunc 256 (default [] (d_user_agent d))).

Definition db_auth_list_trusted_devices (user_id : Z) (devices_ : bool) (max_count : Z) : M (option (list trusted_device_t)) :=
  if negb devices_ || (max_count <=? 0) then mret (Some []) else
  with_db None (
    now ← time;
    found ← query (λ t, take (Z.to_nat max_count)
              (order_by (λ d, desc (Some (default (d_created_at d) (d_last_used_at d))))
                 (filter (λ d, d_user_id d = user_id ∧ now ≤ d_expires_at d) (devices t))));
    mret ((λ rows, read_device <$> take (Z.to_nat max_count) rows) <$> found)).

(** ** Settings of a user *)

(** The return code, the secret and whether it is enabled. *)
Definition db_auth_get_totp_info (user_id : Z) (secret enabled : bool) (secret_size : nat) : M (Z * cstr * bool) :=
  if negb secret || negb enabled || (secret_size =? 0)%nat then mret (-1, [], false) else
  with_db (-1, [], false) (
    if negb (has_totp_secret schema) || negb (has_totp_enabled schema) then mret (-1, [], false) else
    found ← query (select_users (user_numbered user_id));
    mret (match found with
          | None | Some [] => (-1, [], false)
          | Some (u :: _) =>
              let secret := strcpy_trunc secret_size (default [] (u_totp_secret u)) in
              (if empty secret then -1 else 0, secret, negb (u_totp_enabled u =? 0))
          end)).

Definition db_auth_set_totp_secret (user_id : Z) (secret : option cstr) : M Z :=
  with_db (-1) (
    if negb (has_totp_secret schema) then mret (-1) else
    now ← time;
    r ← execute (UpdateUser user_id [SetTotpSecret secret; SetUpdatedAt now]);
    mret (status r)).

Definition db_auth_enable_totp (user_id : Z) (enabled : bool) : M Z :=
  with_db (-1) (
    if negb (has_totp_enabled schema) then mret (-1) else
    now ← time;
    r ← execute (UpdateUser user_id [SetTotpEnabled (if enabled then 1 else 0); SetUpdatedAt now]);
    mret (status r)).

Definition db_auth_set_allowed_tags (user_id : Z) (allowed_tags : option cstr) : M Z :=
  with_db (-1) (
    if negb (has_allowed_tags schema) then mret (-1) else
    now ← time;
    r ← execute (UpdateUser user_id [SetAllowedTags allowed_tags; SetUpdatedAt now]);
    mret (status r)).

Definition db_auth_validate_allowed_login_cidrs (allowed_login_cidrs : option cstr) : Z :=
  match normalize_allowed_login_cidrs allowed_login_cidrs USER_ALLOWED_LOGIN_CIDRS_MAX with
  | Some _ => 0
  | None => -1
  end.

Definition db_auth_set_allowed_login_cidrs (user_id : Z) (allowed_login_cidrs : option cstr) : M Z :=
  with_db (-1) (
    if negb (has_allowed_login_cidrs schema) then mret (-1) else
    match normalize_allowed_login_cidrs allowed_login_cidrs USER_ALLOWED_LOGIN_CIDRS_MAX with
    | None => mret (-1)
    | Some (normalized, has_entries) =>
        now ← time;
        r ← execute (UpdateUser user_id [SetAllowedLoginCidrs (if has_entries then Some normalized else None); SetUpdatedAt now]);
        mret (status r)
    end).
End operations.

(** ** Calls

    One constructor per entry point that can change the tables; queries change
    nothing.  A history is a list of them. *)
Inductive call :=
  | CallInit
  | CallCreateUser (username password email : option cstr) (role : Z) (is_active : bool)
  | CallUpdateUser (user_id : Z) (username email : option cstr) (role is_active : Z)
  | CallChangePassword (user_id : Z) (password : option cstr)
  | CallDeleteUser (user_id : Z)
  | CallGenerateApiKey (user_id : Z) (size : nat)
  | CallAuthenticate (username password : option cstr)
  | CallSetPasswordLock (user_id : Z) (locked : bool)
  | CallCreateSession (user_id : Z) (ip ua : option cstr) (expiry_seconds : Z) (size : nat)
  | CallValidateSession (token ip ua : option cstr)
  | CallDeleteSession (token : option cstr)
  | CallDeleteUserSessions (user_id : Z)
  | CallDeleteSessionById (user_id session_id : Z)
  | CallCleanupSessions
  | CallCreateTrustedDevice (user_id : Z) (ip ua : option cstr) (expiry_seconds : Z) (size : nat)
  | CallGetTrustedDeviceId (user_id : Z) (token : option cstr)
  | CallValidateTrustedDevice (user_id : Z) (token : option cstr)
  | CallDeleteTrustedDeviceById (user_id device_id : Z)
  | CallSetTotpSecret (user_id : Z) (secret : option cstr)
  | CallEnableTotp (user_id : Z) (enabled : bool)
  | CallSetAllowedTags (user_id : Z) (tags : option cstr)
  | CallSetAllowedLoginCidrs (user_id : Z) (cidrs : option cstr).

Section runs.
Context {CR : Crypto} {EN : Environment} {SQ : Sqlite} {IC : InetConversions}.

Definition returned {A} (o : option A) : Z := match o with Some _ => 0 | None => -1 end.

(** The return code; undefined behaviour shows as -1. *)
Definition perform (c : call) : M Z :=
  match c with
  | CallInit => db_auth_init
  | CallCreateUser n p e r a => x ← db_auth_create_user n p e r a; mret (returned x)
  | CallUpdateUser i n e r a => db_auth_update_user i n e r a
  | CallChangePassword i p => db_auth_change_password i p
  | CallDeleteUser i => db_auth_delete_user i
  | CallGenerateApiKey i n => x ← db_auth_generate_api_key i n; mret (returned x)
  | CallAuthenticate n p => x ← db_auth_authenticate n p; mret (returned (mjoin x))
  | CallSetPasswordLock i b => db_auth_set_password_lock i b
  | CallCreateSession i ip ua e n => x ← db_auth_create_session i ip ua e n; mret (returned x)
  | CallValidateSession t ip ua => x ← db_auth_validate_session_with_context t ip ua; mret (returned x)
  | CallDeleteSession t => db_auth_delete_session t
  | CallDeleteUserSessions i => db_auth_delete_user_sessions i
  | CallDeleteSessionById i s => db_auth_delete_session_by_id i s
  | CallCleanupSessions => db_auth_cleanup_sessions
  | CallCreateTrustedDevice i ip ua e n => x ← db_auth_create_trusted_device i ip ua e n; mret (returned x)
  | CallGetTrustedDeviceId i t => x ← db_auth_get_trusted_device_id i t; mret (returned x)
  | CallValidateTrustedDevice i t => db_auth_validate_trusted_device i t
  | CallDeleteTrustedDeviceById i d => db_auth_delete_trusted_device_by_id i d
  | CallSetTotpSecret i s => db_auth_set_totp_secret i s
  | CallEnableTotp i b => db_auth_enable_totp i b
  | CallSetAllowedTags i t => db_auth_set_allowed_tags i t
  | CallSetAllowedLoginCidrs i l => db_auth_set_allowed_login_cidrs i l
  end.

Definition run (cs : list call) (w : world) : world := foldl (λ w c, (perform c w).2) w cs.

(** ** What an operation may execute *)

(** One statement that satisfies [P] ran to its end. *)
Definition executed (P : statement → Prop) (o o' : option tables) : Prop :=
  ∃ s t t', P s ∧ o = Some t ∧ apply_statement s t = Some t' ∧ o' = Some t'.

(** From a world with at least [lo] readings behind it, [m] executes statements
    that satisfy [P] and returns a value that satisfies [Q]. *)
Definition runs (lo : nat) {A} (m : M A) (P : statement → Prop) (Q : A → Prop) : Prop :=
  ∀ w, (lo ≤ readings w)%nat →
    rtc (executed P) (store w) (store (m w).2) ∧ (readings w ≤ readings (m w).2)%nat ∧ Q (m w).1.

Lemma runs_ret lo {A} (a : A) P (Q : A → Prop) : Q a → runs lo (mret a) P Q.
Proof. intros Ha w Hw. split_and!; [done|simpl; lia|done]. Qed.

Lemma runs_bind lo {A B} (m : M A) (k : A → M B) P Q (R : B → Prop) :
  runs lo m P Q → (∀ a, Q a → runs lo (k a) P R) → runs lo (m ≫= k) P R.
Proof.
  intros Hm Hk w Hw. destruct (Hm w Hw) as (Hs & Hr & Ha). unfold mbind, M_bind.
  destruct (m w) as [a w1]. destruct (Hk a Ha w1) as (Hs' & Hr' & Hb); [simpl in *; lia|].
  split_and!; [by etrans|simpl in *; lia|done].
Qed.

Lemma runs_weaken lo {A} (m : M A) (P P' : statement → Prop) (Q Q' : A → Prop) :
  runs lo m P Q → (∀ s, P s → P' s) → (∀ a, Q a → Q' a) → runs lo m P' Q'.
Proof.
  intros Hm HP HQ w Hw. destruct (Hm w Hw) as (Hs & Hr & Ha). split_and!; [|done|by apply HQ].
  eapply rtc_subrel; [|exact Hs]. intros o o' (s & t & t' & ? & ?). exists s, t, t'. naive_solver.
Qed.

Lemma runs_tick lo P : runs lo tick P (λ n, (lo ≤ n)%nat).
Proof. intros w Hw. split_and!; simpl; [done|lia|lia]. Qed.

Lemma runs_time lo P : runs lo time P (λ _, True).
Proof. eapply runs_bind; [apply runs_tick|]. intros. by apply runs_ret. Qed.

Lemma runs_with_db lo {A} (fail : A) (k : M A) P (Q : A → Prop) : Q fail → runs lo k P Q → runs lo (with_db fail k) P Q.
Proof. intros Hf Hk w Hw. unfold with_db. destruct (store w) eqn:E; [rewrite <-E; by apply Hk|]. simpl. rewrite E. split_and!; [done|lia|done]. Qed.

Lemma runs_query lo {A} (rows : tables → list A) P : runs lo (query rows) P (λ _, True).
Proof. eapply runs_bind; [apply runs_tick|]. intros n _ w Hw. simpl. split_and!; [done|lia|done]. Qed.

Lemma runs_execute lo s (P : statement → Prop) : P s → runs lo (execute s) P (λ _, True).
Proof.
  intros Hs. eapply runs_bind; [apply runs_tick|]. intros n _ w Hw. unfold action.
  destruct (sql_at n); [split_and!; simpl; (done || lia)..|].
  destruct (store w) as [t|] eqn:Et; [|simpl; rewrite Et; split_and!; (done || lia)].
  destruct (apply_statement s t) as [t'|] eqn:E; [|simpl; rewrite Et; split_and!; (done || lia)].
  split_and!; simpl; [|lia|done]. apply rtc_once. by exists s, t, t'.
Qed.
End runs.

(** The text of an operation, applied to a world. *)
Ltac run_monad := cbv [mbind M_bind mret M_ret]; cbn [store readings].

(** One step through the text of an operation; [runs_helpers] has the helpers. *)
Create HintDb runs_helpers discriminated.

Ltac run_step :=
  match goal with
  | |- runs _ _ _ _ => solve [eauto 2 with runs_helpers nocore]
  | |- runs _ (mret _) _ _ => apply runs_ret
  | |- runs _ (with_db _ _) _ _ => apply runs_with_db
  | |- runs _ time _ _ => apply runs_time
  | |- runs _ tick _ _ => apply runs_tick
  | |- runs _ (query _) _ _ => apply runs_query
  | |- runs _ (execute _) _ _ => apply runs_execute
  | |- runs _ (_ ≫= _) _ _ => eapply runs_bind; [|intros ? ?]
  | |- runs _ (match ?x with _ => _ end) _ _ => destruct x eqn:?
  | |- runs _ (let '(_, _) := ?x in _) _ _ => destruct x eqn:?
  end.

(** Operations of whose values nothing is said. *)
Lemma runs_bind_any lo {A B} (m : M A) (k : A → M B) P :
  runs lo m P (λ _, True) → (∀ a, runs lo (k a) P (λ _, True)) → runs lo (m ≫= k) P (λ _, True).
Proof. intros Hm Hk. by eapply runs_bind; [exact Hm|]. Qed.

Ltac run_any :=
  repeat first [apply runs_time | apply runs_tick | apply runs_query | apply runs_execute | apply runs_bind_any; [|intros ?] | run_step].

Section allowed.
Context {CR : Crypto} {EN : Environment} {SQ : Sqlite} {IC : InetConversions}.
Context {CL : CryptoLaws} {EL : EnvironmentLaws}.

(** A token drawn from the generator at some reading from [lo] on. *)
Definition drawn (lo : nat) (token : cstr) : Prop :=
  ∃ n b, (lo ≤ n)%nat ∧ random_at n 32 = Some b ∧ token = random_text b.

Definition updates_user (c : call) (i : Z) : bool :=
  match c with CallUpdateUser j _ _ _ _ => j =? i | _ => false end.

Definition changes_password (c : call) (i : Z) : bool :=
  match c with CallChangePassword j _ => j =? i | _ => false end.

Definition deletes_user (c : call) (i : Z) : bool :=
  match c with CallDeleteUser j => j =? i | _ => false end.

(** Calls assign the columns they are about, passwords in the stored form. *)
Definition assignment_allowed (c : call) (i : Z) (a : user_assignment) : Prop :=
  match a with
  | SetPasswordHash h => length h = (2 * SHA256_DIGEST_LENGTH)%nat ∧ changes_password c i = true
  | SetSalt s => length s = (2 * SALT_LENGTH)%nat ∧ changes_password c i = true
  | SetUsername _ | SetIsActive _ | SetRole _ | SetEmail _ => updates_user c i = true
  | _ => True
  end.

Definition allowed (lo : nat) (c : call) (s : statement) : Prop :=
  match s with
  | InsertUser _ hash salt _ _ _ _ => length hash = (2 * SHA256_DIGEST_LENGTH)%nat ∧ length salt = (2 * SALT_LENGTH)%nat
  | UpdateUser i sets => Forall (assignment_allowed c i) sets
  | DeleteUser i => deletes_user c i = true
  | InsertSession columns values =>
      columns = session_columns schema ∧
      ∃ user token now idle expires ip ua, drawn lo token ∧
        values = session_values schema user token now idle expires ip ua
  | _ => True
  end.

Lemma bin_to_hex_length d n h : bin_to_hex d n = Some h → length h = (2 * length d)%nat.
Proof. unfold bin_to_hex. case_match; [done|]. intros [= <-]. apply concat_hex2_length. Qed.

Lemma runs_random_string lo P :
  runs lo (generate_random_string 32) P (λ r, ∀ token, r = Some token → drawn lo token).
Proof.
  unfold generate_random_string. eapply runs_bind; [apply runs_tick|]. intros n Hn. apply runs_ret.
  intros token. destruct (random_at n 32) as [b|] eqn:E; [|done]. intros [= <-]. by exists n, b.
Qed.

Lemma runs_hash_password lo p salt P :
  runs lo (hash_password p salt) P (λ r, ∀ h, r = Some h → length h = SHA256_DIGEST_LENGTH).
Proof.
  eapply runs_bind; [apply runs_tick|]. intros n _. apply runs_ret. intros h.
  case_match; [|done]. intros [= <-]. apply pbkdf2_length.
Qed.

#[local] Hint Resolve runs_random_string runs_hash_password : runs_helpers.

Lemma runs_new_password lo p P :
  runs lo (new_password p) P (λ r, ∀ salt hash, r = Some (salt, hash) →
    length salt = (2 * SALT_LENGTH)%nat ∧ length hash = (2 * SHA256_DIGEST_LENGTH)%nat).
Proof.
  unfold new_password. repeat run_step; try done. intros salt hash. case_match; [|done].
  destruct (bin_to_hex l1 _) eqn:E2; [|done]. intros [= -> ->].
  rewrite (bin_to_hex_length _ _ _ E2), (bin_to_hex_length _ _ _ Heqo0).
  erewrite random_length by done. split; [done|f_equal; auto].
Qed.

Lemma runs_check_password lo h s p P : runs lo (check_password h s p) P (λ _, True).
Proof. unfold check_password. by repeat run_step. Qed.

Lemma runs_client_context lo i ip ua P : runs lo (client_context i ip ua) P (λ _, True).
Proof. unfold client_context. by repeat run_step. Qed.

Lemma runs_lookup_trusted_device lo i t P : runs lo (lookup_trusted_device i t) P (λ _, True).
Proof. unfold lookup_trusted_device. by repeat run_step. Qed.

#[local] Hint Resolve runs_new_password runs_check_password runs_client_context runs_lookup_trusted_device : runs_helpers.

Lemma runs_create_user lo c n p e r a : runs lo (db_auth_create_user n p e r a) (allowed lo c) (λ _, True).
Proof.
  unfold db_auth_create_user. repeat run_step; try done.
  simpl. naive_solver.
Qed.

Lemma runs_update_user lo i n e r a :
  runs lo (db_auth_update_user i n e r a) (allowed lo (CallUpdateUser i n e r a)) (λ _, True).
Proof.
  unfold db_auth_update_user. repeat run_step; try done.
  simpl. rewrite Forall_cons, !Forall_app. destruct n, e; simpl; repeat case_match; repeat constructor; simpl; by rewrite ?Z.eqb_refl.
Qed.

Lemma runs_change_password lo i p :
  runs lo (db_auth_change_password i p) (allowed lo (CallChangePassword i p)) (λ _, True).
Proof.
  unfold db_auth_change_password. repeat run_step; try done.
  simpl in *. destruct (H0 _ _ eq_refl). repeat constructor; simpl; rewrite ?Z.eqb_refl; done.
Qed.

Lemma runs_create_session lo c i ip ua e n :
  runs lo (db_auth_create_session i ip ua e n) (allowed lo c) (λ _, True).
Proof.
  unfold db_auth_create_session. repeat run_step; try done. split; [done|].
  do 7 eexists. split; [|reflexivity]. eauto.
Qed.

Lemma runs_delete_trusted_device_by_id lo c i d :
  runs lo (db_auth_delete_trusted_device_by_id i d) (allowed lo c) (λ _, True).
Proof. unfold db_auth_delete_trusted_device_by_id. by repeat run_step. Qed.

Lemma runs_get_user lo wh P : runs lo (get_user wh) P (λ _, True).
Proof. unfold get_user, prepare_user_lookup_stmt. by repeat run_step. Qed.

#[local] Hint Resolve runs_delete_trusted_device_by_id runs_get_user : runs_helpers.

Lemma runs_get_trusted_device_id lo c i t :
  runs lo (db_auth_get_trusted_device_id i t) (allowed lo c) (λ _, True).
Proof. unfold db_auth_get_trusted_device_id. by repeat run_step. Qed.

#[local] Hint Resolve runs_create_user runs_update_user runs_change_password runs_create_session
  runs_get_trusted_device_id : runs_helpers.

(** Every call executes only the statements that it may. *)
Lemma runs_perform lo c : runs lo (perform c) (allowed lo c) (λ _, True).
Proof.
  destruct c; simpl.
  all: try (eapply (runs_bind _ _ _ _ (λ _, True)); [|by intros; apply runs_ret]).
  all: unfold db_auth_init, db_auth_get_user_by_username, db_auth_delete_user, db_auth_generate_api_key,
    db_auth_authenticate, db_auth_set_password_lock, db_auth_validate_session_with_context, db_auth_delete_session,
    db_auth_delete_user_sessions, db_auth_delete_session_by_id, db_auth_cleanup_sessions, db_auth_create_trusted_device,
    db_auth_validate_trusted_device, db_auth_set_totp_secret, db_auth_enable_totp,
    db_auth_set_allowed_tags, db_auth_set_allowed_login_cidrs.
  all: repeat run_step; try done; simpl; rewrite ?Z.eqb_refl; by repeat constructor.
Qed.
End allowed.

#[export] Hint Resolve runs_random_string runs_check_password runs_client_context runs_lookup_trusted_device runs_get_user
  : runs_helpers.

(** ** Tables that hold together *)

Definition ids_ok {A} (key : A → Z) (l : list A) (seq : Z) : Prop :=
  NoDup (key <$> l) ∧ ∀ x, x ∈ l → 0 < key x ≤ seq.

(** Ids, names and tokens are unique; a session or a device is one of a user
    of the table; salts and hashes have the length of their digests. *)
Record accounts_ok (t : tables) : Prop := {
  user_ids_ok : ids_ok u_id (users t) (user_seq t);
  session_ids_ok : ids_ok s_id (sessions t) (session_seq t);
  device_ids_ok : ids_ok d_id (devices t) (device_seq t);
  usernames_ok : NoDup (u_username <$> users t);
  session_tokens_ok : NoDup (s_token <$> sessions t);
  device_tokens_ok : NoDup (d_token <$> devices t);
  session_users_ok s : s ∈ sessions t → ∃ u, u ∈ users t ∧ u_id u = s_user_id s;
  device_users_ok d : d ∈ devices t → ∃ u, u ∈ users t ∧ u_id u = d_user_id d;
  passwords_ok u : u ∈ users t →
    length (u_password_hash u) = (2 * SHA256_DIGEST_LENGTH)%nat ∧ length (u_salt u) = (2 * SALT_LENGTH)%nat;
  sequences_ok : 0 ≤ user_seq t ∧ 0 ≤ session_seq t ∧ 0 ≤ device_seq t
}.

Lemma NoDup_fmap_snoc {A B} (f : A → B) l x :
  NoDup (f <$> l) → (∀ y, y ∈ l → f y ≠ f x) → NoDup (f <$> l ++ [x]).
Proof.
  intros Hl Hx. rewrite fmap_app. apply NoDup_app. split_and!; [done| |apply NoDup_singleton].
  intros b (y & -> & Hy)%list_elem_of_fmap ?%list_elem_of_singleton. by eapply Hx.
Qed.

Lemma NoDup_fmap_filter {A B} (f : A → B) (P : A → Prop) `{∀ x, Decision (P x)} l :
  NoDup (f <$> l) → NoDup (f <$> filter P l).
Proof.
  induction l as [|x l IH]; [done|]. rewrite fmap_cons, NoDup_cons. intros [Hx Hl].
  rewrite filter_cons. case_decide; [|auto]. rewrite fmap_cons, NoDup_cons. split; [|auto].
  intros (y & E & [_ Hy]%list_elem_of_filter)%list_elem_of_fmap. apply Hx. rewrite E. by apply list_elem_of_fmap_2.
Qed.

Lemma fmap_key {A B} (f : A → B) (g : A → A) (l : list A) : (∀ x, f (g x) = f x) → f <$> (g <$> l) = f <$> l.
Proof. intros Hg. rewrite <-list_fmap_compose. apply list_fmap_ext. intros ? x _. apply Hg. Qed.

Section ids.
Context {A : Type} (key : A → Z).

Lemma ids_ok_snoc l seq i x : ids_ok key l seq → 0 ≤ seq → next_id seq = Some i → key x = i → ids_ok key (l ++ [x]) i.
Proof.
  unfold next_id. intros [Hd Hb] Hs Hi <-. case_match; [done|]. simplify_eq. split.
  - apply NoDup_fmap_snoc; [done|]. intros y Hy. specialize (Hb _ Hy). lia.
  - intros y [Hy| ->%list_elem_of_singleton]%elem_of_app; [specialize (Hb _ Hy); lia|lia].
Qed.

Lemma ids_ok_filter (P : A → Prop) `{∀ x, Decision (P x)} l seq : ids_ok key l seq → ids_ok key (filter P l) seq.
Proof. intros [Hd Hb]. split; [by apply NoDup_fmap_filter|]. intros x [_ Hx]%list_elem_of_filter. auto. Qed.

Lemma ids_ok_fmap (g : A → A) l seq : (∀ x, key (g x) = key x) → ids_ok key l seq → ids_ok key (g <$> l) seq.
Proof.
  intros Hg [Hd Hb]. split; [by rewrite fmap_key|]. intros y (x & -> & Hx)%list_elem_of_fmap. rewrite Hg. auto.
Qed.

(** A key that is not in the table, by the test of the code. *)
Lemma existsb_fresh {B} `{EqDecision B} (f : A → B) (b : B) l :
  existsb (λ x, bool_decide (f x = b)) l = false → ∀ y, y ∈ l → f y ≠ b.
Proof.
  intros E y Hy Hf. apply list_elem_of_In in Hy. rewrite <-not_true_iff_false in E. apply E.
  apply existsb_exists. exists y. split; [done|]. by apply bool_decide_eq_true.
Qed.
End ids.

Lemma assigned_user_id sets u : u_id (foldl (flip assign_user) u sets) = u_id u.
Proof. revert u. induction sets as [|a sets IH]; intros u; [done|]. simpl. rewrite IH. by destruct a, u. Qed.

Lemma assigned_session sets s :
  let s' := foldl (flip assign_session) s sets in
  s_id s' = s_id s ∧ s_user_id s' = s_user_id s ∧ s_token s' = s_token s ∧ s_created_at s' = s_created_at s ∧
  s_expires_at s' = s_expires_at s.
Proof.
  revert s. induction sets as [|a sets IH]; intros s; [done|]. simpl. destruct (IH (assign_session a s)) as (-> & -> & -> & -> & ->).
  by destruct a, s.
Qed.

Section statements_ok.
Context {EN : Environment}.

Lemma user_exists_spec i t : user_exists i t = true ↔ ∃ u, u ∈ users t ∧ u_id u = i.
Proof.
  unfold user_exists. rewrite existsb_exists. setoid_rewrite <-list_elem_of_In. by setoid_rewrite Z.eqb_eq.
Qed.

Lemma assigned_password c i sets u :
  Forall (assignment_allowed c i) sets → let u' := foldl (flip assign_user) u sets in
  let fine u := length (u_password_hash u) = (2 * SHA256_DIGEST_LENGTH)%nat ∧ length (u_salt u) = (2 * SALT_LENGTH)%nat in
  fine u → fine u'.
Proof.
  intros Hs. revert u. induction Hs as [|a sets Ha _ IH]; intros u; [done|]. cbv zeta in *. simpl. intros Hu. apply IH.
  destruct a, u; simpl in *; naive_solver.
Qed.

(** A row of an updated table comes from one of the table. *)
Lemma elem_of_updated {A} (p : A → bool) (f : A → A) (l : list A) y :
  y ∈ ((λ x, if p x then f x else x) <$> l) → ∃ x, x ∈ l ∧ y = if p x then f x else x.
Proof. intros (x & -> & Hx)%list_elem_of_fmap. by exists x. Qed.

Lemma session_of_id i cols vals s : session_of i cols vals = Some s → s_id s = i.
Proof.
  unfold session_of. intros E.
  destruct (bound cols vals ColUserId), (bound cols vals ColToken), (bound cols vals ColCreatedAt), (bound cols vals ColExpiresAt); by simplify_eq/=.
Qed.

Lemma session_users_kept (us : list user_row) (ss : list session_row) (f : user_row → user_row) :
  (∀ u, u_id (f u) = u_id u) →
  (∀ s : session_row, s ∈ ss → ∃ u, u ∈ us ∧ u_id u = s_user_id s) →
  ∀ s, s ∈ ss → ∃ u, u ∈ f <$> us ∧ u_id u = s_user_id s.
Proof. intros Hf Hs s (u & Hu & <-)%Hs. exists (f u). split; [by apply list_elem_of_fmap_2|done]. Qed.

Lemma assign_if_id i sets u : u_id (if u_id u =? i then foldl (flip assign_user) u sets else u) = u_id u.
Proof. case_match; [apply assigned_user_id|done]. Qed.

Lemma insert_user_ok lo c n h s r e now a t t' :
  allowed lo c (InsertUser n h s r e now a) → accounts_ok t →
  apply_statement (InsertUser n h s r e now a) t = Some t' → accounts_ok t'.
Proof.
  intros [Hh Hs] [] E. simpl in E. destruct (existsb _ _) eqn:Ex; [done|].
  destruct (next_id _) as [i|] eqn:Ei; [|done]. simplify_eq/=.
  constructor; simpl; try done.
  - eapply ids_ok_snoc; [done|lia|done..].
  - apply NoDup_fmap_snoc; [done|]. exact (existsb_fresh u_username n _ Ex).
  - intros x (u & ? & ?)%session_users_ok0. exists u. set_solver.
  - intros x (u & ? & ?)%device_users_ok0. exists u. set_solver.
  - intros u [Hu| ->%list_elem_of_singleton]%elem_of_app; [auto|done].
  - unfold next_id in Ei. case_match; [done|]. simplify_eq. lia.
Qed.

Lemma update_user_ok lo c i sets t t' :
  allowed lo c (UpdateUser i sets) → accounts_ok t → apply_statement (UpdateUser i sets) t = Some t' → accounts_ok t'.
Proof.
  intros Hs [] E. simpl in E. case_decide as Hd; [|done]. simplify_eq/=.
  assert (Hi := assign_if_id i sets). constructor; simpl; try done.
  - by apply ids_ok_fmap.
  - by apply session_users_kept.
  - intros d (u & Hu & <-)%device_users_ok0. eexists. split; [by apply list_elem_of_fmap_2|apply Hi].
  - intros u (v & Hv & ->)%elem_of_updated. specialize (passwords_ok0 _ Hv). case_match eqn:Ev; [|done].
    unbool. subst. by eapply assigned_password.
Qed.

Lemma delete_user_ok i t t' : accounts_ok t → apply_statement (DeleteUser i) t = Some t' → accounts_ok t'.
Proof.
  intros [] [= <-]. constructor; simpl; try done.
  1-3: by apply ids_ok_filter. 1-3: by apply NoDup_fmap_filter.
  - intros s [Hs (u & Hu & E)%session_users_ok0]%list_elem_of_filter. exists u. rewrite list_elem_of_filter. naive_solver congruence.
  - intros d [Hd (u & Hu & E)%device_users_ok0]%list_elem_of_filter. exists u. rewrite list_elem_of_filter. naive_solver congruence.
  - intros u [_ Hu]%list_elem_of_filter. auto.
Qed.

(** The sessions alone change. *)
Lemma set_sessions_ok ss seq t :
  accounts_ok t → ids_ok s_id ss seq → NoDup (s_token <$> ss) → session_seq t ≤ seq →
  (∀ s, s ∈ ss → ∃ u, u ∈ users t ∧ u_id u = s_user_id s) →
  accounts_ok (mkTables (users t) ss (devices t) (user_seq t) seq (device_seq t)).
Proof. intros [] ????. constructor; simpl; try done. lia. Qed.

Lemma set_devices_ok ds seq t :
  accounts_ok t → ids_ok d_id ds seq → NoDup (d_token <$> ds) → device_seq t ≤ seq →
  (∀ d, d ∈ ds → ∃ u, u ∈ users t ∧ u_id u = d_user_id d) →
  accounts_ok (mkTables (users t) (sessions t) ds (user_seq t) (session_seq t) seq).
Proof. intros [] ????. constructor; simpl; try done. lia. Qed.

Lemma next_id_le seq i : next_id seq = Some i → seq ≤ i.
Proof. unfold next_id. case_match; [done|]. intros [= <-]. lia. Qed.

Lemma insert_session_ok cols vals t t' :
  accounts_ok t → apply_statement (InsertSession cols vals) t = Some t' → accounts_ok t'.
Proof.
  intros Hok E. simpl in E. destruct (next_id _) as [i|] eqn:Ei; [|done]. simpl in E.
  destruct (session_of i cols vals) as [s|] eqn:Es; [|done]. simpl in E.
  destruct (existsb _ _) eqn:Ex; [done|]. destruct (user_exists _ _) eqn:Eu; [|done]. simplify_eq/=.
  destruct (Hok) as [? ? ? ? ? ? Hsu ? ? ?]. apply set_sessions_ok; [done|..].
  - eapply ids_ok_snoc; [done|lia|done|by eapply session_of_id].
  - apply NoDup_fmap_snoc; [done|]. exact (existsb_fresh s_token (s_token s) _ Ex).
  - by apply next_id_le.
  - intros x [Hx| ->%list_elem_of_singleton]%elem_of_app; [auto|by apply user_exists_spec].
Qed.

Lemma insert_device_ok u k ip ua now e t t' :
  accounts_ok t → apply_statement (InsertDevice u k ip ua now e) t = Some t' → accounts_ok t'.
Proof.
  intros Hok E. simpl in E. destruct (next_id _) as [i|] eqn:Ei; [|done]. simpl in E.
  destruct (existsb _ _) eqn:Ex; [done|]. destruct (user_exists _ _) eqn:Eu; [|done]. simplify_eq/=.
  destruct (Hok) as [? ? ? ? ? ? ? Hdu ? ?]. apply set_devices_ok; [done|..].
  - eapply ids_ok_snoc; [done|lia|done|done].
  - apply NoDup_fmap_snoc; [done|]. exact (existsb_fresh d_token k _ Ex).
  - by apply next_id_le.
  - intros x [Hx| ->%list_elem_of_singleton]%elem_of_app; [auto|by apply user_exists_spec].
Qed.

(** Every statement that a call may execute keeps the tables together. *)
Lemma statement_ok lo c s t t' :
  allowed lo c s → accounts_ok t → apply_statement s t = Some t' → accounts_ok t'.
Proof.
  intros Hs Hok E.
  destruct s; [by eapply insert_user_ok|by eapply update_user_ok|by eapply delete_user_ok|by eapply insert_session_ok| | |
    by eapply insert_device_ok| |]; destruct (Hok) as [? ? ? ? ? ? Hsu Hdu ? ?]; simpl in E; simplify_eq.
  - assert (∀ x, s_id (if s_id x =? session then foldl (flip assign_session) x sets else x) = s_id x ∧
      s_token (if s_id x =? session then foldl (flip assign_session) x sets else x) = s_token x ∧
      s_user_id (if s_id x =? session then foldl (flip assign_session) x sets else x) = s_user_id x) as Hx.
    { intros x. pose proof (assigned_session sets x). case_match; naive_solver. }
    apply set_sessions_ok; [done|by apply ids_ok_fmap; [apply Hx|]|by rewrite fmap_key; [|apply Hx]|done|].
    intros s (x & -> & Hs')%list_elem_of_fmap. destruct (Hx x) as (_ & _ & ->). auto.
  - apply set_sessions_ok; [done|by apply ids_ok_filter|by apply NoDup_fmap_filter|done|].
    intros s [_ ?]%list_elem_of_filter. auto.
  - apply set_devices_ok; [done|..|done|].
    + apply ids_ok_fmap; [|done]. intros x. by case_match.
    + rewrite fmap_key; [done|]. intros x. by case_match.
    + intros d (x & -> & Hd)%list_elem_of_fmap. destruct (Hdu _ Hd) as (u & ? & ?). exists u. split; [done|]. by case_match.
  - apply set_devices_ok; [done|by apply ids_ok_filter|by apply NoDup_fmap_filter|done|].
    intros d [_ ?]%list_elem_of_filter. auto.
Qed.
End statements_ok.

(** ** Histories *)

Section histories.
Context {CR : Crypto} {EN : Environment} {SQ : Sqlite} {IC : InetConversions}.
Context {CL : CryptoLaws} {EL : EnvironmentLaws}.

(** Nothing closes the database. *)
Lemma open_stays_open P t : ¬ rtc (executed P) (Some t) None.
Proof.
  intros Hr. remember (Some t) as o eqn:Eo. remember None as o' eqn:En. revert t Eo En.
  induction Hr as [|o1 o2 o3 (s & t1 & t2 & _ & -> & _ & ->) _ IH]; intros t; naive_solver.
Qed.

Definition holds (I : tables → Prop) (w : world) : Prop := ∀ t, store w = Some t → I t.

(** What every statement of an operation keeps, the operation keeps. *)
Lemma runs_keeps lo {A} (m : M A) P (Q : A → Prop) (I : tables → Prop) w :
  runs lo m P Q → (∀ s t t', P s → I t → apply_statement s t = Some t' → I t') →
  (lo ≤ readings w)%nat → holds I w → holds I (m w).2 ∧ (readings w ≤ readings (m w).2)%nat.
Proof.
  intros Hm HI Hlo Hw. destruct (Hm w Hlo) as (Hs & Hr & _). split; [|done]. unfold holds in *.
  revert Hw. generalize (store w), (store (m w).2), Hs. clear -HI. intros o o' Hs Hw.
  induction Hs as [|o1 o2 o3 (s & t & t' & Hp & -> & Ha & ->) _ IH]; [done|].
  apply IH. intros ? [= <-]. eauto.
Qed.

Lemma run_keeps (ok : call → Prop) (I : tables → Prop) lo cs w :
  (∀ c s t t', ok c → allowed lo c s → I t → apply_statement s t = Some t' → I t') →
  Forall ok cs → (lo ≤ readings w)%nat → holds I w → holds I (run cs w) ∧ (readings w ≤ readings (run cs w))%nat.
Proof.
  intros HI Hok. revert w. induction Hok as [|c cs Hc _ IH]; intros w Hlo Hw; [done|]. simpl.
  destruct (runs_keeps lo (perform c) (allowed lo c) (λ _, True) I w) as [Hw' Hr]; [apply runs_perform|naive_solver|done..|].
  destruct (IH (perform c w).2) as [? Hr2]; [lia|done|]. split; [done|]. unfold run in *. simpl. lia.
Qed.

Lemma run_accounts_ok cs w : holds accounts_ok w → holds accounts_ok (run cs w).
Proof.
  intros Hw. apply (run_keeps (λ _, True) accounts_ok 0); [|by apply Forall_true|lia|done].
  intros c s t t' _. apply statement_ok.
Qed.

Lemma run_open cs w t : store w = Some t → ∃ t', store (run cs w) = Some t'.
Proof.
  revert w t. induction cs as [|c cs IH]; intros w t E; [by exists t|]. simpl.
  destruct (store (perform c w).2) as [t1|] eqn:E1; [by eapply IH|]. exfalso.
  destruct (runs_perform 0 c w ltac:(lia)) as [Hr _]. rewrite E, E1 in Hr. by apply open_stays_open in Hr.
Qed.

Lemma execute_inv s w d w' :
  execute s w = (Some d, w') →
  ∃ t t', store w = Some t ∧ apply_statement s t = Some t' ∧ store w' = Some t' ∧ d = deleted_rows s t ∧
    readings w' = S (readings w).
Proof.
  unfold execute, mbind, M_bind, tick, action. simpl. destruct (sql_at _), (store w) as [t|]; try done.
  destruct (apply_statement s t) as [t'|] eqn:E; [|done]. intros [= <- <-]. by exists t, t'.
Qed.

Lemma query_eq {A} (rows : tables → list A) w t :
  store w = Some t →
  query rows w = (match sql_at (readings w) with PrepareFails => None | r => Some (delivered r (rows t)) end,
                  mkWorld (Some t) (S (readings w))).
Proof. intros E. unfold query, mbind, M_bind, tick, action. simpl. rewrite E. by destruct (sql_at _). Qed.

(** Whether the first row of a query arrives. *)
Definition answers (n : nat) : bool :=
  match sql_at n with PrepareFails | StepFails 0 => false | _ => true end.

Lemma query_first {A} (rows : tables → list A) w t x xs :
  store w = Some t → rows t = x :: xs →
  (query rows w).2 = mkWorld (Some t) (S (readings w)) ∧
  if answers (readings w) then ∃ ys, (query rows w).1 = Some (x :: ys)
  else (query rows w).1 = None ∨ (query rows w).1 = Some [].
Proof.
  intros E Ex. rewrite (query_eq _ _ _ E), Ex. unfold answers. destruct (sql_at _) as [|[|n]|]; simpl; eauto.
Qed.
End histories.

(** ** Validation of a session *)

Section validation.
Context {CR : Crypto} {EN : Environment} {SQ : Sqlite} {IC : InetConversions}.

Lemma filter_unique {A B} (f : A → B) (P : A → Prop) `{∀ x, Decision (P x)} l x :
  NoDup (f <$> l) → x ∈ l → (∀ y, P y ↔ f y = f x) → filter P l = [x].
Proof.
  intros Hd Hx HP. induction l as [|y l IH]; [by apply not_elem_of_nil in Hx|].
  rewrite fmap_cons, NoDup_cons in Hd. destruct Hd as [Hy Hd]. rewrite filter_cons.
  rewrite elem_of_cons in Hx. destruct Hx as [<-|Hx].
  - rewrite decide_True by by apply HP. f_equal. destruct (filter P l) as [|z zs] eqn:E; [done|]. exfalso. apply Hy.
    assert (z ∈ filter P l) as [Hz Hl]%list_elem_of_filter by (rewrite E; left). apply HP in Hz. rewrite <-Hz.
    by apply list_elem_of_fmap_2.
  - rewrite decide_False; [auto|]. intros E%HP. apply Hy. rewrite E. by apply list_elem_of_fmap_2.
Qed.

Lemma filter_none {A} (P : A → Prop) `{∀ x, Decision (P x)} l : (∀ x, x ∈ l → ¬ P x) → filter P l = [].
Proof.
  intros Hl. destruct (filter P l) as [|z zs] eqn:E; [done|].
  assert (z ∈ filter P l) as [Hz Hi]%list_elem_of_filter by (rewrite E; left). by destruct (Hl _ Hi).
Qed.

Lemma session_join_none token t : (∀ s, s ∈ sessions t → s_token s ≠ token) → session_join token t = [].
Proof.
  intros Hs. unfold session_join. rewrite filter_none; [done|]. intros s Hi E. apply streq_true in E. by apply Hs in Hi.
Qed.

Lemma session_join_one t s u :
  accounts_ok t → s ∈ sessions t → u ∈ users t → u_id u = s_user_id s → session_join (s_token s) t = [(s, u)].
Proof.
  intros Hok Hs Hu E. unfold session_join.
  rewrite (filter_unique s_token _ (sessions t) s); [|apply Hok|done|intros y; apply streq_true]. simpl.
  rewrite (filter_unique u_id _ (users t) u); [done|apply Hok|done|]. intros y. by rewrite E.
Qed.

(** Whether a session is accepted at a time. *)
Definition session_valid (now : Z) (s : session_row) (u : user_row) : bool :=
  (now <=? s_expires_at s) &&
  (negb (has_idle_expires_column schema) || (now <=? default 0 (s_idle_expires_at s))) &&
  negb (u_is_active u =? 0).

Lemma validate_found token ip ua w t s u rest :
  store w = Some t → session_join token t = (s, u) :: rest →
  (db_auth_validate_session_with_context (Some token) ip ua w).1 =
  if answers (readings w) && session_valid (time_at (S (readings w))) s u then Some (s_user_id s) else None.
Proof.
  intros E Ej. unfold db_auth_validate_session_with_context, with_db. rewrite E.
  destruct (query_first (session_join token) w t _ _ E Ej) as [Hw Hr].
  unfold mbind, M_bind. destruct (query _ w) as [r w1]. simpl in Hw, Hr. subst w1.
  destruct (answers (readings w)); [destruct Hr as [ys ->]|by destruct Hr as [-> | ->]]. cbn [andb].
  unfold time, mbind, M_bind, tick. cbn -[client_context execute]. unfold session_valid.
  rewrite !Z.gtb_ltb, !Z.ltb_antisym. destruct (_ <=? s_expires_at s) eqn:He; cbn [negb orb andb]; [|done].
  assert (negb (time_at (S (readings w)) <=? (if has_idle_expires_column schema then default 0 (s_idle_expires_at s) else s_expires_at s)) =
    negb (negb (has_idle_expires_column schema) || (time_at (S (readings w)) <=? default 0 (s_idle_expires_at s)))) as ->
    by (destruct (has_idle_expires_column schema); [done|by rewrite He]).
  destruct (_ || _); cbn [negb andb]; [|done]. destruct (u_is_active u =? 0); [done|]. cbn [negb].
  destruct (client_context _ _ _ _) as [[] w1]. destruct (_ || _); [|done]. by destruct (execute _ _).
Qed.

Lemma validate_none token ip ua w t :
  store w = Some t → session_join token t = [] → (db_auth_validate_session_with_context (Some token) ip ua w).1 = None.
Proof.
  intros E Ej. unfold db_auth_validate_session_with_context, with_db. rewrite E. unfold mbind, M_bind.
  rewrite (query_eq _ _ _ E), Ej. destruct (sql_at _); [done|by rewrite delivered_nil|done].
Qed.

#[local] Instance token_decision token t : Decision (∃ s, s ∈ sessions t ∧ s_token s = token).
Proof. refine (cast_if (decide (Exists (λ s, s_token s = token) (sessions t)))); by rewrite <-Exists_exists. Defined.

(** a session token is accepted exactly while its row is in the table, its
    user is active and neither of its lifetimes is over, if the query answers;
    the user returned is that of the row. *)
Theorem validate_session_spec token ip ua w t i :
  store w = Some t → accounts_ok t →
  (db_auth_validate_session_with_context (Some token) ip ua w).1 = Some i ↔
  answers (readings w) = true ∧
  ∃ s u, s ∈ sessions t ∧ s_token s = token ∧ u ∈ users t ∧ u_id u = s_user_id s ∧ s_user_id s = i ∧
    session_valid (time_at (S (readings w))) s u = true.
Proof.
  intros E Hok. split.
  - destruct (decide (∃ s, s ∈ sessions t ∧ s_token s = token)) as [(s & Hs & <-)|Hn].
    + destruct (session_users_ok _ Hok s Hs) as (u & Hu & Eu).
      rewrite (validate_found _ ip ua w t s u [] E); [|by apply session_join_one].
      destruct (answers _); [cbn [andb]|done]. destruct (session_valid _ s u) eqn:Ev; [|done].
      intros [= <-]. split; [done|]. by exists s, u.
    + rewrite (validate_none _ ip ua w t E); [done|]. apply session_join_none. naive_solver.
  - intros (Ha & s & u & Hs & <- & Hu & Eu & <- & Hv).
    rewrite (validate_found _ ip ua w t s u [] E); [|by apply session_join_one]. by rewrite Ha, Hv.
Qed.

Lemma session_join_elem token t s u : (s, u) ∈ session_join token t → s ∈ sessions t ∧ s_token s = token ∧ u ∈ users t ∧ u_id u = s_user_id s.
Proof.
  unfold session_join. intros (s' & (u' & E & [Eu Hu]%list_elem_of_filter)%list_elem_of_bind & [Et Hs]%list_elem_of_filter)%list_elem_of_bind.
  apply list_elem_of_singleton in E. simplify_eq. by apply streq_true in Et.
Qed.

(** An accepted token, read off the tables; no hypothesis on them. *)
Lemma validate_inv token ip ua w i :
  (db_auth_validate_session_with_context (Some token) ip ua w).1 = Some i →
  ∃ t s u, store w = Some t ∧ s ∈ sessions t ∧ s_token s = token ∧ u ∈ users t ∧ u_id u = s_user_id s ∧
    s_user_id s = i ∧ session_valid (time_at (S (readings w))) s u = true.
Proof.
  intros Hv. destruct (store w) as [t|] eqn:E.
  - destruct (session_join token t) as [|[s u] rest] eqn:Ej; [by rewrite (validate_none _ ip ua w t E) in Hv|].
    rewrite (validate_found _ ip ua w t s u rest E Ej) in Hv. destruct (answers _); [cbn [andb] in Hv|done].
    destruct (session_valid _ s u) eqn:Es; [|done]. simplify_eq.
    destruct (session_join_elem token t s u) as (? & ? & ? & ?); [rewrite Ej; left|]. by exists t, s, u.
  - unfold db_auth_validate_session_with_context, with_db in Hv. by rewrite E in Hv.
Qed.
End validation.

(** ** Revocation and lifetime *)

Section revocation.
Context {CR : Crypto} {EN : Environment} {SQ : Sqlite} {IC : InetConversions}.
Context {CL : CryptoLaws} {EL : EnvironmentLaws}.

(** What the rows with a token are like: their user and their expiry. *)
Definition token_rows (token : cstr) (R : Z → Z → Prop) (t : tables) : Prop :=
  ∀ s, s ∈ sessions t → s_token s = token → R (s_user_id s) (s_expires_at s).

(** The schemas for which the values of [session_values] are not those of
    [session_columns]: the expiry is then bound to the time of creation. *)
Definition misaligned (c : columns) : bool :=
  has_last_activity_column c && has_idle_expires_column c && negb (has_ip_column c && has_ua_column c).

Lemma session_of_values i user token now idle expires ip ua :
  ∃ s, session_of i (session_columns schema) (session_values schema user token now idle expires ip ua) = Some s ∧
    s_id s = i ∧ s_user_id s = user ∧ s_token s = token ∧
    s_expires_at s = if misaligned schema then now else expires.
Proof.
  unfold session_of, bound, session_columns, session_values, misaligned.
  destruct (has_ip_column schema), (has_ua_column schema), (has_last_activity_column schema), (has_idle_expires_column schema);
    simpl; eexists; (split; [done|]); simpl; auto.
Qed.

(** They change only when the token is drawn again. *)
Lemma token_rows_kept lo c token R s t t' :
  ¬ drawn lo token → allowed lo c s → token_rows token R t → apply_statement s t = Some t' → token_rows token R t'.
Proof.
  intros Hd Ha Ht E. unfold token_rows in *. destruct s; simpl in E, Ha.
  - destruct (existsb _ _); [done|]. by destruct (next_id _); simplify_eq/=.
  - case_decide; by simplify_eq/=.
  - simplify_eq/=. intros s [_ Hs]%list_elem_of_filter. auto.
  - destruct Ha as (-> & user & token' & now & idle & exp & ip & ua & Hd' & ->).
    destruct (next_id _) as [i|]; [cbn [mbind option_bind] in E|done].
    destruct (session_of_values i user token' now idle exp ip ua) as (s & Es & _ & _ & Et & _). rewrite Es in E.
    cbn [mbind option_bind] in E. repeat case_match; try done. simplify_eq/=.
    intros x [Hx| ->%list_elem_of_singleton]%elem_of_app; [auto|]. by intros <-.
  - simplify_eq/=. intros s (x & -> & Hx)%list_elem_of_fmap. case_match; [|auto].
    destruct (assigned_session sets x) as (_ & -> & -> & _ & ->). auto.
  - simplify_eq/=. intros s [_ Hs]%list_elem_of_filter. auto.
  - destruct (next_id _); [|done]. simpl in E. repeat case_match; by simplify_eq/=.
  - by simplify_eq/=.
  - by simplify_eq/=.
Qed.

Lemma run_token_rows token R cs w :
  ¬ drawn (readings w) token → holds (token_rows token R) w → holds (token_rows token R) (run cs w).
Proof.
  intros Hd Hw. apply (run_keeps (λ _, True) (token_rows token R) (readings w)); [|by apply Forall_true|done|done].
  intros c s t t' _. by apply token_rows_kept.
Qed.

(** The sessions that a call is to revoke. *)
Definition revokes (c : call) (s : session_row) : bool :=
  match c with
  | CallDeleteSession (Some token) => streq (s_token s) token
  | CallDeleteUserSessions user => s_user_id s =? user
  | CallDeleteSessionById user session => (s_id s =? session) && (s_user_id s =? user)
  | CallDeleteUser user => s_user_id s =? user
  | _ => false
  end.

Lemma status_inv s w w' : (r ← execute s; mret (status r)) w = (0, w') →
  ∃ t t', store w = Some t ∧ apply_statement s t = Some t' ∧ store w' = Some t' ∧ readings w' = S (readings w).
Proof.
  unfold mbind at 1, M_bind. destruct (execute s w) as [[d|] w1] eqn:E; [|done]. intros [= <-].
  destruct (execute_inv _ _ _ _ E) as (t & t' & ? & ? & ? & _ & ?). by exists t, t'.
Qed.

Lemma revoked c w s t :
  store w = Some t → revokes c s = true → (perform c w).1 = 0 → (readings w ≤ readings (perform c w).2)%nat ∧
  ∃ t', store (perform c w).2 = Some t' ∧ s ∉ sessions t' ∧ ∀ x, x ∈ sessions t' → x ∈ sessions t.
Proof.
  intros E Hr H0. split. { by apply (runs_perform (readings w) c w). }
  destruct (perform c w) as [z w'] eqn:Ep. simpl in *. subst z. destruct c; try done; simpl in Ep, Hr.
  - unfold db_auth_delete_user, with_db in Ep. rewrite E in Ep. unfold mbind at 1, M_bind in Ep.
    rewrite (query_eq _ _ _ E) in Ep. destruct (match sql_at _ with PrepareFails => _ | _ => _ end) as [[|u us]|]; [done| |done].
    apply status_inv in Ep as (t1 & t' & [= <-] & Ha & E' & _). simpl in Ha. simplify_eq/=. eexists. split; [done|]. simpl.
    setoid_rewrite list_elem_of_filter. unbool. naive_solver.
  - destruct token as [token|]; [|done]. unfold db_auth_delete_session, with_db in Ep. rewrite E in Ep.
    apply status_inv in Ep as (t1 & t' & E1 & Ha & E' & _). simpl in Ha. simplify_eq/=. eexists. split; [done|]. simpl.
    setoid_rewrite list_elem_of_filter. split; [|naive_solver]. rewrite Hr. naive_solver.
  - unfold db_auth_delete_user_sessions, with_db in Ep. rewrite E in Ep.
    apply status_inv in Ep as (t1 & t' & E1 & Ha & E' & _). simpl in Ha. simplify_eq/=. eexists. split; [done|]. simpl.
    setoid_rewrite list_elem_of_filter. split; [|naive_solver]. rewrite Hr. naive_solver.
  - unfold db_auth_delete_session_by_id, with_db in Ep. rewrite E in Ep. unfold mbind, M_bind in Ep.
    destruct (execute _ _) as [[d|] w1] eqn:Ex; [|done]. apply execute_inv in Ex as (t1 & t' & E1 & Ha & E' & _).
    simpl in Ha. injection Ep as _ <-. simplify_eq/=. eexists. split; [done|]. simpl.
    setoid_rewrite list_elem_of_filter. split; [|naive_solver]. rewrite Hr. naive_solver.
Qed.

(** C15: when a call that revokes a session (logging out, revoking one or all
    sessions of a user, deleting the user) returns 0, no later history of calls
    makes its token accepted again, unless the generator draws the same token. *)
Theorem revocation_is_final c w t s cs ip ua :
  store w = Some t → accounts_ok t → s ∈ sessions t → revokes c s = true → (perform c w).1 = 0 →
  ¬ drawn (readings w) (s_token s) →
  (db_auth_validate_session_with_context (Some (s_token s)) ip ua (run cs (perform c w).2)).1 = None.
Proof.
  intros E Hok Hs Hr H0 Hd. destruct (revoked c w s t E Hr H0) as (Hle & t' & E' & Hn & Hsub).
  destruct (_ (run cs _)).1 as [i|] eqn:Hv; [exfalso|done].
  apply validate_inv in Hv as (t1 & x & _ & E1 & Hx & Ex & _).
  refine (run_token_rows (s_token s) (λ _ _, False) cs (perform c w).2 _ _ t1 E1 x Hx Ex).
  - intros (n & b & Hb & ?). apply Hd. exists n, b. split; [lia|done].
  - intros t2 E2 y Hy Ey. rewrite E' in E2. simplify_eq. apply Hn.
    enough (y = s) as -> by done. apply Hsub in Hy. clear -Hok Hs Hy Ey.
    apply session_tokens_ok in Hok. apply list_elem_of_lookup in Hs as [i Hi], Hy as [j Hj].
    enough (i = j) by naive_solver. apply (NoDup_lookup _ i j (s_token s) Hok); rewrite list_lookup_fmap.
    + by rewrite Hi.
    + by rewrite Hj, <-Ey.
Qed.

(** The lifetime of a new session, in seconds. *)
Definition session_lifetime (expiry_seconds : Z) : Z :=
  if misaligned schema then 0 else if expiry_seconds >? 0 then expiry_seconds else default_session_absolute_expiry_seconds auth_absolute_timeout_hours.

(** The readings of [db_auth_create_session] are the query, the token and the
    clock. *)
Lemma create_session_inv user ip ua e n w token w' :
  db_auth_create_session user ip ua e n w = (Some token, w') →
  ∃ t, store w' = Some t ∧
    token_rows token (λ u d, u = user ∧ d = time_at (2 + readings w) + session_lifetime e) t.
Proof.
  unfold db_auth_create_session, with_db. destruct (n <? 33)%nat; [done|]. destruct (store w) as [t|] eqn:E; [|done].
  unfold mbind at 1, M_bind. rewrite (query_eq _ _ _ E).
  destruct (match sql_at _ with PrepareFails => _ | _ => _ end) as [[|x xs]|]; [done| |done].
  unfold generate_random_string, time, tick. run_monad. destruct (random_at _ 32) as [b|]; [|done]. cbn [fmap option_fmap option_map]. run_monad.
  destruct (execute _ _) as [[d|] w1] eqn:Ex; [|done]. intros [= <- <-].
  apply execute_inv in Ex as (t1 & t' & E1 & Ha & E' & _). exists t'. split; [done|].
  cbn [store] in E1. simplify_eq. cbn [apply_statement] in Ha. destruct (next_id _) as [i|]; [|done].
  cbn [mbind option_bind] in Ha.
  match type of Ha with context [session_values _ _ _ ?now ?idle ?exp] =>
    destruct (session_of_values i user (random_text b) now idle exp ip ua) as (s & Es & _ & Eu & Et & Ee) end.
  rewrite Es in Ha. cbn [mbind option_bind] in Ha. destruct (existsb _ _) eqn:Ef; [done|].
  destruct (user_exists _ _); [|done]. simplify_eq/=. intros y [Hy| ->%list_elem_of_singleton]%elem_of_app Ey.
  - destruct (existsb_fresh s_token (s_token s) _ Ef y Hy). by rewrite Ey, Et.
  - split; [done|]. rewrite Ee. unfold session_lifetime. destruct (misaligned schema); lia.
Qed.

(** C16: whatever happens after a session is created (validations that extend
    it included), its token is accepted for its own user alone, and never after
    the lifetime that the creation gave it; there is none when the schema has
    the tracking columns but not both of [ip_address] and [user_agent]. *)
Theorem session_lifetime_bounded user ip ua e n w token w' cs ip' ua' i :
  db_auth_create_session user ip ua e n w = (Some token, w') → ¬ drawn (readings w') token →
  (db_auth_validate_session_with_context (Some token) ip' ua' (run cs w')).1 = Some i →
  i = user ∧ time_at (S (readings (run cs w'))) ≤ time_at (2 + readings w) + session_lifetime e.
Proof.
  intros Ec Hd Hv. destruct (create_session_inv _ _ _ _ _ _ _ _ Ec) as (t & E & Ht).
  destruct (validate_inv _ _ _ _ _ Hv) as (t1 & s & u & E1 & Hs & Es & _ & _ & <- & Hval).
  destruct (run_token_rows token _ cs w' Hd ltac:(intros ??; simplify_eq; exact Ht) t1 E1 s Hs Es) as [<- <-].
  split; [done|]. unfold session_valid in Hval. unbool. lia.
Qed.
End revocation.

(** ** Cleaning up *)

Section cleanup.
Context {CR : Crypto} {EN : Environment} {SQ : Sqlite} {IC : InetConversions}.
Context {CL : CryptoLaws} {EL : EnvironmentLaws}.

Definition cleanup_condition (now : Z) : session_condition :=
  if has_idle_expires_column schema then SessionExpiredOrIdle now else SessionExpired now.

Lemma execute_cases s w t :
  store w = Some t →
  (∃ t', apply_statement s t = Some t' ∧ execute s w = (Some (deleted_rows s t), mkWorld (Some t') (S (readings w)))) ∨
  execute s w = (None, mkWorld (Some t) (S (readings w))).
Proof.
  intros E. unfold execute, tick, action. run_monad. rewrite E. destruct (sql_at _); [by right..|].
  destruct (apply_statement s t) as [t'|]; [left; by exists t'|by right].
Qed.

Lemma cleanup_inv w t :
  store w = Some t →
  ∃ t', store (db_auth_cleanup_sessions w).2 = Some t' ∧ users t' = users t ∧
    ((db_auth_cleanup_sessions w).1 = -1 ∧ t' = t ∨
     (db_auth_cleanup_sessions w).1 = deleted_rows (DeleteSessions (cleanup_condition (time_at (readings w)))) t ∧
     sessions t' = filter (λ s, session_holds (cleanup_condition (time_at (readings w))) s = false) (sessions t)).
Proof.
  intros E. unfold db_auth_cleanup_sessions, with_db, time, tick. rewrite E. run_monad. fold (cleanup_condition (time_at (readings w))).
  destruct (execute_cases (DeleteSessions (cleanup_condition (time_at (readings w)))) (mkWorld (store w) (S (readings w))) t E)
    as [(t1 & Ha & ->)| ->]; [|exists t; by auto].
  simpl in Ha. simplify_eq/=. match goal with |- context [execute ?s ?w1] =>
    destruct (execute_cases s w1 _ eq_refl) as [(t2 & Ha & ->)| ->]; [simpl in Ha; simplify_eq|] end;
    (eexists; split; [reflexivity|]); simpl; auto.
Qed.

(** What is valid later is not cleaned up now. *)
Lemma valid_not_cleaned now later s u :
  now ≤ later → session_valid later s u = true → session_holds (cleanup_condition now) s = false.
Proof.
  intros Hle Hv. unfold session_valid in Hv. unfold cleanup_condition. unbool.
  destruct (has_idle_expires_column schema); simpl in *; unbool; [|apply Z.ltb_ge; lia].
  apply orb_false_iff. split; [apply Z.ltb_ge; lia|]. destruct (s_idle_expires_at s); simpl in *; [apply Z.ltb_ge; lia|done].
Qed.

(** cleaning up expired sessions cannot be told from not doing so, by any
    validation whose clock is not behind: the same tokens are accepted, for
    the same users. *)
Theorem cleanup_invisible w t token ip ua n :
  store w = Some t → accounts_ok t → time_at (readings w) ≤ time_at (S n) →
  (db_auth_validate_session_with_context (Some token) ip ua (mkWorld (store (db_auth_cleanup_sessions w).2) n)).1 =
  (db_auth_validate_session_with_context (Some token) ip ua (mkWorld (Some t) n)).1.
Proof.
  intros E Hok Hle. destruct (cleanup_inv w t E) as (t' & E' & Hu & Hs).
  assert (accounts_ok t') as Hok'.
  { apply (run_accounts_ok [CallCleanupSessions] w); [by intros ? ?; simplify_eq|done]. }
  rewrite E'. apply option_eq. intros i. 
  rewrite (validate_session_spec token ip ua (mkWorld (Some t') n) t'), (validate_session_spec token ip ua (mkWorld (Some t) n) t) by done.
  simpl. rewrite Hu.
  destruct Hs as [[_ ->]|[_ ->]]; [done|]. split; intros (Ha & s & u & Hs & Hrest); (split; [done|]); exists s, u.
  - apply list_elem_of_filter in Hs. naive_solver.
  - rewrite list_elem_of_filter. split; [|done]. split; [|done]. eapply valid_not_cleaned; [exact Hle|apply Hrest].
Qed.
End cleanup.

(** ** Passwords *)

Section passwords.
Context {CR : Crypto} {EN : Environment} {SQ : Sqlite} {IC : InetConversions}.
Context {CL : CryptoLaws} {EL : EnvironmentLaws}.

(** The text that [bin_to_hex] writes. *)
Definition hex_text (d : list byte) : cstr := concat (hex2 <$> d).

Lemma hex_text_inj d d' : length d = length d' → hex_text d = hex_text d' → d = d'.
Proof.
  intros Hl E. assert (∀ d, bin_to_hex d (length d * 2 + 1) = Some (hex_text d)) as Hb.
  { intros x. unfold bin_to_hex. by rewrite Nat.ltb_irrefl. }
  pose proof (hex_roundtrip d _ _ d (Hb d) (le_n _)) as H1.
  pose proof (hex_roundtrip d' _ _ d (Hb d') ltac:(lia)) as H2. rewrite E, H2 in H1. injection H1 as H1.
  rewrite Hl, !drop_ge, !app_nil_r in H1 by lia. done.
Qed.

(** The active account [i], with its name, its salt and its password. *)
Definition account (i : Z) (name : cstr) (salt : list byte) (password : cstr) (t : tables) : Prop :=
  ∃ u, u ∈ users t ∧ u_id u = i ∧ u_username u = name ∧ u_salt u = hex_text salt ∧
    u_password_hash u = hex_text (pbkdf2 password salt) ∧ u_is_active u ≠ 0.

Definition leaves_account (i : Z) (c : call) : bool :=
  negb (updates_user c i || changes_password c i || deletes_user c i).

Lemma assigned_same c i sets u :
  Forall (assignment_allowed c i) sets → updates_user c i = false → changes_password c i = false →
  let u' := foldl (flip assign_user) u sets in
  u_username u' = u_username u ∧ u_salt u' = u_salt u ∧ u_password_hash u' = u_password_hash u ∧ u_is_active u' = u_is_active u.
Proof.
  intros Hs Hu Hc. revert u. induction Hs as [|a sets Ha _ IH]; intros u; [done|]. cbv zeta in *. simpl.
  destruct (IH (assign_user a u)) as (-> & -> & -> & ->).
  destruct a, u; simpl in *; try done; rewrite ?Hu, ?Hc in Ha; naive_solver.
Qed.

Lemma account_kept lo c i name salt p s t t' :
  leaves_account i c = true → allowed lo c s → account i name salt p t → apply_statement s t = Some t' →
  account i name salt p t'.
Proof.
  intros Hl Ha (u & Hu & Hi & Hn & Hs & Hh & Hact) E. unfold leaves_account in Hl. unbool.
  destruct s as [n h sa r e now ac|j sets|j| | | | | |]; simpl in E, Ha.
  - destruct (existsb _ _); [done|]. destruct (next_id _); [|done]. simplify_eq/=. exists u. set_solver.
  - case_decide; [|done]. simplify_eq/=. eexists. split; [by apply list_elem_of_fmap_2|]. rewrite assign_if_id.
    destruct (Z.eqb_spec (u_id u) j) as [<-|_]; [|done].
    destruct (assigned_same c (u_id u) sets u) as (-> & -> & -> & ->); done.
  - simplify_eq/=. exists u. simpl. rewrite list_elem_of_filter. split_and!; try done. intros <-. congruence.
  - destruct (next_id _); [cbn [mbind option_bind] in E|done]. destruct (session_of _ _ _); [simpl in E|done].
    repeat case_match; try done. simplify_eq/=. by exists u.
  - simplify_eq/=. by exists u.
  - simplify_eq/=. by exists u.
  - destruct (next_id _); [simpl in E|done]. repeat case_match; try done. simplify_eq/=. by exists u.
  - simplify_eq/=. by exists u.
  - simplify_eq/=. by exists u.
Qed.

Lemma new_password_inv p w salt_hex hash_hex w' :
  new_password p w = (Some (salt_hex, hash_hex), w') →
  store w' = store w ∧ ∃ salt, length salt = SALT_LENGTH ∧ salt_hex = hex_text salt ∧ hash_hex = hex_text (pbkdf2 p salt).
Proof.
  unfold new_password, hash_password, tick. run_monad. destruct (random_at _ SALT_LENGTH) as [salt|] eqn:Er; [|done].
  apply random_length in Er. unfold bin_to_hex at 1. rewrite Er. cbn [Nat.ltb Nat.leb SALT_LENGTH Nat.mul Nat.add].
  run_monad. destruct (hashing_at _); [|done]. unfold bin_to_hex. rewrite pbkdf2_length.
  cbn [Nat.ltb Nat.leb SHA256_DIGEST_LENGTH Nat.mul Nat.add mbind option_bind]. intros [= <- <- <-]. split; [done|]. by exists salt.
Qed.

(** What [db_auth_authenticate] finds for an account: the readings are the
    query, the stack and the hash. *)
Lemma authenticate_account i name salt p q w t :
  store w = Some t → accounts_ok t → length salt = SALT_LENGTH → account i name salt p t →
  answers (readings w) = true → hashing_at (2 + readings w) = true →
  (db_auth_authenticate (Some name) (Some q) w).1 =
  Some (if bool_decide (pbkdf2 q salt = pbkdf2 p salt) then Some i else None).
Proof.
  intros E Hok Hsalt (u & Hu & <- & <- & Hs & Hh & Hact) Ha Hhash. unfold db_auth_authenticate, with_db. rewrite E.
  destruct (query_first (select_users (user_named (u_username u))) w t u [] E) as [Hw Hr].
  { apply (filter_unique u_username); [apply Hok|done|]. intros y. apply streq_true. }
  rewrite Ha in Hr. destruct Hr as [ys Hr]. unfold mbind at 1, M_bind. destruct (query _ w) as [r w1]. simpl in Hw, Hr. subst r w1.
  rewrite (proj2 (Z.eqb_neq _ _) Hact). rewrite Hs, Hh. unfold check_password, hash_password, tick. run_monad.
  assert (bin_to_hex salt (SALT_LENGTH * 2 + 1) = Some (hex_text salt)) as Hb by (unfold bin_to_hex; by rewrite Hsalt).
  rewrite (hex_roundtrip _ _ _ _ Hb) by by rewrite Hsalt, stack_length.
  rewrite drop_ge, app_nil_r by by rewrite Hsalt, stack_length. run_monad. cbn [Nat.add] in Hhash. rewrite Hhash.
  unfold bin_to_hex. rewrite pbkdf2_length. cbn [Nat.ltb Nat.leb SHA256_DIGEST_LENGTH Nat.mul Nat.add].
  change (streq _ _) with (bool_decide (hex_text (pbkdf2 p salt) = hex_text (pbkdf2 q salt))).
  case_bool_decide as Hd1; case_bool_decide as Hd2; try done.
  - unfold time, tick. run_monad. by destruct (execute _ _).
  - apply hex_text_inj in Hd1; [by destruct Hd2|]. by rewrite !pbkdf2_length.
  - by rewrite Hd2 in Hd1.
Qed.

Lemma create_user_inv n p e r w i w' :
  db_auth_create_user (Some n) (Some p) e r true w = (Some i, w') →
  ∃ t salt, store w' = Some t ∧ length salt = SALT_LENGTH ∧ account i n salt p t.
Proof.
  unfold db_auth_create_user, with_db. destruct (store w) as [t|] eqn:E; [|done].
  unfold mbind at 1, M_bind. rewrite (query_eq _ _ _ E).
  destruct (match sql_at _ with PrepareFails => _ | _ => _ end) as [[|x xs]|]; [|done..].
  unfold mbind at 1, M_bind. destruct (new_password p _) as [[[sh hh]|] w1] eqn:Ep; [|done].
  apply new_password_inv in Ep as (Ew & salt & Hl & -> & ->). unfold time, tick. run_monad.
  destruct (execute _ _) as [[d|] w2] eqn:Ex; [|done]. apply execute_inv in Ex as (t1 & t2 & E1 & Ha & E2 & _).
  unfold action. rewrite E2. intros [= <- <-]. exists t2, salt. split_and!; [done..|].
  simpl in Ha. destruct (existsb _ _); [done|]. destruct (next_id _) as [j|]; [|done]. simplify_eq/=.
  eexists. split; [simpl; apply elem_of_app; right; by apply list_elem_of_singleton|done].
Qed.

(** The calls of a history do not touch the name, the password or the
    activity of an account. *)
Definition undisturbed (i : Z) (cs : list call) : Prop := Forall (λ c, leaves_account i c = true) cs.

Lemma account_after i name salt p q cs w t :
  store w = Some t → accounts_ok t → length salt = SALT_LENGTH → account i name salt p t → undisturbed i cs →
  let w' := run cs w in
  answers (readings w') = true → hashing_at (2 + readings w') = true →
  (db_auth_authenticate (Some name) (Some q) w').1 =
  Some (if bool_decide (pbkdf2 q salt = pbkdf2 p salt) then Some i else None).
Proof.
  intros E Hok Hl Hacc Hcs w' Ha Hh.
  destruct (run_keeps (λ c, leaves_account i c = true) (account i name salt p) 0 cs w) as [Hk _]; [|done|lia| |].
  { intros c s t1 t2 Hc. by eapply account_kept. }
  { intros ??. by simplify_eq. }
  pose proof (run_accounts_ok cs w ltac:(intros ??; by simplify_eq)) as Hok'. fold w' in Hk, Hok'.
  destruct (run_open cs w t E) as [t' E'].
  by apply (authenticate_account i name salt p q w' t'); auto.
Qed.

(** C22: a new active user logs in with the password of the creation, and with
    no other that does not have the same PBKDF2 hash, after any history that
    does not change the account; a login returns the id of the creation. *)
Theorem create_then_authenticate n p e r w i w' :
  holds accounts_ok w → db_auth_create_user (Some n) (Some p) e r true w = (Some i, w') →
  ∃ salt, length salt = SALT_LENGTH ∧ ∀ cs q, undisturbed i cs →
    let w2 := run cs w' in
    answers (readings w2) = true → hashing_at (2 + readings w2) = true →
    (db_auth_authenticate (Some n) (Some q) w2).1 =
    Some (if bool_decide (pbkdf2 q salt = pbkdf2 p salt) then Some i else None).
Proof.
  intros Hok Ec. destruct (create_user_inv _ _ _ _ _ _ _ Ec) as (t & salt & E & Hl & Hacc).
  exists salt. split; [done|]. intros cs q Hcs. apply (account_after i n salt p q cs w' t); try done.
  pose proof (run_accounts_ok [CallCreateUser (Some n) (Some p) e r true] w Hok) as Hok'.
  cbn [run foldl perform] in Hok'. unfold mbind, M_bind in Hok'. rewrite Ec in Hok'. by apply Hok'.
Qed.

Lemma change_password_inv i p w w' t :
  store w = Some t → db_auth_change_password i (Some p) w = (0, w') →
  ∃ t' salt, store w' = Some t' ∧ length salt = SALT_LENGTH ∧
    ∀ u, u ∈ users t → u_id u = i → u_is_active u ≠ 0 → account i (u_username u) salt p t'.
Proof.
  unfold db_auth_change_password, with_db. intros E. rewrite E. unfold mbind at 1, M_bind. rewrite (query_eq _ _ _ E).
  destruct (match sql_at _ with PrepareFails => _ | _ => _ end) as [[|x xs]|]; [done| |done].
  destruct (negb (u_password_change_locked x =? 0)); [done|].
  unfold mbind at 1, M_bind. destruct (new_password p _) as [[[sh hh]|] w1] eqn:Ep; [|done].
  apply new_password_inv in Ep as (Ew & salt & Hl & -> & ->). unfold mbind at 1, M_bind.
  destruct (time w1) as [now w2] eqn:Et. intros (t1 & t' & E1 & Ha & E' & _)%status_inv. exists t', salt. split_and!; [done..|].
  assert (t1 = t) as ->. { unfold time, tick in Et. revert Et. run_monad. intros [= _ <-]. simpl in *. congruence. }
  intros u Hu Hi Hact. simpl in Ha. case_decide; [|done]. simplify_eq/=. eexists. split; [simpl; by apply list_elem_of_fmap_2|].
  rewrite Z.eqb_refl. by destruct u.
Qed.

(** after a password is changed, the user logs in with the new one, and the
    old one is refused unless it has the same PBKDF2 hash under the new salt. *)
Theorem change_then_authenticate i p w w' t u :
  store w = Some t → accounts_ok t → db_auth_change_password i (Some p) w = (0, w') →
  u ∈ users t → u_id u = i → u_is_active u ≠ 0 →
  ∃ salt, length salt = SALT_LENGTH ∧ ∀ cs q, undisturbed i cs →
    let w2 := run cs w' in
    answers (readings w2) = true → hashing_at (2 + readings w2) = true →
    (db_auth_authenticate (Some (u_username u)) (Some q) w2).1 =
    Some (if bool_decide (pbkdf2 q salt = pbkdf2 p salt) then Some i else None).
Proof.
  intros E Hok Ec Hu Hi Hact. destruct (change_password_inv _ _ _ _ _ E Ec) as (t' & salt & E' & Hl & Hacc).
  exists salt. split; [done|]. intros cs q Hcs. apply (account_after i _ salt p q cs w' t'); auto.
  pose proof (run_accounts_ok [CallChangePassword i (Some p)] w ltac:(intros ??; by simplify_eq)) as Hok'.
  cbn [run foldl perform] in Hok'. rewrite Ec in Hok'. by apply Hok'.
Qed.

Lemma query_salts wh w us w1 :
  holds accounts_ok w → query (select_users wh) w = (Some us, w1) → Forall (λ u, length (u_salt u) = (2 * SALT_LENGTH)%nat) us.
Proof.
  intros Hok. destruct (store w) as [t|] eqn:E.
  - rewrite (query_eq _ _ _ E). intros Hq. assert (us `sublist_of` select_users wh t) as Hs.
    { destruct (sql_at _) as [|k|]; [done|..]; simplify_eq; apply delivered_sublist. }
    apply Forall_forall. intros u Hu. eapply elem_of_sublist in Hu; [|exact Hs].
    apply list_elem_of_filter in Hu as [_ Hu]. by apply (passwords_ok _ (Hok _ E)).
  - unfold query, tick, action. run_monad. rewrite E. by destruct (sql_at _).
Qed.

Lemma check_password_defined h s p w : length s = (2 * SALT_LENGTH)%nat → (check_password h s p w).1 ≠ None.
Proof.
  intros Hs. unfold check_password, hash_password, tick. run_monad.
  destruct (hex_to_bin s _) as [[salt|]|] eqn:Eh; [|done|].
  - run_monad. by destruct (hashing_at _).
  - apply hex_to_bin_overrun in Eh. rewrite stack_length in Eh. lia.
Qed.

Lemma authenticate_defined n p w : holds accounts_ok w → (db_auth_authenticate n p w).1 ≠ None.
Proof.
  intros Hok. destruct n as [n|], p as [p|]; try done. unfold db_auth_authenticate, with_db.
  destruct (store w) eqn:E; [|done]. unfold mbind at 1, M_bind.
  destruct (query _ w) as [[[|u us]|] w1] eqn:Eq; [done| |done].
  apply query_salts in Eq as [Hu _]%Forall_cons; [|done]. destruct (u_is_active u =? 0); [done|].
  pose proof (check_password_defined (u_password_hash u) _ p w1 Hu) as Hc. unfold mbind at 1, M_bind.
  destruct (check_password _ _ _ _) as [[[]|] w2]; [|done|done]. unfold time, tick. run_monad. by destruct (execute _ _).
Qed.

Lemma verify_password_defined i p w : holds accounts_ok w → (db_auth_verify_password i p w).1 ≠ None.
Proof.
  intros Hok. destruct p as [p|]; [|done]. unfold db_auth_verify_password, with_db.
  destruct (store w) eqn:E; [|done]. unfold mbind at 1, M_bind.
  destruct (query _ w) as [[[|u us]|] w1] eqn:Eq; [done| |done].
  apply query_salts in Eq as [Hu _]%Forall_cons; [|done]. destruct (u_is_active u =? 0); [done|].
  pose proof (check_password_defined (u_password_hash u) _ p w1 Hu) as Hc. unfold mbind at 1, M_bind.
  by destruct (check_password _ _ _ _) as [[b|] w2].
Qed.

(** C21: in any history from tables that hold together, they still do, and no
    check of a password writes outside its buffer. *)
Theorem histories_keep_accounts cs w :
  holds accounts_ok w →
  holds accounts_ok (run cs w) ∧
  (∀ n p, (db_auth_authenticate n p (run cs w)).1 ≠ None) ∧ (∀ i p, (db_auth_verify_password i p (run cs w)).1 ≠ None).
Proof.
  intros Hw%(run_accounts_ok cs). split_and!; [done|intros; by apply authenticate_defined|intros; by apply verify_password_defined].
Qed.
End passwords.

(** ** Where the parts disagree *)

Section divergences.
Context {CR : Crypto} {EN : Environment} {SQ : Sqlite} {IC : InetConversions}.

(** A session from before the column [idle_expires_at] is listed as live, and
    refused by validation. *)
Lemma null_idle_listed_but_refused s u now :
  has_idle_expires_column schema = true → s_idle_expires_at s = None → 0 < now ≤ s_expires_at s →
  session_live (s_user_id s) now s = true ∧ session_valid now s u = false.
Proof.
  intros Hc Hn Hnow. unfold session_live, session_valid. rewrite Hc, Hn, Z.eqb_refl. cbn [negb orb andb default].
  rewrite (proj2 (Z.leb_gt now 0)) by lia. rewrite andb_false_r. split; [|done].
  by rewrite (proj2 (Z.geb_le _ _)) by lia.
Qed.

(** An empty list of tags restricts nothing: it reads as no restriction. *)
Lemma empty_tags_unrestricted i w w' t :
  store w = Some t → db_auth_set_allowed_tags i (Some []) w = (0, w') →
  ∃ t', store w' = Some t' ∧ ∀ u tags, u ∈ users t' → u_id u = i →
    db_auth_stream_allowed_for_user (Some (populate_user_from_stmt u)) tags = true.
Proof.
  unfold db_auth_set_allowed_tags, with_db. intros E. rewrite E. destruct (negb (has_allowed_tags schema)); [done|].
  unfold mbind at 1, M_bind. destruct (time w) as [now w1]. intros (t1 & t' & _ & Ha & E' & _)%status_inv.
  exists t'. split; [done|]. intros u tags Hu Hi. simpl in Ha. case_decide; [|done]. injection Ha as <-. simpl in Hu.
  apply list_elem_of_fmap in Hu as (v & -> & _). destruct (Z.eqb_spec (u_id v) i); [|done].
  destruct v. unfold populate_user_from_stmt. simpl. by destruct (has_allowed_tags schema).
Qed.
End divergences.

(** ** Concrete instances *)

#[local] Instance example_crypto : Crypto := {|
  pbkdf2 p s := take 32 (p ++ s ++ replicate 32 Byte.x00);
  sha256 s := take 32 (s ++ replicate 32 Byte.x00)
|}.

#[local] Instance example_crypto_laws : CryptoLaws.
Proof. split; intros; unfold pbkdf2, sha256, example_crypto, SHA256_DIGEST_LENGTH; rewrite length_take, !length_app, length_replicate; lia. Qed.

(** A generator that gives out after a hundred readings, a clock that ticks. *)
#[local] Instance example_environment : Environment := {|
  sql_at _ := Completes;
  time_at n := 1000 + Z.of_nat n;
  random_at n k := if (n <? 60)%nat then Some (replicate k (Z_byte (Z.of_nat n))) else None;
  hashing_at _ := true;
  stack_at _ := replicate 16 Byte.x00;
  schema := mkColumns true true true true true true true true;
  auth_absolute_timeout_hours := 168;
  auth_timeout_hours := 24;
  trusted_device_days := 30;
  web_password := []
|}.

#[local] Instance example_environment_laws : EnvironmentLaws.
Proof. split; [intros n k b; simpl; case_match; [intros [= <-]; apply length_replicate|done]|done]. Qed.

#[local] Existing Instance merging_sqlite.
#[local] Existing Instance known_conversions.

Definition example_start : world := mkWorld (Some (mkTables [] [] [] 0 0 0)) 0.

Lemma example_start_ok : holds accounts_ok example_start.
Proof.
  intros t [= <-]. constructor; simpl; try (split; [constructor|set_solver]); try apply NoDup_nil_2; try set_solver; try done.
Qed.

(** An administrator, a user, and a session of the latter. *)
Definition example_calls : list call :=
  [CallInit; CallCreateUser (Some (lit "bob")) (Some (lit "secret")) None USER_ROLE_USER true;
   CallCreateSession 2 (Some (lit "10.0.0.1")) None 0 33].

Definition example_world : world := run example_calls example_start.
Definition example_tables : tables := default (mkTables [] [] [] 0 0 0) (store example_world).
Definition example_token : cstr := random_text (replicate 32 (Z_byte 12)).

Lemma example_store : store example_world = Some example_tables.
Proof. vm_compute. reflexivity. Qed.

Lemma example_ok : accounts_ok example_tables.
Proof. exact (run_accounts_ok example_calls example_start example_start_ok _ example_store). Qed.

Lemma example_not_drawn lo token :
  forallb (λ n, (n <? lo)%nat || negb (streq (random_text (replicate 32 (Z_byte (Z.of_nat n)))) token)) (seq 0 60) = true →
  ¬ drawn lo token.
Proof.
  intros Hall (n & b & Hn & Hb & ->). simpl in Hb. destruct (Nat.ltb_spec n 60); [|done]. simplify_eq.
  rewrite forallb_forall in Hall. specialize (Hall n). rewrite in_seq in Hall. specialize (Hall ltac:(lia)).
  rewrite (proj2 (Nat.ltb_ge _ _) Hn) in Hall. cbn [orb] in Hall. unbool. done.
Qed.

Lemma validate_session_spec_witness :
  answers (readings example_world) = true ∧
  ∃ s u, s ∈ sessions example_tables ∧ s_token s = example_token ∧ u ∈ users example_tables ∧ u_id u = s_user_id s ∧
    s_user_id s = 2 ∧ session_valid (time_at (S (readings example_world))) s u = true.
Proof.
  apply (validate_session_spec example_token None None example_world example_tables 2 example_store example_ok).
  vm_compute. reflexivity.
Defined.

Definition example_session : session_row := default (mkSessionRow 0 0 [] 0 None None 0 None None) (head (sessions example_tables)).

Lemma revocation_is_final_witness :
  (perform (CallDeleteUser 2) example_world).1 = 0 ∧
  (db_auth_validate_session_with_context (Some (s_token example_session)) None None
     (run example_calls (perform (CallDeleteUser 2) example_world).2)).1 = None.
Proof.
  assert (E : (perform (CallDeleteUser 2) example_world).1 = 0) by (vm_compute; reflexivity). split; [exact E|].
  apply (revocation_is_final (CallDeleteUser 2) example_world example_tables example_session example_calls None None
           example_store example_ok); [|vm_compute; reflexivity|exact E|].
  - apply (list_elem_of_lookup_2 _ 0). vm_compute. reflexivity.
  - apply example_not_drawn. vm_compute. reflexivity.
Defined.

Definition example_created := db_auth_create_session 2 None None 60 33 example_world.
Definition example_new_token : cstr := default [] example_created.1.

Lemma session_lifetime_bounded_witness :
  2 = 2 ∧ time_at (S (readings (run [CallCleanupSessions] example_created.2))) ≤
  time_at (2 + readings example_world) + session_lifetime 60.
Proof.
  apply (session_lifetime_bounded 2 None None 60 33 example_world example_new_token example_created.2
           [CallCleanupSessions] None None 2).
  - vm_compute. reflexivity.
  - apply example_not_drawn. vm_compute. reflexivity.
  - vm_compute. reflexivity.
Defined.

Lemma cleanup_invisible_witness :
  (db_auth_validate_session_with_context (Some example_token) None None
     (mkWorld (store (db_auth_cleanup_sessions example_world).2) 20)).1 =
  (db_auth_validate_session_with_context (Some example_token) None None (mkWorld (Some example_tables) 20)).1.
Proof.
  apply (cleanup_invisible example_world example_tables example_token None None 20 example_store example_ok).
  vm_compute. discriminate.
Defined.

Definition example_signup := db_auth_create_user (Some (lit "eve")) (Some (lit "pw")) None USER_ROLE_VIEWER true example_world.

Lemma create_then_authenticate_witness :
  ∃ salt, length salt = SALT_LENGTH ∧ ∀ cs q, undisturbed 3 cs →
    let w2 := run cs example_signup.2 in
    answers (readings w2) = true → hashing_at (2 + readings w2) = true →
    (db_auth_authenticate (Some (lit "eve")) (Some q) w2).1 =
    Some (if bool_decide (pbkdf2 q salt = pbkdf2 (lit "pw") salt) then Some 3 else None).
Proof.
  apply (create_then_authenticate (lit "eve") (lit "pw") None USER_ROLE_VIEWER example_world 3 example_signup.2).
  - intros t Et. rewrite example_store in Et. injection Et as <-. exact example_ok.
  - vm_compute. reflexivity.
Defined.

Definition example_change := db_auth_change_password 2 (Some (lit "new")) example_world.
Definition example_user : user_row :=
  default (mkUserRow 0 [] [] [] 0 None 0 0 None 0 None 0 None 0 None None) (users example_tables !! 1%nat).

Lemma change_then_authenticate_witness :
  ∃ salt, length salt = SALT_LENGTH ∧ ∀ cs q, undisturbed 2 cs →
    let w2 := run cs example_change.2 in
    answers (readings w2) = true → hashing_at (2 + readings w2) = true →
    (db_auth_authenticate (Some (u_username example_user)) (Some q) w2).1 =
    Some (if bool_decide (pbkdf2 q salt = pbkdf2 (lit "new") salt) then Some 2 else None).
Proof.
  apply (change_then_authenticate 2 (lit "new") example_world example_change.2 example_tables example_user example_store example_ok).
  - vm_compute. reflexivity.
  - apply (list_elem_of_lookup_2 _ 1). vm_compute. reflexivity.
  - vm_compute. reflexivity.
  - vm_compute. discriminate.
Defined.

Lemma histories_keep_accounts_witness :
  holds accounts_ok (run example_calls example_start) ∧
  (∀ n p, (db_auth_authenticate n p (run example_calls example_start)).1 ≠ None) ∧
  (∀ i p, (db_auth_verify_password i p (run example_calls example_start)).1 ≠ None).
Proof. exact (histories_keep_accounts example_calls example_start example_start_ok). Defined.

Lemma empty_tags_unrestricted_witness :
  ∃ t', store (db_auth_set_allowed_tags 2 (Some []) example_world).2 = Some t' ∧ ∀ u tags, u ∈ users t' → u_id u = 2 →
    db_auth_stream_allowed_for_user (Some (populate_user_from_stmt u)) tags = true.
Proof.
  apply (empty_tags_unrestricted 2 example_world _ example_tables example_store). vm_compute. reflexivity.
Defined.
