(* ===== verification/AccountLogin.v ===== *)
(** * Logins on the account tables

    [HttpUtils] decides who makes a request through the interface [AuthStore];
    [Accounts] has the statements of [src/database/db_auth.c].  This file puts
    the second behind the first: what a granted request says of the rows. *)
From Stdlib Require Import ZArith Lia Bool.
From Stdlib Require Import Strings.Byte.
From stdpp Require Import base numbers list strings relations.
From S2P Require Import Prelude.
From S2P Require Import Sql.
From S2P Require Import Libc.
From S2P Require Import CStrings.
From S2P Require Import Auth.
From S2P Require Import HttpMessage.
From S2P Require Import HttpUtils.
From S2P Require Import Accounts.
#[local] Open Scope Z_scope.

Section login.
Context {CR : Crypto} {EN : Environment} {IC : InetConversions}.
Context {CL : CryptoLaws} {EL : EnvironmentLaws}.

(** The functions that a request calls; undefined behaviour is a refusal
    here, and [Accounts.histories_keep_accounts] excludes it. *)
#[export] Instance accounts_store : AuthStore world := {|
  HttpUtils.db_auth_validate_session token := Accounts.db_auth_validate_session (Some token);
  HttpUtils.db_auth_get_user_by_id := Accounts.db_auth_get_user_by_id;
  HttpUtils.db_auth_validate_session_with_context token ip ua w :=
    let '(user, w) := Accounts.db_auth_validate_session_with_context (Some token) (Some ip) (Some ua) w in
    (bool_decide (is_Some user), w);
  HttpUtils.db_auth_authenticate name password w :=
    let '(user, w) := Accounts.db_auth_authenticate (Some name) (Some password) w in (mjoin user, w);
  HttpUtils.db_auth_get_user_by_api_key key := Accounts.db_auth_get_user_by_api_key (Some key)
|}.

#[local] Arguments Accounts.db_auth_validate_session_with_context : simpl never.
#[local] Arguments Accounts.db_auth_validate_session : simpl never.
#[local] Arguments Accounts.db_auth_authenticate : simpl never.
#[local] Arguments Accounts.db_auth_get_user_by_id : simpl never.
#[local] Arguments Accounts.db_auth_get_user_by_api_key : simpl never.
#[local] Arguments db_auth_ip_allowed_for_user : simpl never.

(** A row, up to the time of the last login. *)
Definition logged (l : option Z) (r : user_row) : user_row :=
  match l with Some l => assign_user (SetLastLogin l) r | None => r end.

(** What a login may change: times of logins, and the tracking of sessions. *)
Definition login_statement (s : statement) : Prop :=
  (∃ i l, s = UpdateUser i [SetLastLogin l]) ∨ ∃ i sets, s = UpdateSession i sets.

Definition evolved (t t' : tables) : Prop :=
  (∀ r', r' ∈ users t' → ∃ r l, r ∈ users t ∧ r' = logged l r) ∧
  (∀ s', s' ∈ sessions t' → ∃ s, s ∈ sessions t ∧ s_token s' = s_token s ∧ s_user_id s' = s_user_id s).

#[local] Instance evolved_preorder : PreOrder evolved.
Proof.
  split.
  - intros t. split; [intros r Hr; by exists r, None|eauto].
  - intros t1 t2 t3 [Hu Hs] [Hu' Hs']. split.
    + intros r3 (r2 & l2 & (r1 & l1 & Hr & ->)%Hu & ->)%Hu'. exists r1.
      destruct l2 as [l2|]; [|by exists l1]. exists (Some l2). split; [done|]. by destruct l1, r1.
    + intros s3 (s2 & (s1 & Hs1 & -> & ->)%Hs & -> & ->)%Hs'. eauto.
Qed.

Lemma login_statement_evolved s t t' : login_statement s → apply_statement s t = Some t' → evolved t t'.
Proof.
  intros [(i & l & ->)|(i & sets & ->)] E; simpl in E.
  - case_decide; [|done]. simplify_eq. split; simpl; [|eauto].
    intros r' (r & -> & Hr)%list_elem_of_fmap. exists r, (if u_id r =? i then Some l else None). split; [done|]. by case_match.
  - simplify_eq. split; simpl; [intros r Hr; by exists r, None|].
    intros s' (s & -> & Hs)%list_elem_of_fmap. exists s. case_match; [|done].
    by destruct (assigned_session sets s) as (_ & -> & -> & _).
Qed.

(** The world of a login that began with the tables [t]. *)
Definition since (t : tables) (w : world) : Prop :=
  ∃ t', store w = Some t' ∧ evolved t t' ∧ devices t' = devices t ∧ accounts_ok t' ∧ u_id <$> users t' = u_id <$> users t.

Lemma since_refl t w : store w = Some t → accounts_ok t → since t w.
Proof. intros E Hok. exists t. by split_and!. Qed.

Lemma since_runs {A} (m : M A) Q t w : runs 0 m login_statement Q → since t w → since t (m w).2.
Proof.
  intros Hm (t1 & E & Ht). destruct (runs_keeps 0 m _ Q (λ t', evolved t t' ∧ devices t' = devices t ∧ accounts_ok t' ∧ u_id <$> users t' = u_id <$> users t) w Hm) as [Hk _].
  - intros s t2 t3 Hs (He & Hd & Hok & Hi) E3. split_and!; [etrans; [exact He|by eapply login_statement_evolved]| | |].
    + rewrite <- Hd. destruct Hs as [(i & l & ->)|(i & sets & ->)]; simpl in E3; [case_decide; [|done]|]; by simplify_eq.
    + apply (statement_ok 0 CallInit s t2 t3); [|done|done]. destruct Hs as [(i & l & ->)|(i & sets & ->)]; repeat constructor.
    + rewrite <- Hi. destruct Hs as [(i & l & ->)|(i & sets & ->)]; simpl in E3; [case_decide; [|done]|]; simplify_eq; [|done].
      apply fmap_key. intros x. case_match; [|done]. by destruct x.
  - lia.
  - intros ??. by simplify_eq.
  - destruct (store (m w).2) as [t'|] eqn:E'; [exists t'; split; [done|exact (Hk t' E')]|]. destruct (Hm w ltac:(lia)) as [Hr _].
    rewrite E, E' in Hr. by apply open_stays_open in Hr.
Qed.

Lemma runs_validate token ip ua : runs 0 (Accounts.db_auth_validate_session_with_context token ip ua) login_statement (λ _, True).
Proof. unfold Accounts.db_auth_validate_session_with_context. repeat run_step; try done; right; eauto. Qed.

Lemma runs_authenticate n p : runs 0 (Accounts.db_auth_authenticate n p) login_statement (λ _, True).
Proof. unfold Accounts.db_auth_authenticate. repeat run_step; try done; left; eauto. Qed.

Lemma get_user_inv wh w u w' :
  get_user wh w = (Some u, w') → ∃ t r, store w = Some t ∧ r ∈ users t ∧ wh r = true ∧ u = populate_user_from_stmt r.
Proof.
  unfold get_user, with_db, prepare_user_lookup_stmt. destruct (store w) as [t|] eqn:E; [|done].
  unfold mbind at 1, M_bind. rewrite (query_eq _ _ _ E). run_monad. intros Eq.
  assert (∃ us r rest, us = r :: rest ∧ us `sublist_of` select_users wh t ∧ u = populate_user_from_stmt r) as (us & r & rest & -> & Hs & ->).
  { destruct (sql_at _) as [|k|]; [done|..].
    - destruct (delivered (StepFails k) (select_users wh t)) as [|r rest] eqn:Ed; [done|]. simplify_eq/=.
      exists (r :: rest), r, rest. split_and!; [done|rewrite <-Ed; apply sublist_take|done].
    - destruct (delivered Completes (select_users wh t)) as [|r rest] eqn:Ed; [done|]. simplify_eq/=.
      exists (r :: rest), r, rest. split_and!; [done|by rewrite <-Ed|done]. }
  assert (r ∈ select_users wh t) as Hr by (eapply elem_of_sublist; [|exact Hs]; left).
  apply list_elem_of_filter in Hr as [? ?]. by exists t, r.
Qed.

(** The password of a row, as [db_auth_authenticate] checks it. *)
Definition password_matches (r : user_row) (password : cstr) : Prop :=
  ∃ n salt, hex_to_bin (u_salt r) (stack_at n) = Some (Some salt) ∧ u_password_hash r = hex_text (pbkdf2 password salt).

Lemma check_password_inv h s p w w' :
  check_password h s p w = (Some true, w') →
  ∃ n salt, hex_to_bin s (stack_at n) = Some (Some salt) ∧ h = hex_text (pbkdf2 p salt).
Proof.
  unfold check_password, hash_password, tick. run_monad. destruct (hex_to_bin s _) as [[salt|]|] eqn:E; [|done..].
  run_monad. destruct (hashing_at _); [|done]. destruct (bin_to_hex _ _) eqn:Eb; [|done].
  unfold bin_to_hex in Eb. case_match; [done|]. simplify_eq. intros [= Hh _]. unbool. eauto.
Qed.

Lemma query_users_inv wh w u rest w' :
  query (select_users wh) w = (Some (u :: rest), w') → ∃ t, store w = Some t ∧ u ∈ users t ∧ wh u = true.
Proof.
  destruct (store w) as [t|] eqn:E.
  - rewrite (query_eq _ _ _ E). intros Eq. exists t. split; [done|].
    assert (u :: rest `sublist_of` select_users wh t) as Hs.
    { destruct (sql_at _) as [|k|]; [done| |]; injection Eq as Ed _; rewrite <-Ed; [apply sublist_take|done]. }
    assert (u ∈ select_users wh t) as [? ?]%list_elem_of_filter by (eapply elem_of_sublist; [|exact Hs]; left). done.
  - unfold query, tick, action. run_monad. rewrite E. by destruct (sql_at _).
Qed.

Lemma authenticate_inv n p w i w' :
  Accounts.db_auth_authenticate (Some n) (Some p) w = (Some (Some i), w') →
  ∃ t r, store w = Some t ∧ r ∈ users t ∧ u_id r = i ∧ u_username r = n ∧ u_is_active r ≠ 0 ∧ password_matches r p.
Proof.
  unfold Accounts.db_auth_authenticate, with_db. destruct (store w) as [t|] eqn:E; [|done].
  unfold mbind at 1, M_bind. destruct (query _ w) as [[[|r rest]|] w1] eqn:Eq; [done| |done].
  apply query_users_inv in Eq as (t1 & E1 & Hr & Hn). rewrite E in E1. simplify_eq.
  destruct (Z.eqb_spec (u_is_active r) 0); [done|]. unfold mbind at 1, M_bind.
  destruct (check_password _ _ _ _) as [[[]|] w2] eqn:Ec; [|done|done]. apply check_password_inv in Ec as (m & salt & Hs & Hh).
  unfold time, tick. run_monad. destruct (execute _ _). intros [= <- _]. exists t1, r. unfold user_named in Hn. unbool.
  split_and!; try done. by exists m, salt.
Qed.

(** ** Requests *)

(** How the request proves the row [r] of [t]: the cookie of one of its
    sessions, its name and password, or its key. *)
Inductive credential (req : http_request_t) (t : tables) (r : user_row) : Prop :=
  | session_cookie s : httpd_get_session_token req 64 = Some (s_token s) → s ∈ sessions t → s_user_id s = u_id r →
      credential req t r
  | name_and_password p : httpd_get_basic_auth_credentials req 64 64 = Some (u_username r, p) → password_matches r p →
      credential req t r
  | key_header k : httpd_get_api_key req 128 = Some (Some k) → u_api_key r = Some k → credential req t r.

(** The user returned is an active row of [t], up to the time of its last
    login, that the request proves and whose allow-list admits the address. *)
Definition granted (req : http_request_t) (ip : cstr) (t : tables) (u : user_t) : Prop :=
  ∃ r l, r ∈ users t ∧ u_is_active r ≠ 0 ∧ u = populate_user_from_stmt (logged l r) ∧ credential req t r ∧
    db_auth_ip_allowed_for_user (Some u) (Some ip) = true.

Lemma logged_fields l r :
  u_id (logged l r) = u_id r ∧ u_username (logged l r) = u_username r ∧ u_is_active (logged l r) = u_is_active r ∧
  u_api_key (logged l r) = u_api_key r ∧ u_salt (logged l r) = u_salt r ∧ u_password_hash (logged l r) = u_password_hash r.
Proof. by destruct l, r. Qed.

Lemma same_user t r r' : accounts_ok t → r ∈ users t → r' ∈ users t → u_id r = u_id r' → r = r'.
Proof.
  intros [[Hd _] _ _ _ _ _ _ _ _ _] Hr Hr' E. apply list_elem_of_lookup in Hr as [i Hi], Hr' as [j Hj].
  enough (i = j) by naive_solver. apply (NoDup_lookup _ i j (u_id r) Hd); rewrite list_lookup_fmap.
  - by rewrite Hi.
  - by rewrite Hj, E.
Qed.

Lemma session_login_granted req ip t w u w' :
  accounts_ok t → since t w → session_login req ip w = (u, w') →
  since t w' ∧ ∀ x, u = Some x → granted req ip t x.
Proof.
  intros Hok Hw. unfold session_login. destruct (httpd_get_session_token req 64) as [token|] eqn:Et; [|by intros [= <- <-]].
  simpl. unfold Accounts.db_auth_validate_session. pose proof (since_runs _ _ _ _ (runs_validate (Some token) None None) Hw) as H1.
  destruct (Accounts.db_auth_validate_session_with_context _ _ _ w) as [[i|] w1] eqn:Ev; [|by intros [= <- <-]].
  destruct (validate_inv token None None w i) as (t0 & s0 & u0 & E0 & Hs0 & Es0 & Hu0 & Eu0 & Ei & Hv); [by rewrite Ev|].
  simpl in H1. pose proof (since_runs _ _ _ _ (runs_get_user 0 (user_numbered i) login_statement) H1) as H2.
  unfold Accounts.db_auth_get_user_by_id. destruct (get_user _ w1) as [[x|] w2] eqn:Eg; [|by intros [= <- <-]].
  simpl in H2. destruct (db_auth_ip_allowed_for_user _ _) eqn:Eip; [|by intros [= <- <-]].
  pose proof (since_runs _ _ _ _ (runs_validate (Some token) (Some ip) (Some (user_agent req))) H2) as H3.
  destruct (Accounts.db_auth_validate_session_with_context _ _ _ w2) as [[j|] w3]; intros [= <- <-]; (split; [done|]); [|done].
  intros y [= <-]. apply get_user_inv in Eg as (t1 & r1 & E1 & Hr1 & Hi1 & ->).
  destruct Hw as (t0' & E0' & [Hu Hs] & _). rewrite E0 in E0'. injection E0' as <-.
  destruct H1 as (t1' & E1' & [Hu1 _] & _). rewrite E1 in E1'. injection E1' as <-.
  destruct (Hs _ Hs0) as (s & Hsin & Hst & Hsu). destruct (Hu _ Hu0) as (r & l & Hr & Er).
  destruct (Hu1 _ Hr1) as (r' & l' & Hr' & ->).
  pose proof (logged_fields l r) as (Fi & _ & Fa & _). pose proof (logged_fields l' r') as (Fi' & _). subst u0.
  unfold user_numbered in Hi1. unfold session_valid in Hv. unbool.
  assert (r' = r) as -> by (apply (same_user t); congruence).
  exists r, l'. split_and!; try done; [congruence|]. apply (session_cookie _ _ _ s); congruence.
Qed.

Lemma basic_login_granted req ip t w u w' :
  accounts_ok t → since t w → basic_login req ip w = (u, w') →
  since t w' ∧ ∀ x, u = Some x → granted req ip t x.
Proof.
  intros Hok Hw. unfold basic_login. destruct (httpd_get_basic_auth_credentials req 64 64) as [[n p]|] eqn:Ec; [|by intros [= <- <-]].
  destruct (negb (empty n) && negb (empty p)); [|by intros [= <- <-]]. simpl.
  pose proof (since_runs _ _ _ _ (runs_authenticate (Some n) (Some p)) Hw) as H1.
  destruct (Accounts.db_auth_authenticate _ _ w) as [[[i|]|] w1] eqn:Ea; simpl; [|by intros [= <- <-]..].
  apply authenticate_inv in Ea as (t0 & r0 & E0 & Hr0 & Hi0 & Hn0 & Ha0 & Hp0).
  simpl in H1. pose proof (since_runs _ _ _ _ (runs_get_user 0 (user_numbered i) login_statement) H1) as H2.
  unfold Accounts.db_auth_get_user_by_id. destruct (get_user _ w1) as [[x|] w2] eqn:Eg; [|by intros [= <- <-]].
  destruct (db_auth_ip_allowed_for_user _ _) eqn:Eip; intros [= <- <-]; (split; [done|]); [|done].
  intros y [= <-]. apply get_user_inv in Eg as (t1 & r1 & E1 & Hr1 & Hi1 & ->).
  destruct Hw as (t0' & E0' & [Hu _] & _). rewrite E0 in E0'. injection E0' as <-.
  destruct H1 as (t1' & E1' & [Hu1 _] & _). rewrite E1 in E1'. injection E1' as <-.
  destruct (Hu _ Hr0) as (r & l & Hr & ->). destruct (Hu1 _ Hr1) as (r' & l' & Hr' & ->).
  pose proof (logged_fields l r) as (Fi & Fn & Fa & _ & Fs & Fh). pose proof (logged_fields l' r') as (Fi' & _).
  unfold user_numbered in Hi1. unbool. assert (r' = r) as -> by (apply (same_user t); congruence).
  exists r, l'. split_and!; try done; [congruence|]. apply (name_and_password _ _ _ p); [congruence|].
  unfold password_matches in *. by rewrite <-Fs, <-Fh.
Qed.

Lemma api_key_login_granted req ip t w u w' :
  since t w → api_key_login req ip w = Some (Some u, w') → granted req ip t u.
Proof.
  intros Hw. unfold api_key_login. destruct (httpd_get_api_key req 128) as [[k|]|] eqn:Ek; [|done..]. simpl. unfold Accounts.db_auth_get_user_by_api_key.
  destruct (get_user _ w) as [[x|] w1] eqn:Eg; [|done]. destruct (is_active x && _) eqn:Ea; [|done]. intros [= <- <-].
  apply get_user_inv in Eg as (t1 & r1 & E1 & Hr1 & Hk & ->). destruct Hw as (t1' & E1' & [Hu _] & _). rewrite E1 in E1'.
  injection E1' as <-. destruct (Hu _ Hr1) as (r & l & Hr & ->). apply andb_true_iff in Ea as [Ha Hip].
  pose proof (logged_fields l r) as (_ & _ & Fa & Fk & _). exists r, l. split_and!; try done.
  - simpl in Ha. unbool. congruence.
  - apply (key_header _ _ _ k); [done|]. unfold user_keyed, sql_text_is in Hk. destruct (u_api_key _) eqn:E; [|done].
    unbool. congruence.
Qed.

Lemma api_key_login_since req ip t w u w' : since t w → api_key_login req ip w = Some (u, w') → since t w'.
Proof.
  intros Hw. unfold api_key_login. destruct (httpd_get_api_key req 128) as [[k|]|]; [|by intros [= <- <-]|done]. simpl.
  unfold Accounts.db_auth_get_user_by_api_key.
  pose proof (since_runs _ _ _ _ (runs_get_user 0 (user_keyed k) login_statement) Hw) as H1.
  destruct (get_user _ w) as [[x|] w1]; intros [= _ <-]; done.
Qed.

(** Who a request is from, and what asking has changed. *)
Lemma authenticated_granted cfg req w t u w' :
  web_auth_enabled cfg = true → store w = Some t → accounts_ok t →
  httpd_get_authenticated_user cfg req w = Some (u, w') →
  since t w' ∧ ∃ ip, request_ip cfg req = Some ip ∧ ∀ x, u = Some x → granted req ip t x.
Proof.
  intros Hen E Hok. unfold httpd_get_authenticated_user. rewrite Hen.
  destruct (request_ip cfg req) as [ip|]; [cbn [mbind option_bind negb]|done]. intros Eq.
  pose proof (since_refl t w E Hok) as Hw.
  destruct (session_login req ip w) as [us w1] eqn:Es. apply (session_login_granted _ _ t) in Es as [H1 Hs]; [|done..].
  destruct us as [x|]; [simplify_eq; eauto|].
  destruct (basic_login req ip w1) as [ub w2] eqn:Eb. apply (basic_login_granted _ _ t) in Eb as [H2 Hb]; [|done..].
  destruct ub as [x|]; [simplify_eq; eauto|]. split; [exact (api_key_login_since _ _ _ _ _ _ H2 Eq)|]. exists ip. split; [done|].
  intros x ->. exact (api_key_login_granted _ _ _ _ _ _ H2 Eq).
Qed.

(** C3: with authentication enabled, a request that is answered with a user
    has the credential of an active row of the tables (the cookie of a session
    of that user, its name and password, or its key), comes from an address of
    the user's allow-list, and is given the columns of that very row. *)
Theorem authenticated_request_has_account cfg req w t u w' :
  web_auth_enabled cfg = true → store w = Some t → accounts_ok t →
  httpd_get_authenticated_user cfg req w = Some (Some u, w') →
  ∃ ip, request_ip cfg req = Some ip ∧ granted req ip t u.
Proof.
  intros Hen E Hok Eq. destruct (authenticated_granted _ _ _ _ _ _ Hen E Hok Eq) as (_ & ip & Hip & Hg).
  exists ip. split; [done|]. by apply Hg.
Qed.
End login.

(** ** A request with the cookie of a session *)

#[local] Existing Instances example_crypto example_crypto_laws example_environment example_environment_laws known_conversions.

Definition example_cookie_request : http_request_t :=
  example_request (lit "10.1.3.7") [mkHeader (lit "Cookie") (lit "session=" ++ example_token)].

Definition example_answer := httpd_get_authenticated_user example_config example_cookie_request example_world.

Lemma authenticated_request_has_account_witness :
  ∃ u w, example_answer = Some (Some u, w) ∧
    ∃ ip, request_ip example_config example_cookie_request = Some ip ∧ granted example_cookie_request ip example_tables u.
Proof.
  assert (E : ∃ u w, example_answer = Some (Some u, w)).
  { destruct example_answer as [[[u|] w]|] eqn:E; [eauto|exfalso; revert E; vm_compute; discriminate..]. }
  destruct E as (u & w & E). exists u, w. split; [exact E|].
  exact (authenticated_request_has_account example_config example_cookie_request example_world example_tables u w
           eq_refl example_store example_ok E).
Defined.
