(* ===== verification/RecordingList.v ===== *)
(** * Listing recordings: [src/web/api_handlers_recordings_list.c]

    The filters and pages of [src/database/db_recordings.c], and the decisions of
    the request handler in front of them: who asks, which streams that user may
    see, which page is given.  The JSON around the answer is left out. *)
From Stdlib Require Import ZArith Lia Bool.
From Stdlib Require Import Strings.Byte.
From Stdlib Require Import Sorting.Sorted.
From stdpp Require Import base numbers list strings sets.
From S2P Require Import Prelude.
From S2P Require Import Sql.
From S2P Require Import Libc.
From S2P Require Import CStrings.
From S2P Require Import Auth.
From S2P Require Import HttpMessage.
From S2P Require Import HttpUtils.
From S2P Require Import Recordings.
#[local] Open Scope Z_scope.

Definition MAX_MULTI_FILTER_VALUES : nat := 32.
Definition MAX_MULTI_FILTER_VALUE_LEN : nat := 128.
Definition MAX_SELECTED_STREAM_FILTERS : nat := 32.
Definition MAX_SELECTED_STREAM_NAME_LEN : nat := 64.

Definition comma (c : byte) : bool := bool_decide (c = Byte.x2c).

(** ** Queries *)

(** [LIKE]: a pattern and a value. *)
Class SqlLike := { like : cstr → cstr → bool }.

(** The columns of [detections] that the filters read. *)
Record detection_row := mkDetectionRow {
  dt_recording_id : option Z;
  dt_stream_name : cstr;
  dt_timestamp : Z;
  dt_label : cstr
}.

(** The tables that are joined; [recording_tags] pairs recordings with tags. *)
Record library_db := mkLibraryDb {
  recordings : table;
  detection_rows : list detection_row;
  recording_tags : list (Z * cstr)
}.

(** The loop of [parse_csv_filter_values] over the tokens. *)
Fixpoint csv_loop (max_values : nat) (tokens values : list cstr) : list cstr :=
  match tokens with
  | [] => values
  | token :: tokens =>
      if (max_values <=? length values)%nat then values else
      let token := trim token in
      if empty token || existsb (λ v, streq v token) values then csv_loop max_values tokens values
      else csv_loop max_values tokens (values ++ [strcpy_trunc MAX_MULTI_FILTER_VALUE_LEN token])
  end.

Definition parse_csv_filter_values (csv : option cstr) (max_values : nat) : list cstr :=
  match csv with
  | None | Some [] => []
  | Some csv =>
      csv_loop max_values
        (strtok comma [] (strcpy_trunc (MAX_MULTI_FILTER_VALUES * MAX_MULTI_FILTER_VALUE_LEN) csv)) []
  end.

(** The arguments that the count and the page share. *)
Record filters := mkFilters {
  f_start_time : Z;
  f_end_time : Z;
  f_stream_name : option cstr;
  f_has_detection : Z;
  f_detection_label : option cstr;
  f_protected : Z;
  f_allowed_streams : list cstr;
  f_tag : option cstr;
  f_capture_method : option cstr
}.

Section queries.
Context {SQ : Sqlite} {SL : SqlLike}.

Definition values_of (csv : option cstr) : list cstr := parse_csv_filter_values csv MAX_MULTI_FILTER_VALUES.

Definition one_of (values : list cstr) (s : cstr) : bool := existsb (λ v, streq v s) values.

(** [d.stream_name = r.stream_name AND d.timestamp >= r.start_time AND d.timestamp <= r.end_time] *)
Definition detected_during (x : row) (d : detection_row) : bool :=
  streq (dt_stream_name d) (c_stream_name x) && (dt_timestamp d >=? c_start_time x) &&
  match c_end_time x with Some e => dt_timestamp d <=? e | None => false end.

Definition detected (db : library_db) (x : row) : bool :=
  existsb (λ d, sql_is (dt_recording_id d) (c_id x)) (detection_rows db) || existsb (detected_during x) (detection_rows db).

Definition has_detection_clause (f : filters) (db : library_db) (x : row) : bool :=
  if f_has_detection f =? 1 then sql_text_is (c_trigger_type x) (lit "detection") || detected db x
  else if f_has_detection f =? -1 then negb (sql_text_is (c_trigger_type x) (lit "detection")) && negb (detected db x)
  else true.

Definition label_clause (labels : list cstr) (db : library_db) (x : row) : bool :=
  let labelled d := existsb (λ l, like (lit "%" ++ l ++ lit "%") (dt_label d)) labels in
  match labels with
  | [] => true
  | _ =>
      existsb (λ d, sql_is (dt_recording_id d) (c_id x) && labelled d) (detection_rows db) ||
      existsb (λ d, bool_decide (dt_recording_id d = None) && detected_during x d && labelled d) (detection_rows db)
  end.

Definition stream_clause (f : filters) (x : row) : bool :=
  match values_of (f_stream_name f) with
  | [] => match f_allowed_streams f with [] => true | allowed => one_of allowed (c_stream_name x) end
  | streams => one_of streams (c_stream_name x)
  end.

(** The [WHERE] of both queries. *)
Definition recording_matches (f : filters) (db : library_db) (x : row) : bool :=
  sql_is (c_is_complete x) 1 && bool_decide (is_Some (c_end_time x)) &&
  has_detection_clause f db x &&
  label_clause (values_of (f_detection_label f)) db x &&
  (if f_start_time f >? 0 then c_start_time x >=? f_start_time f else true) &&
  (if f_end_time f >? 0 then c_start_time x <=? f_end_time f else true) &&
  stream_clause f x &&
  (if f_protected f =? 0 then sql_is (c_protected x) 0 else if f_protected f =? 1 then sql_is (c_protected x) 1 else true) &&
  (match values_of (f_tag f) with
   | [] => true
   | tags => existsb (λ t, (t.1 =? c_id x) && one_of tags t.2) (recording_tags db)
   end) &&
  (match values_of (f_capture_method f) with
   | [] => true
   | methods => one_of methods (default (lit "scheduled") (c_trigger_type x))
   end).

Definition matching (f : filters) (db : library_db) : list row :=
  filter (λ x, recording_matches f db x = true) (rows (recordings db)).

(** -1 on errors. *)
Definition get_recording_count (r : sql_run) (f : filters) (db : option library_db) : Z :=
  match db with
  | None => -1
  | Some db =>
      match delivered r [Z.of_nat (length (matching f db))] with
      | count :: _ => s32 count
      | [] => -1
      end
  end.

(** A text as a sort key: bytes in order, a prefix before what it begins. *)
Definition text_key (ascending : bool) (s : cstr) : list Z :=
  if ascending then byte_Z <$> s else ((λ b, - byte_Z b) <$> s) ++ [1].

Definition sort_key (sort_field sort_order : option cstr) (x : row) : list Z :=
  let ascending := match sort_order with Some o => strcaseeq o (lit "asc") | None => false end in
  let number c := if ascending then asc c else desc c in
  match sort_field with
  | Some s =>
      if streq s (lit "id") then number (Some (c_id x)) else
      if streq s (lit "stream_name") then text_key ascending (c_stream_name x) else
      if streq s (lit "end_time") then number (c_end_time x) else
      if streq s (lit "size_bytes") then number (c_size_bytes x) else number (Some (c_start_time x))
  | None => number (Some (c_start_time x))
  end.

(** [LIMIT ? OFFSET ?] *)
Definition page_rows (f : filters) (sort_field sort_order : option cstr) (limit offset : Z) (db : library_db) : list row :=
  take (Z.to_nat limit) (drop (Z.to_nat offset) (order_by (sort_key sort_field sort_order) (matching f db))).

Definition get_recording_metadata_paginated (r : sql_run) (f : filters) (sort_field sort_order : option cstr)
    (metadata : bool) (limit offset : Z) (db : option library_db) : option (list recording_metadata_t) :=
  match db, r with
  | None, _ => None
  | Some db, _ =>
      if negb metadata || (limit <=? 0) then None else
      match r with
      | PrepareFails => None
      | _ => Some (fetch <$> take (Z.to_nat limit) (delivered r (page_rows f sort_field sort_order limit offset db)))
      end
  end.

Definition get_recording_metadata (r : sql_run) (start end_ : Z) (stream : option cstr) (metadata : bool)
    (max_count : Z) (db : option library_db) : option (list recording_metadata_t) :=
  match db with
  | None => None
  | Some db =>
      if negb metadata || (max_count <=? 0) then None else
      match r with
      | PrepareFails => None
      | _ =>
          Some (fetch <$> take (Z.to_nat max_count) (select r (λ x,
            sql_is (c_is_complete x) 1 && bool_decide (is_Some (c_end_time x)) &&
            (if start >? 0 then c_start_time x >=? start else true) &&
            (if end_ >? 0 then c_start_time x <=? end_ else true) &&
            match stream with Some s => streq (c_stream_name x) s | None => true end)
            (λ x, desc (Some (c_start_time x))) max_count (recordings db)))
      end
  end.
End queries.

(** ** The handler *)

(** What is sent: an error, or a page with its pagination. *)
Inductive answer :=
  | Refused (status : Z)
  | Listing (page pages total limit : Z) (recordings : list recording_metadata_t).

(** The streams a request may see. *)
Inductive scope := Denied | Within (allowed_streams : list cstr).

Section handler.
Context {SQ : Sqlite} {SL : SqlLike} {IC : InetConversions} {D : Type} {AS : AuthStore D}.

(** [copy_trimmed_value] into a field, for each token of a [strtok_r] loop over
    a buffer; the result is a write out of bounds ([None]), nothing (a length
    of 0), or a string. *)
Fixpoint selected_loop (max_values : nat) (tokens values : list cstr) : option (list cstr) :=
  match tokens with
  | [] => Some values
  | token :: tokens =>
      if (max_values <=? length values)%nat then Some values else
      value ← copy_trimmed MAX_SELECTED_STREAM_NAME_LEN
                (field (MAX_SELECTED_STREAM_FILTERS * MAX_SELECTED_STREAM_NAME_LEN) token);
      selected_loop max_values tokens (match value with Some v => values ++ [v] | None => values end)
  end.

Definition parse_selected_streams (csv : cstr) (max_values : nat) : option (list cstr) :=
  match csv with
  | [] => Some []
  | _ => selected_loop max_values
           (strtok comma [] (strcpy_trunc (MAX_SELECTED_STREAM_FILTERS * MAX_SELECTED_STREAM_NAME_LEN) csv)) []
  end.

(** The streams of the configuration with their tags; none when they cannot be
    read. *)
Definition permitted_streams (user : user_t) (streams : option (list (cstr * cstr))) : list cstr :=
  fst <$> filter (λ s, db_auth_stream_allowed_for_user (Some user) (Some s.2) = true) (default [] streams).

(** Tag-based access control: [None] is undefined behaviour. *)
Definition stream_scope (auth_user : option user_t) (streams : option (list (cstr * cstr))) (stream_name : cstr) : option scope :=
  match auth_user with
  | Some user =>
      if negb (has_tag_restriction user) then Some (Within []) else
      let allowed_streams := permitted_streams user streams in
      if negb (empty stream_name) then
        requested ← parse_selected_streams stream_name MAX_SELECTED_STREAM_FILTERS;
        Some (if negb (match requested with [] => true | _ => false end) && forallb (one_of allowed_streams) requested
              then Within [] else Denied)
      else Some (match allowed_streams with [] => Denied | _ => Within allowed_streams end)
  | None => Some (Within [])
  end.

Definition int_of (s : cstr) : Z := match strtol10 s with Some (z, _) => s32 z | None => 0 end.

(** The fields of the query string. *)
Record list_parameters := mkParameters {
  p_filters : filters;
  p_page : Z;
  p_limit : Z;
  p_all : bool;
  p_sort_field : cstr;
  p_sort_order : cstr
}.

(** [parse_time] is [strptime] on the four formats, then [timegm]; a time that
    is not read is 0.  The filters have no stream scope yet. *)
Definition read_parameters (parse_time : cstr → option Z) (req : http_request_t) : list_parameters :=
  let param name size d := default d (http_request_get_query_param req (lit name) size) in
  let text s := match s with [] => None | _ => Some s end in
  let page_str := param "page" 16%nat [] in
  let limit_str := param "limit" 16%nat [] in
  let all_limit_requested := negb (empty limit_str) && strcaseeq limit_str (lit "all") in
  let limit := if all_limit_requested then 20 else if empty limit_str then 20 else int_of limit_str in
  let page := if empty page_str then 1 else int_of page_str in
  let has_detection_str := param "has_detection" 8%nat [] in
  let has_detection := if empty has_detection_str then 0 else int_of has_detection_str in
  let has_detection := if has_detection <? -1 then -1 else if has_detection >? 1 then 1 else has_detection in
  let protected_filter := match param "protected" 8%nat [] with
                          | c :: _ => if bool_decide (c = Byte.x30) then 0 else if bool_decide (c = Byte.x31) then 1 else -1
                          | [] => -1
                          end in
  let page := if page <=? 0 then 1 else page in
  let limit := if limit <=? 0 then 20 else limit in
  let limit := if limit >? 1000 then 1000 else limit in
  let time s := match s with [] => 0 | _ => default 0 (parse_time s) end in
  let label_filter := text (param "detection_label" 256%nat []) in
  let has_detection := match label_filter with Some _ => 1 | None => has_detection end in
  mkParameters
    (mkFilters (time (param "start" 64%nat [])) (time (param "end" 64%nat [])) (text (param "stream" 256%nat []))
       has_detection label_filter protected_filter [] (text (param "tag" 512%nat []))
       (text (param "capture_method" 128%nat [])))
    page limit all_limit_requested (param "sort" 32%nat (lit "start_time")) (param "order" 8%nat (lit "desc")).

Definition set_allowed (allowed : list cstr) (f : filters) : filters :=
  mkFilters (f_start_time f) (f_end_time f) (f_stream_name f) (f_has_detection f) (f_detection_label f) (f_protected f)
    allowed (f_tag f) (f_capture_method f).

(** The count, then the page.  The arithmetic is on [int]. *)
Definition answer_page (r1 r2 : sql_run) (malloc : bool) (p : list_parameters) (allowed : list cstr)
    (db : option library_db) : answer :=
  let f := set_allowed allowed (p_filters p) in
  let total_count := get_recording_count r1 f db in
  if total_count <? 0 then Refused 500 else
  let page := if p_all p then 1 else p_page p in
  let limit := if p_all p then (if total_count >? 0 then total_count else 1) else p_limit p in
  let offset := if p_all p then 0 else s32 ((p_page p - 1) * p_limit p) in
  if negb malloc then Refused 500 else
  match get_recording_metadata_paginated r2 f (Some (p_sort_field p)) (Some (p_sort_order p)) true limit offset db with
  | None => Refused 500
  | Some recordings => Listing page (cdiv (s32 (total_count + limit - 1)) limit) total_count limit recordings
  end.

(** Who asks: [Some None] when authentication is off, the inner [None] of the
    result when it fails. *)
Definition list_user (cfg : config_t) (req : http_request_t) (d : D) : option (option (option user_t) * D) :=
  if negb (web_auth_enabled cfg) then Some (Some None, d) else
  '(user, d) ← (if demo_mode cfg then httpd_check_viewer_access cfg req d else httpd_get_authenticated_user cfg req d);
  Some (match user with Some u => Some (Some u) | None => None end, d).

Definition handle_get_recordings (cfg : config_t) (shutting_down : bool) (parse_time : cstr → option Z)
    (streams : option (list (cstr * cstr))) (r1 r2 : sql_run) (malloc : bool) (db : option library_db)
    (req : http_request_t) (d : D) : option (answer * D) :=
  if shutting_down then Some (Refused 503, d) else
  '(user, d) ← list_user cfg req d;
  match user with
  | None => Some (Refused 401, d)
  | Some auth_user =>
      let p := read_parameters parse_time req in
      scope ← stream_scope auth_user streams (default [] (f_stream_name (p_filters p)));
      Some (match scope with
            | Denied => Listing (p_page p) 0 0 (p_limit p) []
            | Within allowed => answer_page r1 r2 malloc p allowed db
            end, d)
  end.
End handler.

(** ** Selected streams *)

Lemma comma_free_tokens s t : t ∈ strtok comma [] s → t ≠ [].
Proof.
  enough (∀ cur, t ∈ strtok comma cur s → t ≠ []) by eauto. induction s as [|c s IH]; intros cur; simpl.
  - destruct cur as [|b cur]; [by intros ?%not_elem_of_nil|]. intros ->%list_elem_of_singleton.
    intros E%(f_equal length). rewrite length_reverse in E. done.
  - case_match; [|apply IH]. destruct cur as [|b cur]; [apply IH|]. intros [->|?]%elem_of_cons; [|by eapply IH].
    intros E%(f_equal length). rewrite length_reverse in E. done.
Qed.

(** A token is part of the string it comes from. *)
Lemma strtok_part delim s t : t ∈ strtok delim [] s → ∃ a b, s = a ++ t ++ b.
Proof.
  enough (∀ cur, t ∈ strtok delim cur s → ∃ a b, reverse cur ++ s = a ++ t ++ b) as H by apply H.
  induction s as [|c s IH]; intros cur; simpl.
  - destruct cur as [|b cur]; [by intros ?%not_elem_of_nil|]. intros ->%list_elem_of_singleton.
    exists [], []. by rewrite app_nil_r.
  - assert (∀ s', reverse cur ++ c :: s' = (reverse cur ++ [c]) ++ s') as Ha by (intros; by rewrite <-app_assoc).
    case_match.
    + destruct cur as [|b cur].
      * intros (a & b & E)%IH. exists (c :: a), b. simpl in *. by rewrite E.
      * intros [->|Ht]%elem_of_cons; [exists [], (c :: s); done|].
        apply IH in Ht as (a & b' & E). exists (reverse (b :: cur) ++ [c] ++ a), b'. rewrite Ha. simpl in E. rewrite E.
        by rewrite <-!app_assoc.
    + intros (a & b & E)%IH. rewrite reverse_cons, <-app_assoc in E. by exists a, b.
Qed.

Lemma trim_empty t : empty (trim t) = negb (graphic t).
Proof.
  destruct (graphic t) eqn:Hg; [|by rewrite trim_non_graphic].
  assert (∀ s, graphic s = true → ltrim s ≠ []) as Hl.
  { induction s as [|c s IH]; [done|]. unfold graphic in *. simpl. by destruct (isgraph c). }
  specialize (Hl (rtrim t)). rewrite graphic_rtrim in Hl. specialize (Hl Hg). unfold trim. by destruct (ltrim (rtrim t)).
Qed.

(** A token with a printable character is copied trimmed and cut; one without
    is nothing, or the empty string. *)
Lemma copy_selected size n t :
  no_nul t → (length t + size < n)%nat → (1 < size)%nat → Z.of_nat n < 2 ^ 62 →
  copy_trimmed size (field n t) =
  Some (if graphic t then Some (strcpy_trunc size (trim t)) else if (length t <=? 1)%nat then None else Some []).
Proof.
  intros Ht Hn Hsize Hmax. unfold copy_trimmed, field.
  replace (n - length t)%nat with (S (n - length t - 1)) by lia. cbn [replicate].
  destruct (graphic t) eqn:Hg.
  - destruct (copy_trimmed_value_spec (replicate size NUL) (Z.of_nat size) (t ++ NUL :: replicate (n - length t - 1) NUL) 0 t)
      as (out & -> & Eo); [by split; [|left; eauto]|done|lia|by rewrite length_replicate; lia|lia|].
    rewrite Nat2Z.id in *. cbn -[cstring strcpy_trunc]. rewrite Eo.
    rewrite (proj2 (Z.eqb_neq _ _)); [done|]. unfold strcpy_trunc. rewrite length_take.
    pose proof (trim_empty t) as He. rewrite Hg in He. destruct (trim t); [done|]. simpl. lia.
  - unfold copy_trimmed_value. rewrite (proj2 (Z.eqb_neq _ _)) by lia. rewrite ltrim_pos_terminated, ltrim_graphic by done.
    rewrite (rtrim_pos_spec _ _ t) by (split; [done|left; eauto]). rewrite Hg. cbn [mbind option_bind].
    change (length []) with 0%nat. rewrite Nat.sub_0_r, drop_app_length.
    assert ((if u64 (Z.of_nat (1 `min` length t) - Z.of_nat (length t)) >=? Z.of_nat size then Z.of_nat size - 1
             else u64 (Z.of_nat (1 `min` length t) - Z.of_nat (length t))) =
            if (length t <=? 1)%nat then 0 else Z.of_nat size - 1) as ->.
    { destruct (Nat.leb_spec (length t) 1).
      - rewrite Nat.min_r by lia. rewrite Z.sub_diag. unfold u64. rewrite Z.mod_0_l by lia.
        by rewrite Z.geb_leb, (proj2 (Z.leb_gt _ _)) by lia.
      - rewrite Nat.min_l by lia. unfold u64. rewrite <-(Z.mod_add _ 1) by lia. rewrite Z.mod_small by lia.
        by rewrite (proj2 (Z.geb_le _ _)) by lia. }
    set (k := if (length t <=? 1)%nat then 0 else Z.of_nat size - 1).
    assert (0 ≤ k < Z.of_nat size) as Hk by (unfold k; case_match; lia).
    pose proof (copy_and_terminate (replicate size NUL) (NUL :: replicate (n - length t - 1) NUL) k ltac:(lia)
      ltac:(simpl; rewrite length_replicate; lia) ltac:(rewrite length_replicate; lia)) as Hc.
    destruct (memcpy _ _ k) as [d'|]; [cbn [mbind option_bind] in *|done]. rewrite Hc. cbn -[cstring].
    unfold k. destruct (Nat.leb_spec (length t) 1); [done|]. rewrite (proj2 (Z.eqb_neq _ _)) by lia.
    replace (Z.to_nat (Z.of_nat size - 1)) with (S (size - 2)) by lia. done.
Qed.

(** What the copy of a token adds to the selected streams. *)
Definition selection (t : cstr) : list cstr :=
  if graphic t then [strcpy_trunc MAX_SELECTED_STREAM_NAME_LEN (trim t)] else if (length t <=? 1)%nat then [] else [[]].

Definition short_token (t : cstr) : Prop := no_nul t ∧ (length t < 1024)%nat.

Lemma copy_selection t :
  short_token t →
  copy_trimmed MAX_SELECTED_STREAM_NAME_LEN (field (MAX_SELECTED_STREAM_FILTERS * MAX_SELECTED_STREAM_NAME_LEN) t) =
  Some (head (selection t)).
Proof.
  intros [Hn Hl]. unfold MAX_SELECTED_STREAM_FILTERS, MAX_SELECTED_STREAM_NAME_LEN in *.
  rewrite copy_selected by (done || lia). unfold selection. by destruct (graphic t), (length t <=? 1)%nat.
Qed.

Lemma selection_head t : (match head (selection t) with Some v => [v] | None => [] end) = selection t.
Proof. unfold selection. by destruct (graphic t), (length t <=? 1)%nat. Qed.

Lemma selection_length t : (length (selection t) ≤ 1)%nat.
Proof. unfold selection. repeat case_match; simpl; lia. Qed.

Lemma selected_loop_app max ts rest values :
  Forall short_token ts → (length values + length ts ≤ max)%nat →
  selected_loop max (ts ++ rest) values = selected_loop max rest (values ++ concat (selection <$> ts)).
Proof.
  intros Hs. revert values. induction Hs as [|t ts Ht _ IH]; intros values Hl; simpl in *; [by rewrite app_nil_r|].
  rewrite (proj2 (Nat.leb_gt _ _)) by lia. rewrite copy_selection by done. cbn [mbind option_bind].
  pose proof (selection_length t) as Hsl. pose proof (selection_head t) as Hh.
  replace (match head (selection t) with Some v => values ++ [v] | None => values end) with (values ++ selection t)
    by (rewrite <-Hh; by destruct (head (selection t)); rewrite ?app_nil_r).
  rewrite IH by (rewrite length_app; lia). by rewrite <-app_assoc.
Qed.

Lemma selected_loop_full max ts values : (max ≤ length values)%nat → selected_loop max ts values = Some values.
Proof. intros. destruct ts; [done|]. simpl. by rewrite (proj2 (Nat.leb_le _ _)). Qed.

(** ** Values of a filter *)

Lemma csv_loop_elem max ts values v :
  v ∈ csv_loop max ts values →
  v ∈ values ∨ ∃ t, t ∈ ts ∧ graphic t = true ∧ v = strcpy_trunc MAX_MULTI_FILTER_VALUE_LEN (trim t).
Proof.
  revert values. induction ts as [|t ts IH]; intros values; simpl; [auto|]. case_match; [auto|].
  rewrite trim_empty. destruct (graphic t) eqn:Hg; cbn [negb orb].
  - case_match.
    + intros [?|(x & ? & ? & ?)]%IH; auto. right. exists x. set_solver.
    + intros [Hv|(x & ? & ? & ?)]%IH; [|right; exists x; set_solver].
      apply elem_of_app in Hv as [?| ->%list_elem_of_singleton]; [auto|]. right. exists t. split; [left|done].
  - intros [?|(x & ? & ? & ?)]%IH; auto. right. exists x. set_solver.
Qed.

Lemma csv_loop_grows max ts values v : v ∈ values → v ∈ csv_loop max ts values.
Proof.
  revert values. induction ts as [|t ts IH]; intros values Hv; simpl; [done|]. repeat case_match; auto.
  apply IH. apply elem_of_app. by left.
Qed.

Lemma csv_loop_nonempty max ts t : (0 < max)%nat → t ∈ ts → graphic t = true → csv_loop max ts [] ≠ [].
Proof.
  intros Hmax. induction ts as [|x ts IH]; intros Ht Hg; [by apply not_elem_of_nil in Ht|]. simpl.
  rewrite (proj2 (Nat.leb_gt _ _)) by lia. rewrite trim_empty. destruct (graphic x) eqn:Hx; cbn [negb orb existsb].
  - intros E. assert (strcpy_trunc MAX_MULTI_FILTER_VALUE_LEN (trim x) ∈ csv_loop max ts ([] ++ [strcpy_trunc MAX_MULTI_FILTER_VALUE_LEN (trim x)])) as Hin.
    { apply csv_loop_grows. by apply list_elem_of_singleton. }
    cbn [app] in Hin. rewrite E in Hin. by apply not_elem_of_nil in Hin.
  - apply elem_of_cons in Ht as [->|Ht]; [by rewrite Hg in Hx|auto].
Qed.

Lemma elem_of_concat {A} (x : A) ls : x ∈ concat ls ↔ ∃ l, x ∈ l ∧ l ∈ ls.
Proof.
  rewrite list_elem_of_In, in_concat. setoid_rewrite <-list_elem_of_In. naive_solver.
Qed.

Lemma existsb_false {A} (p : A → bool) l x : existsb p l = false → x ∈ l → p x = false.
Proof.
  intros E Hx. destruct (p x) eqn:Ep; [|done]. rewrite <-E. symmetry. apply existsb_exists. exists x.
  split; [by apply list_elem_of_In|done].
Qed.

Lemma one_of_elem values s : one_of values s = true ↔ s ∈ values.
Proof.
  unfold one_of. rewrite existsb_exists. split.
  - intros (v & Hv & ->%streq_true). by apply list_elem_of_In.
  - intros Hs. exists s. split; [by apply list_elem_of_In|apply streq_refl].
Qed.

(** ** Access control *)

Section access.
Context {SQ : Sqlite} {SL : SqlLike} {IC : InetConversions}.

(** A stream parameter on which the check and the filter agree. *)
Definition plain_selection (stream_name : cstr) : Prop :=
  no_nul stream_name ∧ (length stream_name < 1024)%nat ∧
  (length (strtok comma [] stream_name) ≤ MAX_SELECTED_STREAM_FILTERS)%nat ∧
  Forall (λ t, (length (trim t) < MAX_SELECTED_STREAM_NAME_LEN)%nat) (strtok comma [] stream_name).

Lemma strtok_short s t : no_nul s → (length s < 1024)%nat → t ∈ strtok comma [] s → short_token t.
Proof.
  intros Hn Hl (a & b & ->)%strtok_part. rewrite !no_nul_app, !length_app in *. unfold short_token. split; [tauto|lia].
Qed.

(** The streams that the filter lets through are among those that the check
    found to be permitted. *)
Lemma checked_selection_safe (allowed : list cstr) stream_name requested :
  plain_selection stream_name → [] ∉ allowed →
  parse_selected_streams stream_name MAX_SELECTED_STREAM_FILTERS = Some requested → requested ≠ [] →
  Forall (λ s, s ∈ allowed) requested →
  values_of (Some stream_name) ≠ [] ∧ ∀ v, v ∈ values_of (Some stream_name) → v ∈ allowed.
Proof.
  intros (Hn & Hl & Hc & Hlen) Hne Hp Hr Hall. destruct stream_name as [|c s]; [by simplify_eq/=|].
  unfold parse_selected_streams in Hp. unfold values_of, parse_csv_filter_values. set (sn := c :: s) in *.
  rewrite strcpy_trunc_id in Hp by (unfold MAX_SELECTED_STREAM_FILTERS, MAX_SELECTED_STREAM_NAME_LEN; lia).
  rewrite strcpy_trunc_id by (unfold MAX_MULTI_FILTER_VALUES, MAX_MULTI_FILTER_VALUE_LEN; lia).
  assert (Forall short_token (strtok comma [] sn)) as Hs by (apply Forall_forall; intros t; by apply strtok_short).
  rewrite <-(app_nil_r (strtok comma [] sn)) in Hp. rewrite selected_loop_app in Hp by (done || simpl; lia).
  cbn [selected_loop app] in Hp. injection Hp as <-.
  change (if comma c then _ else _) with (strtok comma [] sn) in Hr, Hall.
  assert (∀ t, t ∈ strtok comma [] sn → graphic t = true → trim t ∈ allowed) as Ht.
  { intros t Ht Hg. rewrite Forall_forall in Hall, Hlen. apply Hall. apply elem_of_concat. exists (selection t).
    split; [|by apply list_elem_of_fmap_2]. unfold selection. rewrite Hg. apply list_elem_of_singleton.
    rewrite strcpy_trunc_id; [done|]. apply Hlen in Ht. lia. }
  split.
  - destruct (existsb graphic (strtok comma [] sn)) eqn:Eg.
    + apply existsb_exists in Eg as (t & Hin & Hg). apply list_elem_of_In in Hin.
      apply (csv_loop_nonempty _ _ t); [unfold MAX_MULTI_FILTER_VALUES; lia|done..].
    + exfalso. destruct (concat _) as [|v vs] eqn:Ec; [done|]. apply Forall_cons in Hall as [Hv _].
      assert (v ∈ concat (selection <$> strtok comma [] sn)) as Hin by (rewrite Ec; left).
      apply elem_of_concat in Hin as (l & Hvl & (t & -> & Ht')%list_elem_of_fmap).
      unfold selection in Hvl. rewrite (existsb_false graphic _ t) in Hvl by done.
      case_match; [by apply not_elem_of_nil in Hvl|]. apply list_elem_of_singleton in Hvl as ->. done.
  - intros v [Hv|(t & Hin & Hg & ->)]%csv_loop_elem; [by apply not_elem_of_nil in Hv|].
    rewrite strcpy_trunc_id; [auto|]. rewrite Forall_forall in Hlen. apply Hlen in Hin.
    unfold MAX_MULTI_FILTER_VALUE_LEN, MAX_SELECTED_STREAM_NAME_LEN in *. lia.
Qed.

(** What a filter lets through, a page holds nothing else. *)
Lemma page_rows_matching f sf so limit offset db x :
  SqliteLaws → x ∈ page_rows f sf so limit offset db → x ∈ rows (recordings db) ∧ recording_matches f db x = true.
Proof.
  intros SLaws Hx. unfold page_rows in Hx.
  assert (x ∈ matching f db) as [? ?]%list_elem_of_filter; [|done].
  rewrite <-(order_by_perm (sort_key sf so)). eapply elem_of_sublist; [exact Hx|].
  etrans; [apply sublist_take|apply sublist_drop].
Qed.

Lemma paginated_matching r f sf so limit offset db ms :
  SqliteLaws → get_recording_metadata_paginated r f sf so true limit offset db = Some ms →
  Forall (λ m, ∃ l x, db = Some l ∧ x ∈ rows (recordings l) ∧ recording_matches f l x = true ∧ m = fetch x) ms.
Proof.
  intros SLaws. unfold get_recording_metadata_paginated. destruct db as [db|]; [|by destruct r]. cbn [negb orb].
  destruct (limit <=? 0); [done|]. intros E.
  assert (ms = fetch <$> take (Z.to_nat limit) (delivered r (page_rows f sf so limit offset db))) as -> by (by destruct r; simplify_eq).
  apply Forall_forall. intros m (x & -> & Hx)%list_elem_of_fmap.
  assert (x ∈ page_rows f sf so limit offset db) as Hp.
  { eapply elem_of_sublist; [exact Hx|]. etrans; [apply sublist_take|apply delivered_sublist]. }
  apply page_rows_matching in Hp as [? ?]; [|done]. by exists db, x.
Qed.

Lemma stream_clause_within f allowed x :
  stream_clause (set_allowed allowed f) x = true →
  (values_of (f_stream_name f) ≠ [] ∧ c_stream_name x ∈ values_of (f_stream_name f)) ∨
  (values_of (f_stream_name f) = [] ∧ (allowed ≠ [] → c_stream_name x ∈ allowed)).
Proof.
  unfold stream_clause. cbn [set_allowed f_stream_name f_allowed_streams].
  destruct (values_of (f_stream_name f)) as [|v vs]; [|intros ?%one_of_elem; by left].
  destruct allowed as [|a l]; [by right|]. intros ?%one_of_elem. by right.
Qed.

Lemma recording_matches_stream f db x : recording_matches f db x = true → stream_clause f x = true.
Proof. unfold recording_matches. rewrite !andb_true_iff. tauto. Qed.

(** A user with a tag restriction is shown recordings of permitted streams
    only, when the check and the filter read the parameter alike. *)
Lemma scope_safe u streams sp f allowed x :
  has_tag_restriction u = true → [] ∉ permitted_streams u streams → plain_selection sp →
  f_stream_name f = (match sp with [] => None | _ => Some sp end) →
  stream_scope (Some u) streams sp = Some (Within allowed) → stream_clause (set_allowed allowed f) x = true →
  c_stream_name x ∈ permitted_streams u streams.
Proof.
  intros Hu Hne Hplain Hf Hs Hx. unfold stream_scope in Hs. rewrite Hu in Hs. cbn [negb] in Hs.
  apply stream_clause_within in Hx. rewrite Hf in Hx. destruct sp as [|c sp]; cbn [empty negb] in Hs.
  - destruct (permitted_streams u streams) as [|a l]; [done|]. simplify_eq. destruct Hx as [[Hx _]|[_ Hx]]; [done|auto].
  - destruct (parse_selected_streams (c :: sp) _) as [requested|] eqn:Er; [cbn [mbind option_bind] in Hs|done].
    destruct (_ && _) eqn:Ep; [|done]. apply andb_true_iff in Ep as [Hr Hall]. simplify_eq.
    destruct (checked_selection_safe (permitted_streams u streams) (c :: sp) requested) as [Hv Hin]; [done..| | |].
    + by destruct requested.
    + apply Forall_forall. intros v Hv. apply list_elem_of_In in Hv. rewrite forallb_forall in Hall. by apply one_of_elem, Hall.
    + destruct Hx as [[_ Hx]|[Hx _]]; [auto|done].
Qed.
End access.

(** The stream parameter is a C string that fits its array. *)
Lemma query_param_fine req name len v :
  http_request_get_query_param req name len = Some v → (len ≤ 1024)%nat → no_nul v ∧ (length v ≤ len)%nat.
Proof.
  unfold http_request_get_query_param. destruct (Nat.eqb_spec len 0); [done|]. generalize (S (length (query_string req))).
  intros k. generalize (query_string req). induction k as [|k IH]; intros p; [done|]. cbn [query_loop].
  destruct p as [|c p]; [done|]. destruct (after_name name (c :: p)) as [val|].
  - intros E Hlen. rewrite (proj2 (Nat.ltb_lt _ 1024)) in E by (destruct (Nat.leb_spec len (length (until Byte.x26 val))); lia).
    unfold url_decode in E. destruct (Nat.eqb_spec len 0); [done|]. injection E as <-.
    match goal with |- no_nul (cstring ?m) ∧ _ => destruct (cstring_fine m) as [H1 H2] end. split; [done|].
    rewrite length_app in H2. match type of H2 with context [url_decode_loop ?a ?b] => pose proof (url_decode_loop_length a b) end.
    simpl in H2. lia.
  - destruct (split_first Byte.x26 (c :: p)) as [[? ?]|]; [apply IH|done].
Qed.

Section answers.
Context {SQ : Sqlite} {SL : SqlLike} {IC : InetConversions} {SLaws : SqliteLaws}.

Lemma stream_parameter_fine pt req :
  let sp := default [] (f_stream_name (p_filters (read_parameters pt req))) in
  no_nul sp ∧ (length sp < 1024)%nat ∧
  f_stream_name (p_filters (read_parameters pt req)) = match sp with [] => None | _ => Some sp end.
Proof.
  cbn [read_parameters p_filters f_stream_name].
  destruct (http_request_get_query_param req (lit "stream") 256) as [v|] eqn:E; cbn [default from_option id].
  - destruct (query_param_fine _ _ _ _ E ltac:(lia)) as [Hn Hl]. destruct v as [|c v].
    + split_and!; [apply not_elem_of_nil|simpl; lia|done].
    + cbn [default from_option id]. split_and!; [done|simpl in *; lia|done].
  - split_and!; [apply not_elem_of_nil|simpl; lia|done].
Qed.

(** C19: a user with a tag restriction is given recordings of the streams that
    the tags permit and of no other, whatever else the request filters, if the
    stream parameter lists at most 32 names of fewer than 64 characters. *)
Theorem restricted_listing {D} {AS : AuthStore D} cfg pt streams r1 r2 malloc db req (d : D) u d1 page pages total limit ms d' :
  list_user cfg req d = Some (Some (Some u), d1) → has_tag_restriction u = true → [] ∉ permitted_streams u streams →
  (let sp := default [] (f_stream_name (p_filters (read_parameters pt req))) in
   (length (strtok comma [] sp) ≤ MAX_SELECTED_STREAM_FILTERS)%nat ∧
   Forall (λ t, (length (trim t) < MAX_SELECTED_STREAM_NAME_LEN)%nat) (strtok comma [] sp)) →
  handle_get_recordings cfg false pt streams r1 r2 malloc db req d = Some (Listing page pages total limit ms, d') →
  Forall (λ m, ∃ l x, db = Some l ∧ x ∈ rows (recordings l) ∧ m = fetch x ∧
    c_stream_name x ∈ permitted_streams u streams) ms.
Proof.
  intros Hu Htag Hne [Hc Hlen] E. unfold handle_get_recordings in E. rewrite Hu in E. cbn [mbind option_bind] in E.
  destruct (stream_parameter_fine pt req) as (Hn & Hl & Hsp). set (p := read_parameters pt req) in *.
  set (sp := default [] (f_stream_name (p_filters p))) in *.
  destruct (stream_scope (Some u) streams sp) as [sc|] eqn:Es; [cbn [mbind option_bind] in E|done].
  destruct sc as [|allowed]; [by simplify_eq|]. unfold answer_page in E.
  destruct (_ <? 0); [done|]. destruct malloc; [cbn [negb] in E|done].
  destruct (get_recording_metadata_paginated _ _ _ _ _ _ _ _) as [ms'|] eqn:Ep; [|done]. simplify_eq.
  apply paginated_matching in Ep; [|done]. eapply Forall_impl; [exact Ep|].
  intros m (l & x & -> & Hx & Hm & ->). exists l, x. split_and!; try done.
  apply (scope_safe u streams sp (p_filters p) allowed x); try done.
  by eapply recording_matches_stream.
Qed.

(** ** Pages *)

Lemma chunks_concat {A} (l n : nat) (xs : list A) :
  concat ((λ k, take l (drop (k * l) xs)) <$> seq 0 n) = take (n * l) xs.
Proof.
  induction n as [|n IH]; [done|]. rewrite seq_S, fmap_app, concat_app, IH. cbn [fmap list_fmap concat].
  rewrite app_nil_r, take_take_drop. f_equal. lia.
Qed.

Definition set_page (page : Z) (p : list_parameters) : list_parameters :=
  mkParameters (p_filters p) page (p_limit p) (p_all p) (p_sort_field p) (p_sort_order p).


(** A name that the parsers read as it is written. *)
Definition plain_name (s : cstr) : Prop :=
  s ≠ [] ∧ no_nul s ∧ Forall (λ c, isgraph c = true) s ∧ Forall (λ c, comma c = false) s.

Lemma plain_name_trim s : plain_name s → trim s = s ∧ graphic s = true.
Proof.
  intros (Hne & _ & Hg & _). split; [by apply trim_id|]. destruct s as [|c s]; [done|]. apply Forall_cons in Hg as [Hc _].
  unfold graphic. simpl. by rewrite Hc.
Qed.

Lemma plain_name_nonempty s : plain_name s → empty s = false.
Proof. intros [Hne _]. by destruct s. Qed.

(** One step on a plain name: it is in the values afterwards. *)
Lemma csv_loop_plain max t ts values :
  plain_name t → (length t < MAX_MULTI_FILTER_VALUE_LEN)%nat → (length values < max)%nat →
  csv_loop max (t :: ts) values = csv_loop max ts (if one_of values t then values else values ++ [t]).
Proof.
  intros Ht Hl Hv. cbn [csv_loop]. rewrite (proj2 (Nat.leb_gt _ _)) by done.
  destruct (plain_name_trim t Ht) as [-> _]. rewrite (plain_name_nonempty t Ht). cbn [orb].
  fold (one_of values t). destruct (one_of values t); [done|]. by rewrite strcpy_trunc_id by lia.
Qed.

Lemma csv_loop_repeated a s k :
  plain_name a → plain_name s → (length a < MAX_MULTI_FILTER_VALUE_LEN)%nat → (length s < MAX_MULTI_FILTER_VALUE_LEN)%nat →
  s ∈ csv_loop MAX_MULTI_FILTER_VALUES (replicate k a ++ [s]) [a].
Proof.
  intros Ha Hs Hla Hls.
  assert (length [a] < MAX_MULTI_FILTER_VALUES)%nat as Hv by (unfold MAX_MULTI_FILTER_VALUES; simpl; lia).
  induction k as [|k IH]; cbn [replicate app]; rewrite csv_loop_plain by done.
  - destruct (one_of [a] s) eqn:Eo; [by apply one_of_elem|]. cbn [csv_loop]. apply elem_of_app. right. by left.
  - by rewrite (proj2 (one_of_elem [a] a)) by left.
Qed.

Lemma length_repeated c (a s : cstr) k :
  length (concat (cons c <$> replicate k a ++ [s])) = (k * (length a + 1) + length s + 1)%nat.
Proof.
  induction k as [|k IH]; cbn [replicate app fmap list_fmap concat length].
  - cbn [length]. rewrite ?length_app. simpl. rewrite ?length_app. simpl. lia.
  - cbn [length app]. rewrite length_app, IH. lia.
Qed.

(** the check counts names, the filter counts distinct names: a parameter
    that repeats a permitted stream 32 times passes the check, and the
    recordings of the stream named after it, permitted or not, are let through. *)
Theorem repeated_name_bypasses_check u streams a s :
  has_tag_restriction u = true → a ∈ permitted_streams u streams → plain_name a → plain_name s →
  (32 * (length a + 1) + length s ≤ 255)%nat → (length a < MAX_SELECTED_STREAM_NAME_LEN)%nat →
  (length s < MAX_SELECTED_STREAM_NAME_LEN)%nat →
  let sp := join Byte.x2c (replicate 32 a ++ [s]) in
  stream_scope (Some u) streams sp = Some (Within []) ∧
  ∀ f x, f_stream_name f = Some sp → c_stream_name x = s → stream_clause (set_allowed [] f) x = true.
Proof.
  intros Hu Ha Hpa Hps Hlen Hla Hls sp.
  destruct (plain_name_trim a Hpa) as [Eta Ga], (plain_name_trim s Hps) as [Ets Gs].
  assert (strtok comma [] sp = replicate 32 a ++ [s]) as Htok.
  { apply strtok_join; [done|]. apply Forall_app. destruct Hpa as (? & _ & _ & ?), Hps as (? & _ & _ & ?).
    split; [by apply Forall_replicate|by repeat constructor]. }
  assert (length sp ≤ 255)%nat as Hsp.
  { unfold sp, join. rewrite length_drop, length_repeated. lia. }
  assert (sp ≠ []) as Hne by (intros E; rewrite E in Htok; by destruct a).
  split.
  - unfold stream_scope. rewrite Hu. cbn [negb]. destruct sp as [|c sp'] eqn:Esp; [done|]. cbn [empty negb].
    rewrite <-Esp in *. unfold parse_selected_streams. rewrite Esp, <-Esp.
    rewrite strcpy_trunc_id by (unfold MAX_SELECTED_STREAM_FILTERS, MAX_SELECTED_STREAM_NAME_LEN; lia).
    assert (short_token a) as Hsa by (destruct Hpa as (_ & ? & _); split; [done|lia]).
    rewrite Htok, selected_loop_app by (by rewrite ?length_replicate || by apply Forall_replicate).
    cbn [app]. assert (concat (selection <$> replicate 32 a) = replicate 32 a) as ->.
    { rewrite fmap_replicate. unfold selection. by rewrite Ga, Eta, strcpy_trunc_id by lia. }
    rewrite selected_loop_full by (by rewrite length_replicate). cbn [mbind option_bind].
    assert (forallb (one_of (permitted_streams u streams)) (replicate 32 a) = true) as ->; [|done].
    apply forallb_forall. intros x Hx. apply list_elem_of_In, elem_of_replicate in Hx as [-> _]. by apply one_of_elem.
  - intros f x Hf Hx. unfold stream_clause. cbn [set_allowed f_stream_name]. rewrite Hf.
    assert (s ∈ values_of (Some sp)) as Hin.
    { unfold values_of, parse_csv_filter_values. destruct sp as [|c sp'] eqn:Esp; [done|]. rewrite <-Esp in *.
      rewrite strcpy_trunc_id by (unfold MAX_MULTI_FILTER_VALUES, MAX_MULTI_FILTER_VALUE_LEN; lia).
      rewrite Htok. change (replicate 32 a ++ [s]) with (a :: replicate 31 a ++ [s]).
      unfold MAX_SELECTED_STREAM_NAME_LEN in *.
      rewrite csv_loop_plain by (done || (unfold MAX_MULTI_FILTER_VALUE_LEN, MAX_MULTI_FILTER_VALUES; simpl; lia)).
      apply (csv_loop_repeated a s 31 Hpa Hps); unfold MAX_MULTI_FILTER_VALUE_LEN; lia. }
    destruct (values_of (Some sp)) as [|v vs]; [by apply not_elem_of_nil in Hin|]. apply one_of_elem. by rewrite Hx.
Qed.
End answers.

(** ** A library of two streams *)

#[local] Existing Instances merging_sqlite merging_laws known_conversions.

(** [LIKE] without wildcards, for the witnesses. *)
#[local] Instance example_like : SqlLike := {| like := streq |}.

Definition example_viewer : user_t :=
  mkUser 2 (lit "eve") [] USER_ROLE_VIEWER [] 0 0 0 true false false (lit "outdoor") true [] false.

(** One session, whose user is the viewer. *)
#[local] Instance example_store : AuthStore unit := {|
  db_auth_validate_session t d := (if streq t (lit "s3cret") then Some 2 else None, d);
  db_auth_get_user_by_id _ d := (Some example_viewer, d);
  db_auth_validate_session_with_context t _ _ d := (streq t (lit "s3cret"), d);
  db_auth_authenticate _ _ d := (None, d);
  db_auth_get_user_by_api_key _ d := (None, d)
|}.

Definition example_streams : option (list (cstr * cstr)) :=
  Some [(lit "front", lit "outdoor"); (lit "office", lit "indoor")].

Definition example_recording (i start : Z) (stream : cstr) : row :=
  mkRow i stream (lit "/var/rec") start (Some (start + 60)) (Some 1000) None None None None (Some 1)
    (Some (lit "scheduled")) (Some 0) None None (Some 1).

Definition example_library : library_db :=
  mkLibraryDb (mkTable [example_recording 1 100 (lit "front"); example_recording 2 200 (lit "office");
                        example_recording 3 300 (lit "front")] 3 []) [] [].

Definition example_list_request (query : cstr) : http_request_t :=
  mkRequest (lit "/api/recordings") query [] None [mkHeader (lit "Cookie") (lit "session=s3cret")] (lit "10.1.3.7").

Definition example_listing (query : cstr) : option (answer * unit) :=
  handle_get_recordings example_config false (λ _, None) example_streams Completes Completes true (Some example_library)
    (example_list_request query) tt.

Lemma restricted_listing_witness :
  ∃ ms d', example_listing (lit "stream=front&order=asc") = Some (Listing 1 1 2 20 ms, d') ∧ length ms = 2%nat ∧
    Forall (λ m, ∃ l x, Some example_library = Some l ∧ x ∈ rows (recordings l) ∧ m = fetch x ∧
      c_stream_name x ∈ permitted_streams example_viewer example_streams) ms.
Proof.
  eexists _, _. split; [vm_compute; reflexivity|]. split; [reflexivity|].
  refine (restricted_listing example_config (λ _, None) example_streams Completes Completes true (Some example_library)
    (example_list_request (lit "stream=front&order=asc")) tt example_viewer tt 1 1 2 20 _ tt _ _ _ _ _).
  - vm_compute. reflexivity.
  - reflexivity.
  - apply (bool_decide_eq_true_1 _). vm_compute. reflexivity.
  - vm_compute. split; [lia|]. repeat constructor.
  - vm_compute. reflexivity.
Defined.

Lemma repeated_name_bypasses_check_witness :
  let sp := join Byte.x2c (replicate 32 (lit "front") ++ [lit "office"]) in
  stream_scope (Some example_viewer) example_streams sp = Some (Within []) ∧
  ∀ f x, f_stream_name f = Some sp → c_stream_name x = lit "office" → stream_clause (set_allowed [] f) x = true.
Proof.
  refine (repeated_name_bypasses_check example_viewer example_streams (lit "front") (lit "office") _ _ _ _ _ _ _).
  - reflexivity.
  - apply (bool_decide_eq_true_1 _). vm_compute. reflexivity.
  - split_and!; [done|solve_no_nul|repeat constructor..].
  - split_and!; [done|solve_no_nul|repeat constructor..].
  - vm_compute. lia.
  - vm_compute. lia.
  - vm_compute. lia.
Defined.

Definition example_page : list_parameters :=
  read_parameters (λ _, None) (example_list_request (lit "limit=2&order=asc")).

