(* ===== verification/Json.v ===== *)
(** * JSON bodies

    cJSON as the class [CJson]: what the handlers ask of a document, and the printing
    of the objects that they build; and [httpd_parse_json_body] of
    [src/web/httpd_utils.c]. *)
From Stdlib Require Import ZArith Lia Bool.
From Stdlib Require Import Strings.Byte.
From Stdlib Require Import SpecFloat.
From stdpp Require Import base numbers list strings.
From S2P Require Import Prelude.
From S2P Require Import Libc.
From S2P Require Import CStrings.
From S2P Require Import HttpMessage.
#[local] Open Scope Z_scope.

(** A member of an object that is printed. *)
Inductive json_field :=
  | JBool (b : bool)
  | JString (s : cstr)
  | JNumber (z : Z)
  | JNull
  | JObjects (items : list (list (cstr * json_field))).

(** [string_value] is [valuestring] where [cJSON_IsString], [bool_value] is
    [cJSON_IsTrue] where [cJSON_IsBool]; [int_value] and [double_value] are [valueint]
    and [valuedouble] where [cJSON_IsNumber]; [array_items] are the elements where
    [cJSON_IsArray]. *)
Class CJson := {
  cJSON : Type;
  cJSON_Parse : cstr → option cJSON;
  cJSON_GetObjectItem : cJSON → cstr → option cJSON;
  string_value : cJSON → option cstr;
  bool_value : cJSON → option bool;
  int_value : cJSON → option Z;
  double_value : cJSON → option spec_float;
  array_items : cJSON → option (list cJSON);
  is_object : cJSON → bool;
  is_null : cJSON → bool;
  cJSON_PrintUnformatted : list (cstr * json_field) → cstr
}.

Section body.
Context `{CJson}.

(** [alloc] is whether the copy of the body can be allocated. *)
Definition httpd_parse_json_body (alloc : bool) (req : http_request_t) : option cJSON :=
  match body req with
  | None | Some [] => None
  | Some b => if alloc then cJSON_Parse (until NUL b) else None
  end.

(** The string member [name] of a document. *)
Definition string_item (j : cJSON) (name : string) : option cstr :=
  item ← cJSON_GetObjectItem j (lit name); string_value item.

Definition bool_item (j : cJSON) (name : string) : option bool :=
  item ← cJSON_GetObjectItem j (lit name); bool_value item.

End body.
