(* ===== verification/Totp.v ===== *)
(** * One-time passwords

    [src/web/api_handlers_totp.c]: base32, the codes of RFC 6238 over an interface for
    HMAC-SHA-1, and the handlers that set up, confirm and disable the second factor of
    a user, on the tables of [Accounts].  The login with a code is in [Login]. *)
From Stdlib Require Import ZArith Lia Bool.
From Stdlib Require Import Strings.Byte.
From stdpp Require Import base numbers list strings.
From S2P Require Import Prelude.
From S2P Require Import Sql.
From S2P Require Import Libc.
From S2P Require Import CStrings.
From S2P Require Import Auth.
From S2P Require Import HttpMessage.
From S2P Require Import HttpUtils.
From S2P Require Import Accounts.
From S2P Require Import AccountLogin.
From S2P Require Import Json.
#[local] Open Scope Z_scope.

(** ** Base32 *)

Definition BASE32_ALPHABET : cstr := lit "ABCDEFGHIJKLMNOPQRSTUVWXYZ234567".

Definition base32_char (v : Z) : byte := default NUL (BASE32_ALPHABET !! Z.to_nat v).

(** [while (bits_left >= 5)]: at most twice, since there are 12 bits at most. *)
Fixpoint base32_chunks (n : nat) (buffer bits_left : Z) : cstr * Z :=
  match n with
  | O => ([], bits_left)
  | S n =>
      if bits_left >=? 5 then
        let bits_left := bits_left - 5 in
        let '(cs, bits_left') := base32_chunks n buffer bits_left in
        (base32_char (Z.land (Z.shiftr buffer bits_left) 31) :: cs, bits_left')
      else ([], bits_left)
  end.

Fixpoint base32_encode_loop (data : list byte) (buffer bits_left : Z) : cstr :=
  match data with
  | [] => if bits_left >? 0 then [base32_char (Z.land (u32 (Z.shiftl buffer (5 - bits_left))) 31)] else []
  | b :: data =>
      let buffer := Z.lor (u32 (Z.shiftl buffer 8)) (byte_Z b) in
      let '(cs, bits_left) := base32_chunks 2 buffer (bits_left + 8) in
      cs ++ base32_encode_loop data buffer bits_left
  end.

(** [None] for -1; the result of the code is the length. *)
Definition base32_encode (data : list byte) (output_size : nat) : option cstr :=
  if (output_size =? 0)%nat then None else
  let out_len := ((length data * 8 + 4) / 5)%nat in
  if (output_size <? out_len + 1)%nat then None
  else Some (base32_encode_loop data 0 0).

Definition toupper (c : byte) : byte :=
  if (97 <=? byte_Z c) && (byte_Z c <=? 122) then Z_byte (byte_Z c - 32) else c.

(** What a character stands for: nothing, a value, or an error. *)
Inductive base32_symbol := Blank | Value (v : Z) | Invalid.

Definition base32_value (c : byte) : base32_symbol :=
  let c := toupper c in
  if bool_decide (c = Byte.x3d) || bool_decide (c = Byte.x20) then Blank
  else if (65 <=? byte_Z c) && (byte_Z c <=? 90) then Value (byte_Z c - 65)
  else if (50 <=? byte_Z c) && (byte_Z c <=? 55) then Value (byte_Z c - 50 + 26)
  else Invalid.

Fixpoint base32_decode_loop (input : cstr) (buffer bits_left : Z) (output : list byte) (output_size : nat)
    : option (list byte) :=
  match input with
  | [] => Some output
  | c :: input =>
      match base32_value c with
      | Blank => base32_decode_loop input buffer bits_left output output_size
      | Invalid => None
      | Value val =>
          let buffer := Z.lor (u32 (Z.shiftl buffer 5)) val in
          let bits_left := bits_left + 5 in
          if bits_left >=? 8 then
            let bits_left := bits_left - 8 in
            let output := if (length output <? output_size)%nat
                          then output ++ [Z_byte (Z.shiftr buffer bits_left)] else output in
            base32_decode_loop input buffer bits_left output output_size
          else base32_decode_loop input buffer bits_left output output_size
      end
  end.

(** [None] for -1. *)
Definition base32_decode (input : cstr) (output_size : nat) : option (list byte) :=
  if (output_size =? 0)%nat then None else
  let out_len := (length input * 5 / 8)%nat in
  if (output_size <? out_len)%nat then None
  else base32_decode_loop input 0 0 [] output_size.

(** ** Codes *)

(** mbedTLS: whether it has SHA-1, and [mbedtls_md_hmac] with it on a key and a message,
    [None] when it fails. *)
Class Hmac := {
  has_sha1 : bool;
  mbedtls_md_hmac : list byte → list byte → option (list byte)
}.

Class HmacLaws `{Hmac} := { hmac_length k m h : mbedtls_md_hmac k m = Some h → length h = 20%nat }.

Section Codes.
Context `{Hmac}.

Definition hmac_sha1 (key data : list byte) : option (list byte) :=
  if has_sha1 then mbedtls_md_hmac key data else None.

(** The eight bytes of the counter, the highest first. *)
Definition big_endian (time_step : Z) : list byte :=
  map (λ i, Z_byte (Z.land (Z.shiftr time_step (8 * Z.of_nat i)) 255)) [7; 6; 5; 4; 3; 2; 1; 0]%nat.

(** [None] for -1, and an access outside of the hash, which [HmacLaws] excludes. *)
Definition totp_generate (secret_b32 : cstr) (time_step : Z) : option Z :=
  secret ← base32_decode secret_b32 64;
  hash ← hmac_sha1 secret (big_endian time_step);
  last ← hash !! 19%nat;
  let offset := Z.to_nat (Z.land (byte_Z last) 15) in
  b0 ← hash !! offset;
  b1 ← hash !! S offset;
  b2 ← hash !! S (S offset);
  b3 ← hash !! S (S (S offset));
  let code := Z.lor (Z.lor (Z.lor (Z.shiftl (Z.land (byte_Z b0) 127) 24) (Z.shiftl (byte_Z b1) 16))
                       (Z.shiftl (byte_Z b2) 8)) (byte_Z b3) in
  Some (code `mod` 1000000).

(** True for the result 0; [current_time] is [time (NULL)]. *)
Definition totp_verify (current_time : Z) (secret_b32 code_str : cstr) : bool :=
  if negb (length code_str =? 6)%nat then false else
  let provided_code := s32 (match strtol10 code_str with Some (v, _) => v | None => 0 end) in
  let time_step := u64 current_time / 30 in
  existsb (λ i, match totp_generate secret_b32 (u64 (time_step + i)) with
                | Some expected => expected =? provided_code
                | None => false
                end) [-1; 0; 1].

End Codes.

(** A code has six digits, and the hash is not read outside. *)
Lemma totp_generate_code `{HmacLaws} secret_b32 secret hash time_step :
  base32_decode secret_b32 64 = Some secret → hmac_sha1 secret (big_endian time_step) = Some hash →
  ∃ code, totp_generate secret_b32 time_step = Some code ∧ 0 ≤ code < 1000000.
Proof.
  intros Hs Hh. unfold totp_generate. rewrite Hs. cbn [mbind option_bind]. rewrite Hh. cbn [mbind option_bind].
  assert (length hash = 20%nat) as Hl by (unfold hmac_sha1 in Hh; destruct has_sha1; [by eapply hmac_length|done]).
  destruct (lookup_lt_is_Some_2 hash 19) as [b ->]; [lia|]. cbn [mbind option_bind]. cbv zeta.
  assert (0 ≤ Z.land (byte_Z b) 15 < 16) as Ho by (change 15 with (Z.ones 4); rewrite Z.land_ones by lia; apply Z.mod_pos_bound; lia).
  set (o := Z.to_nat (Z.land (byte_Z b) 15)). assert (o < 16)%nat as Hoff by lia.
  destruct (lookup_lt_is_Some_2 hash o) as [b0 ->]; [lia|]. destruct (lookup_lt_is_Some_2 hash (S o)) as [b1 ->]; [lia|].
  destruct (lookup_lt_is_Some_2 hash (S (S o))) as [b2 ->]; [lia|]. destruct (lookup_lt_is_Some_2 hash (S (S (S o)))) as [b3 ->]; [lia|].
  eexists. split; [reflexivity|]. apply Z.mod_pos_bound. lia.
Qed.

(** ** Base32 reads back *)

Lemma lor_add k x v : 0 ≤ k ≤ 32 → 0 ≤ v < 2 ^ k → Z.lor (u32 (Z.shiftl x k)) v = u32 (x * 2 ^ k) + v.
Proof.
  intros Hk Hv. rewrite Z.shiftl_mul_pow2 by lia.
  rewrite <-Z.lxor_lor, <-Z.add_nocarry_lxor; [done| |];
    (apply Z.bits_inj'; intros n Hn; rewrite Z.land_spec, Z.bits_0; unfold u32;
     destruct (decide (n < k));
     [rewrite Z.mod_pow2_bits_low by lia; by rewrite Z.mul_pow2_bits_low by lia|
      rewrite <-(Z.mod_small v (2 ^ k)) by lia; rewrite (Z.mod_pow2_bits_high v) by lia; apply andb_false_r]).
Qed.

(** The bits from [k] on, [m] of them, of a number whose low bits are known. *)
Lemma low_bits x k m r :
  0 ≤ k → 0 ≤ m → x `mod` 2 ^ (k + m) = r → (Z.shiftr x k) `mod` 2 ^ m = r / 2 ^ k.
Proof.
  intros Hk Hm <-. rewrite Z.shiftr_div_pow2 by lia.
  assert (0 < 2 ^ k) by (apply Z.pow_pos_nonneg; lia). assert (0 < 2 ^ m) by (apply Z.pow_pos_nonneg; lia).
  rewrite Z.pow_add_r by lia. rewrite Z.rem_mul_r by lia.
  rewrite Z.mul_comm, Z.div_add by lia. rewrite (Z.div_small (x `mod` 2 ^ k)); [lia|]. apply Z.mod_pos_bound. lia.
Qed.

Lemma low_mod x n m r : 0 ≤ m ≤ n → x `mod` 2 ^ n = r → x `mod` 2 ^ m = r `mod` 2 ^ m.
Proof.
  intros Hm <-. rewrite <- Znumtheory.Zmod_div_mod; [done|apply Z.pow_pos_nonneg; lia..|].
  exists (2 ^ (n - m)). rewrite <- Z.pow_add_r by lia. f_equal. lia.
Qed.

(** What a character or a byte adds to the low bits of the buffer. *)
Lemma low_push x k n v e :
  0 ≤ k → 0 ≤ n → k + n ≤ 32 → 0 ≤ v < 2 ^ k → x `mod` 2 ^ n = e →
  (Z.lor (u32 (Z.shiftl x k)) v) `mod` 2 ^ (n + k) = e * 2 ^ k + v.
Proof.
  intros Hk Hn Hkn Hv He. rewrite lor_add by lia. rewrite u32_low by lia.
  assert (0 < 2 ^ k) by (apply Z.pow_pos_nonneg; lia). assert (0 < 2 ^ n) by (apply Z.pow_pos_nonneg; lia).
  pose proof (Z.mod_pos_bound x (2 ^ n) ltac:(lia)) as Hb. rewrite He in Hb.
  pose proof (Z.div_mod x (2 ^ n) ltac:(lia)) as Hx. rewrite He in Hx. rewrite Hx, Z.pow_add_r by lia.
  replace ((2 ^ n * (x / 2 ^ n) + e) * 2 ^ k + v) with (e * 2 ^ k + v + x / 2 ^ n * (2 ^ n * 2 ^ k)) by ring.
  rewrite Z.mod_add by nia. apply Z.mod_small. nia.
Qed.

Lemma base32_char_value v : 0 ≤ v < 32 → base32_value (base32_char v) = Value v.
Proof.
  intros Hv. assert (Hall : forallb (λ n, match base32_value (base32_char (Z.of_nat n)) with
    Value w => w =? Z.of_nat n | _ => false end) (seq 0 32) = true) by (vm_compute; reflexivity).
  rewrite forallb_forall in Hall. specialize (Hall (Z.to_nat v)). rewrite in_seq, Z2Nat.id in Hall by lia.
  specialize (Hall ltac:(lia)). destruct (base32_value _); [done| |done]. f_equal. lia.
Qed.

(** One character: the low bits [d] of the buffer become [d * 32 + v]. *)
Lemma decode_more v input buffer n output size d :
  0 ≤ v < 32 → 0 ≤ n < 3 → buffer `mod` 2 ^ n = d →
  ∃ buffer', buffer' `mod` 2 ^ (n + 5) = d * 32 + v ∧
    base32_decode_loop (base32_char v :: input) buffer n output size
    = base32_decode_loop input buffer' (n + 5) output size.
Proof.
  intros Hv Hn Hd. cbn [base32_decode_loop]. rewrite base32_char_value by done. cbv zeta.
  rewrite Z.geb_leb, (proj2 (Z.leb_gt _ _)) by lia.
  eexists. split; [|reflexivity]. by apply (low_push _ 5); [lia..| |].
Qed.

(** One character that completes a byte. *)
Lemma decode_byte v input buffer n output size d :
  0 ≤ v < 32 → 3 ≤ n < 8 → buffer `mod` 2 ^ n = d → (length output < size)%nat →
  ∃ buffer', buffer' `mod` 2 ^ (n - 3) = (d * 32 + v) `mod` 2 ^ (n - 3) ∧
    base32_decode_loop (base32_char v :: input) buffer n output size
    = base32_decode_loop input buffer' (n - 3) (output ++ [Z_byte ((d * 32 + v) / 2 ^ (n - 3))]) size.
Proof.
  intros Hv Hn Hd Hsize. cbn [base32_decode_loop]. rewrite base32_char_value by done. cbv zeta.
  rewrite Z.geb_leb, (proj2 (Z.leb_le _ _)), (proj2 (Nat.ltb_lt _ _)) by lia.
  pose proof (low_push buffer 5 n v d ltac:(lia) ltac:(lia) ltac:(lia) Hv Hd) as Hl.
  change (d * 2 ^ 5 + v) with (d * 32 + v) in Hl.
  replace (n + 5 - 8) with (n - 3) by lia. eexists. split.
  - by apply (low_mod _ (n + 5)); [lia|].
  - do 3 f_equal. apply byte_Z_inj. rewrite !byte_Z_Z_byte. unfold u8.
    rewrite (low_bits _ (n - 3) 8 (d * 32 + v)); [|lia..|].
    + symmetry. apply Z.mod_small. pose proof (Z.mod_pos_bound buffer (2 ^ n) ltac:(apply Z.pow_pos_nonneg; lia)) as Hb.
      rewrite Hd in Hb. assert (0 < 2 ^ (n - 3)) by (apply Z.pow_pos_nonneg; lia).
      assert (2 ^ n * 32 = 2 ^ (n - 3) * 256) as E.
      { change 32 with (2 ^ 5). change 256 with (2 ^ 8). rewrite <- !Z.pow_add_r by lia. f_equal. lia. }
      split; [apply Z.div_pos; lia|]. apply Z.div_lt_upper_bound; nia.
    + by replace (n - 3 + 8) with (n + 5) by lia.
Qed.

(** The characters of the bits that are there. *)
Lemma chunks_one buffer n x :
  5 ≤ n < 10 → buffer `mod` 2 ^ n = x →
  base32_chunks 2 buffer n = ([base32_char (x / 2 ^ (n - 5))], n - 5).
Proof.
  intros Hn Hx. cbn [base32_chunks]. rewrite !Z.geb_leb, (proj2 (Z.leb_le _ _)), (proj2 (Z.leb_gt 5 (n - 5))) by lia.
  do 3 f_equal. change 31 with (Z.ones 5). rewrite Z.land_ones by lia.
  apply low_bits; [lia..|]. by replace (n - 5 + 5) with n by lia.
Qed.

Lemma chunks_two buffer n x :
  10 ≤ n < 15 → buffer `mod` 2 ^ n = x →
  base32_chunks 2 buffer n
  = ([base32_char (x / 2 ^ (n - 5)); base32_char (x `mod` 2 ^ (n - 5) / 2 ^ (n - 10))], n - 10).
Proof.
  intros Hn Hx. cbn [base32_chunks].
  rewrite !Z.geb_leb, !(proj2 (Z.leb_le _ _)) by lia. replace (n - 5 - 5) with (n - 10) by lia.
  do 2 f_equal; [|do 2 f_equal]; change 31 with (Z.ones 5); rewrite Z.land_ones by lia.
  - f_equal. apply low_bits; [lia..|]. by replace (n - 5 + 5) with n by lia.
  - apply low_bits; [lia..|]. replace (n - 10 + 5) with (n - 5) by lia. apply (low_mod _ n); [lia|done].
Qed.

(** The byte that both are in the middle of: [en] of its bits are still to be encoded,
    and the others have been decoded. *)
Definition half_done (en d e : Z) : list byte := if en =? 0 then [] else [Z_byte (d * 2 ^ en + e)].

Lemma byte_split (b : byte) k : 0 ≤ k → Z_byte (byte_Z b / 2 ^ k * 2 ^ k + byte_Z b `mod` 2 ^ k) = b.
Proof.
  intros Hk. assert (0 < 2 ^ k) by (apply Z.pow_pos_nonneg; lia).
  replace (byte_Z b / 2 ^ k * 2 ^ k + byte_Z b `mod` 2 ^ k) with (byte_Z b); [apply Z_byte_byte_Z|].
  pose proof (Z.div_mod (byte_Z b) (2 ^ k)). lia.
Qed.

(** Where both are: the encoder holds [en] bits of the byte, the decoder the others. *)
Definition meeting (eb en e db dn d : Z) : Prop :=
  0 ≤ en < 5 ∧ dn = (if en =? 0 then 0 else 8 - en) ∧ eb `mod` 2 ^ en = e ∧ db `mod` 2 ^ dn = d.

(** After one more byte they meet again, and the byte is there. *)
Definition meets_after (data : list byte) (b : byte) (eb en e db dn d : Z) (out : list byte) (size : nat) : Prop :=
  ∃ eb' en' e' db' dn' d' out', meeting eb' en' e' db' dn' d' ∧
    out' ++ half_done en' d' e' = out ++ half_done en d e ++ [b] ∧
    base32_decode_loop (base32_encode_loop (b :: data) eb en) db dn out size =
    base32_decode_loop (base32_encode_loop data eb' en') db' dn' out' size.

Lemma base32_last eb en e db dn d (out : list byte) size :
  meeting eb en e db dn d → (length out + length (half_done en d e) ≤ size)%nat →
  base32_decode_loop (base32_encode_loop [] eb en) db dn out size = Some (out ++ half_done en d e).
Proof.
  intros (Hen & Hdn & He & Hd) Hsize. cbn [base32_encode_loop]. unfold half_done in *.
  destruct (Z.eqb_spec en 0) as [->|Hn0]; [by rewrite !app_nil_r|].
  rewrite (proj2 (Z.gtb_lt _ _)) by lia. subst dn.
  assert (0 < 2 ^ en) by (apply Z.pow_pos_nonneg; lia).
  assert (0 < 2 ^ (5 - en)) by (apply Z.pow_pos_nonneg; lia).
  assert (2 ^ en * 2 ^ (5 - en) = 32) as E by (rewrite <- Z.pow_add_r by lia; replace (en + (5 - en)) with 5 by lia; done).
  assert (Z.land (u32 (Z.shiftl eb (5 - en))) 31 = e * 2 ^ (5 - en)) as ->.
  { change 31 with (Z.ones 5). rewrite Z.land_ones by lia. pose proof (low_push eb (5 - en) en 0 e) as Hl.
    rewrite Z.lor_0_r in Hl. replace (en + (5 - en)) with 5 in Hl by lia. rewrite Hl by lia. lia. }
  pose proof (Z.mod_pos_bound eb (2 ^ en) ltac:(lia)) as Hb. rewrite He in Hb.
  destruct (decode_byte (e * 2 ^ (5 - en)) [] db (8 - en) out size d) as (db' & _ & ->); [nia|lia|done|simpl in *; lia|].
  cbn [base32_decode_loop]. do 4 f_equal. replace (8 - en - 3) with (5 - en) by lia.
  replace (d * 32 + e * 2 ^ (5 - en)) with ((d * 2 ^ en + e) * 2 ^ (5 - en)) by (rewrite <- E; ring). by rewrite Z.div_mul by lia.
Qed.

(** What a byte adds to the bits of the encoder, and the bounds of both. *)
Lemma meeting_push eb en e db dn d b :
  meeting eb en e db dn d →
  Z.lor (u32 (eb ≪ 8)) (byte_Z b) `mod` 2 ^ (en + 8) = e * 256 + byte_Z b ∧ 0 ≤ e < 2 ^ en ∧ 0 ≤ d < 2 ^ dn.
Proof.
  intros (Hen & Hdn & He & Hd). pose proof (byte_Z_range b) as Hb.
  pose proof (Z.mod_pos_bound eb (2 ^ en) ltac:(apply Z.pow_pos_nonneg; lia)) as Heb. rewrite He in Heb.
  pose proof (Z.mod_pos_bound db (2 ^ dn) ltac:(apply Z.pow_pos_nonneg; subst dn; case_match; lia)) as Hdb. rewrite Hd in Hdb.
  split_and!; [|lia..]. apply (low_push eb 8 en (byte_Z b) e); [lia..|done].
Qed.

(** With one bit at most, one character; it completes the byte that was begun. *)
Lemma one_character data b eb en e db dn d (out : list byte) size :
  meeting eb en e db dn d → en < 2 → (length out + 1 ≤ size)%nat → meets_after data b eb en e db dn d out size.
Proof.
  intros M Hlt Hsize. destruct (meeting_push _ _ _ _ _ _ b M) as (Hx & Heb & Hdb). pose proof (byte_Z_range b) as Hb.
  destruct M as (Hen & Hdn & He & Hd). unfold meets_after. cbn [base32_encode_loop]. set (eb' := Z.lor _ _) in *.
  assert (en = 0 ∨ en = 1) as [->| ->] by lia; cbn in Hdn; subst dn.
  - rewrite (chunks_one eb' (0 + 8) _ ltac:(lia) Hx). cbn [app].
    destruct (decode_more ((e * 256 + byte_Z b) / 2 ^ (0 + 8 - 5)) (base32_encode_loop data eb' (0 + 8 - 5)) db 0 out size d)
      as (db' & Hdb' & ->); [divlia|lia|done|].
    eexists _, _, (byte_Z b `mod` 2 ^ 3), _, _, (byte_Z b / 2 ^ 3), _. split; [|split; [|reflexivity]].
    + split_and!; [lia|lia|done| |rewrite Hdb'; divlia]. rewrite (low_mod eb' (0 + 8) (0 + 8 - 5) _ ltac:(lia) Hx). divlia.
    + unfold half_done. change (0 + 8 - 5 =? 0) with false. change (0 =? 0) with true. change (0 + 8 - 5) with 3. cbv iota.
      by rewrite (byte_split b 3) by lia.
  - rewrite (chunks_one eb' (1 + 8) _ ltac:(lia) Hx). cbn [app].
    destruct (decode_byte ((e * 256 + byte_Z b) / 2 ^ (1 + 8 - 5)) (base32_encode_loop data eb' (1 + 8 - 5)) db (8 - 1) out size d)
      as (db' & Hdb' & ->); [divlia|lia|done|lia|].
    eexists _, _, (byte_Z b `mod` 2 ^ 4), _, _, (byte_Z b / 2 ^ 4), _. split; [|split; [|reflexivity]].
    + split_and!; [lia|lia|done| |rewrite Hdb'; divlia]. rewrite (low_mod eb' (1 + 8) (1 + 8 - 5) _ ltac:(lia) Hx). divlia.
    + unfold half_done. change (1 + 8 - 5 =? 0) with false. change (1 =? 0) with false. change (1 + 8 - 5) with 4. cbv iota.
      rewrite (byte_split b 4) by lia. rewrite <- app_assoc. cbn [app]. do 3 f_equal. divlia.
Qed.

(** With more, two: the first completes the byte, the second begins the next one. *)
Lemma two_characters data b eb en e db dn d (out : list byte) size :
  meeting eb en e db dn d → 2 ≤ en → (length out + 2 ≤ size)%nat → meets_after data b eb en e db dn d out size.
Proof.
  intros M Hge Hsize. destruct (meeting_push _ _ _ _ _ _ b M) as (Hx & Heb & Hdb). pose proof (byte_Z_range b) as Hb.
  destruct M as (Hen & Hdn & He & Hd). unfold meets_after. cbn [base32_encode_loop]. set (eb' := Z.lor _ _) in *.
  rewrite (chunks_two eb' (en + 8) _ ltac:(lia) Hx). cbn [app].
  set (rest := base32_encode_loop data eb' (en + 8 - 10)).
  set (v1 := (e * 256 + byte_Z b) / 2 ^ (en + 8 - 5)). set (v2 := (e * 256 + byte_Z b) `mod` 2 ^ (en + 8 - 5) / 2 ^ (en + 8 - 10)).
  assert (en = 2 ∨ en = 3 ∨ en = 4) as Hcases by lia.
  assert (dn = 8 - en) as -> by (rewrite (proj2 (Z.eqb_neq en 0)) in Hdn by lia; done). clear Hdn.
  destruct (decode_byte v1 (base32_char v2 :: rest) db (8 - en) out size d) as (db1 & Hdb1 & ->);
    [unfold v1; destruct Hcases as [->|[->| ->]]; divlia|lia|done|lia|].
  assert (Hv2 : 0 ≤ v2 < 32) by (unfold v2; destruct Hcases as [->|[->| ->]]; divlia).
  set (out1 := out ++ [Z_byte ((d * 32 + v1) / 2 ^ (8 - en - 3))]).
  assert (Hout : out1 = out ++ half_done en d e).
  { unfold out1, half_done, v1. rewrite (proj2 (Z.eqb_neq en 0)) by lia. do 3 f_equal. destruct Hcases as [->|[->| ->]]; divlia. }
  assert (Hlow : eb' `mod` 2 ^ (en + 8 - 10) = byte_Z b `mod` 2 ^ (en + 8 - 10)).
  { rewrite (low_mod eb' (en + 8) (en + 8 - 10) _ ltac:(lia) Hx). destruct Hcases as [->|[->| ->]]; divlia. }
  assert (Hhigh : db1 `mod` 2 ^ (8 - en - 3) = byte_Z b / 2 ^ (en + 3)).
  { rewrite Hdb1. unfold v1. destruct Hcases as [->|[->| ->]]; divlia. }
  destruct (Z.eq_dec en 2) as [->|Hn2].
  - destruct (decode_byte v2 rest db1 (8 - 2 - 3) out1 size (byte_Z b / 2 ^ (2 + 3))) as (db2 & _ & ->);
      [done|lia|done|unfold out1; rewrite length_app; simpl; lia|].
    eexists _, _, 0, _, _, 0, _. split; [|split; [|reflexivity]].
    + split_and!; [lia|lia|done|apply Z.mod_1_r|apply Z.mod_1_r].
    + rewrite Hout. change (half_done (2 + 8 - 10) 0 0) with (@nil byte). rewrite app_nil_r, <- app_assoc. do 3 f_equal.
      etrans; [|apply (byte_split b 5); lia]. unfold v2. f_equal. divlia.
  - destruct (decode_more v2 rest db1 (8 - en - 3) out1 size (byte_Z b / 2 ^ (en + 3))) as (db2 & Hdb2 & ->); [done|lia|done|].
    eexists _, _, (byte_Z b `mod` 2 ^ (en + 8 - 10)), _, _, (byte_Z b / 2 ^ (en + 8 - 10)), _. split; [|split; [|reflexivity]].
    + split_and!; [lia|lia|rewrite (proj2 (Z.eqb_neq _ 0)); lia|done|]. rewrite Hdb2. unfold v2.
      destruct Hcases as [->|[->| ->]]; [done|divlia..].
    + unfold half_done at 1. rewrite (proj2 (Z.eqb_neq (en + 8 - 10) 0)), byte_split, Hout by lia. by rewrite <- app_assoc.
Qed.

Lemma base32_loops (data : list byte) eb en e db dn d (out : list byte) size :
  meeting eb en e db dn d → (length out + length data + length (half_done en d e) ≤ size)%nat →
  base32_decode_loop (base32_encode_loop data eb en) db dn out size = Some (out ++ half_done en d e ++ data).
Proof.
  revert eb en e db dn d out. induction data as [|b data IH]; intros eb en e db dn d out M Hsize.
  - rewrite app_nil_r. apply base32_last; [done|simpl in *; lia].
  - assert (meets_after data b eb en e db dn d out size) as (eb' & en' & e' & db' & dn' & d' & out' & M' & Ho & ->).
    { destruct (Z.lt_ge_cases en 2); [apply one_character|apply two_characters]; try done; simpl in Hsize; [lia|].
      unfold half_done in Hsize. rewrite (proj2 (Z.eqb_neq en 0)) in Hsize by lia. simpl in Hsize. lia. }
    pose proof (f_equal length Ho) as Hl. rewrite !length_app in Hl. rewrite (IH _ _ _ _ _ _ _ M'); [|simpl in *; lia].
    by rewrite app_assoc, Ho, <- !app_assoc.
Qed.

Lemma chunks_length buffer n :
  8 ≤ n < 13 → Z.of_nat (length (base32_chunks 2 buffer n).1) = n / 5 ∧ (base32_chunks 2 buffer n).2 = n `mod` 5.
Proof.
  intros Hn. cbn [base32_chunks]. rewrite !Z.geb_leb, (proj2 (Z.leb_le 5 n)) by lia.
  destruct (Z.leb_spec 5 (n - 5)); simpl; divlia.
Qed.

Lemma base32_encode_length data buffer bits :
  0 ≤ bits < 5 →
  Z.of_nat (length (base32_encode_loop data buffer bits)) = (8 * Z.of_nat (length data) + bits + 4) / 5.
Proof.
  revert buffer bits. induction data as [|b data IH]; intros buffer bits Hb; cbn [base32_encode_loop].
  - destruct (Z.gtb_spec bits 0); simpl; divlia.
  - destruct (chunks_length (Z.lor (u32 (buffer ≪ 8)) (byte_Z b)) (bits + 8) ltac:(lia)) as [Hl Hr].
    destruct (base32_chunks 2 _ (bits + 8)) as [cs bits']. cbn [fst snd] in Hl, Hr.
    rewrite length_app, Nat2Z.inj_add, IH, Hl by (subst bits'; apply Z.mod_pos_bound; lia).
    cbn [length]. divlia.
Qed.

(** C7: a secret of any length is read back from its base32 text. *)
Theorem base32_roundtrip (data : list byte) (output_size size : nat) (text : cstr)
  (Hencode : base32_encode data output_size = Some text)
  (Hsize : (0 < size)%nat ∧ (length data ≤ size)%nat) :
  base32_decode text size = Some data.
Proof.
  unfold base32_encode in Hencode. destruct (output_size =? 0)%nat; [done|]. case_match; [done|].
  injection Hencode as <-. unfold base32_decode. rewrite (proj2 (Nat.eqb_neq _ _)) by lia.
  pose proof (base32_encode_length data 0 0 ltac:(lia)) as Hl.
  rewrite (proj2 (Nat.ltb_ge _ _)).
  - rewrite (base32_loops data 0 0 0 0 0 0 [] size); [done|by split_and!|]. simpl. lia.
  - apply Nat2Z.inj_le. rewrite Nat2Z.inj_div, Nat2Z.inj_mul, Hl. divlia.
Qed.

Lemma base32_roundtrip_witness : base32_decode (lit "NBSWY3DPEE") 64 = Some (lit "hello!").
Proof.
  apply (base32_roundtrip (lit "hello!") 64).
  - vm_compute. reflexivity.
  - vm_compute. lia.
Defined.

(** What is no number is read as 0: six letters pass for the code 000000. *)
Example letters_pass_for_zeros `{Hmac} now secret : totp_verify now secret (lit "abcdef") = totp_verify now secret (lit "000000").
Proof. reflexivity. Qed.

(** ** The handlers

    A handler runs on the tables; [None] is undefined behaviour.  [alloc] is for the
    bodies of the responses. *)
Definition handler (A : Type) : Type := world → option (A * world).

#[global] Instance handler_ret : MRet handler := λ A a w, Some (a, w).
#[global] Instance handler_bind : MBind handler := λ A B k m w, '(a, w) ← m w; k a w.

Definition lift {A} (m : M A) : handler A := λ w, Some (m w).
Definition undefined {A} : handler A := λ _, None.

Section Responses.
Context `{CJson}.

Definition json_error (alloc : bool * bool) (res : http_response_t) (code : Z) (msg : string) : http_response_t :=
  (http_response_set_json_error alloc res code (lit msg)).2.

Definition json_ok (alloc : bool * bool) (res : http_response_t) (fields : list (cstr * json_field)) : http_response_t :=
  (http_response_set_json alloc.2 res 200 (cJSON_PrintUnformatted fields)).2.

End Responses.

Definition extract_totp_user_id (req : http_request_t) : option Z :=
  param ← http_request_extract_path_param req (lit "/api/auth/users/") 64;
  let user_id := match strtol10 (until Byte.x2f param) with Some (v, _) => v | None => 0 end in
  if user_id >? 0 then Some user_id else None.

Inductive totp_permission := Unauthorized | Forbidden | Permitted (current_user : user_t).

Section Handlers.
Context {CR : Crypto} {EN : Environment} {SQ : Sqlite} {IC : InetConversions} {HM : Hmac} {CJ : CJson}.
Context (cfg : config_t) (alloc : bool * bool).

Definition authenticated_user (req : http_request_t) : handler (option user_t) :=
  λ w, httpd_get_authenticated_user cfg req w.

Definition check_totp_permission (req : http_request_t) (target_user_id : Z) : handler totp_permission :=
  user ← authenticated_user req;
  mret match user with
       | None => Unauthorized
       | Some u =>
           if negb (role u =? USER_ROLE_ADMIN) && negb (id u =? target_user_id) then Forbidden else Permitted u
       end.

(** What the four handlers begin with. *)
Definition with_totp_user (req : http_request_t) (res : http_response_t) (k : Z → handler http_response_t) : handler http_response_t :=
  match extract_totp_user_id req with
  | None => mret (json_error alloc res 400 "Invalid user ID in path")
  | Some target_user_id =>
      p ← check_totp_permission req target_user_id;
      match p with
      | Unauthorized => mret (json_error alloc res 401 "Unauthorized")
      | Forbidden => mret (json_error alloc res 403 "Forbidden: Can only manage your own MFA")
      | Permitted _ => k target_user_id
      end
  end.

(** [None] for -1. *)
Definition totp_generate_secret (secret_size : nat) : M (option cstr) :=
  n ← tick;
  mret (raw_secret ← random_at n 20; base32_encode raw_secret secret_size).

Definition otpauth_uri (username secret_b32 : cstr) : cstr :=
  strcpy_trunc 512 (lit "otpauth://totp/LightNVR:" ++ username ++ lit "?secret=" ++ secret_b32 ++
                    lit "&issuer=LightNVR&algorithm=SHA1&digits=6&period=30").

Definition handle_totp_setup (req : http_request_t) (res : http_response_t) : handler http_response_t :=
  with_totp_user req res (λ target_user_id,
    target ← lift (db_auth_get_user_by_id target_user_id);
    match target with
    | None => mret (json_error alloc res 404 "User not found")
    | Some target_user =>
        secret ← lift (totp_generate_secret 64);
        match secret with
        | None => mret (json_error alloc res 500 "Failed to generate TOTP secret")
        | Some secret_b32 =>
            r ← lift (db_auth_set_totp_secret target_user_id (Some secret_b32));
            if negb (r =? 0) then mret (json_error alloc res 500 "Failed to store TOTP secret") else
            mret (json_ok alloc res
              [(lit "success", JBool true); (lit "secret", JString secret_b32);
               (lit "otpauth_uri", JString (otpauth_uri (username target_user) secret_b32));
               (lit "message", JString (lit "Scan the QR code with your authenticator app, then verify with a code"))])
        end
    end).

Definition handle_totp_verify (req : http_request_t) (res : http_response_t) : handler http_response_t :=
  with_totp_user req res (λ target_user_id,
    match httpd_parse_json_body alloc.1 req with
    | None => mret (json_error alloc res 400 "Invalid JSON body")
    | Some j =>
        match string_item j "code" with
        | None => mret (json_error alloc res 400 "Missing or invalid 'code' field")
        | Some code =>
            '(r, secret, enabled) ← lift (db_auth_get_totp_info target_user_id true true 64);
            if negb (r =? 0) then mret (json_error alloc res 400 "TOTP not set up for this user. Run setup first.") else
            now ← lift time;
            if negb (totp_verify now secret code) then mret (json_error alloc res 401 "Invalid TOTP code") else
            r ← lift (db_auth_enable_totp target_user_id true);
            if negb (r =? 0) then mret (json_error alloc res 500 "Failed to enable TOTP") else
            mret (json_ok alloc res [(lit "success", JBool true); (lit "message", JString (lit "TOTP MFA enabled successfully"))])
        end
    end).

Definition handle_totp_disable (req : http_request_t) (res : http_response_t) : handler http_response_t :=
  with_totp_user req res (λ target_user_id,
    r ← lift (db_auth_enable_totp target_user_id false);
    if negb (r =? 0) then mret (json_error alloc res 500 "Failed to disable TOTP") else
    _ ← lift (db_auth_set_totp_secret target_user_id None);
    mret (json_ok alloc res [(lit "success", JBool true); (lit "message", JString (lit "TOTP MFA disabled successfully"))])).

Definition handle_totp_status (req : http_request_t) (res : http_response_t) : handler http_response_t :=
  with_totp_user req res (λ target_user_id,
    '(_, secret, enabled) ← lift (db_auth_get_totp_info target_user_id true true 64);
    mret (json_ok alloc res [(lit "totp_enabled", JBool enabled); (lit "totp_configured", JBool (negb (empty secret)))])).

End Handlers.
