(* ===== verification/Login.v ===== *)
(** * Login

    [src/web/api_handlers_auth_backend_agnostic.c] and the last handler of
    [api_handlers_totp.c]: the table that limits failed attempts, the login with a
    password, the second factor, logout, and the lists of sessions and devices of a
    user, on the tables of [Accounts]. *)
From Stdlib Require Import ZArith Lia Bool.
From Stdlib Require Import Strings.Byte.
From stdpp Require Import base numbers list strings.
From S2P Require Import Prelude.
From S2P Require Import Sql.
From S2P Require Import Libc.
From S2P Require Import CStrings.
From S2P Require Import Auth.
From S2P Require Import HttpMessage.
From S2P Require Import HttpUtils.
From S2P Require Import Accounts.
From S2P Require Import AccountLogin.
From S2P Require Import Json.
From S2P Require Import Totp.
#[local] Open Scope Z_scope.

(** ** Rate limit *)

Definition MAX_RATE_LIMIT_ENTRIES : nat := 256.

Record rate_limit_entry_t := mkEntry {
  entry_username : cstr;
  attempt_count : Z;
  window_start : Z
}.

(** The members of [g_config] that the handlers read besides those of [config_t]. *)
Record login_config := mkLoginConfig {
  login_rate_limit_enabled : bool;
  login_rate_limit_max_attempts : Z;
  login_rate_limit_window_seconds : Z;
  force_mfa_on_login : bool
}.

(** The entries in use: [rate_limit_count] is their number. *)
Abbreviation rate_table := (list rate_limit_entry_t).

Definition find_entry (t : rate_table) (username : cstr) : option nat :=
  find_idx (λ e, streq (entry_username e) username) t.

(** Whether the attempt is refused, and the table. *)
Definition check_rate_limit (c : login_config) (now : Z) (username : cstr) (t : rate_table) : bool * rate_table :=
  if negb (login_rate_limit_enabled c) then (false, t) else
  match find_entry t username with
  | None => (false, t)
  | Some i =>
      match t !! i with
      | None => (false, t)
      | Some e =>
          if now - window_start e >? login_rate_limit_window_seconds c
          then (false, <[i := mkEntry (entry_username e) 0 now]> t)
          else (attempt_count e >=? login_rate_limit_max_attempts c, t)
      end
  end.

(** The scan for the entry whose window began first: index and time. *)
Fixpoint oldest_entry (t : rate_table) (i : nat) (oldest : nat * Z) : nat * Z :=
  match t with
  | [] => oldest
  | e :: t => oldest_entry t (S i) (if window_start e <? snd oldest then (i, window_start e) else oldest)
  end.

Definition new_entry (username : cstr) (now : Z) : rate_limit_entry_t := mkEntry (strcpy_trunc 64 username) 1 now.

Definition record_failed_attempt (c : login_config) (now : Z) (username : cstr) (t : rate_table) : rate_table :=
  if negb (login_rate_limit_enabled c) then t else
  match find_entry t username with
  | Some i =>
      alter (λ e, if now - window_start e >? login_rate_limit_window_seconds c
                  then mkEntry (entry_username e) 1 now
                  else mkEntry (entry_username e) (attempt_count e + 1) (window_start e)) i t
  | None =>
      if (length t <? MAX_RATE_LIMIT_ENTRIES)%nat then t ++ [new_entry username now] else
      match t with
      | [] => t
      | e :: rest => <[fst (oldest_entry rest 1 (0%nat, window_start e)) := new_entry username now]> t
      end
  end.

Definition auth_clear_login_rate_limit_for_username (username : cstr) (t : rate_table) : bool * rate_table :=
  if empty username then (false, t) else
  match find_entry t username with
  | Some i => (true, alter (λ e, mkEntry (entry_username e) 0 0) i t)
  | None => (false, t)
  end.

(** ** What a request asks for *)

(** The value of [name] in a form body, and what comes behind it: from the next
    parameter on, or nothing when the value is the last. *)
Definition form_value (name body : cstr) : option (cstr * option cstr) :=
  '(_, found) ← strstr name body;
  let start := drop (length name) found in
  Some (match split_first Byte.x26 start with
        | Some (value, rest) => (value, Some rest)
        | None => (start, None)
        end).

(** The password is looked for behind the user name, or in all of the body when that
    is its last parameter.  [None] for -1. *)
Definition parse_form_credentials (body_ : option (list byte)) (username_size password_size : nat)
    : option (cstr * cstr) :=
  b ← body_;
  if (length b =? 0)%nat then None else
  let body_copy := until NUL b in
  '(username, rest) ← form_value (lit "username=") body_copy;
  '(password, _) ← form_value (lit "password=") (default body_copy rest);
  username ← url_decode username username_size;
  password ← url_decode password password_size;
  Some (username, password).

Inductive login_input :=
  | InvalidLogin (msg : string)
  | Credentials (is_form : bool) (username password totp_code : cstr) (remember_device : bool).

Definition contains (word s : cstr) : bool := bool_decide (is_Some (strstr word s)).

Section Input.
Context `{CJson}.

Definition json_credentials (login : cJSON) : login_input :=
  match string_item login "username", string_item login "password" with
  | Some username, Some password =>
      Credentials false (strcpy_trunc 64 username) (strcpy_trunc 64 password)
        (strcpy_trunc 8 (default [] (string_item login "totp_code")))
        (default false (bool_item login "remember_device"))
  | _, _ => InvalidLogin "Missing or invalid username/password"
  end.

(** [alloc] is whether the copy of the body can be allocated. *)
Definition login_request (alloc : bool) (req : http_request_t) : login_input :=
  let form := if alloc then parse_form_credentials (body req) 64 64 else None in
  let is_form := match http_request_get_header req (lit "Content-Type") with
                 | Some content_type => contains (lit "application/x-www-form-urlencoded") content_type
                 | None => false
                 end in
  match (if is_form then form else None) with
  | Some (username, password) => Credentials true username password [] false
  | None =>
      match httpd_parse_json_body alloc req with
      | Some login => json_credentials login
      | None =>
          match form with
          | Some (username, password) => Credentials true username password [] false
          | None => InvalidLogin "Invalid login data"
          end
      end
  end.

End Input.

(** ** Login

    The state of the handlers: the table of attempts and the tables of accounts. *)
Record auth_state := mkAuthState { rates : rate_table; base : world }.

Definition L (A : Type) : Type := auth_state → option (A * auth_state).

#[global] Instance L_ret : MRet L := λ A a s, Some (a, s).
#[global] Instance L_bind : MBind L := λ A B k m s, '(a, s) ← m s; k a s.

Definition on_base {A} (m : handler A) : L A := λ s, '(a, w) ← m (base s); Some (a, mkAuthState (rates s) w).
Definition on_tables {A} (m : M A) : L A := on_base (lift m).
Definition on_rates {A} (f : rate_table → A * rate_table) : L A :=
  λ s, let '(a, t) := f (rates s) in Some (a, mkAuthState t (base s)).

(** What becomes of a login. *)
Inductive login_outcome :=
  | RateLimited
  | InvalidCredentials
  | ServerError (msg : string)
  | TotpRequired (totp_token : cstr)
  | LoggedIn (token : cstr) (trusted_token : option cstr).

Inductive factor :=
  | Passed (totp_verified trusted_device_used : bool)
  | Rejected
  | Pending (totp_token : cstr)
  | PendingFailed.

(** The text that two handlers send: an object with [success]. *)
Definition success_text : cstr := [Byte.x7b; Byte.x22] ++ lit "success" ++ [Byte.x22; Byte.x3a] ++ lit "true" ++ [Byte.x7d].

Section Login.
Context {CR : Crypto} {EN : Environment} {SQ : Sqlite} {IC : InetConversions} {HM : Hmac} {CJ : CJson}.
Context (cfg : config_t) (c : login_config) (alloc : bool * bool).

Definition failed_attempt (username : cstr) : L unit :=
  if negb (login_rate_limit_enabled c) then mret () else
  now ← on_tables time;
  on_rates (λ t, ((), record_failed_attempt c now username t)).

Definition rate_limited (username : cstr) : L bool :=
  if negb (login_rate_limit_enabled c) then mret false else
  now ← on_tables time;
  on_rates (check_rate_limit c now username).

Definition request_has_valid_trusted_device (req : http_request_t) (user_id : Z) : M bool :=
  if httpd_trusted_device_lifetime_seconds cfg <=? 0 then mret false else
  match httpd_get_cookie_value req (lit "trusted_device") 128 with
  | None => mret false
  | Some trusted_token => r ← db_auth_validate_trusted_device user_id (Some trusted_token); mret (r =? 0)
  end.

Definition verified_now (secret code : cstr) : M bool := now ← time; mret (totp_verify now secret code).

(** The check of the second factor, for a request that is not a form. *)
Definition second_factor (req : http_request_t) (user_id : Z) (ip totp_code : cstr) : M factor :=
  '(r, totp_secret, totp_enabled) ← db_auth_get_totp_info user_id true true 64;
  if negb ((r =? 0) && totp_enabled) then mret (Passed false false) else
  trusted_device_valid ← request_has_valid_trusted_device req user_id;
  if negb (empty totp_code) then
    ok ← verified_now totp_secret totp_code;
    mret (if ok : bool then Passed true false else Rejected)
  else if trusted_device_valid : bool then mret (Passed false true)
  else if force_mfa_on_login c then mret Rejected
  else
    token ← db_auth_create_session user_id (Some ip) (Some (user_agent req)) 300 33;
    mret match token with Some t => Pending t | None => PendingFailed end.

(** From the session on. *)
Definition complete_login (req : http_request_t) (user_id : Z) (ip username : cstr) (totp_verified trusted_device_used remember_device : bool)
    : L login_outcome :=
  _ ← on_rates (auth_clear_login_rate_limit_for_username username);
  token ← on_tables (db_auth_create_session user_id (Some ip) (Some (user_agent req)) 0 33);
  match token with
  | None => mret (ServerError "Failed to create session")
  | Some token =>
      if totp_verified && remember_device && negb trusted_device_used && (httpd_trusted_device_lifetime_seconds cfg >? 0) then
        trusted ← on_tables (db_auth_create_trusted_device user_id (Some ip) (Some (user_agent req))
                               (httpd_trusted_device_lifetime_seconds cfg) 33);
        mret (LoggedIn token trusted)
      else mret (LoggedIn token None)
  end.

Definition login (req : http_request_t) (ip : cstr) (is_form : bool) (username password totp_code : cstr) (remember_device : bool)
    : L login_outcome :=
  limited ← rate_limited username;
  if limited : bool then mret RateLimited else
  rc ← on_tables (Accounts.db_auth_authenticate (Some username) (Some password));
  match rc with
  | None => λ _, None
  | Some None => _ ← failed_attempt username; mret InvalidCredentials
  | Some (Some user_id) =>
      user ← on_tables (Accounts.db_auth_get_user_by_id user_id);
      match user with
      | None => mret (ServerError "Failed to load user")
      | Some authenticated_user =>
          if negb (db_auth_ip_allowed_for_user (Some authenticated_user) (Some ip)) then
            _ ← failed_attempt username; mret InvalidCredentials
          else
            f ← (if is_form then mret (Passed false false) else on_tables (second_factor req user_id ip totp_code));
            match f with
            | Rejected => _ ← failed_attempt username; mret InvalidCredentials
            | PendingFailed => mret (ServerError "Failed to create MFA session")
            | Pending totp_token => mret (TotpRequired totp_token)
            | Passed totp_verified trusted_device_used =>
                complete_login req user_id ip username totp_verified trusted_device_used remember_device
            end
      end
  end.

(** *** The response *)

Definition redirect (location : string) (res : http_response_t) : http_response_t :=
  let res := add_header "Location" location res in
  mkResponse 302 (content_type res) None 0 (body_allocated res) (response_headers res).

Definition login_response (is_form : bool) (o : login_outcome) (res : http_response_t) : http_response_t :=
  match o with
  | RateLimited =>
      if is_form then redirect "/login.html?error=rate_limited" res
      else json_error alloc res 429 "Too many login attempts. Please try again later."
  | InvalidCredentials =>
      if is_form then redirect "/login.html?error=1" res else json_error alloc res 401 "Invalid credentials"
  | ServerError msg => json_error alloc res 500 msg
  | TotpRequired totp_token =>
      json_ok alloc res [(lit "totp_required", JBool true); (lit "totp_token", JString totp_token)]
  | LoggedIn token trusted =>
      let res := httpd_add_session_cookie cfg res token in
      let res := match trusted with Some t => httpd_add_trusted_device_cookie cfg res t | None => res end in
      if is_form then redirect "/index.html" res
      else json_ok alloc res [(lit "success", JBool true); (lit "redirect", JString (lit "/index.html"))]
  end.

Definition handle_auth_login (req : http_request_t) (res : http_response_t) : L http_response_t :=
  match request_ip cfg req with
  | None => λ _, None
  | Some effective_client_ip =>
      match login_request alloc.1 req with
      | InvalidLogin msg => mret (json_error alloc res 400 msg)
      | Credentials is_form username password totp_code remember_device =>
          o ← login req effective_client_ip is_form username password totp_code remember_device;
          mret (login_response is_form o res)
      end
  end.

(** ** The second step *)

Inductive totp_outcome :=
  | InvalidToken
  | NotEnabled
  | InvalidCode
  | SessionFailed
  | Completed (token : cstr) (trusted_token : option cstr).

(** The login with the token of [TotpRequired] and a code. *)
Definition login_totp (req : http_request_t) (totp_token code : cstr) (remember_device : bool) : M totp_outcome :=
  user ← Accounts.db_auth_validate_session_with_context (Some totp_token) (Some (client_ip req)) (Some (user_agent req));
  match user with
  | None => mret InvalidToken
  | Some user_id =>
      '(r, secret, enabled) ← db_auth_get_totp_info user_id true true 64;
      if negb (r =? 0) || negb enabled then
        _ ← db_auth_delete_session (Some totp_token); mret NotEnabled
      else
        ok ← verified_now secret code;
        if negb (ok : bool) then mret InvalidCode else
        _ ← db_auth_delete_session (Some totp_token);
        token ← db_auth_create_session user_id (Some (client_ip req)) (Some (user_agent req)) 0 33;
        match token with
        | None => mret SessionFailed
        | Some session_token =>
            if remember_device && (httpd_trusted_device_lifetime_seconds cfg >? 0) then
              trusted ← db_auth_create_trusted_device user_id (Some (client_ip req)) (Some (user_agent req))
                          (httpd_trusted_device_lifetime_seconds cfg) 33;
              mret (Completed session_token trusted)
            else mret (Completed session_token None)
        end
  end.

Definition totp_response (o : totp_outcome) (res : http_response_t) : http_response_t :=
  match o with
  | InvalidToken => json_error alloc res 401 "Invalid or expired MFA token. Please login again."
  | NotEnabled => json_error alloc res 400 "TOTP not enabled for this user"
  | InvalidCode => json_error alloc res 401 "Invalid TOTP code"
  | SessionFailed => json_error alloc res 500 "Failed to create session"
  | Completed session_token trusted =>
      let res := httpd_add_session_cookie cfg res session_token in
      let res := match trusted with Some t => httpd_add_trusted_device_cookie cfg res t | None => res end in
      json_ok alloc res [(lit "success", JBool true); (lit "redirect", JString (lit "/index.html"))]
  end.

Definition handle_auth_login_totp (req : http_request_t) (res : http_response_t) : M http_response_t :=
  match httpd_parse_json_body alloc.1 req with
  | None => mret (json_error alloc res 400 "Invalid JSON body")
  | Some j =>
      match string_item j "totp_token", string_item j "code" with
      | Some totp_token, Some code =>
          o ← login_totp req totp_token code (default false (bool_item j "remember_device"));
          mret (totp_response o res)
      | _, _ => mret (json_error alloc res 400 "Missing 'totp_token' or 'code'")
      end
  end.

(** ** Logout *)

Definition handle_auth_logout (req : http_request_t) (res : http_response_t) : M http_response_t :=
  _ ← match httpd_get_session_token req 64 with
      | Some session_token => db_auth_delete_session (Some session_token)
      | None => mret 0
      end;
  let res := httpd_clear_trusted_device_cookie (httpd_clear_session_cookie res) in
  let is_api_request :=
    match http_request_get_header req (lit "Accept") with
    | Some accept => contains (lit "application/json") accept
    | None => false
    end || bool_decide (is_Some (http_request_get_header req (lit "X-Requested-With"))) in
  mret (if is_api_request
        then json_ok alloc res [(lit "success", JBool true); (lit "redirect", JString (lit "/login.html?logout=true"))]
        else redirect "/login.html?logout=true" res).

(** ** Who is logged in *)

Definition timeouts : list (cstr * json_field) :=
  [(lit "auth_timeout_hours", JNumber Accounts.auth_timeout_hours);
   (lit "auth_absolute_timeout_hours", JNumber (HttpUtils.auth_absolute_timeout_hours cfg));
   (lit "trusted_device_days", JNumber (HttpUtils.trusted_device_days cfg))].

Definition handle_auth_verify (req : http_request_t) (res : http_response_t) : handler http_response_t :=
  if negb (web_auth_enabled cfg) then
    mret (json_ok alloc res
      ([(lit "authenticated", JBool true); (lit "username", JString (lit "admin")); (lit "role", JString (lit "admin"));
        (lit "auth_enabled", JBool false)] ++ timeouts))
  else
    user ← authenticated_user cfg req;
    mret match user with
         | Some user =>
             json_ok alloc res
               ([(lit "authenticated", JBool true); (lit "id", JNumber (id user)); (lit "username", JString (username user));
                 (lit "email", JString (email user)); (lit "role", JString (db_auth_get_role_name (role user)));
                 (lit "role_id", JNumber (role user)); (lit "is_active", JBool (is_active user));
                 (lit "password_change_locked", JBool (password_change_locked user)); (lit "auth_enabled", JBool true)]
                ++ timeouts)
         | None =>
             if demo_mode cfg then
               json_ok alloc res
                 [(lit "authenticated", JBool false); (lit "demo_mode", JBool true); (lit "username", JString (lit "demo"));
                  (lit "role", JString (lit "viewer"))]
             else json_error alloc (httpd_clear_session_cookie res) 401 "Unauthorized"
         end.

Definition handle_auth_login_config (res : http_response_t) : http_response_t :=
  json_ok alloc res
    ([(lit "force_mfa_on_login", JBool (force_mfa_on_login c)); (lit "remember_device_enabled", JBool (HttpUtils.trusted_device_days cfg >? 0))]
     ++ timeouts).

(** ** Sessions and devices of the user *)

(** [if (!httpd_get_authenticated_user (req, &user))]: 401. *)
Definition with_user (req : http_request_t) (res : http_response_t) (k : user_t → M http_response_t) : handler http_response_t :=
  user ← authenticated_user cfg req;
  match user with
  | None => mret (json_error alloc res 401 "Unauthorized")
  | Some u => lift (k u)
  end.

Definition is_current (current_token : option cstr) (s : session_t) : bool :=
  match current_token with
  | Some token => negb (empty token) && streq token (session_token s)
  | None => false
  end.

Definition session_item (current_token : option cstr) (s : session_t) : list (cstr * json_field) :=
  [(lit "id", JNumber (session_id s)); (lit "created_at", JNumber (session_created_at s));
   (lit "last_activity_at", JNumber (session_last_activity_at s)); (lit "idle_expires_at", JNumber (session_idle_expires_at s));
   (lit "expires_at", JNumber (session_expires_at s)); (lit "ip_address", JString (session_ip_address s));
   (lit "user_agent", JString (session_user_agent s)); (lit "current", JBool (is_current current_token s))].

Definition handle_auth_sessions_list (req : http_request_t) (res : http_response_t) : handler http_response_t :=
  with_user req res (λ user,
    sessions ← db_auth_list_user_sessions (id user) true 32;
    mret match sessions with
         | None => json_error alloc res 500 "Failed to list sessions"
         | Some ss =>
             json_ok alloc res [(lit "sessions", JObjects (session_item (httpd_get_session_token req 128) <$> ss))]
         end).

Definition path_id (req : http_request_t) (prefix : string) : option Z :=
  id_str ← http_request_extract_path_param req (lit prefix) 64;
  Some (match strtol10 id_str with Some (v, _) => v | None => 0 end).

Definition handle_auth_sessions_delete (req : http_request_t) (res : http_response_t) : handler http_response_t :=
  with_user req res (λ user,
    match path_id req "/api/auth/sessions/" with
    | None => mret (json_error alloc res 400 "Missing session ID")
    | Some requested =>
        sessions ← db_auth_list_user_sessions (id user) true 32;
        let current_token := httpd_get_session_token req 128 in
        let deleted_current_session :=
          existsb (λ s, (session_id s =? requested) && is_current current_token s) (default [] sessions) in
        r ← (if requested <=? 0 then mret (-1) else db_auth_delete_session_by_id (id user) requested);
        if negb (r =? 0) then mret (json_error alloc res 404 "Session not found") else
        let res := if deleted_current_session then httpd_clear_session_cookie res else res in
        mret (http_response_set_json alloc.2 res 200 (success_text)).2
    end).

(** The device whose token the request carries. *)
Definition current_device (req : http_request_t) (user_id : Z) : M Z :=
  match httpd_get_cookie_value req (lit "trusted_device") 128 with
  | None => mret 0
  | Some current_token => d ← db_auth_get_trusted_device_id user_id (Some current_token); mret (default 0 d)
  end.

Definition device_item (current_device_id : Z) (d : trusted_device_t) : list (cstr * json_field) :=
  [(lit "id", JNumber (device_id d)); (lit "created_at", JNumber (device_created_at d));
   (lit "last_used_at", JNumber (device_last_used_at d)); (lit "expires_at", JNumber (device_expires_at d));
   (lit "ip_address", JString (device_ip_address d)); (lit "user_agent", JString (device_user_agent d));
   (lit "current", JBool ((current_device_id >? 0) && (current_device_id =? device_id d)))].

Definition handle_auth_trusted_devices_list (req : http_request_t) (res : http_response_t) : handler http_response_t :=
  with_user req res (λ user,
    devices ← db_auth_list_trusted_devices (id user) true 32;
    match devices with
    | None => mret (json_error alloc res 500 "Failed to list trusted devices")
    | Some ds =>
        current_device_id ← current_device req (id user);
        mret (json_ok alloc res [(lit "trusted_devices", JObjects (device_item current_device_id <$> ds))])
    end).

Definition handle_auth_trusted_devices_delete (req : http_request_t) (res : http_response_t) : handler http_response_t :=
  with_user req res (λ user,
    match path_id req "/api/auth/trusted-devices/" with
    | None => mret (json_error alloc res 400 "Missing trusted device ID")
    | Some requested =>
        devices ← db_auth_list_trusted_devices (id user) true 32;
        current_device_id ← current_device req (id user);
        let deleted_current_device :=
          existsb (λ d, (device_id d =? requested) && (current_device_id >? 0) && (current_device_id =? device_id d))
            (default [] devices) in
        r ← (if requested <=? 0 then mret (-1) else db_auth_delete_trusted_device_by_id (id user) requested);
        if negb (r =? 0) then mret (json_error alloc res 404 "Trusted device not found") else
        let res := if deleted_current_device then httpd_clear_trusted_device_cookie res else res in
        mret (http_response_set_json alloc.2 res 200 (success_text)).2
    end).

End Login.
