(* ===== verification/LoginSafety.v ===== *)
(** * What a login proves

    Over the handlers of [Login]: what an account has to be for a session to be made,
    what the token of a pending second factor is good for, and how long failed
    attempts are remembered. *)
From Stdlib Require Import ZArith Lia Bool.
From Stdlib Require Import Strings.Byte.
From stdpp Require Import base numbers list strings relations.
From S2P Require Import Prelude.
From S2P Require Import Sql.
From S2P Require Import CFloat.
From S2P Require Import Libc.
From S2P Require Import CStrings.
From S2P Require Import Auth.
From S2P Require Import HttpMessage.
From S2P Require Import HttpUtils.
From S2P Require Import Accounts.
From S2P Require Import AccountLogin.
From S2P Require Import Json.
From S2P Require Import Totp.
From S2P Require Import Login.
#[local] Open Scope Z_scope.

Section inversion.
Context {CR : Crypto} {EN : Environment} {SQ : Sqlite} {IC : InetConversions} {HM : Hmac}.
Context {CL : CryptoLaws} {EL : EnvironmentLaws}.
Context (cfg : config_t) (c : login_config).

#[local] Arguments Accounts.db_auth_authenticate : simpl never.
#[local] Arguments Accounts.db_auth_get_user_by_id : simpl never.
#[local] Arguments db_auth_ip_allowed_for_user : simpl never.
#[local] Arguments second_factor : simpl never.
#[local] Arguments complete_login : simpl never.

Lemma on_tables_eq {A} (m : M A) s : on_tables m s = Some ((m (base s)).1, mkAuthState (rates s) (m (base s)).2).
Proof. unfold on_tables, on_base, lift. simpl. by destruct (m (base s)). Qed.

(** The limit reads the clock and nothing of the tables. *)
Lemma rate_limited_inv u s b s' :
  rate_limited c u s = Some (b, s') → store (base s') = store (base s) ∧ (readings (base s) ≤ readings (base s'))%nat.
Proof.
  unfold rate_limited. destruct (negb _); [by intros [= <- <-]|]. unfold mbind, L_bind. rewrite on_tables_eq.
  unfold on_rates. simpl. destruct (check_rate_limit _ _ _ _). intros [= <- <-]. simpl. auto.
Qed.

Definition continues (o : login_outcome) : bool :=
  match o with TotpRequired _ | LoggedIn _ _ => true | _ => false end.

Lemma refused_inv u s o s' : continues o = true → (_ ← failed_attempt c u; mret InvalidCredentials) s ≠ Some (o, s').
Proof. intros Ho. unfold mbind, L_bind. destruct (failed_attempt c u s) as [[]|]; [|done]. simpl. intros [= <- _]. done. Qed.

(** The steps of a login that went as far as the second factor. *)
Lemma login_inv req ip is_form u p code remember s o s' :
  login cfg c req ip is_form u p code remember s = Some (o, s') →
  continues o = true →
  ∃ w0 w1 w2 w3 i x f t0,
    store w0 = store (base s) ∧ (readings (base s) ≤ readings w0)%nat ∧
    Accounts.db_auth_authenticate (Some u) (Some p) w0 = (Some (Some i), w1) ∧
    Accounts.db_auth_get_user_by_id i w1 = (Some x, w2) ∧
    db_auth_ip_allowed_for_user (Some x) (Some ip) = true ∧
    (if is_form then f = Passed false false ∧ w3 = w2 else second_factor cfg c req i ip code w2 = (f, w3)) ∧
    match f with
    | Pending tok => o = TotpRequired tok ∧ base s' = w3
    | Passed v d => complete_login cfg req i ip u v d remember (mkAuthState t0 w3) = Some (o, s')
    | _ => False
    end.
Proof.
  intros E Ho. unfold login in E. unfold mbind at 1, L_bind in E.
  destruct (rate_limited c u s) as [[b s0]|] eqn:Er; [|done]. apply rate_limited_inv in Er as [Es Hr]. cbn in E.
  destruct b. { by injection E as <- <-. }
  unfold mbind at 1, L_bind in E. rewrite on_tables_eq in E. cbn [mbind option_bind] in E.
  destruct (Accounts.db_auth_authenticate _ _ (base s0)) as [rc w1] eqn:Ea. cbn [fst snd] in E.
  destruct rc as [[i|]|]; [| |done]; cycle 1.
  { by apply refused_inv in E. }
  unfold mbind at 1, L_bind in E. rewrite on_tables_eq in E. cbn [mbind option_bind base rates] in E.
  destruct (Accounts.db_auth_get_user_by_id i w1) as [[x|] w2] eqn:Eg; cbn [fst snd] in E; cycle 1.
  { by injection E as <- <-. }
  destruct (db_auth_ip_allowed_for_user _ _) eqn:Eip; cbn [negb] in E; cycle 1.
  { by apply refused_inv in E. }
  assert (∃ f w3, (if is_form then f = Passed false false ∧ w3 = w2 else second_factor cfg c req i ip code w2 = (f, w3)) ∧
    (if is_form then mret (Passed false false) else on_tables (second_factor cfg c req i ip code)) (mkAuthState (rates s0) w2)
    = Some (f, mkAuthState (rates s0) w3)) as (f & w3 & Hf & Ef).
  { destruct is_form; [by exists (Passed false false), w2|]. rewrite on_tables_eq. simpl.
    destruct (second_factor _ _ _ _ _ _ w2) as [f w3]. by exists f, w3. }
  unfold mbind at 1, L_bind in E. rewrite Ef in E. cbn [mbind option_bind] in E.
  exists (base s0), w1, w2, w3, i, x, f, (rates s0). split_and!; try done.
  destruct f.
  - done.
  - by apply refused_inv in E.
  - by injection E as <- <-.
  - by injection E as <- <-.
Qed.

(** ** The tables during a login *)

(** An operation that only reads. *)
Lemma reads_store {A} (m : M A) Q w : runs 0 m (λ _, False) Q → store (m w).2 = store w ∧ (readings w ≤ readings (m w).2)%nat.
Proof.
  intros Hm. destruct (Hm w ltac:(lia)) as (Hs & Hr & _). split; [|done].
  inversion Hs as [|o1 o2 o3 (s & t & t' & [] & _) _]. done.
Qed.

Lemma runs_readings {A} (m : M A) P Q w : runs 0 m P Q → (readings w ≤ readings (m w).2)%nat.
Proof. intros Hm. by destruct (Hm w ltac:(lia)) as (_ & Hr & _). Qed.

(** ** The second factor of a row *)

Definition factor_secret (r : user_row) : cstr := strcpy_trunc 64 (default [] (u_totp_secret r)).

Definition needs_factor (r : user_row) : bool :=
  has_totp_secret schema && has_totp_enabled schema && negb (u_totp_enabled r =? 0) && negb (empty (factor_secret r)).

Lemma logged_factor l r : needs_factor (logged l r) = needs_factor r ∧ factor_secret (logged l r) = factor_secret r.
Proof. by destruct l, r. Qed.

Lemma totp_info_found w t r rc secret enabled w' :
  store w = Some t → accounts_ok t → r ∈ users t →
  db_auth_get_totp_info (u_id r) true true 64 w = (rc, secret, enabled, w') →
  (rc =? 0) && enabled = needs_factor r && answers (readings w) ∧ (enabled = true → secret = factor_secret r) ∧
  (needs_factor r = true → readings w' = S (readings w)).
Proof.
  intros E Hok Hr. unfold db_auth_get_totp_info, with_db, needs_factor. cbn [negb orb Nat.eqb]. rewrite E.
  rewrite <- negb_andb. destruct (has_totp_secret schema && has_totp_enabled schema); [|by intros [= <- <- <- <-]].
  destruct (query_first (select_users (user_numbered (u_id r))) w t r [] E) as [Hw Hq].
  { apply (filter_unique u_id); [apply Hok|done|]. intros y. unfold user_numbered. apply Z.eqb_eq. }
  cbn [negb andb]. unfold mbind, M_bind. destruct (query _ w) as [q w1]. simpl in Hw, Hq. cbv [mret M_ret].
  unfold factor_secret. destruct (answers (readings w)).
  - destruct Hq as [ys ->]. intros [= <- <- <- <-]. subst w1. split; [|done]. destruct (empty _), (u_totp_enabled r =? 0); reflexivity.
  - rewrite andb_false_r. subst w1. by destruct Hq as [-> | ->]; intros [= <- <- <- <-].
Qed.

Lemma query_inv {A} (rows : tables → list A) w x xs w' :
  query rows w = (Some (x :: xs), w') → ∃ t, store w = Some t ∧ x ∈ rows t ∧ w' = mkWorld (Some t) (S (readings w)).
Proof.
  destruct (store w) as [t|] eqn:E.
  - rewrite (query_eq _ _ _ E). intros Eq. exists t. split; [done|].
    assert (x :: xs `sublist_of` rows t ∧ w' = mkWorld (Some t) (S (readings w))) as [Hs ->].
    { destruct (sql_at _) as [|k|]; [done| |]; injection Eq as Ed <-; rewrite <-Ed; (split; [|done]); [apply sublist_take|done]. }
    split; [|done]. eapply elem_of_sublist; [|exact Hs]. left.
  - unfold query, tick, action. run_monad. rewrite E. by destruct (sql_at _).
Qed.

(** The device of a token that is accepted. *)
Lemma trusted_device_inv i token w w' :
  db_auth_validate_trusted_device i (Some token) w = (0, w') →
  ∃ t d n, store w = Some t ∧ d ∈ devices t ∧ d_user_id d = i ∧
    hash_token_identifier (Some token) (SHA256_DIGEST_LENGTH * 2 + 1) = Some (d_token d) ∧
    (readings w ≤ n)%nat ∧ time_at n ≤ d_expires_at d.
Proof.
  unfold db_auth_validate_trusted_device. destruct token as [|b token]; [done|]. unfold with_db at 1.
  destruct (store w) as [t|] eqn:E; [|done]. unfold db_auth_get_trusted_device_id, with_db, lookup_trusted_device.
  unfold mbind at 1, M_bind. rewrite E. destruct (hash_token_identifier _ _) as [h|]; [|by run_monad].
  unfold mbind at 1, M_bind. unfold mbind at 1, M_bind. destruct (query _ w) as [[[|d ds]|] w1] eqn:Eq; [by run_monad| |by run_monad].
  apply query_inv in Eq as (t1 & E1 & [[Hu Ht] Hd]%list_elem_of_filter & ->). rewrite E in E1. injection E1 as <-.
  unfold time, tick. run_monad. destruct (Z.gtb_spec (time_at (S (readings w))) (d_expires_at d)) as [Hx|Hx].
  - by destruct (db_auth_delete_trusted_device_by_id _ _ _).
  - intros _. exists t, d, (S (readings w)). split_and!; try done; [congruence|lia].
Qed.

Lemma runs_totp_info i P : runs 0 (db_auth_get_totp_info i true true 64) P (λ _, True).
Proof. unfold db_auth_get_totp_info. by repeat run_step. Qed.

Definition tracks_device (s : statement) : Prop :=
  match s with TouchDevice _ _ | DeleteDevices _ => True | _ => False end.

Lemma runs_trusted_device req i : runs 0 (request_has_valid_trusted_device cfg req i) tracks_device (λ _, True).
Proof.
  unfold request_has_valid_trusted_device, db_auth_validate_trusted_device, db_auth_get_trusted_device_id,
    lookup_trusted_device, db_auth_delete_trusted_device_by_id.
  run_any; done.
Qed.

(** How the second factor of the row [r] is proved from the reading [lo] on. *)
Definition factor_proved (req : http_request_t) (code : cstr) (t : tables) (lo : nat) (r : user_row) : Prop :=
  (∃ n, (lo ≤ n)%nat ∧ totp_verify (time_at n) (factor_secret r) code = true) ∨
  (∃ token d n, httpd_get_cookie_value req (lit "trusted_device") 128 = Some token ∧ d ∈ devices t ∧ d_user_id d = u_id r ∧
    hash_token_identifier (Some token) (SHA256_DIGEST_LENGTH * 2 + 1) = Some (d_token d) ∧
    (lo ≤ n)%nat ∧ time_at n ≤ d_expires_at d).

Lemma second_factor_passed req r ip code w t v d w' :
  store w = Some t → accounts_ok t → r ∈ users t →
  second_factor cfg c req (u_id r) ip code w = (Passed v d, w') →
  needs_factor r = true →
  factor_proved req code t (readings w) r ∨ answers (readings w) = false ∧ (readings w < readings w')%nat.
Proof.
  intros E Hok Hr. unfold second_factor. unfold mbind at 1, M_bind.
  destruct (db_auth_get_totp_info _ _ _ _ w) as [[[rc secret] enabled] w1] eqn:Ei.
  destruct (totp_info_found w t r rc secret enabled w1 E Hok Hr Ei) as (Hn & Hs & Hr1). intros Hf Hneeds.
  rewrite Hneeds in Hn. cbn [andb] in Hn. rewrite Hn in Hf. destruct (answers (readings w)).
  2: { right. split; [done|]. injection Hf as _ _ <-. specialize (Hr1 Hneeds). lia. }
  left. clear Hr1. cbn [negb] in Hf. apply andb_true_iff in Hn as [_ ->]. specialize (Hs eq_refl). subst secret.
  destruct (reads_store _ _ w (runs_totp_info (u_id r) _)) as [Es1 Hr1]. rewrite Ei in Es1, Hr1. cbn [snd] in Es1, Hr1.
  unfold mbind at 1, M_bind in Hf. destruct (request_has_valid_trusted_device cfg req (u_id r) w1) as [b w2] eqn:Et.
  pose proof (runs_readings _ _ _ w1 (runs_trusted_device req (u_id r))) as Hr2. rewrite Et in Hr2. cbn [snd] in Hr2.
  destruct (negb (empty code)).
  - left. revert Hf. cbv iota. unfold verified_now, time, tick. run_monad.
    destruct (totp_verify _ _ _) eqn:Ev; [|done]. intros _. exists (readings w2). split; [lia|done].
  - right. destruct b; cycle 1.
    { destruct (force_mfa_on_login c); [done|]. unfold mbind, M_bind in Hf. destruct (db_auth_create_session _ _ _ _ _ w2) as [[]]; done. }
    unfold request_has_valid_trusted_device in Et. destruct (_ <=? 0); [done|].
    destruct (httpd_get_cookie_value _ _ _) as [token|] eqn:Ec; [|done]. unfold mbind, M_bind in Et.
    destruct (db_auth_validate_trusted_device _ _ w1) as [z w3] eqn:Ev. injection Et as Ez _. apply Z.eqb_eq in Ez. subst z.
    apply trusted_device_inv in Ev as (t1 & d1 & n & E1 & Hd & Hu & Hh & Hn & Hx). rewrite Es1, E in E1. injection E1 as <-.
    exists token, d1, n. split_and!; try done. lia.
Qed.
(** ** The session of a login *)

Definition device_statement (s : statement) : Prop :=
  match s with InsertDevice _ _ _ _ _ _ => True | _ => False end.

Lemma runs_create_device i ip ua e n : runs 0 (db_auth_create_trusted_device i ip ua e n) device_statement (λ _, True).
Proof.
  unfold db_auth_create_trusted_device, generate_random_string.
  run_any; done.
Qed.

Lemma complete_login_session req i ip u v d remember s tok trusted s' :
  complete_login cfg req i ip u v d remember s = Some (LoggedIn tok trusted, s') →
  (∃ t', store (base s') = Some t' ∧ token_rows tok (λ user _, user = i) t') ∧ (readings (base s) ≤ readings (base s'))%nat.
Proof.
  unfold complete_login. unfold mbind at 1, L_bind. unfold on_rates at 1. destruct (auth_clear_login_rate_limit_for_username u (rates s)) as [b t0].
  cbn [mbind option_bind]. unfold mbind at 1, L_bind. rewrite on_tables_eq. cbn [mbind option_bind base rates].
  destruct (db_auth_create_session i (Some ip) (Some (user_agent req)) 0 33 (base s)) as [[token|] w1] eqn:Ec; [|done].
  pose proof (runs_readings _ _ _ (base s) (runs_create_session 0 CallInit i (Some ip) (Some (user_agent req)) 0 33)) as Hr1.
  rewrite Ec in Hr1. cbn [fst snd] in *. apply create_session_inv in Ec as (t1 & E1 & Ht1).
  assert (token_rows token (λ user _, user = i) t1) as Ht by (intros x Hx Hxt; by destruct (Ht1 x Hx Hxt)). clear Ht1.
  destruct (_ && _ && _ && _); [|intros [= <- <- <-]; split; [by exists t1|done]].
  unfold mbind at 1, L_bind. rewrite on_tables_eq. cbn [mbind option_bind base rates]. intros [= <- _ <-]. cbn [base].
  match goal with |- context [db_auth_create_trusted_device ?i ?ip ?ua ?e ?n w1] => pose proof (runs_create_device i ip ua e n) as Hd end.
  match type of Hd with runs _ ?m _ _ =>
    pose proof (runs_readings _ _ _ w1 Hd) as Hr2; split; [|lia];
    destruct (runs_keeps 0 m _ _ (token_rows token (λ user _, user = i)) w1 Hd) as [Hk _];
    [|lia|intros ??; by simplify_eq|destruct (store (m w1).2) as [t'|] eqn:E'; [exists t'; split; [done|exact (Hk t' E')]|]];
    [|destruct (Hd w1 ltac:(lia)) as [Hr _]; rewrite E1, E' in Hr; by apply open_stays_open in Hr]
  end.
  intros x t2 t3 Hx Hrows E3. destruct x; try done. simpl in E3. unfold token_rows in *.
  destruct (next_id _); [|done]. simpl in E3. repeat case_match; by simplify_eq/=.
Qed.

(** The row of a login that went as far as the second factor. *)
Lemma login_row req ip is_form u p code remember s o s' t :
  login cfg c req ip is_form u p code remember s = Some (o, s') → continues o = true →
  store (base s) = Some t → accounts_ok t →
  ∃ r l t1 w2 w3 f t0, r ∈ users t ∧ u_username r = u ∧ u_is_active r ≠ 0 ∧ password_matches r p ∧
    db_auth_ip_allowed_for_user (Some (populate_user_from_stmt (logged l r))) (Some ip) = true ∧
    store w2 = Some t1 ∧ accounts_ok t1 ∧ devices t1 = devices t ∧ logged l r ∈ users t1 ∧
    (readings (base s) ≤ readings w2)%nat ∧
    (if is_form then f = Passed false false ∧ w3 = w2 else second_factor cfg c req (u_id (logged l r)) ip code w2 = (f, w3)) ∧
    match f with
    | Pending tok => o = TotpRequired tok ∧ base s' = w3
    | Passed v d => complete_login cfg req (u_id r) ip u v d remember (mkAuthState t0 w3) = Some (o, s')
    | _ => False
    end.
Proof.
  intros E Ho Es Hok. destruct (login_inv _ _ _ _ _ _ _ _ _ _ E Ho) as (w0 & w1 & w2 & w3 & i & x & f & t0 & E0 & Hr0 & Ea & Eg & Hip & Hf & Hc).
  rewrite Es in E0. pose proof (since_refl t w0 E0 Hok) as H0.
  pose proof (since_runs _ _ _ _ (runs_authenticate (Some u) (Some p)) H0) as (t1 & E1 & He1 & Hd1 & Hok1 & _). rewrite Ea in E1. cbn [snd] in E1.
  pose proof (runs_readings _ _ _ w0 (runs_authenticate (Some u) (Some p))) as Hr1. rewrite Ea in Hr1. cbn [snd] in Hr1.
  apply authenticate_inv in Ea as (t0' & r & E0' & Hr & <- & <- & Hact & Hpw). rewrite E0 in E0'. injection E0' as <-.
  destruct (reads_store _ _ w1 (runs_get_user 0 (user_numbered (u_id r)) _)) as [E2 Hr2].
  unfold Accounts.db_auth_get_user_by_id in Eg. rewrite Eg in E2, Hr2. cbn [snd] in E2, Hr2.
  apply get_user_inv in Eg as (t1' & r1 & E1' & Hr1in & Hi1 & ->). rewrite E1 in E1'. injection E1' as <-.
  destruct He1 as [Hu1 _]. destruct (Hu1 _ Hr1in) as (r' & l & Hr' & ->). unfold user_numbered in Hi1. unbool.
  pose proof (logged_fields l r') as (Fi & _). assert (r' = r) as -> by (apply (same_user t); congruence).
  exists r, l, t1, w2, w3, f, t0. rewrite Fi. split_and!; try done; [congruence|lia].
Qed.

(** C4: a login that makes a session was for an active row of the tables, with its name and password,
    from an address of its allow-list, and the session is of that row; unless the login was a form,
    a row with a second factor has proved it by a code or by a device that it trusts (or the statement
    that reads the factor failed). *)
Theorem login_requires_credentials req ip is_form u p code remember s t tok trusted s' :
  login cfg c req ip is_form u p code remember s = Some (LoggedIn tok trusted, s') →
  store (base s) = Some t → accounts_ok t →
  ∃ r l t', r ∈ users t ∧ u_username r = u ∧ u_is_active r ≠ 0 ∧ password_matches r p ∧
    db_auth_ip_allowed_for_user (Some (populate_user_from_stmt (logged l r))) (Some ip) = true ∧
    (is_form = false → needs_factor r = true →
     factor_proved req code t (readings (base s)) r ∨
     ∃ n, (readings (base s) ≤ n < readings (base s'))%nat ∧ answers n = false) ∧
    store (base s') = Some t' ∧ token_rows tok (λ user _, user = u_id r) t'.
Proof.
  intros E Es Hok.
  destruct (login_row _ _ _ _ _ _ _ _ _ _ _ E eq_refl Es Hok)
    as (r & l & t1 & w2 & w3 & f & t0 & Hr & Hu & Hact & Hpw & Hip & E2 & Hok1 & Hd1 & Hr1in & Hr2 & Hf & Hc).
  destruct f as [v d| |tok0|]; [|done|by destruct Hc|done]. destruct (complete_login_session _ _ _ _ _ _ _ _ _ _ _ Hc) as [(t' & Et' & Htok) Hr4]. cbn [base] in Hr4.
  exists r, l, t'. split_and!; try done. intros -> Hneeds.
  pose proof (logged_fields l r) as (Fi & _). pose proof (logged_factor l r) as [Fn Fs].
  destruct (second_factor_passed req (logged l r) ip code w2 t1 v d w3 E2 Hok1 Hr1in Hf) as
    [[(n & Hn & Hv)|(token & d0 & n & ? & Hd & ? & ? & ? & ?)]|[Ha Hr3]]; [congruence|left; left|left; right|right].
  - exists n. split; [lia|]. by rewrite <- Fs.
  - exists token, d0, n. rewrite Hd1 in Hd. split_and!; try done; [congruence|lia].
  - exists (readings w2). split; [lia|done].
Qed.
(** ** The token of a pending second factor *)

(** The columns of the migrated schema. *)
Definition tracked : Prop :=
  has_ip_column schema = true ∧ has_ua_column schema = true ∧ has_last_activity_column schema = true ∧
  has_idle_expires_column schema = true.

Definition live_session (tok : cstr) (i d : Z) (t : tables) : Prop :=
  accounts_ok t ∧
  (∃ s, s ∈ sessions t ∧ s_token s = tok ∧ s_user_id s = i ∧ s_expires_at s = d ∧
        ∃ x, s_idle_expires_at s = Some x ∧ d ≤ x) ∧
  ∃ u, u ∈ users t ∧ u_id u = i ∧ u_is_active u ≠ 0.

Lemma session_of_tracked j i tok now idle expires ip ua :
  tracked →
  session_of j (session_columns schema) (session_values schema i tok now idle expires ip ua) =
  Some (mkSessionRow j i tok now (Some now) (Some idle) expires (Some (default [] ip)) (Some (default [] ua))).
Proof. intros (Hip & Hua & Hla & Hid). unfold session_columns, session_values. by rewrite Hip, Hua, Hla, Hid. Qed.

Lemma create_session_live i ip ua e n w tok w' t u :
  tracked → 0 < e → db_auth_create_session i ip ua e n w = (Some tok, w') → store w = Some t → accounts_ok t →
  u ∈ users t → u_id u = i → u_is_active u ≠ 0 →
  ∃ t', store w' = Some t' ∧ users t' = users t ∧ live_session tok i (time_at (2 + readings w) + e) t' ∧
    (2 + readings w < readings w')%nat.
Proof.
  intros Hschema He Ec E Hok Hu Hi Hact.
  assert (∀ t', store w' = Some t' → accounts_ok t') as Hok'.
  { pose proof (run_accounts_ok [CallCreateSession i ip ua e n] w) as Hk. intros t' E'. apply Hk; [intros ??; by simplify_eq|].
    simpl. unfold mbind, M_bind. by rewrite Ec. }
  revert Ec. unfold db_auth_create_session, with_db. destruct (n <? 33)%nat; [done|]. rewrite E.
  unfold mbind at 1, M_bind. rewrite (query_eq _ _ _ E).
  destruct (match sql_at _ with PrepareFails => _ | _ => _ end) as [[|x xs]|]; [done| |done].
  unfold generate_random_string, time, tick. run_monad. destruct (random_at _ 32) as [b|]; [|done]. cbn [fmap option_fmap option_map]. run_monad.
  rewrite (proj2 (Z.gtb_lt e 0)) by lia.
  destruct (execute _ _) as [[d|] w1] eqn:Ex; [|done]. intros [= <- <-].
  apply execute_inv in Ex as (t1 & t' & E1 & Ha & E' & _ & Hr). exists t'. cbn [store readings] in E1, Hr.
  injection E1 as <-. cbn [apply_statement] in Ha. destruct (next_id _) as [j|]; [|done]. cbn [mbind option_bind] in Ha.
  rewrite session_of_tracked in Ha by done. cbn [mbind option_bind s_user_id] in Ha.
  destruct (existsb _ (sessions t)); [done|]. destruct (user_exists i t); [|done]. injection Ha as <-.
  split_and!; [done|done| |cbn in Hr |- *; lia]. split; [by apply Hok'|]. split.
  - eexists. split; [apply elem_of_app; right; by apply list_elem_of_singleton|]. cbn. split_and!; try done. eexists. split; [reflexivity|]. cbn. lia.
  - by exists u.
Qed.

(** Nothing of the session's lifetime is lost when it is used. *)
Lemma validate_live tok i d t w ip ua :
  tracked → live_session tok i d t → store w = Some t →
  (∀ k, (readings w ≤ k)%nat → sql_at k = Completes ∧ d - 300 ≤ time_at k ≤ d) →
  ∃ w' t', Accounts.db_auth_validate_session_with_context (Some tok) ip ua w = (Some i, w') ∧ store w' = Some t' ∧
    live_session tok i d t' ∧ users t' = users t ∧ (readings w ≤ readings w')%nat.
Proof.
  intros (_ & _ & Hla & Hid) (Hok & (s & Hs & <- & <- & Hd & y & Hy & Hdy) & u & Hu & Eu & Hact) E Hclock.
  unfold Accounts.db_auth_validate_session_with_context, with_db. rewrite E. unfold mbind at 1, M_bind.
  rewrite (query_eq _ _ _ E), (session_join_one t s u Hok Hs Hu Eu). destruct (Hclock (readings w)) as [-> _]; [lia|]. cbn [delivered].
  destruct (Hclock (S (readings w))) as [_ Ht]; [lia|].
  unfold mbind at 1, M_bind.
  change (time _) with (time_at (S (readings w)), mkWorld (Some t) (S (S (readings w)))). cbv iota beta.
  set (now := time_at (S (readings w))) in *. rewrite Hid, Hy. change (default 0 (Some y)) with y. unfold has_tracking_columns. rewrite Hid, Hla. cbn [andb].
  rewrite Hd, !Z.gtb_ltb, (proj2 (Z.ltb_ge d now)), (proj2 (Z.ltb_ge y now)) by lia. cbn [orb].
  rewrite (proj2 (Z.eqb_neq _ _) Hact). unfold mbind at 1, M_bind.
  assert (runs 0 (client_context (s_id s) ip ua) (λ _, False) (λ _, True)) as Hcc.
  { unfold client_context. repeat run_step; done. }
  destruct (reads_store _ _ (mkWorld (Some t) (S (S (readings w)))) Hcc) as [Es Hr]. destruct (client_context _ _ _ _) as [[upd_ip upd_ua] w2]. cbn [fst snd] in Es, Hr.
  cbn [store readings] in Es, Hr.
  set (refresh := should_refresh_session_tracking _ _ _). destruct (refresh || upd_ip || upd_ua).
  2: { exists w2, t. split_and!; [done|done|split; [done|]|done|lia]. split; [exists s; split_and!; try done; by exists y|by exists u]. }
  unfold mbind, M_bind, mret, M_ret. match goal with |- context [execute ?st w2] => destruct (execute_cases st w2 t Es) as [(t' & Ha & ->)| ->] end.
  2: { eexists _, t. split_and!; [reflexivity|done|split; [done|]|done|cbn; lia]. split; [exists s; split_and!; try done; by exists y|by exists u]. }
  eexists _, t'. split; [reflexivity|]. cbn [store readings fst snd]. split; [done|].
  assert (accounts_ok t') as Hok' by (eapply (statement_ok 0 CallInit); [|exact Hok|exact Ha]; exact I).
  cbn [apply_statement] in Ha. injection Ha as <-. split_and!; [|done|lia]. split; [done|]. split; [|by exists u].
  cbn [sessions set_sessions]. eexists. split; [apply list_elem_of_fmap_2, Hs|]. rewrite Z.eqb_refl.
  pose proof (default_session_idle_expiry_seconds_range auth_timeout_hours) as Hidle.
  assert (300 ≤ default_session_idle_expiry_seconds auth_timeout_hours) as Hlong.
  { unfold default_session_idle_expiry_seconds, DEFAULT_SESSION_EXPIRY, INT32_MAX. repeat case_match; unbool; lia. }
  assert ((if d <? now + default_session_idle_expiry_seconds auth_timeout_hours then d
           else now + default_session_idle_expiry_seconds auth_timeout_hours) = d) as Hnew
    by (destruct (Z.ltb_spec d (now + default_session_idle_expiry_seconds auth_timeout_hours)); lia).
  rewrite Hnew.
  destruct s, refresh, upd_ip, upd_ua; cbn in *; subst; (split_and!; [done..|]); eexists; (split; [reflexivity|]); lia.
Qed.
Lemma second_factor_pending req r ip code w t tok w' :
  store w = Some t → accounts_ok t → r ∈ users t →
  second_factor cfg c req (u_id r) ip code w = (Pending tok, w') →
  needs_factor r = true ∧
  ∃ w1 t1, store w1 = Some t1 ∧ users t1 = users t ∧ accounts_ok t1 ∧ (readings w ≤ readings w1)%nat ∧
    db_auth_create_session (u_id r) (Some ip) (Some (user_agent req)) 300 33 w1 = (Some tok, w').
Proof.
  intros E Hok Hr. unfold second_factor. unfold mbind at 1, M_bind.
  destruct (db_auth_get_totp_info _ _ _ _ w) as [[[rc secret] enabled] w1] eqn:Ei.
  destruct (totp_info_found w t r rc secret enabled w1 E Hok Hr Ei) as (Hn & _ & _).
  destruct (reads_store _ _ w (runs_totp_info (u_id r) _)) as [Es1 Hr1]. rewrite Ei in Es1, Hr1. cbn [snd] in Es1, Hr1.
  destruct ((rc =? 0) && enabled); [cbn [negb]|done]. symmetry in Hn. apply andb_true_iff in Hn as [Hn _].
  unfold mbind at 1, M_bind. pose proof (runs_readings _ _ _ w1 (runs_trusted_device req (u_id r))) as Hr2.
  destruct (runs_keeps 0 _ _ _ (λ t', users t' = users t ∧ accounts_ok t') w1 (runs_trusted_device req (u_id r))) as [Hk _].
  { intros s t2 t3 Hs [Hu Hok2] Ha. split; [rewrite <- Hu; destruct s; try done; simpl in Ha; by simplify_eq|].
    eapply (statement_ok 0 CallInit); [|exact Hok2|exact Ha]. by destruct s. }
  { lia. }
  { intros t2 E2. rewrite Es1, E in E2. by injection E2 as <-. }
  destruct (runs_trusted_device req (u_id r) w1 ltac:(lia)) as [Hrtc _].
  destruct (request_has_valid_trusted_device cfg req (u_id r) w1) as [b w2]. cbn [snd] in Hr2, Hk, Hrtc.
  destruct (negb (empty code)); [by unfold verified_now, time, tick; run_monad; destruct (totp_verify _ _ _)|].
  destruct b; [done|]. destruct (force_mfa_on_login c); [done|]. unfold mbind at 1, M_bind.
  destruct (db_auth_create_session _ _ _ _ _ w2) as [[tok'|] w3] eqn:Ec; [|done]. intros [= <- <-]. split; [done|].
  destruct (store w2) as [t2|] eqn:E2; [|rewrite Es1, E in Hrtc; by apply open_stays_open in Hrtc].
  destruct (Hk t2 E2) as [Hu2 Hok2]. exists w2, t2. split_and!; try done. lia.
Qed.

Lemma get_user_found i w t u :
  store w = Some t → accounts_ok t → u ∈ users t → u_id u = i → sql_at (readings w) = Completes →
  Accounts.db_auth_get_user_by_id i w = (Some (populate_user_from_stmt u), mkWorld (Some t) (S (readings w))).
Proof.
  intros E Hok Hu Hi Hc. unfold Accounts.db_auth_get_user_by_id, get_user, with_db, prepare_user_lookup_stmt. rewrite E.
  unfold mbind, M_bind. rewrite (query_eq _ _ _ E), Hc. cbn [delivered].
  assert (select_users (user_numbered i) t = [u]) as ->; [|done].
  apply (filter_unique u_id); [apply Hok|done|]. intros y. unfold user_numbered. rewrite Hi. apply Z.eqb_eq.
Qed.

(** C5: the token handed out for the second step is a session like any other: after a login that asks
    for a code, and with no code ever given, the cookie of a request from the same address that carries
    the token authenticates it as that very user, for the 300 seconds that the token lives. *)
Theorem pending_token_is_a_session req ip u p code remember s t tok s' :
  login cfg c req ip false u p code remember s = Some (TotpRequired tok, s') →
  store (base s) = Some t → accounts_ok t → tracked →
  ∃ r l m, r ∈ users t ∧ u_username r = u ∧ needs_factor r = true ∧
    (readings (base s) ≤ m < readings (base s'))%nat ∧
    ∀ req' n, web_auth_enabled cfg = true → request_ip cfg req' = Some ip → httpd_get_session_token req' 64 = Some tok →
      (∀ k, (n ≤ k)%nat → sql_at k = Completes ∧ time_at m ≤ time_at k ≤ time_at m + 300) →
      ∃ w', httpd_get_authenticated_user cfg req' (mkWorld (store (base s')) n) = Some (Some (populate_user_from_stmt (logged l r)), w').
Proof.
  intros E Es Hok Htr.
  destruct (login_row _ _ _ _ _ _ _ _ _ _ _ E eq_refl Es Hok)
    as (r & l & t1 & w2 & w3 & f & t0 & Hr & Hu & Hact & Hpw & Hip & E2 & Hok1 & Hd1 & Hr1in & Hr2 & Hf & Hc).
  pose proof (logged_fields l r) as (Fi & _ & Fa & _). pose proof (logged_factor l r) as [Fn _].
  assert (f = Pending tok ∧ base s' = w3) as [-> <-].
  { destruct f; [exfalso|done|by destruct Hc as [[= <-] ?]|done]. revert Hc. unfold complete_login.
    unfold mbind at 1, L_bind. unfold on_rates at 1. destruct (auth_clear_login_rate_limit_for_username u _) as [b1 t2].
    cbn [mbind option_bind]. unfold mbind at 1, L_bind. rewrite on_tables_eq. cbn [mbind option_bind].
    destruct (db_auth_create_session _ _ _ _ _ _) as [[token|] w4]; cbn [fst]; [|done]. destruct (_ && _ && _ && _); [|done].
    unfold mbind at 1, L_bind. by rewrite on_tables_eq. }
  destruct (second_factor_pending _ _ _ _ _ _ _ _ E2 Hok1 Hr1in Hf) as (Hneeds & w4 & t4 & E4 & Hu4 & Hok4 & Hr4 & Ec).
  destruct (create_session_live _ _ _ 300 _ _ _ _ t4 (logged l r) Htr ltac:(lia) Ec E4 Hok4) as (t5 & E5 & Hu5 & Hlive & Hr5);
    [by rewrite Hu4|done|by rewrite Fa|].
  exists r, l, (2 + readings w4)%nat. split_and!; [done|done|congruence|lia|lia|].
  intros req' n Hauth Hip' Htok Hclock. unfold httpd_get_authenticated_user. rewrite Hip'. cbn [mbind option_bind]. rewrite Hauth. cbn [negb].
  unfold session_login. rewrite Htok. cbn [HttpUtils.db_auth_validate_session accounts_store]. unfold Accounts.db_auth_validate_session.
  rewrite E5. set (m := (2 + readings w4)%nat) in *.
  destruct (validate_live tok (u_id (logged l r)) _ t5 (mkWorld (Some t5) n) None None Htr Hlive eq_refl) as (w6 & t6 & -> & E6 & Hlive6 & Hu6 & Hr6).
  { intros k Hk. destruct (Hclock k Hk). split; [done|lia]. }
  cbn [HttpUtils.db_auth_get_user_by_id accounts_store]. cbn [readings] in Hr6.
  rewrite (get_user_found _ w6 t6 (logged l r) E6 (proj1 Hlive6)); [|by rewrite Hu6, Hu5, Hu4|done|by apply Hclock].
  rewrite Hip. cbn [HttpUtils.db_auth_validate_session_with_context accounts_store].
  destruct (validate_live tok (u_id (logged l r)) _ t6 (mkWorld (Some t6) (S (readings w6))) (Some ip) (Some (user_agent req')) Htr Hlive6 eq_refl)
    as (w7 & t7 & -> & _).
  { cbn [readings]. intros k Hk. destruct (Hclock k ltac:(lia)). split; [done|lia]. }
  by eexists.
Qed.
End inversion.

(** ** Failed attempts *)

Section rates.
Context (c : login_config).

(** A count beyond the limit is never reached: a refused attempt is not recorded. *)
Definition count_limit : Z := Z.max 1 (login_rate_limit_max_attempts c).

Record rates_ok (t : rate_table) : Prop := {
  rates_room : (length t ≤ MAX_RATE_LIMIT_ENTRIES)%nat;
  rates_names : NoDup (entry_username <$> t);
  rates_sizes : Forall (λ e, (length (entry_username e) < 64)%nat) t;
  rates_counts : Forall (λ e, 0 ≤ attempt_count e ≤ count_limit) t
}.

(** A failed attempt for [u] may be counted. *)
Definition may_fail (u : cstr) (t : rate_table) : Prop :=
  ∀ e, e ∈ t → entry_username e = u → attempt_count e < count_limit.

Lemma find_entry_Some t u i : find_entry t u = Some i → ∃ e, t !! i = Some e ∧ entry_username e = u.
Proof. intros (e & He & Hu)%find_idx_lookup. apply streq_true in Hu. eauto. Qed.

Lemma find_entry_None t u : find_entry t u = None → ∀ e, e ∈ t → entry_username e ≠ u.
Proof.
  unfold find_entry. rewrite find_idx_None. intros Hn e [i Hi]%list_elem_of_lookup Hu. specialize (Hn i e Hi). subst u.
  by rewrite (proj2 (streq_true _ _)) in Hn.
Qed.

Lemma NoDup_replace {A} (l : list A) (i : nat) x : NoDup l → x ∉ l → NoDup (<[i := x]> l).
Proof.
  intros Hl Hx. apply NoDup_alt. intros j k y Hj Hk.
  assert (∀ n, <[i := x]> l !! n = Some y → n = i ∧ y = x ∨ n ≠ i ∧ l !! n = Some y) as Hat.
  { intros n [(-> & <- & _)|[Hne Hn]]%list_lookup_insert_Some; [by left|right; by split]. }
  destruct (Hat j Hj) as [[-> ->]|[Hij Ej]], (Hat k Hk) as [[-> Ey]|[Hik Ek]]; [done| | |by eapply NoDup_lookup].
  - destruct Hx. by eapply list_elem_of_lookup_2.
  - subst y. destruct Hx. by eapply list_elem_of_lookup_2.
Qed.

Lemma set_entry_ok t i e e' :
  rates_ok t → t !! i = Some e →
  entry_username e' = entry_username e ∨ (∀ x, x ∈ t → entry_username x ≠ entry_username e') →
  (length (entry_username e') < 64)%nat → 0 ≤ attempt_count e' ≤ count_limit → rates_ok (<[i := e']> t).
Proof.
  intros [Hr Hn Hs Hc] Hi Hname Hsize Hcount. split; [by rewrite length_insert| |by apply Forall_insert|by apply Forall_insert].
  rewrite list_fmap_insert. destruct Hname as [->|Hfresh].
  - rewrite list_insert_id; [done|]. by rewrite list_lookup_fmap, Hi.
  - apply NoDup_replace; [done|]. intros (x & Hx & Hxt)%list_elem_of_fmap. by apply (Hfresh x).
Qed.

Lemma check_ok now u t b t' :
  check_rate_limit c now u t = (b, t') → rates_ok t →
  rates_ok t' ∧ (b = false → login_rate_limit_enabled c = true → may_fail u t').
Proof.
  unfold check_rate_limit. destruct (login_rate_limit_enabled c); cbn [negb]; [|by intros [= <- <-]].
  destruct (find_entry t u) as [i|] eqn:Ef; cycle 1.
  { intros [= <- <-] Hok. split; [done|]. intros _ _ e He Hu. by destruct (find_entry_None _ _ Ef e He). }
  apply find_entry_Some in Ef as (e & Hi & Hu). rewrite Hi. intros Hc Hok.
  pose proof (rates_names _ Hok) as Hn. pose proof (rates_sizes _ Hok) as Hs. rewrite Forall_lookup in Hs. specialize (Hs i e Hi). cbn in Hs.
  assert (∀ j e', t !! j = Some e' → entry_username e' = u → j = i) as Huniq.
  { intros j e' Hj Hu'. apply (NoDup_lookup _ j i u Hn); rewrite list_lookup_fmap; [by rewrite Hj, <- Hu'|by rewrite Hi, <- Hu]. }
  destruct (Z.gtb_spec (now - window_start e) (login_rate_limit_window_seconds c)) as [Hw|Hw].
  - injection Hc as <- <-. split.
    + eapply set_entry_ok; [done|exact Hi|by left|done|cbn; unfold count_limit; lia].
    + intros _ _ e' [j Hj]%list_elem_of_lookup Hu'.
      apply list_lookup_insert_Some in Hj as [(-> & <- & _)|[Hne Hj]]; [cbn; unfold count_limit; lia|]. by destruct Hne; rewrite (Huniq j e').
  - injection Hc as <- <-. split; [done|]. intros Hlim _ e' [j Hj]%list_elem_of_lookup Hu'. pose proof (Huniq j e' Hj Hu') as ->.
    rewrite Hi in Hj. injection Hj as <-. unfold count_limit. lia.
Qed.

Lemma oldest_entry_lt t i o : (fst o < i)%nat → (fst (oldest_entry t i o) < i + length t)%nat.
Proof.
  revert i o. induction t as [|e t IH]; intros i o Ho; simpl; [lia|].
  specialize (IH (S i) (if window_start e <? snd o then (i, window_start e) else o)). rewrite Nat.add_succ_r. apply IH. case_match; simpl; lia.
Qed.

Lemma record_ok now u t :
  rates_ok t → (length u < 64)%nat → (login_rate_limit_enabled c = true → may_fail u t) →
  rates_ok (record_failed_attempt c now u t).
Proof.
  intros Hok Hu Hmay. unfold record_failed_attempt. destruct (login_rate_limit_enabled c); cbn [negb]; [|done]. specialize (Hmay eq_refl).
  destruct (find_entry t u) as [i|] eqn:Ef.
  - apply find_entry_Some in Ef as (e & Hi & He). rewrite (alter_insert _ _ _ _ Hi).
    pose proof (Hmay e (list_elem_of_lookup_2 _ _ _ Hi) He) as Hroom.
    pose proof (rates_counts _ Hok) as Hcs. rewrite Forall_lookup in Hcs. specialize (Hcs i e Hi). cbn in Hcs.
    eapply set_entry_ok; [done|exact Hi|left; by case_match|case_match; cbn; congruence|case_match; cbn; unfold count_limit in *; lia].
  - pose proof (find_entry_None _ _ Ef) as Hfresh. assert (entry_username (new_entry u now) = u) as Hname by (by apply strcpy_trunc_id).
    destruct (Nat.ltb_spec (length t) MAX_RATE_LIMIT_ENTRIES) as [Hlen|Hlen].
    + destruct Hok as [Hr Hn Hs Hcs]. split; [rewrite length_app; cbn; lia| | |].
      * rewrite fmap_app. apply NoDup_app. split_and!; [done| |apply NoDup_singleton].
        intros x (e & -> & He)%list_elem_of_fmap Hx%list_elem_of_singleton. apply (Hfresh e He). by rewrite Hx.
      * apply Forall_app. split; [done|]. constructor; [by rewrite Hname|constructor].
      * apply Forall_app. split; [done|]. repeat constructor; cbn; unfold count_limit; lia.
    + destruct t as [|e rest]; [done|].
      pose proof (oldest_entry_lt rest 1 (0%nat, window_start e) ltac:(cbn; lia)) as Hold.
      destruct (lookup_lt_is_Some_2 (e :: rest) (fst (oldest_entry rest 1 (0%nat, window_start e)))) as [e' He']; [simpl; lia|].
      eapply set_entry_ok; [done|exact He'| |by rewrite Hname|cbn; unfold count_limit; lia].
      right. intros x Hx. rewrite Hname. by apply Hfresh.
Qed.

Lemma clear_ok u t : rates_ok t → rates_ok (auth_clear_login_rate_limit_for_username u t).2.
Proof.
  intros Hok. unfold auth_clear_login_rate_limit_for_username. destruct (empty u); [done|]. destruct (find_entry t u) as [i|] eqn:Ef; [|done].
  apply find_entry_Some in Ef as (e & Hi & He). cbn [snd]. rewrite (alter_insert _ _ _ _ Hi).
  pose proof (rates_sizes _ Hok) as Hs. rewrite Forall_lookup in Hs.
  eapply set_entry_ok; [done|exact Hi|by left|exact (Hs i e Hi)|cbn; unfold count_limit; lia].
Qed.

(** The entry of a name: its count, and when its window began. *)
Definition counted (u : cstr) (t : rate_table) (k began : Z) : Prop :=
  ∃ i e, find_entry t u = Some i ∧ t !! i = Some e ∧ attempt_count e = k ∧ window_start e = began.

Lemma record_same u t k began now :
  login_rate_limit_enabled c = true → counted u t k began → now - began ≤ login_rate_limit_window_seconds c →
  counted u (record_failed_attempt c now u t) (k + 1) began ∧ length (record_failed_attempt c now u t) = length t.
Proof.
  intros El (i & e & Hf & Hi & <- & <-) Hw. unfold record_failed_attempt. rewrite El, Hf. cbn [negb]. split; [|by rewrite length_alter].
  exists i, (mkEntry (entry_username e) (attempt_count e + 1) (window_start e)). split_and!; [unfold find_entry; rewrite find_idx_alter; [done|by intros x; case_match]| |done..].
  rewrite list_lookup_alter_eq, Hi. cbn. by rewrite Z.gtb_ltb, (proj2 (Z.ltb_ge _ _)) by lia.
Qed.

Lemma record_other u v t k began now :
  counted u t k began → v ≠ u → (length t < MAX_RATE_LIMIT_ENTRIES)%nat →
  counted u (record_failed_attempt c now v t) k began ∧ (length (record_failed_attempt c now v t) ≤ S (length t))%nat.
Proof.
  intros (i & e & Hf & Hi & Hk & Hb) Hv Hroom. unfold record_failed_attempt.
  destruct (login_rate_limit_enabled c); cbn [negb]; [|split; [by exists i, e|lia]]. destruct (find_entry t v) as [j|] eqn:Ev.
  - split; [|rewrite length_alter; lia]. apply find_entry_Some in Ev as (e' & Hj & Hv'). exists i, e. split_and!; [|..].
    + unfold find_entry. rewrite find_idx_alter; [done|by intros x; case_match].
    + rewrite list_lookup_alter_ne; [done|]. intros ->. apply find_entry_Some in Hf as (e2 & Hi2 & Hu). congruence.
    + done.
    + done.
  - rewrite (proj2 (Nat.ltb_lt _ _)) by done. split; [|rewrite length_app; cbn; lia]. exists i, e. split_and!; [by apply find_idx_app| |done|done].
    by apply lookup_app_l_Some.
Qed.

Lemma record_first u t now :
  login_rate_limit_enabled c = true → find_entry t u = None → (length t < MAX_RATE_LIMIT_ENTRIES)%nat → (length u < 64)%nat →
  counted u (record_failed_attempt c now u t) 1 now ∧ length (record_failed_attempt c now u t) = S (length t).
Proof.
  intros El Hf Hroom Hu. unfold record_failed_attempt. rewrite El, Hf. cbn [negb]. rewrite (proj2 (Nat.ltb_lt _ _)) by done.
  split; [|rewrite length_app; cbn; lia]. exists (length t), (new_entry u now). split_and!; [|by apply list_lookup_middle|done|done].
  apply find_idx_Some. exists (new_entry u now). split_and!; [by apply list_lookup_middle|apply streq_true; by apply strcpy_trunc_id|].
  intros j y Hj Hy. rewrite lookup_app_l in Hy by done. unfold find_entry in Hf. rewrite find_idx_None in Hf. by eapply Hf.
Qed.

(** The failed attempts of several names, in order. *)
Definition fail_all (hs : list (Z * cstr)) (t : rate_table) : rate_table :=
  foldl (λ t h, record_failed_attempt c h.1 h.2 t) t hs.

Definition attempts (u : cstr) (hs : list (Z * cstr)) : Z := Z.of_nat (length (List.filter (λ h, streq h.2 u) hs)).

Lemma failures_counted u hs t k began :
  login_rate_limit_enabled c = true → counted u t k began → (length t + length hs ≤ MAX_RATE_LIMIT_ENTRIES)%nat →
  Forall (λ h, h.2 = u → h.1 - began ≤ login_rate_limit_window_seconds c) hs →
  counted u (fail_all hs t) (k + attempts u hs) began.
Proof.
  intros El. revert t k. induction hs as [|[now v] hs IH]; intros t k Ht Hroom Hwin.
  - by replace (k + attempts u []) with k by (unfold attempts; simpl; lia).
  - apply Forall_cons in Hwin as [Hw Hwin]. cbn [fail_all foldl fst snd length] in *. unfold attempts. cbn [List.filter fst snd].
    destruct (streq v u) eqn:Ev.
    + apply streq_true in Ev. subst v. destruct (record_same u t k began now El Ht (Hw eq_refl)) as [Hc Hl].
      cbn [length]. replace (k + Z.of_nat (S (length (List.filter (λ h, streq h.2 u) hs)))) with (k + 1 + attempts u hs) by (unfold attempts; lia).
      apply IH; [done|lia|done].
    + assert (v ≠ u) as Hne by (intros ->; by rewrite (proj2 (streq_true _ _)) in Ev).
      destruct (record_other u v t k began now Ht Hne ltac:(lia)) as [Hc Hl]. apply IH; [done|lia|done].
Qed.
End rates.

Section login_rates.
Context {CR : Crypto} {EN : Environment} {SQ : Sqlite} {IC : InetConversions} {HM : Hmac} {CJ : CJson}.
Context (cfg : config_t) (c : login_config) (alloc : bool * bool).

#[local] Arguments Accounts.db_auth_authenticate : simpl never.
#[local] Arguments Accounts.db_auth_get_user_by_id : simpl never.
#[local] Arguments db_auth_ip_allowed_for_user : simpl never.
#[local] Arguments second_factor : simpl never.
#[local] Arguments complete_login : simpl never.

Lemma form_name b n m u p : parse_form_credentials b n m = Some (u, p) → (length u < n)%nat.
Proof.
  unfold parse_form_credentials. destruct b as [b|]; [|done]. cbn [mbind option_bind]. destruct (_ =? 0)%nat; [done|].
  destruct (form_value _ _) as [[v rest]|]; [|done]. cbn [mbind option_bind]. destruct (form_value _ _) as [[v' rest']|]; [|done].
  cbn [mbind option_bind]. destruct (url_decode v n) as [u'|] eqn:Eu; [|done]. cbn [mbind option_bind].
  destruct (url_decode v' m) as [p'|]; [|done]. intros [= <- <-]. by eapply url_decode_length.
Qed.

Lemma login_request_name a req is_form u p code remember :
  login_request a req = Credentials is_form u p code remember → (length u < 64)%nat.
Proof.
  unfold login_request, json_credentials. intros E.
  repeat case_match; simplify_eq; try by eapply form_name.
  all: match goal with |- (length (strcpy_trunc ?n ?l) < _)%nat => pose proof (strcpy_trunc_length n l); lia end.
Qed.

Lemma rate_limited_rates u s b s' :
  rate_limited c u s = Some (b, s') → rates_ok c (rates s) →
  rates_ok c (rates s') ∧ (b = false → login_rate_limit_enabled c = true → may_fail c u (rates s')).
Proof.
  unfold rate_limited. destruct (login_rate_limit_enabled c) eqn:El; cbn [negb]; [|by intros [= <- <-]].
  unfold mbind, L_bind. rewrite on_tables_eq. cbn [mbind option_bind]. unfold on_rates. cbn [rates].
  destruct (check_rate_limit c _ u (rates s)) as [b' t'] eqn:Ec. intros [= <- <-] Hok. cbn [rates].
  destruct (check_ok c _ _ _ _ _ Ec Hok) as [Hok' Hmay]. split; [done|]. intros Hb _. by apply Hmay.
Qed.

Lemma refused_rates u s o s' :
  (_ ← failed_attempt c u; mret InvalidCredentials) s = Some (o, s') → (length u < 64)%nat →
  rates_ok c (rates s) → (login_rate_limit_enabled c = true → may_fail c u (rates s)) → rates_ok c (rates s').
Proof.
  unfold failed_attempt. intros E Hu Hok Hmay. destruct (login_rate_limit_enabled c) eqn:El; cbn [negb] in E.
  - unfold mbind, L_bind in E. rewrite on_tables_eq in E. cbn in E. injection E as <- <-. cbn [rates]. apply record_ok; auto.
  - unfold mbind, L_bind in E. cbn in E. by injection E as <- <-.
Qed.

Lemma complete_login_rates req i ip u v d remember s o s' :
  complete_login cfg req i ip u v d remember s = Some (o, s') → rates_ok c (rates s) → rates_ok c (rates s').
Proof.
  unfold complete_login. unfold mbind at 1, L_bind. unfold on_rates at 1. intros E Hok. pose proof (clear_ok c u _ Hok) as Hok'.
  destruct (auth_clear_login_rate_limit_for_username u (rates s)) as [b t0]. revert E.
  cbn [mbind option_bind]. unfold mbind at 1, L_bind. rewrite on_tables_eq. cbn [mbind option_bind base rates].
  destruct (db_auth_create_session _ _ _ _ _ _) as [[token|] w1]; cbn [fst snd]; [|by intros [= <- <-]].
  destruct (_ && _ && _ && _); [|by intros [= <- <-]]. unfold mbind at 1, L_bind. rewrite on_tables_eq. by intros [= <- <-].
Qed.

Lemma login_rates req ip is_form u p code remember s o s' :
  login cfg c req ip is_form u p code remember s = Some (o, s') → (length u < 64)%nat →
  rates_ok c (rates s) → rates_ok c (rates s').
Proof.
  intros E Hu Hok. unfold login in E. unfold mbind at 1, L_bind in E.
  destruct (rate_limited c u s) as [[b s0]|] eqn:Er; [|done]. apply rate_limited_rates in Er as [Hok0 Hmay]; [|done]. cbn in E.
  destruct b; [by injection E as <- <-|]. specialize (Hmay eq_refl).
  unfold mbind at 1, L_bind in E. rewrite on_tables_eq in E. cbn [mbind option_bind] in E.
  destruct (Accounts.db_auth_authenticate _ _ (base s0)) as [rc w1]. cbn [fst snd] in E.
  destruct rc as [[i|]|]; [|by eapply refused_rates|done].
  unfold mbind at 1, L_bind in E. rewrite on_tables_eq in E. cbn [mbind option_bind base rates] in E.
  destruct (Accounts.db_auth_get_user_by_id i w1) as [[x|] w2]; cbn [fst snd] in E; [|by injection E as <- <-].
  destruct (db_auth_ip_allowed_for_user _ _); cbn [negb] in E; [|by eapply refused_rates].
  assert (∃ f w3, (if is_form then mret (Passed false false) else on_tables (second_factor cfg c req i ip code)) (mkAuthState (rates s0) w2)
    = Some (f, mkAuthState (rates s0) w3)) as (f & w3 & Ef).
  { destruct is_form; [by eexists _, _|]. rewrite on_tables_eq. by eexists _, _. }
  unfold mbind at 1, L_bind in E. rewrite Ef in E. cbn [mbind option_bind] in E. destruct f.
  - by eapply complete_login_rates.
  - by eapply refused_rates.
  - by injection E as <- <-.
  - by injection E as <- <-.
Qed.

(** whatever requests are made, the table of failed attempts has at most 256 entries, one per
    name, every name fits its array, and no count passes the limit (so none overflows). *)
Theorem login_table_bounded req res s res' s' :
  handle_auth_login cfg c alloc req res s = Some (res', s') → rates_ok c (rates s) → rates_ok c (rates s').
Proof.
  unfold handle_auth_login. destruct (request_ip cfg req) as [ip|]; [|done].
  destruct (login_request _ req) as [msg|is_form u p code remember] eqn:El; [by intros [= <- <-]|].
  unfold mbind, L_bind. destruct (login _ _ _ _ _ _ _ _ _ s) as [[o s1]|] eqn:E; [|done]. cbn [mbind option_bind]. intros [= _ <-].
  eapply login_rates; [exact E|]. by eapply login_request_name.
Qed.

End login_rates.

(** ** An account with a second factor *)

#[local] Existing Instances example_crypto example_crypto_laws merging_sqlite known_conversions.

(** A clock that stops after a while. *)
#[local] Instance still_environment : Environment := {|
  sql_at _ := Completes;
  time_at n := 1000 + Z.of_nat (Nat.min n 200);
  random_at n k := if (n <? 60)%nat then Some (replicate k (Z_byte (Z.of_nat n))) else None;
  hashing_at _ := true;
  stack_at _ := replicate 16 Byte.x00;
  schema := mkColumns true true true true true true true true;
  auth_absolute_timeout_hours := 168;
  auth_timeout_hours := 24;
  trusted_device_days := 30;
  web_password := []
|}.

#[local] Instance still_environment_laws : EnvironmentLaws.
Proof. split; [intros n k b; simpl; case_match; [intros [= <-]; apply length_replicate|done]|done]. Qed.

(** The last bytes of the key and of the message. *)
#[local] Instance example_hmac : Hmac := {| has_sha1 := true; mbedtls_md_hmac k m := Some (take 20 (k ++ m ++ replicate 20 Byte.x00)) |}.

(** Documents of the form [name:value,...]. *)
#[local] Instance example_json : CJson := {|
  cJSON := cstr;
  cJSON_Parse s := Some s;
  cJSON_GetObjectItem j name :=
    '(_, found) ← strstr (name ++ [Byte.x3a]) j; Some (until Byte.x2c (drop (S (length name)) found));
  string_value v := Some v;
  bool_value v := if streq v (lit "true") then Some true else if streq v (lit "false") then Some false else None;
  int_value v := fst <$> strtol10 v;
  double_value v := (λ r, f_of_Z binary64 r.1) <$> strtol10 v;
  array_items v := match v with c :: items => if bool_decide (c = Byte.x5b) then Some (strtok (λ c, bool_decide (c = Byte.x20)) [] items) else None | [] => None end;
  is_object v := match v with c :: _ => bool_decide (c = Byte.x7b) | [] => false end;
  is_null v := streq v (lit "null");
  cJSON_PrintUnformatted fields := concat (fst <$> fields)
|}.

Definition example_secret : cstr := lit "JBSWY3DPEHPK3PXP".

Definition factor_calls : list call :=
  example_calls ++ [CallSetTotpSecret 2 (Some example_secret); CallEnableTotp 2 true].

Definition factor_world : world := run factor_calls example_start.
Definition factor_tables : tables := default (mkTables [] [] [] 0 0 0) (store factor_world).
Definition factor_state : auth_state := mkAuthState [] factor_world.

Lemma factor_store : store factor_world = Some factor_tables.
Proof. vm_compute. reflexivity. Qed.

Lemma factor_ok : accounts_ok factor_tables.
Proof. exact (run_accounts_ok factor_calls example_start example_start_ok _ factor_store). Qed.

Definition example_limit : login_config := mkLoginConfig true 5 300 false.
Definition example_body : cstr := lit "username:bob,password:secret,remember_device:true".
Definition login_from (body : cstr) : http_request_t := mkRequest (lit "/api/auth/login") [] [] (Some body) [] (lit "10.1.3.7").

(** What the login gives, by the steps of the handler. *)
Abbreviation example_login is_form code :=
  (login example_config example_limit (login_from example_body) (lit "10.1.3.7") is_form (lit "bob") (lit "secret") code true factor_state).

Definition outcome_of (r : option (login_outcome * auth_state)) : option login_outcome := fst <$> r.

Example handler_reads_the_body :
  login_request true (login_from example_body) = Credentials false (lit "bob") (lit "secret") [] true.
Proof. vm_compute. reflexivity. Qed.

Example asks_for_the_code : match outcome_of (example_login false []) with Some (TotpRequired _) => True | _ => False end.
Proof. vm_compute. exact I. Qed.

(** The same credentials, sent as a form. *)
Example form_is_not_asked : match outcome_of (example_login true []) with Some (LoggedIn _ None) => True | _ => False end.
Proof. vm_compute. exact I. Qed.

Example wrong_code_refused : outcome_of (example_login false (lit "000000")) = Some InvalidCredentials.
Proof. vm_compute. reflexivity. Qed.

Lemma login_requires_credentials_witness :
  ∃ tok trusted s', example_login false (lit "606444") = Some (LoggedIn tok trusted, s') ∧
    ∃ r l t', r ∈ users factor_tables ∧ u_username r = lit "bob" ∧ u_is_active r ≠ 0 ∧ password_matches r (lit "secret") ∧
      db_auth_ip_allowed_for_user (Some (populate_user_from_stmt (logged l r))) (Some (lit "10.1.3.7")) = true ∧
      (false = false → needs_factor r = true →
       factor_proved (login_from example_body) (lit "606444") factor_tables (readings (base factor_state)) r ∨
       ∃ n, (readings (base factor_state) ≤ n < readings (base s'))%nat ∧ answers n = false) ∧
      store (base s') = Some t' ∧ token_rows tok (λ user _, user = u_id r) t'.
Proof.
  assert (E : ∃ tok trusted s', example_login false (lit "606444") = Some (LoggedIn tok trusted, s')).
  { destruct (example_login false (lit "606444")) as [[[| | | |tok trusted] s']|] eqn:E; [exfalso; revert E; vm_compute; discriminate..|eauto|].
    exfalso. revert E. vm_compute. discriminate. }
  destruct E as (tok & trusted & s' & E). exists tok, trusted, s'. split; [exact E|].
  exact (login_requires_credentials example_config example_limit _ _ _ _ _ _ _ _ factor_tables _ _ _ E factor_store factor_ok).
Defined.

Definition token_request (tok : cstr) : http_request_t :=
  example_request (lit "10.1.3.7") [mkHeader (lit "Cookie") (lit "session=" ++ tok)].

Definition pending_token : cstr :=
  match outcome_of (example_login false []) with Some (TotpRequired tok) => tok | _ => [] end.

Lemma still_clock m n k : (m < n)%nat → (n ≤ k)%nat → sql_at k = Completes ∧ time_at m ≤ time_at k ≤ time_at m + 300.
Proof. simpl. split; [done|lia]. Qed.

Lemma pending_token_is_a_session_witness :
  ∃ s' u w', example_login false [] = Some (TotpRequired pending_token, s') ∧
    httpd_get_authenticated_user example_config (token_request pending_token) (base s') = Some (Some u, w').
Proof.
  assert (E : ∃ s', example_login false [] = Some (TotpRequired pending_token, s')).
  { unfold pending_token. destruct (example_login false []) as [[[| | |tok|] s']|] eqn:E; try (exfalso; revert E; vm_compute; discriminate). eauto. }
  destruct E as (s' & E). exists s'.
  destruct (pending_token_is_a_session example_config example_limit _ _ _ _ _ _ factor_state factor_tables _ _ E factor_store factor_ok
              (conj eq_refl (conj eq_refl (conj eq_refl eq_refl)))) as (r & l & m & _ & _ & _ & Hm & Hreq).
  destruct (Hreq (token_request pending_token) (readings (base s')) eq_refl) as [w' Hw].
  - vm_compute. reflexivity.
  - vm_compute. reflexivity.
  - intros k Hk. exact (still_clock m _ k (proj2 Hm) Hk).
  - exists (populate_user_from_stmt (logged l r)), w'. split; [exact E|]. destruct (base s'). exact Hw.
Defined.

(** *** Failed attempts *)

Definition wrong_password : http_request_t := login_from (lit "username:bob,password:guess").

Lemma login_table_bounded_witness :
  ∃ res' s', handle_auth_login example_config example_limit (true, true) wrong_password http_response_init factor_state = Some (res', s') ∧
    rates_ok example_limit (rates s').
Proof.
  assert (E : ∃ res' s', handle_auth_login example_config example_limit (true, true) wrong_password http_response_init factor_state = Some (res', s')).
  { destruct (handle_auth_login _ _ _ _ _ _) as [[res' s']|] eqn:E; [eauto|]. exfalso. revert E. vm_compute. discriminate. }
  destruct E as (res' & s' & E). exists res', s'. split; [exact E|].
  apply (login_table_bounded _ _ _ _ _ _ _ _ E). split; [simpl; unfold MAX_RATE_LIMIT_ENTRIES; lia|constructor..].
Defined.

Definition example_failures : list (Z * cstr) :=
  [(1001, lit "bob"); (1002, lit "eve"); (1003, lit "bob"); (1004, lit "bob"); (1005, lit "bob")].

Definition locked_state : auth_state :=
  mkAuthState (fail_all example_limit example_failures (record_failed_attempt example_limit 1000 (lit "bob") [])) factor_world.


(** The table holds 256 names and gives up the one whose window began first: as many failed
    attempts for other names, made up, and the name may be tried again. *)
Definition made_up : list (Z * cstr) := (λ i, (1010 + Z.of_nat i, decimal (Z.of_nat i))) <$> seq 0 256.

Example attempts_forgotten :
  (check_rate_limit example_limit 1300 (lit "bob") (rates locked_state)).1 = true ∧
  (check_rate_limit example_limit 1300 (lit "bob") (fail_all example_limit made_up (rates locked_state))).1 = false.
Proof. vm_compute. split; reflexivity. Qed.
