(* ===== verification/Users.v ===== *)
(** * Users

    [src/web/api_handlers_users_backend_agnostic.c]: the handlers that list, create,
    change and delete accounts, on the tables of [Accounts]. *)
From Stdlib Require Import ZArith Lia Bool.
From Stdlib Require Import Strings.Byte.
From stdpp Require Import base numbers list strings sets.
From S2P Require Import Prelude.
From S2P Require Import Sql.
From S2P Require Import Libc.
From S2P Require Import CStrings.
From S2P Require Import Auth.
From S2P Require Import HttpMessage.
From S2P Require Import HttpUtils.
From S2P Require Import Accounts.
From S2P Require Import AccountLogin.
From S2P Require Import Json.
From S2P Require Import Totp.
From S2P Require Import Login.
From S2P Require Import LoginSafety.
#[local] Open Scope Z_scope.

(** What [GET /api/auth/users] prints of a user. *)
Definition user_to_json (user : user_t) (include_api_key : bool) : list (cstr * json_field) :=
  [(lit "id", JNumber (id user)); (lit "username", JString (username user)); (lit "email", JString (email user));
   (lit "role", JNumber (role user)); (lit "role_name", JString (db_auth_get_role_name (role user)))] ++
  (if include_api_key && negb (empty (api_key user)) then [(lit "api_key", JString (api_key user))] else []) ++
  [(lit "created_at", JNumber (created_at user)); (lit "updated_at", JNumber (updated_at user));
   (lit "last_login", JNumber (last_login user)); (lit "is_active", JBool (is_active user));
   (lit "password_change_locked", JBool (password_change_locked user)); (lit "totp_enabled", JBool (totp_enabled user));
   (lit "allowed_tags", if has_tag_restriction user then JString (allowed_tags user) else JNull);
   (lit "allowed_login_cidrs", if has_login_cidr_restriction user then JString (allowed_login_cidrs user) else JNull)].

(** [strtoll]; 0 when there is no number. *)
Definition strtoll (s : cstr) : Z := match strtol10 s with Some (v, _) => v | None => 0 end.

(** The id in the path, and the same up to the next slash. *)
Definition path_user (req : http_request_t) (size : nat) : option Z :=
  strtoll <$> http_request_extract_path_param req (lit "/api/auth/users/") size.

Definition path_user_before_slash (req : http_request_t) : option Z :=
  (λ s, strtoll (until Byte.x2f s)) <$> http_request_extract_path_param req (lit "/api/auth/users/") 64.

(** An optional member: text, [null], or something else. *)
Inductive setting := Absent | Null | Text (s : cstr) | Other.

Section Users.
Context {CR : Crypto} {EN : Environment} {SQ : Sqlite} {IC : InetConversions} {CJ : CJson}.
Context (cfg : config_t) (alloc : bool * bool).

Definition present (j : cJSON) (name : string) : bool := bool_decide (is_Some (cJSON_GetObjectItem j (lit name))).

Definition int_item (j : cJSON) (name : string) : option Z := item ← cJSON_GetObjectItem j (lit name); int_value item.

Definition setting_item (j : cJSON) (name : string) : setting :=
  match cJSON_GetObjectItem j (lit name) with
  | None => Absent
  | Some item => if is_null item then Null else match string_value item with Some s => Text s | None => Other end
  end.

(** A body that may meet undefined behaviour. *)
Definition lift_defined {A} (m : M (option A)) : handler A := λ w, let '(a, w) := m w in (λ a, (a, w)) <$> a.

(** ** Who may do what

    [None] when it is permitted, else the response. *)
Definition check_view_users_permission (req : http_request_t) (res : http_response_t) : handler (option http_response_t) :=
  user ← authenticated_user cfg req;
  mret match user with
       | Some u =>
           if (role u =? USER_ROLE_ADMIN) || (role u =? USER_ROLE_USER) then None
           else Some (json_error alloc res 403 "Forbidden: Insufficient privileges to view users")
       | None => Some (json_error alloc res 401 "Unauthorized: Authentication required")
       end.

Definition check_generate_api_key_permission (req : http_request_t) (res : http_response_t) (target_user_id : Z)
    : handler (option http_response_t) :=
  user ← authenticated_user cfg req;
  mret match user with
       | Some u =>
           if role u =? USER_ROLE_ADMIN then None
           else if (role u =? USER_ROLE_USER) && (id u =? target_user_id) then None
           else Some (json_error alloc res 403 "Forbidden: You can only generate API keys for yourself unless you are an admin")
       | None => Some (json_error alloc res 401 "Unauthorized: Authentication required")
       end.

Definition check_delete_user_permission (req : http_request_t) (res : http_response_t) (target_user_id : Z)
    : handler (option http_response_t) :=
  user ← authenticated_user cfg req;
  mret match user with
       | Some u =>
           if role u =? USER_ROLE_ADMIN then
             if negb (id u =? target_user_id) then None
             else Some (json_error alloc res 403 "Forbidden: You cannot delete yourself")
           else Some (json_error alloc res 403 "Forbidden: Only admins can delete users")
       | None => Some (json_error alloc res 401 "Unauthorized: Authentication required")
       end.

(** [if (!httpd_check_admin_privileges (req, res)) return;] *)
Definition with_admin (req : http_request_t) (res : http_response_t) (k : handler http_response_t) : handler http_response_t :=
  λ w, '(r, res, w) ← httpd_check_admin_privileges cfg alloc req res w;
       if r =? 0 then Some (res, w) else k w.

Definition permitted (check : handler (option http_response_t)) (k : M http_response_t) : handler http_response_t :=
  refused ← check;
  match refused with Some res => mret res | None => lift k end.

(** ** Reading *)

(** The statement, with the only suffix that it is given: [ORDER BY id]. *)
Definition prepare_user_select_stmt : M (option (list user_row)) := query (λ t, order_by (λ u, asc (Some (u_id u))) (users t)).

Definition handle_users_list (req : http_request_t) (res : http_response_t) : handler http_response_t :=
  with_admin req res (lift (
    with_db (json_error alloc res 500 "Database not initialized") (
      found ← prepare_user_select_stmt;
      mret match found with
           | None => json_error alloc res 500 "Failed to prepare statement"
           | Some rows =>
               json_ok alloc res [(lit "users", JObjects ((λ u, user_to_json (populate_user_from_stmt u) true) <$> rows))]
           end))).

Definition handle_users_get (req : http_request_t) (res : http_response_t) : handler http_response_t :=
  with_admin req res (lift (
    match path_user req 32 with
    | None => mret (json_error alloc res 400 "Invalid request path")
    | Some user_id =>
        if user_id <=? 0 then mret (json_error alloc res 400 "Invalid user ID") else
        user ← db_auth_get_user_by_id user_id;
        mret match user with
             | None => json_error alloc res 404 "User not found"
             | Some user => json_ok alloc res (user_to_json user true)
             end
    end)).

(** ** Creating *)

Definition username_length_ok (name : cstr) : bool := (3 <=? length name)%nat && (length name <=? 32)%nat.

Definition create_user (res : http_response_t) (username password : cstr) (email : option cstr) (role : Z) (active : bool)
    (tags cidrs : option (option cstr)) : M http_response_t :=
  created ← db_auth_create_user (Some username) (Some password) email role active;
  match created with
  | None => mret (json_error alloc res 500 "Failed to create user")
  | Some user_id =>
      _ ← match tags with Some at_ => db_auth_set_allowed_tags user_id at_ | None => mret 0 end;
      r ← match cidrs with Some list_ => db_auth_set_allowed_login_cidrs user_id list_ | None => mret 0 end;
      if negb (r =? 0) then mret (json_error alloc res 500 "User created but failed to save allowed_login_cidrs") else
      user ← db_auth_get_user_by_id user_id;
      mret match user with
           | None => json_error alloc res 500 "User created but failed to retrieve"
           | Some user => json_ok alloc res (user_to_json user false)
           end
  end.

(** The value to store, [None] when it is not to be changed. *)
Definition kept_tags (s : setting) : option (option cstr) :=
  match s with Null => Some None | Text s => Some (Some (strcpy_trunc 256 s)) | Absent | Other => None end.

Definition kept_cidrs (s : setting) : option (option cstr) :=
  match s with Null => Some None | Text s => Some (Some (strcpy_trunc USER_ALLOWED_LOGIN_CIDRS_MAX s)) | Absent | Other => None end.

Definition is_other (s : setting) : bool := match s with Other => true | _ => false end.

Definition invalid_cidrs (s : option (option cstr)) : bool :=
  match s with Some list_ => negb (db_auth_validate_allowed_login_cidrs list_ =? 0) | None => false end.

Definition handle_users_create (req : http_request_t) (res : http_response_t) : handler http_response_t :=
  with_admin req res (lift (
    match httpd_parse_json_body alloc.1 req with
    | None => mret (json_error alloc res 400 "Invalid JSON in request body")
    | Some j =>
        match string_item j "username", string_item j "password" with
        | Some username, Some password =>
            let role := default USER_ROLE_USER (int_item j "role") in
            let tags := kept_tags (setting_item j "allowed_tags") in
            let cidrs := kept_cidrs (setting_item j "allowed_login_cidrs") in
            if negb (username_length_ok username) then
              mret (json_error alloc res 400 "Username must be between 3 and 32 characters") else
            if (length password <? 8)%nat then mret (json_error alloc res 400 "Password must be at least 8 characters") else
            if (role <? 0) || (role >? 3) then mret (json_error alloc res 400 "Invalid role") else
            if is_other (setting_item j "allowed_login_cidrs") then
              mret (json_error alloc res 400 "allowed_login_cidrs must be a string or null") else
            if invalid_cidrs cidrs then
              mret (json_error alloc res 400 "allowed_login_cidrs must contain valid IPv4/IPv6 CIDR entries or single IP addresses") else
            create_user res username password (string_item j "email") role (default true (bool_item j "is_active")) tags cidrs
        | _, _ => mret (json_error alloc res 400 "Missing required fields: username and password")
        end
    end)).

(** ** Changing *)

(** The setting as the update takes it: not cut to an array. *)
Definition whole (s : setting) : option (option cstr) :=
  match s with Null => Some None | Text s => Some (Some s) | Absent | Other => None end.

(** The password, when one is given that is not empty: the response that ends the
    handler, or nothing. *)
Definition update_password (res : http_response_t) (user_id : Z) (password : option cstr) : M (option http_response_t) :=
  match password with
  | None | Some [] => mret None
  | Some password =>
      if (length password <? 8)%nat then mret (Some (json_error alloc res 400 "Password must be at least 8 characters")) else
      rc ← db_auth_change_password user_id (Some password);
      if rc =? -2 then mret (Some (json_error alloc res 403 "Password changes are locked for this user"))
      else if negb (rc =? 0) then mret (Some (json_error alloc res 500 "Failed to update password"))
      else _ ← db_auth_delete_user_sessions user_id; mret None
  end.

(** From the other columns on; [tags] and [cidrs] are what to store. *)
Definition update_columns (res : http_response_t) (user_id : Z) (username email : option cstr) (role is_active : Z)
    (tags cidrs : option (option cstr)) : M http_response_t :=
  rc ← db_auth_update_user user_id username email role is_active;
  if rc =? -2 then mret (json_error alloc res 409 "Username already exists") else
  _ ← (if (rc =? 0) && (is_active =? 0) then db_auth_delete_user_sessions user_id else mret 0);
  _ ← match tags with Some at_ => if rc =? 0 then db_auth_set_allowed_tags user_id at_ else mret 0 | None => mret 0 end;
  rc ← match cidrs with
       | Some list_ => if rc =? 0 then r ← db_auth_set_allowed_login_cidrs user_id list_; mret (if r =? 0 then rc else -1)
                       else mret rc
       | None => mret rc
       end;
  if negb (rc =? 0) then mret (json_error alloc res 500 "Failed to update user") else
  user ← db_auth_get_user_by_id user_id;
  mret match user with
       | None => json_error alloc res 500 "User updated but failed to retrieve"
       | Some user => json_ok alloc res (user_to_json user false)
       end.

(** What only an administrator may change. *)
Definition reserved : list string := ["password"; "role"; "is_active"; "allowed_tags"; "allowed_login_cidrs"]%string.

Definition update_fields (res : http_response_t) (user_id : Z) (j : cJSON) : M http_response_t :=
  match (if present j "username" then string_item j "username" else Some []) with
  | None => mret (json_error alloc res 400 "username must be a string")
  | Some name =>
      if present j "username" && negb (username_length_ok name) then
        mret (json_error alloc res 400 "Username must be between 3 and 32 characters") else
      let cidrs := whole (setting_item j "allowed_login_cidrs") in
      if is_other (setting_item j "allowed_login_cidrs") then
        mret (json_error alloc res 400 "allowed_login_cidrs must be a string or null") else
      if invalid_cidrs cidrs then
        mret (json_error alloc res 400 "allowed_login_cidrs must contain valid IPv4/IPv6 CIDR entries or single IP addresses") else
      ended ← update_password res user_id (string_item j "password");
      match ended with
      | Some res => mret res
      | None =>
          let role := default (-1) (int_item j "role") in
          let is_active := match bool_item j "is_active" with Some true => 1 | Some false => 0 | None => -1 end in
          if role >? 3 then mret (json_error alloc res 400 "Invalid role") else
          update_columns res user_id (if present j "username" then Some name else None) (string_item j "email") role is_active
            (whole (setting_item j "allowed_tags")) cidrs
      end
  end.

(** The update, for the user that asks. *)
Definition update_as (req : http_request_t) (res : http_response_t) (current_user : user_t) : M http_response_t :=
  match path_user_before_slash req with
  | None => mret (json_error alloc res 400 "Invalid request path")
  | Some user_id =>
      let is_admin := role current_user =? USER_ROLE_ADMIN in
      if negb is_admin && negb (id current_user =? user_id) then
        mret (json_error alloc res 403 "You can only update your own account") else
      user ← db_auth_get_user_by_id user_id;
      match user with
      | None => mret (json_error alloc res 404 "User not found")
      | Some _ =>
          match httpd_parse_json_body alloc.1 req with
          | None => mret (json_error alloc res 400 "Invalid JSON")
          | Some j =>
              if negb is_admin && existsb (present j) reserved then
                mret (json_error alloc res 403 "You can only update your own username and email")
              else update_fields res user_id j
          end
      end
  end.

Definition handle_users_update (req : http_request_t) (res : http_response_t) : handler http_response_t :=
  user ← authenticated_user cfg req;
  match user with
  | None => mret (json_error alloc res 401 "Unauthorized")
  | Some current_user => lift (update_as req res current_user)
  end.

(** ** Deleting *)

(** The count of the administrators. *)
Definition admin_count (t : tables) : Z := Z.of_nat (length (List.filter (λ u, u_role u =? 0) (users t))).

Definition delete_user (res : http_response_t) (user_id : Z) : M http_response_t :=
  r ← db_auth_delete_user user_id;
  mret (if negb (r =? 0) then json_error alloc res 500 "Failed to delete user"
        else json_ok alloc res [(lit "success", JBool true); (lit "message", JString (lit "User deleted successfully"))]).

Definition delete_checked (res : http_response_t) (user_id : Z) : M http_response_t :=
  user ← db_auth_get_user_by_id user_id;
  match user with
  | None => mret (json_error alloc res 404 "User not found")
  | Some user =>
      if role user =? USER_ROLE_ADMIN then
        with_db (json_error alloc res 500 "Database not initialized") (
          count ← query (λ t, [admin_count t]);
          match count with
          | None => mret (json_error alloc res 500 "Failed to prepare statement")
          | Some [] => mret (json_error alloc res 500 "Failed to count admin users")
          | Some (admins :: _) =>
              if admins <=? 1 then mret (json_error alloc res 400 "Cannot delete the last admin user")
              else delete_user res user_id
          end)
      else delete_user res user_id
  end.

Definition handle_users_delete (req : http_request_t) (res : http_response_t) : handler http_response_t :=
  match path_user_before_slash req with
  | None => mret (json_error alloc res 400 "Invalid request path")
  | Some user_id => permitted (check_delete_user_permission req res user_id) (delete_checked res user_id)
  end.

(** ** Keys, passwords and locks *)

Definition handle_users_generate_api_key (req : http_request_t) (res : http_response_t) : handler http_response_t :=
  match path_user_before_slash req with
  | None => mret (json_error alloc res 400 "Invalid request path")
  | Some user_id =>
      permitted (check_generate_api_key_permission req res user_id) (
        user ← db_auth_get_user_by_id user_id;
        match user with
        | None => mret (json_error alloc res 404 "User not found")
        | Some _ =>
            key ← db_auth_generate_api_key user_id 64;
            mret match key with
                 | None => json_error alloc res 500 "Failed to generate API key"
                 | Some key => json_ok alloc res [(lit "success", JBool true); (lit "api_key", JString key)]
                 end
        end)
  end.

(** The change itself, after the old password of those who need one. *)
Definition change_password (res : http_response_t) (target_user_id : Z) (new_password : cstr) : M http_response_t :=
  rc ← db_auth_change_password target_user_id (Some new_password);
  if rc =? -2 then mret (json_error alloc res 403 "Password changes are locked for this user") else
  if negb (rc =? 0) then mret (json_error alloc res 500 "Failed to change password") else
  _ ← db_auth_delete_user_sessions target_user_id;
  mret (json_ok alloc res [(lit "success", JBool true)]).

Definition change_password_as (req : http_request_t) (res : http_response_t) (current_user : user_t) : M (option http_response_t) :=
  match path_user req 16 with
  | None => mret (Some (json_error alloc res 400 "Invalid request path"))
  | Some target_user_id =>
      target ← db_auth_get_user_by_id target_user_id;
      match target with
      | None => mret (Some (json_error alloc res 404 "User not found"))
      | Some _ =>
          let is_admin := role current_user =? USER_ROLE_ADMIN in
          if negb is_admin && negb (id current_user =? target_user_id) then
            mret (Some (json_error alloc res 403 "You can only change your own password")) else
          match httpd_parse_json_body alloc.1 req with
          | None => mret (Some (json_error alloc res 400 "Invalid JSON"))
          | Some j =>
              match string_item j "new_password" with
              | None => mret (Some (json_error alloc res 400 "New password is required"))
              | Some new_password =>
                  if (length new_password <? 8)%nat then
                    mret (Some (json_error alloc res 400 "Password must be at least 8 characters")) else
                  if is_admin then r ← change_password res target_user_id new_password; mret (Some r) else
                  match string_item j "old_password" with
                  | None => mret (Some (json_error alloc res 400 "Current password is required"))
                  | Some old_password =>
                      rc ← db_auth_verify_password target_user_id (Some old_password);
                      match rc with
                      | None => mret None
                      | Some rc =>
                          if negb (rc =? 0) then mret (Some (json_error alloc res 401 "Current password is incorrect"))
                          else r ← change_password res target_user_id new_password; mret (Some r)
                      end
                  end
              end
          end
      end
  end.

Definition handle_users_change_password (req : http_request_t) (res : http_response_t) : handler http_response_t :=
  user ← authenticated_user cfg req;
  match user with
  | None => mret (json_error alloc res 401 "Unauthorized")
  | Some current_user => lift_defined (change_password_as req res current_user)
  end.

Definition handle_users_password_lock (req : http_request_t) (res : http_response_t) : handler http_response_t :=
  with_admin req res (lift (
    match path_user req 16 with
    | None => mret (json_error alloc res 400 "Invalid request path")
    | Some user_id =>
        user ← db_auth_get_user_by_id user_id;
        match user with
        | None => mret (json_error alloc res 404 "User not found")
        | Some _ =>
            match httpd_parse_json_body alloc.1 req with
            | None => mret (json_error alloc res 400 "Invalid JSON")
            | Some j =>
                match bool_item j "locked" with
                | None => mret (json_error alloc res 400 "Locked field is required and must be a boolean")
                | Some locked =>
                    rc ← db_auth_set_password_lock user_id locked;
                    if negb (rc =? 0) then mret (json_error alloc res 500 "Failed to update password lock status") else
                    user ← db_auth_get_user_by_id user_id;
                    mret match user with
                         | None => json_error alloc res 500 "Password lock updated but failed to retrieve user"
                         | Some user => json_ok alloc res (user_to_json user false)
                         end
                end
            end
        end
    end)).

(** On the state of the logins: the entry of the user is cleared. *)
Definition handle_users_clear_login_lockout (req : http_request_t) (res : http_response_t) : L http_response_t :=
  λ s, '(r, res, w) ← httpd_check_admin_privileges cfg alloc req res (base s);
       let s := mkAuthState (rates s) w in
       if r =? 0 then Some (res, s) else
       match path_user_before_slash req with
       | None => Some (json_error alloc res 400 "Invalid request path", s)
       | Some user_id =>
           let '(user, w) := db_auth_get_user_by_id user_id (base s) in
           match user with
           | None => Some (json_error alloc res 404 "User not found", mkAuthState (rates s) w)
           | Some user =>
               let '(cleared, t) := auth_clear_login_rate_limit_for_username (username user) (rates s) in
               Some (json_ok alloc res
                       [(lit "success", JBool true); (lit "cleared", JBool cleared);
                        (lit "message", JString (lit (if cleared : bool then "Login lockout cleared successfully"
                                                      else "No active login lockout found")))], mkAuthState t w)
           end
       end.

End Users.

(** ** Rights *)

Section rights.
Context {CR : Crypto} {EN : Environment} {SQ : Sqlite} {IC : InetConversions} {CJ : CJson}.
Context {CL : CryptoLaws} {EL : EnvironmentLaws}.
Context (cfg : config_t) (alloc : bool * bool).

(** The requests that the file answers on the tables. *)
Inductive users_request :=
  | UsersList | UsersGet | UsersCreate | UsersUpdate | UsersDelete | UsersApiKey | UsersPassword | UsersLock.

Definition serve (h : users_request) : http_request_t → http_response_t → handler http_response_t :=
  match h with
  | UsersList => handle_users_list cfg alloc
  | UsersGet => handle_users_get cfg alloc
  | UsersCreate => handle_users_create cfg alloc
  | UsersUpdate => handle_users_update cfg alloc
  | UsersDelete => handle_users_delete cfg alloc
  | UsersApiKey => handle_users_generate_api_key cfg alloc
  | UsersPassword => handle_users_change_password cfg alloc
  | UsersLock => handle_users_password_lock cfg alloc
  end.

(** What a user may change of itself. *)
Definition self_assignment (a : user_assignment) : Prop :=
  match a with
  | SetUsername _ | SetEmail _ | SetUpdatedAt _ | SetPasswordHash _ | SetSalt _ | SetApiKey _ => True
  | _ => False
  end.

Definition own_statement (i : Z) (s : statement) : Prop :=
  match s with
  | UpdateUser j sets => j = i ∧ Forall self_assignment sets
  | DeleteSessions (SessionUser j) => j = i
  | _ => False
  end.

#[local] Hint Resolve runs_get_user : runs_helpers.

Lemma runs_new_password' p P : runs 0 (new_password p) P (λ _, True).
Proof. eapply runs_weaken; [apply (runs_new_password 0 p P)|done|done]. Qed.

Lemma runs_own_password res i p : runs 0 (change_password alloc res i p) (own_statement i) (λ _, True).
Proof.
  unfold change_password, db_auth_change_password, db_auth_delete_user_sessions.
  repeat first [apply runs_new_password' | run_any]; simpl; try done. split; [done|repeat constructor].
Qed.
Lemma runs_update_user' i n e :
  runs 0 (db_auth_update_user i n e (-1) (-1)) (own_statement i) (λ _, True).
Proof.
  unfold db_auth_update_user. run_any; simpl; try done. split; [done|]. destruct n, e; repeat constructor.
Qed.

(** Of the members that are reserved, none is given. *)
Lemma not_reserved j : existsb (present j) reserved = false → ∀ name, name ∈ reserved → cJSON_GetObjectItem j (lit name) = None.
Proof.
  intros He name Hn. destruct (cJSON_GetObjectItem j (lit name)) eqn:E; [|done].
  rewrite <- not_true_iff_false, existsb_exists in He. destruct He. exists name. split; [by apply list_elem_of_In|].
  unfold present. rewrite E. by apply bool_decide_eq_true.
Qed.

Lemma runs_own_update req res u :
  role u ≠ USER_ROLE_ADMIN → runs 0 (update_as alloc req res u) (own_statement (id u)) (λ _, True).
Proof.
  intros Hr. unfold update_as. rewrite (proj2 (Z.eqb_neq _ _) Hr). cbn [negb andb].
  destruct (path_user_before_slash req) as [i|]; [|by apply runs_ret]. destruct (Z.eqb_spec (id u) i) as [<-|]; [|by apply runs_ret]. cbn [negb].
  apply runs_bind_any; [apply runs_get_user|intros [x|]; [|by apply runs_ret]].
  destruct (httpd_parse_json_body _ req) as [j|]; [|by apply runs_ret]. destruct (existsb (present j) reserved) eqn:Hres; [by apply runs_ret|].
  assert (∀ name, name ∈ reserved → cJSON_GetObjectItem j (lit name) = None) as Hn by (by apply not_reserved).
  unfold update_fields, setting_item, int_item, bool_item. rewrite !Hn by (unfold reserved; set_solver).
  assert (string_item j "password" = None) as -> by (unfold string_item; by rewrite Hn by (unfold reserved; set_solver)).
  cbn [whole invalid_cidrs is_other update_password option_bind mbind default]. change (-1 >? 3) with false. cbv iota.
  destruct (if present j "username" then _ else _) as [name|]; [|by apply runs_ret]. destruct (_ && _); [by apply runs_ret|].
  apply runs_bind_any; [by apply runs_ret|intros [r|]; [by apply runs_ret|]]. unfold update_columns.
  change (-1 =? 0) with false. apply runs_bind_any; [apply runs_update_user'|intros rc]. rewrite andb_false_r.
  repeat first [apply runs_get_user | run_any]; done.
Qed.

Lemma runs_own_password_change req res u :
  role u ≠ USER_ROLE_ADMIN → runs 0 (change_password_as alloc req res u) (own_statement (id u)) (λ _, True).
Proof.
  intros Hr. unfold change_password_as. rewrite (proj2 (Z.eqb_neq _ _) Hr). cbn [negb andb].
  destruct (path_user req 16) as [i|]; [|by apply runs_ret].
  apply runs_bind_any; [apply runs_get_user|intros [x|]; [|by apply runs_ret]].
  destruct (Z.eqb_spec (id u) i) as [<-|]; [|by apply runs_ret]. cbn [negb].
  repeat case_match; try by apply runs_ret. apply runs_bind_any.
  - unfold db_auth_verify_password. repeat first [apply (runs_check_password 0) | run_any]; done.
  - intros [rc|]; [|by apply runs_ret]. case_match; [by apply runs_ret|].
    apply runs_bind_any; [apply runs_own_password|intros r; by apply runs_ret].
Qed.

Lemma runs_own_key res i :
  runs 0 (user ← db_auth_get_user_by_id i;
          match user with
          | None => mret (json_error alloc res 404 "User not found")
          | Some _ =>
              key ← db_auth_generate_api_key i 64;
              mret match key with
                   | None => json_error alloc res 500 "Failed to generate API key"
                   | Some key => json_ok alloc res [(lit "success", JBool true); (lit "api_key", JString key)]
                   end
          end) (own_statement i) (λ _, True).
Proof.
  apply runs_bind_any; [apply runs_get_user|intros [x|]; [|by apply runs_ret]]. unfold db_auth_generate_api_key, generate_random_string.
  run_any; simpl; try done. split; [done|repeat constructor].
Qed.
(** *** Who changed what *)

(** The columns that decide what a user may do. *)
Definition rights (r : user_row) :=
  (u_id r, u_role r, u_is_active r, u_password_change_locked r, u_totp_secret r, u_totp_enabled r, u_allowed_tags r, u_allowed_login_cidrs r).

Lemma self_assigned sets r : Forall self_assignment sets → rights (foldl (flip assign_user) r sets) = rights r.
Proof.
  intros Hs. revert r. induction Hs as [|a sets Ha _ IH]; intros r; [done|]. cbn [foldl]. rewrite IH. by destruct a, r.
Qed.

Lemma logged_rights l r : rights (logged l r) = rights r.
Proof. by destruct l, r. Qed.

(** The rows are those of [t], with their rights; [i] alone may be more than logged in. *)
Definition kept (i : Z) (t t' : tables) : Prop :=
  u_id <$> users t' = u_id <$> users t ∧
  ∀ r', r' ∈ users t' → ∃ r, r ∈ users t ∧ rights r' = rights r ∧ ((∃ l, r' = logged l r) ∨ u_id r = i).

Lemma since_kept i t w : since t w → ∃ t', store w = Some t' ∧ kept i t t'.
Proof.
  intros (t' & E & [Hu _] & _ & _ & Hi). exists t'. split; [done|]. split; [done|]. intros r' (r & l & Hr & ->)%Hu.
  exists r. split_and!; [done|apply logged_rights|left; by exists l].
Qed.

Lemma own_statement_kept i t s t1 t2 : own_statement i s → kept i t t1 → apply_statement s t1 = Some t2 → kept i t t2.
Proof.
  intros Hs [Hi Hk] E. destruct s as [|j sets| | | |cond| | |]; try done; [|destruct cond; try done; by injection E as <-].
  destruct Hs as [-> Hs]. cbn [apply_statement] in E. case_decide; [|done]. injection E as <-. unfold kept. cbn [users set_users]. split.
  - rewrite fmap_key; [done|]. intros x. case_match; [|done].
    pose proof (self_assigned sets x Hs) as Hr. unfold rights in Hr. congruence.
  - intros r' (x & -> & (r & Hr & Hrx & Hx)%Hk)%list_elem_of_fmap. exists r.
    destruct (Z.eqb_spec (u_id x) i) as [Hxi|]; [|done]. rewrite self_assigned by done. split_and!; [done..|].
    right. unfold rights in Hrx. congruence.
Qed.

Lemma own_kept {A} (m : M A) i t w :
  runs 0 m (own_statement i) (λ _, True) → since t w → ∃ t', store (m w).2 = Some t' ∧ kept i t t'.
Proof.
  intros Hm Hw. destruct (since_kept i t w Hw) as (t1 & E & H1).
  destruct (runs_keeps 0 m _ _ (kept i t) w Hm (own_statement_kept i t)) as [Hk _]; [lia|intros ??; by simplify_eq|].
  destruct (store (m w).2) as [t'|] eqn:E'; [exists t'; split; [done|exact (Hk t' E')]|]. destruct (Hm w ltac:(lia)) as [Hr _].
  rewrite E, E' in Hr. by apply open_stays_open in Hr.
Qed.

(** Who is behind what a request has done to the tables. *)
Inductive acted (req : http_request_t) (t : tables) (w' : world) : Prop :=
  | by_nobody : since t w' → acted req t w'
  | by_admin u ip : granted req ip t u → role u = USER_ROLE_ADMIN → acted req t w'
  | by_itself u ip A (m : M A) w1 : granted req ip t u → runs 0 m (own_statement (id u)) (λ _, True) → since t w1 → w' = (m w1).2 →
      acted req t w'.

Lemma with_admin_acted req res k w res' w' t :
  web_auth_enabled cfg = true → store w = Some t → accounts_ok t →
  with_admin cfg alloc req res k w = Some (res', w') → acted req t w'.
Proof.
  intros Hen E Hok. unfold with_admin, httpd_check_admin_privileges. rewrite Hen. cbn [negb].
  destruct (httpd_get_authenticated_user cfg req w) as [[u w1]|] eqn:Ea; [cbn [mbind option_bind]|done].
  destruct (authenticated_granted _ _ _ _ _ _ Hen E Hok Ea) as (H1 & ip & _ & Hg).
  destruct u as [x|]; [destruct (Z.eqb_spec (role x) USER_ROLE_ADMIN)|]; cbn [mbind option_bind]; change (1 =? 0) with false; change (0 =? 0) with true; cbv iota.
  - intros _. eapply by_admin; [by apply Hg|done].
  - intros [= _ <-]. by apply by_nobody.
  - intros [= _ <-]. by apply by_nobody.
Qed.

Lemma permitted_inv check (k : M http_response_t) w r w' :
  permitted check k w = Some (r, w') →
  ∃ refused w1, check w = Some (refused, w1) ∧
    match refused with Some _ => w' = w1 | None => k w1 = (r, w') end.
Proof.
  unfold permitted. unfold mbind, handler_bind. destruct (check w) as [[[x|] w1]|] eqn:Ec; [| |done]; cbn [mbind option_bind].
  - intros [= _ <-]. by exists (Some x), w1.
  - unfold lift. intros [= Ek]. by exists None, w1.
Qed.

Lemma serve_acted h req res w res' w' t :
  web_auth_enabled cfg = true → store w = Some t → accounts_ok t →
  serve h req res w = Some (res', w') → acted req t w'.
Proof.
  intros Hen E Hok. pose proof (since_refl t w E Hok) as Hw.
  destruct h; cbn [serve]; try by apply with_admin_acted.
  - unfold handle_users_update, authenticated_user. unfold mbind at 1, handler_bind.
    destruct (httpd_get_authenticated_user cfg req w) as [[u w1]|] eqn:Ea; [cbn [mbind option_bind]|done].
    destruct (authenticated_granted _ _ _ _ _ _ Hen E Hok Ea) as (H1 & ip & _ & Hg).
    destruct u as [x|]; [|intros [= _ <-]; by apply by_nobody]. unfold lift. intros [= Em].
    destruct (decide (role x = USER_ROLE_ADMIN)) as [|Hr]; [eapply by_admin; [by apply Hg|done]|].
    eapply by_itself; [by apply Hg|exact (runs_own_update req res x Hr)|exact H1|by rewrite Em].
  - unfold handle_users_delete. destruct (path_user_before_slash req) as [i|]; [|intros [= _ <-]; by apply by_nobody].
    intros (o & w1 & Ec & Hk)%permitted_inv. unfold check_delete_user_permission, authenticated_user, mbind, handler_bind in Ec.
    destruct (httpd_get_authenticated_user cfg req w) as [[u w0]|] eqn:Ea; [|done]. simpl in Ec. injection Ec as <- <-.
    destruct (authenticated_granted _ _ _ _ _ _ Hen E Hok Ea) as (H1 & ip & _ & Hg).
    destruct u as [x|]; [|subst w'; by apply by_nobody].
    destruct (Z.eqb_spec (role x) USER_ROLE_ADMIN); [eapply by_admin; [by apply Hg|done]|subst w'; by apply by_nobody].
  - unfold handle_users_generate_api_key. destruct (path_user_before_slash req) as [i|]; [|intros [= _ <-]; by apply by_nobody].
    intros (o & w1 & Ec & Hk)%permitted_inv. unfold check_generate_api_key_permission, authenticated_user in Ec. unfold mbind, handler_bind in Ec.
    destruct (httpd_get_authenticated_user cfg req w) as [[u w0]|] eqn:Ea; [|done]. simpl in Ec. injection Ec as <- <-.
    destruct (authenticated_granted _ _ _ _ _ _ Hen E Hok Ea) as (H1 & ip & _ & Hg).
    destruct u as [x|]; [|subst w'; by apply by_nobody].
    destruct (Z.eqb_spec (role x) USER_ROLE_ADMIN); [eapply by_admin; [by apply Hg|done]|].
    destruct (_ && _) eqn:Eown; [|subst w'; by apply by_nobody].
    apply andb_true_iff in Eown as [_ <-%Z.eqb_eq].
    eapply by_itself; [by apply Hg|exact (runs_own_key res (id x))|exact H1|by rewrite Hk].
  - unfold handle_users_change_password, authenticated_user. unfold mbind at 1, handler_bind.
    destruct (httpd_get_authenticated_user cfg req w) as [[u w1]|] eqn:Ea; [cbn [mbind option_bind]|done].
    destruct (authenticated_granted _ _ _ _ _ _ Hen E Hok Ea) as (H1 & ip & _ & Hg).
    destruct u as [x|]; [|intros [= _ <-]; by apply by_nobody]. unfold lift_defined.
    destruct (change_password_as alloc req res x w1) as [[r|] w2] eqn:Em; [|done]. intros [= _ <-].
    destruct (decide (role x = USER_ROLE_ADMIN)) as [|Hr]; [eapply by_admin; [by apply Hg|done]|].
    eapply by_itself; [by apply Hg|exact (runs_own_password_change req res x Hr)|exact H1|by rewrite Em].
Qed.

(** C8: whatever a request to the handlers of the users does, unless it is one of an administrator no
    account is made, deleted, or given other rights (role, activity, lock, second factor, tags,
    addresses); and of the rows, at most that of the user the request is from is changed at all, but
    for the time of a login. *)
Theorem rights_not_escalated h req res w res' w' t :
  web_auth_enabled cfg = true → store w = Some t → accounts_ok t →
  serve h req res w = Some (res', w') →
  (∃ u ip, granted req ip t u ∧ role u = USER_ROLE_ADMIN) ∨
  ∃ t', store w' = Some t' ∧ u_id <$> users t' = u_id <$> users t ∧
    ∀ r', r' ∈ users t' → ∃ r, r ∈ users t ∧ rights r' = rights r ∧
      ((∃ l, r' = logged l r) ∨ ∃ u ip, granted req ip t u ∧ id u = u_id r).
Proof.
  intros Hen E Hok Hs. destruct (serve_acted _ _ _ _ _ _ _ Hen E Hok Hs) as [Hw|u ip Hg Hr|u ip A m w1 Hg Hm Hw ->].
  - right. destruct (since_kept 0 t w' Hw) as (t' & E' & Hi & _). destruct Hw as (t1 & E1 & [Hu _] & _). rewrite E1 in E'. injection E' as ->.
    exists t'. split_and!; [done|done|]. intros r' (r & l & Hr & ->)%Hu. exists r. split_and!; [done|apply logged_rights|left; by exists l].
  - left. by exists u, ip.
  - right. destruct (own_kept m (id u) t w1 Hm Hw) as (t' & E' & Hi & Hk). exists t'. split_and!; [done|done|].
    intros r' (r & Hr & Hrr & [Hl|Hi'])%Hk; exists r; (split_and!; [done|done|]); [by left|right; by exists u, ip].
Qed.

(** *** The last administrator *)

Lemma delete_user_cases i w t :
  store w = Some t →
  ∃ t', store (db_auth_delete_user i w).2 = Some t' ∧ (t' = t ∨ users t' = filter (λ u, u_id u ≠ i) (users t)).
Proof.
  intros E. unfold db_auth_delete_user, with_db. rewrite E. unfold mbind at 1, M_bind. rewrite (query_eq _ _ _ E).
  destruct (match sql_at _ with PrepareFails => _ | _ => _ end) as [[|x xs]|]; [exists t; by auto| |exists t; by auto].
  unfold mbind, M_bind. destruct (execute_cases (DeleteUser i) (mkWorld (Some t) (S (readings w))) t eq_refl) as [(t' & Ha & ->)| ->].
  - cbn [apply_statement] in Ha. injection Ha as <-. eexists. split; [reflexivity|]. by right.
  - exists t. by auto.
Qed.

(** Two administrators are not one. *)
Lemma other_admin t i : accounts_ok t → 1 < admin_count t → ∃ r, r ∈ users t ∧ u_role r = 0 ∧ u_id r ≠ i.
Proof.
  intros Hok Hc. unfold admin_count in Hc.
  assert (∀ r, r ∈ List.filter (λ u, u_role u =? 0) (users t) ↔ r ∈ users t ∧ u_role r = 0) as Hin.
  { intros r. rewrite !list_elem_of_In, filter_In. by rewrite Z.eqb_eq. }
  assert (List.filter (λ u, u_role u =? 0) (users t) `sublist_of` users t) as Hsub.
  { clear. induction (users t) as [|x l IH]; simpl; [constructor|]. case_match; by constructor. }
  assert (NoDup (u_id <$> List.filter (λ u, u_role u =? 0) (users t))) as Hnd.
  { eapply sublist_NoDup; [|by apply fmap_sublist]. apply Hok. }
  destruct (List.filter _ (users t)) as [|r1 [|r2 rs]]; [simpl in Hc; lia..|].
  rewrite !fmap_cons, !NoDup_cons, not_elem_of_cons in Hnd. destruct Hnd as [[Hne _] _].
  destruct (decide (u_id r1 = i)) as [<-|].
  - destruct (proj1 (Hin r2)) as [? ?]; [by right; left|]. exists r2. split_and!; [done|done|congruence].
  - destruct (proj1 (Hin r1)) as [? ?]; [by left|]. by exists r1.
Qed.

Lemma delete_checked_admin res i w t r :
  store w = Some t → accounts_ok t → r ∈ users t → u_role r = 0 →
  ∃ t' r', store (delete_checked alloc res i w).2 = Some t' ∧ r' ∈ users t' ∧ u_role r' = 0.
Proof.
  intros E Hok Hr H0. unfold delete_checked. unfold mbind at 1, M_bind.
  destruct (reads_store _ _ w (runs_get_user 0 (user_numbered i) _)) as [E1 _]. unfold Accounts.db_auth_get_user_by_id.
  destruct (get_user (user_numbered i) w) as [[x|] w1] eqn:Eg; cbn [snd] in E1; [|exists t, r; simpl; by rewrite E1, E].
  apply get_user_inv in Eg as (t1 & r1 & E2 & Hr1 & Hi1 & ->). rewrite E in E2. injection E2 as <-. rewrite E in E1.
  unfold user_numbered in Hi1. apply Z.eqb_eq in Hi1.
  assert (∀ w2, store w2 = Some t → (∃ r', r' ∈ users t ∧ u_role r' = 0 ∧ u_id r' ≠ i) →
    ∃ t' r', store (delete_user alloc res i w2).2 = Some t' ∧ r' ∈ users t' ∧ u_role r' = 0) as Hdel.
  { intros w2 E2 (r' & Hr' & H0' & Hne). unfold delete_user. unfold mbind, M_bind.
    destruct (delete_user_cases i w2 t E2) as (t' & E' & Ht'). destruct (db_auth_delete_user i w2) as [z w3]. cbn [snd] in E'. simpl.
    destruct Ht' as [->|Hu]; [by exists t, r'|]. exists t', r'. split_and!; [done| |done]. rewrite Hu. by apply list_elem_of_filter. }
  cbn [role populate_user_from_stmt]. destruct (Z.eqb_spec (u_role r1) USER_ROLE_ADMIN) as [Ha|Ha].
  - unfold with_db. rewrite E1. unfold mbind at 1, M_bind. rewrite (query_eq _ _ _ E1).
    destruct (match sql_at _ with PrepareFails => _ | _ => _ end) as [[|n ns]|] eqn:Eq; [by exists t, r| |by exists t, r].
    assert (n = admin_count t) as ->.
    { revert Eq. destruct (sql_at _) as [|[|k]|]; [done|..]; intros [= <- _]; done. }
    destruct (Z.leb_spec (admin_count t) 1) as [Hc|Hc]; [by exists t, r|]. apply Hdel; [done|]. by apply other_admin.
  - apply Hdel; [done|]. exists r. split_and!; [done|done|]. intros Hri. apply Ha.
    assert (r = r1) as <- by (apply (same_user t); congruence). done.
Qed.

(** C9: no request to delete a user leaves the tables without an administrator. *)
Theorem last_admin_not_deleted req res w res' w' t r :
  web_auth_enabled cfg = true → store w = Some t → accounts_ok t →
  r ∈ users t → u_role r = USER_ROLE_ADMIN →
  handle_users_delete cfg alloc req res w = Some (res', w') →
  ∃ t' r', store w' = Some t' ∧ r' ∈ users t' ∧ u_role r' = USER_ROLE_ADMIN.
Proof.
  intros Hen E Hok Hr H0. unfold handle_users_delete. destruct (path_user_before_slash req) as [i|]; [|intros [= _ <-]; by exists t, r].
  intros (o & w1 & Ec & Hk)%permitted_inv. unfold check_delete_user_permission, authenticated_user, mbind, handler_bind in Ec.
  destruct (httpd_get_authenticated_user cfg req w) as [[u w0]|] eqn:Ea; [|done]. simpl in Ec. injection Ec as Eo <-.
  destruct (authenticated_granted _ _ _ _ _ _ Hen E Hok Ea) as ((t1 & E1 & [Hu _] & _ & Hok1 & Hi) & _).
  assert (∃ r1, r1 ∈ users t1 ∧ u_role r1 = 0) as (r1 & Hr1 & H1).
  { assert (u_id r ∈ u_id <$> users t1) as (r1 & Hid & Hr1)%list_elem_of_fmap by (rewrite Hi; by apply list_elem_of_fmap_2).
    exists r1. split; [done|]. destruct (Hu _ Hr1) as (r0 & l & Hr0 & ->). pose proof (logged_rights l r0) as Hl. unfold rights in Hl.
    assert (r0 = r) as -> by (apply (same_user t); congruence). change (u_role r = 0) in H0. congruence. }
  destruct o as [x|]; [subst w'; by exists t1, r1|].
  destruct (delete_checked_admin res i w0 t1 r1 E1 Hok1 Hr1 H1) as (t' & r' & E' & ? & ?). rewrite Hk in E'. by exists t', r'.
Qed.
End rights.

(** ** Two administrators and a user *)

#[local] Existing Instances example_crypto example_crypto_laws merging_sqlite known_conversions still_environment
  still_environment_laws example_json.

Definition users_calls : list call :=
  example_calls ++ [CallCreateSession 1 (Some (lit "10.0.0.2")) None 0 33].

Definition users_world : world := run users_calls example_start.
Definition users_tables : tables := default (mkTables [] [] [] 0 0 0) (store users_world).

Lemma users_store : store users_world = Some users_tables.
Proof. vm_compute. reflexivity. Qed.

Lemma users_ok : accounts_ok users_tables.
Proof. exact (run_accounts_ok users_calls example_start example_start_ok _ users_store). Qed.

(** The tokens of the user and of the administrator. *)
Definition token_of (i : Z) : cstr :=
  default [] (s_token <$> head (List.filter (λ s, s_user_id s =? i) (sessions users_tables))).

Definition users_call (i : Z) (p body : cstr) : http_request_t :=
  mkRequest (lit "/api/auth/users/" ++ p) [] [] (Some body) [mkHeader (lit "Cookie") (lit "session=" ++ token_of i)] (lit "10.1.3.7").

Abbreviation users_answer h i p body :=
  (serve example_config (true, true) h (users_call i (lit p) (lit body)) http_response_init users_world).

Definition answered (r : option (http_response_t * world)) : option (Z * list (cstr * Z)) :=
  (λ a, (status_code a.1, match store a.2 with Some t => (λ u, (u_username u, u_role u)) <$> users t | None => [] end)) <$> r.

Example user_renames_itself :
  answered (users_answer UsersUpdate 2 "2" "username:robert") = Some (200, [(lit "admin", 0); (lit "robert", 1)]).
Proof. vm_compute. reflexivity. Qed.

Example user_keeps_its_role :
  answered (users_answer UsersUpdate 2 "2" "role:0") = Some (403, [(lit "admin", 0); (lit "bob", 1)]).
Proof. vm_compute. reflexivity. Qed.

(** What the deletion refuses, the update does: the last administrator gives up its role. *)
Example last_admin_steps_down :
  answered (users_answer UsersUpdate 1 "1" "role:1") = Some (200, [(lit "admin", 1); (lit "bob", 1)]).
Proof. vm_compute. reflexivity. Qed.

(** The path of the lock has room for ids of one digit. *)
Example lock_of_ten_unreachable :
  path_user (users_call 1 (lit "9/password-lock") []) 16 = Some 9 ∧
  path_user (users_call 1 (lit "10/password-lock") []) 16 = None ∧
  path_user (users_call 1 (lit "1000000/password") []) 16 = None.
Proof. vm_compute. split_and!; reflexivity. Qed.

Definition hash_of (i : Z) (w : world) : option cstr :=
  t ← store w; u_password_hash <$> head (List.filter (λ u, u_id u =? i) (users t)).

(** An update that is refused has changed the password. *)
Example refused_update_changes_password :
  (λ a, (status_code a.1, bool_decide (hash_of 2 a.2 = hash_of 2 users_world)))
    <$> users_answer UsersUpdate 1 "2" "password:longenough,role:7" = Some (400, false).
Proof. vm_compute. reflexivity. Qed.

Lemma rights_not_escalated_witness :
  ∃ res' w', users_answer UsersUpdate 2 "2" "username:robert" = Some (res', w') ∧
    ((∃ u ip, granted (users_call 2 (lit "2") (lit "username:robert")) ip users_tables u ∧ role u = USER_ROLE_ADMIN) ∨
     ∃ t', store w' = Some t' ∧ u_id <$> users t' = u_id <$> users users_tables ∧
       ∀ r', r' ∈ users t' → ∃ r, r ∈ users users_tables ∧ rights r' = rights r ∧
         ((∃ l, r' = logged l r) ∨
          ∃ u ip, granted (users_call 2 (lit "2") (lit "username:robert")) ip users_tables u ∧ id u = u_id r)).
Proof.
  assert (E : ∃ res' w', users_answer UsersUpdate 2 "2" "username:robert" = Some (res', w')).
  { destruct (users_answer UsersUpdate 2 "2" "username:robert") as [[res' w']|] eqn:E; [eauto|]. exfalso. revert E. vm_compute. discriminate. }
  destruct E as (res' & w' & E). exists res', w'. split; [exact E|].
  exact (rights_not_escalated example_config (true, true) _ _ _ _ _ _ users_tables eq_refl users_store users_ok E).
Defined.

Abbreviation deletion p := (handle_users_delete example_config (true, true) (users_call 1 (lit p) []) http_response_init users_world).

Definition the_admin : user_row :=
  default (mkUserRow 0 [] [] [] 0 None 0 0 None 0 None 0 None 0 None None) (head (users users_tables)).

Lemma last_admin_not_deleted_witness :
  ∃ res' w', deletion "2" = Some (res', w') ∧
    ∃ t' r', store w' = Some t' ∧ r' ∈ users t' ∧ u_role r' = USER_ROLE_ADMIN.
Proof.
  assert (E : ∃ res' w', deletion "2" = Some (res', w')).
  { destruct (deletion "2") as [[res' w']|] eqn:E; [eauto|]. exfalso. revert E. vm_compute. discriminate. }
  destruct E as (res' & w' & E). exists res', w'. split; [exact E|].
  refine (last_admin_not_deleted example_config (true, true) _ _ _ _ _ users_tables the_admin eq_refl users_store users_ok _ _ E).
  - apply list_elem_of_lookup_2 with 0%nat. vm_compute. reflexivity.
  - vm_compute. reflexivity.
Defined.
