(* ===== verification/RecordingRequests.v ===== *)
(** * Requests about single recordings

    The handlers of [src/web/api_handlers_recordings_backend_agnostic.c] (one recording,
    its deletion, the deletion of many by a worker thread),
    [api_handlers_recordings_playback.c], [api_handlers_recordings_download.c],
    [api_handlers_recordings_files_backend_agnostic.c], and those of
    [api_handlers_retention.c] about recordings.  They act on the world of [Storage], the
    jobs of [BatchDelete] and the accounts behind [AuthStore]; a worker that was started is
    a value, and runs as a whole.  Of the bodies of answers only the data are kept. *)
From Stdlib Require Import ZArith Lia Bool.
From Stdlib Require Import Strings.Byte.
From stdpp Require Import base numbers list strings sets.
From S2P Require Import Prelude.
From S2P Require Import Sql.
From S2P Require Import Libc.
From S2P Require Import CFloat.
From S2P Require Import CStrings.
From S2P Require Import Paths.
From S2P Require Import Urls.
From S2P Require Import Auth.
From S2P Require Import HttpMessage.
From S2P Require Import HttpUtils.
From S2P Require Import BatchDelete.
From S2P Require Import Json.
From S2P Require Import LoginSafety.
From S2P Require Import Recordings.
From S2P Require Import RecordingList.
From S2P Require Import Storage.
#[local] Open Scope Z_scope.

(** ** Actions *)

(** [J] are the documents of the requests. *)
Record server (F D J : Type) := mkServer {
  accounts : D;
  store : world F;
  jobs : jobs_state;
  workers : list (cstr * J)
}.
Arguments mkServer {F D J} _ _ _ _.
Arguments accounts {F D J} _.
Arguments store {F D J} _.
Arguments jobs {F D J} _.
Arguments workers {F D J} _.

(** [None] is undefined behaviour. *)
Definition action (F D J A : Type) : Type := server F D J → option (A * server F D J).

#[global] Instance action_ret F D J : MRet (action F D J) := λ A a s, Some (a, s).
#[global] Instance action_bind F D J : MBind (action F D J) := λ A B k m s, m s ≫= λ r, k r.1 r.2.

(** What a request is answered. *)
Inductive reply :=
  | Rejected (status : Z)
  | Accepted (status : Z)
  | Details (recording : recording_metadata_t)
  | JobStarted (job_id : cstr)
  | JobProgress (progress : batch_delete_progress_t)
  | SendFile (path content_type extra_headers : cstr)
  | ProtectedCount (count : Z)
  | BatchProtected (success_count fail_count : Z)
  | FileExists (exists_ : bool)
  | FileDeleted (existed : bool).

Section actions.
Context {F D J : Type}.

Definition on_store {A} (m : M F A) : action F D J A :=
  λ s, '(a, w) ← m (store s); Some (a, mkServer (accounts s) w (jobs s) (workers s)).

Definition on_accounts {A} (m : D → option (A * D)) : action F D J A :=
  λ s, '(a, d) ← m (accounts s); Some (a, mkServer d (store s) (jobs s) (workers s)).

Definition on_jobs {A} (m : jobs_state → A * jobs_state) : action F D J A :=
  λ s, let '(a, j) := m (jobs s) in Some (a, mkServer (accounts s) (store s) j (workers s)).

Definition start_worker (w : cstr * J) : action F D J () :=
  λ s, Some ((), mkServer (accounts s) (store s) (jobs s) (workers s ++ [w])).

Definition undefined_action {A} : action F D J A := λ s, None.
End actions.

Section requests.
Context {F D : Type} {FS : FileSystem F} {SQ : Sqlite} {SL : SqlLike} {EN : Environment}.
Context {IC : InetConversions} {AS : AuthStore D} {CJ : CJson}.
(** [parse_time] is [strptime] on the four formats, then [timegm].  [random_at n] are the
    bytes that [getrandom] gives at reading [n]; the last two are the tables that the
    filters of a deletion join with the recordings. *)
Context (cfg : config_t) (parse_time : cstr → option Z) (random_at : nat → list byte).
Context (detection_rows : list detection_row) (recording_tags : list (Z * cstr)).

Abbreviation act := (action F D cJSON).

(** ** The recording in the path *)

(** [strtoull] of what follows the prefix, up to the suffix; 0 is no id. *)
Definition recording_id (req : http_request_t) (prefix : string) (suffix : cstr) : option Z :=
  id_str ← http_request_extract_path_param req (lit prefix) 32;
  let id_str := match suffix with
                | [] => id_str
                | _ => match strstr suffix id_str with Some (a, _) => a | None => id_str end
                end in
  let id := strtoull10 id_str in
  if id =? 0 then None else Some id.

Definition with_recording_id (req : http_request_t) (prefix : string) (suffix : cstr) (k : Z → act reply) : act reply :=
  match recording_id req prefix suffix with
  | None => mret (Rejected 400)
  | Some id => k id
  end.

Definition find_recording (id : Z) : M F (option recording_metadata_t) :=
  r ← sql; o ← get_db; mret (get_recording_metadata_by_id r id o).

(** The labels of the detections of the recording are left out. *)
Definition handle_get_recording (shutting_down : bool) (req : http_request_t) : act reply :=
  if shutting_down then mret (Rejected 503) else
  with_recording_id req "/api/recordings/" [] (λ id,
    found ← on_store (find_recording id);
    mret match found with Some recording => Details recording | None => Rejected 404 end).

(** ** Playback and download *)

(** Who may see a recording: [None] when the request is refused. *)
Definition viewer (req : http_request_t) : act bool :=
  if negb (web_auth_enabled cfg) then mret true else
  user ← on_accounts (if demo_mode cfg then httpd_check_viewer_access cfg req else httpd_get_authenticated_user cfg req);
  mret (match user with Some _ => true | None => false end).

Definition video_type (file_path : cstr) : cstr :=
  match split_last Byte.x2e file_path with
  | None => lit "video/mp4"
  | Some (_, ext) =>
      if strcaseeq ext (lit "mp4") then lit "video/mp4"
      else if strcaseeq ext (lit "mkv") then lit "video/x-matroska"
      else if strcaseeq ext (lit "webm") then lit "video/webm"
      else if strcaseeq ext (lit "avi") then lit "video/x-msvideo"
      else lit "video/mp4"
  end.

Definition crlf : cstr := [Byte.x0d; Byte.x0a].

Definition playback_headers : cstr :=
  lit "Accept-Ranges: bytes" ++ crlf ++ lit "Access-Control-Allow-Origin: *" ++ crlf ++
  lit "Access-Control-Allow-Methods: GET, OPTIONS" ++ crlf ++
  lit "Access-Control-Allow-Headers: Range, Origin, Content-Type, Accept" ++ crlf.

(** The file of a recording; [stat] finds what [access] finds. *)
Definition send_recording (headers : cstr → cstr) (m : recording_metadata_t) : M F reply :=
  d ← get_disk;
  mret (if file_exists d (file_path m) then SendFile (file_path m) (video_type (file_path m)) (headers (file_path m))
        else Rejected 404).

Definition handle_recordings_playback (req : http_request_t) : act reply :=
  allowed ← viewer req;
  if negb allowed then mret (Rejected 401) else
  with_recording_id req "/api/recordings/play/" [] (λ id,
    on_store (
      found ← find_recording id;
      match found with
      | None => mret (Rejected 404)
      | Some m => if empty (file_path m) then mret (Rejected 500) else send_recording (λ _, playback_headers) m
      end)).

Definition attachment_header (file_path : cstr) : cstr :=
  let filename := match split_last slash file_path with Some (_, name) => name | None => file_path end in
  strcpy_trunc 512 (lit "Content-Disposition: attachment; filename=" ++ Byte.x22 :: filename ++ Byte.x22 :: crlf).

Definition handle_recordings_download (req : http_request_t) : act reply :=
  allowed ← viewer req;
  if negb allowed then mret (Rejected 401) else
  with_recording_id req "/api/recordings/download/" [] (λ id,
    on_store (
      found ← find_recording id;
      match found with
      | None => mret (Rejected 404)
      | Some m => send_recording attachment_header m
      end)).

(** ** Deletion *)

(** [true] for 1. *)
Definition check_delete_permission (req : http_request_t) : act bool :=
  user ← on_accounts (httpd_get_authenticated_user cfg req);
  mret match user with
       | Some u => (role u =? USER_ROLE_ADMIN) || (role u =? USER_ROLE_USER)
       | None => false
       end.

(** The row, then the file, whose failure is only logged, then what goes with it. *)
Definition delete_row_and_file (id : Z) (m : recording_metadata_t) : M F bool :=
  ok ← delete_metadata id;
  if negb ok then mret false else
  d ← get_disk;
  let file_path_copy := strcpy_trunc MAX_PATH_LENGTH (file_path m) in
  let '(d', u) := unlink d file_path_copy in
  put_disk d';;
  (match u with Unlinked => say (EvUnlink file_path_copy id) | _ => mret () end);;
  say (EvThumbnails id);;
  say (EvCacheRemove (stream_name m) (size_bytes m));;
  mret true.

Definition handle_delete_recording (req : http_request_t) : act reply :=
  permitted ← check_delete_permission req;
  if negb permitted then mret (Rejected 403) else
  with_recording_id req "/api/recordings/" [] (λ id,
    on_store (
      found ← find_recording id;
      match found with
      | None => mret (Rejected 404)
      | Some m =>
          ok ← delete_row_and_file id m;
          mret (if ok : bool then Accepted 200 else Rejected 500)
      end)).

(** *** Many at once *)

Definition report (job_id : cstr) (current succeeded failed : Z) (message : cstr) : act () :=
  now ← on_store time;
  _ ← on_jobs (λ st, batch_delete_progress_update now st (Some job_id) current succeeded failed (Some message));
  mret ().

Definition complete (job_id : cstr) (succeeded failed : Z) : act () :=
  now ← on_store time;
  _ ← on_jobs (λ st, batch_delete_progress_complete now st (Some job_id) succeeded failed);
  mret ().

Definition fail_job (job_id : cstr) (message : string) : act () :=
  now ← on_store time;
  _ ← on_jobs (λ st, batch_delete_progress_error now st (Some job_id) (Some (lit message)));
  mret ().

(** After every tenth, and the last. *)
Definition report_step (job_id : cstr) (done_ count succeeded failed : Z) : act () :=
  if (cmod done_ 10 =? 0) || (done_ =? count)
  then report job_id done_ succeeded failed
         (strcpy_trunc 256 (lit "Deleting recordings... " ++ decimal done_ ++ lit "/" ++ decimal count))
  else mret ().

Definition delete_by_id (id : Z) : M F bool :=
  found ← find_recording id;
  match found with None => mret false | Some m => delete_row_and_file id m end.

(** The loop over the elements of the array; [i] of them are done.  An element that is no
    number is counted and nothing is reported; the conversion of a number that
    is not one of [uint64_t] is undefined. *)
Fixpoint delete_ids (job_id : cstr) (count i : Z) (items : list cJSON) (succeeded failed : Z) : act (Z * Z) :=
  match items with
  | [] => mret (succeeded, failed)
  | item :: items =>
      match double_value item with
      | None => delete_ids job_id count (i + 1) items succeeded (failed + 1)
      | Some v =>
          match f_to_u64 v with
          | None => undefined_action
          | Some id =>
              ok ← on_store (delete_by_id id);
              let succeeded := if ok : bool then succeeded + 1 else succeeded in
              let failed := if ok : bool then failed else failed + 1 in
              report_step job_id (i + 1) count succeeded failed;;
              delete_ids job_id count (i + 1) items succeeded failed
          end
      end
  end.

Fixpoint delete_found (job_id : cstr) (count i : Z) (found : list recording_metadata_t) (succeeded failed : Z) : act (Z * Z) :=
  match found with
  | [] => mret (succeeded, failed)
  | m :: found =>
      ok ← on_store (delete_row_and_file (id m) m);
      let succeeded := if ok : bool then succeeded + 1 else succeeded in
      let failed := if ok : bool then failed else failed + 1 in
      report_step job_id (i + 1) count succeeded failed;;
      delete_found job_id count (i + 1) found succeeded failed
  end.

Definition member (j : cJSON) (name : string) : option cJSON := cJSON_GetObjectItem j (lit name).

(** A text member, cut to the array it is copied to. *)
Definition text_member (j : option cJSON) (size : nat) : cstr :=
  match j ≫= string_value with Some s => strcpy_trunc size s | None => [] end.

Definition nonempty_text (s : cstr) : option cstr := if empty s then None else Some s.

Definition read_filter (filter : cJSON) : filters :=
  let time_of name := default 0 (s ← member filter name ≫= string_value; parse_time s) in
  let stream := match member filter "stream_name" with Some j => Some j | None => member filter "stream" end in
  let detection_label := text_member (member filter "detection_label") 256 in
  let has_detection := default 0 (member filter "detection" ≫= int_value) in
  let has_detection := if negb (empty detection_label) then 1 else has_detection in
  let protected_filter := match member filter "protected" ≫= int_value with
                          | Some p => if p <? -1 then -1 else if p >? 1 then 1 else p
                          | None => -1
                          end in
  mkFilters (time_of "start") (time_of "end") (nonempty_text (text_member stream 256)) has_detection
    (nonempty_text detection_label) protected_filter [] (nonempty_text (text_member (member filter "tag") 512))
    (nonempty_text (text_member (member filter "capture_method") 128)).

Definition library_of (t : table) : library_db := mkLibraryDb t detection_rows recording_tags.

Definition count_matching (f : filters) : M F Z :=
  r ← sql; o ← get_db; mret (get_recording_count r f (library_of <$> o)).

Definition list_matching (f : filters) (limit : Z) : M F (list recording_metadata_t) :=
  r ← sql; o ← get_db;
  mret (default [] (get_recording_metadata_paginated r f (Some (lit "id")) (Some (lit "asc")) true limit 0 (library_of <$> o))).

Definition delete_by_filter (job_id : cstr) (filter : cJSON) : act () :=
  let f := read_filter filter in
  total_count ← on_store (count_matching f);
  if total_count <=? 0 then complete job_id 0 0 else
  now ← on_store time;
  _ ← on_jobs (λ st, batch_delete_progress_set_total now st (Some job_id) total_count);
  report job_id 0 0 0 (lit "Loading recordings to delete...");;
  allocated ← on_store calloc;
  if negb allocated then fail_job job_id "Failed to allocate memory" else
  found ← on_store (list_matching f total_count);
  match found with
  | [] => complete job_id 0 0
  | _ =>
      counts ← delete_found job_id (Z.of_nat (length found)) 0 found 0 0;
      complete job_id counts.1 counts.2
  end.

Definition batch_delete_worker_thread (job_id : cstr) (json : cJSON) : act () :=
  match member json "ids" ≫= array_items with
  | Some items =>
      report job_id 0 0 0 (lit "Starting batch delete operation...");;
      counts ← delete_ids job_id (Z.of_nat (length items)) 0 items 0 0;
      complete job_id counts.1 counts.2
  | None =>
      match member json "filter" with
      | Some filter => if is_object filter then delete_by_filter job_id filter else fail_job job_id "Invalid request format"
      | None => fail_job job_id "Invalid request format"
      end
  end.

(** How many are to be deleted; 0 when a filter says so. *)
Definition batch_size (json : cJSON) : option Z :=
  match member json "ids" ≫= array_items with
  | Some [] => None
  | Some items => Some (Z.of_nat (length items))
  | None => match member json "filter" with
            | Some filter => if is_object filter then Some 0 else None
            | None => None
            end
  end.

Definition create_job (total : Z) : act (Z * option cstr) :=
  now ← on_store time; n ← on_store tick;
  on_jobs (λ st, let '(r, id, st) := batch_delete_progress_create_job now (random_at n) st total true in ((r, id), st)).

(** The allocation of the data of the thread, and its creation, are readings of
    [memory_at]. *)
Definition handle_batch_delete_recordings (req : http_request_t) : act reply :=
  permitted ← check_delete_permission req;
  if negb permitted then mret (Rejected 403) else
  allocated ← on_store calloc;
  match httpd_parse_json_body allocated req with
  | None => mret (Rejected 400)
  | Some json =>
      match batch_size json with
      | None => mret (Rejected 400)
      | Some total_count =>
          created ← create_job total_count;
          match created with
          | (_, None) => mret (Rejected 500)
          | (_, Some job_id) =>
              thread_data ← on_store calloc;
              if negb thread_data then fail_job job_id "Failed to allocate memory";; mret (Rejected 500) else
              thread ← on_store calloc;
              if negb thread then fail_job job_id "Failed to create worker thread";; mret (Rejected 500) else
              start_worker (job_id, json);;
              mret (JobStarted job_id)
          end
      end
  end.

Definition handle_batch_delete_progress (req : http_request_t) : act reply :=
  match http_request_extract_path_param req (lit "/api/recordings/batch-delete/progress/") 64 with
  | None => mret (Rejected 400)
  | Some job_id =>
      found ← on_jobs (λ st, (batch_delete_progress_get st (Some job_id), st));
      mret match found with Some progress => JobProgress progress | None => Rejected 404 end
  end.

(** ** Protection and retention *)

(** A statement on the table; [false] without a database. *)
Definition update_table (f : sql_run → table → bool * table) : M F bool :=
  r ← sql; o ← get_db;
  match o with
  | None => mret false
  | Some t => let '(ok, t') := f r t in put_db t';; mret ok
  end.

Definition body_of (req : http_request_t) : act (option cJSON) :=
  allocated ← on_store calloc; mret (httpd_parse_json_body allocated req).

Definition handle_put_recording_protect (req : http_request_t) : act reply :=
  with_recording_id req "/api/recordings/" (lit "/protect") (λ id,
    json ← body_of req;
    match json ≫= λ j, bool_item j "protected" with
    | None => mret (Rejected 400)
    | Some protected =>
        ok ← on_store (update_table (λ r, set_recording_protected r id protected));
        mret (if ok : bool then Accepted 200 else Rejected 500)
    end).

Definition handle_put_recording_retention (req : http_request_t) : act reply :=
  with_recording_id req "/api/recordings/" (lit "/retention") (λ id,
    json ← body_of req;
    match json ≫= λ j, member j "retention_days" ≫= int_value with
    | None => mret (Rejected 400)
    | Some days =>
        ok ← on_store (update_table (λ r, set_recording_retention_override r id days));
        mret (if ok : bool then Accepted 200 else Rejected 500)
    end).

Definition handle_get_protected_recordings (req : http_request_t) : act reply :=
  let stream_name := default [] (http_request_get_query_param req (lit "stream") 64) in
  count ← on_store (r ← sql; o ← get_db; mret (get_protected_recordings_count r (nonempty_text stream_name) o));
  mret (if count <? 0 then Rejected 500 else ProtectedCount count).

Fixpoint protect_ids (protected : bool) (items : list cJSON) (succeeded failed : Z) : act (Z * Z) :=
  match items with
  | [] => mret (succeeded, failed)
  | item :: items =>
      match double_value item with
      | None => protect_ids protected items succeeded (failed + 1)
      | Some v =>
          match f_to_u64 v with
          | None => undefined_action
          | Some id =>
              ok ← on_store (update_table (λ r, set_recording_protected r id protected));
              protect_ids protected items (if ok : bool then succeeded + 1 else succeeded)
                (if ok : bool then failed else failed + 1)
          end
      end
  end.

Definition handle_batch_protect_recordings (req : http_request_t) : act reply :=
  json ← body_of req;
  match json ≫= λ j, items ← member j "ids" ≫= array_items; p ← bool_item j "protected"; Some (items, p) with
  | None => mret (Rejected 400)
  | Some (items, protected) =>
      counts ← protect_ids protected items 0 0;
      mret (BatchProtected counts.1 counts.2)
  end.

(** ** Files *)

Definition path_parameter (req : http_request_t) : option cstr := http_request_get_query_param req (lit "path") MAX_PATH_LENGTH.

(** The size and the time of the file are left out. *)
Definition handle_check_recording_file (req : http_request_t) : act reply :=
  match path_parameter req with
  | None => mret (Rejected 400)
  | Some path => d ← on_store get_disk; mret (FileExists (file_exists d path))
  end.

Definition handle_delete_recording_file (req : http_request_t) : act reply :=
  match path_parameter req with
  | None => mret (Rejected 400)
  | Some path =>
      on_store (
        d ← get_disk;
        let '(d', u) := unlink d path in
        put_disk d';;
        match u with
        | Unlinked => say (EvUnlinkUntracked path);; mret (FileDeleted true)
        | NoEntry => mret (FileDeleted false)
        | Refused => mret (Rejected 500)
        end)
  end.
End requests.

(** ** What a request may change *)

Definition permitted {D} `{InetConversions} `{AuthStore D} (cfg : config_t) (req : http_request_t) (d : D) : Prop :=
  ∃ u d', httpd_get_authenticated_user cfg req d = Some (Some u, d') ∧ (role u = USER_ROLE_ADMIN ∨ role u = USER_ROLE_USER).

(** The requests of this file. *)
Inductive recording_call :=
  | GetRecording (shutting_down : bool)
  | Playback
  | Download
  | DeleteRecording
  | BatchDelete
  | BatchProgress
  | PutProtect
  | PutRetention
  | GetProtected
  | BatchProtect
  | CheckFile
  | DeleteFile.

Section safety.
Context {F D : Type} {FS : FileSystem F} {SQ : Sqlite} {SL : SqlLike} {EN : Environment}.
Context {IC : InetConversions} {AS : AuthStore D} {CJ : CJson}.
Context (cfg : config_t) (random_at : nat → list byte).

Abbreviation act := (action F D cJSON).

Definition handle (c : recording_call) (req : http_request_t) : act reply :=
  match c with
  | GetRecording shutting_down => handle_get_recording shutting_down req
  | Playback => handle_recordings_playback cfg req
  | Download => handle_recordings_download cfg req
  | DeleteRecording => handle_delete_recording cfg req
  | BatchDelete => handle_batch_delete_recordings cfg random_at req
  | BatchProgress => handle_batch_delete_progress req
  | PutProtect => handle_put_recording_protect req
  | PutRetention => handle_put_recording_retention req
  | GetProtected => handle_get_protected_recordings req
  | BatchProtect => handle_batch_protect_recordings req
  | CheckFile => handle_check_recording_file req
  | DeleteFile => handle_delete_recording_file req
  end.

Definition row_ids (w : world F) : option (list Z) := (λ t, c_id <$> rows t) <$> db w.

(** No file is touched and no row comes or goes. *)
Definition gentle {A} (m : M F A) : Prop :=
  ∀ w a w', m w = Some (a, w') → disk w' = disk w ∧ row_ids w' = row_ids w.

Lemma gentle_ret {A} (a : A) : gentle (mret a).
Proof. by intros w b w' [= <- <-]. Qed.

Lemma gentle_bind {A B} (m : M F A) (k : A → M F B) : gentle m → (∀ a, gentle (k a)) → gentle (m ≫= k).
Proof.
  intros Hm Hk w b w'. unfold mbind, M_bind. destruct (m w) as [[a w1]|] eqn:E; [|done]. cbn. intros E'.
  apply Hm in E as [E1 E2]. apply Hk in E' as [-> ->]. by rewrite E1, E2.
Qed.

Lemma gentle_tick : gentle tick.
Proof. by intros w a w' [= <- <-]. Qed.

Lemma gentle_get_db : gentle get_db.
Proof. by intros w a w' [= <- <-]. Qed.

Lemma gentle_get_disk : gentle get_disk.
Proof. by intros w a w' [= <- <-]. Qed.

Lemma gentle_reading {A} (f : nat → A) : gentle (n ← tick; mret (f n)).
Proof. apply gentle_bind; [apply gentle_tick|]. intros n. apply gentle_ret. Qed.

Lemma gentle_update f : (∀ r t, c_id <$> rows (f r t).2 = c_id <$> rows t) → gentle (update_table f).
Proof.
  intros Hf w a w'. unfold update_table, sql, tick, get_db, mbind, M_bind, mret, M_ret. cbn.
  destruct (db w) as [t|] eqn:Ed; cbn.
  - specialize (Hf (sql_at (readings w)) t). destruct (f _ t) as [ok t'] eqn:E. cbn. intros [= <- <-]. cbn. split; [done|].
    unfold row_ids. cbn. rewrite Ed. cbn in *. by rewrite Hf.
  - intros [= <- <-]. split; [done|]. unfold row_ids. cbn. by rewrite Ed.
Qed.

(** Of an action: no worker is started either. *)
Definition mild {A} (m : act A) : Prop :=
  ∀ s a s', m s = Some (a, s') →
    workers s' = workers s ∧ disk (store s') = disk (store s) ∧ row_ids (store s') = row_ids (store s).

Lemma mild_ret {A} (a : A) : mild (mret a).
Proof. by intros s b s' [= <- <-]. Qed.

Lemma mild_bind {A B} (m : act A) (k : A → act B) : mild m → (∀ a, mild (k a)) → mild (m ≫= k).
Proof.
  intros Hm Hk s b s'. unfold mbind, action_bind. destruct (m s) as [[a s1]|] eqn:E; [|done]. cbn. intros E'.
  apply Hm in E as (E1 & E2 & E3). apply Hk in E' as (-> & -> & ->). by rewrite E1, E2, E3.
Qed.

Lemma mild_store {A} (m : M F A) : gentle m → mild (on_store m).
Proof.
  intros Hm s a s'. unfold on_store. destruct (m (store s)) as [[b w]|] eqn:E; [|done]. cbn. intros [= <- <-].
  by apply Hm in E as [E1 E2].
Qed.

Lemma mild_accounts {A} (m : D → option (A * D)) : mild (on_accounts m).
Proof. intros s a s'. unfold on_accounts. destruct (m (accounts s)) as [[b d]|]; [|done]. by intros [= <- <-]. Qed.

Lemma mild_jobs {A} (m : jobs_state → A * jobs_state) : mild (on_jobs m).
Proof. intros s a s'. unfold on_jobs. destruct (m (jobs s)) as [b j]. by intros [= <- <-]. Qed.

Lemma mild_undefined {A} : mild (undefined_action (A := A)).
Proof. done. Qed.

Lemma mild_recording_id req prefix suffix k : (∀ i, mild (k i)) → mild (with_recording_id req prefix suffix k).
Proof. intros Hk. unfold with_recording_id. case_match; [apply Hk|apply mild_ret]. Qed.

Create HintDb mild.
#[local] Hint Resolve gentle_ret gentle_tick gentle_get_db gentle_get_disk mild_ret mild_accounts mild_jobs mild_undefined : mild.

(** Through the binds and branches of a handler. *)
#[local] Ltac mild :=
  repeat match goal with
  | |- _ => solve [eauto with mild]
  | |- mild (_ ≫= _) => apply mild_bind; [|intros ?]
  | |- gentle (_ ≫= _) => apply gentle_bind; [|intros ?]
  | |- mild (on_store _) => apply mild_store
  | |- mild (with_recording_id _ _ _ _) => apply mild_recording_id; intros ?
  | |- gentle (update_table _) => apply gentle_update; intros ? ?
  | |- mild (let '(_, _) := ?x in _) => destruct x
  | |- mild (match ?x with _ => _ end) => destruct x
  | |- gentle (match ?x with _ => _ end) => destruct x
  end.

Lemma update_row_ids r i f t : (∀ x, c_id (f x) = c_id x) → c_id <$> rows (update_row r i f t).2 = c_id <$> rows t.
Proof.
  intros Hf. unfold update_row. destruct r; [done|done|]. cbn. rewrite <-list_fmap_compose. apply list_fmap_ext.
  intros _ x _. cbn. by case_match.
Qed.

Lemma protect_ids_mild protected items a b : mild (protect_ids (D := D) protected items a b).
Proof.
  revert a b. induction items as [|item items IH]; intros a b; cbn [protect_ids]; mild. by apply update_row_ids.
Qed.

Lemma check_permission_spec req (s : server F D cJSON) b s' :
  check_delete_permission cfg req s = Some (b, s') → b = true → permitted cfg req (accounts s).
Proof.
  unfold check_delete_permission, on_accounts, mbind, action_bind. cbn.
  destruct (httpd_get_authenticated_user cfg req (accounts s)) as [[[u|] d]|] eqn:E; cbn; [|by intros [= <- _]|done].
  intros [= <- _] [Hr|Hr]%orb_true_iff; unbool; exists u, d; auto.
Qed.

(** What follows the check of [check_delete_permission]. *)
Lemma after_permission req k s r s' :
  (p ← check_delete_permission cfg req; if negb p then mret (Rejected 403) else k) s = Some (r, s') →
  permitted cfg req (accounts s) ∨
  (workers s' = workers s ∧ disk (store s') = disk (store s) ∧ row_ids (store s') = row_ids (store s)).
Proof.
  unfold mbind at 1, action_bind at 1. destruct (check_delete_permission cfg req s) as [[b s1]|] eqn:E; [|done].
  cbn. destruct b; [intros _; left; by eapply check_permission_spec|]. intros [= <- <-]. right.
  assert (Hm : mild (check_delete_permission (F := F) cfg req)) by (unfold check_delete_permission; mild). by apply Hm in E.
Qed.

End safety.

(** ** Deletion when nothing fails *)

Section deletion.
Context {F D : Type} {FS : FileSystem F} {SQ : Sqlite} {SL : SqlLike} {EN : Environment}.
Context {IC : InetConversions} {AS : AuthStore D} {CJ : CJson}.
Hypothesis Hsql : ∀ n, sql_at n = Completes.

Definition remaining (ids : list Z) (t : table) : list row := filter (λ x, c_id x ∉ s64 <$> ids) (rows t).

Lemma filter_id_none i (l : list row) :
  filter (λ x, c_id x = i) l = [] → i ∉ c_id <$> l ∧ filter (λ x, c_id x ≠ i) l = l.
Proof.
  induction l as [|x l IH]; [intros _; split; [apply not_elem_of_nil|done]|]. rewrite !filter_cons.
  destruct (decide (c_id x = i)) as [|Hx]; [done|]. intros [Hi E]%IH.
  rewrite decide_True by done. rewrite E. split; [|done]. rewrite fmap_cons, not_elem_of_cons. auto.
Qed.

Lemma filter_id_some i (l : list row) m k : filter (λ x, c_id x = i) l = m :: k → i ∈ c_id <$> l.
Proof.
  intros E. assert (Hm : m ∈ filter (λ x, c_id x = i) l) by (rewrite E; by left).
  apply list_elem_of_filter in Hm as [<- Hm]. by apply list_elem_of_fmap_2.
Qed.

(** The rows that are left after a deletion. *)
Lemma delete_by_id_spec w t i :
  db w = Some t →
  ∃ w' t', delete_by_id i w = Some (bool_decide (s64 i ∈ c_id <$> rows t), w') ∧ db w' = Some t' ∧
    rows t' = filter (λ x, c_id x ≠ s64 i) (rows t).
Proof.
  intros Ht. unfold delete_by_id, find_recording, sql, tick, get_db, mbind, M_bind, mret, M_ret. cbn. rewrite !Ht, !Hsql. cbn.
  destruct (filter (λ x, c_id x = s64 i) (rows t)) as [|m ms] eqn:Ef; cbn.
  - apply filter_id_none in Ef as [Hi E]. rewrite bool_decide_eq_false_2 by done. eexists _, t. by split_and!.
  - apply filter_id_some in Ef. rewrite bool_decide_eq_true_2 by done.
    unfold delete_row_and_file, delete_metadata, sql, tick, get_db, put_db, get_disk, put_disk, say, mbind, M_bind, mret, M_ret. cbn.
    rewrite !Hsql. cbn.
    destruct (unlink (disk w) _) as [d' u]. cbn. destruct u; cbn; eexists _, _; (split_and!; [reflexivity|reflexivity|done]).
Qed.

(** The job is there, and is for [n]. *)
Definition tracked (job : cstr) (n : Z) (st : jobs_state) : Prop :=
  g_initialized st = true ∧ ∃ j, batch_delete_progress_get st (Some job) = Some j ∧ total j = n.

Lemma on_job_tracked job n st f :
  tracked job n st → (∀ j, job_id (f j) = job_id j ∧ is_active (f j) = is_active j) →
  ∃ j, batch_delete_progress_get (on_job st (Some job) f).2 (Some job) = Some (f j) ∧ total j = n ∧
       g_initialized (on_job st (Some job) f).2 = true.
Proof.
  intros (Hi & j & Hj & Hn) Hf. unfold batch_delete_progress_get, on_job in *. rewrite Hi in *. cbn [negb mbind option_bind] in *.
  destruct (find_job_by_id (g_jobs st) job) as [slot|] eqn:E; [|done]. cbn [mbind option_bind snd g_initialized g_jobs negb] in *.
  unfold find_job_by_id in *. rewrite find_idx_alter, E.
  - cbn [mbind option_bind]. rewrite list_lookup_alter_eq, Hj. by exists j.
  - intros x. unfold has_id. by rewrite !(proj1 (Hf x)), !(proj2 (Hf x)).
Qed.

Lemma progress_report_spec job n a b c message (s : server F D cJSON) :
  tracked job n (jobs s) →
  ∃ s', report job a b c message s = Some ((), s') ∧ tracked job n (jobs s') ∧ db (store s') = db (store s).
Proof.
  intros Ht. unfold report, on_store, on_jobs, time, tick, mbind, action_bind, M_bind, mret, M_ret, action_ret. cbn.
  destruct (batch_delete_progress_update _ _ _ _ _ _ _) as [r st'] eqn:E. eexists. split; [reflexivity|]. cbn. split; [|done].
  edestruct (on_job_tracked job n (jobs s)) as (j & Hj & Hn & Hi); [exact Ht| |].
  2: { unfold batch_delete_progress_update in E. rewrite E in Hj, Hi. cbn in Hj, Hi. split; [done|].
    eexists. split; [exact Hj|]. exact Hn. }
  done.
Qed.

Lemma report_step_spec job n i count b c (s : server F D cJSON) :
  tracked job n (jobs s) →
  ∃ s', report_step job i count b c s = Some ((), s') ∧ tracked job n (jobs s') ∧ db (store s') = db (store s).
Proof.
  intros Ht. unfold report_step. destruct (_ || _); [by apply progress_report_spec|]. by exists s.
Qed.

Lemma complete_spec job n b c (s : server F D cJSON) :
  tracked job n (jobs s) →
  ∃ s' j, complete job b c s = Some ((), s') ∧ db (store s') = db (store s) ∧
    batch_delete_progress_get (jobs s') (Some job) = Some j ∧
    status j = BATCH_DELETE_STATUS_COMPLETE ∧ current j = n ∧ total j = n ∧ succeeded j = b ∧ failed j = c.
Proof.
  intros Ht. unfold complete, on_store, on_jobs, time, tick, mbind, action_bind, M_bind, mret, M_ret, action_ret. cbn.
  destruct (batch_delete_progress_complete _ _ _ _ _) as [r st'] eqn:E.
  edestruct (on_job_tracked job n (jobs s)) as (j & Hj & Hn & Hi); [exact Ht| |].
  2: { unfold batch_delete_progress_complete in E. rewrite E in Hj. eexists _, _. split; [reflexivity|]. cbn in *.
    split; [done|]. split; [exact Hj|]. cbn. by subst. }
  done.
Qed.

(** An element of the array and the id it stands for. *)
Definition item_id (item : cJSON) (i : Z) : Prop := ∃ v, double_value item = Some v ∧ f_to_u64 v = Some i.

Lemma filter_remaining i (l : list row) :
  NoDup (c_id <$> l) →
  NoDup (c_id <$> filter (λ x, c_id x ≠ i) l) ∧
  (length (filter (λ x, c_id x ≠ i) l) + (if bool_decide (i ∈ c_id <$> l) then 1 else 0) = length l)%nat.
Proof.
  induction l as [|x l IH]; [done|]. rewrite fmap_cons, NoDup_cons. intros [Hx Hl]. destruct (IH Hl) as [Hn Hc].
  rewrite filter_cons. destruct (decide (c_id x ≠ i)) as [Hd|Hd].
  - split.
    + rewrite fmap_cons, NoDup_cons. split; [|done]. intros Hin. apply Hx.
      apply list_elem_of_fmap in Hin as (y & Ey & Hy). apply list_elem_of_filter in Hy as [_ Hy]. rewrite Ey. by apply list_elem_of_fmap_2.
    + cbn [length]. rewrite (bool_decide_ext _ (i ∈ c_id <$> l)) by (rewrite elem_of_cons; naive_solver). lia.
  - assert (c_id x = i) as <- by (destruct (decide (c_id x = i)); [done|by destruct Hd]).
    rewrite bool_decide_eq_true_2 by (by left). rewrite bool_decide_eq_false_2 in Hc by done. cbn [length]. split; [done|lia].
Qed.

Lemma delete_ids_spec job count n items ids i a b (s : server F D cJSON) t :
  db (store s) = Some t → NoDup (c_id <$> rows t) → Forall2 item_id items ids → tracked job n (jobs s) →
  ∃ k s' t', delete_ids job count i items a b s = Some ((a + k, b + (Z.of_nat (length items) - k)), s') ∧
    db (store s') = Some t' ∧ rows t' = remaining ids t ∧ Z.of_nat (length (rows t')) + k = Z.of_nat (length (rows t)) ∧
    tracked job n (jobs s').
Proof.
  intros Ht Hnd Hitems. revert i a b s t Ht Hnd. induction Hitems as [|item j items ids (v & Hv & Hj) _ IH]; intros i a b s t Ht Hnd Hjob; cbn [delete_ids].
  - exists 0, s, t. split_and!; [cbn; unfold mret, action_ret; do 3 f_equal; lia|done| |lia|done]. unfold remaining. cbn [fmap list_fmap].
    clear. induction (rows t) as [|x l IHl]; [done|]. rewrite filter_cons, decide_True by (apply not_elem_of_nil). by f_equal.
  - rewrite Hv, Hj. destruct (delete_by_id_spec (store s) t j Ht) as (w1 & t1 & Ed & Ht1 & Hr1).
    unfold mbind, action_bind, on_store. rewrite Ed. cbn. set (ok := bool_decide _).
    set (s1 := mkServer (accounts s) w1 (jobs s) (workers s)).
    destruct (report_step_spec job n (i + 1) count (if ok then a + 1 else a) (if ok then b else b + 1) s1 Hjob)
      as (s2 & Er & Hjob2 & Hdb2). unfold mbind, action_bind in Er. rewrite Er. cbn.
    destruct (filter_remaining (s64 j) (rows t) Hnd) as [Hnd1 Hc]. rewrite <-Hr1 in Hnd1, Hc.
    destruct (IH (i + 1) (if ok then a + 1 else a) (if ok then b else b + 1) s2 t1) as (k & s' & t' & El & Ht' & Hr' & Hk & Hjob');
      [by rewrite Hdb2|done|done|].
    exists (k + (if ok then 1 else 0)), s', t'. split_and!; [|done| | |done].
    + rewrite El. do 2 f_equal. unfold ok. cbn [length]. case_bool_decide; f_equal; lia.
    + rewrite Hr'. unfold remaining. rewrite Hr1, list_filter_filter. apply list_filter_iff. intros x.
      rewrite fmap_cons, not_elem_of_cons. naive_solver.
    + fold ok in Hc. destruct ok; lia.
Qed.

(** C11: A worker that is given ids deletes exactly the recordings that have them, and the
    job, which was created for as many, ends as complete with the number of recordings that
    went as [succeeded] and the rest as [failed]. *)
Theorem batch_delete_spec parse_time detection_rows recording_tags job json items ids (s : server F D cJSON) t :
  db (store s) = Some t → NoDup (c_id <$> rows t) →
  member json "ids" ≫= array_items = Some items → Forall2 item_id items ids →
  tracked job (Z.of_nat (length items)) (jobs s) →
  ∃ s' t' j, batch_delete_worker_thread parse_time detection_rows recording_tags job json s = Some ((), s') ∧
    db (store s') = Some t' ∧ rows t' = remaining ids t ∧
    batch_delete_progress_get (jobs s') (Some job) = Some j ∧ status j = BATCH_DELETE_STATUS_COMPLETE ∧
    current j = Z.of_nat (length items) ∧ total j = Z.of_nat (length items) ∧
    succeeded j = Z.of_nat (length (rows t)) - Z.of_nat (length (rows t')) ∧
    succeeded j + failed j = Z.of_nat (length items).
Proof.
  intros Ht Hnd Hids Hitems Hjob. unfold batch_delete_worker_thread. rewrite Hids.
  destruct (progress_report_spec job _ 0 0 0 (lit "Starting batch delete operation...") s Hjob) as (s1 & E1 & Hjob1 & Hdb1).
  destruct (delete_ids_spec job (Z.of_nat (length items)) (Z.of_nat (length items)) items ids 0 0 0 s1 t) as
    (k & s2 & t' & E2 & Ht' & Hr & Hk & Hjob2); [by rewrite Hdb1|done|done|done|].
  destruct (complete_spec job _ (0 + k) (0 + (Z.of_nat (length items) - k)) s2 Hjob2) as (s' & j & E3 & Hdb3 & Hj & Hs & Hc & Htot & Hsu & Hf).
  exists s', t', j. split_and!; try done; [|by rewrite Hdb3|lia|lia].
  unfold mbind, action_bind in *. rewrite E1. cbn. rewrite E2. cbn. exact E3.
Qed.
End deletion.

(** ** Files that are named in a request *)

Lemma url_char_plain c : url_char c → c ≠ Byte.x26.
Proof. intros [E|E] ->; by vm_compute in E. Qed.

Lemma escaped_path_parameter path req :
  no_nul path → (3 * length path < MAX_PATH_LENGTH)%nat →
  query_string req = lit "path=" ++ escape_loop path MAX_PATH_LENGTH → path_parameter req = Some path.
Proof.
  intros Hp Hl Hq. unfold path_parameter.
  rewrite (query_param_spec req (lit "path") [(lit "path", escape_loop path MAX_PATH_LENGTH)] MAX_PATH_LENGTH).
  - change (first_param (lit "path") [(lit "path", escape_loop path MAX_PATH_LENGTH)]) with (Some (escape_loop path MAX_PATH_LENGTH)).
    cbn [mbind option_bind].
    rewrite strcpy_trunc_id by (apply escape_loop_spec; unfold MAX_PATH_LENGTH; lia).
    destruct (escape_loop_decodes path MAX_PATH_LENGTH MAX_PATH_LENGTH Hp ltac:(unfold MAX_PATH_LENGTH; lia)) as (k & -> & Hk).
    by rewrite Hk.
  - constructor; [|done]. split; [by apply (bool_decide_unpack _)|]. split; [by apply (bool_decide_unpack _)|].
    intros Hin. pose proof (escape_loop_chars path MAX_PATH_LENGTH ltac:(unfold MAX_PATH_LENGTH; lia)) as Hc.
    eapply Forall_forall in Hc; [|exact Hin]. by apply url_char_plain in Hc.
  - by apply (bool_decide_unpack _).
  - unfold MAX_PATH_LENGTH. lia.
  - rewrite Hq. unfold Libc.join, query_param. cbn [fmap list_fmap concat fst snd app drop]. by rewrite app_nil_r.
Qed.

(** C12: A request may name any file whose path is short enough, and it is removed: the
    handler asks neither who it is from nor where the file lies. *)
Theorem named_file_deleted {F D} {FS : FileSystem F} {CJ : CJson} path req (s : server F D cJSON) :
  no_nul path → (3 * length path < MAX_PATH_LENGTH)%nat →
  query_string req = lit "path=" ++ escape_loop path MAX_PATH_LENGTH →
  ∃ r s', handle_delete_recording_file req s = Some (r, s') ∧ disk (store s') = (unlink (disk (store s)) path).1 ∧
    ((unlink (disk (store s)) path).2 = Unlinked → r = FileDeleted true ∧ EvUnlinkUntracked path ∈ log (store s')).
Proof.
  intros Hp Hl Hq. unfold handle_delete_recording_file. rewrite (escaped_path_parameter path req) by done.
  unfold on_store, get_disk, put_disk, say, mbind, M_bind, mret, M_ret. cbn.
  destruct (unlink (disk (store s)) path) as [d' u]. cbn. destruct u; cbn; eexists _, _; (split; [reflexivity|]); cbn; (split; [done|]); try done.
  intros _. split; [done|]. rewrite elem_of_app. right. by left.
Qed.

Lemma found_recording {F} {EN : Environment} (w : world F) t x i :
  (∀ n, sql_at n = Completes) → db w = Some t → well_formed t → x ∈ rows t → c_id x = s64 i →
  ∃ w', find_recording i w = Some (Some (fetch x), w') ∧ disk w' = disk w.
Proof.
  intros Hsql Ht Hwf Hx Hi. unfold find_recording, sql, tick, get_db, mbind, M_bind, mret, M_ret. cbn. rewrite Ht, Hsql. cbn [mbind option_bind delivered].
  destruct (filter (λ x, c_id x = s64 i) (rows t)) as [|m ms] eqn:Ef.
  - exfalso. apply filter_id_none in Ef as [Hn _]. apply Hn. rewrite <-Hi. by apply list_elem_of_fmap_2.
  - assert (m = x) as ->; [|by eexists].
    assert (Hm : m ∈ filter (λ x, c_id x = s64 i) (rows t)) by (rewrite Ef; by left).
    apply list_elem_of_filter in Hm as [Hmi Hm]. apply (well_formed_inj t); [done|done|done|congruence].
Qed.

Lemma send_existing {F} {FS : FileSystem F} headers m (w : world F) :
  file_exists (disk w) (file_path m) = true →
  send_recording headers m w = Some (SendFile (file_path m) (video_type (file_path m)) (headers (file_path m)), w).
Proof. intros Hex. unfold send_recording, get_disk, mbind, M_bind, mret, M_ret. cbv beta iota delta [mbind option_bind fst snd]. by rewrite Hex. Qed.

(** The file of a recording is sent to every user who is logged in, whatever the
    streams that the tags of the user leave visible. *)
Theorem hidden_recording_played {F D} {FS : FileSystem F} {EN : Environment} {IC : InetConversions} {AS : AuthStore D} {CJ : CJson}
    cfg streams req (s : server F D cJSON) u d' i t x p :
  web_auth_enabled cfg = true → demo_mode cfg = false →
  httpd_get_authenticated_user cfg req (accounts s) = Some (Some u, d') →
  has_tag_restriction u = true → c_stream_name x ∉ permitted_streams u streams →
  recording_id req "/api/recordings/play/" [] = Some i → (∀ n, sql_at n = Completes) →
  db (store s) = Some t → well_formed t → x ∈ rows t → c_id x = s64 i →
  p = strcpy_trunc MAX_PATH_LENGTH (c_file_path x) → p ≠ [] → file_exists (disk (store s)) p = true →
  ∃ s', handle_recordings_playback cfg req s = Some (SendFile p (video_type p) playback_headers, s').
Proof.
  destruct s as [d w0 js ws]. cbn [accounts store].
  intros Hauth Hdemo Hu _ _ Hid Hsql Ht Hwf Hx Hi -> Hp Hex. unfold handle_recordings_playback, viewer, with_recording_id.
  rewrite Hauth, Hdemo, Hid.
  destruct (found_recording w0 t x i Hsql Ht Hwf Hx Hi) as (w & Ef & Hd).
  cbv beta iota delta [mbind action_bind M_bind on_accounts on_store option_bind fst snd negb store accounts jobs workers mret action_ret].
  rewrite Hu. cbv beta iota. rewrite Ef. cbv beta iota.
  rewrite <-Hd in Hex. change (strcpy_trunc MAX_PATH_LENGTH (c_file_path x)) with (file_path (fetch x)) in *.
  clear Ef. generalize dependent (fetch x). intros m Hp Hex. pose proof (send_existing (λ _, playback_headers) m w Hex) as Es.
  assert (empty (file_path m) = false) as -> by (by destruct (file_path m)). rewrite Es. by eexists.
Qed.

(** ** A server *)

#[local] Existing Instances merging_sqlite known_conversions.
#[local] Existing Instance RecordingList.example_like.
#[local] Existing Instance LoginSafety.example_json.
#[local] Instance one_disk : FileSystem simple_disk := simple_fs false.
#[local] Instance calm_environment : Environment := sample_environment (λ _, false).

(** The session of a user who may delete, that of the viewer of [RecordingList], and no other. *)
#[local] Instance two_sessions : AuthStore unit := {|
  db_auth_validate_session t d :=
    (if streq t (lit "0perator") then Some 1 else if streq t (lit "s3cret") then Some 2 else None, d);
  db_auth_get_user_by_id i d :=
    (Some (if i =? 1 then mkUser 1 (lit "bob") [] USER_ROLE_USER [] 0 0 0 true false false [] false [] false else example_viewer), d);
  db_auth_validate_session_with_context t _ _ d := (streq t (lit "0perator") || streq t (lit "s3cret"), d);
  db_auth_authenticate _ _ d := (None, d);
  db_auth_get_user_by_api_key _ d := (None, d)
|}.

Definition recording_config : config_t := mkConfig true 168 30 [] false.

Definition recording_request (path query session body : cstr) : http_request_t :=
  mkRequest path query [] (Some body) [mkHeader (lit "Cookie") (lit "session=" ++ session)] (lit "10.1.3.7").

Definition example_random : nat → list byte := λ _, replicate 16 Byte.x5a.

Definition example_server : server simple_disk unit cJSON :=
  mkServer tt (sample_world DISK_PRESSURE_NORMAL) (mkJobs (replicate MAX_BATCH_DELETE_JOBS zero_job) true) [].

Abbreviation ask c path query session body :=
  (handle recording_config example_random c (recording_request (lit path) query (lit session) (lit body)) example_server).

Definition answer_of {F D J} (r : option (reply * server F D J)) : option reply := fst <$> r.

Example operator_deletes : answer_of (ask DeleteRecording "/api/recordings/1" [] "0perator" "") = Some (Accepted 200).
Proof. vm_compute. reflexivity. Qed.

Example viewer_may_not_delete : answer_of (ask DeleteRecording "/api/recordings/1" [] "s3cret" "") = Some (Rejected 403).
Proof. vm_compute. reflexivity. Qed.

(** Anybody may lift the protection of a recording, and read about it. *)
Example anybody_unprotects : answer_of (ask PutProtect "/api/recordings/2/protect" [] "" "protected:false") = Some (Accepted 200).
Proof. vm_compute. reflexivity. Qed.

Example anybody_reads : match answer_of (ask (GetRecording false) "/api/recordings/2" [] "" "") with Some (Details m) => id m = 2 | _ => False end.
Proof. vm_compute. reflexivity. Qed.


(** The state after a job for two ids was created. *)
Definition batch_body : string := "ids:[1 77".

Definition batch_server : server simple_disk unit cJSON :=
  match ask BatchDelete "/api/recordings/batch-delete" [] "0perator" "ids:[1 77" with Some (_, s) => s | None => example_server end.

Definition batch_job : cstr := match workers batch_server with (j, _) :: _ => j | [] => [] end.

Lemma batch_delete_spec_witness :
  ∃ s' t' j, batch_delete_worker_thread (D := unit) (λ _, None) [] [] batch_job (lit batch_body) batch_server = Some ((), s') ∧
    db (store s') = Some t' ∧ rows t' = remaining [1; 77] sample_table ∧
    batch_delete_progress_get (jobs s') (Some batch_job) = Some j ∧ status j = BATCH_DELETE_STATUS_COMPLETE ∧
    current j = 2 ∧ total j = 2 ∧
    succeeded j = Z.of_nat (length (rows sample_table)) - Z.of_nat (length (rows t')) ∧ succeeded j + failed j = 2.
Proof.
  refine (batch_delete_spec _ (λ _, None) [] [] batch_job (lit batch_body) [lit "1"; lit "77"] [1; 77] batch_server sample_table _ _ _ _ _).
  - reflexivity.
  - vm_compute. reflexivity.
  - exact (proj1 sample_well_formed).
  - vm_compute. reflexivity.
  - repeat constructor; (eexists; split; [reflexivity|vm_compute; reflexivity]).
  - split; [vm_compute; reflexivity|]. eexists. split; [vm_compute; reflexivity|reflexivity].
Defined.

Definition etc_shadow : cstr := lit "/etc/shadow".

Definition deletion_request : http_request_t :=
  mkRequest (lit "/api/recordings/files") (lit "path=" ++ escape_loop etc_shadow MAX_PATH_LENGTH) [] None [] (lit "10.1.3.7").

Lemma named_file_deleted_witness :
  ∃ r s', handle_delete_recording_file deletion_request example_server = Some (r, s') ∧
    disk (store s') = (unlink (disk (store example_server)) etc_shadow).1 ∧
    ((unlink (disk (store example_server)) etc_shadow).2 = Unlinked → r = FileDeleted true ∧ EvUnlinkUntracked etc_shadow ∈ log (store s')).
Proof.
  refine (named_file_deleted etc_shadow deletion_request example_server _ _ _).
  - solve_no_nul.
  - unfold MAX_PATH_LENGTH. simpl. lia.
  - reflexivity.
Defined.

Abbreviation hidden_request := (recording_request (lit "/api/recordings/play/1") [] (lit "s3cret") []).

Definition indoor_streams : option (list (cstr * cstr)) := (λ s, [(s_name s, lit "indoor")]) <$> head streams.

Lemma hidden_recording_played_witness :
  let p := strcpy_trunc MAX_PATH_LENGTH (c_file_path (sample_row 1 30 700000 false)) in
  permitted_streams example_viewer indoor_streams = [] ∧
  ∃ s', handle_recordings_playback recording_config hidden_request example_server = Some (SendFile p (video_type p) playback_headers, s').
Proof.
  split; [vm_compute; reflexivity|].
  refine (hidden_recording_played recording_config indoor_streams hidden_request example_server example_viewer tt 1 sample_table
    (sample_row 1 30 700000 false) _ _ _ _ _ _ _ _ _ _ _ _ eq_refl _ _).
  - reflexivity.
  - reflexivity.
  - vm_compute. reflexivity.
  - reflexivity.
  - vm_compute. intros Hin. by apply not_elem_of_nil in Hin.
  - vm_compute. reflexivity.
  - reflexivity.
  - reflexivity.
  - exact sample_well_formed.
  - left.
  - reflexivity.
  - discriminate.
  - vm_compute. reflexivity.
Defined.
