(* ===== verification/HttpWire.v ===== *)
(** * Bytes on the wire: [src/web/libuv_response.c] and the pure parts of
    [src/web/libuv_file_serve.c]

    A response as the bytes that are sent, the Range header of a request, the
    type of a file by its name, and the head of the answer with a file. *)
From Stdlib Require Import ZArith Lia Bool.
From Stdlib Require Import Strings.Byte.
From stdpp Require Import base numbers list strings pretty.
From S2P Require Import Prelude.
From S2P Require Import Libc.
From S2P Require Import HttpMessage.
#[local] Open Scope Z_scope.

Definition crlf : cstr := [Byte.x0d; Byte.x0a].

(** ** Responses *)

Definition get_status_phrase (status_code : Z) : cstr :=
  lit (match status_code with
       | 200 => "OK"
       | 201 => "Created"
       | 204 => "No Content"
       | 206 => "Partial Content"
       | 301 => "Moved Permanently"
       | 302 => "Found"
       | 304 => "Not Modified"
       | 400 => "Bad Request"
       | 401 => "Unauthorized"
       | 403 => "Forbidden"
       | 404 => "Not Found"
       | 405 => "Method Not Allowed"
       | 409 => "Conflict"
       | 413 => "Payload Too Large"
       | 415 => "Unsupported Media Type"
       | 500 => "Internal Server Error"
       | 501 => "Not Implemented"
       | 503 => "Service Unavailable"
       | _ => "Unknown"
       end).

Definition status_line (code : Z) : cstr := lit "HTTP/1.1 " ++ decimal code ++ lit " " ++ get_status_phrase code ++ crlf.
Definition content_type_line (t : cstr) : cstr := lit "Content-Type: " ++ t ++ crlf.
Definition content_length_line (n : Z) : cstr := lit "Content-Length: " ++ decimal n ++ crlf.
Definition header_line (h : http_header_t) : cstr := header_name h ++ lit ": " ++ header_value h ++ crlf.

(** The size of the buffer. *)
Definition headers_size (res : http_response_t) : Z :=
  256 + foldr (λ h n, Z.of_nat (length (header_name h)) + Z.of_nat (length (header_value h)) + 4 + n) 0 (response_headers res)
  + (if empty (content_type res) then 0 else 64) + 64 + 4.

(** [snprintf] at the offset: the text and its terminator must fit. *)
Definition emit (total_size : Z) (text : cstr) (buffer : list byte) : option (list byte) :=
  if total_size - Z.of_nat (length buffer) <=? Z.of_nat (length text) then None else Some (buffer ++ text).

Fixpoint emit_headers (total_size : Z) (hs : list http_header_t) (buffer : list byte) : option (list byte) :=
  match hs with
  | [] => Some buffer
  | h :: hs => buffer ← emit total_size (header_line h) buffer; emit_headers total_size hs buffer
  end.

(** [body_length] bytes of the body. *)
Definition emit_body (total_size : Z) (res : http_response_t) (buffer : list byte) : option (list byte) :=
  match response_body res with
  | Some b =>
      if body_length res >? 0 then
        if body_length res >? total_size - Z.of_nat (length buffer) then None
        else Some (buffer ++ take (Z.to_nat (body_length res)) b)
      else Some buffer
  | None => Some buffer
  end.

(** What [libuv_send_response] and [libuv_send_response_ex] send; [None] for -1.
    [alloc] is whether the buffer can be allocated. *)
Definition response_bytes (alloc : bool) (res : http_response_t) : option (list byte) :=
  let total_size := headers_size res + body_length res in
  if negb alloc then None else
  buffer ← emit total_size (status_line (status_code res)) [];
  buffer ← (if empty (content_type res) then Some buffer else emit total_size (content_type_line (content_type res)) buffer);
  buffer ← emit total_size (content_length_line (body_length res)) buffer;
  buffer ← emit_headers total_size (response_headers res) buffer;
  buffer ← emit total_size crlf buffer;
  emit_body total_size res buffer.

(** ** Files *)

(** The comparisons, in their order. *)
Definition mime_types : list (string * string) :=
  [("mp4", "video/mp4"); ("m4s", "video/iso.segment"); ("ts", "video/mp2t"); ("m3u8", "application/vnd.apple.mpegurl");
   ("webm", "video/webm"); ("mkv", "video/x-matroska");
   ("html", "text/html; charset=utf-8"); ("css", "text/css; charset=utf-8"); ("js", "application/javascript; charset=utf-8");
   ("json", "application/json; charset=utf-8"); ("xml", "application/xml; charset=utf-8");
   ("png", "image/png"); ("jpg", "image/jpeg"); ("jpeg", "image/jpeg"); ("gif", "image/gif"); ("svg", "image/svg+xml");
   ("ico", "image/x-icon"); ("webp", "image/webp");
   ("woff", "font/woff"); ("woff2", "font/woff2"); ("ttf", "font/ttf");
   ("txt", "text/plain; charset=utf-8"); ("pdf", "application/pdf")]%string.

Definition libuv_get_mime_type (path : cstr) : cstr :=
  match split_last Byte.x2e path with
  | None => lit "application/octet-stream"
  | Some (_, ext) =>
      match find (λ m, strcaseeq ext (lit m.1)) mime_types with
      | Some m => lit m.2
      | None => lit "application/octet-stream"
      end
  end.

Definition dash : byte := Byte.x2d.

(** The first and the last byte. *)
Definition libuv_parse_range_header (range_header : option cstr) (file_size : Z) : option (Z * Z) :=
  range_header ← range_header;
  if negb (starts_with (lit "bytes=") range_header) then None else
  let range := drop 6 range_header in
  let '(start, end_) :=
    if bool_decide (head range = Some dash) then
      let suffix_len := strtoull10 (drop 1 range) in
      let suffix_len := if suffix_len >? file_size then file_size else suffix_len in
      (u64 (file_size - suffix_len), u64 (file_size - 1))
    else
      (strtoull10 range,
       match split_first dash range with
       | Some (_, c :: r) => strtoull10 (c :: r)
       | _ => u64 (file_size - 1)
       end) in
  if start >=? file_size then None else
  let end_ := if end_ >=? file_size then u64 (file_size - 1) else end_ in
  if start >? end_ then None else Some (start, end_).

(** The head of the answer with a file; [range] is where [has_range] holds. *)
Definition file_head (content_type extra_headers : cstr) (range : option (Z * Z)) (remaining file_size : Z) : cstr :=
  match range with
  | Some (range_start, range_end) =>
      lit "HTTP/1.1 206 Partial Content" ++ crlf ++ content_type_line content_type ++ content_length_line remaining ++
      lit "Content-Range: bytes " ++ decimal range_start ++ lit "-" ++ decimal range_end ++ lit "/" ++ decimal file_size ++ crlf ++
      lit "Accept-Ranges: bytes" ++ crlf ++ extra_headers ++ crlf
  | None =>
      lit "HTTP/1.1 200 OK" ++ crlf ++ content_type_line content_type ++ content_length_line file_size ++
      lit "Accept-Ranges: bytes" ++ crlf ++ extra_headers ++ crlf
  end.

(** [headers]: the buffer of [on_file_stat]. *)
Definition FILE_HEADERS_SIZE : nat := 2048.

(** ** The buffer of a response is large enough *)

Lemma emit_fits total text buffer :
  Z.of_nat (length (buffer ++ text)) < total → emit total text buffer = Some (buffer ++ text).
Proof. rewrite length_app. intros H. unfold emit. rewrite (proj2 (Z.leb_gt _ _)) by lia. done. Qed.

Lemma emit_headers_fits total hs buffer :
  Z.of_nat (length (buffer ++ concat (header_line <$> hs))) < total →
  emit_headers total hs buffer = Some (buffer ++ concat (header_line <$> hs)).
Proof.
  revert buffer. induction hs as [|h hs IH]; intros buffer Ht; cbn [emit_headers fmap list_fmap concat] in *; [by rewrite app_nil_r|].
  rewrite app_assoc in Ht. rewrite emit_fits by (rewrite length_app in Ht; lia). cbn [mbind option_bind].
  rewrite IH by done. by rewrite app_assoc.
Qed.

Lemma status_phrase_length code : (length (get_status_phrase code) ≤ 22)%nat.
Proof. unfold get_status_phrase. repeat case_match; vm_compute; lia. Qed.

Lemma headers_length hs :
  Z.of_nat (length (concat (header_line <$> hs))) =
  foldr (λ h n, Z.of_nat (length (header_name h)) + Z.of_nat (length (header_value h)) + 4 + n) 0 hs.
Proof.
  induction hs as [|h hs IH]; [done|]. cbn [fmap list_fmap concat foldr]. rewrite length_app, Nat2Z.inj_add. cbn [fmap list_fmap] in IH.
  rewrite IH. unfold header_line. rewrite !length_app. change (length (lit ": ")) with 2%nat. change (length crlf) with 2%nat. lia.
Qed.

(** What the components build: the body is there with its length, and the type
    is a string of its field. *)
Record sendable (res : http_response_t) : Prop := {
  sendable_status : 0 ≤ status_code res < 1000;
  sendable_type : (length (content_type res) < 128)%nat;
  sendable_body : body_length res = Z.of_nat (length (default [] (response_body res)))
}.

(** The text of a response. *)
Definition response_text (res : http_response_t) : list byte :=
  status_line (status_code res) ++ (if empty (content_type res) then [] else content_type_line (content_type res)) ++
  content_length_line (body_length res) ++ concat (header_line <$> response_headers res) ++ crlf ++ default [] (response_body res).

(** C34: a response is sent as its status line, its headers and its body: none of
    the checks of the buffer fails, whatever the headers, and the length that is
    announced is that of the body. *)
Theorem response_bytes_spec res :
  sendable res → Z.of_nat (length (default [] (response_body res))) < 2 ^ 63 → response_bytes true res = Some (response_text res).
Proof.
  intros [Hs Ht Hb] Hmax. unfold response_bytes, response_text. cbn [negb].
  set (n := Z.of_nat (length (default [] (response_body res)))) in *.
  set (total := headers_size res + body_length res).
  pose proof (headers_length (response_headers res)) as Hh.
  assert (Hst : (length (status_line (status_code res)) ≤ 37)%nat).
  { unfold status_line. rewrite !length_app. pose proof (status_phrase_length (status_code res)).
    pose proof (decimal_length 3 (status_code res) ltac:(lia) ltac:(lia)). vm_compute (length (lit "HTTP/1.1 ")).
    vm_compute (length (lit " ")). vm_compute (length crlf). lia. }
  assert (Hcl : (length (content_length_line (body_length res)) ≤ 38)%nat).
  { unfold content_length_line. rewrite !length_app. pose proof (decimal_length 20 (body_length res) ltac:(lia) ltac:(lia)).
    vm_compute (length (lit "Content-Length: ")). vm_compute (length crlf). lia. }
  set (ct := if empty (content_type res) then [] else content_type_line (content_type res)).
  assert (Hct : Z.of_nat (length ct) ≤ (if empty (content_type res) then 0 else 64) + 80).
  { unfold ct. destruct (empty (content_type res)); [simpl; lia|]. unfold content_type_line. rewrite !length_app.
    vm_compute (length (lit "Content-Type: ")). vm_compute (length crlf). lia. }
  assert (Htotal : Z.of_nat (length (status_line (status_code res) ++ ct ++ content_length_line (body_length res) ++
    concat (header_line <$> response_headers res) ++ crlf)) + body_length res < total).
  { rewrite !length_app. change (length crlf) with 2%nat. unfold total, headers_size. rewrite <-Hh. lia. }
  rewrite !length_app in Htotal.
  rewrite emit_fits by (cbn [app]; lia). cbn [mbind option_bind app].
  assert ((if empty (content_type res) then Some (status_line (status_code res))
           else emit total (content_type_line (content_type res)) (status_line (status_code res))) =
          Some (status_line (status_code res) ++ ct)) as ->.
  { unfold ct in *. destruct (empty (content_type res)); [by rewrite app_nil_r|]. apply emit_fits. rewrite length_app. lia. }
  cbn [mbind option_bind]. rewrite emit_fits by (rewrite !length_app; lia). cbn [mbind option_bind].
  rewrite emit_headers_fits by (rewrite !length_app; lia). cbn [mbind option_bind].
  rewrite emit_fits by (rewrite !length_app; lia). cbn [mbind option_bind]. unfold emit_body.
  destruct (response_body res) as [b|]; cbn [default] in *.
  - destruct (Z.gtb_spec (body_length res) 0).
    + rewrite (Z.gtb_ltb (body_length res)), (proj2 (Z.ltb_ge _ _)) by (rewrite !length_app; lia).
      rewrite take_ge by (rewrite Hb; unfold n; cbn; lia). by rewrite <-!app_assoc.
    + destruct b; [|exfalso; unfold n in Hb; cbn in Hb; lia]. by rewrite app_nil_r, <-!app_assoc.
  - by rewrite app_nil_r, <-!app_assoc.
Qed.

(** ** Ranges *)

(** The three forms of a range, and what a file of [size] bytes answers. *)
Inductive byte_range := FromTo (a b : Z) | From (a : Z) | Suffix (n : Z).

Definition range_text (r : byte_range) : cstr :=
  lit "bytes=" ++
  match r with
  | FromTo a b => decimal a ++ lit "-" ++ decimal b
  | From a => decimal a ++ lit "-"
  | Suffix n => lit "-" ++ decimal n
  end.

Definition satisfiable (size : Z) (r : byte_range) : option (Z * Z) :=
  match r with
  | FromTo a b => if bool_decide (a < size ∧ a ≤ b) then Some (a, Z.min b (size - 1)) else None
  | From a => if bool_decide (a < size) then Some (a, size - 1) else None
  | Suffix n => if bool_decide (0 < size ∧ 0 < n) then Some (size - Z.min n size, size - 1) else None
  end.

Definition range_numbers (r : byte_range) : Prop :=
  match r with
  | FromTo a b => 0 ≤ a < 2 ^ 64 ∧ 0 ≤ b < 2 ^ 64
  | From a => 0 ≤ a < 2 ^ 64
  | Suffix n => 0 ≤ n < 2 ^ 64
  end.

(** Whatever the header says, the range is within the file. *)
Lemma range_inside h size s e :
  0 ≤ size < 2 ^ 64 → libuv_parse_range_header h size = Some (s, e) → 0 ≤ s ≤ e ∧ e < size.
Proof.
  intros Hsize. unfold libuv_parse_range_header. destruct h as [h|]; [cbn [mbind option_bind]|done].
  destruct (negb _); [done|]. set (range := drop 6 h).
  assert (Hgen : ∀ start end_, 0 ≤ start → 0 ≤ end_ →
    (if start >=? size then None else
     let end_ := if end_ >=? size then u64 (size - 1) else end_ in
     if start >? end_ then None else Some (start, end_)) = Some (s, e) → 0 ≤ s ≤ e ∧ e < size).
  { intros start end_ Hs He. destruct (Z.geb_spec start size); [done|]. cbn zeta.
    assert (size = 0 ∨ 0 < size) as [->|Hp] by lia; [lia|]. rewrite u64_small by lia.
    destruct (Z.geb_spec end_ size); case_match; unbool; intros; simplify_eq; lia. }
  case_bool_decide; cbn zeta; apply Hgen; try apply u64_range; try apply strtoull10_range.
  destruct (split_first dash range) as [[? [|c r]]|]; try apply u64_range. apply strtoull10_range.
Qed.

Lemma decimal_dash n : 0 ≤ n → head (decimal n) ≠ Some dash.
Proof. intros Hn. destruct (decimal_head n Hn) as (c & r & d & -> & Hd). simpl. intros [= ->]. by vm_compute in Hd. Qed.

Lemma head_decimal n r : 0 ≤ n → head (decimal n ++ r) = head (decimal n).
Proof. intros Hn. by destruct (decimal_head n Hn) as (c & t & d & -> & _). Qed.

(** A decimal has no dash in it. *)
Lemma decimal_no_dash n : 0 ≤ n → dash ∉ decimal n.
Proof.
  intros Hn Hin. pose proof (digits_decimal n [] Hn ltac:(done)) as Hd. rewrite app_nil_r in Hd. revert Hd Hin. generalize 0 at 1.
  induction (decimal n) as [|c s IH]; intros z Hd; [by intros ?%not_elem_of_nil|]. simpl in Hd.
  destruct (digit c) as [d|] eqn:Ec; [|done]. intros [Hc|Hin]%elem_of_cons; [|by eapply IH]. subst c. by vm_compute in Ec.
Qed.

(** C33: the range that is read from a header is the one the header asks for, cut at
    the end of the file, or none when the file has no such bytes. *)
Theorem range_header_spec size r :
  0 ≤ size < 2 ^ 64 → range_numbers r → libuv_parse_range_header (Some (range_text r)) size = satisfiable size r.
Proof.
  intros Hsize Hr. unfold libuv_parse_range_header. cbn [mbind option_bind]. unfold range_text. rewrite starts_with_app. cbn [negb].
  change (drop 6 (lit "bytes=" ++ ?x)) with x. destruct r as [a b|a|n]; cbn [range_numbers satisfiable] in *.
  - destruct Hr as [Ha Hb]. change (lit "-" ++ decimal b) with (dash :: decimal b).
    rewrite bool_decide_false by (rewrite head_decimal by lia; apply decimal_dash; lia).
    rewrite split_first_app by (by apply decimal_no_dash; lia).
    rewrite strtoull10_decimal by (lia || by intros ? ? [= <- _]).
    destruct (decimal_head b) as (c & t & d & E & _); [lia|]. rewrite E, <-E.
    rewrite <-(app_nil_r (decimal b)), strtoull10_decimal by (done || lia). cbn zeta.
    destruct (Z.geb_spec a size); [by rewrite bool_decide_false by lia|]. rewrite u64_small by lia.
    destruct (Z.geb_spec b size); case_match; unbool; case_bool_decide; first [lia | done | f_equal; f_equal; lia].
  - change (lit "-") with [dash]. rewrite bool_decide_false by (rewrite head_decimal by lia; apply decimal_dash; lia).
    rewrite split_first_app by (by apply decimal_no_dash; lia).
    rewrite strtoull10_decimal by (lia || by intros ? ? [= <- _]). cbn zeta.
    destruct (Z.geb_spec a size); [by rewrite bool_decide_false by lia|]. rewrite u64_small by lia.
    destruct (Z.geb_spec (size - 1) size); [lia|]. rewrite bool_decide_true by done. case_match; unbool; [lia|done].
  - change (lit "-" ++ decimal n) with (dash :: decimal n). rewrite bool_decide_true by done. change (drop 1 (dash :: ?x)) with x.
    rewrite <-(app_nil_r (decimal n)), strtoull10_decimal by (done || lia). cbn zeta.
    destruct (Z.gtb_spec n size).
    + rewrite Z.sub_diag. destruct (decide (size = 0)) as [-> |]; [done|]. rewrite !u64_small by lia.
      destruct (Z.geb_spec 0 size); [lia|]. destruct (Z.geb_spec (size - 1) size); [lia|]. rewrite bool_decide_true by lia.
      case_match; unbool; [lia|]. f_equal. f_equal. lia.
    + rewrite (u64_small (size - n)) by lia. destruct (Z.geb_spec (size - n) size); [by rewrite bool_decide_false by lia|].
      rewrite u64_small by lia. destruct (Z.geb_spec (size - 1) size); [lia|]. rewrite bool_decide_true by lia.
      case_match; unbool; [lia|]. f_equal. f_equal. lia.
Qed.

(** ** The head of a file *)

(** It fits the buffer of [on_file_stat], so what [snprintf] returns is what it wrote. *)
Lemma file_head_fits t x range remaining size :
  (length t < 128)%nat → (length x < 512)%nat → 0 ≤ remaining < 2 ^ 64 → 0 ≤ size < 2 ^ 64 →
  (∀ s e, range = Some (s, e) → 0 ≤ s < 2 ^ 64 ∧ 0 ≤ e < 2 ^ 64) →
  (length (file_head t x range remaining size) < FILE_HEADERS_SIZE)%nat.
Proof.
  intros Ht Hx Hr Hs Hrange. assert (∀ n, 0 ≤ n < 2 ^ 64 → (length (decimal n) ≤ 20)%nat) as Hd by (intros; apply decimal_length; lia).
  pose proof (Hd _ Hr). pose proof (Hd _ Hs). unfold file_head, content_type_line, content_length_line, FILE_HEADERS_SIZE.
  destruct range as [[s e]|].
  - destruct (Hrange s e eq_refl) as [Hs' He']. pose proof (Hd _ Hs'). pose proof (Hd _ He'). rewrite !length_app.
    repeat match goal with |- context [length (lit ?s)] => let n := eval vm_compute in (length (lit s)) in change (length (lit s)) with n end.
    change (length crlf) with 2%nat. lia.
  - rewrite !length_app.
    repeat match goal with |- context [length (lit ?s)] => let n := eval vm_compute in (length (lit s)) in change (length (lit s)) with n end.
    change (length crlf) with 2%nat. lia.
Qed.

(** ** Examples *)

(** The third part of a file, as a player asks for it. *)
Lemma range_header_spec_witness :
  libuv_parse_range_header (Some (range_text (FromTo 200 5000))) 1000 = Some (200, 999).
Proof. rewrite (range_header_spec 1000 (FromTo 200 5000)); [reflexivity|lia|simpl; lia]. Defined.

Definition example_error : http_response_t := (http_response_set_json_error (true, true) http_response_init 404 (lit "Not Found")).2.

Lemma response_bytes_spec_witness : response_bytes true example_error = Some (response_text example_error).
Proof.
  apply (response_bytes_spec example_error).
  - constructor; [vm_compute; intuition discriminate|vm_compute; lia|vm_compute; reflexivity].
  - vm_compute. reflexivity.
Defined.

Example mime_of_segment : libuv_get_mime_type (lit "/hls/front.yard/seg_00012.M4S") = lit "video/iso.segment".
Proof. vm_compute. reflexivity. Qed.
