(* ===== verification/Connection.v ===== *)
(** * A connection of the web server: [src/web/libuv_connection.c],
    [src/web/libuv_file_serve.c], and the sending half of [src/web/libuv_response.c]

    One connection and the event loop around it.  What the code starts and the
    loop completes later (work on the thread pool, writes, file operations) is a
    list of outstanding operations, each with the data its callback is given; an
    event completes one of them, or brings input.  The parser is llhttp: an input
    event carries the calls it makes.  A callback that runs after the connection
    was freed is undefined. *)
From Stdlib Require Import ZArith Lia Bool.
From Stdlib Require Import Strings.Byte.
From stdpp Require Import base numbers list strings.
From S2P Require Import Prelude.
From S2P Require Import Libc.
From S2P Require Import HttpMessage.
From S2P Require Import HttpWire.
#[local] Open Scope Z_scope.

Definition LIBUV_RECV_BUFFER_INITIAL : Z := 4096.
Definition LIBUV_RECV_BUFFER_MAX : Z := 1024 * 1024.
Definition LIBUV_FILE_BUFFER_SIZE : Z := 64 * 1024.

(** ** The connection *)

Inductive write_complete_action_t := WRITE_ACTION_NONE | WRITE_ACTION_KEEP_ALIVE | WRITE_ACTION_CLOSE.

#[global] Instance write_complete_action_eq_dec : EqDecision write_complete_action_t.
Proof. solve_decision. Defined.

(** The request that is being read.  [parser_keeps] is the answer of
    [llhttp_should_keep_alive]. *)
Record request_head := mkHead {
  request : http_request_t;
  method_str : cstr;
  request_type : cstr;
  content_length : Z;
  current_header_field : cstr;
  keep_alive : bool;
  parser_keeps : bool
}.

(** [received] are the [recv_buffer_used] bytes; the body is tracked by offset and length. *)
Record receive_buffer := mkBuffer {
  received : list byte;
  recv_buffer_size : Z;
  body_offset : nat;
  body_present : bool;
  body_len : nat
}.

(** What the loop knows of the handler and of a file it asked for. *)
Record serving := mkServing {
  async_response_pending : bool;
  handler_on_worker : bool;
  deferred_file_serve : bool;
  deferred_file_path : cstr;
  deferred_content_type : cstr;
  deferred_extra_headers : cstr;
  deferred_action : write_complete_action_t
}.

(** The results of [llhttp_execute]. *)
Inductive llhttp_errno := HPE_OK | HPE_PAUSED | HPE_CLOSED_CONNECTION | HPE_OTHER.

(** [is_reading] and [is_closing] are libuv's; [freed] is after the close
    callback; [parser_error] is what llhttp goes on returning. *)
Record libuv_connection_t := mkConn {
  rhead : request_head;
  rbuf : receive_buffer;
  response : http_response_t;
  srv : serving;
  requests_handled : Z;
  is_reading : bool;
  is_closing : bool;
  freed : bool;
  parser_error : option llhttp_errno
}.

(** ** Outstanding operations *)

(** [fs_range] is the range once it is known; [has_range] that one was asked for. *)
Record file_serve_ctx_t := mkFileServe {
  file_size : Z;
  offset : Z;
  remaining : Z;
  has_range : bool;
  fs_range : option (Z * Z);
  headers_sent : bool;
  write_error : bool;
  fs_content_type : cstr;
  fs_extra_headers : cstr
}.

(** What a thread of the proxy is given. *)
Record proxy_thread_ctx_t := mkProxy {
  proxy_url : cstr;
  proxy_method : cstr;
  proxy_body : list byte;
  proxy_type : cstr
}.

(** [H] are the handlers; [HandlerWork None] resolves a static file. *)
Inductive op (H : Type) :=
  | HandlerWork (h : option H) (action : write_complete_action_t)
  | ProxyThread (p : proxy_thread_ctx_t) (action : write_complete_action_t)
  | Write (data : list byte) (action : write_complete_action_t)
  | FsOpen (path : cstr) (c : file_serve_ctx_t)
  | FsStat (c : file_serve_ctx_t)
  | FsRead (len pos : Z) (c : file_serve_ctx_t)
  | ChunkWrite (data : list byte) (c : file_serve_ctx_t)
  | FsClose (c : file_serve_ctx_t).
Arguments HandlerWork {H} _ _.
Arguments ProxyThread {H} _ _.
Arguments Write {H} _ _.
Arguments FsOpen {H} _ _.
Arguments FsStat {H} _.
Arguments FsRead {H} _ _ _.
Arguments ChunkWrite {H} _ _.
Arguments FsClose {H} _.

(** What happened to the connection, in order: a request was handed to a
    handler, bytes were given to [uv_write], the connection was reset. *)
Inductive log_entry :=
  | Dispatched (r : http_request_t)
  | Answer (data : list byte)
  | Chunk (data : list byte)
  | Reset.

(** [faults]: whether the next calls that can fail succeed; all do when the list ends. *)
Record loop (H : Type) := mkLoop {
  conn : libuv_connection_t;
  pending : list (op H);
  log : list log_entry;
  faults : list bool;
  shutting_down : bool
}.
Arguments mkLoop {H} _ _ _ _ _.
Arguments conn {H} _.
Arguments pending {H} _.
Arguments log {H} _.
Arguments faults {H} _.
Arguments shutting_down {H} _.

(** ** The state monad of callbacks *)

Definition M (H A : Type) : Type := loop H → A * loop H.

#[global] Instance m_ret H : MRet (M H) := λ A x s, (x, s).
#[global] Instance m_bind H : MBind (M H) := λ A B f m s, let '(x, s) := m s in f x s.

Section monad.
Context {H : Type}.

Definition get : M H libuv_connection_t := λ s, (conn s, s).
Definition modify (f : libuv_connection_t → libuv_connection_t) : M H unit :=
  λ s, (tt, mkLoop (f (conn s)) (pending s) (log s) (faults s) (shutting_down s)).
Definition start (o : op H) : M H unit :=
  λ s, (tt, mkLoop (conn s) (pending s ++ [o]) (log s) (faults s) (shutting_down s)).
Definition note (e : log_entry) : M H unit :=
  λ s, (tt, mkLoop (conn s) (pending s) (log s ++ [e]) (faults s) (shutting_down s)).

(** A call that can fail. *)
Definition fallible : M H bool := λ s,
  match faults s with
  | b :: fs => (b, mkLoop (conn s) (pending s) (log s) fs (shutting_down s))
  | [] => (true, s)
  end.
Definition stopping : M H bool := λ s, (shutting_down s, s).
End monad.

(** Runs a callback on a state in the open. *)
Ltac run_m :=
  unfold mbind, m_bind, mret, m_ret, get, modify, start, note, fallible, stopping;
  cbn [conn pending log faults shutting_down negb fst snd].

(** *** Fields *)

Definition with_head (f : request_head → request_head) (c : libuv_connection_t) : libuv_connection_t :=
  mkConn (f (rhead c)) (rbuf c) (response c) (srv c) (requests_handled c) (is_reading c) (is_closing c) (freed c) (parser_error c).
Definition with_buf (f : receive_buffer → receive_buffer) (c : libuv_connection_t) : libuv_connection_t :=
  mkConn (rhead c) (f (rbuf c)) (response c) (srv c) (requests_handled c) (is_reading c) (is_closing c) (freed c) (parser_error c).
Definition with_response (f : http_response_t → http_response_t) (c : libuv_connection_t) : libuv_connection_t :=
  mkConn (rhead c) (rbuf c) (f (response c)) (srv c) (requests_handled c) (is_reading c) (is_closing c) (freed c) (parser_error c).
Definition with_srv (f : serving → serving) (c : libuv_connection_t) : libuv_connection_t :=
  mkConn (rhead c) (rbuf c) (response c) (f (srv c)) (requests_handled c) (is_reading c) (is_closing c) (freed c) (parser_error c).
Definition with_io (reading closing : bool) (c : libuv_connection_t) : libuv_connection_t :=
  mkConn (rhead c) (rbuf c) (response c) (srv c) (requests_handled c) reading closing (freed c) (parser_error c).
Definition with_error (e : option llhttp_errno) (c : libuv_connection_t) : libuv_connection_t :=
  mkConn (rhead c) (rbuf c) (response c) (srv c) (requests_handled c) (is_reading c) (is_closing c) (freed c) e.

Definition set_request (r : http_request_t) (h : request_head) : request_head :=
  mkHead r (method_str h) (request_type h) (content_length h) (current_header_field h) (keep_alive h) (parser_keeps h).
Definition set_async (b : bool) (s : serving) : serving :=
  mkServing b (handler_on_worker s) (deferred_file_serve s) (deferred_file_path s) (deferred_content_type s)
    (deferred_extra_headers s) (deferred_action s).
Definition set_on_worker (b : bool) (s : serving) : serving :=
  mkServing (async_response_pending s) b (deferred_file_serve s) (deferred_file_path s) (deferred_content_type s)
    (deferred_extra_headers s) (deferred_action s).
Definition set_action (a : write_complete_action_t) (s : serving) : serving :=
  mkServing (async_response_pending s) (handler_on_worker s) (deferred_file_serve s) (deferred_file_path s)
    (deferred_content_type s) (deferred_extra_headers s) a.
Definition set_deferred (b : bool) (p t x : cstr) (s : serving) : serving :=
  mkServing (async_response_pending s) (handler_on_worker s) b p t x (deferred_action s).
Definition undefer (s : serving) : serving :=
  set_deferred false (deferred_file_path s) (deferred_content_type s) (deferred_extra_headers s) s.

Section operations.
Context {H : Type}.
Implicit Types c : file_serve_ctx_t.

(** ** Close, reset and send *)

Definition libuv_connection_close : M H unit :=
  cn ← get;
  if is_closing cn then mret tt else modify (with_io false true).

(** The connection for the next request. *)
Definition fresh_request (cn : libuv_connection_t) : libuv_connection_t :=
  let ip := strcpy_trunc 64 (client_ip (request (rhead cn))) in
  let h := rhead cn in
  mkConn
    (mkHead (mkRequest [] [] [] None [] ip) [] [] 0 [] (keep_alive h) (parser_keeps h))
    (mkBuffer [] (recv_buffer_size (rbuf cn)) 0 false 0)
    http_response_init
    (mkServing false false false (deferred_file_path (srv cn)) (deferred_content_type (srv cn))
       (deferred_extra_headers (srv cn)) WRITE_ACTION_NONE)
    (requests_handled cn + 1)
    (is_reading cn) (is_closing cn) (freed cn) None.

Definition libuv_connection_reset : M H unit :=
  modify fresh_request;;
  note Reset;;
  cn ← get;
  if is_closing cn then mret tt else modify (with_io true false).

(** [true] for 0. *)
Definition libuv_connection_send_ex (data : list byte) (action : write_complete_action_t) : M H bool :=
  match data with
  | [] => mret false
  | _ =>
      cn ← get;
      if is_closing cn then mret false else
      allocated ← fallible;
      if negb allocated then mret false else
      written ← fallible;
      if written : bool then note (Answer data);; start (Write data action);; mret true
      else libuv_connection_close;; mret false
  end.

Definition libuv_connection_send (data : list byte) : M H bool := libuv_connection_send_ex data WRITE_ACTION_NONE.

Definition libuv_send_response_ex (action : write_complete_action_t) : M H bool :=
  allocated ← fallible;
  cn ← get;
  match response_bytes allocated (response cn) with
  | None => mret false
  | Some data => libuv_connection_send_ex data action
  end.

(** The same bytes, and nothing to do after them. *)
Definition libuv_send_response : M H bool := libuv_send_response_ex WRITE_ACTION_NONE.

Definition libuv_write_cb (action : write_complete_action_t) (ok : bool) : M H unit :=
  match (if ok then action else WRITE_ACTION_CLOSE) with
  | WRITE_ACTION_KEEP_ALIVE => libuv_connection_reset
  | WRITE_ACTION_CLOSE => libuv_connection_close
  | WRITE_ACTION_NONE => mret tt
  end.

(** [http_response_set_json_error] on the response of the connection. *)
Definition set_json_error (code : Z) (message : string) : M H unit :=
  a ← fallible;
  b ← fallible;
  modify (with_response (λ res, (http_response_set_json_error (a, b) res code (lit message)).2)).

Definition keeps_alive (cn : libuv_connection_t) : bool := keep_alive (rhead cn) && parser_keeps (rhead cn).

Definition after_response (cn : libuv_connection_t) : write_complete_action_t :=
  if keeps_alive cn then WRITE_ACTION_KEEP_ALIVE else WRITE_ACTION_CLOSE.

(** ** Files *)

Definition file_serve_ctx (content_type extra_headers : cstr) (range : bool) : file_serve_ctx_t :=
  mkFileServe 0 0 0 range None false false content_type extra_headers.

(** [true] for 0. *)
Definition libuv_serve_file (path : cstr) (content_type extra_headers : option cstr) : M H bool :=
  modify (with_srv (set_async true));;
  allocated ← fallible;
  if negb allocated then modify (with_srv (set_async false));; mret false else
  cn ← get;
  let c := file_serve_ctx
             (strcpy_trunc 128 (match content_type with Some t => t | None => libuv_get_mime_type path end))
             (match extra_headers with Some x => strcpy_trunc 512 x | None => [] end)
             (bool_decide (http_request_get_header (request (rhead cn)) (lit "Range") ≠ None)) in
  allocated ← fallible;
  if negb allocated then modify (with_srv (set_async false));; mret false else
  opened ← fallible;
  if negb opened then mret false else
  start (FsOpen path c);; mret true.

(** The answer in case of an error, and the flag that tells [on_file_close] that
    the connection is taken care of. *)
Definition file_error (code : Z) (message : string) : M H unit :=
  set_json_error code message;;
  cn ← get;
  _ ← libuv_send_response_ex (after_response cn);
  modify (with_srv (set_async false)).

(** [ok] is that the result is a descriptor. *)
Definition on_file_open c (ok : bool) : M H unit :=
  if negb ok then file_error 404 "File Not Found" else
  started ← fallible;
  start (if started : bool then FsStat c else FsClose c).

Definition send_file_chunk c : M H unit :=
  if remaining c =? 0 then start (FsClose c) else
  let to_read := if remaining c <? LIBUV_FILE_BUFFER_SIZE then remaining c else LIBUV_FILE_BUFFER_SIZE in
  started ← fallible;
  start (if started : bool then FsRead to_read (offset c) c else FsClose c).

(** The file with its size, and the range when it is one of the file. *)
Definition locate c (size : Z) (range_header : option cstr) : option file_serve_ctx_t :=
  if has_range c then
    '(s, e) ← libuv_parse_range_header range_header size;
    Some (mkFileServe size s (u64 (e - s + 1)) true (Some (s, e)) (headers_sent c) (write_error c) (fs_content_type c) (fs_extra_headers c))
  else Some (mkFileServe size 0 size false None (headers_sent c) (write_error c) (fs_content_type c) (fs_extra_headers c)).

Definition set_headers_sent c : file_serve_ctx_t :=
  mkFileServe (file_size c) (offset c) (remaining c) (has_range c) (fs_range c) true (write_error c) (fs_content_type c) (fs_extra_headers c).

Definition head_of c : cstr := file_head (fs_content_type c) (fs_extra_headers c) (fs_range c) (remaining c) (file_size c).

Definition on_file_stat c (size : option Z) : M H unit :=
  match size with
  | None => file_error 500 "Failed to stat file";; start (FsClose c)
  | Some size =>
      cn ← get;
      match locate c size (http_request_get_header (request (rhead cn)) (lit "Range")) with
      | None => file_error 416 "Requested Range Not Satisfiable";; start (FsClose c)
      | Some c =>
          allocated ← fallible;
          if negb allocated then start (FsClose c) else
          sent ← libuv_connection_send (head_of c);
          if negb sent then modify (with_srv (set_async false));; start (FsClose c)
          else send_file_chunk (set_headers_sent c)
      end
  end.

Definition advance c (n : Z) : file_serve_ctx_t :=
  mkFileServe (file_size c) (u64 (offset c + n)) (u64 (remaining c - n)) (has_range c) (fs_range c) (headers_sent c)
    (write_error c) (fs_content_type c) (fs_extra_headers c).

(** [None] is a read error; nothing read is the end of the file. *)
Definition on_file_read c (data : option (list byte)) : M H unit :=
  match data with
  | None | Some [] => start (FsClose c)
  | Some data =>
      allocated ← fallible;
      if negb allocated then start (FsClose c) else
      let c := advance c (Z.of_nat (length data)) in
      allocated ← fallible;
      if negb allocated then start (FsClose c) else
      cn ← get;
      if is_closing cn then start (FsClose c) else
      written ← fallible;
      if written : bool then note (Chunk data);; start (ChunkWrite data c) else start (FsClose c)
  end.

Definition set_write_error c : file_serve_ctx_t :=
  mkFileServe (file_size c) (offset c) (remaining c) (has_range c) (fs_range c) (headers_sent c) true (fs_content_type c) (fs_extra_headers c).

Definition on_chunk_write_complete c (ok : bool) : M H unit :=
  if ok then send_file_chunk c else start (FsClose (set_write_error c)).

Definition on_file_close c : M H unit :=
  cn ← get;
  let should_manage_connection := async_response_pending (srv cn) in
  modify (with_srv (set_async false));;
  down ← stopping;
  if negb should_manage_connection || down || is_closing cn then mret tt else
  if negb (write_error c) && keeps_alive cn then libuv_connection_reset else libuv_connection_close.

(** [http_serve_file] *)
Definition http_serve_file (file_path : cstr) (content_type extra_headers : option cstr) : M H bool :=
  cn ← get;
  if handler_on_worker (srv cn) then
    modify (with_srv (set_deferred true (strcpy_trunc MAX_PATH_LENGTH file_path)
      (strcpy_trunc 128 (default [] content_type)) (strcpy_trunc 512 (default [] extra_headers))));;
    mret true
  else libuv_serve_file file_path content_type extra_headers.

Inductive file_kind := Directory | RegularFile | OtherFile.

(** A static file; [stat] is what the file system answers. *)
Definition static_file_resolve_handler (web_root : cstr) (stat : cstr → option file_kind) : M H unit :=
  cn ← get;
  let path := path (request (rhead cn)) in
  let file_path := strcpy_trunc MAX_PATH_LENGTH (web_root ++ path) in
  let serve p t x := modify (with_srv (set_deferred true (strcpy_trunc MAX_PATH_LENGTH p) (strcpy_trunc 128 t) (strcpy_trunc 512 x))) in
  match stat file_path with
  | Some Directory =>
      let file_path := strcpy_trunc MAX_PATH_LENGTH (web_root ++ path ++ lit "/index.html") in
      match stat file_path with
      | None => set_json_error 404 "Directory index not found"
      | Some _ => serve file_path [] []
      end
  | Some _ => serve file_path [] []
  | None =>
      let gz_path := strcpy_trunc MAX_PATH_LENGTH (file_path ++ lit ".gz") in
      match stat gz_path with
      | Some RegularFile => serve gz_path (libuv_get_mime_type file_path) (lit "Content-Encoding: gzip" ++ crlf)
      | _ => set_json_error 404 "Not Found"
      end
  end.

(** ** Handlers on the thread pool *)

Definition not_empty (s : cstr) : option cstr := if empty s then None else Some s.

Definition handler_after_work_cb (action : write_complete_action_t) (cancelled : bool) : M H unit :=
  modify (with_srv (set_on_worker false));;
  if cancelled then libuv_connection_close else
  cn ← get;
  let s := srv cn in
  serving_file ← (if deferred_file_serve s then
                    modify (with_srv undefer);;
                    started ← libuv_serve_file (deferred_file_path s) (not_empty (deferred_content_type s))
                                (not_empty (deferred_extra_headers s));
                    (if started : bool then mret true else set_json_error 500 "Failed to serve file";; mret false)
                  else mret false);
  if serving_file : bool then mret tt else
  cn ← get;
  if async_response_pending (srv cn) then mret tt else
  _ ← libuv_send_response_ex action; mret tt.
End operations.

(** ** Input *)

(** [data] that arrived is appended; the buffer was grown before. *)
Definition libuv_alloc_cb (grown : bool) (b : receive_buffer) : receive_buffer * Z :=
  let available := recv_buffer_size b - Z.of_nat (length (received b)) in
  let new_size := recv_buffer_size b * 2 in
  let new_size := if new_size >? LIBUV_RECV_BUFFER_MAX then LIBUV_RECV_BUFFER_MAX else new_size in
  if (available <? 1024) && (new_size >? recv_buffer_size b) && grown then
    (mkBuffer (received b) new_size (body_offset b) (body_present b) (body_len b), new_size - Z.of_nat (length (received b)))
  else (b, available).

(** The calls of llhttp.  A body is a part of the receive buffer. *)
Inductive parser_call :=
  | OnUrl (url method : cstr)
  | OnHeaderField (name : cstr)
  | OnHeaderValue (value : cstr)
  | OnBody (pos len : nat)
  | OnMessageComplete (keeps : bool).

Definition set_path (path query : cstr) (r : http_request_t) : http_request_t :=
  mkRequest path query (user_agent r) (body r) (headers r) (client_ip r).

Definition URI_SIZE : nat := MAX_PATH_LENGTH + 1024.

Definition on_url (url method : cstr) (h : request_head) : request_head :=
  let uri := take (URI_SIZE - 1) url in
  let r := request h in
  let r := match split_first Byte.x3f uri with
           | Some (p, query) =>
               set_path (if (length p <? MAX_PATH_LENGTH)%nat then p else path r) (strcpy_trunc 1024 query) r
           | None => set_path (strcpy_trunc MAX_PATH_LENGTH uri) [] r
           end in
  mkHead r (strcpy_trunc 16 method) (request_type h) (content_length h) (current_header_field h) (keep_alive h) (parser_keeps h).

Definition on_header_field (name : cstr) (h : request_head) : request_head :=
  mkHead (request h) (method_str h) (request_type h) (content_length h) (take 127 name) (keep_alive h) (parser_keeps h).

Definition add_request_header (name value : cstr) (r : http_request_t) : http_request_t :=
  mkRequest (path r) (query_string r)
    (if strcaseeq name (lit "User-Agent") then strcpy_trunc 256 value else user_agent r)
    (body r) (headers r ++ [mkHeader (strcpy_trunc 128 name) value]) (client_ip r).

Definition on_header_value (value : cstr) (h : request_head) : request_head :=
  if (MAX_HEADERS <=? length (headers (request h)))%nat then h else
  let name := current_header_field h in
  let value := take 1023 value in
  mkHead (add_request_header name value (request h)) (method_str h)
    (if strcaseeq name (lit "Content-Type") then strcpy_trunc 128 value else request_type h)
    (if strcaseeq name (lit "Content-Length") then strtoull10 value else content_length h)
    (current_header_field h)
    (if strcaseeq name (lit "Connection") then negb (strcaseeq value (lit "close")) else keep_alive h)
    (parser_keeps h).

Definition on_body (pos len : nat) (b : receive_buffer) : receive_buffer :=
  if body_present b then mkBuffer (received b) (recv_buffer_size b) (body_offset b) true (body_len b + len)
  else if Z.of_nat pos <=? recv_buffer_size b then mkBuffer (received b) (recv_buffer_size b) pos true len
  else b.

(** The body that the handler is given. *)
Definition request_body (b : receive_buffer) : option (list byte) :=
  if body_present b then Some (take (body_len b) (drop (body_offset b) (received b))) else None.

Definition set_request_body (bd : option (list byte)) (r : http_request_t) : http_request_t :=
  mkRequest (path r) (query_string r) (user_agent r) bd (headers r) (client_ip r).

(** *** Routes *)

Fixpoint skip_segment (p : cstr) : cstr :=
  match p with c :: p' => if bool_decide (c = Byte.x2f) then p else skip_segment p' | [] => [] end.

Fixpoint path_matches_pattern (path pattern : cstr) {struct pattern} : bool :=
  match pattern with
  | [] => empty path
  | c :: pattern =>
      if bool_decide (c = Byte.x2a) then true else
      if bool_decide (c = Byte.x23) then
        let path := skip_segment path in
        match pattern with
        | [] => empty path
        | _ => if empty path then false else path_matches_pattern path pattern
        end
      else match path with
           | x :: path => if bool_decide (c = x) then path_matches_pattern path pattern else false
           | [] => false
           end
  end.

Record route (H : Type) := mkRoute {
  route_path : cstr;
  route_method : cstr;
  handler : H
}.
Arguments mkRoute {H} _ _ _.
Arguments route_path {H} _.
Arguments route_method {H} _.
Arguments handler {H} _.

(** The routes and the capacity of their array. *)
Definition libuv_server_register_handler {H} (grown : bool) (path : cstr) (method : option cstr) (h : H)
    (s : list (route H) * Z) : Z * (list (route H) * Z) :=
  let full := Z.of_nat (length s.1) >=? s.2 in
  if full && negb grown then (-1, s)
  else (0, (s.1 ++ [mkRoute (strcpy_trunc 256 path) (match method with Some m => strcpy_trunc 16 m | None => [] end) h],
            if full then s.2 * 2 else s.2)).

Definition find_handler {H} (routes : list (route H)) (method path : cstr) : option H :=
  handler <$> find (λ r, (empty (route_method r) || streq (route_method r) method) && path_matches_pattern path (route_path r)) routes.

Definition go2rtc_proxy_path_matches (path : cstr) : bool := starts_with (lit "/go2rtc/") path.

Section server.
Context {H : Type} (web_root : cstr) (routes : list (route H)) (go2rtc_api_port : Z).

(** [true] for 0.  The first call that can fail is the admission: the proxy is
    up and runs fewer than its thirty-two threads. *)
Definition go2rtc_proxy_thread_submit (action : write_complete_action_t) : M H bool :=
  admitted ← fallible;
  if negb admitted then mret false else
  allocated ← fallible;
  if negb allocated then mret false else
  cn ← get;
  let r := request (rhead cn) in
  let port := if go2rtc_api_port >? 0 then go2rtc_api_port else 1984 in
  let url := lit "http://127.0.0.1:" ++ decimal port ++ path r ++
             (if empty (query_string r) then [] else lit "?" ++ query_string r) in
  copied ← (match body r with Some (_ :: _) => fallible | _ => mret true end);
  if negb copied then mret false else
  modify (with_srv (set_async true));;
  created ← fallible;
  if created : bool then
    start (ProxyThread (mkProxy (strcpy_trunc 2048 url) (strcpy_trunc 16 (method_str (rhead cn))) (default [] (body r))
      (strcpy_trunc 256 (request_type (rhead cn)))) action);; mret true
  else modify (with_srv (set_async false));; mret false.

(** The answer of go2rtc: status, type and body, or none. *)
Definition proxy_response (code : Z) (type : cstr) (bd : option (list byte)) (res : http_response_t) : http_response_t :=
  let res := mkResponse code (if empty type then content_type res else strcpy_trunc 128 type) (response_body res)
               (body_length res) (body_allocated res) (response_headers res) in
  let res := add_header "Access-Control-Allow-Origin" "*" res in
  let res := add_header "Access-Control-Allow-Methods" "GET, POST, PUT, DELETE, OPTIONS" res in
  let res := add_header "Access-Control-Allow-Headers" "Content-Type, Authorization" res in
  set_body res bd (Z.of_nat (length (default [] bd))) true.

Definition take_proxied (answer : option (Z * cstr * option (list byte))) : M H unit :=
  match answer with
  | None | Some (0, _, _) => set_json_error 502 "Proxy error: go2rtc is not responding"
  | Some (code, type, bd) => modify (with_response (proxy_response code type bd))
  end.

Definition proxy_async_cb (action : write_complete_action_t) (answer : option (Z * cstr * option (list byte))) : M H unit :=
  down ← stopping;
  if down : bool then mret tt else
  take_proxied answer;;
  modify (with_srv (set_async false));;
  _ ← libuv_send_response_ex action; mret tt.

(** An error that is answered at once. *)
Definition refuse (code : Z) (message : string) (action : write_complete_action_t) : M H llhttp_errno :=
  set_json_error code message;;
  _ ← libuv_send_response_ex action; mret HPE_OK.

Definition on_message_complete (keeps : bool) : M H llhttp_errno :=
  modify (λ cn, with_head (λ h, mkHead (set_request_body (request_body (rbuf cn)) (request h)) (method_str h) (request_type h)
    (content_length h) (current_header_field h) (keep_alive h) keeps) cn);;
  cn ← get;
  let h := find_handler routes (method_str (rhead cn)) (path (request (rhead cn))) in
  let action := after_response cn in
  note (Dispatched (request (rhead cn)));;
  modify (with_io false (is_closing cn));;
  if go2rtc_proxy_path_matches (path (request (rhead cn))) then
    submitted ← go2rtc_proxy_thread_submit action;
    if submitted : bool then mret HPE_PAUSED else refuse 503 "Service temporarily unavailable" action
  else
    allocated ← fallible;
    if negb allocated then refuse 500 "Internal Server Error" action else
    modify (with_srv (set_on_worker true));;
    modify (with_srv (set_action action));;
    queued ← fallible;
    if queued : bool then start (HandlerWork h action);; mret HPE_PAUSED
    else modify (with_srv (set_on_worker false));; refuse 500 "Internal Server Error" action.

(** The calls, until one of them stops the parser. *)
Fixpoint run_calls (calls : list parser_call) : M H llhttp_errno :=
  match calls with
  | [] => mret HPE_OK
  | OnUrl url method :: calls => modify (with_head (on_url url method));; run_calls calls
  | OnHeaderField name :: calls => modify (with_head (on_header_field name));; run_calls calls
  | OnHeaderValue value :: calls => modify (with_head (on_header_value value));; run_calls calls
  | OnBody pos len :: calls => modify (with_buf (on_body pos len));; run_calls calls
  | OnMessageComplete keeps :: calls =>
      e ← on_message_complete keeps;
      match e with HPE_OK => run_calls calls | _ => mret e end
  end.

(** [llhttp_execute]: an error stays until the parser is reset; [err] is how it
    ends otherwise. *)
Definition llhttp_execute (calls : list parser_call) (err : llhttp_errno) : M H llhttp_errno :=
  cn ← get;
  match parser_error cn with
  | Some e => mret e
  | None =>
      e ← run_calls calls;
      let e := match e with HPE_OK => err | _ => e end in
      modify (with_error (match e with HPE_OK => None | _ => Some e end));; mret e
  end.

Definition libuv_read_cb (data : list byte) (calls : list parser_call) (err : llhttp_errno) : M H unit :=
  modify (with_buf (λ b, mkBuffer (received b ++ data) (recv_buffer_size b) (body_offset b) (body_present b) (body_len b)));;
  e ← llhttp_execute calls err;
  match e with
  | HPE_OK | HPE_PAUSED => mret tt
  | HPE_CLOSED_CONNECTION => libuv_connection_close
  | HPE_OTHER => _ ← refuse 400 "Bad Request" WRITE_ACTION_CLOSE; mret tt
  end.

(** ** Events *)

(** How an operation ends.  [Handled] is what the handler did with the response,
    and the file it asked to serve. *)
Inductive result :=
  | Handled (f : http_response_t → http_response_t) (file : option (cstr * option cstr * option cstr))
  | Resolved (stat : cstr → option file_kind)
  | Cancelled
  | Proxied (answer : option (Z * cstr * option (list byte)))
  | Written (ok : bool)
  | Opened (ok : bool)
  | Stated (size : option Z)
  | BytesRead (data : option (list byte))
  | FileClosed.

Inductive event :=
  | Receive (data : list byte) (calls : list parser_call) (err : llhttp_errno)
  | ReadError
  | Done (i : nat) (r : result)
  | HandleClosed
  | ServerStops.

(** [handler_work_cb] and then [handler_after_work_cb]. *)
Definition handler_done (h : option H) (action : write_complete_action_t) (r : result) : option (M H unit) :=
  match h, r with
  | Some _, Handled f file =>
      Some (modify (with_response f);;
            (match file with Some (p, t, x) => _ ← http_serve_file p t x; mret tt | None => mret tt end);;
            handler_after_work_cb action false)
  | None, Resolved stat => Some (static_file_resolve_handler web_root stat;; handler_after_work_cb action false)
  | _, Cancelled => Some (handler_after_work_cb action true)
  | _, _ => None
  end.

(** The callback of an operation; none for a result it cannot have. *)
Definition callback (o : op H) (r : result) : option (M H unit) :=
  match o, r with
  | HandlerWork h action, _ => handler_done h action r
  | ProxyThread _ action, Proxied answer => Some (proxy_async_cb action answer)
  | Write _ action, Written ok => Some (libuv_write_cb action ok)
  | FsOpen _ c, Opened ok => Some (on_file_open c ok)
  | FsStat c, Stated size => Some (on_file_stat c size)
  | FsRead _ _ c, BytesRead data => Some (on_file_read c data)
  | ChunkWrite _ c, Written ok => Some (on_chunk_write_complete c ok)
  | FsClose c, FileClosed => Some (on_file_close c)
  | _, _ => None
  end.

Definition is_write (o : op H) : bool := match o with Write _ _ | ChunkWrite _ _ => true | _ => false end.

Definition succeeds (r : result) : bool := match r with Written ok => ok | _ => false end.

(** [uv_close], by [close_walk_cb]. *)
Definition stop_server (s : loop H) : loop H :=
  mkLoop (with_io false true (conn s)) (pending s) (log s) (faults s) true.

Definition free_connection (s : loop H) : loop H :=
  let cn := conn s in
  mkLoop (mkConn (rhead cn) (rbuf cn) (http_response_free (response cn)) (srv cn) (requests_handled cn) (is_reading cn)
            (is_closing cn) true (parser_error cn))
    (pending s) (log s) (faults s) (shutting_down s).

(** One event.  [None] is a callback on a freed connection; an event that cannot
    happen changes nothing.  libuv ends all writes before the close callback, and
    with an error once the handle is closing. *)
Definition handle (s : loop H) (e : event) : option (loop H) :=
  let cn := conn s in
  match e with
  | Receive data calls err =>
      if is_reading cn && negb (is_closing cn) && negb (empty data) then
        let '(grown, s) := fallible s in
        let '(b, available) := libuv_alloc_cb grown (rbuf cn) in
        if Z.of_nat (length data) <=? available
        then Some (libuv_read_cb data calls err (modify (with_buf (λ _, b)) s).2).2
        else Some s
      else Some s
  | ReadError => if is_reading cn && negb (is_closing cn) then Some (libuv_connection_close s).2 else Some s
  | Done i r =>
      match pending s !! i with
      | Some o =>
          match callback o r with
          | Some k =>
              if is_write o && is_closing cn && succeeds r then Some s else
              if freed cn then None
              else Some (k (mkLoop cn (delete i (pending s)) (log s) (faults s) (shutting_down s))).2
          | None => Some s
          end
      | None => Some s
      end
  | HandleClosed =>
      if is_closing cn && negb (freed cn) && negb (existsb is_write (pending s)) then Some (free_connection s) else Some s
  | ServerStops => if freed cn then Some s else Some (stop_server s)
  end.

Fixpoint run (s : loop H) (es : list event) : option (loop H) :=
  match es with [] => Some s | e :: es => s ← handle s e; run s es end.

(** [libuv_connection_create] and [on_connection]: a connection that reads. *)
Definition accepted (ip : cstr) (fs : list bool) : loop H :=
  mkLoop
    (mkConn (mkHead (mkRequest [] [] [] None [] (strcpy_trunc 64 ip)) [] [] 0 [] true false)
       (mkBuffer [] LIBUV_RECV_BUFFER_INITIAL 0 false 0) http_response_init
       (mkServing false false false [] [] [] WRITE_ACTION_NONE) 0 true false false None)
    [] [] fs false.
End server.
