(* ===== verification/ConnectionSafety.v ===== *)
(** * The life of a connection

    While the peer takes what it is sent, files can be examined and nothing runs
    out, a connection has one owner at a time: the socket, or the one operation
    that will answer.  Hence each request is answered once, before the next one
    is read, and no callback meets a connection that was freed.  The theorems at
    the end show the callbacks that do when those conditions fail. *)
From Stdlib Require Import ZArith Lia Bool.
From Stdlib Require Import Strings.Byte.
From stdpp Require Import base numbers list strings.
From S2P Require Import Prelude.
From S2P Require Import Libc.
From S2P Require Import HttpMessage.
From S2P Require Import HttpWire.
From S2P Require Import Connection.
#[local] Open Scope Z_scope.

(** ** What is sent, and when *)

Inductive phase := Idle | Waiting | Answering | Refused.

(** A request is answered by one head and, for a file, its chunks, before the
    connection is reset for the next; input that is no request is refused. *)
Definition phase_step (p : phase) (e : log_entry) : option phase :=
  match p, e with
  | Idle, Dispatched _ => Some Waiting
  | Waiting, Answer _ => Some Answering
  | Answering, Chunk _ => Some Answering
  | Answering, Reset => Some Idle
  | (Idle | Refused), Answer _ => Some Refused
  | _, _ => None
  end.

Definition protocol (l : list log_entry) : option phase := foldl (λ p e, p ≫= λ p, phase_step p e) (Some Idle) l.

Lemma protocol_snoc l e p q : protocol l = Some p → phase_step p e = Some q → protocol (l ++ [e]) = Some q.
Proof. unfold protocol. intros Hl Hs. rewrite foldl_app. cbn [foldl]. by rewrite Hl. Qed.

(** ** Responses that can be sent *)

Definition good_response (res : http_response_t) : Prop :=
  sendable res ∧ Z.of_nat (length (default [] (response_body res))) < 2 ^ 63.

Lemma add_header_body name value res :
  content_type (add_header name value res) = content_type res ∧ response_body (add_header name value res) = response_body res ∧
  body_length (add_header name value res) = body_length res.
Proof. unfold add_header, http_response_add_header. by case_match. Qed.

Lemma add_header_type name value res : content_type (add_header name value res) = content_type res.
Proof. apply add_header_body. Qed.

Lemma set_json_fields res code js :
  ∃ r, http_response_set_json true res code js = (0, set_body r (Some js) (Z.of_nat (length js)) true) ∧
    status_code r = code ∧ content_type r = lit "application/json".
Proof.
  eexists. split; [reflexivity|]. split.
  - by rewrite !add_header_status, add_cors_headers_status.
  - rewrite !add_header_type. unfold http_response_add_cors_headers. by rewrite !add_header_type.
Qed.

Lemma good_json res code js :
  0 ≤ code < 1000 → Z.of_nat (length js) < 2 ^ 63 → good_response (http_response_set_json true res code js).2.
Proof.
  intros Hc Hm. destruct (set_json_fields res code js) as (r & -> & Hs & Ht). cbn [snd].
  split; [|done]. constructor; cbn [set_body status_code content_type body_length response_body default]; [by rewrite Hs| |done].
  rewrite Ht. vm_compute. lia.
Qed.

Lemma good_json_error res code m :
  0 ≤ code < 1000 → Z.of_nat (length (lit m)) < 2 ^ 32 →
  good_response (http_response_set_json_error (true, true) res code (lit m)).2.
Proof.
  intros Hc Hm. apply good_json; [done|]. repeat (rewrite ?length_cons, ?length_app; cbn [length]).
  change (length (lit "error")) with 5%nat. lia.
Qed.

Lemma response_text_nonempty res : response_text res ≠ [].
Proof. done. Qed.

Section connection.
Context {H : Type} (web_root : cstr) (routes : list (route H)) (port : Z).

#[local] Arguments response_bytes : simpl never.
#[local] Arguments response_text : simpl never.
#[local] Arguments http_response_set_json_error : simpl never.

(** ** The operations when nothing fails *)

Abbreviation st cn p l := (mkLoop cn p l [] false : loop H).

Lemma send_ok cn p l data a :
  is_closing cn = false → data ≠ [] →
  libuv_connection_send_ex data a (st cn p l) = (true, st cn (p ++ [Write data a]) (l ++ [Answer data])).
Proof. intros Hc Hd. destruct data; [done|]. unfold libuv_connection_send_ex. run_m. by rewrite Hc. Qed.

Lemma send_response_ok cn p l a :
  is_closing cn = false → good_response (response cn) →
  libuv_send_response_ex a (st cn p l) =
  (true, st cn (p ++ [Write (response_text (response cn)) a]) (l ++ [Answer (response_text (response cn))])).
Proof.
  intros Hc [Hs Hl]. unfold libuv_send_response_ex. run_m. rewrite response_bytes_spec by done. by apply send_ok.
Qed.

Lemma json_error_ok cn p l code m :
  set_json_error code m (st cn p l) =
  (tt, st (with_response (λ res, (http_response_set_json_error (true, true) res code (lit m)).2) cn) p l).
Proof. done. Qed.

Lemma close_ok cn p l :
  libuv_connection_close (st cn p l) = (tt, st (if is_closing cn then cn else with_io false true cn) p l).
Proof. unfold libuv_connection_close. run_m. by destruct (is_closing cn). Qed.

Lemma reset_ok cn p l :
  is_closing cn = false →
  libuv_connection_reset (st cn p l) = (tt, st (with_io true false (fresh_request cn)) p (l ++ [Reset])).
Proof. intros Hc. unfold libuv_connection_reset. run_m. cbn [fresh_request is_closing]. by rewrite Hc. Qed.

Lemma serve_file_ok cn p l path t x :
  ∃ c, libuv_serve_file path t x (st cn p l) = (true, st (with_srv (set_async true) cn) (p ++ [FsOpen path c]) l).
Proof. unfold libuv_serve_file. run_m. eexists. reflexivity. Qed.

Lemma chunk_ok cn p l c :
  ∃ o, send_file_chunk c (st cn p l) = (tt, st cn (p ++ [o]) l) ∧ (o = FsClose c ∨ ∃ n k, o = FsRead n k c).
Proof. unfold send_file_chunk. destruct (_ =? _); [by eexists; split; [|left]|]. run_m. eexists. split; [done|]. right. by eexists _, _. Qed.

Lemma file_error_ok cn p l code m :
  is_closing cn = false → 0 ≤ code < 1000 → Z.of_nat (length (lit m)) < 2 ^ 32 →
  ∃ d res, file_error code m (st cn p l) =
    (tt, st (with_srv (set_async false) (with_response (λ _, res) cn)) (p ++ [Write d (after_response cn)]) (l ++ [Answer d])) ∧
    good_response res.
Proof.
  intros Hc Hcode Hm. pose proof (good_json_error (response cn) code m Hcode Hm) as Hg. unfold file_error. unfold mbind, m_bind.
  rewrite json_error_ok. run_m. rewrite send_response_ok by done. run_m. eexists _, _. by split.
Qed.

Lemma after_response_none cn : after_response cn ≠ WRITE_ACTION_NONE.
Proof. unfold after_response. by destruct (keeps_alive _). Qed.

(** *** Single events *)

Lemma handle_done cn o ps l r k :
  callback web_root o r = Some k → freed cn = false → is_closing cn = false →
  handle web_root routes port (st cn (o :: ps) l) (Done 0 r) = Some (k (st cn ps l)).2.
Proof.
  intros Hk Hf Hc. unfold handle. cbn [pending conn lookup list_lookup delete list_delete log faults shutting_down].
  by rewrite Hk, Hc, andb_false_r, Hf.
Qed.

Lemma handle_freed cn ps l :
  is_closing cn = true → freed cn = false → existsb is_write ps = false →
  handle web_root routes port (st cn ps l) HandleClosed = Some (free_connection (st cn ps l)).
Proof. intros Hc Hf Hw. unfold handle. cbn [pending conn]. by rewrite Hc, Hf, Hw. Qed.

Lemma handle_dangling s o ps r k :
  pending s = o :: ps → callback web_root o r = Some k → freed (conn s) = true → is_write o = false →
  handle web_root routes port s (Done 0 r) = None.
Proof. intros Hp Hk Hf Hw. unfold handle. rewrite Hp. cbn [lookup list_lookup]. by rewrite Hk, Hw, Hf. Qed.

(** ** Owners *)

(** What the operation that owns the connection has done for its request. *)
Definition owner_phase (o : op H) : option phase :=
  match o with
  | HandlerWork _ WRITE_ACTION_NONE | ProxyThread _ WRITE_ACTION_NONE | Write _ WRITE_ACTION_NONE => None
  | HandlerWork _ _ | ProxyThread _ _ | FsOpen _ _ | FsStat _ => Some Waiting
  | Write _ _ | FsRead _ _ _ | ChunkWrite _ _ | FsClose _ => Some Answering
  end.

Definition is_async (o : op H) : bool := match o with HandlerWork _ _ | Write _ _ => false | _ => true end.
Definition is_work (o : op H) : bool := match o with HandlerWork _ _ => true | _ => false end.
Definition is_head_write (o : op H) : Prop := ∃ d, o = Write d WRITE_ACTION_NONE.
Definition is_plain_write (o : op H) : Prop := ∃ d a, o = Write d a ∧ a ≠ WRITE_ACTION_KEEP_ALIVE.
Definition is_socket_write (o : op H) : Prop := ∃ d a, o = Write d a.

(** The socket is read for the next request; or its input was no request; or one
    operation owns the connection; or it is closed, with writes to be cancelled. *)
Inductive situation (cn : libuv_connection_t) (ps : list (op H)) : phase → Prop :=
  | SIdle : is_closing cn = false → is_reading cn = true → parser_error cn = None →
      async_response_pending (srv cn) = false → handler_on_worker (srv cn) = false →
      Forall is_head_write ps → situation cn ps Idle
  | SRefused : is_closing cn = false → is_reading cn = true → parser_error cn = Some HPE_OTHER →
      async_response_pending (srv cn) = false → handler_on_worker (srv cn) = false →
      Forall is_plain_write ps → situation cn ps Refused
  | SOwned o ws p : is_closing cn = false → is_reading cn = false → parser_error cn = Some HPE_PAUSED →
      async_response_pending (srv cn) = is_async o → handler_on_worker (srv cn) = is_work o →
      ps ≡ₚ o :: ws → Forall is_head_write ws → owner_phase o = Some p → situation cn ps p
  | SClosed p : is_closing cn = true → is_reading cn = false → Forall is_socket_write ps → situation cn ps p.

Record served (s : loop H) : Prop := {
  served_faults : faults s = [];
  served_up : shutting_down s = false;
  served_response : freed (conn s) = false → good_response (response (conn s));
  served_deferred : deferred_file_serve (srv (conn s)) = false;
  served_freed : freed (conn s) = true → is_closing (conn s) = true ∧ pending s = [];
  served_phase : ∃ p, protocol (log s) = Some p ∧ situation (conn s) (pending s) p
}.

(** What is asked of an event: the peer takes the head of a file, a file can be
    examined and has the range, handlers and go2rtc give responses that can be
    sent, and the server is not stopped. *)
Definition well_behaved (s : loop H) (e : event) : Prop :=
  match e with
  | Receive _ _ err => err ≠ HPE_PAUSED
  | ReadError | HandleClosed => True
  | ServerStops => False
  | Done i r =>
      match pending s !! i, r with
      | Some (Write _ WRITE_ACTION_NONE), Written ok => ok = true ∨ is_closing (conn s) = true
      | Some (FsStat c), Stated size =>
          ∃ n, size = Some n ∧
            is_Some (locate c n (http_request_get_header (request (rhead (conn s))) (lit "Range")))
      | Some (HandlerWork _ _), Handled f _ => ∀ res, good_response res → good_response (f res)
      | Some (ProxyThread _ _), Proxied answer =>
          ∀ code t b, answer = Some (code, t, b) → 0 ≤ code < 1000 ∧ Z.of_nat (length (default [] b)) < 2 ^ 63
      | _, _ => True
      end
  end.

Fixpoint well_run (s : loop H) (es : list event) : Prop :=
  match es with
  | [] => True
  | e :: es => well_behaved s e ∧ ∀ s', handle web_root routes port s e = Some s' → well_run s' es
  end.

(** An operation that ends is the owner, or a write of a head. *)
Lemma owned_pick ps o ws i o' p :
  ps ≡ₚ o :: ws → Forall is_head_write ws → owner_phase o = Some p → ps !! i = Some o' →
  (o' = o ∧ Forall is_head_write (delete i ps)) ∨
  (is_head_write o' ∧ ∃ ws', delete i ps ≡ₚ o :: ws' ∧ Forall is_head_write ws').
Proof.
  intros Hp Hw Ho Hi. assert (o :: ws ≡ₚ o' :: delete i ps) as Hd by (rewrite <-Hp; by apply delete_Permutation).
  assert (is_head_write o' ∨ ¬ is_head_write o') as [Hh|Hh].
  { destruct o' as [| |d []| | | | |]; first [by left; eexists | by right; intros [? ?]]. }
  - right. split; [done|]. assert (o ∈ o' :: delete i ps) as Hin by (rewrite <-Hd; left).
    apply elem_of_cons in Hin as [-> |Hin]; [by destruct Hh as [d ->]|].
    apply elem_of_Permutation in Hin as [ws' Hws]. exists ws'. split; [done|]. rewrite Hws in Hd.
    assert (ws ≡ₚ o' :: ws') as Hww by (apply (Permutation_cons_inv (a := o)); rewrite Hd; constructor).
    rewrite Hww in Hw. by apply Forall_cons in Hw as [_ ?].
  - left. assert (o' ∈ o :: ws) as Hin by (rewrite Hd; left). apply elem_of_cons in Hin as [-> |Hin].
    + split; [done|]. apply (Permutation_cons_inv (a := o)) in Hd. by rewrite <-Hd.
    + by rewrite Forall_forall in Hw; apply Hw in Hin.
Qed.

Lemma served_in cn ps l p :
  freed cn = false → good_response (response cn) → deferred_file_serve (srv cn) = false → protocol l = Some p →
  situation cn ps p → served (st cn ps l).
Proof. intros Hf Hr Hd Hl Hs. constructor; cbn [faults shutting_down conn pending log]; try done; [congruence|]. by exists p. Qed.

(** A connection whose request is with its owner. *)
Record busy (cn : libuv_connection_t) : Prop := {
  busy_open : is_closing cn = false;
  busy_reading : is_reading cn = false;
  busy_paused : parser_error cn = Some HPE_PAUSED;
  busy_freed : freed cn = false;
  busy_deferred : deferred_file_serve (srv cn) = false;
  busy_response : good_response (response cn)
}.

Lemma head_is_socket ws : Forall is_head_write ws → Forall is_socket_write ws.
Proof. intros Hf. eapply Forall_impl; [exact Hf|]. intros o [d ->]. by eexists _, _. Qed.

Lemma plain_is_socket ws : Forall is_plain_write ws → Forall is_socket_write ws.
Proof. intros Hf. eapply Forall_impl; [exact Hf|]. intros o (d & a & -> & _). by eexists _, _. Qed.

Lemma hand_over cn ws l o p :
  busy cn → async_response_pending (srv cn) = is_async o → handler_on_worker (srv cn) = is_work o →
  Forall is_head_write ws → owner_phase o = Some p → protocol l = Some p → served (st cn (ws ++ [o]) l).
Proof.
  intros [] Ha Hk Hw Ho Hl. constructor; cbn [faults shutting_down conn pending log]; try done; [congruence|].
  exists p. split; [done|]. apply (SOwned cn _ o ws); try done. symmetry. apply Permutation_cons_append.
Qed.

Lemma now_idle cn ws l :
  busy cn → async_response_pending (srv cn) = false → Forall is_head_write ws → protocol l = Some Answering →
  served (libuv_connection_reset (st cn ws l)).2.
Proof.
  intros [] Ha Hw Hl. rewrite reset_ok by done. cbn [snd].
  constructor; cbn [faults shutting_down conn pending log]; try done.
  - intros _. split; [|vm_compute; done]. constructor; [vm_compute; intuition discriminate|vm_compute; lia|done].
  - cbn. congruence.
  - exists Idle. split; [by eapply protocol_snoc|]. by constructor.
Qed.

Lemma now_closed cn ws l p :
  busy cn → Forall is_head_write ws → protocol l = Some p → served (libuv_connection_close (st cn ws l)).2.
Proof.
  intros [] Hw Hl. rewrite close_ok, busy_open0. cbn [snd].
  constructor; cbn [faults shutting_down conn pending log with_io is_closing freed]; try done; [cbn; congruence|].
  exists p. split; [done|]. constructor; [done..|]. by apply head_is_socket.
Qed.

Lemma busy_srv f cn : (∀ s, deferred_file_serve (f s) = deferred_file_serve s) → busy cn → busy (with_srv f cn).
Proof. intros Hf []. constructor; try done. cbn. by rewrite Hf. Qed.

Lemma busy_with_response f cn : good_response (f (response cn)) → busy cn → busy (with_response f cn).
Proof. intros Hf []. by constructor. Qed.

#[local] Hint Resolve busy_srv : core.

(** ** Each callback of an owner hands the connection over *)

Lemma response_sent cn ws l a :
  busy cn → async_response_pending (srv cn) = false → handler_on_worker (srv cn) = false → Forall is_head_write ws →
  a ≠ WRITE_ACTION_NONE → protocol l = Some Waiting → served (libuv_send_response_ex a (st cn ws l)).2.
Proof.
  intros Hb Ha Hk Hw Hn Hl. rewrite send_response_ok by (by destruct Hb). cbn [snd].
  eapply (hand_over _ _ _ _ Answering); try done; [by destruct a|]. by eapply protocol_snoc.
Qed.

Lemma file_refused cn ws l code m :
  busy cn → handler_on_worker (srv cn) = false → Forall is_head_write ws →
  0 ≤ code < 1000 → Z.of_nat (length (lit m)) < 2 ^ 32 → protocol l = Some Waiting →
  served (file_error code m (st cn ws l)).2.
Proof.
  intros Hb Hk Hw Hc Hm Hl. destruct (file_error_ok cn ws l code m) as (d & res & -> & Hr); [by destruct Hb|done..|].
  pose proof (after_response_none cn) as Ha. cbn [snd]. eapply (hand_over _ _ _ _ Answering); try done.
  - apply busy_srv; [done|]. by apply busy_with_response.
  - by destruct (after_response cn).
  - by eapply protocol_snoc.
Qed.

Lemma next_chunk cn ws l c :
  busy cn → async_response_pending (srv cn) = true → handler_on_worker (srv cn) = false → Forall is_head_write ws →
  protocol l = Some Answering → served (send_file_chunk c (st cn ws l)).2.
Proof.
  intros Hb Ha Hk Hw Hl. destruct (chunk_ok cn ws l c) as (o & -> & [-> |(n & k & ->)]); cbn [snd]; by eapply hand_over.
Qed.

Lemma opened cn ws l c ok :
  busy cn → async_response_pending (srv cn) = true → handler_on_worker (srv cn) = false → Forall is_head_write ws →
  protocol l = Some Waiting → served (on_file_open c ok (st cn ws l)).2.
Proof.
  intros Hb Ha Hk Hw Hl. unfold on_file_open. destruct ok; cbn [negb]; [|by apply file_refused].
  run_m. by eapply hand_over.
Qed.

Lemma head_of_nonempty c : head_of c ≠ [].
Proof. unfold head_of, file_head. by destruct (fs_range c) as [[]|]. Qed.

Lemma stated cn ws l c c' n :
  busy cn → async_response_pending (srv cn) = true → handler_on_worker (srv cn) = false → Forall is_head_write ws →
  protocol l = Some Waiting → locate c n (http_request_get_header (request (rhead cn)) (lit "Range")) = Some c' →
  served (on_file_stat c (Some n) (st cn ws l)).2.
Proof.
  intros Hb Ha Hk Hw Hl Hc. unfold on_file_stat. run_m. rewrite Hc. run_m. unfold libuv_connection_send.
  rewrite send_ok by (first [by destruct Hb | apply head_of_nonempty]). cbn [negb]. apply next_chunk; try done.
  - apply Forall_app. split; [done|]. repeat constructor. by eexists.
  - by eapply protocol_snoc.
Qed.

Lemma bytes_read cn ws l c data :
  busy cn → async_response_pending (srv cn) = true → handler_on_worker (srv cn) = false → Forall is_head_write ws →
  protocol l = Some Answering → served (on_file_read c data (st cn ws l)).2.
Proof.
  intros Hb Ha Hk Hw Hl. unfold on_file_read. destruct data as [[|b data]|]; run_m; [by eapply hand_over| |by eapply hand_over].
  rewrite (busy_open _ Hb). run_m. eapply (hand_over _ _ _ _ Answering); try done. by eapply protocol_snoc.
Qed.

Lemma chunk_written cn ws l c ok :
  busy cn → async_response_pending (srv cn) = true → handler_on_worker (srv cn) = false → Forall is_head_write ws →
  protocol l = Some Answering → served (on_chunk_write_complete c ok (st cn ws l)).2.
Proof.
  intros Hb Ha Hk Hw Hl. unfold on_chunk_write_complete. destruct ok; [by apply next_chunk|]. by eapply hand_over.
Qed.

Lemma file_closed cn ws l c :
  busy cn → async_response_pending (srv cn) = true → Forall is_head_write ws →
  protocol l = Some Answering → served (on_file_close c (st cn ws l)).2.
Proof.
  intros Hb Ha Hw Hl. unfold on_file_close. run_m. rewrite Ha, (busy_open _ Hb). cbn [negb orb].
  destruct (_ && _); [apply now_idle|eapply now_closed]; try done; by apply busy_srv.
Qed.

(** ** Handlers *)

Lemma static_ok cn ws l stat :
  ∃ f, static_file_resolve_handler web_root stat (st cn ws l) = (tt, st (f cn) ws l) ∧
    ((∃ p t x, f = with_srv (set_deferred true p t x)) ∨
     (∃ res, f = with_response (λ _, res) ∧ good_response res)).
Proof.
  assert (∀ code m, 0 ≤ code < 1000 → Z.of_nat (length (lit m)) < 2 ^ 32 →
    ∃ f, set_json_error code m (st cn ws l) = (tt, st (f cn) ws l) ∧
      ((∃ p t x, f = with_srv (set_deferred true p t x)) ∨ (∃ res, f = with_response (λ _, res) ∧ good_response res))) as He.
  { intros code m Hc Hm. exists (with_response (λ _, (http_response_set_json_error (true, true) (response cn) code (lit m)).2)).
    split; [done|]. right. eexists. split; [done|]. by apply good_json_error. }
  unfold static_file_resolve_handler. run_m.
  repeat case_match; first [by apply He | eexists; split; [reflexivity|]; left; by eexists _, _, _].
Qed.

Lemma discard {A S} (p : A * S) : (let '(_, s) := p in (tt, s)).2 = p.2.
Proof. by destruct p. Qed.

(** After a handler: a file it asked for, or its response. *)
Lemma after_work cn ws l a :
  is_closing cn = false → is_reading cn = false → parser_error cn = Some HPE_PAUSED → freed cn = false →
  good_response (response cn) → async_response_pending (srv cn) = false → a ≠ WRITE_ACTION_NONE →
  Forall is_head_write ws → protocol l = Some Waiting →
  served (handler_after_work_cb a false (st cn ws l)).2.
Proof.
  intros Hc Hr Hp Hf Hg Ha Hn Hw Hl. unfold handler_after_work_cb. run_m. cbn [srv with_srv set_on_worker deferred_file_serve].
  destruct (deferred_file_serve (srv cn)) eqn:Ed.
  - run_m. match goal with |- context [libuv_serve_file ?p ?t ?x ?s] =>
      destruct (serve_file_ok (conn s) (pending s) (log s) p t x) as [c Ec] end. cbn [conn pending log] in Ec. rewrite Ec. run_m.
    eapply hand_over; try done.
  - run_m. cbn [srv with_srv set_on_worker async_response_pending]. rewrite Ha, discard. apply response_sent; try done.
Qed.

Lemma handler_ends cn ws l h a r k :
  busy cn → async_response_pending (srv cn) = false → handler_on_worker (srv cn) = true → a ≠ WRITE_ACTION_NONE →
  Forall is_head_write ws → protocol l = Some Waiting → handler_done web_root h a r = Some k →
  (∀ f file res, r = Handled f file → good_response res → good_response (f res)) →
  served (k (st cn ws l)).2.
Proof.
  intros Hb Ha Hk Hn Hw Hl Hd Hg. destruct Hb.
  destruct h as [h|], r as [f file|stat| | | | | | |]; cbn [handler_done] in Hd; try done; injection Hd as <-.
  - run_m. destruct file as [[[p t] x]|].
    + unfold http_serve_file. run_m. cbn [srv with_response]. rewrite Hk. run_m. apply after_work; try done. cbn. by eapply Hg.
    + run_m. apply after_work; try done. cbn. by eapply Hg.
  - unfold handler_after_work_cb. run_m. by eapply now_closed.
  - unfold mbind at 1, m_bind at 1. destruct (static_ok cn ws l stat) as (f & -> & [(p & t & x & ->)|(res & -> & Hr)]); by apply after_work.
  - unfold handler_after_work_cb. run_m. by eapply now_closed.
Qed.

Lemma good_proxied code t b res :
  0 ≤ code < 1000 → Z.of_nat (length (default [] b)) < 2 ^ 63 → good_response res → good_response (proxy_response code t b res).
Proof.
  intros Hc Hb [[Hs Ht Hl] _]. unfold proxy_response. split; [|done].
  constructor; cbn [set_body status_code content_type body_length response_body]; [by rewrite !add_header_status| |done].
  rewrite !add_header_type. cbn [content_type]. destruct (empty t); [done|]. pose proof (strcpy_trunc_length 128 t). lia.
Qed.

Lemma proxied cn ws l a answer :
  busy cn → handler_on_worker (srv cn) = false → a ≠ WRITE_ACTION_NONE → Forall is_head_write ws → protocol l = Some Waiting →
  (∀ code t b, answer = Some (code, t, b) → 0 ≤ code < 1000 ∧ Z.of_nat (length (default [] b)) < 2 ^ 63) →
  served (proxy_async_cb a answer (st cn ws l)).2.
Proof.
  intros Hb Hk Hn Hw Hl Hg. unfold proxy_async_cb. run_m.
  assert (∃ res, good_response res ∧ take_proxied answer (st cn ws l) = (tt, st (with_response (λ _, res) cn) ws l)) as (res & Hr & E).
  { destruct answer as [[[code t] b]|].
    - destruct (Hg code t b eq_refl) as [Hc Hl']. destruct code; [eexists; split; [|reflexivity]; by apply good_json_error| |lia].
      eexists. split; [|reflexivity]. apply good_proxied; try done. by destruct Hb.
    - eexists. split; [|reflexivity]. by apply good_json_error. }
  rewrite E. run_m. rewrite discard. apply response_sent; try done. apply busy_srv; [done|]. by apply busy_with_response.
Qed.

(** ** Input *)

(** A connection that reads its socket. *)
Record ready (cn : libuv_connection_t) : Prop := {
  ready_open : is_closing cn = false;
  ready_reading : is_reading cn = true;
  ready_freed : freed cn = false;
  ready_deferred : deferred_file_serve (srv cn) = false;
  ready_async : async_response_pending (srv cn) = false;
  ready_worker : handler_on_worker (srv cn) = false;
  ready_response : good_response (response cn)
}.

Lemma ready_head f cn : ready cn → ready (with_head f cn).
Proof. by intros []. Qed.
Lemma ready_buf f cn : ready cn → ready (with_buf f cn).
Proof. by intros []. Qed.
Lemma ready_error e cn : ready cn → ready (with_error e cn).
Proof. by intros []. Qed.
#[local] Hint Resolve ready_head ready_buf ready_error : core.

(** A complete request gets an owner, and the parser is stopped. *)
Lemma message_complete cn ps l keeps :
  ready cn → ∃ cn' o r, on_message_complete routes port keeps (st cn ps l) = (HPE_PAUSED, st cn' (ps ++ [o]) (l ++ [Dispatched r])) ∧
    busy (with_error (Some HPE_PAUSED) cn') ∧ async_response_pending (srv cn') = is_async o ∧
    handler_on_worker (srv cn') = is_work o ∧ owner_phase o = Some Waiting.
Proof.
  intros []. unfold on_message_complete. run_m.
  destruct (go2rtc_proxy_path_matches _).
  - unfold go2rtc_proxy_thread_submit. run_m. destruct (request_body (rbuf cn)) as [[|b bs]|]; run_m; cbn [rhead with_head with_io request set_request_body body]; run_m;
      (eexists _, _, _; split; [reflexivity|]; split; [by constructor|]; split; [done|]; split; [done|]; cbn; by destruct (after_response _) eqn:Ea;
        unfold after_response in Ea; destruct (keeps_alive _)).
  - eexists _, _, _. split; [reflexivity|]. split; [by constructor|]. split; [done|]. split; [done|]. cbn.
    by destruct (after_response _) eqn:Ea; unfold after_response in Ea; destruct (keeps_alive _).
Qed.

Lemma calls_ok cn ps l calls :
  ready cn → ∃ cn', 
    (run_calls routes port calls (st cn ps l) = (HPE_OK, st cn' ps l) ∧ ready cn' ∧ parser_error cn' = parser_error cn) ∨
    (∃ o r, run_calls routes port calls (st cn ps l) = (HPE_PAUSED, st cn' (ps ++ [o]) (l ++ [Dispatched r])) ∧
       busy (with_error (Some HPE_PAUSED) cn') ∧ async_response_pending (srv cn') = is_async o ∧
       handler_on_worker (srv cn') = is_work o ∧ owner_phase o = Some Waiting).
Proof.
  revert cn. induction calls as [|[url m|n|v|pos len|keeps] calls IH]; intros cn Hc; cbn [run_calls]; run_m;
    [exists cn; by left|..];
    try (match goal with |- context [run_calls _ _ calls {| conn := ?cn' |}] => destruct (IH cn') as [cn2 Hcn2]; [by auto|by exists cn2] end).
  destruct (message_complete cn ps l keeps Hc) as (cn' & o & r & -> & Hb). exists cn'. right. by exists o, r.
Qed.

Lemma idle_again cn ps l :
  ready cn → parser_error cn = None → Forall is_head_write ps → protocol l = Some Idle → served (st cn ps l).
Proof. intros [] He Hw Hl. constructor; cbn; try done; [congruence|]. exists Idle. split; [done|]. by constructor. Qed.

Lemma refused cn ps l p :
  ready cn → parser_error cn = Some HPE_OTHER → Forall is_plain_write ps → protocol l = Some p → p = Idle ∨ p = Refused →
  served (refuse 400 "Bad Request" WRITE_ACTION_CLOSE (st cn ps l)).2.
Proof.
  intros [] He Hw Hl Hp. unfold refuse, mbind, m_bind. rewrite json_error_ok.
  assert (good_response (http_response_set_json_error (true, true) (response cn) 400 (lit "Bad Request")).2) as Hg by by apply good_json_error.
  rewrite send_response_ok by done. unfold mret, m_ret. cbn [snd].
  constructor; cbn [conn pending log faults shutting_down]; try done; [cbn; congruence|]. exists Refused. split.
  - eapply protocol_snoc; [done|]. by destruct Hp as [-> | ->].
  - apply SRefused; try done. apply Forall_app. split; [done|]. repeat constructor. by eexists _, _.
Qed.

Lemma head_is_plain ws : Forall is_head_write ws → Forall is_plain_write ws.
Proof. intros Hf. eapply Forall_impl; [exact Hf|]. intros o [d ->]. by eexists _, _. Qed.

Lemma closing_now cn ps l p :
  is_closing cn = false → freed cn = false → good_response (response cn) → deferred_file_serve (srv cn) = false →
  Forall is_socket_write ps → protocol l = Some p → served (libuv_connection_close (st cn ps l)).2.
Proof.
  intros Hc Hf Hg Hd Hw Hl. rewrite close_ok, Hc. cbn [snd]. constructor; cbn; try done; [congruence|]. exists p. split; [done|]. by constructor.
Qed.

Lemma input cn ps l p data calls err :
  ready cn → situation cn ps p → protocol l = Some p → err ≠ HPE_PAUSED →
  served (libuv_read_cb routes port data calls err (st cn ps l)).2.
Proof.
  intros Hr Hs Hl He. unfold libuv_read_cb, llhttp_execute. run_m. set (cn1 := with_buf _ cn). assert (ready cn1) as Hr1 by by apply ready_buf.
  destruct Hs as [_ _ Hp _ _ Hw|_ _ Hp _ _ Hw|o ws q _ Hq|q Hq]; [| |destruct Hr; congruence|destruct Hr; congruence];
    change (parser_error cn1) with (parser_error cn); rewrite Hp; run_m.
  2:{ rewrite discard. apply (refused cn1 ps l Refused); auto. }
  destruct (calls_ok cn1 ps l calls Hr1) as [cn2 [(-> & Hr2 & _)|(o & r & -> & Hb & Ha & Hk & Ho)]]; cbn [conn pending log faults shutting_down].
  - destruct err; [|done| |].
    + by apply idle_again; auto.
    + eapply closing_now; try apply Hr2; [|done]. by apply head_is_socket.
    + rewrite discard. apply (refused _ ps l Idle); auto. by apply head_is_plain.
  - eapply (hand_over _ _ _ _ Waiting); try done. by eapply protocol_snoc.
Qed.

(** ** Every event *)

(** A write that ends on its own leaves the owner alone. *)
Lemma head_written cn ps l ok : (ok = true ∨ is_closing cn = true) → (libuv_write_cb WRITE_ACTION_NONE ok (st cn ps l)).2 = st cn ps l.
Proof. intros [-> |Hc]; [done|]. destruct ok; [done|]. unfold libuv_write_cb. by rewrite close_ok, Hc. Qed.

Lemma owner_ends cn ps l i o r k p :
  busy cn → async_response_pending (srv cn) = is_async o → handler_on_worker (srv cn) = is_work o →
  Forall is_head_write (delete i ps) → ps !! i = Some o → owner_phase o = Some p → protocol l = Some p →
  callback web_root o r = Some k → well_behaved (st cn ps l) (Done i r) → served (k (st cn (delete i ps) l)).2.
Proof.
  intros Hb Ha Hk Hw Hi Ho Hl Hc Hg. cbn [well_behaved pending conn] in Hg. rewrite Hi in Hg.
  destruct o as [h a|pr a|d a|path c|c|n pos c|d c|c]; cbn [is_async is_work] in *.
  - eapply handler_ends; try done.
    + by intros ->.
    + destruct a; by simplify_eq/=.
    + intros f file res ->. apply Hg.
  - destruct r; try done. injection Hc as <-. apply proxied; try done; [by intros ->|destruct a; by simplify_eq/=].
  - destruct r as [| | | |ok| | | |]; try done. injection Hc as <-. destruct a; [done|..]; injection Ho as <-; destruct ok;
      first [by apply now_idle | by eapply now_closed].
  - destruct r; try done. injection Hc as <-. injection Ho as <-. by apply opened.
  - destruct r; try done. injection Hc as <-. injection Ho as <-. destruct Hg as (z & -> & c' & Hc'). by eapply stated.
  - destruct r; try done. injection Hc as <-. injection Ho as <-. by apply bytes_read.
  - destruct r; try done. injection Hc as <-. injection Ho as <-. by apply chunk_written.
  - destruct r; try done. injection Hc as <-. injection Ho as <-. by apply file_closed.
Qed.

Lemma served_done cn ps l i r :
  served (st cn ps l) → well_behaved (st cn ps l) (Done i r) →
  ∃ s', handle web_root routes port (st cn ps l) (Done i r) = Some s' ∧ served s'.
Proof.
  intros Hs Hg. pose proof Hs as [_ _ Hresp Hdef Hfreed (p & Hl & Hsit)]. cbn [conn pending log] in *. cbn [handle pending conn log faults shutting_down].
  destruct (ps !! i) as [o|] eqn:Hi; [|by eexists]. destruct (callback web_root o r) as [k|] eqn:Hc; [|by eexists].
  destruct (is_write o && is_closing cn && succeeds r) eqn:Hcancel; [by eexists|].
  destruct (freed cn) eqn:Hf; [by destruct (Hfreed eq_refl) as [_ ->]|]. eexists. split; [done|].
  assert (∀ q, situation cn ps q → protocol l = Some q → Forall is_head_write ps → is_closing cn = false →
    situation cn (delete i ps) q → served (k (st cn (delete i ps) l)).2) as Hquiet.
  { intros q _ Hq Hw Hopen Hsit'. rewrite Forall_lookup in Hw. destruct (Hw _ _ Hi) as [d ->]. destruct r as [| | | |ok| | | |]; try done.
    injection Hc as <-. cbn [well_behaved pending conn] in Hg. rewrite Hi in Hg. rewrite head_written by done.
    apply (served_in _ _ _ q); auto. }
  destruct Hsit as [Hopen H1 H2 H3 H4 Hw|Hopen H1 H2 H3 H4 Hw|o' ws q Hopen H1 H2 H3 H4 Hp Hw Ho|q Hopen H1 Hw].
  - apply (Hquiet Idle); try done; [by constructor|]. constructor; try done. by apply Forall_delete.
  - pose proof Hw as Hw'. rewrite Forall_lookup in Hw'. destruct (Hw' _ _ Hi) as (d & a & -> & Ha). destruct r as [| | | |ok| | | |]; try done.
    injection Hc as <-. assert (served (libuv_connection_close (st cn (delete i ps) l)).2) as Hclose.
    { eapply closing_now; try done; [by auto|]. by apply plain_is_socket, Forall_delete. }
    destruct ok, a; try done. apply (served_in _ _ _ Refused); [auto..|]. apply SRefused; try done. by apply Forall_delete.
  - assert (busy cn) as Hb by (constructor; auto).
    destruct (owned_pick ps o' ws i o q) as [[-> Hw']|[[d ->] (ws' & Hp' & Hw')]]; [done..|by eapply owner_ends|].
    destruct r as [| | | |ok| | | |]; try done. injection Hc as <-. cbn [well_behaved pending conn] in Hg. rewrite Hi in Hg.
    rewrite head_written by done. apply (served_in _ _ _ q); [auto..|]. by apply (SOwned _ _ o' ws').
  - pose proof Hw as Hw'. rewrite Forall_lookup in Hw'. destruct (Hw' _ _ Hi) as (d & a & ->). destruct r as [| | | |ok| | | |]; try done.
    injection Hc as <-. destruct ok; [by rewrite Hopen in Hcancel|].
    assert ((libuv_write_cb a false (st cn (delete i ps) l)).2 = st cn (delete i ps) l) as ->
      by (unfold libuv_write_cb; by rewrite close_ok, Hopen).
    apply (served_in _ _ _ q); [auto..|]. constructor; try done. by apply Forall_delete.
Qed.

Lemma not_freed s : served s → is_closing (conn s) = false → freed (conn s) = false.
Proof. intros Hs Hc. destruct (freed (conn s)) eqn:E; [|done]. apply Hs in E as [? _]. congruence. Qed.

Lemma served_step s e : served s → well_behaved s e → ∃ s', handle web_root routes port s e = Some s' ∧ served s'.
Proof.
  intros Hs Hg. pose proof (not_freed s Hs) as Hnf. destruct s as [cn ps l fs down]. pose proof Hs as [Hfs Hdown Hresp Hdef Hfreed (p & Hl & Hsit)].
  cbn in Hfs, Hdown. subst fs down. cbn [conn pending log] in *. destruct e as [data calls err| |i r| |]; [..|done].
  - cbn [handle conn]. destruct (is_reading cn && negb (is_closing cn) && negb (empty data)) eqn:E; [|by eexists]. unbool.
    unfold fallible at 1. cbn [faults]. destruct (libuv_alloc_cb true (rbuf cn)) as [b available].
    destruct (Z.of_nat (length data) <=? available); [|by eexists]. eexists. split; [done|]. unfold modify. cbn [snd conn pending log faults shutting_down].
    assert (ready cn) as Hr by (destruct Hsit; try congruence; constructor; auto).
    apply (input _ _ _ p); try done; [by apply ready_buf|]. destruct Hsit; [by constructor|by constructor|by eapply SOwned|by constructor].
  - cbn [handle conn]. destruct (is_reading cn && negb (is_closing cn)) eqn:E; [|by eexists]. unbool. eexists. split; [done|].
    eapply closing_now; try done; try by auto. destruct Hsit; try congruence; [by apply head_is_socket|by apply plain_is_socket].
  - by apply served_done.
  - cbn [handle conn pending]. destruct (is_closing cn && negb (freed cn) && negb (existsb is_write ps)) eqn:E; [|by eexists]. unbool.
    eexists. split; [done|]. destruct Hsit as [| | |q Hq Hrd Hw]; try congruence.
    assert (ps = []) as ->.
    { destruct Hw as [|o ps [d [a ->]] _]; [done|]. match goal with H : existsb _ _ = _ |- _ => by rewrite (eq_refl : existsb is_write (Write d a :: ps) = true) in H end. }
    constructor; cbn; try done. exists q. split; [done|]. by constructor.
Qed.

Lemma accepted_served ip : served (accepted ip []).
Proof.
  constructor; cbn; try done.
  - intros _. split; [|vm_compute; done]. constructor; [vm_compute; intuition discriminate|vm_compute; lia|done].
  - exists Idle. split; [done|]. by constructor.
Qed.

Lemma served_run s es : served s → well_run s es → ∃ s', run web_root routes port s es = Some s' ∧ served s'.
Proof.
  revert s. induction es as [|e es IH]; intros s Hs Hg; [by exists s|]. destruct Hg as [He Hes].
  destruct (served_step s e Hs He) as (s' & E & Hs'). cbn [run]. rewrite E. cbn [mbind option_bind]. apply IH; auto.
Qed.


(** ** When the connection is freed before its file is *)

(** a range that the file does not have is refused, and the file is closed
    while the refusal is written.  If the connection is to be closed after it, the
    callback of the file may come after the connection is freed. *)
Theorem refused_range_dangles cn l c n :
  busy cn → keeps_alive cn = false → has_range c = true →
  libuv_parse_range_header (http_request_get_header (request (rhead cn)) (lit "Range")) n = None →
  run web_root routes port (st cn [FsStat c] l)
    [Done 0 (Stated (Some n)); Done 0 (Written true); HandleClosed; Done 0 FileClosed] = None.
Proof.
  intros Hb Hk Hr Hn. cbn [run]. erewrite handle_done by (try reflexivity; apply Hb). cbn [mbind option_bind].
  unfold on_file_stat. run_m. unfold locate. rewrite Hr, Hn. cbn [mbind option_bind].
  destruct (file_error_ok cn [] l 416 "Requested Range Not Satisfiable") as (d & res & -> & _); [by apply Hb|done..|].
  unfold after_response. rewrite Hk. run_m. cbn [app]. set (cn2 := with_srv _ _).
  erewrite handle_done by (try reflexivity; apply Hb). unfold libuv_write_cb. rewrite close_ok. change (is_closing cn2) with (is_closing cn).
  rewrite (busy_open _ Hb). cbn [snd mbind option_bind]. rewrite handle_freed by (try reflexivity; apply Hb). cbn [mbind option_bind].
  by erewrite handle_dangling.
Qed.

(** the head of a file is written while the file is read.  If the peer is gone
    the write fails and the connection is closed and freed; the read then ends
    on a freed connection. *)
Theorem failed_head_dangles cn l c c' n d :
  busy cn → locate c n (http_request_get_header (request (rhead cn)) (lit "Range")) = Some c' → remaining c' ≠ 0 →
  run web_root routes port (st cn [FsStat c] l)
    [Done 0 (Stated (Some n)); Done 0 (Written false); HandleClosed; Done 0 (BytesRead d)] = None.
Proof.
  intros Hb Hc Hr. cbn [run]. erewrite handle_done by (try reflexivity; apply Hb). cbn [mbind option_bind].
  unfold on_file_stat. run_m. rewrite Hc. run_m. unfold libuv_connection_send.
  rewrite send_ok by (first [by apply Hb | apply head_of_nonempty]). run_m. unfold send_file_chunk. cbn [set_headers_sent remaining].
  rewrite (proj2 (Z.eqb_neq _ _) Hr). run_m. cbn [app].
  erewrite handle_done by (try reflexivity; apply Hb). unfold libuv_write_cb. rewrite close_ok, (busy_open _ Hb). cbn [snd mbind option_bind].
  rewrite handle_freed by (try reflexivity; apply Hb). cbn [mbind option_bind]. by erewrite handle_dangling.
Qed.
End connection.

(** ** A server, and requests for a recording *)

Definition example_root : cstr := lit "/var/lib/www".

Definition example_routes : list (route unit) := [mkRoute (lit "/api/streams/#") (lit "GET") tt].

Definition ask (url : string) (hs : list (string * string)) : event :=
  Receive (lit "GET") (OnUrl (lit url) (lit "GET") ::
    concat (map (λ h, [OnHeaderField (lit h.1); OnHeaderValue (lit h.2)]) hs) ++ [OnMessageComplete true]) HPE_OK.

Definition on_disk (path : cstr) : option file_kind := Some RegularFile.

Abbreviation example_run := (run example_root example_routes 1984 (accepted (lit "10.1.3.7") [])).

(** Up to the examination of the file. *)
Definition asked (hs : list (string * string)) : list event :=
  [ask "/clip.mp4" hs; Done 0 (Resolved on_disk); Done 0 (Opened true)].

(** A range of a file, and a request for a handler on the same connection. *)
Definition example_visit : list event :=
  asked [("Range", "bytes=2-")]%string ++
  [Done 0 (Stated (Some 5)); Done 1 (BytesRead (Some (lit "cde"))); Done 0 (Written true); Done 0 (Written true);
   Done 0 FileClosed; ask "/api/streams/front" []; Done 0 (Handled id None); Done 0 (Written true)].


(** The connection and the file after [asked]. *)
Definition example_conn (hs : list (string * string)) : libuv_connection_t :=
  match example_run (asked hs) with Some s => conn s | None => conn (accepted (H := unit) [] []) end.

Definition example_file (ranged : bool) : file_serve_ctx_t := file_serve_ctx (lit "video/mp4") [] ranged.

Definition busyb (cn : libuv_connection_t) : bool :=
  negb (is_closing cn) && negb (is_reading cn) && negb (freed cn) && negb (deferred_file_serve (srv cn)) &&
  match parser_error cn with Some HPE_PAUSED => true | _ => false end &&
  match response cn with mkResponse 200 [] None 0 false [] => true | _ => false end.

Lemma busyb_spec cn : busyb cn = true → busy cn.
Proof.
  unfold busyb. intros Hb. unbool. constructor; try done.
  - by destruct (parser_error cn) as [[]|].
  - destruct (response cn) as [[|p|] [] [] [] [] []]; try done; repeat (destruct p; try done).
    split; [|vm_compute; done]. constructor; [vm_compute; intuition discriminate|vm_compute; lia|done].
Qed.

Lemma refused_range_dangles_witness :
  run example_root example_routes 1984
    (mkLoop (example_conn [("Range", "bytes=900-"); ("Connection", "close")]%string) [FsStat (example_file true)] [] [] false)
    [Done 0 (Stated (Some 5)); Done 0 (Written true); HandleClosed; Done 0 FileClosed] = None.
Proof. apply refused_range_dangles; [apply busyb_spec; vm_compute; reflexivity|vm_compute; reflexivity..]. Defined.

Lemma failed_head_dangles_witness :
  run example_root example_routes 1984 (mkLoop (example_conn []) [FsStat (example_file false)] [] [] false)
    [Done 0 (Stated (Some 5)); Done 0 (Written false); HandleClosed; Done 0 (BytesRead (Some (lit "abcde")))] = None.
Proof.
  eapply failed_head_dangles; [apply busyb_spec; vm_compute; reflexivity|vm_compute; reflexivity|vm_compute; discriminate].
Defined.

(** A file that was refused may be closed after the next request began: the
    connection is then reset while that request is answered, and two answers can
    meet on it. *)
Example stale_close_resets :
  (s ← example_run (asked [("Range", "bytes=900-")]%string ++
    [Done 0 (Stated (Some 5)); Done 0 (Written true)] ++
    [ask "/clip.mp4" []; Done 1 (Resolved on_disk); Done 1 (Opened true); Done 1 (Stated (Some 5)); Done 0 FileClosed]);
   Some (protocol (log s), is_reading (conn s), length (pending s))) = Some (Some Idle, true, 2%nat).
Proof. vm_compute. reflexivity. Qed.

(** When the open of a file cannot be started, nothing answers the request and
    nothing closes the connection, which is not read any more. *)
Example open_failure_hangs :
  (s ← run example_root example_routes 1984 (accepted (lit "10.1.3.7") [true; true; true; true; true; false]) [ask "/clip.mp4" []; Done 0 (Resolved on_disk)];
   Some (pending s, is_reading (conn s), is_closing (conn s), protocol (log s))) = Some ([], false, false, Some Waiting).
Proof. vm_compute. reflexivity. Qed.
