(* ===== verification/Dispatch.v ===== *)
(** * From the calls of the parser to a handler

    The patterns of routes by their segments, the body that a handler is given,
    and what becomes of a request that is answered with a file or passed on to
    go2rtc: the callbacks of [Connection] seen from the requests. *)
From Stdlib Require Import ZArith Lia Bool.
From Stdlib Require Import Strings.Byte.
From stdpp Require Import base numbers list strings.
From S2P Require Import Prelude.
From S2P Require Import Libc.
From S2P Require Import HttpMessage.
From S2P Require Import HttpWire.
From S2P Require Import Connection.
From S2P Require Import ConnectionSafety.
#[local] Open Scope Z_scope.

(** ** Patterns *)

Definition slash : byte := Byte.x2f.
Definition wildcard : cstr := [Byte.x23].

(** A path by its segments. *)
Definition path_of (segments : list cstr) : cstr := concat (cons slash <$> segments).

(** A segment of a pattern: the wildcard, or text to be matched as it is. *)
Definition pattern_segment (s : cstr) : Prop := s = wildcard ∨ Forall (λ c, c ≠ slash ∧ c ≠ Byte.x23 ∧ c ≠ Byte.x2a) s.

Definition segment_matches (pattern s : cstr) : bool := streq pattern wildcard || streq s pattern.

(** [open]: the pattern ends in a slash and a star, for one segment or more. *)
Fixpoint segments_match (open : bool) (segments patterns : list cstr) : bool :=
  match patterns, segments with
  | [], [] => negb open
  | [], _ :: _ => open
  | p :: patterns, s :: segments => segment_matches p s && segments_match open segments patterns
  | _ :: _, [] => false
  end.

(** What may follow a segment. *)
Definition boundary (r : cstr) : Prop := r = [] ∨ head r = Some slash.

Lemma boundary_path segments : boundary (path_of segments).
Proof. destruct segments; [by left|by right]. Qed.

Lemma skip_segment_app s r : slash ∉ s → boundary r → skip_segment (s ++ r) = r.
Proof.
  intros Hs Hr. induction s as [|c s IH]; simpl.
  - destruct Hr as [-> |Hr]; [done|]. destruct r as [|x r]; [done|]. simpl in *. by injection Hr as ->.
  - apply not_elem_of_cons in Hs as [Hc Hs]. rewrite bool_decide_false by (by intros ->). by apply IH.
Qed.

Lemma literal_matches p s r r' :
  Forall (λ c, c ≠ slash ∧ c ≠ Byte.x23 ∧ c ≠ Byte.x2a) p → slash ∉ s → boundary r → boundary r' →
  path_matches_pattern (s ++ r) (p ++ r') = streq s p && path_matches_pattern r r'.
Proof.
  intros Hp. revert s. induction Hp as [|c p (Hc1 & Hc2 & Hc3) _ IH]; intros s Hs Hr Hr'; simpl.
  - destruct s as [|x s]; [by rewrite streq_refl|]. simpl. apply not_elem_of_cons in Hs as [Hx Hs].
    destruct Hr' as [-> |Hr']; [done|]. destruct r' as [|y r']; [done|]. simpl in Hr'. injection Hr' as ->.
    cbn [path_matches_pattern]. by rewrite !bool_decide_false by done.
  - rewrite !bool_decide_false by done. destruct s as [|x s]; simpl.
    + destruct Hr as [-> |Hr]; [done|]. destruct r as [|y r]; [done|]. simpl in Hr. injection Hr as ->. by rewrite bool_decide_false by done.
    + apply not_elem_of_cons in Hs as [Hx Hs]. case_bool_decide as Hcx.
      * subst x. rewrite IH by done. f_equal. unfold streq. apply bool_decide_ext. split; [by intros ->|by intros [= ->]].
      * symmetry. by rewrite (proj2 (streq_false _ _)) by (by intros [= -> _]).
Qed.

Lemma wildcard_matches s r r' :
  slash ∉ s → boundary r → boundary r' → path_matches_pattern (s ++ r) (wildcard ++ r') = path_matches_pattern r r'.
Proof.
  intros Hs Hr Hr'. cbn [wildcard app path_matches_pattern]. rewrite bool_decide_false, bool_decide_true by done.
  rewrite skip_segment_app by done. destruct r' as [|y r']; [done|]. destruct Hr' as [|Hr']; [done|]. simpl in Hr'. injection Hr' as ->.
  destruct r as [|x r]; [|done]. cbn. by rewrite !bool_decide_false.
Qed.

(** a pattern matches the paths with its segments, in its order, the wildcard
    standing for one segment of any text; with a star at its end it matches those
    that go on. *)
Theorem pattern_by_segments open segments patterns :
  Forall (λ s, slash ∉ s) segments → Forall pattern_segment patterns →
  path_matches_pattern (path_of segments) (path_of patterns ++ if open : bool then lit "/*" else []) =
  segments_match open segments patterns.
Proof.
  intros Hs Hp. revert segments Hs. assert (Hend : boundary (if open then lit "/*" else [])) by (destruct open; [by right|by left]).
  assert (Hb : ∀ ps, boundary (path_of ps ++ if open then lit "/*" else [])) by (intros [|? ?]; [exact Hend|by right]).
  induction Hp as [|p patterns Hp _ IH]; intros segments Hs.
  - destruct Hs as [|s segments Hs _]; destruct open; reflexivity.
  - destruct Hs as [|s segments Hs Hss]; [destruct open; reflexivity|].
    change (path_of (p :: patterns)) with (slash :: p ++ path_of patterns). change (path_of (s :: segments)) with (slash :: s ++ path_of segments).
    cbn [app path_matches_pattern segments_match]. rewrite !bool_decide_false by done. rewrite bool_decide_true by done.
    rewrite <-app_assoc, <-IH by done. pose proof (boundary_path segments). unfold segment_matches.
    destruct Hp as [-> |Hp]; [by rewrite streq_refl, wildcard_matches|].
    rewrite literal_matches by done. destruct (streq p wildcard) eqn:E; [|done]. exfalso. apply streq_true in E as ->.
    by apply Forall_cons in Hp as [(_ & ? & _) _].
Qed.

(** ** Bodies *)

(** The fragments of a body, one after the other in the buffer. *)
Fixpoint fragments (pos : nat) (ns : list nat) : list parser_call :=
  match ns with [] => [] | n :: ns => OnBody pos n :: fragments (pos + n) ns end.

Definition track (calls : list parser_call) (b : receive_buffer) : receive_buffer :=
  foldl (λ b c, match c with OnBody pos len => on_body pos len b | _ => b end) b calls.

Lemma track_body pos len calls b : track (OnBody pos len :: calls) b = track calls (on_body pos len b).
Proof. done. Qed.

Lemma track_more pos ns b :
  body_present b = true →
  track (fragments pos ns) b = mkBuffer (received b) (recv_buffer_size b) (body_offset b) true (body_len b + sum_list ns).
Proof.
  revert pos b. induction ns as [|n ns IH]; intros pos b Hb; cbn [fragments sum_list].
  - destruct b; cbn in *; subst. by rewrite Nat.add_0_r.
  - rewrite track_body. unfold on_body. rewrite Hb, IH by done. cbn. by rewrite Nat.add_assoc.
Qed.

(** A body that lies in the buffer in one piece is what the handler is given, in
    however many fragments it was reported. *)
Lemma body_in_one_piece b pos n ns :
  body_present b = false → Z.of_nat pos ≤ recv_buffer_size b →
  request_body (track (fragments pos (n :: ns)) b) = Some (take (n + sum_list ns) (drop pos (received b))).
Proof.
  intros Hb Hp. cbn [fragments]. rewrite track_body. unfold on_body. rewrite Hb, (proj2 (Z.leb_le _ _)) by done.
  rewrite track_more by done. done.
Qed.

(** A body in chunks has their framing between the fragments: the handler is
    given the first bytes, framing included, and the last are missing. *)
Lemma chunked_body_misread pre a framing c post size :
  Z.of_nat (length pre) ≤ size →
  request_body (track [OnBody (length pre) (length a); OnBody (length pre + length a + length framing) (length c)]
    (mkBuffer (pre ++ a ++ framing ++ c ++ post) size 0 false 0)) = Some (a ++ take (length c) (framing ++ c ++ post)).
Proof.
  intros Hp. cbn [track foldl]. unfold on_body. cbn [body_present recv_buffer_size]. rewrite (proj2 (Z.leb_le _ _)) by done.
  unfold request_body. cbn [body_present body_len body_offset received]. rewrite drop_app_length.
  by rewrite take_app_add.
Qed.

(** ** Requests *)

Section dispatch.
Context {H : Type} (web_root : cstr) (routes : list (route H)) (port : Z).

Abbreviation st cn p l := (mkLoop cn p l [] false : loop H).

(** A URL that llhttp reports in two parts, as it does when a read ends in it: the
    second replaces the first. *)
Lemma split_url a b m h :
  Byte.x3f ∉ b → (length b < MAX_PATH_LENGTH)%nat → path (request (on_url b m (on_url a m h))) = b.
Proof.
  intros Hb Hl. unfold on_url at 1. cbn [request]. assert (take (URI_SIZE - 1) b = b) as -> by (apply take_ge; unfold URI_SIZE, MAX_PATH_LENGTH in *; lia).
  rewrite split_first_none by done. cbn [path set_path]. by rewrite strcpy_trunc_id.
Qed.

(** A value in two parts becomes two headers; the first is the one that is found. *)
Lemma split_value n a b h :
  headers (request h) = [] → (length n < 128)%nat → (length a < 1024)%nat →
  http_request_get_header (request (on_header_value b (on_header_value a (on_header_field n h)))) n = Some a.
Proof.
  intros Hh Hn Ha. assert (take 127 n = n) as En by (apply take_ge; lia). assert (take 1023 a = a) as Ea by (apply take_ge; lia).
  unfold on_header_field. rewrite En. unfold on_header_value at 2. cbn [request]. rewrite Hh. cbn [MAX_HEADERS length Nat.leb].
  unfold on_header_value, add_request_header. cbn [request current_header_field headers]. rewrite Hh. cbn [app length MAX_HEADERS Nat.leb].
  unfold http_request_get_header. cbn [request headers app find_idx header_name]. rewrite strcpy_trunc_id by done. rewrite strcaseeq_refl.
  cbn [mbind option_bind lookup list_lookup header_value]. by rewrite Ea.
Qed.

(** What follows a request in the same read is never looked at. *)
Lemma pipelined_lost cn ps l keeps rest :
  ready cn → run_calls routes port (OnMessageComplete keeps :: rest) (st cn ps l) = run_calls routes port [OnMessageComplete keeps] (st cn ps l).
Proof.
  intros Hr. cbn [run_calls]. unfold mbind, m_bind. destruct (message_complete routes port cn ps l keeps Hr) as (cn' & o & r & -> & _). done.
Qed.

(** The first read of a new connection. *)
Lemma first_read ip data calls err :
  data ≠ [] → Z.of_nat (length data) ≤ 4096 →
  handle web_root routes port (accepted ip []) (Receive data calls err) =
  Some (libuv_read_cb routes port data calls err (accepted ip [])).2.
Proof.
  intros Hd Hl. unfold handle. cbn [conn accepted is_reading is_closing negb andb]. destruct data as [|b data]; [done|]. cbn [empty negb].
  unfold fallible at 1. cbn [faults accepted rbuf conn]. unfold libuv_alloc_cb. cbn [recv_buffer_size received length].
  change (LIBUV_RECV_BUFFER_INITIAL - Z.of_nat 0) with 4096. cbn [Z.ltb Z.compare Pos.compare Pos.compare_cont andb].
  rewrite (proj2 (Z.leb_le _ _)) by done. done.
Qed.

Definition get_request (url m : cstr) (keeps : bool) : list parser_call := [OnUrl url m; OnMessageComplete keeps].

Definition below_url (path query m : cstr) (h : request_head) : request_head :=
  mkHead (set_path path query (request h)) m (request_type h) (content_length h) (current_header_field h) (keep_alive h) (parser_keeps h).

Lemma on_url_path url m h :
  Byte.x3f ∉ url → (length url < MAX_PATH_LENGTH)%nat → on_url url m h = below_url url [] (strcpy_trunc 16 m) h.
Proof.
  intros Hq Hu. unfold on_url. rewrite (take_ge url) by (unfold URI_SIZE, MAX_PATH_LENGTH in *; lia).
  rewrite split_first_none by done. by rewrite strcpy_trunc_id.
Qed.

Lemma on_url_query path query m h :
  Byte.x3f ∉ path → (length path < MAX_PATH_LENGTH)%nat → (length query < 1024)%nat →
  on_url (path ++ Byte.x3f :: query) m h = below_url path query (strcpy_trunc 16 m) h.
Proof.
  intros Hq Hp Hl. unfold on_url. rewrite (take_ge (_ ++ _)) by (rewrite length_app; cbn [length]; unfold URI_SIZE, MAX_PATH_LENGTH in *; lia).
  rewrite split_first_app by done. rewrite (proj2 (Nat.ltb_lt _ _)) by done. by rewrite strcpy_trunc_id.
Qed.

Lemma with_head_ext f g cn : (∀ h, f h = g h) → with_head f cn = with_head g cn.
Proof. intros Hfg. unfold with_head. by rewrite Hfg. Qed.

(** The first request of a connection, up to its dispatch. *)
Lemma first_request ip data url m keeps path query :
  data ≠ [] → Z.of_nat (length data) ≤ 4096 → (∀ h, on_url url m h = below_url path query (strcpy_trunc 16 m) h) →
  ∃ cn, ready cn ∧ parser_error cn = None ∧ HttpMessage.path (request (rhead cn)) = path ∧ query_string (request (rhead cn)) = query ∧
    method_str (rhead cn) = strcpy_trunc 16 m ∧ request_type (rhead cn) = [] ∧ body_present (rbuf cn) = false ∧
    (∀ cn' o r, on_message_complete routes port keeps (st cn [] []) = (HPE_PAUSED, st cn' [o] [r]) →
     handle web_root routes port (accepted ip []) (Receive data (get_request url m keeps) HPE_OK) =
     Some (st (with_error (Some HPE_PAUSED) cn') [o] [r])).
Proof.
  intros Hd Hl Hu. exists (with_head (below_url path query (strcpy_trunc 16 m)) (with_buf
    (λ b, mkBuffer (received b ++ data) (recv_buffer_size b) (body_offset b) (body_present b) (body_len b)) (conn (accepted (H := H) ip [])))).
  split; [apply ready_head, ready_buf; constructor; try done|].
  { split; [|vm_compute; done]. constructor; [vm_compute; intuition discriminate|vm_compute; lia|done]. }
  do 6 (split; [done|]). intros cn' o r Hm. rewrite first_read by done. f_equal. unfold libuv_read_cb, llhttp_execute, get_request.
  cbn [run_calls]. change (accepted (H := H) ip []) with (st (conn (accepted (H := H) ip [])) [] []). set (cn0 := conn (accepted (H := H) ip [])) in *.
  run_m. change (parser_error (with_buf _ cn0)) with (@None llhttp_errno). run_m. rewrite (with_head_ext _ _ _ Hu), Hm. done.
Qed.

(** A request for no route of the proxy is given to the thread pool. *)
Lemma offloaded cn l keeps :
  go2rtc_proxy_path_matches (path (request (rhead cn))) = false →
  ∃ cn' a r, on_message_complete routes port keeps (st cn [] l) =
    (HPE_PAUSED, st cn' [HandlerWork (find_handler routes (method_str (rhead cn)) (path (request (rhead cn)))) a] (l ++ [r])) ∧
    path (request (rhead cn')) = path (request (rhead cn)) ∧ is_closing cn' = is_closing cn ∧ freed cn' = freed cn.
Proof.
  intros Hp. unfold on_message_complete. run_m. cbn [rhead with_head request set_request_body path]. rewrite Hp. run_m.
  eexists _, _, _. split; [reflexivity|]. done.
Qed.

Lemma resolved cn a l stat kind :
  (length (web_root ++ path (request (rhead cn))) < MAX_PATH_LENGTH)%nat → is_closing cn = false → freed cn = false →
  stat (web_root ++ path (request (rhead cn))) = Some kind → kind ≠ Directory →
  ∃ s c, handle web_root routes port (st cn [HandlerWork None a] l) (Done 0 (Resolved stat)) = Some s ∧
    pending s = [FsOpen (web_root ++ path (request (rhead cn))) c].
Proof.
  intros Hl Hc Hf Hs Hk. erewrite handle_done by done. unfold static_file_resolve_handler. run_m. rewrite strcpy_trunc_id, Hs by done.
  destruct kind; [done|..]; unfold handler_after_work_cb; run_m; cbn [srv with_srv set_deferred set_on_worker deferred_file_serve];
    unfold libuv_serve_file; run_m; rewrite strcpy_trunc_id by done; eexists _, _; by split.
Qed.

(** a request that no route answers opens the file that its path names below
    the web root, whatever the path: nothing asks who sent it, and parts that
    lead up out of the web root are kept. *)
Theorem static_path_not_confined ip data url m keeps stat kind :
  data ≠ [] → Z.of_nat (length data) ≤ 4096 → Byte.x3f ∉ url → (length (web_root ++ url) < MAX_PATH_LENGTH)%nat →
  go2rtc_proxy_path_matches url = false → find_handler routes (strcpy_trunc 16 m) url = None →
  stat (web_root ++ url) = Some kind → kind ≠ Directory →
  ∃ s c, run web_root routes port (accepted ip []) [Receive data (get_request url m keeps) HPE_OK; Done 0 (Resolved stat)] = Some s ∧
    pending s = [FsOpen (web_root ++ url) c].
Proof.
  intros Hd Hl Hq Hlen Hp Hr Hs Hk. assert (length url < MAX_PATH_LENGTH)%nat as Hu by (rewrite length_app in Hlen; lia).
  destruct (first_request ip data url m keeps url []) as (cn & Hcn & _ & Hpath & _ & Hmeth & _ & _ & E); [done..| |].
  { intros h. by apply on_url_path. }
  destruct (offloaded cn [] keeps) as (cn' & a & r & Em & Hpath' & Hc' & Hf'); [by rewrite Hpath|].
  rewrite Hmeth, Hpath, Hr in Em. cbn [run]. rewrite (E _ _ _ Em). cbn [mbind option_bind].
  destruct (resolved (with_error (Some HPE_PAUSED) cn') a [r] stat kind) as (s & c & Eh & Hpend);
    cbn [rhead with_error is_closing freed]; rewrite ?Hpath', ?Hpath, ?Hc', ?Hf'; try done; try apply Hcn.
  exists s, c. rewrite Eh. split; [done|]. rewrite Hpend. cbn [rhead with_error]. by rewrite Hpath', Hpath.
Qed.

(** every request below /go2rtc/ is passed on with its method, path and query,
    whatever the routes are, and nothing asks who sent it. *)
Theorem proxy_not_confined ip data path query m keeps :
  data ≠ [] → Z.of_nat (length data) ≤ 4096 → Byte.x3f ∉ path → go2rtc_proxy_path_matches path = true →
  (length path < MAX_PATH_LENGTH)%nat → (0 < length query < 1024)%nat → (length m < 16)%nat → 0 < port < 65536 →
  ∃ s a, run web_root routes port (accepted ip []) [Receive data (get_request (path ++ Byte.x3f :: query) m keeps) HPE_OK] = Some s ∧
    pending s = [ProxyThread (mkProxy (lit "http://127.0.0.1:" ++ decimal port ++ path ++ lit "?" ++ query) m [] []) a].
Proof.
  intros Hd Hl Hq Hp Hlen Hquery Hm Hport.
  destruct (first_request ip data (path ++ Byte.x3f :: query) m keeps path query) as (cn & Hcn & _ & Hpath & Hqs & Hmeth & Htype & Hbody & E); [done..| |].
  { intros h. apply on_url_query; [done..|lia]. }
  assert (∃ cn' a r, on_message_complete routes port keeps (st cn [] []) = (HPE_PAUSED, st cn' [ProxyThread
    (mkProxy (lit "http://127.0.0.1:" ++ decimal port ++ path ++ lit "?" ++ query) m [] []) a] [r])) as (cn' & a & r & Em).
  { unfold on_message_complete. run_m. cbn [rhead with_head request set_request_body HttpMessage.path]. rewrite Hpath, Hp.
    unfold go2rtc_proxy_thread_submit. run_m. unfold request_body. rewrite Hbody.
    cbn [rhead with_head with_io request set_request_body HttpMessage.path body query_string request_type method_str]. run_m.
    rewrite Hpath, Hqs, Hmeth, Htype. rewrite (Z.gtb_ltb port 0), (proj2 (Z.ltb_lt _ _)) by lia.
    destruct query as [|c query]; [simpl in Hquery; lia|]. cbn [empty]. rewrite !(strcpy_trunc_id 16) by (rewrite ?strcpy_trunc_id; done).
    rewrite (strcpy_trunc_id 2048); [by eexists _, _, _|]. pose proof (decimal_length 5 port ltac:(lia) ltac:(lia)). rewrite !length_app.
    change (length (lit "http://127.0.0.1:")) with 17%nat. change (length (lit "?")) with 1%nat. unfold MAX_PATH_LENGTH in *. lia. }
  exists (st (with_error (Some HPE_PAUSED) cn') [ProxyThread (mkProxy (lit "http://127.0.0.1:" ++ decimal port ++ path ++ lit "?" ++ query) m [] []) a] [r]), a.
  split; [|done]. cbn [run]. by rewrite (E _ _ _ Em).
Qed.
End dispatch.

(** ** Examples *)

Lemma pattern_by_segments_witness :
  path_matches_pattern (lit "/api/streams/front/zones") (lit "/api/streams/#/zones") = true ∧
  path_matches_pattern (lit "/api/streams/front") (lit "/api/streams/#/zones") = false.
Proof.
  split.
  - etransitivity; [|exact (eq_refl : segments_match false [lit "api"; lit "streams"; lit "front"; lit "zones"]
      [lit "api"; lit "streams"; wildcard; lit "zones"] = true)].
    apply (pattern_by_segments false [lit "api"; lit "streams"; lit "front"; lit "zones"] [lit "api"; lit "streams"; wildcard; lit "zones"]);
      [apply (bool_decide_eq_true_1 _); vm_compute; reflexivity|].
    repeat (apply Forall_cons; split; [first [by left | right; apply (bool_decide_eq_true_1 _); vm_compute; reflexivity]|]). constructor.
  - etransitivity; [|exact (eq_refl : segments_match false [lit "api"; lit "streams"; lit "front"]
      [lit "api"; lit "streams"; wildcard; lit "zones"] = false)].
    apply (pattern_by_segments false [lit "api"; lit "streams"; lit "front"] [lit "api"; lit "streams"; wildcard; lit "zones"]);
      [apply (bool_decide_eq_true_1 _); vm_compute; reflexivity|].
    repeat (apply Forall_cons; split; [first [by left | right; apply (bool_decide_eq_true_1 _); vm_compute; reflexivity]|]). constructor.
Defined.

(** The database of the server, asked for by anybody. *)
Lemma static_path_not_confined_witness :
  ∃ s c, run example_root example_routes 1984 (accepted (lit "203.0.113.9") [])
      [Receive (lit "GET") (get_request (lit "/../lightnvr/lightnvr.db") (lit "GET") true) HPE_OK; Done 0 (Resolved on_disk)] = Some s ∧
    pending s = [FsOpen (lit "/var/lib/www/../lightnvr/lightnvr.db") c].
Proof.
  apply (static_path_not_confined example_root example_routes 1984 (lit "203.0.113.9") (lit "GET") (lit "/../lightnvr/lightnvr.db")
    (lit "GET") true on_disk RegularFile).
  - vm_compute. discriminate.
  - vm_compute. discriminate.
  - apply (bool_decide_eq_true_1 _). vm_compute. reflexivity.
  - apply (bool_decide_eq_true_1 _). vm_compute. reflexivity.
  - vm_compute. reflexivity.
  - vm_compute. reflexivity.
  - reflexivity.
  - discriminate.
Defined.

Lemma proxy_not_confined_witness :
  ∃ s a, run example_root example_routes 1984 (accepted (lit "203.0.113.9") [])
      [Receive (lit "PUT") (get_request (lit "/go2rtc/api/streams" ++ Byte.x3f :: lit "name=x") (lit "PUT") true) HPE_OK] = Some s ∧
    pending s = [ProxyThread (mkProxy (lit "http://127.0.0.1:1984/go2rtc/api/streams?name=x") (lit "PUT") [] []) a].
Proof.
  apply (proxy_not_confined example_root example_routes 1984 (lit "203.0.113.9") (lit "PUT") (lit "/go2rtc/api/streams") (lit "name=x")
    (lit "PUT") true).
  - vm_compute. discriminate.
  - vm_compute. discriminate.
  - apply (bool_decide_eq_true_1 _). vm_compute. reflexivity.
  - vm_compute. reflexivity.
  - apply (bool_decide_eq_true_1 _). vm_compute. reflexivity.
  - split; apply (bool_decide_eq_true_1 _); vm_compute; reflexivity.
  - apply (bool_decide_eq_true_1 _). vm_compute. reflexivity.
  - split; reflexivity.
Defined.
