(* ===== verification/FileRequests.v ===== *)
(** * Requests for files

    The handlers that make the path of a file from a request:
    [handle_direct_hls_request] of [src/web/api_handlers_streaming.c],
    [handle_get_detection_snapshot] of [api_handlers_detection_results.c], and the path of
    the log that [api_handlers_system_logs.c] clears.  Where such paths lead, and where
    those of the static files of [Connection] lead, is decided by their components: [..]
    goes up, and symbolic links are not followed. *)
From Stdlib Require Import ZArith Lia Bool.
From Stdlib Require Import Strings.Byte.
From stdpp Require Import base numbers list strings sets.
From S2P Require Import Prelude.
From S2P Require Import Libc.
From S2P Require Import CStrings.
From S2P Require Import Auth.
From S2P Require Import HttpMessage.
From S2P Require Import HttpUtils.
From S2P Require Import HttpWire.
From S2P Require Import Connection.
From S2P Require Import Dispatch.
From S2P Require Import Paths.
#[local] Open Scope Z_scope.

(** ** HLS *)

(** The storage paths of the configuration. *)
Record storage_config := mkStorageConfig {
  storage_path : cstr;
  storage_path_hls : cstr;
  log_file : cstr
}.

Inductive file_answer :=
  | Refused (status : Z)
  | SendFile (path content_type extra_headers : cstr)
  | EmptyPlaylist.

Definition contains (p s : cstr) : bool := bool_decide (is_Some (strstr p s)).

Definition hls_content_type (file_name : cstr) : cstr :=
  if contains (lit ".m3u8") file_name then lit "application/vnd.apple.mpegurl"
  else if contains (lit ".ts") file_name then lit "video/mp2t"
  else if contains (lit ".m4s") file_name then lit "video/iso.segment"
  else if contains (lit "init.mp4") file_name then lit "video/mp4"
  else lit "application/octet-stream".

Definition hls_headers (file_name : cstr) : cstr :=
  strcpy_trunc 512
    ((if contains (lit ".m3u8") file_name then lit "Cache-Control: no-cache, no-store, must-revalidate" ++ crlf
      else lit "Cache-Control: public, max-age=300" ++ crlf) ++
     lit "Access-Control-Allow-Origin: *" ++ crlf ++ lit "Access-Control-Allow-Methods: GET, OPTIONS" ++ crlf ++
     lit "Access-Control-Allow-Headers: Origin, Content-Type, Accept, Authorization" ++ crlf).

Definition hls_root (cfg : storage_config) : cstr :=
  let storage_path_hls := strcpy_trunc MAX_PATH_LENGTH (storage_path_hls cfg) in
  if empty storage_path_hls then strcpy_trunc MAX_PATH_LENGTH (storage_path cfg) else storage_path_hls.

Definition hls_file_path (cfg : storage_config) (stream_path file_name : cstr) : cstr :=
  strcpy_trunc (MAX_PATH_LENGTH * 2) (hls_root cfg ++ lit "/hls/" ++ stream_path ++ slash :: file_name).

(** [regular]: whether [stat] finds a regular file. *)
Definition handle_direct_hls_request (cfg : option storage_config) (regular : cstr → bool) (req : http_request_t) : file_answer :=
  let uri := path req in
  if (length uri <? 6)%nat || negb (starts_with (lit "/hls/") uri) then Refused 400 else
  match split_first slash (drop 5 uri) with
  | None => Refused 400
  | Some (encoded, file_name) =>
      if empty encoded then Refused 400 else
      let encoded_stream_name := strcpy_trunc MAX_STREAM_NAME encoded in
      let stream_name := default [] (url_decode encoded_stream_name MAX_STREAM_NAME) in
      let stream_path := sanitize_stream_name stream_name MAX_STREAM_NAME in
      if empty file_name then Refused 400 else
      match cfg with
      | None => Refused 500
      | Some cfg =>
          let file_path := hls_file_path cfg stream_path file_name in
          if regular file_path then SendFile file_path (hls_content_type file_name) (hls_headers file_name)
          else if contains (lit ".m3u8") file_name then EmptyPlaylist
          else Refused 404
      end
  end.

(** ** Snapshots of detections *)

Definition word_char (c : byte) : bool := isalnum c || bool_decide (c = Byte.x5f) || bool_decide (c = Byte.x2d).

(** The stream and the file of the path, when both are plain names. *)
Definition snapshot_parts (param : cstr) : option (cstr * cstr) :=
  '(stream_part, file_part) ← split_first slash param;
  if empty stream_part || empty file_part then None
  else if negb (forallb word_char stream_part) then None
  else if (length file_part <? 5)%nat || negb (streq (drop (length file_part - 4) file_part) (lit ".jpg")) then None
  else if negb (forallb (λ c, word_char c || bool_decide (c = Byte.x2e)) file_part) then None
  else if contains (lit "..") file_part then None
  else Some (stream_part, file_part).

Definition snapshot_path (cfg : storage_config) (stream_part file_part : cstr) : cstr :=
  strcpy_trunc MAX_PATH_LENGTH (storage_path cfg ++ lit "/snapshots/" ++ stream_part ++ slash :: file_part).

Section snapshots.
Context {D : Type} {IC : InetConversions} {AS : AuthStore D}.

(** Who may see it; [None] is undefined behaviour. *)
Definition may_view (cfg : config_t) (req : http_request_t) (d : D) : option (bool * D) :=
  if negb (web_auth_enabled cfg) then Some (true, d) else
  '(user, d) ← (if demo_mode cfg then httpd_check_viewer_access cfg req d else httpd_get_authenticated_user cfg req d);
  Some (match user with Some _ => true | None => false end, d).

Definition handle_get_detection_snapshot (cfg : config_t) (files : storage_config) (regular : cstr → bool) (req : http_request_t)
    (d : D) : option (file_answer * D) :=
  '(allowed, d) ← may_view cfg req d;
  Some (if negb allowed then Refused 401 else
        match http_request_extract_path_param req (lit "/api/snapshots/") 512 with
        | None => Refused 400
        | Some param_buf =>
            match snapshot_parts param_buf with
            | None => Refused 400
            | Some (stream_part, file_part) =>
                let snapshot_path := snapshot_path files stream_part file_part in
                if regular snapshot_path
                then SendFile snapshot_path (lit "image/jpeg") (lit "Cache-Control: private, max-age=86400" ++ crlf)
                else Refused 404
            end
        end, d).
End snapshots.

(** ** The log *)

Definition DEFAULT_LOG_FILE : cstr := lit "/var/log/lightnvr.log".
Definition FALLBACK_LOG_FILE : cstr := lit "./lightnvr.log".

Definition is_safe_log_path (path : cstr) : bool :=
  negb (empty path) && negb (contains (lit "/../") path) &&
  negb ((3 <=? length path)%nat && streq (drop (length path - 3) path) (lit "/..")) &&
  negb (starts_with (lit "../") path) && negb (streq path (lit "..")).

(** The log that is cleared; [accessible]: it exists and opens for writing. *)
Definition log_to_clear (cfg : storage_config) (accessible : cstr → bool) : cstr :=
  let log_file := if empty (log_file cfg) then DEFAULT_LOG_FILE else log_file cfg in
  let log_file := if is_safe_log_path log_file then log_file else FALLBACK_LOG_FILE in
  if accessible log_file then log_file
  else if accessible FALLBACK_LOG_FILE then FALLBACK_LOG_FILE else log_file.

(** ** Where a path leads *)

Definition is_slash (c : byte) : bool := bool_decide (c = slash).

Definition components (p : cstr) : list cstr := strtok is_slash [] p.

(** The directories that are open, the innermost first. *)
Fixpoint walk (stack cs : list cstr) : list cstr :=
  match cs with
  | [] => stack
  | c :: cs =>
      if streq c (lit ".") then walk stack cs
      else if streq c (lit "..") then walk (tail stack) cs
      else walk (c :: stack) cs
  end.

Definition lexical (p : cstr) : list cstr := reverse (walk [] (components p)).

(** At [root], or below it. *)
Definition within (root p : cstr) : Prop := ∃ rest, lexical p = lexical root ++ rest.

Lemma strtok_slash cur a b : strtok is_slash cur (a ++ slash :: b) = strtok is_slash cur a ++ components b.
Proof.
  revert cur. induction a as [|c a IH]; intros cur; cbn [app strtok].
  - change (is_slash slash) with true. cbn. by destruct cur.
  - destruct (is_slash c); [|apply IH]. destruct cur; [apply IH|]. by rewrite IH.
Qed.

Lemma components_slash a b : components (a ++ slash :: b) = components a ++ components b.
Proof. apply strtok_slash. Qed.

Lemma components_plain s : slash ∉ s → components s = match s with [] => [] | _ => [s] end.
Proof.
  intros Hs. unfold components. rewrite <-(app_nil_r s) at 1. rewrite strtok_app.
  - rewrite app_nil_r. destruct s as [|c s]; [done|]. cbn [strtok]. destruct (reverse (c :: s)) eqn:E.
    + by apply (f_equal length) in E; rewrite length_reverse in E.
    + by rewrite <-E, reverse_involutive.
  - apply Forall_forall. intros c Hc. apply bool_decide_eq_false_2. by intros ->.
Qed.

Lemma walk_app stack a b : walk stack (a ++ b) = walk (walk stack a) b.
Proof. revert stack. induction a as [|c a IH]; intros stack; [done|]. cbn [app walk]. by rewrite !IH; repeat case_match. Qed.

(** Without [..] it only goes down. *)
Lemma walk_down stack cs : Forall (λ c, c ≠ lit "..") cs → ∃ rest, walk stack cs = rest ++ stack.
Proof.
  intros Hcs. revert stack. induction Hcs as [|c cs Hc _ IH]; intros stack; [by exists []|]. cbn [walk].
  destruct (streq c (lit ".")); [apply IH|]. rewrite (proj2 (streq_false _ _)) by done.
  destruct (IH (c :: stack)) as [rest ->]. exists (rest ++ [c]). by rewrite <-app_assoc.
Qed.

Lemma walk_up stack n : walk stack (replicate n (lit "..")) = drop n stack.
Proof.
  revert stack. induction n as [|n IH]; intros stack; [done|]. cbn [replicate walk].
  change (streq (lit "..") (lit ".")) with false. change (streq (lit "..") (lit "..")) with true. cbv iota. rewrite IH.
  destruct stack; [cbn [tail]; by rewrite !drop_nil|done].
Qed.

(** A path that goes below a root, by what is walked from there. *)
Lemma within_walk root p cs :
  components p = components root ++ cs → (∃ rest, walk (walk [] (components root)) cs = rest ++ walk [] (components root)) →
  within root p.
Proof.
  intros E [rest Hw]. exists (reverse rest). unfold lexical. by rewrite E, walk_app, Hw, reverse_app.
Qed.

(** ** What is sent *)

Lemma url_decode_loop_src src room : (length (url_decode_loop src room) ≤ length src)%nat.
Proof.
  revert src. induction room as [|room IH]; intros src; [destruct src; simpl; lia|]. destruct src as [|c rest]; [simpl; lia|].
  cbn [url_decode_loop]. destruct (_ && _).
  - destruct (sscanf_2x rest); cbn [length].
    + pose proof (IH (drop 2 rest)) as H. rewrite length_drop in H. lia.
    + pose proof (IH rest). lia.
  - pose proof (IH rest). case_bool_decide; simpl; lia.
Qed.

Lemma url_decode_src src n : (length (default [] (url_decode src n)) ≤ length src)%nat.
Proof.
  unfold url_decode. destruct (_ =? 0)%nat; [simpl; lia|]. cbn [from_option id].
  etrans; [apply cstring_length|apply url_decode_loop_src].
Qed.

Lemma skip_segment_nil s : skip_segment s = [] → slash ∉ s.
Proof.
  induction s as [|c s IH]; [intros _; apply not_elem_of_nil|]. cbn [skip_segment]. case_bool_decide as Hc; [done|].
  intros E%IH. rewrite not_elem_of_cons. split; [|done]. intros <-. by apply Hc.
Qed.

Lemma hls_route_plain encoded file_name :
  slash ∉ encoded → path_matches_pattern (lit "/hls/" ++ encoded ++ slash :: file_name) (lit "/hls/#/#") = true → slash ∉ file_name.
Proof.
  intros He. change (lit "/hls/" ++ encoded ++ slash :: file_name) with (slash :: lit "hls" ++ slash :: encoded ++ slash :: file_name).
  change (lit "/hls/#/#") with (slash :: lit "hls" ++ slash :: wildcard ++ slash :: wildcard).
  assert (Hstep : ∀ x y, path_matches_pattern (slash :: x) (slash :: y) = path_matches_pattern x y) by reflexivity.
  rewrite Hstep, literal_matches; [|by apply (bool_decide_unpack _)|by apply (bool_decide_unpack _)|by right|by right].
  rewrite streq_refl, andb_true_l, Hstep, wildcard_matches, Hstep by (done || by right).
  intros E. apply skip_segment_nil. cbn [wildcard path_matches_pattern] in E. rewrite bool_decide_eq_false_2, bool_decide_eq_true_2 in E by done.
  by destruct (skip_segment file_name).
Qed.

Lemma hls_root_length cfg : (length (hls_root cfg) ≤ 511)%nat.
Proof.
  unfold hls_root. destruct (empty _); (etrans; [apply strcpy_trunc_length|]); unfold MAX_PATH_LENGTH; lia.
Qed.

(** C13: A request that reached the handler by its route is sent no file from outside the
    storage directory: the name of the stream is made a plain component, and the route
    lets no slash into the name of the file. *)
Theorem hls_file_confined cfg regular req p ty headers :
  path_matches_pattern (path req) (lit "/hls/#/#") = true → (length (path req) < MAX_PATH_LENGTH)%nat →
  handle_direct_hls_request (Some cfg) regular req = SendFile p ty headers →
  within (hls_root cfg) p ∧ regular p = true.
Proof.
  intros Hroute Hlen. unfold handle_direct_hls_request. destruct (_ || _) eqn:Eb; [done|].
  apply orb_false_iff in Eb as [_ Hpre]. apply negb_false_iff, starts_with_spec in Hpre as [uri Huri].
  rewrite Huri in Hroute, Hlen |- *. change (drop 5 (lit "/hls/" ++ uri)) with uri.
  destruct (split_first slash uri) as [[encoded file_name]|] eqn:Es; [|done].
  apply split_first_Some in Es as [-> Henc]. destruct (empty encoded) eqn:Eenc; [done|].
  destruct (empty file_name) eqn:Efile; [done|].
  set (file_path := hls_file_path _ _ _). destruct (regular file_path) eqn:Er; [|destruct (contains _ file_name); discriminate].
  intros E. injection E as E _ _. subst p. split; [|exact Er]. unfold file_path, hls_file_path. clear file_path Er.
  pose proof (hls_route_plain _ _ Henc Hroute) as Hfile.
  set (decoded := default [] _). assert (Hdec : (length decoded ≤ length encoded)%nat).
  { unfold decoded. etrans; [apply url_decode_src|]. unfold strcpy_trunc. rewrite length_take. lia. }
  destruct (sanitized_name_spec decoded MAX_STREAM_NAME) as (_ & _ & Hstream & Hdots & _ & _).
  assert (Hs : (length (sanitize_stream_name decoded MAX_STREAM_NAME) ≤ length encoded)%nat).
  { unfold sanitize_stream_name. rewrite length_fmap, length_take. lia. }
  generalize dependent (sanitize_stream_name decoded MAX_STREAM_NAME). intros stream Hstream Hdots Hs. clear decoded Hdec.
  rewrite strcpy_trunc_id.
  - change (lit "/hls/" ++ stream ++ slash :: file_name) with (slash :: lit "hls" ++ slash :: stream ++ slash :: file_name).
    apply (within_walk _ _ (lit "hls" :: components stream ++ components file_name)).
    + by rewrite !components_slash.
    + cbn [walk]. change (streq (lit "hls") (lit ".")) with false. change (streq (lit "hls") (lit "..")) with false. cbv iota.
      rewrite walk_app. destruct (walk_down (lit "hls" :: walk [] (components (hls_root cfg))) (components stream)) as [rest ->].
      { rewrite components_plain by done. destruct stream; [done|]. by repeat constructor. }
      rewrite (components_plain file_name) by done. destruct file_name as [|c file_name]; [by exists (rest ++ [lit "hls"]); cbn; rewrite <-app_assoc|].
      cbn [walk]. destruct (streq _ _); [by exists (rest ++ [lit "hls"]); rewrite <-app_assoc|].
      destruct (streq _ _); [|by exists ((c :: file_name) :: rest ++ [lit "hls"]); cbn; rewrite <-app_assoc].
      destruct rest as [|d rest]; [by exists []|]. exists (rest ++ [lit "hls"]). cbn. by rewrite <-app_assoc.
  - pose proof (hls_root_length cfg) as Hroot. clear - Hroot Hlen Hs. rewrite !length_app in *.
    change (length (lit "/hls/")) with 5%nat in *. cbn [length] in *. unfold MAX_PATH_LENGTH in *. lia.
Qed.

Lemma snapshot_parts_spec param stream_part file_part :
  snapshot_parts param = Some (stream_part, file_part) →
  slash ∉ stream_part ∧ slash ∉ file_part ∧ stream_part ≠ [] ∧ stream_part ≠ lit "." ∧ stream_part ≠ lit ".." ∧
  (5 ≤ length file_part)%nat ∧ file_part ≠ lit "..".
Proof.
  unfold snapshot_parts. destruct (split_first slash param) as [[s f]|]; [cbn [mbind option_bind]|done].
  destruct (empty s || empty f) eqn:E0; [done|]. destruct (negb (forallb word_char s)) eqn:E1; [done|].
  destruct ((length f <? 5)%nat || _) eqn:E2; [done|]. destruct (negb (forallb _ f)) eqn:E3; [done|]. destruct (contains _ f); [done|].
  intros [= <- <-]. apply negb_false_iff in E1, E3. rewrite forallb_forall in E1, E3.
  apply orb_false_iff in E0 as [E0 _], E2 as [E2%Nat.ltb_ge _].
  assert (Hw : ∀ c, c ∈ s → word_char c = true) by (intros c Hc; by apply E1, list_elem_of_In).
  split_and!.
  - intros Hin. by apply Hw in Hin.
  - intros Hin. apply list_elem_of_In, E3 in Hin. by vm_compute in Hin.
  - by destruct s.
  - intros ->. assert (Hin : Byte.x2e ∈ lit ".") by (by left). apply Hw in Hin. by vm_compute in Hin.
  - intros ->. assert (Hin : Byte.x2e ∈ lit "..") by (by left). apply Hw in Hin. by vm_compute in Hin.
  - done.
  - intros ->. cbn in E2. lia.
Qed.

(** A snapshot is sent only to whom may view, and the file lies in the directory of a
    stream below that of the snapshots. *)
Theorem snapshot_confined {D} {IC : InetConversions} {AS : AuthStore D} cfg files regular req (d d' : D) p ty headers :
  handle_get_detection_snapshot cfg files regular req d = Some (SendFile p ty headers, d') → (length p + 1 < MAX_PATH_LENGTH)%nat →
  may_view cfg req d = Some (true, d') ∧
  ∃ stream_part file_part, lexical p = lexical (storage_path files) ++ [lit "snapshots"; stream_part; file_part].
Proof.
  unfold handle_get_detection_snapshot. destruct (may_view cfg req d) as [[allowed d1]|]; [cbn [mbind option_bind]|done].
  destruct allowed; [cbn [negb]|by intros [= ]]. destruct (http_request_extract_path_param _ _ _) as [param|]; [|by intros [= ]].
  destruct (snapshot_parts param) as [[s f]|] eqn:E; [|by intros [= ]]. set (sp := snapshot_path files s f).
  destruct (regular sp); [|by intros [= ]]. intros Heq. injection Heq as E1 _ _ E2. subst p d1. intros Hl. split; [done|].
  apply snapshot_parts_spec in E as (Hs & Hf & Hne & Hd1 & Hd2 & Hlen & Hd3). exists s, f.
  unfold sp, snapshot_path, strcpy_trunc in *. rewrite length_take in Hl. rewrite take_ge by (unfold MAX_PATH_LENGTH in *; lia).
  change (lit "/snapshots/" ++ s ++ slash :: f) with (slash :: lit "snapshots" ++ slash :: s ++ slash :: f).
  unfold lexical. rewrite !components_slash, walk_app, (components_plain (lit "snapshots")), (components_plain s), (components_plain f)
    by (done || by apply (bool_decide_unpack _)).
  destruct s as [|c s]; [done|]. destruct f as [|c' f]; [simpl in Hlen; lia|].
  assert (Hd4 : c' :: f ≠ lit ".") by (intros Ef; rewrite Ef in Hlen; cbn in Hlen; lia).
  change (match lit "snapshots" with [] => [] | _ => [lit "snapshots"] end) with [lit "snapshots"].
  cbn [app walk]. change (streq (lit "snapshots") (lit ".")) with false. change (streq (lit "snapshots") (lit "..")) with false.
  rewrite !(proj2 (streq_false _ _)) by done. cbv iota. by rewrite !reverse_cons, <-!app_assoc.
Qed.

(** The path of a static file is the root of the web pages with the path of the request
    behind it: with enough [..] it leads to any file of the system, and the file is sent. *)
Theorem static_file_escapes {H} web_root stat (s : loop H) n target :
  path (request (rhead (conn s))) = concat (replicate n (lit "/..")) ++ slash :: target →
  (length web_root + 3 * n + length target + 2 < MAX_PATH_LENGTH)%nat → (length (lexical web_root) ≤ n)%nat →
  stat (web_root ++ concat (replicate n (lit "/..")) ++ slash :: target) = Some RegularFile →
  let sv := srv (conn (static_file_resolve_handler web_root stat s).2) in
  deferred_file_serve sv = true ∧
  deferred_file_path sv = web_root ++ concat (replicate n (lit "/..")) ++ slash :: target ∧
  lexical (deferred_file_path sv) = lexical target.
Proof.
  intros Hp Hl Hn Hst. set (file := web_root ++ concat (replicate n (lit "/..")) ++ slash :: target) in *.
  assert (Hup : length (concat (replicate n (lit "/.."))) = (3 * n)%nat).
  { clear. induction n as [|n IH]; [done|]. cbn [replicate concat]. rewrite length_app, IH. cbn. lia. }
  assert (Hfile : strcpy_trunc MAX_PATH_LENGTH file = file).
  { apply strcpy_trunc_id. unfold file. rewrite !length_app, Hup. cbn [length]. lia. }
  assert (Hdef : deferred_file_path (srv (conn (static_file_resolve_handler web_root stat s).2)) = file ∧
                 deferred_file_serve (srv (conn (static_file_resolve_handler web_root stat s).2)) = true).
  { destruct s as [cn ws l f sh]. cbn [conn] in *. unfold static_file_resolve_handler. run_m. rewrite Hp. fold file.
    rewrite Hfile, Hst. cbn [snd conn srv with_srv set_deferred deferred_file_path deferred_file_serve]. by rewrite Hfile. }
  cbv zeta. destruct Hdef as [-> ->]. split_and!; [done|done|]. unfold lexical, file.
  assert (Hc : ∀ a m, components (a ++ concat (replicate m (lit "/..")) ++ slash :: target) =
                    components a ++ replicate m (lit "..") ++ components target).
  { intros a m. revert a. induction m as [|m IH]; intros a; cbn [replicate concat app]; [apply components_slash|].
    rewrite <-app_assoc. change (lit "/.." ++ concat (replicate m (lit "/..")) ++ slash :: target) with
      (slash :: lit ".." ++ concat (replicate m (lit "/..")) ++ slash :: target).
    rewrite components_slash, IH. by rewrite (components_plain (lit "..")) by (by apply (bool_decide_unpack _)). }
  rewrite Hc, !walk_app, walk_up. rewrite drop_ge; [done|]. unfold lexical in Hn. by rewrite length_reverse in Hn.
Qed.

(** ** The path of the log *)

Lemma strstr_app_Some p a r : is_Some (strstr p (a ++ p ++ r)).
Proof.
  induction a as [|c a IH]; cbn [app].
  - destruct (p ++ r) as [|d s] eqn:E; cbn [strstr].
    + apply app_nil in E as [-> _]. done.
    + rewrite <-E, starts_with_app. done.
  - cbn [strstr]. destruct (starts_with p (c :: a ++ p ++ r)); [done|]. destruct IH as [[b d] ->]. done.
Qed.

(** What stands around a component. *)
Lemma strtok_surroundings c cur p :
  c ∈ strtok is_slash cur p →
  ∃ a b, reverse cur ++ p = a ++ c ++ b ∧ (a = [] ∨ ∃ a', a = a' ++ [slash]) ∧ (b = [] ∨ ∃ b', b = slash :: b').
Proof.
  revert cur. induction p as [|d p IH]; intros cur; cbn [strtok].
  - destruct cur as [|x cur]; [by intros ?%elem_of_nil|]. intros ->%list_elem_of_singleton. exists [], []. by eauto.
  - destruct (is_slash d) eqn:Ed.
    + apply bool_decide_eq_true in Ed as ->.
      assert (Hp : c ∈ strtok is_slash [] p → ∃ a b, reverse cur ++ slash :: p = a ++ c ++ b ∧
                (a = [] ∨ ∃ a', a = a' ++ [slash]) ∧ (b = [] ∨ ∃ b', b = slash :: b')).
      { intros (a & b & E & Ha & Hb)%IH. exists (reverse cur ++ slash :: a), b. split_and!; [|right|done].
        - rewrite <-app_assoc. cbn in *. by rewrite E.
        - destruct Ha as [->|[a' ->]]; [by eexists|]. by exists (reverse cur ++ slash :: a'); rewrite <-app_assoc. }
      destruct cur as [|x cur]; [apply Hp|]. intros [->|Hc]%elem_of_cons; [|by apply Hp].
      exists [], (slash :: p). split_and!; [done|by left|right; by eexists].
    + intros (a & b & E & H)%IH. exists a, b. split; [|done]. by rewrite <-E, reverse_cons, <-app_assoc.
Qed.

(** The check of the path of a log finds every [..]. *)
Theorem safe_log_path_spec p : is_safe_log_path p = true → lit ".." ∉ components p.
Proof.
  intros Hs (a & b & E & Ha & Hb)%strtok_surroundings. cbn [reverse rev_append app] in E. subst p.
  apply andb_prop in Hs as [Hs H5]. apply andb_prop in Hs as [Hs H4]. apply andb_prop in Hs as [Hs H3].
  apply andb_prop in Hs as [_ H2]. apply negb_true_iff in H2, H3, H4, H5.
  destruct Ha as [->|[a' ->]], Hb as [->|[b' ->]].
  - discriminate H5.
  - discriminate H4.
  - rewrite <-app_assoc in H3. rewrite length_app in H3. apply andb_false_iff in H3 as [H3|H3].
    + apply Nat.leb_gt in H3. cbn in H3. lia.
    + replace (length a' + _ - 3)%nat with (length a') in H3 by (cbn; lia). rewrite drop_app_length in H3. discriminate H3.
  - rewrite <-!app_assoc in H2. apply bool_decide_eq_false in H2. apply H2. apply (strstr_app_Some (lit "/../")).
Qed.

(** ** Examples *)

Definition example_files : storage_config := mkStorageConfig (lit "/var/lib/nvr") [] (lit "/var/log/../etc/passwd").

Definition file_request (path : string) : http_request_t := mkRequest (lit path) [] [] None [] (lit "10.1.3.7").

Definition example_playlist : http_request_t := file_request "/hls/front%20%2e%2e/index.m3u8".

(** What is not a plain character becomes an underscore. *)
Definition example_playlist_path : cstr := lit "/var/lib/nvr/hls/front___/index.m3u8".

(** The name of the stream is a plain component, and the name of the file may be [..]:
    of a directory nothing is sent. *)
Example playlist_found :
  match handle_direct_hls_request (Some example_files) (λ p, streq p example_playlist_path) example_playlist with
  | SendFile p _ _ => p = example_playlist_path
  | _ => False
  end.
Proof. vm_compute. reflexivity. Qed.

Example log_path_refused : log_to_clear example_files (λ _, true) = FALLBACK_LOG_FILE.
Proof. vm_compute. reflexivity. Qed.

Lemma hls_file_confined_witness :
  within (hls_root example_files) example_playlist_path ∧ streq example_playlist_path example_playlist_path = true.
Proof.
  apply (hls_file_confined example_files (λ p, streq p example_playlist_path) example_playlist example_playlist_path
    (hls_content_type (lit "index.m3u8")) (hls_headers (lit "index.m3u8"))).
  - vm_compute. reflexivity.
  - unfold MAX_PATH_LENGTH. simpl. lia.
  - vm_compute. reflexivity.
Defined.

(** Without accounts everybody may view. *)
Definition open_config : config_t := mkConfig false 168 30 [] false.

Definition example_snapshot : http_request_t := file_request "/api/snapshots/front/17-2.jpg".

Definition example_snapshot_path : cstr := lit "/var/lib/nvr/snapshots/front/17-2.jpg".

#[local] Instance no_addresses : InetConversions := {| inet_pton _ _ := None; inet_ntop _ _ := None |}.
#[local] Instance no_accounts : AuthStore unit := {|
  db_auth_validate_session _ d := (None, d);
  db_auth_get_user_by_id _ d := (None, d);
  db_auth_validate_session_with_context _ _ _ d := (false, d);
  db_auth_authenticate _ _ d := (None, d);
  db_auth_get_user_by_api_key _ d := (None, d)
|}.

Lemma snapshot_confined_witness :
  may_view open_config example_snapshot tt = Some (true, tt) ∧
  ∃ stream_part file_part,
    lexical example_snapshot_path = lexical (storage_path example_files) ++ [lit "snapshots"; stream_part; file_part].
Proof.
  apply (snapshot_confined open_config example_files (λ p, streq p example_snapshot_path) example_snapshot tt tt example_snapshot_path
    (lit "image/jpeg") (lit "Cache-Control: private, max-age=86400" ++ crlf)).
  - vm_compute. reflexivity.
  - unfold MAX_PATH_LENGTH. simpl. lia.
Defined.
