(* ===== verification/FileTransfer.v ===== *)
(** * The transfer of a file

    Which file is opened for a request, and what is sent of it: all of the bytes
    that the head announces while the file stays as it was examined, and fewer,
    on a connection that is then used for the next request, when it shrinks. *)
From Stdlib Require Import ZArith Lia Bool.
From Stdlib Require Import Strings.Byte.
From stdpp Require Import base numbers list strings.
From S2P Require Import Prelude.
From S2P Require Import Libc.
From S2P Require Import HttpMessage.
From S2P Require Import HttpWire.
From S2P Require Import Connection.
From S2P Require Import ConnectionSafety.
#[local] Open Scope Z_scope.

Section transfer.
Context {H : Type} (web_root : cstr) (routes : list (route H)) (port : Z).

Abbreviation st cn p l := (mkLoop cn p l [] false : loop H).
Abbreviation go := (run web_root routes port).

#[local] Arguments handle : simpl never.

(** ** The bytes of a file *)

Definition slice (content : list byte) (pos n : Z) : list byte := take (Z.to_nat n) (drop (Z.to_nat pos) content).

Lemma slice_split content pos k n :
  0 ≤ pos → 0 ≤ k ≤ n → slice content pos n = slice content pos k ++ slice content (pos + k) (n - k).
Proof.
  intros Hp Hk. unfold slice. rewrite Z2Nat.inj_add, <-drop_drop by lia. rewrite <-(take_drop (Z.to_nat k) (drop (Z.to_nat pos) content)) at 1.
  rewrite take_app, take_take. f_equal; [f_equal; lia|].
  rewrite length_take. destruct (decide (Z.to_nat k ≤ length (drop (Z.to_nat pos) content))%nat) as [Hl|Hl].
  - rewrite Nat.min_l by lia. f_equal. lia.
  - rewrite (drop_ge (drop _ _)) by lia. by rewrite !take_nil.
Qed.

Lemma slice_length content pos n :
  0 ≤ pos → 0 ≤ n → pos + n ≤ Z.of_nat (length content) → Z.of_nat (length (slice content pos n)) = n.
Proof. intros Hp Hn Hl. unfold slice. rewrite length_take, length_drop. lia. Qed.

(** Reads of [k] bytes each, as they are answered, each written before the next. *)
Fixpoint reads (content : list byte) (pos : Z) (ks : list Z) : list event :=
  match ks with
  | [] => []
  | k :: ks => Done 0 (BytesRead (Some (slice content pos k))) :: Done 0 (Written true) :: reads content (pos + k) ks
  end.

Fixpoint chunks (content : list byte) (pos : Z) (ks : list Z) : list (list byte) :=
  match ks with [] => [] | k :: ks => slice content pos k :: chunks content (pos + k) ks end.

Definition total (ks : list Z) : Z := foldr Z.add 0 ks.

Lemma total_nonneg ks : Forall (λ k, 0 < k) ks → 0 ≤ total ks.
Proof. intros Hk. induction Hk; [done|]. unfold total in *. simpl. lia. Qed.

Lemma sent_chunks_concat content pos ks :
  0 ≤ pos → Forall (λ k, 0 < k) ks → concat (chunks content pos ks) = slice content pos (total ks).
Proof.
  revert pos. induction ks as [|k ks IH]; intros pos Hp Hk; [done|]. apply Forall_cons in Hk as [Hk Hks].
  pose proof (total_nonneg ks Hks).
  cbn [chunks concat total foldr]. change (foldr Z.add 0 ks) with (total ks). rewrite IH by (done || lia).
  rewrite (slice_split _ pos k (k + total ks)) by lia. f_equal. f_equal. lia.
Qed.

Definition next_op (c : file_serve_ctx_t) : op H :=
  if remaining c =? 0 then FsClose c
  else FsRead (if remaining c <? LIBUV_FILE_BUFFER_SIZE then remaining c else LIBUV_FILE_BUFFER_SIZE) (offset c) c.

Lemma send_next cn p l c : send_file_chunk c (st cn p l) = (tt, st cn (p ++ [next_op c]) l).
Proof. unfold send_file_chunk, next_op. destruct (_ =? _); done. Qed.

Lemma run_cons s e es s' : handle web_root routes port s e = Some s' → go s (e :: es) = go s' es.
Proof. intros E. cbn [run]. by rewrite E. Qed.

Lemma run_app s es es' s' : go s es = Some s' → go s (es ++ es') = go s' es'.
Proof.
  revert s. induction es as [|e es IH]; intros s; [by intros [= ->]|]. cbn [run app]. destruct (handle _ _ _ s e); [apply IH|done].
Qed.

Lemma advance_small c n :
  0 ≤ offset c → 0 ≤ n ≤ remaining c → offset c + remaining c < 2 ^ 64 →
  offset (advance c n) = offset c + n ∧ remaining (advance c n) = remaining c - n.
Proof. intros Ho Hn Hs. unfold advance. cbn. rewrite !u64_small by lia. done. Qed.

(** The reads and writes of a part of the file. *)
Lemma reads_sent cn l c content ks :
  busy cn → 0 ≤ offset c → 0 ≤ remaining c → offset c + remaining c ≤ Z.of_nat (length content) → Z.of_nat (length content) < 2 ^ 63 →
  Forall (λ k, 0 < k) ks → total ks ≤ remaining c →
  ∃ c', go (st cn [next_op c] l) (reads content (offset c) ks) =
    Some (st cn [next_op c'] (l ++ (Chunk <$> chunks content (offset c) ks))) ∧
    remaining c' = remaining c - total ks ∧ write_error c' = write_error c.
Proof.
  intros Hb Ho Hr Hl Hm Hks. revert c l Ho Hr Hl. induction Hks as [|k ks Hk Hks IH]; intros c l Ho Hr Hl Ht; cbn [reads chunks total foldr] in *.
  - exists c. cbn [run fmap list_fmap]. rewrite app_nil_r. split; [done|]. split; [lia|done].
  - change (foldr Z.add 0 ks) with (total ks) in *. pose proof (total_nonneg ks Hks).
    assert (next_op c = FsRead (if remaining c <? LIBUV_FILE_BUFFER_SIZE then remaining c else LIBUV_FILE_BUFFER_SIZE) (offset c) c) as ->
      by (unfold next_op; by rewrite (proj2 (Z.eqb_neq _ _)) by lia).
    destruct (slice content (offset c) k) as [|b d] eqn:Ed.
    { exfalso. pose proof (slice_length content (offset c) k ltac:(lia) ltac:(lia) ltac:(lia)) as Hsl. rewrite Ed in Hsl. simpl in Hsl. lia. }
    assert (Z.of_nat (length (b :: d)) = k) as Hlen by (rewrite <-Ed; apply slice_length; lia).
    destruct (advance_small c k) as [Hoff Hrem]; [lia..|].
    erewrite run_cons; [|apply handle_done; [done|apply Hb..]]. unfold on_file_read. run_m. rewrite (busy_open _ Hb). run_m. rewrite Hlen. cbn [app].
    erewrite run_cons; [|apply handle_done; [done|apply Hb..]]. unfold on_chunk_write_complete. rewrite send_next. cbn [snd app].
    rewrite <-Hoff. destruct (IH (advance c k) (l ++ [Chunk (b :: d)])) as (c' & E & Hc' & Hw'); [lia..|].
    exists c'. split; [|split; [lia|done]]. rewrite E. cbn [fmap list_fmap]. by rewrite <-app_assoc.
Qed.

(** ** From the size to the close *)

(** What is sent lies in the file, and is what the head says. *)
Record located (c : file_serve_ctx_t) (size : Z) (range : option cstr) (c' : file_serve_ctx_t) : Prop := {
  located_offset : 0 ≤ offset c';
  located_remaining : 0 ≤ remaining c';
  located_inside : offset c' + remaining c' ≤ size;
  located_error : write_error c' = write_error c;
  located_whole : has_range c = false → offset c' = 0 ∧ remaining c' = size;
  located_range : has_range c = true → ∃ s e, libuv_parse_range_header range size = Some (s, e) ∧ offset c' = s ∧ remaining c' = e - s + 1;
  located_head : ∃ a b, head_of c' = a ++ content_length_line (remaining c') ++ b
}.

Lemma locate_spec c size range c' : 0 ≤ size < 2 ^ 63 → locate c size range = Some c' → located c size range c'.
Proof.
  intros Hs Hc. unfold locate in Hc. destruct (has_range c) eqn:Hr.
  - destruct (libuv_parse_range_header range size) as [[s e]|] eqn:Ep; [cbn [mbind option_bind] in Hc|done].
    destruct (range_inside range size s e) as [Hse He]; [lia|done|]. rewrite u64_small in Hc by lia. injection Hc as <-.
    constructor; cbn [offset remaining write_error]; [lia|lia|lia|done|congruence|intros _; by exists s, e|]. unfold head_of, file_head. cbn [fs_range remaining].
    eexists (lit "HTTP/1.1 206 Partial Content" ++ crlf ++ content_type_line (fs_content_type c)), _. rewrite <-!app_assoc. reflexivity.
  - injection Hc as <-. constructor; cbn [offset remaining write_error]; [lia|lia|lia|done|done|congruence|].
    unfold head_of, file_head. cbn [fs_range remaining file_size].
    eexists (lit "HTTP/1.1 200 OK" ++ crlf ++ content_type_line (fs_content_type c)), _. rewrite <-!app_assoc. reflexivity.
Qed.

(** The head, and the first operation after it. *)
Lemma head_sent cn l c c' size :
  busy cn → locate c size (http_request_get_header (request (rhead cn)) (lit "Range")) = Some c' →
  go (st cn [FsStat c] l) [Done 0 (Stated (Some size)); Done 0 (Written true)] =
  Some (st cn [next_op (set_headers_sent c')] (l ++ [Answer (head_of c')])).
Proof.
  intros Hb Hc. erewrite run_cons; [|apply handle_done; [done|apply Hb..]]. unfold on_file_stat. run_m. rewrite Hc. run_m.
  unfold libuv_connection_send. rewrite send_ok by (first [by apply Hb | apply head_of_nonempty]). run_m. rewrite send_next. cbn [app snd].
  erewrite run_cons; [|apply handle_done; [done|apply Hb..]]. done.
Qed.

Lemma file_ended cn l c :
  busy cn → async_response_pending (srv cn) = true → write_error c = false →
  ∃ s', go (st cn [FsClose c] l) [Done 0 FileClosed] = Some s' ∧
    log s' = l ++ (if keeps_alive cn then [Reset] else []) ∧ pending s' = [] ∧
    is_reading (conn s') = keeps_alive cn ∧ is_closing (conn s') = negb (keeps_alive cn).
Proof.
  intros Hb Ha Hw. erewrite run_cons; [|apply handle_done; [done|apply Hb..]]. unfold on_file_close. run_m.
  rewrite Ha, (busy_open _ Hb), Hw. cbn [negb orb andb]. change (keeps_alive (with_srv _ cn)) with (keeps_alive cn).
  destruct (keeps_alive cn).
  - rewrite reset_ok by apply Hb. eexists. split; [done|]. done.
  - rewrite close_ok. change (is_closing (with_srv _ cn)) with (is_closing cn). rewrite (busy_open _ Hb).
    eexists. split; [done|]. cbn. by rewrite app_nil_r.
Qed.

Section one_file.
Context (cn : libuv_connection_t) (l : list log_entry) (c c' : file_serve_ctx_t) (content : list byte) (ks : list Z).
Let size := Z.of_nat (length content).
Context (Hbusy : busy cn) (Hasync : async_response_pending (srv cn) = true) (Herror : write_error c = false) (Hsize : size < 2 ^ 63)
  (Hlocate : locate c size (http_request_get_header (request (rhead cn)) (lit "Range")) = Some c')
  (Hreads : Forall (λ k, 0 < k) ks).

Lemma is_located : located c size (http_request_get_header (request (rhead cn)) (lit "Range")) c'.
Proof. apply locate_spec; [lia|done]. Qed.

Lemma part_sent :
  total ks ≤ remaining c' →
  ∃ c2, go (st cn [FsStat c] l) (Done 0 (Stated (Some size)) :: Done 0 (Written true) :: reads content (offset c') ks) =
    Some (st cn [next_op c2] (l ++ Answer (head_of c') :: (Chunk <$> chunks content (offset c') ks))) ∧
    remaining c2 = remaining c' - total ks ∧ write_error c2 = false ∧ concat (chunks content (offset c') ks) = slice content (offset c') (total ks).
Proof.
  intros Ht. destruct is_located as [Ho Hr Hin He _ _ _].
  destruct (reads_sent cn (l ++ [Answer (head_of c')]) (set_headers_sent c') content ks) as (c2 & E & Hr2 & Hw2); try done.
  exists c2. split.
  - change (Done 0 (Stated (Some size)) :: Done 0 (Written true) :: ?es) with ([Done 0 (Stated (Some size)); Done 0 (Written true)] ++ es).
    rewrite (run_app _ _ _ _ (head_sent cn l c c' size Hbusy Hlocate)). cbn [set_headers_sent offset] in E. rewrite E. by rewrite <-app_assoc.
  - split; [done|]. split; [rewrite Hw2; cbn; congruence|]. by apply sent_chunks_concat.
Qed.

(** C18: the whole of a file, or the range that was asked for, is sent after a head
    with its length, in as many reads as it takes; then the connection is ready for
    the next request, or closed. *)
Theorem file_is_sent :
  total ks = remaining c' →
  ∃ s' ds, go (st cn [FsStat c] l)
      (Done 0 (Stated (Some size)) :: Done 0 (Written true) :: reads content (offset c') ks ++ [Done 0 FileClosed]) = Some s' ∧
    log s' = l ++ Answer (head_of c') :: (Chunk <$> ds) ++ (if keeps_alive cn then [Reset] else []) ∧
    concat ds = slice content (offset c') (remaining c') ∧ Z.of_nat (length (concat ds)) = remaining c' ∧
    located c size (http_request_get_header (request (rhead cn)) (lit "Range")) c' ∧
    pending s' = [] ∧ is_reading (conn s') = keeps_alive cn ∧ is_closing (conn s') = negb (keeps_alive cn).
Proof.
  intros Ht. destruct is_located as [Ho Hr Hin _ _ _ _].
  destruct part_sent as (c2 & E & Hr2 & Hw2 & Hd); [lia|].
  assert (next_op c2 = FsClose c2) as Hn by (unfold next_op; by rewrite (proj2 (Z.eqb_eq _ _)) by lia). rewrite Hn in E.
  destruct (file_ended cn (l ++ Answer (head_of c') :: (Chunk <$> chunks content (offset c') ks)) c2) as (s' & E' & Hl & Hrest); [done..|].
  exists s', (chunks content (offset c') ks). split.
  { rewrite !app_comm_cons, (run_app _ _ _ _ E). exact E'. }
  split; [by rewrite Hl, <-app_assoc|]. rewrite Ht in Hd. split; [done|]. split; [rewrite Hd; by apply slice_length|].
  split; [apply is_located|done].
Qed.

(** a file that became shorter than it was when it was examined, or a read
    that fails, ends the transfer before what the head announced was sent; the
    connection is kept all the same, and the next answer takes the place of the
    missing bytes. *)
Theorem short_file_keeps_alive eof :
  keeps_alive cn = true → total ks < remaining c' → eof = None ∨ eof = Some [] →
  ∃ s' ds, go (st cn [FsStat c] l)
      (Done 0 (Stated (Some size)) :: Done 0 (Written true) :: reads content (offset c') ks ++
       [Done 0 (BytesRead eof); Done 0 FileClosed]) = Some s' ∧
    log s' = l ++ Answer (head_of c') :: (Chunk <$> ds) ++ [Reset] ∧ Z.of_nat (length (concat ds)) < remaining c' ∧
    (∃ a b, head_of c' = a ++ content_length_line (remaining c') ++ b) ∧ is_reading (conn s') = true.
Proof.
  intros Hk Ht He. destruct is_located as [Ho Hr Hin _ _ _ Hhead].
  destruct part_sent as (c2 & E & Hr2 & Hw2 & Hd); [lia|].
  assert (∃ n k, next_op c2 = FsRead n k c2) as (n & k & Hn) by (unfold next_op; rewrite (proj2 (Z.eqb_neq _ _)) by lia; by eexists _, _).
  rewrite Hn in E.
  destruct (file_ended cn (l ++ Answer (head_of c') :: (Chunk <$> chunks content (offset c') ks)) c2) as (s' & E' & Hl & _ & Hread & _); [done..|].
  exists s', (chunks content (offset c') ks). split.
  { rewrite !app_comm_cons, (run_app _ _ _ _ E). erewrite run_cons; [|apply handle_done; [done|apply Hbusy..]].
    destruct He as [-> | ->]; exact E'. }
  rewrite Hk in Hl, Hread. split; [by rewrite Hl, <-app_assoc|]. split; [|done]. rewrite Hd.
  pose proof (total_nonneg ks Hreads). rewrite slice_length by lia. done.
Qed.
End one_file.
End transfer.

(** ** A clip of five bytes *)

Definition example_clip : list byte := lit "abcde".

Definition located_clip : file_serve_ctx_t :=
  mkFileServe 5 2 3 true (Some (2, 4)) false false (lit "video/mp4") [].

Lemma file_is_sent_witness :
  ∃ s' ds, run example_root example_routes 1984
      (mkLoop (example_conn [("Range", "bytes=2-")]%string) [FsStat (example_file true)] [] [] false)
      (Done 0 (Stated (Some 5)) :: Done 0 (Written true) :: reads example_clip 2 [1; 2] ++ [Done 0 FileClosed]) = Some s' ∧
    concat ds = lit "cde" ∧ log s' = Answer (head_of located_clip) :: (Chunk <$> ds) ++ [Reset].
Proof.
  destruct (file_is_sent example_root example_routes 1984 (example_conn [("Range", "bytes=2-")]%string) [] (example_file true)
    located_clip example_clip [1; 2]) as (s' & ds & E & Hl & Hd & _).
  - apply busyb_spec. vm_compute. reflexivity.
  - vm_compute. reflexivity.
  - vm_compute. reflexivity.
  - vm_compute. reflexivity.
  - vm_compute. reflexivity.
  - repeat constructor.
  - reflexivity.
  - exists s', ds. split; [exact E|]. split; [exact Hd|exact Hl].
Defined.

Lemma short_file_keeps_alive_witness :
  ∃ s' ds, run example_root example_routes 1984
      (mkLoop (example_conn [("Range", "bytes=2-")]%string) [FsStat (example_file true)] [] [] false)
      (Done 0 (Stated (Some 5)) :: Done 0 (Written true) :: reads example_clip 2 [1] ++ [Done 0 (BytesRead (Some [])); Done 0 FileClosed]) = Some s' ∧
    log s' = Answer (head_of located_clip) :: (Chunk <$> ds) ++ [Reset] ∧ Z.of_nat (length (concat ds)) < 3.
Proof.
  destruct (short_file_keeps_alive example_root example_routes 1984 (example_conn [("Range", "bytes=2-")]%string) [] (example_file true)
    located_clip example_clip [1]) with (eof := Some (@nil byte)) as (s' & ds & E & Hl & Hd & _).
  - apply busyb_spec. vm_compute. reflexivity.
  - vm_compute. reflexivity.
  - vm_compute. reflexivity.
  - vm_compute. reflexivity.
  - vm_compute. reflexivity.
  - repeat constructor.
  - vm_compute. reflexivity.
  - reflexivity.
  - by right.
  - exists s', ds. split; [exact E|]. split; [exact Hl|exact Hd].
Defined.
