(* ===== verification/MotionEvents.v ===== *)
(** * Motion events: [src/video/cross_stream_motion_trigger.c] and
    [src/web/api_handlers_motion.c]

    A motion event on one stream is handed on to the streams linked with it, and
    an HTTP request may start, stop or pulse the motion of a stream.  Both end in
    the external trigger of the detection threads ([UnifiedDetection]).  The
    operations are given whole, and as the steps of the threads that run them:
    request threads and the workers that end a pulse. *)
From Stdlib Require Import ZArith Lia Bool.
From Stdlib Require Import SpecFloat.
From Stdlib Require Import Strings.Byte.
From stdpp Require Import base numbers list strings sets.
From S2P Require Import Prelude.
From S2P Require Import CFloat.
From S2P Require Import Libc.
From S2P Require Import Auth.
From S2P Require Import HttpMessage.
From S2P Require Import HttpUtils.
From S2P Require Import PacketBuffer.
From S2P Require Import UnifiedDetection.
#[local] Open Scope Z_scope.

Definition MOTION_PULSE_DEFAULT_MS : Z := 2000.
Definition MOTION_PULSE_MAX_MS : Z := 600000.

(** ** Propagation between streams *)

(** A row of the stream configuration. *)
Record stream_link := mkLink {
  link_name : cstr;
  motion_trigger_source : cstr
}.

(** [detection_contexts]: the contexts with the names of their streams. *)
Abbreviation slots B := (list (option (cstr * ctx B))).

Section propagation.
Context {B : Type}.
Implicit Types cs : slots B.

Definition holds_stream (name : cstr) (s : option (cstr * ctx B)) : bool :=
  match s with Some (n, _) => streq n name | None => false end.

Definition find_context_by_name (name : cstr) cs : option nat := find_idx (holds_stream name) cs.

Definition update_context (name : cstr) (f : ctx B → ctx B) cs : slots B :=
  match find_context_by_name name cs with
  | Some i => alter (fmap (λ s, (s.1, f s.2))) i cs
  | None => cs
  end.

(** [unified_detection_notify_motion], with the lookup. *)
Definition notify_motion (name : option cstr) (active : bool) cs : slots B :=
  match name with
  | None => cs
  | Some name => update_context name (unified_detection_notify_motion active) cs
  end.

Definition own_trigger_source (streams : list stream_link) (name : cstr) : cstr :=
  match find (λ s, streq (link_name s) name && negb (empty (motion_trigger_source s))) streams with
  | Some s => strcpy_trunc MAX_STREAM_NAME (motion_trigger_source s)
  | None => []
  end.

(** The condition of the second loop. *)
Definition propagates (streams : list stream_link) (name : cstr) (s : stream_link) : bool :=
  let own := own_trigger_source streams name in
  let forward := negb (empty (motion_trigger_source s)) && streq (motion_trigger_source s) name in
  let reverse := negb (empty own) && streq (link_name s) own in
  (forward || reverse) && negb (streq (link_name s) name).

Definition propagate (streams : list stream_link) (name : cstr) (active : bool) cs : slots B :=
  foldl (λ cs s, if propagates streams name s then notify_motion (Some (link_name s)) active cs else cs) cs streams.

(** [rows] are the rows of the table, or none if they cannot be read;
    [max_streams] is the configured bound. *)
Definition configured (max_streams : Z) (rows : option (list stream_link)) : list stream_link :=
  take (if max_streams >? 0 then Z.to_nat max_streams else MAX_STREAMS) (default [] rows).

Definition process_motion_event (max_streams : Z) (rows : option (list stream_link)) (stream_name : option cstr)
    (motion_detected is_propagated : bool) cs : Z * slots B :=
  match stream_name with
  | None => (-1, cs)
  | Some name =>
      if is_propagated then (0, cs)
      else (0, propagate (configured max_streams rows) name motion_detected cs)
  end.
End propagation.

(** ** Generations *)

(** [g_pulse_gen] *)
Record pulse_gen_entry_t := mkPulseGen {
  gen_name : cstr;
  generation : Z
}.

Definition pulse_gen_get (stream_name : cstr) (t : list pulse_gen_entry_t) : Z :=
  match find (λ e, streq (gen_name e) stream_name) t with Some e => generation e | None => 0 end.

(** The new value, 0 when the table is full. *)
Definition pulse_gen_increment (stream_name : cstr) (t : list pulse_gen_entry_t) : Z * list pulse_gen_entry_t :=
  match find_idx (λ e, streq (gen_name e) stream_name) t with
  | Some i =>
      let t := alter (λ e, mkPulseGen (gen_name e) (u64 (generation e + 1))) i t in
      (pulse_gen_get stream_name t, t)
  | None =>
      if (length t <? MAX_STREAMS)%nat
      then (1, t ++ [mkPulseGen (strcpy_trunc MAX_STREAM_NAME stream_name) 1])
      else (0, t)
  end.

(** ** Actions *)

Inductive motion_action_t := MOTION_ACTION_START | MOTION_ACTION_STOP | MOTION_ACTION_PULSE.

#[global] Instance motion_action_eq_dec : EqDecision motion_action_t.
Proof. solve_decision. Defined.

Definition parse_action (s : cstr) : option motion_action_t :=
  if streq s (lit "start") then Some MOTION_ACTION_START else
  if streq s (lit "stop") then Some MOTION_ACTION_STOP else
  if streq s (lit "pulse") then Some MOTION_ACTION_PULSE else None.

Definition is_active (a : motion_action_t) : bool := negb (bool_decide (a = MOTION_ACTION_STOP)).

Record motion_pulse_task_t := mkPulseTask {
  task_stream : cstr;
  duration_ms : Z;
  task_generation : Z
}.

(** The contexts and the generations. *)
Record motion_world (B : Type) := mkMotionWorld {
  contexts : slots B;
  pulse_gen : list pulse_gen_entry_t
}.
Arguments mkMotionWorld {B} _ _.
Arguments contexts {B} _.
Arguments pulse_gen {B} _.

Section actions.
Context {B : Type} (streams : list stream_link).
Implicit Types w : motion_world B.

(** The trigger of the stream, then those of the streams linked with it. *)
Definition notify_and_propagate (name : cstr) (active : bool) w : motion_world B :=
  mkMotionWorld (propagate streams name active (notify_motion (Some name) active (contexts w))) (pulse_gen w).

Definition increment (name : cstr) w : Z * motion_world B :=
  let '(g, t) := pulse_gen_increment name (pulse_gen w) in (g, mkMotionWorld (contexts w) t).

(** [usleep] in chunks, for each turn of the loop. *)
Fixpoint sleep_chunks (fuel : nat) (usec : Z) : list Z :=
  match fuel with
  | O => []
  | S fuel =>
      if usec >? 0 then
        let chunk := if usec >? 500000 then 500000 else usec in
        chunk :: sleep_chunks fuel (usec - chunk)
      else []
  end.

(** [useconds_t] has 32 bits. *)
Definition pulse_usec (task : motion_pulse_task_t) : Z := u32 (duration_ms task * 1000).

Definition still_current (task : motion_pulse_task_t) w : bool :=
  (task_generation task =? 0) || (pulse_gen_get (task_stream task) (pulse_gen w) =? task_generation task).

Definition motion_pulse_worker (task : motion_pulse_task_t) w : motion_world B :=
  if still_current task w then notify_and_propagate (task_stream task) false w else w.

(** From the generation to the worker; [scheduled] is whether the task can be
    allocated and the thread created. *)
Definition dispatch (name : cstr) (a : motion_action_t) (duration : Z) (scheduled : bool) w
    : bool * option motion_pulse_task_t * motion_world B :=
  let '(g, w) := increment name w in
  let w := notify_and_propagate name (is_active a) w in
  match a with
  | MOTION_ACTION_PULSE =>
      if scheduled then (true, Some (mkPulseTask (strcpy_trunc MAX_STREAM_NAME name) duration g), w)
      else (false, None, notify_and_propagate name false w)
  | _ => (true, None, w)
  end.
End actions.

(** ** The request *)

Inductive json :=
  | JString (s : cstr)
  | JNumber (v : spec_float)
  | JOther.

(** The fields of the body that are read. *)
Record motion_body := mkMotionBody {
  j_stream : option json;
  j_action : option json;
  j_duration : option json
}.

(** A status, or what is asked for. *)
Inductive motion_request :=
  | BadRequest
  | MotionRequest (stream_name : cstr) (action : motion_action_t) (duration : Z).

(** [None] is undefined behaviour. *)
Definition read_duration (a : motion_action_t) (j : option json) : option (option Z) :=
  match a, j with
  | MOTION_ACTION_PULSE, Some (JNumber v) =>
      let d := f_of_Z binary64 in
      if fle v (d 0) || fgt v (d MOTION_PULSE_MAX_MS) then Some None else
      n ← f_to_int v;
      Some (if SFeqb (d n) v then Some n else None)
  | MOTION_ACTION_PULSE, Some _ => Some None
  | _, _ => Some (Some MOTION_PULSE_DEFAULT_MS)
  end.

Definition read_motion_body (body : option motion_body) : option motion_request :=
  match body with
  | Some (mkMotionBody (Some (JString (c :: s))) (Some (JString action)) duration) =>
      match parse_action action with
      | None => Some BadRequest
      | Some a =>
          d ← read_duration a duration;
          Some (match d with
                | None => BadRequest
                | Some n => MotionRequest (strcpy_trunc MAX_STREAM_NAME (c :: s)) a n
                end)
      end
  | _ => Some BadRequest
  end.

(** What the stream manager knows of a stream. *)
Inductive stream_lookup := NoStream | ConfigFails | StreamConfig (detection_based_recording : bool).

Section handler.
Context `{InetConversions} {D : Type} `{!AuthStore D} {B : Type}.

(** Who asks: [Some None] with authentication off. *)
Definition motion_user (cfg : config_t) (req : http_request_t) (d : D) : option (sum Z unit * D) :=
  if negb (web_auth_enabled cfg) then Some (inr tt, d) else
  '(user, d) ← httpd_get_authenticated_user cfg req d;
  Some (match user with
        | None => inl 401
        | Some u => if role u =? USER_ROLE_VIEWER then inl 403 else inr tt
        end, d).

(** The status, the task of a worker that was started, and the world.
    [response] is whether the JSON of the answer can be built. *)
Definition answer_motion (streams : list stream_link) (lookup : cstr → stream_lookup) (scheduled response : bool)
    (r : motion_request) (w : motion_world B) : Z * option motion_pulse_task_t * motion_world B :=
  match r with
  | BadRequest => (400, None, w)
  | MotionRequest name a duration =>
      match lookup name with
      | NoStream => (404, None, w)
      | ConfigFails => (500, None, w)
      | StreamConfig false => (409, None, w)
      | StreamConfig true =>
          let '(ok, task, w) := dispatch streams name a duration scheduled w in
          (if ok && response then 202 else 500, task, w)
      end
  end.

Definition handle_post_motion_trigger (cfg : config_t) (streams : list stream_link)
    (parse_body : http_request_t → option motion_body) (lookup : cstr → stream_lookup) (scheduled response : bool)
    (req : http_request_t) (d : D) (w : motion_world B) : option (Z * option motion_pulse_task_t * motion_world B * D) :=
  '(user, d) ← motion_user cfg req d;
  match user with
  | inl status => Some (status, None, w, d)
  | inr _ =>
      r ← read_motion_body (parse_body req);
      Some (answer_motion streams lookup scheduled response r w, d)
  end.
End handler.

(** ** Threads and their steps *)

(** Where a thread stands: a request between its generation, the trigger of
    its stream, the linked streams, and the withdrawal of a pulse that cannot
    be scheduled; a worker asleep, past its check, and past the trigger. *)
Inductive motion_thread :=
  | Requested (name : cstr) (a : motion_action_t) (duration : Z) (scheduled : bool)
  | Generated (name : cstr) (a : motion_action_t) (duration : Z) (scheduled : bool) (g : Z)
  | Notified (name : cstr) (a : motion_action_t) (duration : Z) (scheduled : bool) (g : Z)
  | Withdrawing (name : cstr)
  | Withdrawn (name : cstr)
  | Asleep (task : motion_pulse_task_t)
  | Ending (task : motion_pulse_task_t)
  | Ended (task : motion_pulse_task_t)
  | Finished.

Section threads.
Context {B : Type} (streams : list stream_link).
Implicit Types w : motion_world B.

Definition notify_only (name : cstr) (active : bool) w : motion_world B :=
  mkMotionWorld (notify_motion (Some name) active (contexts w)) (pulse_gen w).

Definition propagate_only (name : cstr) (active : bool) w : motion_world B :=
  mkMotionWorld (propagate streams name active (contexts w)) (pulse_gen w).

Definition thread_step (t : motion_thread) w : motion_thread * motion_world B :=
  match t with
  | Requested name a n scheduled => let '(g, w) := increment name w in (Generated name a n scheduled g, w)
  | Generated name a n scheduled g => (Notified name a n scheduled g, notify_only name (is_active a) w)
  | Notified name a n scheduled g =>
      (match a with
       | MOTION_ACTION_PULSE =>
           if scheduled then Asleep (mkPulseTask (strcpy_trunc MAX_STREAM_NAME name) n g) else Withdrawing name
       | _ => Finished
       end, propagate_only name (is_active a) w)
  | Withdrawing name => (Withdrawn name, notify_only name false w)
  | Withdrawn name => (Finished, propagate_only name false w)
  | Asleep task => (if still_current task w then Ending task else Finished, w)
  | Ending task => (Ended task, notify_only (task_stream task) false w)
  | Ended task => (Finished, propagate_only (task_stream task) false w)
  | Finished => (Finished, w)
  end.

(** A schedule names the thread that takes the next step. *)
Definition schedule_step (s : list motion_thread * motion_world B) (i : nat) : list motion_thread * motion_world B :=
  match s.1 !! i with
  | Some t => let '(t, w) := thread_step t s.2 in (<[i := t]> s.1, w)
  | None => s
  end.

Definition interleave (schedule : list nat) (s : list motion_thread * motion_world B) : list motion_thread * motion_world B :=
  foldl schedule_step s schedule.
End threads.

(** ** Whole operations *)

(** A request that is accepted, the end of the sleep of the [k]th worker, or
    whatever the detection thread of a stream does to its context. *)
Inductive motion_op (B : Type) :=
  | Act (name : cstr) (a : motion_action_t) (duration : Z) (scheduled : bool)
  | Wake (k : nat)
  | ThreadTurn (name : cstr) (f : ctx B → ctx B).
Arguments Act {B} _ _ _ _.
Arguments Wake {B} _.
Arguments ThreadTurn {B} _ _.

Section histories.
Context {B : Type} (streams : list stream_link).

(** The workers asleep, and the world. *)
Definition apply_motion (s : list motion_pulse_task_t * motion_world B) (o : motion_op B)
    : list motion_pulse_task_t * motion_world B :=
  match o with
  | Act name a n scheduled =>
      let '(_, task, w) := dispatch streams name a n scheduled s.2 in
      (s.1 ++ match task with Some t => [t] | None => [] end, w)
  | Wake k =>
      match s.1 !! k with
      | Some t => (delete k s.1, motion_pulse_worker streams t s.2)
      | None => s
      end
  | ThreadTurn name f => (s.1, mkMotionWorld (update_context name f (contexts s.2)) (pulse_gen s.2))
  end.

Definition motion_history (os : list (motion_op B)) (s : list motion_pulse_task_t * motion_world B)
    : list motion_pulse_task_t * motion_world B := foldl apply_motion s os.
End histories.

(** ** Which streams are linked *)

(** [n] names [name] as its source, or the other way round. *)
Definition linked (streams : list stream_link) (name n : cstr) : Prop :=
  n ≠ name ∧
  ((name ≠ [] ∧ ∃ s, s ∈ streams ∧ link_name s = n ∧ motion_trigger_source s = name) ∨
   (n ≠ [] ∧ own_trigger_source streams name = n ∧ ∃ s, s ∈ streams ∧ link_name s = n)).

Definition linkedb (streams : list stream_link) (name n : cstr) : bool :=
  existsb (λ s, streq (link_name s) n && propagates streams name s) streams.

Lemma existsb_elem {A} (p : A → bool) l : existsb p l = true ↔ ∃ x, x ∈ l ∧ p x = true.
Proof. rewrite existsb_exists. by setoid_rewrite <-list_elem_of_In. Qed.

Lemma empty_false s : empty s = false ↔ s ≠ [].
Proof. by destruct s. Qed.

Lemma linkedb_spec streams name n : linkedb streams name n = true ↔ linked streams name n.
Proof.
  unfold linkedb, linked, propagates. rewrite existsb_elem.
  setoid_rewrite andb_true_iff. setoid_rewrite andb_true_iff. setoid_rewrite orb_true_iff. setoid_rewrite andb_true_iff.
  setoid_rewrite negb_true_iff. setoid_rewrite streq_true. setoid_rewrite streq_false. setoid_rewrite empty_false.
  split.
  - intros (s & Hs & <- & [[H1 <-]|[H1 H2]] & Hn); (split; [done|]).
    + left. eauto.
    + right. rewrite H2. eauto 6.
  - intros (Hn & [(H1 & s & Hs & <- & <-)|(H1 & H2 & s & Hs & <-)]); exists s; (split_and!; [done..| |done]).
    + by left.
    + rewrite H2. by right.
Qed.

(** ** The context of a stream *)

Section context.
Context {B : Type}.
Implicit Types cs : slots B.

(** The context that a lookup by name finds. *)
Definition stream_context (n : cstr) cs : option (ctx B) :=
  i ← find_context_by_name n cs; s ← cs !! i; snd <$> s.

Lemma update_context_lookup n name f cs :
  stream_context n (update_context name f cs) = (λ c, if streq name n then f c else c) <$> stream_context n cs.
Proof.
  unfold stream_context, update_context, find_context_by_name. destruct (find_idx (holds_stream name) cs) as [j|] eqn:Ej.
  - rewrite find_idx_alter by (by intros [[? ?]|]). destruct (find_idx (holds_stream n) cs) as [i|] eqn:Ei; [|done].
    cbn [mbind option_bind]. destruct (streq name n) eqn:En.
    + apply streq_true in En as ->. simplify_eq. rewrite list_lookup_alter, decide_True by done.
      destruct (cs !! j) as [[[? c]|]|]; done.
    + apply find_idx_lookup in Ej as (x & Hx & Hpx). apply find_idx_lookup in Ei as (y & Hy & Hpy).
      assert (j ≠ i). { intros ->. assert (x = y) as -> by congruence. destruct y as [[m c]|]; [|done]. simpl in *.
        apply streq_true in Hpx, Hpy. subst. by rewrite streq_refl in En. }
      rewrite list_lookup_alter_ne by done. by destruct (cs !! i) as [[[? c]|]|].
  - destruct (streq name n) eqn:En; [|by destruct (_ ≫= _)].
    apply streq_true in En as ->. by rewrite Ej.
Qed.

Lemma notify_context n name active cs :
  stream_context n (notify_motion (Some name) active cs) =
  (λ c, if streq name n then unified_detection_notify_motion active c else c) <$> stream_context n cs.
Proof. apply update_context_lookup. Qed.

Lemma notify_twice active (c : ctx B) :
  unified_detection_notify_motion active (unified_detection_notify_motion active c) = unified_detection_notify_motion active c.
Proof. done. Qed.

Lemma propagate_context streams n name active cs :
  stream_context n (propagate streams name active cs) =
  (λ c, if linkedb streams name n then unified_detection_notify_motion active c else c) <$> stream_context n cs.
Proof.
  unfold propagate, linkedb. set (q := propagates streams name). generalize streams as ss. intros ss.
  revert cs. induction ss as [|s ss IH]; intros cs; cbn [foldl existsb]; [by rewrite option_fmap_id|].
  rewrite IH. clear IH. destruct (q s).
  - rewrite notify_context, andb_true_r. destruct (stream_context n cs) as [c|]; [|done]. simpl.
    destruct (streq (link_name s) n); simpl; [|done]. by destruct (existsb _ _).
  - by rewrite andb_false_r.
Qed.
End context.

(** ** Links go both ways *)

Definition well_named (streams : list stream_link) : Prop :=
  NoDup (link_name <$> streams) ∧
  Forall (λ s, link_name s ≠ [] ∧ (length (motion_trigger_source s) < MAX_STREAM_NAME)%nat) streams.

Lemma own_source streams s :
  well_named streams → s ∈ streams → own_trigger_source streams (link_name s) = motion_trigger_source s.
Proof.
  intros [Hd Hf] Hs. rewrite Forall_forall in Hf. unfold own_trigger_source.
  destruct (find _ streams) as [s'|] eqn:E.
  - apply find_some in E as [Hin Ht]. apply list_elem_of_In in Hin. unbool.
    assert (s' = s) as ->; [|by apply strcpy_trunc_id, Hf].
    apply list_elem_of_lookup in Hin as [i Hi], Hs as [j Hj].
    assert (i = j) as ->; [|by simplify_eq].
    eapply NoDup_lookup; [exact Hd| |]; rewrite list_lookup_fmap; [by rewrite Hi|rewrite Hj; simpl; congruence].
  - pose proof (find_none _ _ E s (proj1 (list_elem_of_In _ _) Hs)) as Hn. simpl in Hn. rewrite streq_refl in Hn.
    by destruct (motion_trigger_source s).
Qed.

(** of two configured streams with names of their own, either both hand
    their motion on to the other or neither does. *)
Theorem links_go_both_ways streams a b :
  well_named streams → (∃ s, s ∈ streams ∧ link_name s = a) → linked streams a b → linked streams b a.
Proof.
  intros Hw (sa & Ha & Ea) (Hn & [(H1 & sb & Hb & Eb & Es)|(H1 & H2 & sb & Hb & Eb)]); (split; [done|]).
  - right. split; [done|]. split; [|by exists sa]. by rewrite <-Eb, own_source.
  - left. split; [done|]. exists sa. split; [done|]. split; [done|]. by rewrite <-H2, <-Ea, own_source.
Qed.

(** ** Motion starts a recording *)

Section recording.
Context {B : Type} `{PreBufferLaws B}.
Context (timestamp_text : Z → cstr) (init_ok : AVPacket → bool) (grace_period : Z).
Implicit Types c : ctx B.

(** A recording goes on while the last detection is that of this packet. *)
Lemma main_keeps_recording a c :
  state c = UDT_STATE_RECORDING → last_detection_time (times c) = now a →
  0 ≤ detection_interval (cfg c) + grace_period → mp4_writer (rec c) ≠ None →
  let c' := main_stream_detection timestamp_text init_ok grace_period a c in
  state c' = UDT_STATE_RECORDING ∧ mp4_writer (rec c') ≠ None.
Proof.
  intros Hs Hl Hg Hw. unfold main_stream_detection. destruct (_ && _); [|done]. destruct (_ >=? _); [|done].
  pose proof (run_detection_control a (set_last_check (now a) c)) as Hr.
  destruct (run_detection_on_frame a _) as [d c1]. destruct Hr as [Hr1 Hs1 Ht1 _ _ Hcfg1 _]. simpl in *.
  unfold handle_recording_state. rewrite Hs1, Hs. destruct d; simpl; [destruct (annotation_only _); simpl; by rewrite ?Hs1, ?Hr1|].
  rewrite Ht1, Hcfg1. simpl. rewrite Hl, Z.sub_diag. rewrite Z.gtb_ltb, (proj2 (Z.ltb_ge _ _)) by lia.
  destruct (annotation_only _); by rewrite Hs1, Hr1.
Qed.

(** A key frame that finds the trigger set opens a recording. *)
Lemma triggered_key_frame a pkt c tb :
  good c → state c = UDT_STATE_BUFFERING → annotation_only (cfg c) = false → external_motion_trigger (sig c) = 1 →
  detection_stream_connected (sig c) = false → input_ctx (conn c) = Some tb → is_video c pkt && is_key pkt = true →
  dir_ok a = true → create_ok a = true → 0 ≤ detection_interval (cfg c) + grace_period →
  let c' := process_packet timestamp_text init_ok grace_period a pkt c in
  state c' = UDT_STATE_RECORDING ∧ mp4_writer (rec c') ≠ None.
Proof.
  intros Hg Hs Ha Ht Hd Hk Hkey Hdir Hcr Hgw. unfold process_packet. rewrite Hkey.
  set (c2 := buffer_packet a pkt (count_packet a pkt c)).
  assert (Hc2 : same_control c c2) by (eapply same_control_trans; [apply count_control|apply buffer_control]).
  assert (good c2) as [[[q Hq] _ _] _] by (apply buffer_good, count_good, Hg).
  destruct Hc2 as [_ Hs2 Ht2 Hsig2 Hconn2 Hcfg2 _]. unfold consume_detection_stream. rewrite Hsig2, Hd, Hs. cbn [record_packet].
  unfold external_trigger. rewrite Hsig2, Ht. cbn [Z.eqb Pos.eqb].
  set (c3 := set_last_detection (now a) _). change (cfg c3) with (cfg c2).
  change (packet_buffer c2) with (packet_buffer c3) in Hq. rewrite Hcfg2, Ha.
  assert (Ha3 : annotation_only (cfg c3) = false) by (change (cfg c3) with (cfg c2); by rewrite Hcfg2).
  assert (Hk3 : input_ctx (conn c3) = Some tb) by (change (conn c3) with (conn c2); by rewrite Hconn2).
  destruct (open_recording_succeeds timestamp_text init_ok a c3 Ha3 Hdir Hcr) as (c4 & E).
  destruct (open_recording_spec timestamp_text init_ok a c3 c4 q tb) as (_ & Hs4 & _ & _ & Hw4 & _ & Hcfg4 & _ & Ht4); [done..|].
  rewrite E. cbn [snd]. apply main_keeps_recording; [done|by rewrite Ht4| |done].
  rewrite Hcfg4. change (cfg c3) with (cfg c2). by rewrite Hcfg2.
Qed.

(** motion on a stream sets the trigger of exactly the streams linked with
    it, and of no others: those it reaches do not hand it on.  A linked stream
    that waits with a pre-buffer records from its next key frame on. *)
Theorem motion_reaches_linked max_streams rows name cs n :
  let streams := configured max_streams rows in
  let cs' := (process_motion_event max_streams rows (Some name) true false cs).2 in
  (linked streams name n →
   stream_context n cs' = unified_detection_notify_motion true <$> stream_context n cs ∧
   ∀ c a pkt tb, stream_context n cs = Some c →
     good c → state c = UDT_STATE_BUFFERING → annotation_only (cfg c) = false →
     detection_stream_connected (sig c) = false → input_ctx (conn c) = Some tb → is_video c pkt && is_key pkt = true →
     dir_ok a = true → create_ok a = true → 0 ≤ detection_interval (cfg c) + grace_period →
     ∃ c', stream_context n cs' = Some c' ∧
       let c' := process_packet timestamp_text init_ok grace_period a pkt c' in
       state c' = UDT_STATE_RECORDING ∧ mp4_writer (rec c') ≠ None) ∧
  (¬ linked streams name n → stream_context n cs' = stream_context n cs).
Proof.
  intros streams cs'. unfold cs', process_motion_event. cbn [snd]. fold streams. rewrite propagate_context.
  split; intros Hl.
  - apply linkedb_spec in Hl. rewrite Hl. split; [done|].
    intros c a pkt tb Hc Hg Hs Ha Hd Hk Hkey Hdir Hcr Hgw. rewrite Hc. eexists; split; [done|].
    apply (triggered_key_frame a pkt _ tb); try done. by apply (good_same c).
  - rewrite <-linkedb_spec in Hl. destruct (linkedb streams name n); [done|]. by destruct (stream_context n cs).
Qed.
End recording.

(** ** Generations *)

Definition gen_find (n : cstr) (t : list pulse_gen_entry_t) : option pulse_gen_entry_t :=
  find (λ e, streq (gen_name e) n) t.

(** The table of a program that has counted [k] actions on streams of [names]. *)
Record gens_ok (names : list cstr) (k : Z) (t : list pulse_gen_entry_t) : Prop := {
  gens_unique : NoDup (gen_name <$> t);
  gens_named : gen_name <$> t ⊆ names;
  gens_range : Forall (λ e, 0 < generation e ≤ k) t
}.

Lemma pulse_gen_get_elem t e : NoDup (gen_name <$> t) → e ∈ t → pulse_gen_get (gen_name e) t = generation e.
Proof.
  unfold pulse_gen_get. induction t as [|x t IH]; intros Hd He; [by apply not_elem_of_nil in He|].
  cbn [fmap list_fmap] in Hd. apply NoDup_cons in Hd as [Hx Hd]. simpl. apply elem_of_cons in He as [->|He].
  - by rewrite streq_refl.
  - destruct (streq (gen_name x) (gen_name e)) eqn:E; [|auto]. apply streq_true in E.
    destruct Hx. rewrite E. by apply list_elem_of_fmap_2.
Qed.

Lemma pulse_gen_get_absent t n : n ∉ gen_name <$> t → pulse_gen_get n t = 0.
Proof.
  unfold pulse_gen_get. induction t as [|x t IH]; intros Hn; [done|]. cbn [fmap list_fmap] in Hn.
  apply not_elem_of_cons in Hn as [Hx Hn]. simpl. rewrite (proj2 (streq_false _ _)) by done. auto.
Qed.

Lemma pulse_gen_get_alter m f t i e :
  t !! i = Some e → gen_name (f e) = gen_name e → gen_name e ≠ m → pulse_gen_get m (alter f i t) = pulse_gen_get m t.
Proof.
  intros Hi Hf Hm. unfold pulse_gen_get. revert i Hi. induction t as [|x t IH]; intros [|i] Hi; simplify_eq/=.
  - by rewrite Hf, (proj2 (streq_false _ _)).
  - destruct (streq (gen_name x) m); [done|]. by apply IH.
Qed.

Lemma pulse_gen_get_app m t e : gen_name e ≠ m → pulse_gen_get m (t ++ [e]) = pulse_gen_get m t.
Proof.
  intros Hm. unfold pulse_gen_get. induction t as [|x t IH]; simpl; [by rewrite (proj2 (streq_false _ _))|].
  by destruct (streq (gen_name x) m).
Qed.

Lemma alter_names f (t : list pulse_gen_entry_t) (i : nat) : (∀ e, gen_name (f e) = gen_name e) → gen_name <$> alter f i t = gen_name <$> t.
Proof. intros Hf. revert i. induction t as [|x t IH]; intros [|i]; cbn; rewrite ?Hf; [done..|]. f_equal. apply IH. Qed.

Lemma gens_ok_get names k t n : 0 ≤ k → gens_ok names k t → 0 ≤ pulse_gen_get n t ≤ k.
Proof.
  intros Hk [_ _ Hr]. unfold pulse_gen_get. destruct (find _ t) as [e|] eqn:E; [|lia].
  apply find_some in E as [Hin _]. rewrite Forall_forall in Hr. apply list_elem_of_In, Hr in Hin. lia.
Qed.

(** A new action has a generation that no earlier action on its stream had. *)
Lemma increment_spec names k t n :
  gens_ok names k t → n ∈ names → Forall (λ m, (length m < MAX_STREAM_NAME)%nat) names →
  (length names ≤ MAX_STREAMS)%nat → 0 ≤ k → k + 1 < 2 ^ 64 →
  let '(g, t') := pulse_gen_increment n t in
  gens_ok names (k + 1) t' ∧ pulse_gen_get n t' = g ∧ pulse_gen_get n t < g ∧
  ∀ m, m ≠ n → pulse_gen_get m t' = pulse_gen_get m t.
Proof.
  intros Hok Hn Hlen Hroom Hk0 Hk. pose proof (gens_ok_get names k t n Hk0 Hok) as Hget.
  destruct Hok as [Hu Hs Hr]. unfold pulse_gen_increment.
  destruct (find_idx _ t) as [i|] eqn:E.
  - apply find_idx_lookup in E as (e & He & <-%streq_true).
    set (f := λ e, mkPulseGen (gen_name e) (u64 (generation e + 1))).
    assert (gen_name <$> alter f i t = gen_name <$> t) as Hnames by (by apply alter_names).
    assert (alter f i t !! i = Some (f e)) as He' by (rewrite list_lookup_alter, decide_True by done; by rewrite He).
    assert (0 < generation e ≤ k) as Hge by (rewrite Forall_forall in Hr; by apply Hr, (list_elem_of_lookup_2 _ i)).
    assert (u64 (generation e + 1) = generation e + 1) as Hu64 by (apply u64_small; lia).
    assert (pulse_gen_get (gen_name e) (alter f i t) = generation e + 1) as ->.
    { change (gen_name e) with (gen_name (f e)). rewrite pulse_gen_get_elem; [done|by rewrite Hnames|by eapply list_elem_of_lookup_2]. }
    split_and!; [split; [by rewrite Hnames..|]|done| |].
    + apply Forall_alter; [eapply Forall_impl; [exact Hr|]; simpl; lia|]. simpl. intros x Hx _. simplify_eq. rewrite Hu64. lia.
    + rewrite (pulse_gen_get_elem t e) by (done || by eapply list_elem_of_lookup_2). lia.
    + intros m Hm. by apply (pulse_gen_get_alter m f t i e).
  - assert (n ∉ gen_name <$> t) as Hnin.
    { intros (e & -> & [i Hi]%list_elem_of_lookup)%list_elem_of_fmap. rewrite find_idx_None in E.
      specialize (E i e Hi). by rewrite streq_refl in E. }
    assert (length t < MAX_STREAMS)%nat as Ht.
    { assert (length (n :: (gen_name <$> t)) ≤ length names)%nat as Hle.
      { apply submseteq_length, NoDup_submseteq; [by apply NoDup_cons|].
        intros x [->|Hx]%elem_of_cons; [done|by apply Hs]. }
      simpl in Hle. rewrite length_fmap in Hle. lia. }
    rewrite (proj2 (Nat.ltb_lt _ _)) by done.
    assert (strcpy_trunc MAX_STREAM_NAME n = n) as Htr by (rewrite Forall_forall in Hlen; by apply strcpy_trunc_id, Hlen).
    rewrite Htr.
    assert (NoDup (gen_name <$> t ++ [mkPulseGen n 1])) as Hu'.
    { rewrite fmap_app. apply NoDup_app. split_and!; [done| |apply NoDup_singleton].
      cbn. intros x Hx ->%list_elem_of_singleton. done. }
    rewrite (pulse_gen_get_absent t n) by done. split_and!; [split; [done| |]| |lia|].
    + rewrite fmap_app. cbn. intros x [Hx| ->%list_elem_of_singleton]%elem_of_app; [by apply Hs|done].
    + apply Forall_app. split; [eapply Forall_impl; [exact Hr|]; simpl; lia|]. repeat constructor; simpl; lia.
    + change n with (gen_name (mkPulseGen n 1)) at 1. rewrite pulse_gen_get_elem; [done|done|].
      apply elem_of_app. right. by left.
    + intros m Hm. by apply pulse_gen_get_app.
Qed.

(** ** Histories *)

Section history.
Context {B : Type} (streams : list stream_link) (names : list cstr).
Context (names_short : Forall (λ m, (length m < MAX_STREAM_NAME)%nat) names).
Context (names_fit : (length names ≤ MAX_STREAMS)%nat).
Implicit Types (w : motion_world B) (s : list motion_pulse_task_t * motion_world B) (o : motion_op B).

(** The operation is one on a stream of [names] that is not linked with [n]. *)
Definition op_apart (n : cstr) o : Prop :=
  match o with
  | Act name _ _ _ => name ∈ names ∧ ¬ linked streams name n
  | Wake _ => True
  | ThreadTurn _ _ => True
  end.

(** A worker of a stream not linked with [n], whose pulse was counted. *)
Definition worker_ok (n : cstr) w (t : motion_pulse_task_t) : Prop :=
  ¬ linked streams (task_stream t) n ∧ 0 < task_generation t ≤ pulse_gen_get (task_stream t) (pulse_gen w).

Record history_ok (n : cstr) (k : Z) s : Prop := {
  history_gens : gens_ok names k (pulse_gen s.2);
  history_workers : Forall (worker_ok n s.2) s.1
}.

Lemma dispatch_shape name a d sched w :
  let '(g, t) := pulse_gen_increment name (pulse_gen w) in
  let '(_, task, w') := dispatch streams name a d sched w in
  pulse_gen w' = t ∧
  (∀ x, x ∈ (match task with Some x => [x] | None => [] end) → x = mkPulseTask (strcpy_trunc MAX_STREAM_NAME name) d g) ∧
  ∀ n, name ≠ n → ¬ linked streams name n → stream_context n (contexts w') = stream_context n (contexts w).
Proof.
  unfold dispatch, increment. destruct (pulse_gen_increment name (pulse_gen w)) as [g t].
  assert (∀ n b w', name ≠ n → ¬ linked streams name n →
    stream_context n (contexts (notify_and_propagate streams name b w')) = stream_context n (contexts w')) as Hctx.
  { intros n b w' Hn Hl. unfold notify_and_propagate. cbn [contexts]. rewrite propagate_context, notify_context.
    rewrite <-linkedb_spec in Hl. rewrite (proj2 (streq_false _ _) Hn).
    destruct (linkedb streams name n); [done|]. by destruct (stream_context n (contexts w')). }
  destruct a; [..|destruct sched]; (split_and!; [done| |intros n Hn Hl; by rewrite !Hctx]);
    intros x Hx; try by apply not_elem_of_nil in Hx. by apply list_elem_of_singleton in Hx.
Qed.

Lemma worker_ok_mono n w w' t :
  pulse_gen_get (task_stream t) (pulse_gen w) ≤ pulse_gen_get (task_stream t) (pulse_gen w') →
  worker_ok n w t → worker_ok n w' t.
Proof. intros Hle [Hl Hg]. split; [done|lia]. Qed.

Lemma history_step n k s o :
  0 ≤ k → k + 1 < 2 ^ 64 → op_apart n o → history_ok n k s → history_ok n (k + 1) (apply_motion streams s o).
Proof.
  intros Hk0 Hk Ho [Hg Hw]. destruct s as [ts w]. cbn [fst snd] in *.
  assert (∀ t, gens_ok names k t → gens_ok names (k + 1) t) as Hmono.
  { intros t [Hu Hs Hr]. split; [done..|]. eapply Forall_impl; [exact Hr|]. simpl. lia. }
  destruct o as [name a d sched|i|name f]; cbn [apply_motion fst snd].
  - destruct Ho as [Hn Hl]. pose proof (dispatch_shape name a d sched w) as Hd.
    pose proof (increment_spec names k (pulse_gen w) name Hg Hn names_short names_fit Hk0 Hk) as Hi.
    destruct (pulse_gen_increment name (pulse_gen w)) as [g t].
    destruct (dispatch streams name a d sched w) as [[b task] w']. destruct Hd as (Hgen & Htask & _).
    destruct Hi as (Hok & Hget & Hlt & Hother). pose proof (gens_ok_get names k (pulse_gen w) name Hk0 Hg) as Hnn.
    split; cbn [fst snd]; rewrite ?Hgen; [done|]. apply Forall_app. split.
    + eapply Forall_impl; [exact Hw|]. intros x. apply worker_ok_mono. rewrite Hgen.
      destruct (decide (task_stream x = name)) as [->|Hne]; [lia|by rewrite Hother].
    + apply Forall_forall. intros x Hx. rewrite (Htask x Hx). unfold worker_ok. cbn [task_stream task_generation].
      rewrite strcpy_trunc_id by (rewrite Forall_forall in names_short; by apply names_short). rewrite Hgen, Hget.
      split; [done|lia].
  - destruct (ts !! i) as [t|] eqn:Et; [|by split; [apply Hmono|]].
    assert (pulse_gen (motion_pulse_worker streams t w) = pulse_gen w) as Hgen
      by (unfold motion_pulse_worker; by destruct (still_current t w)).
    split; cbn [fst snd]; rewrite ?Hgen; [by apply Hmono|]. apply Forall_delete.
    eapply Forall_impl; [exact Hw|]. intros x. apply worker_ok_mono. by rewrite Hgen.
  - split; cbn [fst snd pulse_gen]; [by apply Hmono|]. eapply Forall_impl; [exact Hw|]. intros x. by apply worker_ok_mono.
Qed.

Lemma history_run n k os s :
  0 ≤ k → k + Z.of_nat (length os) < 2 ^ 64 → Forall (op_apart n) os → history_ok n k s →
  history_ok n (k + Z.of_nat (length os)) (motion_history streams os s).
Proof.
  intros Hk0 Hk Hos. revert k s Hk0 Hk. induction Hos as [|o os Ho _ IH]; intros k s Hk0 Hk Hok; cbn [motion_history foldl length] in *.
  - by rewrite Z.add_0_r.
  - rewrite Nat2Z.inj_succ in *. replace (k + Z.succ (Z.of_nat (length os))) with (k + 1 + Z.of_nat (length os)) by lia.
    apply IH; [lia..|]. apply history_step; [lia..|done|done].
Qed.
End history.

Section superseded.
Context {B : Type} (streams : list stream_link) (names : list cstr).
Context (names_short : Forall (λ m, (length m < MAX_STREAM_NAME)%nat) names).
Context (names_fit : (length names ≤ MAX_STREAMS)%nat).
Implicit Types (w : motion_world B) (s : list motion_pulse_task_t * motion_world B) (o : motion_op B).

(** No worker of the stream will still be current. *)
Definition superseded (n : cstr) s : Prop :=
  Forall (λ t, task_stream t = n → task_generation t < pulse_gen_get n (pulse_gen s.2)) s.1.

(** What an operation of the detection thread of [n] does to its context. *)
Definition turn_of (n : cstr) o (c : ctx B) : ctx B :=
  match o with ThreadTurn m f => if streq m n then f c else c | _ => c end.

Definition acts_on (n : cstr) o : Prop := match o with Act m _ _ _ => m = n | _ => False end.

Lemma worker_apart n w t :
  worker_ok streams n w t → (task_stream t = n → task_generation t < pulse_gen_get n (pulse_gen w)) →
  stream_context n (contexts (motion_pulse_worker streams t w)) = stream_context n (contexts w).
Proof.
  intros [Hl Hg] Hs. unfold motion_pulse_worker. destruct (decide (task_stream t = n)) as [E|Hne].
  - specialize (Hs E). unfold still_current. rewrite E in Hg |- *. by rewrite !(proj2 (Z.eqb_neq _ _)) by lia.
  - destruct (still_current t w); [|done]. unfold notify_and_propagate. cbn [contexts].
    rewrite propagate_context, notify_context, (proj2 (streq_false _ _) Hne). rewrite <-linkedb_spec in Hl.
    destruct (linkedb streams _ n); [done|]. by destruct (stream_context n (contexts w)).
Qed.

Lemma superseded_step n k s o :
  0 ≤ k → k + 1 < 2 ^ 64 → op_apart streams names n o → ¬ acts_on n o → history_ok streams names n k s → superseded n s →
  superseded n (apply_motion streams s o) ∧
  stream_context n (contexts (apply_motion streams s o).2) = turn_of n o <$> stream_context n (contexts s.2).
Proof.
  intros Hk0 Hk Ho Hna [Hg Hw] Hs. destruct s as [ts w]. unfold superseded in *. cbn [fst snd] in *.
  destruct o as [m a d sched|i|m f]; cbn [apply_motion fst snd turn_of].
  - destruct Ho as [Hm Hl]. pose proof (dispatch_shape streams m a d sched w) as Hd.
    pose proof (increment_spec names k (pulse_gen w) m Hg Hm names_short names_fit Hk0 Hk) as Hi.
    destruct (pulse_gen_increment m (pulse_gen w)) as [g t].
    destruct (dispatch streams m a d sched w) as [[b task] w']. destruct Hd as (Hgen & Htask & Hctx).
    destruct Hi as (_ & _ & _ & Hother). cbn [fst snd]. rewrite Hgen, Hother by congruence. split.
    + apply Forall_app. split; [done|]. apply Forall_forall. intros x Hx. rewrite (Htask x Hx). cbn [task_stream].
      rewrite strcpy_trunc_id by (rewrite Forall_forall in names_short; by apply names_short). congruence.
    + rewrite Hctx by done. by destruct (stream_context n (contexts w)).
  - destruct (ts !! i) as [t|] eqn:Et; [|cbn [fst snd]; split; [done|]; by destruct (stream_context n (contexts w))].
    assert (pulse_gen (motion_pulse_worker streams t w) = pulse_gen w) as Hgen
      by (unfold motion_pulse_worker; by destruct (still_current t w)).
    cbn [fst snd]. rewrite Hgen. split; [by apply Forall_delete|].
    rewrite Forall_forall in Hw, Hs. apply list_elem_of_lookup_2 in Et.
    rewrite worker_apart by auto. by destruct (stream_context n (contexts w)).
  - cbn [fst snd contexts pulse_gen]. split; [done|]. by rewrite update_context_lookup.
Qed.

Lemma superseded_run n k os s :
  0 ≤ k → k + Z.of_nat (length os) < 2 ^ 64 → Forall (op_apart streams names n) os → Forall (λ o, ¬ acts_on n o) os →
  history_ok streams names n k s → superseded n s →
  stream_context n (contexts (motion_history streams os s).2) =
  (λ c, foldl (λ c o, turn_of n o c) c os) <$> stream_context n (contexts s.2).
Proof.
  intros Hk0 Hk Hos Hno. revert k s Hk0 Hk. induction Hos as [|o os Ho _ IH]; intros k s Hk0 Hk Hok Hs.
  - cbn [motion_history foldl]. by destruct (stream_context n (contexts s.2)).
  - apply Forall_cons in Hno as [Hna Hno]. cbn [length] in Hk.
    destruct (superseded_step n k s o) as [Hs' Hc]; [lia..|done|done|done|done|].
    change (motion_history streams (o :: os) s) with (motion_history streams os (apply_motion streams s o)).
    rewrite (IH Hno (k + 1)); [|lia|lia| |done].
    + rewrite Hc. by destruct (stream_context n (contexts s.2)).
    + apply history_step; [done|done|lia|lia|done|done].
Qed.
End superseded.

(** A start leaves the stream with its trigger set and no current worker. *)
Lemma start_supersedes {B} streams names n k (s : list motion_pulse_task_t * motion_world B) d sched :
  Forall (λ m, (length m < MAX_STREAM_NAME)%nat) names → (length names ≤ MAX_STREAMS)%nat → 0 ≤ k → k + 1 < 2 ^ 64 →
  n ∈ names → history_ok streams names n k s →
  let s' := apply_motion streams s (Act n MOTION_ACTION_START d sched) in
  superseded n s' ∧
  stream_context n (contexts s'.2) = unified_detection_notify_motion true <$> stream_context n (contexts s.2).
Proof.
  intros Hshort Hfit Hk0 Hk Hn [Hg Hw]. destruct s as [ts w]. cbn [fst snd] in *. cbn [apply_motion fst snd].
  pose proof (increment_spec names k (pulse_gen w) n Hg Hn Hshort Hfit Hk0 Hk) as Hi.
  unfold dispatch, increment. destruct (pulse_gen_increment n (pulse_gen w)) as [g t]. destruct Hi as (_ & Hget & Hlt & _).
  unfold superseded, notify_and_propagate. cbn [fst snd pulse_gen contexts is_active]. rewrite app_nil_r. split.
  - rewrite Hget. eapply Forall_impl; [exact Hw|]. intros x [_ Hx] E. rewrite E in Hx. lia.
  - rewrite propagate_context, notify_context, streq_refl.
    destruct (linkedb streams n n) eqn:El; [by apply linkedb_spec in El as [? _]|].
    by destruct (stream_context n (contexts w)).
Qed.

(** once a request has started the motion of a stream, its trigger is left
    to its detection thread: no pulse of an earlier request ends it, whatever
    happens on streams that are not linked with it, until there is another
    request for the stream. *)
Theorem start_not_cut_short {B} streams names (cs : slots B) before n d sched after :
  Forall (λ m, (length m < MAX_STREAM_NAME)%nat) names → (length names ≤ MAX_STREAMS)%nat →
  Forall (op_apart streams names n) (before ++ Act n MOTION_ACTION_START d sched :: after) →
  Forall (λ o, ¬ acts_on n o) after → Z.of_nat (length before + length after) < 2 ^ 64 - 1 →
  let history os := stream_context n (contexts (motion_history streams os ([], mkMotionWorld cs [])).2) in
  history (before ++ Act n MOTION_ACTION_START d sched :: after) =
  (λ c, foldl (λ c o, turn_of n o c) (unified_detection_notify_motion true c) after) <$> history before.
Proof.
  intros Hshort Hfit Hos Hno Hlen history. unfold history, motion_history. rewrite foldl_app. cbn [foldl].
  apply Forall_app in Hos as [Hb Ha]. apply Forall_cons in Ha as [Hn Ha].
  fold (motion_history streams before ([], mkMotionWorld cs [])).
  assert (history_ok streams names n 0 ([], mkMotionWorld cs [])) as H0
    by (split; [split; [constructor|intros x Hx; by apply not_elem_of_nil in Hx|constructor]|constructor]).
  pose proof (history_run streams names Hshort Hfit n 0 before _ ltac:(lia) ltac:(lia) Hb H0) as H1.
  set (s1 := motion_history streams before _) in *. rewrite Z.add_0_l in H1.
  pose proof (history_step streams names Hshort Hfit n (Z.of_nat (length before)) s1 _ ltac:(lia) ltac:(lia) Hn H1) as H2.
  destruct (start_supersedes streams names n (Z.of_nat (length before)) s1 d sched) as [Hs Hc]; [done..|lia|lia|apply Hn|done|].
  etrans; [apply (superseded_run streams names Hshort Hfit n (Z.of_nat (length before) + 1)); [lia|lia|done..]|].
  rewrite Hc. by destruct (stream_context n (contexts s1.2)).
Qed.

(** ** Requests *)

Lemma equal_to_small p v : Z.pos p < 2 ^ 52 → SFeqb (f_of_Z binary64 (Z.pos p)) v = true → v = f_of_Z binary64 (Z.pos p).
Proof.
  intros Hp. rewrite f_of_Z_small by done. unfold SFeqb, SFcompare. destruct v as [s|s| |s m e]; try done; destruct s; try done.
  destruct (Z.compare_spec (Z.pos (digits2_pos p) - 53) e) as [->| |]; try done.
  change (Pos.compare_cont Eq ?a ?b) with (Pos.compare a b).
  destruct (Pos.compare_spec (Pos.iter xO p (Z.to_pos (53 - Z.pos (digits2_pos p)))) m) as [->| |]; done.
Qed.

(** A pulse lasts between a millisecond and ten minutes. *)
Lemma read_duration_range a j n : read_duration a j = Some (Some n) → 1 ≤ n ≤ MOTION_PULSE_MAX_MS.
Proof.
  unfold read_duration, MOTION_PULSE_DEFAULT_MS, MOTION_PULSE_MAX_MS. destruct a; [intros [= <-]; lia..|].
  destruct j as [[s|v|]|]; [done| |done|intros [= <-]; lia].
  destruct (fle v (f_of_Z binary64 0)) eqn:E0; [done|]. destruct (fgt v _) eqn:E1; [done|]. cbn [orb].
  destruct (f_to_int v) as [z|] eqn:Ez; [cbn [mbind option_bind]|done].
  destruct (SFeqb (f_of_Z binary64 z) v) eqn:Eq; [intros [= <-]|done].
  unfold f_to_int in Ez. destruct (f_trunc v) as [z'|] eqn:Et; [cbn [mbind option_bind] in Ez|done].
  destruct (_ && _) eqn:Er; [|done]. simplify_eq. unbool. destruct z as [|p|p].
  - exfalso. unfold SFeqb, SFcompare in Eq. change (f_of_Z binary64 0) with (S754_zero false) in *.
    destruct v as [s|s| |s m e]; try done; destruct s; done.
  - assert (Z.pos p < 2 ^ 52) as Hp by lia. apply equal_to_small in Eq as ->; [|done].
    unfold fgt, SFltb in E1. rewrite (f_compare_small 600000 p) in E1 by (done || lia).
    destruct (Z.compare_spec 600000 (Z.pos p)); [lia|done|lia].
  - exfalso. unfold f_trunc in Et. destruct v as [s|s| |s m e]; try done.
    destruct s; [done|].
    assert (0 ≤ Z.neg p); [|lia]. injection Et as <-. destruct (Z.leb_spec 0 e).
    + apply Z.mul_nonneg_nonneg; [lia|by apply Z.pow_nonneg].
    + apply Z.div_pos; [lia|]. apply Z.pow_pos_nonneg; lia.
Qed.

Lemma read_motion_body_range body name a n :
  read_motion_body body = Some (MotionRequest name a n) → 1 ≤ n ≤ MOTION_PULSE_MAX_MS.
Proof.
  unfold read_motion_body. destruct body as [[[[[|c s]| |]|] [[t| |]|] j]|]; try done.
  destruct (parse_action t) as [a'|]; [|done]. destruct (read_duration a' j) as [[m|]|] eqn:E; try done.
  cbn [mbind option_bind]. intros [= _ _ <-]. by eapply read_duration_range.
Qed.

Lemma motion_user_refused `{InetConversions} {D} `{!AuthStore D} cfg req (d d' : D) s :
  motion_user cfg req d = Some (inl s, d') → s = 401 ∨ s = 403.
Proof.
  unfold motion_user. destruct (negb _); [done|]. destruct (httpd_get_authenticated_user cfg req d) as [[[u|] d2]|]; [|naive_solver|done].
  cbn [mbind option_bind]. destruct (_ =? _); naive_solver.
Qed.

Lemma dispatch_task {B} streams name a n sched (w w' : motion_world B) ok t :
  dispatch streams name a n sched w = (ok, Some t, w') → duration_ms t = n.
Proof. unfold dispatch, increment. destruct (pulse_gen_increment _ _). destruct a, sched; intros; by simplify_eq. Qed.

(** a request changes a trigger or starts a worker only when it is
    authenticated, where that is required, as a user above viewer; when its
    stream exists and records on detection; and a worker sleeps for the time that
    was asked for, at most ten minutes. *)
Theorem motion_request_guarded `{InetConversions} {D} `{!AuthStore D} {B} cfg streams parse lookup sched resp req (d : D)
    (w : motion_world B) status task w' d' :
  handle_post_motion_trigger cfg streams parse lookup sched resp req d w = Some (status, task, w', d') →
  (status = 202 ∨ w' ≠ w ∨ task ≠ None) →
  (web_auth_enabled cfg = true →
   ∃ u d1, httpd_get_authenticated_user cfg req d = Some (Some u, d1) ∧ role u ≠ USER_ROLE_VIEWER) ∧
  ∃ name a n, read_motion_body (parse req) = Some (MotionRequest name a n) ∧ lookup name = StreamConfig true ∧
    1 ≤ n ≤ MOTION_PULSE_MAX_MS ∧ ∀ t, task = Some t → duration_ms t = n ∧ pulse_usec t = n * 1000.
Proof.
  unfold handle_post_motion_trigger. intros E Hc.
  destruct (motion_user cfg req d) as [[[s|[]] d1]|] eqn:Eu; cbn [mbind option_bind] in E; [| |done].
  { apply motion_user_refused in Eu as [-> | ->]; naive_solver. }
  destruct (read_motion_body (parse req)) as [r|] eqn:Er; [cbn [mbind option_bind] in E|done].
  split.
  - intros Hen. unfold motion_user in Eu. rewrite Hen in Eu. cbn [negb] in Eu.
    destruct (httpd_get_authenticated_user cfg req d) as [[[u|] d2]|]; [cbn [mbind option_bind] in Eu|done..].
    exists u, d2. split; [done|]. by destruct (Z.eqb_spec (role u) USER_ROLE_VIEWER).
  - unfold answer_motion in E. destruct r as [|name a n]; [by naive_solver|]. exists name, a, n.
    pose proof (read_motion_body_range _ _ _ _ Er) as Hn. split; [done|].
    destruct (lookup name) as [| |[]]; try by naive_solver. split_and!; [done|lia..|]. intros t ->.
    destruct (dispatch streams name a n sched w) as [[ok task] w2] eqn:Ed. simplify_eq.
    apply dispatch_task in Ed as <-. split; [done|]. unfold pulse_usec, u32. apply Z.mod_small.
    unfold MOTION_PULSE_MAX_MS in Hn. lia.
Qed.

(** ** Threads *)

Section overlap.
Context {B : Type} (streams : list stream_link).
Implicit Types w : motion_world B.

#[local] Arguments pulse_gen_increment : simpl never.
#[local] Arguments propagate : simpl never.
#[local] Arguments notify_motion : simpl never.
#[local] Arguments still_current : simpl never.

Lemma step_alone t w :
  schedule_step streams ([t], w) 0 = let '(t', w') := thread_step streams t w in ([t'], w').
Proof. unfold schedule_step. cbn [fst snd lookup list_lookup]. by destruct (thread_step streams t w). Qed.

(** The steps of a thread that runs alone make up the operation. *)
Lemma request_steps name a d sched w :
  let '(_, task, w') := dispatch streams name a d sched w in
  let steps := if bool_decide (a = MOTION_ACTION_PULSE) && negb sched then 5%nat else 3%nat in
  interleave streams (replicate steps 0%nat) ([Requested name a d sched], w) =
  ([match task with Some t => Asleep t | None => Finished end], w').
Proof.
  unfold dispatch, increment. destruct (pulse_gen_increment name (pulse_gen w)) as [g t] eqn:E.
  destruct a; [..|destruct sched]; cbn [bool_decide decide_rel negb andb]; case_bool_decide; try done;
    cbn [negb andb replicate interleave foldl]; rewrite step_alone; cbn [thread_step]; unfold increment; rewrite E; reflexivity.
Qed.

Lemma worker_steps t w :
  interleave streams (replicate 3 0%nat) ([Asleep t], w) = ([Finished], motion_pulse_worker streams t w).
Proof.
  unfold motion_pulse_worker. cbn. unfold schedule_step. cbn. destruct (still_current t w); done.
Qed.

(** the check of a worker and what it does are not one step.  A start that
    is requested between them is answered, and then undone: both threads end
    and the stream is told that its motion is over. *)
Theorem start_lost_to_late_stop n t d sched w :
  task_stream t = n → still_current t w = true →
  ∃ w', interleave streams [0; 1; 1; 1; 0; 0]%nat ([Asleep t; Requested n MOTION_ACTION_START d sched], w) =
        ([Finished; Finished], w') ∧
    stream_context n (contexts w') = unified_detection_notify_motion false <$> stream_context n (contexts w).
Proof.
  intros <- Hc. cbn. unfold schedule_step. cbn. rewrite Hc. cbn. unfold increment.
  destruct (pulse_gen_increment (task_stream t) (pulse_gen w)) as [g gens]. cbn. eexists. split; [done|].
  cbn [contexts propagate_only notify_only]. rewrite ?propagate_context, ?notify_context, ?propagate_context, ?notify_context, !streq_refl.
  destruct (linkedb streams (task_stream t) (task_stream t)) eqn:El; [by apply linkedb_spec in El as [? _]|].
  by destruct (stream_context (task_stream t) (contexts w)).
Qed.

(** generations are kept by stream, but a pulse also ends the motion of the
    streams linked with its own: a stream that was started while the pulse of a
    linked one ran is told that its motion is over. *)
Theorem linked_pulse_ends_start a b d1 d2 sched (cs : slots B) :
  linked streams a b → (length a < MAX_STREAM_NAME)%nat → (length b < MAX_STREAM_NAME)%nat →
  let s := motion_history streams [Act a MOTION_ACTION_PULSE d1 true; Act b MOTION_ACTION_START d2 sched; Wake 0]
             ([], mkMotionWorld cs []) in
  stream_context b (contexts s.2) = unified_detection_notify_motion false <$> stream_context b cs.
Proof.
  intros Hl Ha Hb. assert (a ≠ b) as Hab by (by intros ->; destruct Hl).
  assert (pulse_gen_increment a [] = (1, [mkPulseGen a 1])) as Ga.
  { unfold pulse_gen_increment. simpl. by rewrite strcpy_trunc_id. }
  assert (pulse_gen_increment b [mkPulseGen a 1] = (1, [mkPulseGen a 1; mkPulseGen b 1])) as Gb.
  { unfold pulse_gen_increment. simpl. by rewrite (proj2 (streq_false a b)), strcpy_trunc_id. }
  unfold motion_history. cbn [foldl]. unfold apply_motion at 3. unfold dispatch at 1, increment at 1. cbn [fst snd pulse_gen contexts].
  rewrite Ga, strcpy_trunc_id by done. cbn [app is_active].
  unfold apply_motion at 2. unfold dispatch at 1, increment at 1. cbn [fst snd pulse_gen contexts notify_and_propagate].
  rewrite Gb. cbn [app]. unfold apply_motion. cbn [fst snd lookup list_lookup delete list_delete].
  unfold motion_pulse_worker, still_current. cbn [task_generation task_stream notify_and_propagate pulse_gen contexts].
  assert (pulse_gen_get a [mkPulseGen a 1; mkPulseGen b 1] = 1) as -> by (unfold pulse_gen_get; simpl; by rewrite streq_refl).
  cbn [Z.eqb Pos.eqb orb snd contexts]. unfold notify_and_propagate. cbn [contexts pulse_gen].
  repeat rewrite ?propagate_context, ?notify_context. rewrite streq_refl, (proj2 (streq_false a b) Hab).
  apply linkedb_spec in Hl. rewrite Hl. destruct (stream_context b cs); [|done]. by destruct (linkedb streams b b).
Qed.
End overlap.

(** ** The sleep of a worker *)

(** The chunks of [usleep] are the whole of the pulse, none above half a second;
    the fuel that the loop needs is one turn per chunk. *)
Lemma sleep_whole fuel usec :
  0 ≤ usec ≤ 500000 * Z.of_nat fuel →
  foldr Z.add 0 (sleep_chunks fuel usec) = usec ∧ Forall (λ c, 0 < c ≤ 500000) (sleep_chunks fuel usec).
Proof.
  revert usec. induction fuel as [|fuel IH]; intros usec Hu; cbn [sleep_chunks]; [split; [simpl; lia|constructor]|].
  destruct (Z.gtb_spec usec 0); [|split; [simpl; lia|constructor]]. cbn [foldr].
  set (c := if usec >? 500000 then 500000 else usec).
  assert (0 < c ≤ 500000 ∧ usec - c ≤ 500000 * Z.of_nat fuel ∧ 0 ≤ usec - c) as (Hc & Hl & H0)
    by (unfold c; destruct (Z.gtb_spec usec 500000); lia).
  destruct (IH (usec - c)) as [-> Hf]; [lia|]. split; [lia|]. by constructor.
Qed.

(** ** Three cameras: a wide lens, the lens that follows it, and a third *)

Definition example_links : list stream_link :=
  [mkLink (lit "wide") []; mkLink (lit "ptz") (lit "wide"); mkLink (lit "yard") (lit "ptz")].

Definition example_names : list cstr := [lit "wide"; lit "ptz"; lit "yard"].

Definition example_camera : ctx ring_buffer := thread_ctx (cam_run cam_live).

Definition example_slots : slots ring_buffer :=
  [Some (lit "wide", example_camera); None; Some (lit "ptz", example_camera); Some (lit "yard", example_camera)].

#[global] Instance linked_dec streams name n : Decision (linked streams name n).
Proof.
  destruct (linkedb streams name n) eqn:E; [left; by apply linkedb_spec|right; rewrite <-linkedb_spec, E; done].
Defined.

Ltac decided := apply (bool_decide_eq_true_1 _); vm_compute; reflexivity.

Lemma links_go_both_ways_witness :
  linked example_links (lit "ptz") (lit "wide") ∧ linked example_links (lit "wide") (lit "ptz").
Proof.
  assert (linked example_links (lit "wide") (lit "ptz")) as Hl by decided.
  split; [|exact Hl]. apply (links_go_both_ways example_links (lit "wide") (lit "ptz")); [|by eexists; split; [left|]|exact Hl].
  split; [decided|]. repeat constructor; simpl; try discriminate; vm_compute; lia.
Defined.

Definition example_motion : slots ring_buffer :=
  (process_motion_event 16 (Some example_links) (Some (lit "wide")) true false example_slots).2.

Lemma motion_reaches_linked_witness :
  (∃ c, stream_context (lit "ptz") example_motion = Some c ∧
    state (process_packet cam_text cam_init 2 (cam_answers 103 false) (cam_key 103) c) = UDT_STATE_RECORDING) ∧
  stream_context (lit "yard") example_motion = Some example_camera.
Proof.
  split.
  - destruct (proj2 (proj1 (motion_reaches_linked cam_text cam_init 2 16 (Some example_links) (lit "wide") example_slots (lit "ptz"))
      ltac:(decided)) example_camera (cam_answers 103 false) (cam_key 103) (1, 1))
      as (c & Hc & Hs & _); [vm_compute; reflexivity|apply cam_good|vm_compute; reflexivity..|vm_compute; discriminate|].
    exists c. split; [exact Hc|exact Hs].
  - etransitivity; [|vm_compute; reflexivity].
    exact (proj2 (motion_reaches_linked cam_text cam_init 2 16 (Some example_links) (lit "wide") example_slots (lit "yard"))
      ltac:(decided)).
Defined.

(** A pulse of the wide lens is cut off by a start. *)
Definition example_before : list (motion_op ring_buffer) := [Act (lit "wide") MOTION_ACTION_PULSE 2000 true].
Definition example_after : list (motion_op ring_buffer) := [Wake 0; Act (lit "yard") MOTION_ACTION_STOP 0 true].

Lemma start_not_cut_short_witness :
  external_motion_trigger ∘ sig <$>
    stream_context (lit "wide") (contexts (motion_history example_links
      (example_before ++ Act (lit "wide") MOTION_ACTION_START 0 true :: example_after)
      ([], mkMotionWorld example_slots [])).2) = Some 1.
Proof.
  rewrite (start_not_cut_short example_links example_names example_slots example_before (lit "wide") 0 true example_after).
  - vm_compute. reflexivity.
  - repeat constructor; vm_compute; lia.
  - vm_compute. lia.
  - repeat constructor; decided.
  - repeat constructor; simpl; try tauto; vm_compute; discriminate.
  - vm_compute. reflexivity.
Defined.

#[local] Existing Instances known_conversions HttpUtils.example_store.

Definition example_pulse_request : http_request_t :=
  example_request (lit "10.1.3.7") [mkHeader (lit "Cookie") (lit "session=tok")].

Definition example_pulse_body (req : http_request_t) : option motion_body :=
  Some (mkMotionBody (Some (JString (lit "wide"))) (Some (JString (lit "pulse"))) (Some (JNumber (f_of_Z binary64 1500)))).

Definition example_pulse_answer :=
  handle_post_motion_trigger example_config example_links example_pulse_body (λ _, StreamConfig true) true true
    example_pulse_request tt (mkMotionWorld example_slots []).

Lemma motion_request_guarded_witness :
  ∃ t w, example_pulse_answer = Some (202, Some t, w, tt) ∧ pulse_usec t = 1500000.
Proof.
  assert (E : ∃ t w, example_pulse_answer = Some (202, Some t, w, tt)) by (eexists _, _; vm_compute; reflexivity).
  destruct E as (t & w & E). exists t, w. split; [exact E|].
  destruct (motion_request_guarded example_config example_links example_pulse_body (λ _, StreamConfig true) true true
    example_pulse_request tt (mkMotionWorld example_slots []) 202 (Some t) w tt E (or_introl eq_refl))
    as (_ & name & a & n & Hr & _ & _ & Ht).
  rewrite (proj2 (Ht t eq_refl)). vm_compute in Hr. injection Hr as _ _ <-. reflexivity.
Defined.

(** The worker of a pulse that is still current. *)
Definition example_pulsing : list motion_pulse_task_t * motion_world ring_buffer :=
  motion_history example_links example_before ([], mkMotionWorld example_slots []).

Lemma start_lost_to_late_stop_witness :
  ∃ w', interleave example_links [0; 1; 1; 1; 0; 0]%nat
          ([Asleep (mkPulseTask (lit "wide") 2000 1); Requested (lit "wide") MOTION_ACTION_START 0 true], example_pulsing.2)
        = ([Finished; Finished], w') ∧
    stream_context (lit "wide") (contexts w') =
      unified_detection_notify_motion false <$> stream_context (lit "wide") (contexts example_pulsing.2).
Proof.
  apply (start_lost_to_late_stop example_links (lit "wide") (mkPulseTask (lit "wide") 2000 1) 0 true example_pulsing.2);
    [reflexivity|vm_compute; reflexivity].
Defined.

Lemma linked_pulse_ends_start_witness :
  external_motion_trigger ∘ sig <$>
    stream_context (lit "ptz") (contexts (motion_history example_links
      [Act (lit "wide") MOTION_ACTION_PULSE 2000 true; Act (lit "ptz") MOTION_ACTION_START 0 true; Wake 0]
      ([], mkMotionWorld example_slots [])).2) = Some 2.
Proof.
  rewrite (linked_pulse_ends_start example_links (lit "wide") (lit "ptz") 2000 0 true example_slots).
  - vm_compute. reflexivity.
  - decided.
  - vm_compute. lia.
  - vm_compute. lia.
Defined.
