(* ===== verification/MigrationSql.v ===== *)
(** * The text of database migrations

    [src/database/sqlite_migrate.c], the functions on text: names of migration
    files, the sections of a file, the allow-list of statements, and the splitting
    of a section into the statements that are handed to SQLite.

    SQLite is the class [Sqlite3]: a connection and what its functions do to it.
    The theorems on transactions and on runs of migrations are in [Migrations]. *)
From Stdlib Require Import ZArith Lia Bool.
From Stdlib Require Import Strings.Byte.
From stdpp Require Import base numbers list strings sorting pretty.
From S2P Require Import Prelude.
From S2P Require Import Libc.
From S2P Require Import Sql.
From S2P Require Import CStrings.
#[local] Open Scope Z_scope.

Definition MIGRATE_VERSION_LEN : nat := 32.
Definition MIGRATE_DESC_LEN : nat := 256.
Definition MIGRATE_PATH_LEN : nat := 512.
Definition MIGRATE_SQL_MAX_LEN : Z := 1024 * 1024.

Definition underscore : byte := Byte.x5f.
Definition space : byte := Byte.x20.
Definition newline : byte := Byte.x0a.
Definition quote : byte := Byte.x27.
Definition semicolon : byte := Byte.x3b.
Definition dash : byte := Byte.x2d.
Definition open_paren : byte := Byte.x28.

(** ** Names of migration files *)

Definition isdigit (c : byte) : bool := bool_decide (is_Some (digit c)).

(** [strcmp]: only the sign of the result means something. *)
Fixpoint strcmp (s t : cstr) : Z :=
  match s, t with
  | [], [] => 0
  | [], _ :: _ => -1
  | _ :: _, [] => 1
  | c :: s, d :: t => if bool_decide (c = d) then strcmp s t else byte_Z c - byte_Z d
  end.

(** The last four characters are [.sql]. *)
Definition sql_suffix (name : cstr) : bool := streq (drop (length name - 4) name) (lit ".sql").

(** The version and the description that the file name [<version>_<description>.sql]
    gives.  A [desc_len] of 0 means to [safe_strcpy] that there is no limit. *)
Definition parse_migration_filename (filename : cstr) : option (cstr * cstr) :=
  let len := length filename in
  if (len <? 5)%nat || negb (sql_suffix filename) then None else
  match split_first underscore filename with
  | None | Some ([], _) => None
  | Some (version, desc_start) =>
      if (MIGRATE_VERSION_LEN <=? length version)%nat then None else
      if negb (forallb isdigit version) then None else
      let desc_len := (length desc_start - 4)%nat in
      let description := strcpy_trunc MIGRATE_DESC_LEN
        (if (0 <? desc_len)%nat then take desc_len desc_start else desc_start) in
      Some (version, map (λ c, if bool_decide (c = underscore) then space else c) description)
  end.

(** ** Sections of a file *)

(** The text after the line of the marker, up to the next marker or the end, with
    what is not graphic at its end removed.  A length of 0 means to [rtrim_pos] that
    the text ends where the string does. *)
Definition extract_sql_section (content marker : cstr) : option cstr :=
  let search := strcpy_trunc 64 (lit "-- migrate:" ++ marker) in
  '(_, start) ← strstr search content;
  '(_, start) ← split_first newline start;
  let e := match strstr (lit "-- migrate:") start with
           | Some (before, _) => length before
           | None => length start
           end in
  e ← rtrim_pos (start ++ [NUL]) (Z.of_nat e);
  Some (take (Z.to_nat e) start).

(** ** The allow-list *)

Definition allowed : list cstr :=
  [lit "CREATE UNIQUE INDEX"; lit "CREATE TRIGGER"; lit "CREATE TABLE"; lit "CREATE INDEX";
   lit "CREATE VIEW"; lit "ALTER TABLE"; lit "DROP TRIGGER"; lit "DROP TABLE"; lit "DROP INDEX";
   lit "DROP VIEW"; lit "INSERT OR REPLACE"; lit "INSERT OR IGNORE"; lit "INSERT"; lit "REPLACE";
   lit "UPDATE"; lit "DELETE"; lit "SELECT"].

(** [strncasecmp (s, t, n) == 0]. *)
Definition strncaseeq (n : nat) (s t : cstr) : bool := strcaseeq (take n s) (take n t).

Definition delimiter (next : option byte) : bool :=
  match next with
  | None => true
  | Some c => isspace c || bool_decide (c = semicolon) || bool_decide (c = open_paren)
  end.

Definition allowed_start (p : cstr) : bool :=
  existsb (λ kw, strncaseeq (length kw) p kw && delimiter (p !! length kw)) allowed.

(** At [--]. *)
Definition at_comment (p : cstr) : bool :=
  match p with
  | c :: d :: _ => bool_decide (c = dash) && bool_decide (d = dash)
  | _ => false
  end.

(** [while ( *p && *p != '\n') p++]. *)
Fixpoint skip_line (p : cstr) : cstr :=
  match p with
  | [] => []
  | c :: p' => if bool_decide (c = newline) then p else skip_line p'
  end.

(** Behind the next semicolon outside of single quotes. *)
Fixpoint skip_statement (in_str : bool) (p : cstr) : cstr :=
  match p with
  | [] => []
  | c :: p =>
      if bool_decide (c = quote) then skip_statement (negb in_str) p
      else if bool_decide (c = semicolon) && negb in_str then p
      else skip_statement in_str p
  end.

(** Each turn gets past at least one character: as many turns as there are
    characters, and one for the end, are enough ([validate_from_enough]). *)
Fixpoint validate_from (fuel : nat) (p : cstr) : bool :=
  match fuel with
  | O => false
  | S fuel =>
      let p := skip_space p in
      if empty p then true
      else if at_comment p then validate_from fuel (skip_line p)
      else if negb (allowed_start p) then false
      else validate_from fuel (skip_statement false p)
  end.

(** The result 0 is [true]. *)
Definition validate_migration_sql (sql : cstr) : bool := validate_from (S (length sql)) sql.

(** ** SQLite *)

Inductive exec_result :=
  | SQLITE_OK
  | exec_failed (err_msg : option cstr).

(** What the first [sqlite3_step] of a prepared statement gives. *)
Inductive step_result := not_prepared | SQLITE_ROW | SQLITE_DONE | step_failed.

#[global] Instance exec_result_eq_dec : EqDecision exec_result.
Proof. solve_decision. Defined.

#[global] Instance step_result_eq_dec : EqDecision step_result.
Proof. solve_decision. Defined.

(** The functions of SQLite that are called.  [sqlite3_step sql args]: prepare, bind,
    one step, finalize; [sqlite3_prepare sql]: whether it can be prepared.
    [column_texts sql i]: column [i] of the rows of a query, none when it cannot be
    prepared; [column_int sql]: the first column of the first row. *)
Class Sqlite3 := {
  sqlite3 : Type;
  sqlite3_exec : cstr → sqlite3 → sqlite3 * exec_result;
  sqlite3_step : cstr → list cstr → sqlite3 → sqlite3 * step_result;
  sqlite3_prepare : cstr → sqlite3 → bool;
  column_texts : cstr → nat → sqlite3 → list (option cstr);
  column_int : cstr → sqlite3 → option Z
}.

(** Whether there is memory for so many bytes, the same throughout a call. *)
Class Memory := { allocates : Z → bool }.

(** ** Execution of a section *)

Section Execution.
Context `{Sqlite3} `{Memory}.

Definition column_exists (db : sqlite3) (table column : cstr) : bool :=
  let sql := strcpy_trunc 256 (lit "PRAGMA table_info(" ++ table ++ lit ");") in
  existsb (λ col_name, match col_name with Some n => strcaseeq n column | None => false end)
    (column_texts sql 1 db).

Definition table_exists (db : sqlite3) (table : cstr) : bool :=
  bool_decide (snd (sqlite3_step (lit "SELECT 1 FROM sqlite_master WHERE type='table' AND name=?;") [table] db) = SQLITE_ROW).

Definition index_exists (db : sqlite3) (index_name : cstr) : bool :=
  bool_decide (snd (sqlite3_step (lit "SELECT 1 FROM sqlite_master WHERE type='index' AND name=?;") [index_name] db) = SQLITE_ROW).

End Execution.

(** The characters up to the next space, 127 at most, and what is left. *)
Fixpoint take_word (n : nat) (p : cstr) : cstr * cstr :=
  match n, p with
  | S n, c :: p' => if isspace c then ([], p) else let '(w, r) := take_word n p' in (c :: w, r)
  | _, _ => ([], p)
  end.

(** The table and the column of [ALTER TABLE <table> ADD COLUMN <column>]. *)
Definition added_column (sql : cstr) : option (cstr * cstr) :=
  if negb (strncaseeq 11 sql (lit "ALTER TABLE")) then None else
  let '(table, p) := take_word 127 (skip_space (drop 11 sql)) in
  let p := skip_space p in
  if negb (strncaseeq 3 p (lit "ADD")) then None else
  let p := skip_space (drop 3 p) in
  if negb (strncaseeq 6 p (lit "COLUMN")) then None else
  let '(column, _) := take_word 127 (skip_space (drop 6 p)) in
  Some (table, column).

Definition mentions (word msg : cstr) : bool := bool_decide (is_Some (strstr word msg)).

(** The errors that mean that the statement has been executed before. *)
Definition already_there (err_msg : option cstr) : bool :=
  match err_msg with
  | None => false
  | Some m =>
      mentions (lit "duplicate column name") m
      || (mentions (lit "table") m && mentions (lit "already exists") m)
      || (mentions (lit "index") m && mentions (lit "already exists") m)
  end.

(** The end of a statement as [execute_sql] finds it: what is before the semicolon,
    and the rest from the semicolon on. *)
Fixpoint statement_end (in_string : bool) (s : cstr) : cstr * cstr :=
  match s with
  | [] => ([], [])
  | c :: s' =>
      if bool_decide (c = quote) then
        let '(a, b) := statement_end (negb in_string) s' in (c :: a, b)
      else if bool_decide (c = semicolon) && negb in_string then ([], s)
      else let '(a, b) := statement_end in_string s' in (c :: a, b)
  end.

Section Statements.
Context `{Sqlite3} `{Memory}.

(** 0, 1 for a statement that is skipped, -1. *)
Definition execute_single_statement (db : sqlite3) (sql : cstr) : sqlite3 * Z :=
  let sql := skip_space sql in
  if empty sql then (db, 0) else
  let skipped := match added_column sql with
                 | Some (table, column) =>
                     negb (empty table) && negb (empty column) && column_exists db table column
                 | None => false
                 end in
  if skipped then (db, 1) else
  match sqlite3_exec sql db with
  | (db, SQLITE_OK) => (db, 0)
  | (db, exec_failed err_msg) => (db, if already_there err_msg then 1 else -1)
  end.

(** The loop of [execute_sql]; [stmt_size] is the size of the buffer that the
    statements are copied to.  The fuel is as for [validate_from]. *)
Fixpoint execute_from (fuel : nat) (start : cstr) (stmt_size : Z) (db : sqlite3) : sqlite3 * Z :=
  match fuel with
  | O => (db, -1)
  | S fuel =>
      let start := skip_space start in
      if empty start then (db, 0)
      else if at_comment start then execute_from fuel (skip_line start) stmt_size db
      else
        let '(stmt, rest) := statement_end false start in
        if empty stmt then execute_from fuel (drop 1 rest) stmt_size db else
        let len := Z.of_nat (length stmt) in
        let grow := len + 2 >? stmt_size in
        let stmt_size := if grow then len + 256 else stmt_size in
        if grow && negb (allocates stmt_size) then (db, -1) else
        let '(db, result) := execute_single_statement db (stmt ++ [semicolon]) in
        if result <? 0 then (db, -1) else execute_from fuel (drop 1 rest) stmt_size db
  end.

Definition execute_sql (db : sqlite3) (sql : cstr) : sqlite3 * Z :=
  if strncaseeq 5 sql (lit "BEGIN") || strncaseeq 6 sql (lit "COMMIT") || strncaseeq 8 sql (lit "ROLLBACK")
  then match sqlite3_exec sql db with
       | (db, SQLITE_OK) => (db, 0)
       | (db, exec_failed _) => (db, -1)
       end
  else execute_from (S (length sql)) sql 0 db.

Definition execute_validated_migration_sql (db : sqlite3) (sql : cstr) : sqlite3 * Z :=
  if negb (validate_migration_sql sql) then (db, -1) else execute_sql db sql.

End Statements.

(** ** What the code should agree with *)

(** The statements of a text, in order, as [execute_sql] hands them on. *)
Fixpoint statements_from (fuel : nat) (start : cstr) : list cstr :=
  match fuel with
  | O => []
  | S fuel =>
      let start := skip_space start in
      if empty start then []
      else if at_comment start then statements_from fuel (skip_line start)
      else
        let '(stmt, rest) := statement_end false start in
        if empty stmt then statements_from fuel (drop 1 rest)
        else (stmt ++ [semicolon]) :: statements_from fuel (drop 1 rest)
  end.

Definition statements (sql : cstr) : list cstr := statements_from (S (length sql)) sql.

(** ** Scanning *)

Lemma skip_space_length s : (length (skip_space s) ≤ length s)%nat.
Proof. induction s as [|c s IH]; simpl; [lia|]. case_match; simpl; lia. Qed.

Lemma skip_line_length s : (length (skip_line s) ≤ length s)%nat.
Proof. induction s as [|c s IH]; simpl; [lia|]. case_match; simpl; lia. Qed.

Lemma comment_length s : at_comment s = true → (length (skip_line s) < length s)%nat.
Proof.
  destruct s as [|c [|d s]]; simpl; [done..|].
  intros [->%bool_decide_eq_true ->%bool_decide_eq_true]%andb_true_iff.
  simpl. pose proof (skip_line_length s). lia.
Qed.

Lemma statement_end_app b s : fst (statement_end b s) ++ snd (statement_end b s) = s.
Proof.
  revert b. induction s as [|c s IH]; intros b; simpl; [done|].
  case_bool_decide as Hq; [|case_match]; [|done|].
  - pose proof (IH (negb b)) as E. destruct (statement_end (negb b) s). simpl in *. by rewrite E.
  - pose proof (IH b) as E. destruct (statement_end b s). simpl in *. by rewrite E.
Qed.

Lemma statement_end_semicolon b s c r : snd (statement_end b s) = c :: r → c = semicolon.
Proof.
  revert b. induction s as [|d s IH]; intros b; simpl; [done|].
  case_bool_decide as Hq; [|case_match eqn:Hc].
  - pose proof (IH (negb b)) as E. destruct (statement_end (negb b) s). exact E.
  - simpl. intros [= <- _]. apply andb_true_iff in Hc as [?%bool_decide_eq_true _]. done.
  - pose proof (IH b) as E. destruct (statement_end b s). exact E.
Qed.

(** The two scanners agree. *)
Lemma skip_statement_spec b s : skip_statement b s = drop 1 (snd (statement_end b s)).
Proof.
  revert b. induction s as [|c s IH]; intros b; simpl; [done|].
  case_bool_decide as Hq; [|case_match].
  - rewrite IH. by destruct (statement_end (negb b) s).
  - done.
  - rewrite IH. by destruct (statement_end b s).
Qed.

Lemma statement_rest_length s c r :
  s = c :: r → (length (drop 1 (snd (statement_end false s))) < length s)%nat.
Proof.
  intros ->. pose proof (statement_end_app false (c :: r)) as E.
  apply (f_equal length) in E. rewrite length_app in E. rewrite length_drop. simpl in *. lia.
Qed.

(** Enough fuel is enough. *)
Lemma validate_from_enough n m p :
  (length p < n)%nat → (n ≤ m)%nat → validate_from n p = validate_from m p.
Proof.
  revert m p. induction n as [|n IH]; intros [|m] p Hn Hm; [lia..|]. cbn [validate_from].
  pose proof (skip_space_length p) as Hl. destruct (skip_space p) as [|c r] eqn:Es; [done|].
  cbn [empty]. destruct (at_comment (c :: r)) eqn:Ec.
  - pose proof (comment_length _ Ec). apply IH; lia.
  - destruct (allowed_start (c :: r)); cbn [negb]; [|done].
    pose proof (statement_rest_length (c :: r) c r eq_refl) as Hr.
    rewrite skip_statement_spec. apply IH; lia.
Qed.

Lemma statements_from_enough n m p :
  (length p < n)%nat → (n ≤ m)%nat → statements_from n p = statements_from m p.
Proof.
  revert m p. induction n as [|n IH]; intros [|m] p Hn Hm; [lia..|]. cbn [statements_from].
  pose proof (skip_space_length p) as Hl. destruct (skip_space p) as [|c r] eqn:Es; [done|].
  cbn [empty]. destruct (at_comment (c :: r)) eqn:Ec.
  - pose proof (comment_length _ Ec). apply IH; lia.
  - pose proof (statement_rest_length (c :: r) c r eq_refl) as Hr.
    destruct (statement_end false (c :: r)) as [a b]. cbn [snd] in Hr.
    destruct (empty a); [|f_equal]; apply IH; lia.
Qed.

(** ** Keywords *)

Lemma strncaseeq_spec n s t :
  length t = n → strncaseeq n s t = true → (n ≤ length s)%nat ∧ map tolower (take n s) = map tolower t.
Proof.
  intros Hn H. unfold strncaseeq, strcaseeq in H. apply streq_true in H.
  rewrite (take_ge t) in H by lia. split; [|exact H].
  apply (f_equal length) in H. rewrite !length_fmap, length_take in H. lia.
Qed.

(** No keyword has a semicolon or a space in front. *)
Definition plain_keyword (kw : cstr) : bool :=
  match kw with
  | [] => false
  | c :: _ => negb (isspace c) && negb (isspace (tolower c)) && bool_decide (semicolon ∉ map tolower kw)
  end.

Lemma plain_keywords : forallb plain_keyword allowed = true.
Proof. vm_compute. reflexivity. Qed.

Lemma isspace_tolower c : isspace c = isspace (tolower c).
Proof.
  revert c. assert (forallb (λ n, eqb (isspace (Z_byte (Z.of_nat n))) (isspace (tolower (Z_byte (Z.of_nat n))))) (seq 0 256) = true) as E
    by (vm_compute; reflexivity).
  intros c. apply eqb_prop. exact (byte_forall (λ c, eqb (isspace c) (isspace (tolower c))) E c).
Qed.

Lemma allowed_start_spec p :
  allowed_start p = true ↔
  ∃ kw, kw ∈ allowed ∧ strncaseeq (length kw) p kw = true ∧ delimiter (p !! length kw) = true.
Proof.
  unfold allowed_start. rewrite existsb_exists. split.
  - intros (kw & Hin & [? ?]%andb_true_iff). exists kw. by rewrite list_elem_of_In.
  - intros (kw & Hin & H1 & H2). exists kw. rewrite <- list_elem_of_In, H1, H2. done.
Qed.

Lemma allowed_start_head p :
  allowed_start p = true → ∃ c r, p = c :: r ∧ isspace c = false ∧ c ≠ semicolon.
Proof.
  intros (kw & Hin & Hk & _)%allowed_start_spec.
  apply strncaseeq_spec in Hk as [Hl Hk]; [|done].
  pose proof (proj1 (forallb_forall _ _) plain_keywords kw (proj1 (list_elem_of_In _ _) Hin)) as Hp.
  destruct kw as [|k kw]; [done|]. destruct p as [|c r]; simpl in *; [lia|].
  injection Hk as Hc _. exists c, r. split; [done|].
  apply andb_true_iff in Hp as [[_ Hs]%andb_true_iff Hsc%bool_decide_eq_true].
  rewrite <- Hc in Hs. apply negb_true_iff in Hs. rewrite <- isspace_tolower in Hs.
  split; [done|]. intros ->. apply Hsc. rewrite <- Hc. left.
Qed.

(** A statement cut off at its semicolon still begins with its keyword. *)
Lemma allowed_start_cut p :
  allowed_start p = true → allowed_start (fst (statement_end false p) ++ [semicolon]) = true.
Proof.
  intros (kw & Hin & Hk & Hd)%allowed_start_spec. apply allowed_start_spec. exists kw.
  split; [done|].
  pose proof (strncaseeq_spec _ _ _ eq_refl Hk) as [Hl Hm].
  pose proof (proj1 (forallb_forall _ _) plain_keywords kw (proj1 (list_elem_of_In _ _) Hin)) as Hp.
  assert (semicolon ∉ map tolower kw) as Hsc.
  { destruct kw; [done|]. cbn [plain_keyword] in Hp. unbool. done. }
  pose proof (statement_end_app false p) as E. pose proof (statement_end_semicolon false p) as Hb.
  destruct (statement_end false p) as [a b]. cbn [fst snd] in *. subst p.
  assert (length kw ≤ length a)%nat as Hla.
  { destruct (decide (length kw ≤ length a)%nat) as [|Hn]; [done|exfalso].
    destruct b as [|c b]; [rewrite app_nil_r in Hl; lia|]. rewrite (Hb c b eq_refl) in Hm.
    apply Hsc. rewrite <- Hm. apply list_elem_of_In, in_map_iff. exists semicolon. split; [done|].
    apply list_elem_of_In, list_elem_of_lookup. exists (length a).
    rewrite lookup_take_lt, list_lookup_middle by lia. done. }
  split.
  - unfold strncaseeq in *. by rewrite take_app_le in * by lia.
  - destruct (decide (length kw = length a)) as [->|].
    + by rewrite list_lookup_middle.
    + rewrite lookup_app_l in * by lia. done.
Qed.

(** What the validator accepts, it has seen as the executor will cut it. *)
Lemma validated_statements_from n p :
  validate_from n p = true → Forall (λ s, allowed_start s = true) (statements_from n p).
Proof.
  revert p. induction n as [|n IH]; intros p; cbn [validate_from statements_from]; [done|].
  destruct (empty (skip_space p)); [by constructor|].
  destruct (at_comment (skip_space p)); [apply IH|].
  destruct (allowed_start (skip_space p)) eqn:Ha; cbn [negb]; [|done].
  rewrite skip_statement_spec. intros Hv%IH. apply allowed_start_cut in Ha.
  destruct (statement_end false (skip_space p)) as [a b]. cbn [fst snd] in *.
  destruct (empty a); [done|]. by constructor.
Qed.

(** Two strings that a text begins with agree as far as they go. *)
Definition compatible (t u : cstr) : bool :=
  let n := (length t `min` length u)%nat in streq (map tolower (take n t)) (map tolower (take n u)).

Lemma strncaseeq_compatible s t u :
  strncaseeq (length t) s t = true → strncaseeq (length u) s u = true → compatible t u = true.
Proof.
  intros [_ Ht]%strncaseeq_spec [_ Hu]%strncaseeq_spec; [|done..]. apply streq_true.
  rewrite <- !firstn_map, <- Ht, <- Hu, !firstn_map, !take_take. do 2 f_equal. lia.
Qed.

Definition transaction_words : list cstr := [lit "BEGIN"; lit "COMMIT"; lit "ROLLBACK"].

Lemma allowed_not_transaction :
  forallb (λ w, forallb (λ kw, negb (compatible w kw)) allowed) transaction_words = true.
Proof. vm_compute. reflexivity. Qed.

Lemma allowed_start_not_transaction p :
  allowed_start p = true → forallb (λ w, negb (strncaseeq (length w) p w)) transaction_words = true.
Proof.
  intros (kw & Hin & Hk & _)%allowed_start_spec. apply forallb_forall. intros w Hw.
  pose proof (proj1 (forallb_forall _ _) allowed_not_transaction w Hw) as H.
  pose proof (proj1 (forallb_forall _ _) H kw (proj1 (list_elem_of_In _ _) Hin)) as Hc. cbn beta in Hc.
  destruct (strncaseeq (length w) p w) eqn:E; [|done].
  by rewrite (strncaseeq_compatible _ _ _ E Hk) in Hc.
Qed.

(** The first branch of [execute_sql] is not for validated text. *)
Lemma validated_not_transaction sql :
  validate_migration_sql sql = true →
  strncaseeq 5 sql (lit "BEGIN") || strncaseeq 6 sql (lit "COMMIT") || strncaseeq 8 sql (lit "ROLLBACK") = false.
Proof.
  unfold validate_migration_sql. cbn [validate_from]. intros Hv.
  assert (∀ w, In w transaction_words → strncaseeq (length w) sql w = true → False) as Hn.
  { intros w Hw Hs. pose proof (strncaseeq_spec _ _ _ eq_refl Hs) as [Hl Hm].
    assert (∃ c r, sql = c :: r ∧ isspace c = false ∧ c ≠ dash) as (c & r & -> & Hsp & Hd).
    { destruct sql as [|c r]; [destruct Hw as [<-|[<-|[<-|[]]]]; vm_compute in Hl; lia|].
      exists c, r. split; [done|]. rewrite isspace_tolower.
      assert (tolower c ≠ dash → c ≠ dash) as Hd by (intros ? ->; done).
      destruct Hw as [<-|[<-|[<-|[]]]]; injection Hm as Hc _; (split; [rewrite Hc|apply Hd; rewrite Hc]); done. }
    rewrite skip_space_id in Hv by done. cbn [empty] in Hv.
    replace (at_comment (c :: r)) with false in Hv.
    2:{ destruct r; [done|]. simpl. by rewrite bool_decide_eq_false_2. }
    destruct (allowed_start (c :: r)) eqn:Ha; [|done].
    pose proof (proj1 (forallb_forall _ _) (allowed_start_not_transaction _ Ha) w Hw) as H.
    cbn beta in H. by rewrite Hs in H. }
  apply not_true_is_false. intros [[H|H]%orb_true_iff|H]%orb_true_iff.
  - apply (Hn (lit "BEGIN")); [by left|exact H].
  - apply (Hn (lit "COMMIT")); [by right; left|exact H].
  - apply (Hn (lit "ROLLBACK")); [by right; right; left|exact H].
Qed.

(** ** Execution *)

Section ExecutionLemmas.
Context `{Sqlite3} `{Memory}.

(** The execution of statements, one after the other, up to the first that fails. *)
Fixpoint execute_all (ss : list cstr) (db : sqlite3) : sqlite3 * Z :=
  match ss with
  | [] => (db, 0)
  | s :: ss =>
      let '(db, result) := execute_single_statement db s in
      if result <? 0 then (db, -1) else execute_all ss db
  end.

Lemma execute_from_all n start size db :
  (∀ k, allocates k = true) → (length start < n)%nat →
  execute_from n start size db = execute_all (statements_from n start) db.
Proof.
  intros Ha. revert start size db. induction n as [|n IH]; intros start size db Hn; [lia|].
  cbn [execute_from statements_from].
  pose proof (skip_space_length start) as Hl. destruct (skip_space start) as [|c r] eqn:Es; [done|].
  cbn [empty]. destruct (at_comment (c :: r)) eqn:Ec.
  - pose proof (comment_length _ Ec). apply IH; lia.
  - pose proof (statement_rest_length (c :: r) c r eq_refl) as Hr.
    destruct (statement_end false (c :: r)) as [a b]. cbn [snd] in Hr.
    destruct (empty a); [apply IH; lia|]. rewrite Ha, andb_false_r. cbn [execute_all].
    destruct (execute_single_statement db (a ++ [semicolon])) as [db' res].
    destruct (res <? 0); [done|]. apply IH; lia.
Qed.

(** What holds of the connection when statements of the list are executed. *)
Lemma execute_from_keeps (I : sqlite3 → Prop) n start size db :
  Forall (λ s, ∀ db, I db → I (fst (execute_single_statement db s))) (statements_from n start) →
  I db → I (fst (execute_from n start size db)).
Proof.
  revert start size db. induction n as [|n IH]; intros start size db; cbn [execute_from statements_from]; [done|].
  destruct (empty (skip_space start)); [done|]. destruct (at_comment (skip_space start)); [apply IH|].
  destruct (statement_end false (skip_space start)) as [a b].
  destruct (empty a); [apply IH|]. intros [Hs Hss]%Forall_cons Hi. case_match; [done|].
  pose proof (Hs db Hi) as Hi'. destruct (execute_single_statement db (a ++ [semicolon])) as [db' res].
  destruct (res <? 0); [done|]. by apply IH.
Qed.

Lemma execute_single_keeps (I : sqlite3 → Prop) s db :
  allowed_start s = true → (∀ db, I db → I (fst (sqlite3_exec s db))) →
  I db → I (fst (execute_single_statement db s)).
Proof.
  intros (c & r & -> & Hc & _)%allowed_start_head Hs Hi. unfold execute_single_statement.
  rewrite skip_space_id by done. cbn [empty]. case_match; [done|].
  pose proof (Hs db Hi) as Hi'. destruct (sqlite3_exec (c :: r) db) as [db' []]; done.
Qed.


End ExecutionLemmas.

(** ** The order of versions *)

Lemma strcmp_le s t : (strcmp s t <=? 0) = lex_le (byte_Z <$> s) (byte_Z <$> t).
Proof.
  revert t. induction s as [|c s IH]; intros [|d t]; simpl; [done..|].
  case_bool_decide as Hc.
  - subst d. rewrite IH, Z.ltb_irrefl, Z.eqb_refl. done.
  - assert (byte_Z c ≠ byte_Z d) as Hn by (intros E%byte_Z_inj; done).
    replace (byte_Z c =? byte_Z d) with false by lia. rewrite orb_false_r. lia.
Qed.

Lemma strcmp_eq s t : strcmp s t = 0 ↔ s = t.
Proof.
  split; [|intros <-; induction s as [|c s IH]; simpl; [done|by rewrite bool_decide_eq_true_2]].
  revert t. induction s as [|c s IH]; intros [|d t]; simpl; [done..|].
  case_bool_decide as Hc; [intros ?%IH; by subst|].
  intros H. assert (byte_Z c = byte_Z d) as E%byte_Z_inj by lia. done.
Qed.

(** The number that a string of digits denotes. *)
Definition number (s : cstr) : Z := fst (digits 0 s).

Lemma isdigit_spec c : isdigit c = true → digit c = Some (byte_Z c - 48) ∧ 48 ≤ byte_Z c ≤ 57.
Proof.
  unfold isdigit, digit. destruct (_ && _) eqn:E; [|by rewrite bool_decide_eq_true, is_Some_alt].
  intros _. split; [done|lia].
Qed.

Lemma digits_all_digits acc s :
  forallb isdigit s = true → ∃ v, 0 ≤ v < 10 ^ Z.of_nat (length s) ∧ digits acc s = (acc * 10 ^ Z.of_nat (length s) + v, []).
Proof.
  revert acc. induction s as [|c s IH]; intros acc Hd; cbn [digits length].
  - exists 0. split; [done|]. f_equal. lia.
  - cbn [forallb] in Hd. apply andb_true_iff in Hd as [[Hc Hr]%isdigit_spec Hs]. rewrite Hc.
    destruct (IH (acc * 10 + (byte_Z c - 48)) Hs) as (v & Hv & ->).
    exists ((byte_Z c - 48) * 10 ^ Z.of_nat (length s) + v).
    rewrite Nat2Z.inj_succ, Z.pow_succ_r by lia. split; [nia|]. f_equal. lia.
Qed.

(** Among versions of the same length, the order of [strcmp] is that of the numbers. *)
Lemma strcmp_numbers s t :
  forallb isdigit s = true → forallb isdigit t = true → length s = length t →
  (strcmp s t <= 0 ↔ number s <= number t).
Proof.
  unfold number. assert (∀ a b, 
    forallb isdigit s = true → forallb isdigit t = true → length s = length t → a = b →
    (strcmp s t <= 0 ↔ fst (digits a s) <= fst (digits b t))) as H; [|intros; by apply H].
  revert t. induction s as [|c s IH]; intros [|d t] a b Hs Ht Hl <-; [done..|].
  cbn [forallb] in *. apply andb_true_iff in Hs as [[Hc Hrc]%isdigit_spec Hs].
  apply andb_true_iff in Ht as [[Hd Hrd]%isdigit_spec Ht]. injection Hl as Hl.
  cbn [strcmp digits]. rewrite Hc, Hd. case_bool_decide as Hcd.
  - subst d. by apply IH.
  - assert (byte_Z c ≠ byte_Z d) as Hn by (intros E%byte_Z_inj; done).
    destruct (digits_all_digits (a * 10 + (byte_Z c - 48)) s Hs) as (v & Hv & ->).
    destruct (digits_all_digits (a * 10 + (byte_Z d - 48)) t Ht) as (w & Hw & ->).
    cbn [fst]. rewrite <- Hl in *. set (P := 10 ^ Z.of_nat (length s)) in *. nia.
Qed.

(** ** Names *)

Lemma digits_no_underscore s : forallb isdigit s = true → underscore ∉ s.
Proof.
  intros Hs Hin. rewrite forallb_forall in Hs. apply list_elem_of_In in Hin.
  by specialize (Hs _ Hin).
Qed.

(** the name of a file reads back as the version and the description it was made of,
    with spaces for the underscores. *)
Theorem migration_name_roundtrip (version description : cstr)
  (Hversion : forallb isdigit version = true ∧ (0 < length version < MIGRATE_VERSION_LEN)%nat)
  (Hdescription : (0 < length description < MIGRATE_DESC_LEN)%nat) :
  parse_migration_filename (version ++ underscore :: description ++ lit ".sql")
  = Some (version, map (λ c, if bool_decide (c = underscore) then space else c) description).
Proof.
  destruct Hversion as [Hd [Hv Hvl]]. unfold parse_migration_filename.
  set (name := version ++ underscore :: description ++ lit ".sql").
  assert (length name = length version + 1 + length description + 4)%nat as Hl.
  { unfold name. rewrite length_app. simpl. rewrite length_app. change (length (lit ".sql")) with 4%nat. lia. }
  rewrite (proj2 (Nat.ltb_ge _ _)) by (rewrite Hl; lia).
  assert (sql_suffix name = true) as ->.
  { apply streq_true. replace (length name - 4)%nat with (length (version ++ underscore :: description)).
    - unfold name. rewrite (app_assoc version (underscore :: description) (lit ".sql") : version ++ underscore :: description ++ lit ".sql" = _).
      by rewrite drop_app_length.
    - rewrite length_app. simpl. lia. }
  cbn [negb orb]. unfold name. rewrite split_first_app by by apply digits_no_underscore.
  destruct version as [|c version]; [simpl in Hv; lia|].
  rewrite (proj2 (Nat.leb_gt _ _) Hvl).
  rewrite Hd. cbn [negb]. rewrite length_app. change (length (lit ".sql")) with 4%nat.
  replace (length description + 4 - 4)%nat with (length description) by lia.
  rewrite (proj2 (Nat.ltb_lt 0 _)) by lia.
  rewrite take_app_length, strcpy_trunc_id by lia. done.
Qed.

(** ** Sections *)

Lemma strstr_prefix_none p q s : strstr p s = None → strstr (p ++ q) s = None.
Proof.
  induction s as [|c s IH]; cbn [strstr].
  - destruct p; [done|]. by destruct q.
  - destruct (starts_with p (c :: s)) eqn:E; [done|].
    destruct (starts_with (p ++ q) (c :: s)) eqn:E'.
    { apply starts_with_spec in E' as [r Hr]. rewrite <- app_assoc in Hr.
      assert (starts_with p (c :: s) = true) as Hp by (apply starts_with_spec; eauto). congruence. }
    destruct (strstr p s) as [[a b]|]; [done|]. by rewrite IH.
Qed.

(** A string without the character [c] is not found across an occurrence of [c]. *)
Lemma strstr_app_sep c p a b :
  c ∉ p → strstr p a = None →
  strstr p (a ++ c :: b) = ('(x, y) ← strstr p b; Some (a ++ c :: x, y)).
Proof.
  intros Hc. assert (∀ a, strstr p a = None → starts_with p (a ++ c :: b) = false) as Hs.
  { intros a' Ha. apply not_true_is_false. intros [r Hr]%starts_with_spec.
    assert (starts_with p a' = false) as Hp.
    { destruct a'; cbn [strstr] in Ha; by destruct (starts_with p _). }
    destruct (decide (length p ≤ length a')%nat) as [Hl|Hl].
    - apply not_true_iff_false in Hp. apply Hp, starts_with_spec. exists (drop (length p) a').
      rewrite <- (take_drop (length p) a') at 1. f_equal.
      apply (f_equal (take (length p))) in Hr. by rewrite take_app_le, take_app_length in Hr by lia.
    - apply Hc. apply list_elem_of_lookup. exists (length a').
      apply (f_equal (.!! length a')) in Hr. rewrite list_lookup_middle in Hr by done.
      by rewrite lookup_app_l in Hr by lia. }
  induction a as [|x a IH]; intros Ha.
  - cbn [app]. pose proof (Hs [] Ha) as H. cbn [app] in H. cbn [strstr]. by rewrite H.
  - pose proof (Hs _ Ha) as H. cbn [app] in *. cbn [strstr] in Ha |- *. rewrite H.
    destruct (starts_with p (x :: a)); [done|]. destruct (strstr p a) as [[? ?]|]; [done|].
    rewrite IH by done. by destruct (strstr p b) as [[? ?]|].
Qed.

Lemma strstr_here p s : strstr p (p ++ s) = Some ([], p ++ s).
Proof. destruct (p ++ s) as [|c r] eqn:E; cbn [strstr]; by rewrite <- E, starts_with_app. Qed.

(** The part of [start] that a section keeps. *)
Lemma section_cut start e s :
  take e start = s → (0 < e ≤ length start)%nat → no_nul s → graphic s = true →
  ('e ← rtrim_pos (start ++ [NUL]) (Z.of_nat e); Some (take (Z.to_nat e) start)) = Some (rtrim s).
Proof.
  intros Hs He Hn Hg. rewrite (rtrim_pos_spec _ _ s).
  - rewrite Hg. cbn. f_equal. rewrite Nat2Z.id.
    transitivity (take (length (rtrim s)) s); [|by rewrite <- rtrim_take].
    assert (length (rtrim s) ≤ e)%nat as H.
    { pose proof (rtrim_length s) as H. apply (f_equal length) in Hs. rewrite length_take in Hs. lia. }
    revert H. generalize (length (rtrim s)). intros k Hk. subst s. rewrite take_take. f_equal. lia.
  - split; [done|]. right. split; [lia|]. exists (drop e start ++ [NUL]). split.
    + by rewrite app_assoc, <- Hs, take_drop.
    + left. rewrite <- Hs, length_take. lia.
Qed.

Definition up_marker : cstr := lit "-- migrate:up".
Definition down_marker : cstr := lit "-- migrate:down".
Definition marker : cstr := lit "-- migrate:".

(** A file in the format that [sqlite_migrate.h] describes. *)
Definition migration_file (up down : cstr) : cstr :=
  up_marker ++ newline :: up ++ newline :: down_marker ++ newline :: down.

Lemma no_newline_marker : newline ∉ marker ∧ newline ∉ down_marker ∧ newline ∉ up_marker.
Proof. by apply (bool_decide_unpack _). Qed.

(** the two sections of a file in the documented format read back, but for what is
    not graphic at their ends. *)
Theorem sections_roundtrip (up down : cstr)
  (Hup : graphic up = true ∧ no_nul up ∧ strstr marker up = None)
  (Hdown : graphic down = true ∧ no_nul down ∧ strstr marker down = None) :
  extract_sql_section (migration_file up down) (lit "up") = Some (rtrim up) ∧
  extract_sql_section (migration_file up down) (lit "down") = Some (rtrim down).
Proof.
  destruct Hup as (Hgu & Hnu & Hmu), Hdown as (Hgd & Hnd & Hmd).
  destruct no_newline_marker as (Hn & Hnd' & Hnu'). unfold extract_sql_section. split.
  - change (strcpy_trunc 64 (lit "-- migrate:" ++ lit "up")) with up_marker.
    unfold migration_file. rewrite strstr_here. cbn [mbind option_bind].
    rewrite split_first_app by done. cbn [mbind option_bind].
    change (lit "-- migrate:") with marker. rewrite strstr_app_sep by done.
    change down_marker with (marker ++ lit "down"). rewrite <- app_assoc, strstr_here. cbn [mbind option_bind].
    rewrite (section_cut _ _ (up ++ [newline])).
    + by rewrite rtrim_snoc.
    + rewrite length_app. simpl. rewrite (app_assoc up [newline] _ : up ++ newline :: _ = _).
      by rewrite take_app_length' by (rewrite length_app; simpl; lia).
    + rewrite !length_app. simpl. lia.
    + unfold no_nul in *. rewrite elem_of_app, list_elem_of_singleton. by intros [?|?].
    + unfold graphic in *. by rewrite existsb_app, Hgu.
  - change (strcpy_trunc 64 (lit "-- migrate:" ++ lit "down")) with down_marker.
    unfold migration_file. rewrite strstr_app_sep by done.
    rewrite strstr_app_sep; [|done|]; [|by apply (strstr_prefix_none marker (lit "down"))].
    rewrite strstr_here. cbn [mbind option_bind].
    rewrite split_first_app by done. cbn [mbind option_bind].
    change (lit "-- migrate:") with marker. rewrite Hmd.
    apply section_cut; [by rewrite take_ge| |done..].
    destruct down; [done|]. simpl. lia.
Qed.

(** ** Examples *)

(** A connection that remembers what it is given. *)
#[local] Instance recorder : Sqlite3 := {|
  sqlite3 := list cstr;
  sqlite3_exec := λ s log, (log ++ [s], SQLITE_OK);
  sqlite3_step := λ _ _ log, (log, SQLITE_DONE);
  sqlite3_prepare := λ _ _, true;
  column_texts := λ _ _ _, [];
  column_int := λ _ _, None
|}.

#[local] Instance plenty : Memory := {| allocates := λ _, true |}.

Definition example_sql : cstr :=
  lit "-- two tables" ++ [newline] ++ lit "create table a(x); INSERT INTO a VALUES ('x;y');".

Example example_executed :
  execute_validated_migration_sql [] example_sql
  = ([lit "create table a(x);"; lit "INSERT INTO a VALUES ('x;y');"], 0).
Proof. vm_compute. reflexivity. Qed.

Definition all_allowed (log : list cstr) : Prop := forallb allowed_start log = true.


Lemma migration_name_roundtrip_witness :
  parse_migration_filename (lit "0042_add_users.sql") = Some (lit "0042", lit "add users").
Proof.
  apply (migration_name_roundtrip (lit "0042") (lit "add_users")).
  - split; [reflexivity|]. vm_compute. lia.
  - vm_compute. lia.
Defined.

Lemma sections_roundtrip_witness :
  extract_sql_section (migration_file (lit "CREATE TABLE a(x);") (lit "DROP TABLE a;")) (lit "up")
    = Some (rtrim (lit "CREATE TABLE a(x);")) ∧
  extract_sql_section (migration_file (lit "CREATE TABLE a(x);") (lit "DROP TABLE a;")) (lit "down")
    = Some (rtrim (lit "DROP TABLE a;")).
Proof.
  apply (sections_roundtrip (lit "CREATE TABLE a(x);") (lit "DROP TABLE a;")).
  - split; [reflexivity|]. split; [apply (bool_decide_unpack _); vm_compute; exact I|]. vm_compute. reflexivity.
  - split; [reflexivity|]. split; [apply (bool_decide_unpack _); vm_compute; exact I|]. vm_compute. reflexivity.
Defined.

(** With nothing at all between the markers, the text of the other section is
    taken for this one, and the migration runs it. *)
Example empty_section_runs_the_other :
  let file := up_marker ++ newline :: down_marker ++ newline :: lit "DROP TABLE streams;" in
  option_map (execute_validated_migration_sql []) (extract_sql_section file (lit "up"))
  = Some ([lit "DROP TABLE streams;"], 0).
Proof. vm_compute. reflexivity. Qed.

(** The scanners know single quotes only: a quote in an identifier hides what is
    behind it, and the text goes to SQLite in one piece. *)
Example hidden_statement_runs :
  let hidden := lit "SELECT " ++ [Byte.x22; quote; Byte.x22] ++ lit "; ATTACH DATABASE other AS o" in
  execute_validated_migration_sql [] hidden = ([hidden ++ [semicolon]], 0).
Proof. vm_compute. reflexivity. Qed.

(** Triggers are on the list, and their bodies are split. *)
Example trigger_rejected :
  execute_validated_migration_sql [] (lit "CREATE TRIGGER t AFTER INSERT ON a BEGIN DELETE FROM b; END;") = ([], -1).
Proof. vm_compute. reflexivity. Qed.

Example nameless_migration :
  parse_migration_filename (lit "123_.sql") = Some (lit "123", lit ".sql").
Proof. vm_compute. reflexivity. Qed.

(** Versions of different lengths are not in the order of their numbers. *)
Example tenth_before_ninth : strcmp (lit "10") (lit "9") < 0.
Proof. vm_compute. reflexivity. Qed.
