(* ===== verification/Migrations.v ===== *)
(** * Database migrations

    [src/database/sqlite_migrate.c] from the scan of the directory on, and
    [src/database/db_migrations.c]: the migrations of a directory and of the program,
    applied in the order of their versions, each in a transaction; roll back;
    the import of the version that older programs stored.

    The connection and its functions are the class [Sqlite3] of [MigrationSql]; the
    class [Transactions] says what the code relies on: transactions, and the table of
    the versions.  Files are the class [MigrationFiles]. *)
From Stdlib Require Import ZArith Lia Bool.
From Stdlib Require Import Strings.Byte.
From stdpp Require Import base numbers list strings sorting pretty.
From S2P Require Import Prelude.
From S2P Require Import Libc.
From S2P Require Import Sql.
From S2P Require Import CStrings.
From S2P Require Import MigrationSql.
#[local] Open Scope Z_scope.

(** ** Data *)

Inductive migrate_status_t :=
  | MIGRATE_STATUS_PENDING
  | MIGRATE_STATUS_APPLIED
  | MIGRATE_STATUS_FAILED.

#[global] Instance migrate_status_eq_dec : EqDecision migrate_status_t.
Proof. solve_decision. Defined.

Record migration_t := mkMigration {
  version : cstr;
  description : cstr;
  filepath : cstr;
  sql_up : option cstr;
  sql_down : option cstr;
  status : migrate_status_t;
  is_embedded : bool
}.

Definition set_status (st : migrate_status_t) (m : migration_t) : migration_t :=
  mkMigration m.(version) m.(description) m.(filepath) m.(sql_up) m.(sql_down) st m.(is_embedded).

(** [callback] says whether there is one: what it is called with is [reported]. *)
Record migrate_config_t := mkConfig {
  migrations_dir : option cstr;
  migrations_table : option cstr;
  embedded_migrations : list migration_t;
  callback : bool;
  dry_run : bool
}.

Abbreviation report := (cstr * cstr * migrate_status_t)%type.

Record migrate_stats_t := mkStats {
  total : Z;
  applied : Z;
  pending : Z;
  failed : Z
}.

Definition DEFAULT_MIGRATIONS_TABLE : cstr := lit "schema_migrations".
Definition slash : byte := Byte.x2f.

Definition sizeof_migration_t : Z := 824.
Definition sizeof_sqlite_migrate_t : Z := 80.

(** ** Files *)

Inductive d_type := DT_REG | DT_UNKNOWN | DT_other.

#[global] Instance d_type_eq_dec : EqDecision d_type.
Proof. solve_decision. Defined.

Record file_mode := { S_ISREG : bool; S_IWOTH : bool }.

(** [opendir]: the entries as [readdir] gives them before and after [rewinddir]. *)
Class MigrationFiles := {
  opendir : cstr → option (list (d_type * cstr) * list (d_type * cstr));
  lstat : cstr → option file_mode;
  realpath : cstr → option cstr;
  file_content : cstr → option cstr
}.

(** [qsort]. *)
Class Qsort := { qsort : ∀ {A}, (A → A → Z) → list A → list A }.

Class QsortLaws `{Qsort} := {
  qsort_perm {A} (compar : A → A → Z) l : qsort compar l ≡ₚ l;
  qsort_sorted {A} (compar : A → A → Z) l :
    (∀ x y, compar x y ≤ 0 ∨ compar y x ≤ 0) →
    (∀ x y z, compar x y ≤ 0 → compar y z ≤ 0 → compar x z ≤ 0) →
    StronglySorted (λ x y, compar x y ≤ 0) (qsort compar l)
}.

Definition compare_migrations (ma mb : migration_t) : Z := strcmp ma.(version) mb.(version).

(** ** The functions of [sqlite_migrate.c] *)

Section Context_.
Context `{Sqlite3} `{Memory} `{MigrationFiles} `{Qsort}.

Definition table_name (config : migrate_config_t) : cstr :=
  default DEFAULT_MIGRATIONS_TABLE config.(migrations_table).

Definition create_sql (table : cstr) : cstr :=
  strcpy_trunc 512 (lit "CREATE TABLE IF NOT EXISTS " ++ table ++ lit " (  version TEXT PRIMARY KEY,  applied_at INTEGER NOT NULL DEFAULT (strftime('%s', 'now')));").

Definition create_migrations_table (config : migrate_config_t) (db : sqlite3) : sqlite3 * Z :=
  match sqlite3_exec (create_sql (table_name config)) db with
  | (db, SQLITE_OK) => (db, 0)
  | (db, exec_failed _) => (db, -1)
  end.

Definition select_sql (table : cstr) : cstr :=
  strcpy_trunc 256 (lit "SELECT 1 FROM " ++ table ++ lit " WHERE version = ?;").
Definition insert_sql (table : cstr) : cstr :=
  strcpy_trunc 256 (lit "INSERT INTO " ++ table ++ lit " (version) VALUES (?);").
Definition delete_sql (table : cstr) : cstr :=
  strcpy_trunc 256 (lit "DELETE FROM " ++ table ++ lit " WHERE version = ?;").

(** A query leaves the connection as it is. *)
Definition is_migration_applied (config : migrate_config_t) (db : sqlite3) (version : cstr) : bool :=
  bool_decide (snd (sqlite3_step (select_sql (table_name config)) [version] db) = SQLITE_ROW).

Definition record_migration_applied (config : migrate_config_t) (db : sqlite3) (version : cstr) : sqlite3 * Z :=
  let '(db, r) := sqlite3_step (insert_sql (table_name config)) [version] db in
  (db, if bool_decide (r = SQLITE_DONE) then 0 else -1).

Definition remove_migration_record (config : migrate_config_t) (db : sqlite3) (version : cstr) : sqlite3 * Z :=
  let '(db, r) := sqlite3_step (delete_sql (table_name config)) [version] db in
  (db, if bool_decide (r = SQLITE_DONE) then 0 else -1).

Definition validate_migration_file_security (filepath : cstr) : bool :=
  match lstat filepath with
  | None => false
  | Some st => st.(S_ISREG) && negb st.(S_IWOTH)
  end.

Definition read_sql_file (filepath : cstr) : option cstr :=
  content ← file_content filepath;
  let size := Z.of_nat (length content) in
  if (size <=? 0) || (size >? MIGRATE_SQL_MAX_LEN) then None else
  if negb (allocates (size + 1)) then None else Some (until NUL content).

(** The first loop over the directory. *)
Definition count_sql_files (entries : list (d_type * cstr)) : nat :=
  length (List.filter (λ e, (bool_decide (e.1 = DT_REG) || bool_decide (e.1 = DT_UNKNOWN))
                            && (4 <? length e.2)%nat && sql_suffix e.2) entries).

(** The second one, with room for [count] entries. *)
Fixpoint scan_entries (config : migrate_config_t) (db : sqlite3) (dir : cstr) (count : nat)
    (entries : list (d_type * cstr)) : list migration_t :=
  match entries, count with
  | (ty, name) :: entries, S count' =>
      if negb (bool_decide (ty = DT_REG)) && negb (bool_decide (ty = DT_UNKNOWN))
      then scan_entries config db dir count entries else
      match parse_migration_filename name with
      | None => scan_entries config db dir count entries
      | Some (version, description) =>
          mkMigration version description (strcpy_trunc MIGRATE_PATH_LEN (dir ++ slash :: name)) None None
            (if is_migration_applied config db version then MIGRATE_STATUS_APPLIED else MIGRATE_STATUS_PENDING)
            false
          :: scan_entries config db dir count' entries
      end
  | _, _ => []
  end.

(** The migrations found; [None] is the result -1. *)
Definition scan_migrations_dir (config : migrate_config_t) (db : sqlite3) : option (list migration_t) :=
  match config.(migrations_dir) with
  | None => Some []
  | Some dir =>
      match opendir dir with
      | None => Some []
      | Some (first_pass, second_pass) =>
          let count := count_sql_files first_pass in
          if (count =? 0)%nat then Some [] else
          if negb (allocates (Z.of_nat count * sizeof_migration_t)) then None else
          Some (qsort compare_migrations (scan_entries config db dir count second_pass))
      end
  end.

Definition already_exists (migrations : list migration_t) (src : migration_t) : bool :=
  existsb (λ m, streq m.(version) src.(version)) migrations.

Definition embed (config : migrate_config_t) (db : sqlite3) (src : migration_t) : migration_t :=
  mkMigration src.(version) src.(description) src.(filepath) src.(sql_up) src.(sql_down)
    (if is_migration_applied config db src.(version) then MIGRATE_STATUS_APPLIED else MIGRATE_STATUS_PENDING)
    true.

(** [None] is the result -1. *)
Definition add_embedded_migrations (config : migrate_config_t) (db : sqlite3) (migrations : list migration_t)
    : option (list migration_t) :=
  let to_add := List.filter (λ src, negb (already_exists migrations src)) config.(embedded_migrations) in
  if (length to_add =? 0)%nat then Some migrations else
  if negb (allocates (Z.of_nat (length migrations + length to_add) * sizeof_migration_t)) then None else
  Some (qsort compare_migrations (migrations ++ map (embed config db) to_add)).

(** The test of [realpath (filepath)] against [realpath (dir)]. *)
Definition inside (resolved_dir resolved_file : cstr) : bool :=
  starts_with resolved_dir resolved_file
  && match resolved_file !! length resolved_dir with
     | None => true
     | Some c => bool_decide (c = slash)
     end.

Definition in_migrations_dir (config : migrate_config_t) (filepath : cstr) : bool :=
  match config.(migrations_dir) with
  | None => true
  | Some dir =>
      match realpath filepath, realpath dir with
      | Some resolved_file, Some resolved_dir => inside resolved_dir resolved_file
      | _, _ => false
      end
  end.

(** The statements of a migration that comes from a file; [None]: return -1. *)
Definition file_section (config : migrate_config_t) (filepath marker : cstr) : option cstr :=
  if negb (in_migrations_dir config filepath) then None else
  if negb (validate_migration_file_security filepath) then None else
  content ← read_sql_file filepath;
  sql ← extract_sql_section content marker;
  if allocates (Z.of_nat (length sql) + 1) then Some sql else None.

Definition section_of (config : migrate_config_t) (m : migration_t) (marker : cstr) (embedded : option cstr)
    : option (option cstr) :=
  if m.(is_embedded) then Some embedded else Some <$> file_section config m.(filepath) marker.

Definition apply_migration (config : migrate_config_t) (db : sqlite3) (m : migration_t)
    : sqlite3 * migration_t * Z :=
  match section_of config m (lit "up") m.(sql_up) with
  | None | Some None | Some (Some []) => (db, m, -1)
  | Some (Some sql_up) =>
      match execute_sql db (lit "BEGIN TRANSACTION;") with
      | (db, r) =>
          if negb (r =? 0) then (db, m, -1) else
          let '(db, result) := execute_validated_migration_sql db sql_up in
          if negb (result =? 0) then (fst (execute_sql db (lit "ROLLBACK;")), m, -1) else
          let '(db, result) := record_migration_applied config db m.(version) in
          if result =? 0
          then (fst (execute_sql db (lit "COMMIT;")), set_status MIGRATE_STATUS_APPLIED m, result)
          else (fst (execute_sql db (lit "ROLLBACK;")), set_status MIGRATE_STATUS_FAILED m, result)
      end
  end.

Definition rollback_migration (config : migrate_config_t) (db : sqlite3) (m : migration_t)
    : sqlite3 * migration_t * Z :=
  match section_of config m (lit "down") m.(sql_down) with
  | None => (db, m, -1)
  | Some None | Some (Some []) => (db, m, 0)
  | Some (Some sql_down) =>
      match execute_sql db (lit "BEGIN TRANSACTION;") with
      | (db, r) =>
          if negb (r =? 0) then (db, m, -1) else
          let '(db, result) := execute_validated_migration_sql db sql_down in
          if negb (result =? 0) then (fst (execute_sql db (lit "ROLLBACK;")), m, -1) else
          let '(db, result) := remove_migration_record config db m.(version) in
          if result =? 0
          then (fst (execute_sql db (lit "COMMIT;")), set_status MIGRATE_STATUS_PENDING m, result)
          else (fst (execute_sql db (lit "ROLLBACK;")), m, result)
      end
  end.

(** The context; the handle is passed along. *)
Record sqlite_migrate_t := mkContext {
  config : migrate_config_t;
  migrations : list migration_t
}.

Definition migrate_init (db : sqlite3) (config : migrate_config_t) : sqlite3 * option sqlite_migrate_t :=
  if negb (allocates sizeof_sqlite_migrate_t) then (db, None) else
  let '(db, r) := create_migrations_table config db in
  if negb (r =? 0) then (db, None) else
  (db, ms ← scan_migrations_dir config db;
       ms ← add_embedded_migrations config db ms;
       Some (mkContext config ms)).

(** The loop of [migrate_up], and what it leaves of the migrations it is given. *)
Fixpoint up_loop (config : migrate_config_t) (db : sqlite3) (ms : list migration_t) (stats : migrate_stats_t)
    : sqlite3 * list migration_t * migrate_stats_t * list report * Z :=
  match ms with
  | [] => (db, [], stats, [], 0)
  | m :: ms =>
      if bool_decide (m.(status) = MIGRATE_STATUS_APPLIED) then
        let stats := mkStats stats.(total) (stats.(applied) + 1) stats.(pending) stats.(failed) in
        let '(db, ms, stats, told, r) := up_loop config db ms stats in (db, m :: ms, stats, told, r)
      else
        let stats := mkStats stats.(total) stats.(applied) (stats.(pending) + 1) stats.(failed) in
        if config.(dry_run) then
          let '(db, ms, stats, told, r) := up_loop config db ms stats in (db, m :: ms, stats, told, r)
        else
          let '(db, m, result) := apply_migration config db m in
          let told := if config.(callback) then [(m.(version), m.(description), m.(status))] else [] in
          if negb (result =? 0) then
            (db, m :: ms, mkStats stats.(total) stats.(applied) stats.(pending) (stats.(failed) + 1), told, -1)
          else
            let stats := mkStats stats.(total) (stats.(applied) + 1) (stats.(pending) - 1) stats.(failed) in
            let '(db, ms, stats, told', r) := up_loop config db ms stats in
            (db, m :: ms, stats, told ++ told', r)
  end.

Definition migrate_up (db : sqlite3) (ctx : sqlite_migrate_t)
    : sqlite3 * sqlite_migrate_t * migrate_stats_t * list report * Z :=
  let '(db, ms, stats, told, r) :=
    up_loop ctx.(config) db ctx.(migrations) (mkStats (Z.of_nat (length ctx.(migrations))) 0 0 0) in
  (db, mkContext ctx.(config) ms, stats, told, r).

(** The loop of [migrate_down_n] over the migrations, the last one first;
    [rolled_back] is the result, or -1. *)
Fixpoint down_loop (config : migrate_config_t) (db : sqlite3) (ms : list migration_t) (count rolled_back : Z)
    : sqlite3 * list migration_t * list report * Z :=
  match ms with
  | [] => (db, [], [], rolled_back)
  | m :: ms =>
      if negb (rolled_back <? count) then (db, m :: ms, [], rolled_back) else
      if negb (bool_decide (m.(status) = MIGRATE_STATUS_APPLIED)) then
        let '(db, ms, told, r) := down_loop config db ms count rolled_back in (db, m :: ms, told, r)
      else if config.(dry_run) then
        let '(db, ms, told, r) := down_loop config db ms count (rolled_back + 1) in (db, m :: ms, told, r)
      else
        let '(db, m, result) := rollback_migration config db m in
        let told := if config.(callback) then [(m.(version), m.(description), m.(status))] else [] in
        if negb (result =? 0) then (db, m :: ms, told, -1)
        else
          let '(db, ms, told', r) := down_loop config db ms count (rolled_back + 1) in
          (db, m :: ms, told ++ told', r)
  end.

Definition migrate_down_n (db : sqlite3) (ctx : sqlite_migrate_t) (count : Z)
    : sqlite3 * sqlite_migrate_t * list report * Z :=
  if count <=? 0 then (db, ctx, [], -1) else
  let '(db, ms, told, r) := down_loop ctx.(config) db (reverse ctx.(migrations)) count 0 in
  (db, mkContext ctx.(config) (reverse ms), told, r).

Definition migrate_down (db : sqlite3) (ctx : sqlite_migrate_t) : sqlite3 * sqlite_migrate_t * list report * Z :=
  migrate_down_n db ctx 1.

(** The entries copied; their number is the result. *)
Definition migrate_status (ctx : sqlite_migrate_t) (max_count : Z) : list migration_t :=
  take (Z.to_nat (if Z.of_nat (length ctx.(migrations)) <? max_count
                  then Z.of_nat (length ctx.(migrations)) else max_count)) ctx.(migrations).

(** [None]: return -1. *)
Definition migrate_get_version (ctx : sqlite_migrate_t) (version_len : nat) : option cstr :=
  if (version_len =? 0)%nat then None else
  Some match List.find (λ m, bool_decide (m.(status) = MIGRATE_STATUS_APPLIED)) (reverse ctx.(migrations)) with
       | Some m => strcpy_trunc version_len m.(version)
       | None => []
       end.

End Context_.

(** ** [db_migrations.c] *)

Definition DEFAULT_MIGRATIONS_DIR : cstr := lit "/usr/share/lightnvr/migrations".
Definition LOCAL_MIGRATIONS_DIR : cstr := lit "./db/migrations".
Definition PATH_MAX : nat := 4096.

Definition LEGACY_VERSION_MAP : list (option cstr) :=
  None :: map (λ v, Some (lit v))
    ["0001"; "0002"; "0003"; "0004"; "0005"; "0006"; "0007"; "0008"; "0009"; "0010";
     "0011"; "0012"; "0013"; "0014"; "0015"; "0016"; "0017"; "0018"; "0019"].

(** The environment variable [LIGHTNVR_MIGRATIONS_DIR], [access (path, R_OK) == 0], and
    what [/proc/self/exe] links to. *)
Class Environment := {
  getenv : option cstr;
  access : cstr → bool;
  readlink_exe : option cstr
}.

Section Runner.
Context `{Sqlite3} `{Memory} `{MigrationFiles} `{Qsort} `{Environment}.

Definition find_migrations_dir : option cstr :=
  let env_ok := match getenv with Some p => access p | None => false end in
  if env_ok then getenv
  else if access LOCAL_MIGRATIONS_DIR then Some LOCAL_MIGRATIONS_DIR
  else if access DEFAULT_MIGRATIONS_DIR then Some DEFAULT_MIGRATIONS_DIR
  else
    exe ← readlink_exe;
    let exe_path := take (PATH_MAX - 1) exe in
    if empty exe_path then None else
    '(dir, _) ← split_last slash exe_path;
    let migrations_path := strcpy_trunc PATH_MAX (dir ++ lit "/../share/lightnvr/migrations") in
    if access migrations_path then Some migrations_path else None.

Definition get_legacy_schema_version (db : sqlite3) : Z :=
  if negb (bool_decide (snd (sqlite3_step (lit "SELECT name FROM sqlite_master WHERE type='table' AND name='schema_version';") [] db) = SQLITE_ROW))
  then 0
  else default 0 (column_int (lit "SELECT version FROM schema_version WHERE id = 1;") db).

Definition has_new_migrations_table (db : sqlite3) : bool :=
  bool_decide (snd (sqlite3_step (lit "SELECT name FROM sqlite_master WHERE type='table' AND name='schema_migrations';") [] db) = SQLITE_ROW).

Definition insert_legacy_sql : cstr := lit "INSERT OR IGNORE INTO schema_migrations (version) VALUES (?);".

(** The versions that the loop enters; a failure to enter one is only logged. *)
Fixpoint insert_versions (vs : list (option cstr)) (db : sqlite3) : sqlite3 :=
  match vs with
  | [] => db
  | None :: vs => insert_versions vs db
  | Some v :: vs => insert_versions vs (fst (sqlite3_step insert_legacy_sql [v] db))
  end.

Definition migrate_from_legacy_schema (db : sqlite3) (legacy_version : Z) : sqlite3 * Z :=
  match sqlite3_exec (create_sql DEFAULT_MIGRATIONS_TABLE) db with
  | (db, exec_failed _) => (db, -1)
  | (db, SQLITE_OK) =>
      if negb (sqlite3_prepare insert_legacy_sql db) then (db, -1) else
      (insert_versions (take (Z.to_nat legacy_version) (drop 1 LEGACY_VERSION_MAP)) db, 0)
  end.

Definition runner_config (embedded : list migration_t) (told : bool) : migrate_config_t :=
  mkConfig find_migrations_dir (Some (lit "schema_migrations")) embedded told false.

Definition import_legacy (db : sqlite3) : sqlite3 * Z :=
  if has_new_migrations_table db then (db, 0) else
  let legacy_version := get_legacy_schema_version db in
  if 0 <? legacy_version then migrate_from_legacy_schema db legacy_version else (db, 0).

(** [get_db_handle]: the connection, if there is one. *)
Definition run_database_migrations (embedded_migrations_data : list migration_t) (handle : option sqlite3)
    : option sqlite3 * Z :=
  match handle with
  | None => (None, -1)
  | Some db =>
      let '(db, r) := import_legacy db in
      if negb (r =? 0) then (Some db, -1) else
      match migrate_init db (runner_config embedded_migrations_data true) with
      | (db, None) => (Some db, -1)
      | (db, Some ctx) =>
          let '(db, _, _, _, result) := migrate_up db ctx in (Some db, result)
      end
  end.

(** The embedded migrations are not in this configuration. *)
Definition get_database_version (handle : option sqlite3) (version_len : nat) : option sqlite3 * option cstr :=
  match handle with
  | None => (None, None)
  | Some db =>
      match migrate_init db (runner_config [] false) with
      | (db, None) => (Some db, None)
      | (db, Some ctx) => (Some db, migrate_get_version ctx version_len)
      end
  end.

(** The lines of the report: status and name of each migration, up to a hundred. *)
Definition print_migration_status (handle : option sqlite3) : option sqlite3 * list (migrate_status_t * cstr * cstr) :=
  match handle with
  | None => (None, [])
  | Some db =>
      match migrate_init db (runner_config [] false) with
      | (db, None) => (Some db, [])
      | (db, Some ctx) => (Some db, map (λ m, (m.(status), m.(version), m.(description))) (migrate_status ctx 100))
      end
  end.

End Runner.

(** ** What is relied on

    [committed] is what is stored, [view] what the connection sees.  A statement of the
    allow-list whose text has no quotes but single ones and no comment is one statement
    for SQLite: it does not end the transaction unless it fails, and it has the effect
    [sql_effect] or an error.  An error of the kind that [already_there] looks for is
    found when the statement is compiled, and changes nothing. *)
Definition in_other_quotes (c : byte) : bool :=
  bool_decide (c = Byte.x22) || bool_decide (c = Byte.x60) || bool_decide (c = Byte.x5b).

Definition plain (s : cstr) : bool :=
  allowed_start s && forallb (λ c, negb (in_other_quotes c)) s
  && negb (mentions (lit "--") s) && negb (mentions (lit "/*") s).

Definition begin_sql : cstr := lit "BEGIN TRANSACTION;".
Definition commit_sql : cstr := lit "COMMIT;".
Definition rollback_sql : cstr := lit "ROLLBACK;".

Class Transactions `{Sqlite3} := {
  contents : Type;
  committed : sqlite3 → contents;
  view : sqlite3 → contents;
  in_transaction : sqlite3 → bool;
  sql_effect : cstr → contents → contents + option cstr;
  columns : cstr → contents → list (option cstr);
  versions : contents → list cstr;
  with_version : cstr → contents → contents;
  without_version : cstr → contents → contents;
  with_table : contents → contents;

  view_idle db : in_transaction db = false → view db = committed db;
  column_texts_view text db : column_texts text 1 db = columns text (view db);
  exec_begin db db' r :
    in_transaction db = false → sqlite3_exec begin_sql db = (db', r) →
    committed db' = committed db ∧ view db' = committed db ∧
    in_transaction db' = bool_decide (r = SQLITE_OK);
  exec_rollback db db' r :
    sqlite3_exec rollback_sql db = (db', r) → committed db' = committed db ∧ in_transaction db' = false;
  exec_commit db db' r :
    in_transaction db = true → sqlite3_exec commit_sql db = (db', r) →
    match r with
    | SQLITE_OK => committed db' = view db ∧ in_transaction db' = false
    | exec_failed _ => committed db' = committed db
    end;
  exec_plain s db db' r :
    plain s = true → in_transaction db = true → sqlite3_exec s db = (db', r) →
    committed db' = committed db ∧
    match r with
    | SQLITE_OK => in_transaction db' = true ∧ sql_effect s (view db) = inl (view db')
    | exec_failed msg =>
        already_there msg = true →
        in_transaction db' = true ∧ view db' = view db ∧ sql_effect s (view db) = inr msg
    end;
  exec_create db db' :
    in_transaction db = false → sqlite3_exec (create_sql DEFAULT_MIGRATIONS_TABLE) db = (db', SQLITE_OK) →
    committed db' = with_table (committed db) ∧ in_transaction db' = false;
  with_table_twice d : with_table (with_table d) = with_table d;
  with_table_versions d : versions (with_table d) = versions d;
  with_table_made v d : v ∈ versions d → with_table d = d;

  step_insert v db db' r :
    in_transaction db = true → sqlite3_step (insert_sql DEFAULT_MIGRATIONS_TABLE) [v] db = (db', r) →
    committed db' = committed db ∧
    (r = SQLITE_DONE → in_transaction db' = true ∧ v ∉ versions (view db) ∧ view db' = with_version v (view db));
  with_version_spec v d w : w ∈ versions (with_version v d) ↔ w = v ∨ w ∈ versions d;
  step_delete v db db' r :
    in_transaction db = true → sqlite3_step (delete_sql DEFAULT_MIGRATIONS_TABLE) [v] db = (db', r) →
    committed db' = committed db ∧
    (r = SQLITE_DONE → in_transaction db' = true ∧ view db' = without_version v (view db));
  without_version_spec v d w : w ∈ versions (without_version v d) ↔ w ≠ v ∧ w ∈ versions d;
  step_select v db :
    snd (sqlite3_step (select_sql DEFAULT_MIGRATIONS_TABLE) [v] db) = SQLITE_ROW → v ∈ versions (view db)
}.

(** ** What a migration should do

    The effect of a migration on what is stored: all its statements, in order, and the
    entry of its version; nothing when one of them fails. *)
Section Effects.
Context `{Transactions}.

Definition adds_existing_column (s : cstr) (d : contents) : bool :=
  match added_column s with
  | Some (table, column) =>
      negb (empty table) && negb (empty column) &&
      existsb (λ col_name, match col_name with Some n => strcaseeq n column | None => false end)
        (columns (strcpy_trunc 256 (lit "PRAGMA table_info(" ++ table ++ lit ");")) d)
  | None => false
  end.

Definition statement_effect (s : cstr) (d : contents) : option contents :=
  if adds_existing_column s d then Some d else
  match sql_effect s d with
  | inl d => Some d
  | inr msg => if already_there msg then Some d else None
  end.

Fixpoint text_effect (ss : list cstr) (d : contents) : option contents :=
  match ss with
  | [] => Some d
  | s :: ss => d ← statement_effect s d; text_effect ss d
  end.

Definition migration_effect (sql v : cstr) (d : contents) : option contents :=
  if negb (validate_migration_sql sql) then None else
  d ← text_effect (statements sql) d;
  if bool_decide (v ∈ versions d) then None else Some (with_version v d).

Definition rollback_effect (sql v : cstr) (d : contents) : option contents :=
  if negb (validate_migration_sql sql) then None else
  d ← text_effect (statements sql) d; Some (without_version v d).

(** No commit fails. *)
Definition commits : Prop :=
  ∀ db, in_transaction db = true → snd (sqlite3_exec commit_sql db) = SQLITE_OK.

(** The statements of a text do not take versions away. *)
Definition keeps_versions (sql : cstr) : Prop :=
  ∀ s d d' v, s ∈ statements sql → sql_effect s d = inl d' → v ∈ versions d → v ∈ versions d'.

End Effects.

(** ** Transactions *)

Section Atomicity.
Context `{Transactions} `{Memory} `{MigrationFiles} `{Qsort}.

Lemma execute_begin db : execute_sql db begin_sql = 
  match sqlite3_exec begin_sql db with (db, SQLITE_OK) => (db, 0) | (db, exec_failed _) => (db, -1) end.
Proof. reflexivity. Qed.

Lemma execute_commit db : fst (execute_sql db commit_sql) = fst (sqlite3_exec commit_sql db).
Proof. unfold execute_sql. simpl. by destruct (sqlite3_exec commit_sql db) as [? []]. Qed.

Lemma execute_rollback db :
  committed (fst (execute_sql db rollback_sql)) = committed db ∧
  in_transaction (fst (execute_sql db rollback_sql)) = false.
Proof.
  unfold execute_sql. simpl. destruct (sqlite3_exec rollback_sql db) as [db' r] eqn:E.
  pose proof (exec_rollback _ _ _ E). by destruct r.
Qed.

Lemma plain_allowed s : plain s = true → allowed_start s = true.
Proof. unfold plain. intros. by unbool. Qed.

(** One statement in a transaction. *)
Lemma single_in_transaction s db db' r :
  plain s = true → in_transaction db = true → execute_single_statement db s = (db', r) →
  committed db' = committed db ∧
  (0 ≤ r → in_transaction db' = true ∧ statement_effect s (view db) = Some (view db')).
Proof.
  intros Hp Ht. destruct (allowed_start_head s (plain_allowed s Hp)) as (c & rest & Hs & Hc & _).
  unfold execute_single_statement. rewrite Hs, skip_space_id by done. rewrite <- Hs.
  assert (empty s = false) as -> by by subst s.
  unfold statement_effect, adds_existing_column, column_exists.
  destruct (added_column s) as [[table column]|].
  - rewrite column_texts_view. case_match.
    + by intros [= <- <-].
    + destruct (sqlite3_exec s db) as [db1 res] eqn:E. pose proof (exec_plain _ _ _ _ Hp Ht E) as [Hcm Hr].
      destruct res as [|msg]; intros [= <- <-]; (split; [done|]).
      * destruct Hr as [? ->]. done.
      * destruct (already_there msg) eqn:Ea; [|lia]. destruct (Hr eq_refl) as (? & Hv & ->).
        by rewrite Ea, Hv.
  - destruct (sqlite3_exec s db) as [db1 res] eqn:E. pose proof (exec_plain _ _ _ _ Hp Ht E) as [Hcm Hr].
    destruct res as [|msg]; intros [= <- <-]; (split; [done|]).
    + destruct Hr as [? ->]. done.
    + destruct (already_there msg) eqn:Ea; [|lia]. destruct (Hr eq_refl) as (? & Hv & ->).
      by rewrite Ea, Hv.
Qed.

(** The statements of a text in a transaction. *)
Lemma text_in_transaction n start size db db' r :
  Forall (λ s, plain s = true) (statements_from n start) → in_transaction db = true →
  execute_from n start size db = (db', r) →
  committed db' = committed db ∧ (r = 0 ∨ r = -1) ∧
  (r = 0 → in_transaction db' = true ∧ text_effect (statements_from n start) (view db) = Some (view db')).
Proof.
  revert start size db. induction n as [|n IH]; intros start size db; cbn [execute_from statements_from].
  { intros _ _ [= <- <-]. split_and!; [done|by right|lia]. }
  destruct (empty (skip_space start)); [intros _ ? [= <- <-]; split_and!; [done|by left|done]|].
  destruct (at_comment (skip_space start)); [apply IH|].
  destruct (statement_end false (skip_space start)) as [a b].
  destruct (empty a); [apply IH|]. intros [Hp Hps]%Forall_cons Ht. case_match.
  { intros [= <- <-]. split_and!; [done|by right|lia]. }
  destruct (execute_single_statement db (a ++ [semicolon])) as [db1 res] eqn:E.
  destruct (single_in_transaction _ _ _ _ Hp Ht E) as [Hc Hres].
  destruct (res <? 0) eqn:Hn.
  { intros [= <- <-]. split_and!; [done|by right|lia]. }
  apply Z.ltb_ge in Hn. destruct (Hres Hn) as [Ht1 He]. intros Hx.
  destruct (IH _ _ _ Hps Ht1 Hx) as (Hc' & Hr & Hok).
  split_and!; [congruence|done|]. intros Hr0. cbn [text_effect]. rewrite He. by apply Hok.
Qed.

Lemma validated_in_transaction sql db db' r :
  Forall (λ s, plain s = true) (statements sql) → in_transaction db = true →
  execute_validated_migration_sql db sql = (db', r) →
  committed db' = committed db ∧ (r = 0 ∨ r = -1) ∧
  (r = 0 → in_transaction db' = true ∧ validate_migration_sql sql = true ∧
           text_effect (statements sql) (view db) = Some (view db')).
Proof.
  intros Hp Ht. unfold execute_validated_migration_sql.
  destruct (validate_migration_sql sql) eqn:Hv; cbn [negb].
  - unfold execute_sql. rewrite validated_not_transaction by done. intros Hx.
    destruct (text_in_transaction _ _ _ _ _ _ Hp Ht Hx) as (? & ? & Hok).
    split_and!; [done..|]. intros Hr. destruct (Hok Hr). done.
  - intros [= <- <-]. split_and!; [done|by right|lia].
Qed.

Lemma commit_cases db :
  in_transaction db = true →
  let db' := fst (execute_sql db commit_sql) in
  (snd (sqlite3_exec commit_sql db) = SQLITE_OK ∧ in_transaction db' = false ∧ committed db' = view db) ∨
  (snd (sqlite3_exec commit_sql db) ≠ SQLITE_OK ∧ committed db' = committed db).
Proof.
  intros Ht. cbn zeta. rewrite execute_commit. destruct (sqlite3_exec commit_sql db) as [db' r] eqn:E.
  pose proof (exec_commit _ _ _ Ht E) as Hr. destruct r; [left|right]; naive_solver.
Qed.

(** The SQL of a migration is plain, as far as it is there. *)
Definition plain_section (config : migrate_config_t) (m : migration_t) (marker : cstr) (embedded : option cstr) : Prop :=
  ∀ sql, section_of config m marker embedded = Some (Some sql) → Forall (λ s, plain s = true) (statements sql).

(** What has become of a migration: the status, the connection. *)
Inductive applied_to (config : migrate_config_t) (m : migration_t) (db : sqlite3) : sqlite3 * migration_t * Z → Prop :=
  | applied_not db' st :
      committed db' = committed db → in_transaction db' = false →
      st = m.(status) ∨ st = MIGRATE_STATUS_FAILED →
      applied_to config m db (db', set_status st m, -1)
  | applied_committed sql db' :
      section_of config m (lit "up") m.(sql_up) = Some (Some sql) →
      migration_effect sql m.(version) (committed db) = Some (committed db') → in_transaction db' = false →
      applied_to config m db (db', set_status MIGRATE_STATUS_APPLIED m, 0)
  | applied_uncommitted db0 db' :
      in_transaction db0 = true → snd (sqlite3_exec commit_sql db0) ≠ SQLITE_OK →
      committed db' = committed db →
      applied_to config m db (db', set_status MIGRATE_STATUS_APPLIED m, 0).

Lemma set_status_same m : set_status m.(status) m = m.
Proof. by destruct m. Qed.

Lemma apply_not config m db db' :
  committed db' = committed db → in_transaction db' = false → applied_to config m db (db', m, -1).
Proof. intros. rewrite <- (set_status_same m) at 2. apply applied_not; auto. Qed.

Lemma applied_begun config m db db1 x :
  committed db1 = committed db → applied_to config m db1 x → applied_to config m db x.
Proof.
  intros Hc [db' st Hc' Hi Hst|sql' db' Hs He Hi|db0 db' Ht0 Hno Hc'].
  - apply applied_not; [congruence|done..].
  - eapply applied_committed; [done| |done]. by rewrite <- Hc.
  - apply (applied_uncommitted _ _ _ db0); [done..|congruence].
Qed.

(** The body of the transaction. *)
Lemma apply_in_transaction config m db sql :
  table_name config = DEFAULT_MIGRATIONS_TABLE →
  section_of config m (lit "up") m.(sql_up) = Some (Some sql) →
  in_transaction db = true → view db = committed db →
  Forall (λ s, plain s = true) (statements sql) →
  applied_to config m db
    (let '(db, result) := execute_validated_migration_sql db sql in
     if negb (result =? 0) then (fst (execute_sql db rollback_sql), m, -1) else
     let '(db, result) := record_migration_applied config db m.(version) in
     if result =? 0
     then (fst (execute_sql db commit_sql), set_status MIGRATE_STATUS_APPLIED m, result)
     else (fst (execute_sql db rollback_sql), set_status MIGRATE_STATUS_FAILED m, result)).
Proof.
  intros Htable Hsec Ht Hview Hp.
  destruct (execute_validated_migration_sql db sql) as [db1 r1] eqn:E1.
  destruct (validated_in_transaction _ _ _ _ Hp Ht E1) as (Hc1 & Hr1 & Hok).
  pose proof (execute_rollback db1) as [Hrb Hri].
  destruct Hr1 as [->| ->]; [|change (negb (-1 =? 0)) with true; cbv iota; apply apply_not; [congruence|done]].
  destruct (Hok eq_refl) as (Ht1 & Hv & He). cbn [negb Z.eqb]. unfold record_migration_applied. rewrite Htable.
  destruct (sqlite3_step _ [m.(version)] db1) as [db2 r2] eqn:E2.
  destruct (step_insert _ _ _ _ Ht1 E2) as [Hc2 Hdone].
  case_bool_decide as Hr2;
    [change (0 =? 0) with true|change (-1 =? 0) with false]; cbv iota.
  - destruct (Hdone Hr2) as (Ht2 & Hnew & Hv2).
    destruct (commit_cases db2 Ht2) as [(_ & Hidle & Hcm)|(Hno & Hcm)].
    + apply (applied_committed _ _ _ sql); [done| |done].
      unfold migration_effect. rewrite Hv, <- Hview, He. cbn [negb mbind option_bind]. rewrite bool_decide_eq_false_2 by done.
      by rewrite Hcm, Hv2.
    + apply (applied_uncommitted _ _ _ db2); [done..|congruence].
  - pose proof (execute_rollback db2) as [Hrb2 Hri2]. apply applied_not; [congruence|done|by right].
Qed.

Lemma apply_migration_cases (config : migrate_config_t) (db : sqlite3) (m : migration_t)
  (Htable : table_name config = DEFAULT_MIGRATIONS_TABLE)
  (Hidle : in_transaction db = false)
  (Hplain : plain_section config m (lit "up") m.(sql_up)) :
  applied_to config m db (apply_migration config db m).
Proof.
  unfold apply_migration.
  destruct (section_of config m (lit "up") m.(sql_up)) as [[[|c sql]|]|] eqn:Hsec;
    [by apply apply_not| |by apply apply_not|by apply apply_not].
  change (lit "BEGIN TRANSACTION;") with begin_sql. rewrite execute_begin.
  destruct (sqlite3_exec begin_sql db) as [db1 r] eqn:E.
  destruct (exec_begin _ _ _ Hidle E) as (Hc & Hv & Ht).
  destruct r; cbn [negb Z.eqb].
  - apply (applied_begun _ _ _ db1 _ Hc).
    apply (apply_in_transaction config m db1 (c :: sql) Htable Hsec Ht); [congruence|by apply Hplain].
  - apply apply_not; [done|exact Ht].
Qed.

(** ** Runs *)

(** The effects of the migrations that are not applied, one after the other. *)
Fixpoint upgraded (config : migrate_config_t) (ms : list migration_t) (d : contents) : option contents :=
  match ms with
  | [] => Some d
  | m :: ms =>
      if bool_decide (m.(status) = MIGRATE_STATUS_APPLIED) then upgraded config ms d else
      match section_of config m (lit "up") m.(sql_up) with
      | Some (Some sql) => d ← migration_effect sql m.(version) d; upgraded config ms d
      | _ => None
      end
  end.

Definition is_applied (m : migration_t) : Prop := m.(status) = MIGRATE_STATUS_APPLIED.

(** The first [k] migrations are done, and the others are as they were, but for the
    status of the one that failed. *)
Definition done_up_to (config : migrate_config_t) (k : nat) (ms ms' : list migration_t) (d d' : contents) (r : Z) : Prop :=
  upgraded config (take k ms) d = Some d' ∧
  map version ms' = map version ms ∧
  Forall is_applied (take k ms') ∧
  drop (S k) ms' = drop (S k) ms ∧
  (r = 0 ∧ k = length ms ∨
   r = -1 ∧ ∃ m, ms' !! k = Some m ∧ ¬ is_applied m).

Lemma done_cons_applied config k m ms ms' d d' r :
  is_applied m → done_up_to config k ms ms' d d' r → done_up_to config (S k) (m :: ms) (m :: ms') d d' r.
Proof.
  intros Hm (Hu & Hv & Ha & Hd & Hr). unfold done_up_to. cbn [take upgraded drop map].
  rewrite bool_decide_eq_true_2 by done. split_and!; [done|by rewrite Hv|by constructor|done|].
  simpl. naive_solver.
Qed.

Lemma done_cons config k m sql ms ms' d d1 d' r :
  ¬ is_applied m → section_of config m (lit "up") m.(sql_up) = Some (Some sql) →
  migration_effect sql m.(version) d = Some d1 → done_up_to config k ms ms' d1 d' r →
  done_up_to config (S k) (m :: ms) (set_status MIGRATE_STATUS_APPLIED m :: ms') d d' r.
Proof.
  intros Hm Hs He (Hu & Hv & Ha & Hd & Hr). unfold done_up_to. cbn [take upgraded drop map].
  rewrite bool_decide_eq_false_2, Hs, He by done.
  split_and!; [done|by rewrite Hv|by constructor|done|]. simpl. naive_solver.
Qed.

Lemma done_failed config m st ms d :
  st ≠ MIGRATE_STATUS_APPLIED → done_up_to config 0 (m :: ms) (set_status st m :: ms) d d (-1).
Proof. intros Hs. split_and!; [done..|]. right. split; [done|]. exists (set_status st m). done. Qed.

Definition plain_migrations (config : migrate_config_t) (ms : list migration_t) : Prop :=
  Forall (λ m, plain_section config m (lit "up") m.(sql_up)) ms.

Lemma up_loop_done config db ms stats :
  table_name config = DEFAULT_MIGRATIONS_TABLE → config.(dry_run) = false → commits →
  plain_migrations config ms → in_transaction db = false →
  let '(db', ms', stats', told, r) := up_loop config db ms stats in
  in_transaction db' = false ∧
  ∃ k, done_up_to config k ms ms' (committed db) (committed db') r ∧
       stats'.(total) = stats.(total) ∧ stats'.(applied) = stats.(applied) + Z.of_nat k ∧
       stats'.(failed) = stats.(failed) - r ∧ stats'.(pending) = stats.(pending) - r.
Proof.
  intros Htable Hdry Hcommit. revert db stats.
  induction ms as [|m ms IH]; intros db stats; cbn [up_loop].
  { intros _ Hi. split; [done|]. exists 0%nat. split; [by split_and!; [..|left]|]. split_and!; lia. }
  intros [Hm Hms]%Forall_cons Hidle. case_bool_decide as Hst.
  - specialize (IH db (mkStats stats.(total) (stats.(applied) + 1) stats.(pending) stats.(failed)) Hms Hidle).
    destruct (up_loop _ _ _ _) as [[[[db' ms'] stats'] told] r]. destruct IH as [Hi (k & Hk & Ht & Ha & Hf)].
    split; [done|]. exists (S k). split; [by apply done_cons_applied|]. cbn in *. lia.
  - rewrite Hdry. pose proof (apply_migration_cases config db m Htable Hidle Hm) as Happ.
    inversion Happ as [db' st Hc Hi Hs E|sql db' Hsec He Hi E|db0 db' Ht0 Hno Hc E].
    + cbn -[Z.add Z.sub]. split; [done|]. exists 0%nat. rewrite Hc. split; [|cbn; lia].
      apply done_failed. destruct Hs as [->| ->]; done.
    + clear E. cbn [negb Z.eqb].
      specialize (IH db' (mkStats stats.(total) (stats.(applied) + 1) (stats.(pending) + 1 - 1) stats.(failed)) Hms Hi).
      destruct (up_loop _ _ _ _) as [[[[db2 ms'] stats'] told] r]. destruct IH as [Hi2 (k & Hk & Ht & Ha & Hf)].
      split; [done|]. exists (S k). split; [by eapply done_cons|]. cbn in *. lia.
    + exfalso. by apply Hno, Hcommit.
Qed.

(** ** The list of migrations *)

(** The versions that the names in the directory give. *)
Definition file_versions (config : migrate_config_t) : list cstr :=
  match config.(migrations_dir) with
  | None => []
  | Some dir =>
      match opendir dir with
      | None => []
      | Some (first_pass, second_pass) =>
          take (count_sql_files first_pass)
            (omap (λ e, if negb (bool_decide (e.1 = DT_REG)) && negb (bool_decide (e.1 = DT_UNKNOWN)) then None
                        else fst <$> parse_migration_filename e.2) second_pass)
      end
  end.

Definition known_version (config : migrate_config_t) (v : cstr) : Prop :=
  v ∈ file_versions config ∨ v ∈ map version config.(embedded_migrations).

Definition current_status (config : migrate_config_t) (db : sqlite3) (m : migration_t) : Prop :=
  m.(status) = (if is_migration_applied config db m.(version) then MIGRATE_STATUS_APPLIED else MIGRATE_STATUS_PENDING).

Lemma scan_entries_versions config db dir n es :
  map version (scan_entries config db dir n es)
  = take n (omap (λ e, if negb (bool_decide (e.1 = DT_REG)) && negb (bool_decide (e.1 = DT_UNKNOWN)) then None
                        else fst <$> parse_migration_filename e.2) es).
Proof.
  revert n. induction es as [|[ty name] es IH]; intros [|n]; cbn [scan_entries omap list_omap]; [done..|].
  cbn [fst snd]. case_match; [apply IH|].
  destruct (parse_migration_filename name) as [[v d]|]; [|apply IH]. cbn. f_equal. apply IH.
Qed.

Lemma scan_entries_status config db dir n es :
  Forall (current_status config db) (scan_entries config db dir n es).
Proof.
  revert n. induction es as [|[ty name] es IH]; intros [|n]; cbn [scan_entries]; [constructor..|].
  case_match; [apply IH|]. destruct (parse_migration_filename name) as [[v d]|]; [|apply IH].
  constructor; [done|apply IH].
Qed.

Context `{!QsortLaws}.

Abbreviation by_version := (λ x y, compare_migrations x y ≤ 0).

Lemma sort_versions ms v : v ∈ map version (qsort compare_migrations ms) ↔ v ∈ map version ms.
Proof. by rewrite qsort_perm. Qed.

Lemma sorted_by_version ms : StronglySorted by_version (qsort compare_migrations ms).
Proof.
  apply qsort_sorted; unfold compare_migrations.
  - intros x y. pose proof (lex_le_total (byte_Z <$> x.(version)) (byte_Z <$> y.(version))) as H'.
    rewrite <- !strcmp_le in H'. lia.
  - intros x y z Hxy Hyz.
    assert (lex_le (byte_Z <$> x.(version)) (byte_Z <$> z.(version)) = true) as E.
    { apply (lex_le_trans _ (byte_Z <$> y.(version))); rewrite <- strcmp_le; lia. }
    rewrite <- strcmp_le in E. lia.
Qed.

Lemma scan_spec config db ms :
  scan_migrations_dir config db = Some ms →
  (∀ v, v ∈ map version ms ↔ v ∈ file_versions config) ∧ Forall (current_status config db) ms ∧
  StronglySorted by_version ms.
Proof.
  unfold scan_migrations_dir, file_versions.
  destruct (migrations_dir config) as [dir|]; [|intros [= <-]; by split_and!; [|constructor..]].
  destruct (opendir dir) as [[p1 p2]|]; [|intros [= <-]; by split_and!; [|constructor..]].
  destruct (count_sql_files p1 =? 0)%nat eqn:E0.
  { apply Nat.eqb_eq in E0 as ->. intros [= <-]. by split_and!; [|constructor..]. }
  case_match; [done|]. intros [= <-]. split_and!.
  - intros v. by rewrite sort_versions, scan_entries_versions.
  - rewrite qsort_perm. apply scan_entries_status.
  - apply sorted_by_version.
Qed.

Lemma already_exists_spec ms src : already_exists ms src = true ↔ src.(version) ∈ map version ms.
Proof.
  unfold already_exists. rewrite existsb_exists, list_elem_of_In, in_map_iff.
  setoid_rewrite streq_true. naive_solver.
Qed.

Lemma add_embedded_spec config db ms ms' :
  add_embedded_migrations config db ms = Some ms' →
  Forall (current_status config db) ms → StronglySorted by_version ms →
  (∀ v, v ∈ map version ms' ↔ v ∈ map version ms ∨ v ∈ map version config.(embedded_migrations)) ∧
  Forall (current_status config db) ms' ∧ StronglySorted by_version ms'.
Proof.
  unfold add_embedded_migrations. set (new := List.filter _ _).
  assert (∀ v, v ∈ map version ms ∨ v ∈ map version new ↔ v ∈ map version ms ∨ v ∈ map version config.(embedded_migrations)) as Hv.
  { intros v. split; (intros [?|Hin]; [by left|]);
      apply list_elem_of_In, in_map_iff in Hin as (m & <- & Hin).
    - right. apply filter_In in Hin as [Hin _]. apply list_elem_of_In, in_map. done.
    - destruct (already_exists ms m) eqn:E; [left; by apply already_exists_spec|right].
      apply list_elem_of_In, in_map, filter_In. by rewrite E. }
  destruct (length new =? 0)%nat eqn:E0.
  - apply Nat.eqb_eq, nil_length_inv in E0. intros [= <-] Hs Hsort. split_and!; [|done..].
    intros v. rewrite <- Hv, E0. simpl. rewrite elem_of_nil. tauto.
  - case_match; [done|]. intros [= <-] Hs Hsort. split_and!.
    + intros v. rewrite sort_versions, map_app, elem_of_app, map_map. apply Hv.
    + rewrite qsort_perm. apply Forall_app. split; [done|].
      apply Forall_forall. intros m (x & <- & _)%list_elem_of_In%in_map_iff. done.
    + apply sorted_by_version.
Qed.

Lemma migrate_init_spec cfg db db' ctx :
  migrate_init db cfg = (db', Some ctx) →
  ctx.(config) = cfg ∧
  (∀ v, v ∈ map version ctx.(migrations) ↔ known_version cfg v) ∧
  Forall (current_status cfg db') ctx.(migrations) ∧
  StronglySorted by_version ctx.(migrations).
Proof.
  unfold migrate_init. case_match; [done|]. destruct (create_migrations_table cfg db) as [db1 r].
  case_match; [done|]. intros [= <- Hctx].
  destruct (scan_migrations_dir cfg db1) as [ms|] eqn:Hms; [|done].
  cbn [mbind option_bind] in Hctx. destruct (add_embedded_migrations cfg db1 ms) as [ms'|] eqn:He; [|done].
  injection Hctx as <-. destruct (scan_spec _ _ _ Hms) as (Hv & Hs & Hsort).
  destruct (add_embedded_spec _ _ _ _ He Hs Hsort) as (Hv' & Hs' & Hsort').
  split_and!; [done| |done..]. intros v. cbn. by rewrite Hv', Hv.
Qed.

(** ** Versions that have been entered *)

Definition keeps_all_versions (config : migrate_config_t) (ms : list migration_t) : Prop :=
  Forall (λ m, ∀ sql, section_of config m (lit "up") m.(sql_up) = Some (Some sql) → keeps_versions sql) ms.

Lemma text_effect_versions ss d d' v :
  (∀ s d d' v, s ∈ ss → sql_effect s d = inl d' → v ∈ versions d → v ∈ versions d') →
  text_effect ss d = Some d' → v ∈ versions d → v ∈ versions d'.
Proof.
  revert d. induction ss as [|s ss IH]; intros d Hk; cbn [text_effect]; [by intros [= <-]|].
  destruct (statement_effect s d) as [d1|] eqn:E; [|done]. cbn [mbind option_bind]. intros Ht Hv.
  eapply IH; [|done|].
  - intros. eapply Hk; [by right|done..].
  - unfold statement_effect in E. case_match; [by simplify_eq|].
    destruct (sql_effect s d) as [d2|msg] eqn:Ee.
    + simplify_eq. eapply Hk; [by left|done..].
    + case_match; by simplify_eq.
Qed.

Lemma migration_effect_versions sql v d d' w :
  keeps_versions sql → migration_effect sql v d = Some d' →
  w = v ∨ w ∈ versions d → w ∈ versions d'.
Proof.
  intros Hk. unfold migration_effect. case_match; [done|].
  destruct (text_effect (statements sql) d) as [d1|] eqn:E; [|done]. cbn [mbind option_bind].
  case_bool_decide; [done|]. intros [= <-] Hw. apply with_version_spec.
  destruct Hw as [->|Hw]; [by left|right]. by eapply text_effect_versions.
Qed.

Lemma upgraded_versions config ms d d' :
  keeps_all_versions config ms → upgraded config ms d = Some d' →
  (∀ m, m ∈ ms → is_applied m → m.(version) ∈ versions d) →
  ∀ w, w ∈ versions d ∨ w ∈ map version ms → w ∈ versions d'.
Proof.
  revert d. induction ms as [|m ms IH]; intros d; cbn [upgraded map].
  { intros _ [= <-] _ w [?|?%elem_of_nil]; done. }
  intros [Hk Hks]%Forall_cons Hu Ha w Hw. case_bool_decide as Hst.
  - eapply (IH d); [done..|intros; apply Ha; [by right|done]|].
    rewrite elem_of_cons in Hw. destruct Hw as [?|[->|?]]; [by left| |by right].
    left. apply Ha; [by left|done].
  - destruct (section_of _ _ _ _) as [[sql|]|] eqn:Hs; [|done..].
    destruct (migration_effect sql (version m) d) as [d1|] eqn:He; [|done]. cbn [mbind option_bind] in Hu.
    eapply (IH d1); [done..| |].
    + intros m' Hin Happ. eapply migration_effect_versions; [by apply Hk|done|]. right. apply Ha; [by right|done].
    + rewrite elem_of_cons in Hw. destruct (decide (w ∈ map version ms)); [by right|left].
      eapply migration_effect_versions; [by apply Hk|done|]. tauto.
Qed.

(** ** The whole run *)

Lemma migrate_init_stored cfg db db' ctx :
  table_name cfg = DEFAULT_MIGRATIONS_TABLE → in_transaction db = false →
  migrate_init db cfg = (db', Some ctx) →
  committed db' = with_table (committed db) ∧ in_transaction db' = false.
Proof.
  intros Ht Hi. unfold migrate_init. case_match; [done|]. unfold create_migrations_table. rewrite Ht.
  destruct (sqlite3_exec _ db) as [db1 r] eqn:E. destruct r; [|done]. cbn [negb Z.eqb].
  intros [= <- _]. by apply exec_create.
Qed.

Lemma migrate_up_done db ctx :
  table_name ctx.(config) = DEFAULT_MIGRATIONS_TABLE → ctx.(config).(dry_run) = false → commits →
  plain_migrations ctx.(config) ctx.(migrations) → in_transaction db = false →
  let '(db', ctx', stats, told, r) := migrate_up db ctx in
  ctx'.(config) = ctx.(config) ∧ in_transaction db' = false ∧
  ∃ k, done_up_to ctx.(config) k ctx.(migrations) ctx'.(migrations) (committed db) (committed db') r ∧
       stats = mkStats (Z.of_nat (length ctx.(migrations))) (Z.of_nat k) (- r) (- r).
Proof.
  intros Ht Hd Hc Hp Hi. unfold migrate_up.
  pose proof (up_loop_done ctx.(config) db ctx.(migrations)
    (mkStats (Z.of_nat (length ctx.(migrations))) 0 0 0) Ht Hd Hc Hp Hi) as H'.
  destruct (up_loop _ _ _ _) as [[[[db' ms'] stats'] told] r]. destruct H' as [Hi' (k & Hk & H1' & H2' & H3' & H4')].
  split_and!; [done..|]. exists k. split; [done|]. destruct stats'. cbn in *. f_equal; lia.
Qed.

(** A run with nothing to do. *)
Lemma up_loop_nothing config db ms stats :
  Forall is_applied ms →
  up_loop config db ms stats
  = (db, ms, mkStats stats.(total) (stats.(applied) + Z.of_nat (length ms)) stats.(pending) stats.(failed), [], 0).
Proof.
  intros Ha. revert stats. induction Ha as [|m ms Hm Hms IH]; intros stats; cbn [up_loop].
  - destruct stats. cbn. do 4 f_equal. lia.
  - rewrite bool_decide_eq_true_2 by done. rewrite IH. cbn -[Z.of_nat]. do 4 f_equal. lia.
Qed.

(** Every query for a version that is there finds it. *)
Definition answers : Prop :=
  ∀ v db, v ∈ versions (view db) →
    snd (sqlite3_step (select_sql DEFAULT_MIGRATIONS_TABLE) [v] db) = SQLITE_ROW.

Lemma applied_current cfg db ms :
  table_name cfg = DEFAULT_MIGRATIONS_TABLE → Forall (current_status cfg db) ms →
  ∀ m, m ∈ ms → is_applied m → m.(version) ∈ versions (view db).
Proof.
  intros Ht Hs m Hm Ha. rewrite Forall_forall in Hs. specialize (Hs m Hm).
  unfold current_status in Hs. unfold is_applied in Ha. rewrite Ha in Hs. unfold is_migration_applied in Hs.
  case_bool_decide as Hr; [|done]. rewrite Ht in Hr. by apply step_select.
Qed.

(** After a run that succeeds, the versions of all migrations have been entered. *)
Lemma run_enters_versions cfg db db1 ctx db2 ctx2 stats told :
  table_name cfg = DEFAULT_MIGRATIONS_TABLE → cfg.(dry_run) = false → commits →
  in_transaction db = false → migrate_init db cfg = (db1, Some ctx) →
  plain_migrations cfg ctx.(migrations) → keeps_all_versions cfg ctx.(migrations) →
  migrate_up db1 ctx = (db2, ctx2, stats, told, 0) →
  in_transaction db2 = false ∧
  (∀ v, known_version cfg v → v ∈ versions (committed db2)) ∧
  with_table (committed db2) = committed db2.
Proof.
  intros Ht Hd Hc Hi Hinit Hp Hk Hup.
  destruct (migrate_init_spec _ _ _ _ Hinit) as (<- & Hv & Hs & _).
  destruct (migrate_init_stored _ _ _ _ Ht Hi Hinit) as [Hst Hi1].
  pose proof (migrate_up_done db1 ctx Ht Hd Hc Hp Hi1) as H'. rewrite Hup in H'.
  destruct H' as (_ & Hi2 & k & (Hu & _ & _ & _ & [[_ ->]|[? _]]) & _); [|done].
  rewrite take_ge in Hu by done.
  pose proof (upgraded_versions _ _ _ _ Hk Hu) as Hw.
  assert (∀ w, w ∈ map version (migrations ctx) → w ∈ versions (committed db2)) as Hall.
  { intros w Hin. apply Hw; [|by right]. rewrite <- view_idle by done. by eapply applied_current. }
  split_and!; [done|intros v Hv'; by apply Hall, Hv|].
  destruct (migrations ctx) as [|m ms].
  - injection Hu as <-. by rewrite Hst, with_table_twice.
  - apply (with_table_made m.(version)). apply Hall. left.
Qed.

(** ** Roll back *)

Inductive rolled_back_to (config : migrate_config_t) (m : migration_t) (db : sqlite3) : sqlite3 * migration_t * Z → Prop :=
  | kept db' :
      committed db' = committed db → in_transaction db' = false → rolled_back_to config m db (db', m, -1)
  | nothing_to_do : rolled_back_to config m db (db, m, 0)
  | rolled_back sql db' :
      section_of config m (lit "down") m.(sql_down) = Some (Some sql) →
      rollback_effect sql m.(version) (committed db) = Some (committed db') → in_transaction db' = false →
      rolled_back_to config m db (db', set_status MIGRATE_STATUS_PENDING m, 0)
  | rolled_back_uncommitted db0 db' :
      in_transaction db0 = true → snd (sqlite3_exec commit_sql db0) ≠ SQLITE_OK →
      committed db' = committed db →
      rolled_back_to config m db (db', set_status MIGRATE_STATUS_PENDING m, 0).

Lemma rollback_migration_cases config db m :
  table_name config = DEFAULT_MIGRATIONS_TABLE → in_transaction db = false →
  plain_section config m (lit "down") m.(sql_down) →
  rolled_back_to config m db (rollback_migration config db m).
Proof.
  intros Htable Hidle Hplain. unfold rollback_migration.
  destruct (section_of config m (lit "down") m.(sql_down)) as [[[|c sql]|]|] eqn:Hsec;
    [apply nothing_to_do| |apply nothing_to_do|by apply kept].
  change (lit "BEGIN TRANSACTION;") with begin_sql. change (lit "ROLLBACK;") with rollback_sql.
  change (lit "COMMIT;") with commit_sql. rewrite execute_begin.
  destruct (sqlite3_exec begin_sql db) as [db1 r] eqn:E.
  destruct (exec_begin _ _ _ Hidle E) as (Hc & Hv & Ht).
  destruct r; cbn [negb Z.eqb]; [rewrite bool_decide_eq_true_2 in Ht by done|by apply kept].
  destruct (execute_validated_migration_sql db1 (c :: sql)) as [db2 r2] eqn:E2.
  destruct (validated_in_transaction _ _ _ _ (Hplain _ Hsec) Ht E2) as (Hc2 & Hr2 & Hok).
  pose proof (execute_rollback db2) as [Hrb Hri].
  destruct Hr2 as [->| ->]; [|change (negb (-1 =? 0)) with true; cbv iota; apply kept; [congruence|done]].
  destruct (Hok eq_refl) as (Ht2 & Hval & He). change (negb (0 =? 0)) with false. cbv iota.
  unfold remove_migration_record. rewrite Htable.
  destruct (sqlite3_step _ [m.(version)] db2) as [db3 r3] eqn:E3.
  destruct (step_delete _ _ _ _ Ht2 E3) as [Hc3 Hdone]. pose proof (execute_rollback db3) as [Hrb3 Hri3].
  case_bool_decide as Hr3; [change (0 =? 0) with true|change (-1 =? 0) with false]; cbv iota;
    [|apply kept; [congruence|done]].
  destruct (Hdone Hr3) as [Ht3 Hv3].
  destruct (commit_cases db3 Ht3) as [(_ & Hi & Hcm)|(Hno & Hcm)].
  - apply (rolled_back _ _ _ (c :: sql)); [done| |done]. unfold rollback_effect.
    rewrite Hval, <- Hv, He. cbn [negb mbind option_bind]. by rewrite Hcm, Hv3.
  - apply (rolled_back_uncommitted _ _ _ db3); [done..|congruence].
Qed.

Lemma down_loop_enough config db ms count n :
  count ≤ n → down_loop config db ms count n = (db, ms, [], n).
Proof. intros Hn. destruct ms; cbn [down_loop]; [done|]. by rewrite (proj2 (Z.ltb_ge n count)). Qed.

(** ** Theorems *)



(** After a run that succeeded, initializing again and running again applies nothing:
    every migration is found to be applied, and what is stored stays as it is. *)
Theorem second_run_changes_nothing (cfg : migrate_config_t) (db db1 db2 db3 : sqlite3)
  (ctx ctx2 ctx3 : sqlite_migrate_t) (stats : migrate_stats_t) (told : list report)
  (Hconfig : table_name cfg = DEFAULT_MIGRATIONS_TABLE ∧ cfg.(dry_run) = false)
  (Hsqlite : commits ∧ answers)
  (Hidle : in_transaction db = false)
  (Hinit : migrate_init db cfg = (db1, Some ctx))
  (Hmigrations : plain_migrations cfg ctx.(migrations) ∧ keeps_all_versions cfg ctx.(migrations))
  (Hup : migrate_up db1 ctx = (db2, ctx2, stats, told, 0))
  (Hagain : migrate_init db2 cfg = (db3, Some ctx3)) :
  let n := Z.of_nat (length ctx3.(migrations)) in
  migrate_up db3 ctx3 = (db3, ctx3, mkStats n n 0 0, [], 0) ∧ committed db3 = committed db2.
Proof.
  destruct Hconfig as [Ht Hd], Hsqlite as [Hc Ha], Hmigrations as [Hp Hk].
  destruct (run_enters_versions _ _ _ _ _ _ _ _ Ht Hd Hc Hidle Hinit Hp Hk Hup) as (Hi2 & Hall & Htab).
  destruct (migrate_init_stored _ _ _ _ Ht Hi2 Hagain) as [Hst Hi3].
  destruct (migrate_init_spec _ _ _ _ Hagain) as (_ & Hv & Hs & _).
  split; [|congruence]. unfold migrate_up. rewrite up_loop_nothing; [by destruct ctx3|].
  rewrite Forall_forall in Hs |- *. intros m Hm. unfold is_applied. rewrite (Hs m Hm : status m = _).
  unfold is_migration_applied. rewrite Ht, Ha; [done|]. rewrite view_idle, Hst, with_table_versions by done.
  apply Hall, Hv. by apply list_elem_of_fmap_2.
Qed.

(** a migration that has nothing to roll back is counted as rolled back and stays
    applied, so that rolling back again comes to the same one. *)
Theorem empty_rollback_sticks (db : sqlite3) (ctx : sqlite_migrate_t) (ms : list migration_t) (m : migration_t)
  (Hctx : ctx.(migrations) = ms ++ [m] ∧ ctx.(config).(dry_run) = false)
  (Happlied : is_applied m)
  (Hempty : section_of ctx.(config) m (lit "down") m.(sql_down) = Some None ∨
            section_of ctx.(config) m (lit "down") m.(sql_down) = Some (Some [])) :
  ∃ told, migrate_down db ctx = (db, ctx, told, 1).
Proof.
  destruct Hctx as [Hms Hd]. unfold migrate_down, migrate_down_n. cbn [Z.leb Z.compare].
  rewrite Hms, reverse_snoc. cbn [down_loop]. change (negb (0 <? 1)) with false. cbv iota.
  rewrite bool_decide_eq_true_2, Hd by done. cbn [negb].
  assert (rollback_migration ctx.(config) db m = (db, m, 0)) as ->.
  { unfold rollback_migration. by destruct Hempty as [-> | ->]. }
  cbn [negb Z.eqb]. rewrite down_loop_enough by lia. eexists.
  rewrite reverse_cons, reverse_involutive, <- Hms. by destruct ctx.
Qed.

End Atomicity.

(** ** Examples

    A data base that remembers the statements that have run, and runs none twice. *)
Record toy_contents := mkToy { ran : list cstr; entered : list cstr }.
Record toy_db := mkToyDb { stored : toy_contents; opened : option toy_contents }.

Definition toy_view (db : toy_db) : toy_contents := default db.(stored) db.(opened).

Definition toy_open (db : toy_db) : bool := match db.(opened) with Some _ => true | None => false end.

Definition toy_set (d : toy_contents) (db : toy_db) : toy_db :=
  match db.(opened) with
  | Some _ => mkToyDb db.(stored) (Some d)
  | None => mkToyDb d None
  end.

Definition toy_effect (s : cstr) (d : toy_contents) : toy_contents + option cstr :=
  if streq s (create_sql DEFAULT_MIGRATIONS_TABLE) then inl d
  else if bool_decide (s ∈ d.(ran)) then inr (Some (lit "table already exists"))
  else inl (mkToy (d.(ran) ++ [s]) d.(entered)).

Definition toy_exec (s : cstr) (db : toy_db) : toy_db * exec_result :=
  if streq s begin_sql then
    match db.(opened) with
    | None => (mkToyDb db.(stored) (Some db.(stored)), SQLITE_OK)
    | Some _ => (db, exec_failed None)
    end
  else if streq s commit_sql then
    match db.(opened) with
    | None => (db, exec_failed None)
    | Some d => (mkToyDb d None, SQLITE_OK)
    end
  else if streq s rollback_sql then
    (mkToyDb db.(stored) None, if toy_open db then SQLITE_OK else exec_failed None)
  else
    match toy_effect s (toy_view db) with
    | inl d => (toy_set d db, SQLITE_OK)
    | inr msg => (db, exec_failed msg)
    end.

Definition toy_step (s : cstr) (args : list cstr) (db : toy_db) : toy_db * step_result :=
  let d := toy_view db in
  match args with
  | [v] =>
      if streq s (insert_sql DEFAULT_MIGRATIONS_TABLE) then
        if bool_decide (v ∈ d.(entered)) then (db, step_failed)
        else (toy_set (mkToy d.(ran) (v :: d.(entered))) db, SQLITE_DONE)
      else if streq s (delete_sql DEFAULT_MIGRATIONS_TABLE) then
        (toy_set (mkToy d.(ran) (List.filter (λ w, negb (streq w v)) d.(entered))) db, SQLITE_DONE)
      else (db, if bool_decide (v ∈ d.(entered)) then SQLITE_ROW else SQLITE_DONE)
  | _ => (db, SQLITE_DONE)
  end.

#[local] Instance toy : Sqlite3 := {|
  sqlite3 := toy_db;
  sqlite3_exec := toy_exec;
  sqlite3_step := toy_step;
  sqlite3_prepare := λ _ _, true;
  column_texts := λ _ _ _, [];
  column_int := λ _ _, None
|}.

Lemma plain_not_control s :
  plain s = true → streq s begin_sql = false ∧ streq s commit_sql = false ∧ streq s rollback_sql = false.
Proof.
  intros Hp%plain_allowed.
  split_and!; apply streq_false; intros ->; vm_compute in Hp; discriminate.
Qed.

Lemma toy_set_view d db : toy_view (toy_set d db) = d.
Proof. destruct db as [s [o|]]; done. Qed.

#[local] Program Instance toy_transactions : Transactions := {|
  contents := toy_contents;
  committed := stored;
  view := toy_view;
  in_transaction := toy_open;
  sql_effect := toy_effect;
  columns _ _ := [];
  versions := entered;
  with_version v d := mkToy d.(ran) (v :: d.(entered));
  without_version v d := mkToy d.(ran) (List.filter (λ w, negb (streq w v)) d.(entered));
  with_table d := d
|}.
Next Obligation. intros [s [o|]] H; done. Qed.
Next Obligation. done. Qed.
Next Obligation. intros [s [o|]] db' r Hi; [done|]. cbn. by intros [= <- <-]. Qed.
Next Obligation. intros [s [o|]] db' r; cbn; by intros [= <- <-]. Qed.
Next Obligation. intros [s [o|]] db' r Hi; [|done]. cbn. by intros [= <- <-]. Qed.
Next Obligation.
  intros s [st [o|]] db' r Hp Ht; [|done]. destruct (plain_not_control s Hp) as (Hb & Hc & Hr).
  cbn [sqlite3_exec toy]. unfold toy_exec. rewrite Hb, Hc, Hr. cbn [toy_view opened default stored from_option].
  destruct (toy_effect s _) as [d|msg] eqn:E; intros [= <- <-]; [done|]. split; [done|]. intros _.
  done.
Qed.
Next Obligation.
  intros [s [o|]] db' Hi; [done|]. cbn [sqlite3_exec toy]. unfold toy_exec, toy_effect.
  rewrite streq_refl. by intros [= <-].
Qed.
Next Obligation. done. Qed.
Next Obligation. done. Qed.
Next Obligation. done. Qed.
Next Obligation.
  intros v [s [o|]] db' r Ht; [|done]. cbn [sqlite3_step toy]. unfold toy_step. rewrite streq_refl.
  case_bool_decide as Hv; intros [= <- <-]; done.
Qed.
Next Obligation. intros v d w. cbn. by rewrite elem_of_cons. Qed.
Next Obligation.
  intros v [s [o|]] db' r Ht; [|done]. cbn [sqlite3_step toy]. unfold toy_step. rewrite streq_refl.
  replace (streq (delete_sql _) (insert_sql _)) with false by (vm_compute; reflexivity). by intros [= <- <-].
Qed.
Next Obligation.
  intros v d w. cbn. rewrite !list_elem_of_In, filter_In, negb_true_iff, streq_false. tauto.
Qed.
Next Obligation.
  intros v db. cbn [sqlite3_step toy]. unfold toy_step.
  replace (streq (select_sql _) (insert_sql _)) with false by (vm_compute; reflexivity).
  replace (streq (select_sql _) (delete_sql _)) with false by (vm_compute; reflexivity). cbn [snd].
  by case_bool_decide.
Qed.

#[local] Instance merge_qsort : Qsort := {|
  qsort A compar l := @merge_sort A (λ x y, compar x y ≤ 0) (λ x y, Z_le_dec (compar x y) 0) l
|}.

#[local] Instance merge_qsort_laws : QsortLaws.
Proof.
  split.
  - intros A compar l. apply merge_sort_Permutation.
  - intros A compar l Ht Htr. cbn [qsort merge_qsort].
    assert (Total (λ x y : A, compar x y ≤ 0)) by exact Ht.
    assert (Transitive (λ x y : A, compar x y ≤ 0)) by exact Htr.
    by apply StronglySorted_merge_sort.
Qed.

#[local] Instance toy_memory : Memory := {| allocates := λ _, true |}.

Definition toy_file (up down : string) : cstr := migration_file (lit up) (lit down).

(** Two files, in the wrong order, and one that is not a migration. *)
#[local] Instance toy_files : MigrationFiles := {|
  opendir := λ _, let es := [(DT_REG, lit "0002_b.sql"); (DT_REG, lit "README"); (DT_REG, lit "0001_a.sql")] in
                  Some (es, es);
  lstat := λ _, Some {| S_ISREG := true; S_IWOTH := false |};
  realpath := Some;
  file_content := λ p, if streq p (lit "m/0001_a.sql")
                       then Some (toy_file "CREATE TABLE a(x); CREATE TABLE b(x);" "DROP TABLE a;")
                       else Some (toy_file "INSERT INTO a VALUES (1);" "DELETE FROM a;")
|}.

Definition toy_embedded : migration_t :=
  mkMigration (lit "0003") (lit "c") [] (Some (lit "CREATE TABLE a(x); UPDATE b SET x = 1;")) None MIGRATE_STATUS_PENDING true.

Definition toy_config : migrate_config_t := mkConfig (Some (lit "m")) None [toy_embedded] true false.
Definition toy_start : toy_db := mkToyDb (mkToy [] []) None.

Definition toy_init (db : toy_db) : toy_db * option sqlite_migrate_t :=
  @migrate_init toy toy_memory toy_files merge_qsort db toy_config.

Definition toy_context : sqlite_migrate_t := default (mkContext toy_config []) (snd (toy_init toy_start)).

Definition toy_up (db : toy_db) (ctx : sqlite_migrate_t) :
    toy_db * sqlite_migrate_t * migrate_stats_t * list report * Z :=
  @migrate_up toy toy_memory toy_files db ctx.

Definition toy_end : toy_db := (toy_up toy_start toy_context).1.1.1.1.

(** The order of the versions; the statement that has run is skipped. *)
Example toy_run :
  toy_end = mkToyDb (mkToy [lit "CREATE TABLE a(x);"; lit "CREATE TABLE b(x);"; lit "INSERT INTO a VALUES (1);";
                            lit "UPDATE b SET x = 1;"] [lit "0003"; lit "0002"; lit "0001"]) None.
Proof. vm_compute. reflexivity. Qed.

Section Checks.
Context `{Sqlite3} `{Memory} `{MigrationFiles}.

Lemma plain_section_check config m marker embedded :
  match section_of config m marker embedded with
  | Some (Some sql) => forallb plain (statements sql)
  | _ => true
  end = true →
  plain_section config m marker embedded.
Proof.
  unfold plain_section. intros Hc sql E. rewrite E in Hc. rewrite forallb_forall in Hc.
  apply Forall_forall. intros s Hs. by apply Hc, list_elem_of_In.
Qed.

End Checks.

Lemma toy_commits : @commits toy toy_transactions.
Proof. intros [s [o|]] Ht; [reflexivity|done]. Qed.

Lemma toy_answers : @answers toy toy_transactions.
Proof.
  intros v db Hv. cbn [sqlite3_step toy]. unfold toy_step.
  replace (streq (select_sql _) (insert_sql _)) with false by (vm_compute; reflexivity).
  replace (streq (select_sql _) (delete_sql _)) with false by (vm_compute; reflexivity). cbn [snd].
  by rewrite bool_decide_eq_true_2.
Qed.

Lemma toy_keeps sql : @keeps_versions toy toy_transactions sql.
Proof.
  intros s d d' v _. cbn. unfold toy_effect. case_match; [by intros [= <-]|].
  case_match; [done|]. by intros [= <-].
Qed.

Lemma toy_plain : plain_migrations toy_config toy_context.(migrations).
Proof.
  repeat (apply Forall_cons_2; [apply plain_section_check; vm_compute; reflexivity|]). constructor.
Qed.


Lemma toy_init_start : toy_init toy_start = (toy_start, Some toy_context).
Proof. vm_compute. reflexivity. Qed.


Definition toy_context2 : sqlite_migrate_t := default (mkContext toy_config []) (snd (toy_init toy_end)).

Lemma second_run_changes_nothing_witness :
  toy_up toy_end toy_context2 = (toy_end, toy_context2, mkStats 3 3 0 0, [], 0).
Proof.
  refine (proj1 (@second_run_changes_nothing toy toy_transactions toy_memory toy_files merge_qsort merge_qsort_laws
           toy_config toy_start toy_start toy_end toy_end toy_context (toy_up toy_start toy_context).1.1.1.2 toy_context2
           (toy_up toy_start toy_context).1.1.2 (toy_up toy_start toy_context).1.2 _ _ _ _ _ _ _)).
  - split; vm_compute; reflexivity.
  - split; [exact toy_commits|exact toy_answers].
  - reflexivity.
  - exact toy_init_start.
  - split; [exact toy_plain|]. apply Forall_forall. intros m _ sql _. apply toy_keeps.
  - vm_compute. reflexivity.
  - vm_compute. reflexivity.
Defined.

Lemma empty_rollback_sticks_witness :
  ∃ told, @migrate_down toy toy_memory toy_files toy_end toy_context2 = (toy_end, toy_context2, told, 1).
Proof.
  apply (@empty_rollback_sticks toy toy_memory toy_files toy_end toy_context2
           (take 2 toy_context2.(migrations)) (set_status MIGRATE_STATUS_APPLIED toy_embedded)).
  - split; vm_compute; reflexivity.
  - reflexivity.
  - left. reflexivity.
Defined.
