(* ===== verification/EmbeddedMigrations.v ===== *)
(** * The migrations of the program

    [src/include/database/db_embedded_migrations.h], the table that
    [run_database_migrations] hands to the runner, line by line; and what the runner
    relies on: versions in order, and SQL that the allow-list accepts and the
    executor cuts where SQLite does. *)
From Stdlib Require Import ZArith Lia Bool.
From Stdlib Require Import Strings.Byte.
From stdpp Require Import base numbers list strings sorting.
From S2P Require Import Prelude.
From S2P Require Import Libc.
From S2P Require Import Sql.
From S2P Require Import MigrationSql.
From S2P Require Import Migrations.
#[local] Open Scope Z_scope.

(** Lines of a string literal, separated by newlines. *)
Definition sql (lines : list string) : cstr := join newline (lit <$> lines).

(** Literals next to each other. *)
Definition adjacent (literals : list string) : cstr := concat (lit <$> literals).

Definition migration_0001_up : cstr := sql [
  "-- Streams configuration table";
  "CREATE TABLE IF NOT EXISTS streams (";
  "    id INTEGER PRIMARY KEY AUTOINCREMENT,";
  "    name TEXT NOT NULL UNIQUE,";
  "    url TEXT NOT NULL,";
  "    enabled INTEGER DEFAULT 1,";
  "    streaming_enabled INTEGER DEFAULT 1,";
  "    width INTEGER DEFAULT 1280,";
  "    height INTEGER DEFAULT 720,";
  "    fps INTEGER DEFAULT 30,";
  "    codec TEXT DEFAULT 'h264',";
  "    priority INTEGER DEFAULT 5,";
  "    record INTEGER DEFAULT 1,";
  "    segment_duration INTEGER DEFAULT 900";
  ");";
  "";
  "-- Recordings table";
  "CREATE TABLE IF NOT EXISTS recordings (";
  "    id INTEGER PRIMARY KEY AUTOINCREMENT,";
  "    stream_name TEXT NOT NULL,";
  "    file_path TEXT NOT NULL,";
  "    start_time INTEGER NOT NULL,";
  "    end_time INTEGER,";
  "    size_bytes INTEGER DEFAULT 0,";
  "    width INTEGER,";
  "    height INTEGER,";
  "    fps INTEGER,";
  "    codec TEXT,";
  "    is_complete INTEGER DEFAULT 0,";
  "    created_at INTEGER DEFAULT (strftime('%s', 'now'))";
  ");";
  "";
  "-- Events table";
  "CREATE TABLE IF NOT EXISTS events (";
  "    id INTEGER PRIMARY KEY AUTOINCREMENT,";
  "    type INTEGER NOT NULL,";
  "    timestamp INTEGER NOT NULL,";
  "    stream_name TEXT,";
  "    description TEXT NOT NULL,";
  "    details TEXT";
  ");";
  "";
  "-- Create index for efficient queries";
  "CREATE INDEX IF NOT EXISTS idx_recordings_stream_name ON recordings(stream_name);";
  "CREATE INDEX IF NOT EXISTS idx_recordings_start_time ON recordings(start_time);"].

Definition migration_0001_down : cstr := sql [
  "DROP TABLE IF EXISTS events;";
  "DROP INDEX IF EXISTS idx_recordings_start_time;";
  "DROP INDEX IF EXISTS idx_recordings_stream_name;";
  "DROP TABLE IF EXISTS recordings;";
  "DROP TABLE IF EXISTS streams;"].

Definition migration_0002_up : cstr := sql [
  "ALTER TABLE streams ADD COLUMN detection_based_recording INTEGER DEFAULT 0;";
  "ALTER TABLE streams ADD COLUMN detection_model TEXT DEFAULT '';";
  "ALTER TABLE streams ADD COLUMN detection_threshold REAL DEFAULT 0.5;";
  "ALTER TABLE streams ADD COLUMN detection_interval INTEGER DEFAULT 10;";
  "ALTER TABLE streams ADD COLUMN pre_detection_buffer INTEGER DEFAULT 0;";
  "ALTER TABLE streams ADD COLUMN post_detection_buffer INTEGER DEFAULT 3;"].

Definition migration_0002_down : cstr := sql [
  "-- SQLite doesn't support DROP COLUMN before 3.35.0";
  "-- For older versions, we'd need to recreate the table";
  "-- This is a no-op for safety on older SQLite versions";
  "SELECT 1;"].

Definition migration_0003_up : cstr := sql [
  "ALTER TABLE streams ADD COLUMN protocol INTEGER DEFAULT 0;";
  "ALTER TABLE streams ADD COLUMN is_onvif INTEGER DEFAULT 0;"].

Definition migration_0003_down : cstr := sql [
  "SELECT 1;"].

Definition migration_0004_up : cstr := sql [
  "ALTER TABLE streams ADD COLUMN record_audio INTEGER DEFAULT 1;"].

Definition migration_0004_down : cstr := sql [
  "SELECT 1;"].

Definition migration_0005_up : cstr := sql [
  "CREATE TABLE IF NOT EXISTS detections (";
  "    id INTEGER PRIMARY KEY AUTOINCREMENT,";
  "    stream_name TEXT NOT NULL,";
  "    timestamp INTEGER NOT NULL,";
  "    label TEXT NOT NULL,";
  "    confidence REAL NOT NULL,";
  "    x REAL,";
  "    y REAL,";
  "    width REAL,";
  "    height REAL,";
  "    recording_id INTEGER,";
  "    created_at INTEGER DEFAULT (strftime('%s', 'now')),";
  "    FOREIGN KEY (recording_id) REFERENCES recordings(id)";
  ");";
  "";
  "CREATE INDEX IF NOT EXISTS idx_detections_stream ON detections(stream_name);";
  "CREATE INDEX IF NOT EXISTS idx_detections_timestamp ON detections(timestamp);";
  "CREATE INDEX IF NOT EXISTS idx_detections_label ON detections(label);"].

Definition migration_0005_down : cstr := sql [
  "DROP INDEX IF EXISTS idx_detections_label;";
  "DROP INDEX IF EXISTS idx_detections_timestamp;";
  "DROP INDEX IF EXISTS idx_detections_stream;";
  "DROP TABLE IF EXISTS detections;"].

Definition migration_0006_up : cstr := sql [
  "CREATE TABLE IF NOT EXISTS users (";
  "    id INTEGER PRIMARY KEY AUTOINCREMENT,";
  "    username TEXT NOT NULL UNIQUE,";
  "    password_hash TEXT NOT NULL,";
  "    salt TEXT NOT NULL,";
  "    role TEXT NOT NULL,";
  "    email TEXT,";
  "    created_at INTEGER NOT NULL DEFAULT (strftime('%s', 'now')),";
  "    updated_at INTEGER NOT NULL DEFAULT (strftime('%s', 'now')),";
  "    last_login INTEGER,";
  "    is_active INTEGER DEFAULT 1,";
  "    api_key TEXT";
  ");";
  "";
  "-- Create indexes for faster lookups";
  "CREATE UNIQUE INDEX IF NOT EXISTS idx_users_username ON users (username);";
  "CREATE INDEX IF NOT EXISTS idx_users_api_key ON users (api_key);";
  "";
  "-- Create sessions table for token-based authentication";
  "CREATE TABLE IF NOT EXISTS sessions (";
  "    id INTEGER PRIMARY KEY AUTOINCREMENT,";
  "    user_id INTEGER NOT NULL,";
  "    token TEXT NOT NULL UNIQUE,";
  "    created_at INTEGER NOT NULL DEFAULT (strftime('%s', 'now')),";
  "    expires_at INTEGER NOT NULL,";
  "    FOREIGN KEY (user_id) REFERENCES users(id) ON DELETE CASCADE";
  ");";
  "";
  "CREATE INDEX IF NOT EXISTS idx_sessions_token ON sessions (token);";
  "CREATE INDEX IF NOT EXISTS idx_sessions_user_id ON sessions (user_id);"].

Definition migration_0006_down : cstr := sql [
  "DROP TABLE IF EXISTS sessions;";
  "DROP TABLE IF EXISTS users;"].

Definition migration_0007_up : cstr := sql [
  "CREATE TABLE IF NOT EXISTS motion_settings (";
  "    id INTEGER PRIMARY KEY AUTOINCREMENT,";
  "    stream_name TEXT NOT NULL UNIQUE,";
  "    enabled INTEGER DEFAULT 0,";
  "    sensitivity REAL DEFAULT 0.5,";
  "    threshold REAL DEFAULT 0.01,";
  "    cooldown_seconds INTEGER DEFAULT 5,";
  "    min_motion_frames INTEGER DEFAULT 3,";
  "    created_at INTEGER DEFAULT (strftime('%s', 'now')),";
  "    updated_at INTEGER DEFAULT (strftime('%s', 'now'))";
  ");"].

Definition migration_0007_down : cstr := sql [
  "DROP TABLE IF EXISTS motion_settings;"].

Definition migration_0008_up : cstr := sql [
  "CREATE TABLE IF NOT EXISTS detection_zones (";
  "    id TEXT PRIMARY KEY,";
  "    stream_name TEXT NOT NULL,";
  "    name TEXT NOT NULL,";
  "    enabled INTEGER DEFAULT 1,";
  "    color TEXT DEFAULT '#3b82f6',";
  "    polygon TEXT NOT NULL,";
  "    filter_classes TEXT DEFAULT '',";
  "    min_confidence REAL DEFAULT 0.0,";
  "    created_at INTEGER NOT NULL DEFAULT (strftime('%s', 'now')),";
  "    updated_at INTEGER NOT NULL DEFAULT (strftime('%s', 'now')),";
  "    FOREIGN KEY (stream_name) REFERENCES streams(name) ON DELETE CASCADE";
  ");";
  "";
  "CREATE INDEX IF NOT EXISTS idx_zones_stream ON detection_zones(stream_name);"].

Definition migration_0008_down : cstr := sql [
  "DROP INDEX IF EXISTS idx_zones_stream;";
  "DROP TABLE IF EXISTS detection_zones;"].

Definition migration_0009_up : cstr := sql [
  "ALTER TABLE detections ADD COLUMN track_id INTEGER DEFAULT -1;";
  "ALTER TABLE detections ADD COLUMN zone_id TEXT DEFAULT '';"].

Definition migration_0009_down : cstr := sql [
  "SELECT 1;"].

Definition migration_0010_up : cstr := sql [
  "ALTER TABLE recordings ADD COLUMN trigger_type TEXT DEFAULT 'scheduled';"].

Definition migration_0010_down : cstr := sql [
  "SELECT 1;"].

Definition migration_0011_up : cstr := sql [
  "ALTER TABLE streams ADD COLUMN detection_api_url TEXT DEFAULT '';"].

Definition migration_0011_down : cstr := sql [
  "SELECT 1;"].

Definition migration_0012_up : cstr := sql [
  "ALTER TABLE streams ADD COLUMN backchannel_enabled INTEGER DEFAULT 0;"].

Definition migration_0012_down : cstr := sql [
  "SELECT 1;"].

Definition migration_0013_up : cstr := sql [
  "-- Per-stream retention settings";
  "ALTER TABLE streams ADD COLUMN retention_days INTEGER DEFAULT 30;";
  "ALTER TABLE streams ADD COLUMN detection_retention_days INTEGER DEFAULT 90;";
  "ALTER TABLE streams ADD COLUMN max_storage_mb INTEGER DEFAULT 0;";
  "";
  "-- Recording protection";
  "ALTER TABLE recordings ADD COLUMN protected INTEGER DEFAULT 0;";
  "ALTER TABLE recordings ADD COLUMN retention_override_days INTEGER DEFAULT NULL;";
  "";
  "-- Indexes for efficient retention queries";
  "CREATE INDEX IF NOT EXISTS idx_recordings_protected ON recordings(protected);";
  "CREATE INDEX IF NOT EXISTS idx_recordings_trigger_type ON recordings(trigger_type);"].

Definition migration_0013_down : cstr := sql [
  "DROP INDEX IF EXISTS idx_recordings_trigger_type;";
  "DROP INDEX IF EXISTS idx_recordings_protected;";
  "SELECT 1;"].

Definition migration_0014_up : cstr := sql [
  "ALTER TABLE streams ADD COLUMN ptz_enabled INTEGER DEFAULT 0;";
  "ALTER TABLE streams ADD COLUMN ptz_max_x INTEGER DEFAULT 0;";
  "ALTER TABLE streams ADD COLUMN ptz_max_y INTEGER DEFAULT 0;";
  "ALTER TABLE streams ADD COLUMN ptz_max_z INTEGER DEFAULT 0;";
  "ALTER TABLE streams ADD COLUMN ptz_has_home INTEGER DEFAULT 0;"].

Definition migration_0014_down : cstr := sql [
  "SELECT 1;"].

Definition migration_0015_up : cstr := sql [
  "-- Buffer strategy: 'auto', 'none', 'go2rtc', 'hls_segment', 'memory_packet', 'mmap_hybrid'";
  "ALTER TABLE streams ADD COLUMN buffer_strategy TEXT DEFAULT 'auto';"].

Definition migration_0015_down : cstr := sql [
  "SELECT 1;"].

Definition migration_0016_up : cstr := sql [
  "ALTER TABLE streams ADD COLUMN onvif_username TEXT DEFAULT '';";
  "ALTER TABLE streams ADD COLUMN onvif_password TEXT DEFAULT '';";
  "ALTER TABLE streams ADD COLUMN onvif_profile TEXT DEFAULT '';"].

Definition migration_0016_down : cstr := sql [
  "SELECT 1;"].

Definition migration_0017_up : cstr := sql [
  "ALTER TABLE detections ADD COLUMN recording_id INTEGER REFERENCES recordings(id);"].

Definition migration_0017_down : cstr := sql [
  "SELECT 1;"].

Definition migration_0018_up : cstr := sql [
  "-- Add ip_address column for tracking client IP";
  "ALTER TABLE sessions ADD COLUMN ip_address TEXT;";
  "";
  "-- Add user_agent column for tracking client user agent";
  "ALTER TABLE sessions ADD COLUMN user_agent TEXT;"].

Definition migration_0018_down : cstr := sql [
  "-- SQLite doesn't support DROP COLUMN directly, so we need to recreate the table";
  "-- For simplicity in the down migration, we'll just leave the columns";
  "-- (they're nullable, so this won't break anything)"].

Definition migration_0019_up : cstr := sql [
  "-- Add password_change_locked column to users table";
  "-- This allows admins to lock password changes for specific users (e.g., demo accounts)";
  "ALTER TABLE users ADD COLUMN password_change_locked INTEGER DEFAULT 0;"].

Definition migration_0019_down : cstr := sql [
  "-- SQLite doesn't support DROP COLUMN directly, so we need to recreate the table";
  "-- For simplicity in the down migration, we'll just leave the column";
  "-- (it's nullable with a default, so this won't break anything)"].

Definition migration_0020_up : cstr := sql [
  "-- Motion recording configuration table (per-stream settings)";
  "CREATE TABLE IF NOT EXISTS motion_recording_config (";
  "    id INTEGER PRIMARY KEY AUTOINCREMENT,";
  "    stream_name TEXT NOT NULL UNIQUE,";
  "    enabled INTEGER DEFAULT 1,";
  "    pre_buffer_seconds INTEGER DEFAULT 5,";
  "    post_buffer_seconds INTEGER DEFAULT 5,";
  "    max_file_duration INTEGER DEFAULT 300,";
  "    codec TEXT DEFAULT 'h264',";
  "    quality TEXT DEFAULT 'medium',";
  "    retention_days INTEGER DEFAULT 7,";
  "    max_storage_mb INTEGER DEFAULT 0,";
  "    created_at INTEGER NOT NULL,";
  "    updated_at INTEGER NOT NULL,";
  "    FOREIGN KEY (stream_name) REFERENCES streams(name) ON DELETE CASCADE";
  ");";
  "";
  "-- Index for faster lookups";
  "CREATE INDEX IF NOT EXISTS idx_motion_config_stream ON motion_recording_config(stream_name);";
  "";
  "-- Motion recordings table (separate from regular recordings)";
  "CREATE TABLE IF NOT EXISTS motion_recordings (";
  "    id INTEGER PRIMARY KEY AUTOINCREMENT,";
  "    stream_name TEXT NOT NULL,";
  "    file_path TEXT NOT NULL UNIQUE,";
  "    start_time INTEGER NOT NULL,";
  "    end_time INTEGER,";
  "    size_bytes INTEGER DEFAULT 0,";
  "    width INTEGER,";
  "    height INTEGER,";
  "    fps INTEGER,";
  "    codec TEXT,";
  "    is_complete INTEGER DEFAULT 0,";
  "    created_at INTEGER NOT NULL,";
  "    FOREIGN KEY (stream_name) REFERENCES streams(name) ON DELETE CASCADE";
  ");";
  "";
  "-- Indexes for faster queries";
  "CREATE INDEX IF NOT EXISTS idx_motion_recordings_stream ON motion_recordings(stream_name);";
  "CREATE INDEX IF NOT EXISTS idx_motion_recordings_time ON motion_recordings(start_time);";
  "CREATE INDEX IF NOT EXISTS idx_motion_recordings_complete ON motion_recordings(is_complete);"].

Definition migration_0020_down : cstr := sql [
  "DROP INDEX IF EXISTS idx_motion_recordings_complete;";
  "DROP INDEX IF EXISTS idx_motion_recordings_time;";
  "DROP INDEX IF EXISTS idx_motion_recordings_stream;";
  "DROP TABLE IF EXISTS motion_recordings;";
  "DROP INDEX IF EXISTS idx_motion_config_stream;";
  "DROP TABLE IF EXISTS motion_recording_config;"].

Definition migration_0021_up : cstr := sql [
  "ALTER TABLE users ADD COLUMN totp_secret TEXT;";
  "ALTER TABLE users ADD COLUMN totp_enabled INTEGER DEFAULT 0;"].

Definition migration_0021_down : cstr := sql [
  "-- SQLite doesn't support DROP COLUMN in older versions";
  "-- The columns are nullable with safe defaults, so they can remain"].

Definition migration_0022_up : cstr := sql [
  "DROP TABLE IF EXISTS zones;";
  "";
  "CREATE TABLE IF NOT EXISTS detection_zones (";
  "    id TEXT PRIMARY KEY,";
  "    stream_name TEXT NOT NULL,";
  "    name TEXT NOT NULL,";
  "    enabled INTEGER DEFAULT 1,";
  "    color TEXT DEFAULT '#3b82f6',";
  "    polygon TEXT NOT NULL,";
  "    filter_classes TEXT DEFAULT '',";
  "    min_confidence REAL DEFAULT 0.0,";
  "    created_at INTEGER NOT NULL DEFAULT (strftime('%s', 'now')),";
  "    updated_at INTEGER NOT NULL DEFAULT (strftime('%s', 'now')),";
  "    FOREIGN KEY (stream_name) REFERENCES streams(name) ON DELETE CASCADE";
  ");";
  "";
  "CREATE INDEX IF NOT EXISTS idx_detection_zones_stream ON detection_zones(stream_name);"].

Definition migration_0022_down : cstr := sql [
  "DROP INDEX IF EXISTS idx_detection_zones_stream;";
  "DROP TABLE IF EXISTS detection_zones;"].

Definition migration_0023_up : cstr := sql [
  "ALTER TABLE streams ADD COLUMN detection_object_filter TEXT DEFAULT 'none';";
  "ALTER TABLE streams ADD COLUMN detection_object_filter_list TEXT DEFAULT '';"].

Definition migration_0023_down : cstr := sql [
  "-- SQLite doesn't support DROP COLUMN in older versions";
  "-- These columns will just be ignored if not used"].

Definition migration_0024_up : cstr := sql [
  "-- Tiered retention columns on recordings";
  "ALTER TABLE recordings ADD COLUMN retention_tier INTEGER DEFAULT 2;";
  "ALTER TABLE recordings ADD COLUMN disk_pressure_eligible INTEGER DEFAULT 1;";
  "";
  "-- Tier multipliers and storage priority on streams";
  "ALTER TABLE streams ADD COLUMN tier_critical_multiplier REAL DEFAULT 3.0;";
  "ALTER TABLE streams ADD COLUMN tier_important_multiplier REAL DEFAULT 2.0;";
  "ALTER TABLE streams ADD COLUMN tier_ephemeral_multiplier REAL DEFAULT 0.25;";
  "ALTER TABLE streams ADD COLUMN storage_priority INTEGER DEFAULT 5;";
  "";
  "-- Daily storage statistics table for analytics";
  "CREATE TABLE IF NOT EXISTS storage_daily_stats (";
  "    id INTEGER PRIMARY KEY AUTOINCREMENT,";
  "    date TEXT NOT NULL,";
  "    stream_name TEXT NOT NULL,";
  "    tier INTEGER NOT NULL DEFAULT 2,";
  "    recording_count INTEGER NOT NULL DEFAULT 0,";
  "    total_bytes INTEGER NOT NULL DEFAULT 0,";
  "    deleted_count INTEGER NOT NULL DEFAULT 0,";
  "    deleted_bytes INTEGER NOT NULL DEFAULT 0,";
  "    created_at TIMESTAMP DEFAULT CURRENT_TIMESTAMP";
  ");";
  "";
  "-- Indexes for efficient queries on daily stats";
  "CREATE INDEX IF NOT EXISTS idx_storage_daily_stats_stream_date ON storage_daily_stats(stream_name, date);";
  "CREATE INDEX IF NOT EXISTS idx_storage_daily_stats_date_tier ON storage_daily_stats(date, tier);";
  "";
  "-- Index for tier-based retention queries";
  "CREATE INDEX IF NOT EXISTS idx_recordings_retention_tier ON recordings(retention_tier);";
  "CREATE INDEX IF NOT EXISTS idx_recordings_disk_pressure ON recordings(disk_pressure_eligible);"].

Definition migration_0024_down : cstr := sql [
  "DROP INDEX IF EXISTS idx_recordings_disk_pressure;";
  "DROP INDEX IF EXISTS idx_recordings_retention_tier;";
  "DROP INDEX IF EXISTS idx_storage_daily_stats_date_tier;";
  "DROP INDEX IF EXISTS idx_storage_daily_stats_stream_date;";
  "DROP TABLE IF EXISTS storage_daily_stats;";
  "SELECT 1;"].

Definition migration_0025_up : cstr := sql [
  "-- Detection performance indexes (new)";
  "CREATE INDEX IF NOT EXISTS idx_detections_recording_id ON detections(recording_id);";
  "";
  "-- Indexes previously only in db_core.c (never migrated)";
  "CREATE INDEX IF NOT EXISTS idx_events_timestamp ON events(timestamp);";
  "CREATE INDEX IF NOT EXISTS idx_events_type ON events(type);";
  "CREATE INDEX IF NOT EXISTS idx_events_stream ON events(stream_name);";
  "CREATE INDEX IF NOT EXISTS idx_recordings_end_time ON recordings(end_time);";
  "CREATE INDEX IF NOT EXISTS idx_recordings_complete_stream_start ON recordings(is_complete, stream_name, start_time);";
  "CREATE INDEX IF NOT EXISTS idx_streams_name ON streams(name);";
  "CREATE INDEX IF NOT EXISTS idx_detections_stream_timestamp ON detections(stream_name, timestamp);"].

Definition migration_0025_down : cstr := sql [
  "DROP INDEX IF EXISTS idx_detections_stream_timestamp;";
  "DROP INDEX IF EXISTS idx_streams_name;";
  "DROP INDEX IF EXISTS idx_recordings_complete_stream_start;";
  "DROP INDEX IF EXISTS idx_recordings_end_time;";
  "DROP INDEX IF EXISTS idx_events_stream;";
  "DROP INDEX IF EXISTS idx_events_type;";
  "DROP INDEX IF EXISTS idx_events_timestamp;";
  "DROP INDEX IF EXISTS idx_detections_recording_id;"].

Definition migration_0026_up : cstr := sql [
  "ALTER TABLE streams ADD COLUMN record_on_schedule INTEGER NOT NULL DEFAULT 0;";
  "ALTER TABLE streams ADD COLUMN recording_schedule TEXT DEFAULT NULL;"].

Definition migration_0026_down : cstr := sql [
  "SELECT 1;"].

Definition migration_0027_up : cstr := sql [
  "ALTER TABLE streams ADD COLUMN group_name TEXT NOT NULL DEFAULT '';"].

Definition migration_0027_down : cstr := sql [
  "SELECT 1;"].

Definition migration_0028_up : cstr := adjacent [
  "ALTER TABLE streams ADD COLUMN tags TEXT NOT NULL DEFAULT '';";
  "UPDATE streams SET tags = group_name WHERE (tags = '' OR tags IS NULL) AND group_name IS NOT NULL AND group_name != '';";
  "ALTER TABLE streams DROP COLUMN group_name;"].

Definition migration_0028_down : cstr := adjacent [
  "ALTER TABLE streams ADD COLUMN group_name TEXT NOT NULL DEFAULT '';";
  "UPDATE streams SET group_name = CASE WHEN instr(tags, ',') > 0 THEN substr(tags, 1, instr(tags, ',') - 1) ELSE tags END WHERE tags != '';";
  "ALTER TABLE streams DROP COLUMN tags;"].

Definition migration_0029_up : cstr := sql [
  "ALTER TABLE users ADD COLUMN allowed_tags TEXT DEFAULT NULL;"].

Definition migration_0029_down : cstr := sql [
  "SELECT 1;"].

Definition migration_0030_up : cstr := sql [
  "CREATE TABLE IF NOT EXISTS system_settings (";
  "    key   TEXT PRIMARY KEY,";
  "    value TEXT NOT NULL DEFAULT '',";
  "    updated_at INTEGER NOT NULL DEFAULT (strftime('%s', 'now'))";
  ");";
  "INSERT OR IGNORE INTO system_settings (key, value) VALUES ('setup_complete', '0');"].

Definition migration_0030_down : cstr := sql [
  "DROP TABLE IF EXISTS system_settings;"].

Definition migration_0031_up : cstr := sql [
  "ALTER TABLE streams ADD COLUMN onvif_port INTEGER DEFAULT 0;"].

Definition migration_0031_down : cstr := sql [
  "SELECT 1;"].

Definition migration_0032_up : cstr := sql [
  "CREATE TABLE IF NOT EXISTS recording_tags (";
  "    id INTEGER PRIMARY KEY AUTOINCREMENT,";
  "    recording_id INTEGER NOT NULL,";
  "    tag TEXT NOT NULL,";
  "    created_at INTEGER DEFAULT (strftime('%s', 'now')),";
  "    FOREIGN KEY (recording_id) REFERENCES recordings(id) ON DELETE CASCADE";
  ");";
  "";
  "CREATE UNIQUE INDEX IF NOT EXISTS idx_recording_tags_unique ON recording_tags(recording_id, tag);";
  "CREATE INDEX IF NOT EXISTS idx_recording_tags_tag ON recording_tags(tag);";
  "CREATE INDEX IF NOT EXISTS idx_recording_tags_recording ON recording_tags(recording_id);"].

Definition migration_0032_down : cstr := sql [
  "DROP INDEX IF EXISTS idx_recording_tags_recording;";
  "DROP INDEX IF EXISTS idx_recording_tags_tag;";
  "DROP INDEX IF EXISTS idx_recording_tags_unique;";
  "DROP TABLE IF EXISTS recording_tags;"].

Definition migration_0033_up : cstr := sql [
  "DELETE FROM streams WHERE TRIM(name) = '' OR name IS NULL;"].

Definition migration_0033_down : cstr := sql [
  "SELECT 1;"].

Definition migration_0034_up : cstr := sql [
  "UPDATE streams";
  "   SET url = substr(url, 1, instr(url, '://') + 2) ||";
  "             substr(substr(url, instr(url, '://') + 3),";
  "                    instr(substr(url, instr(url, '://') + 3), '@') + 1),";
  "       onvif_username = CASE";
  "           WHEN COALESCE(onvif_username, '') = '' THEN";
  "               CASE";
  "                   WHEN instr(substr(substr(url, instr(url, '://') + 3),";
  "                                     1,";
  "                                     instr(substr(url, instr(url, '://') + 3), '@') - 1),";
  "                              ':') > 0 THEN";
  "                       substr(substr(substr(url, instr(url, '://') + 3),";
  "                                           1,";
  "                                           instr(substr(url, instr(url, '://') + 3), '@') - 1),";
  "                              1,";
  "                              instr(substr(substr(url, instr(url, '://') + 3),";
  "                                                  1,";
  "                                                  instr(substr(url, instr(url, '://') + 3), '@') - 1),";
  "                                     ':') - 1)";
  "                   ELSE";
  "                       substr(substr(url, instr(url, '://') + 3),";
  "                              1,";
  "                              instr(substr(url, instr(url, '://') + 3), '@') - 1)";
  "               END";
  "           ELSE onvif_username";
  "       END,";
  "       onvif_password = CASE";
  "           WHEN COALESCE(onvif_password, '') = '' THEN";
  "               CASE";
  "                   WHEN instr(substr(substr(url, instr(url, '://') + 3),";
  "                                     1,";
  "                                     instr(substr(url, instr(url, '://') + 3), '@') - 1),";
  "                              ':') > 0 THEN";
  "                       substr(substr(substr(url, instr(url, '://') + 3),";
  "                                           1,";
  "                                           instr(substr(url, instr(url, '://') + 3), '@') - 1),";
  "                              instr(substr(substr(url, instr(url, '://') + 3),";
  "                                                  1,";
  "                                                  instr(substr(url, instr(url, '://') + 3), '@') - 1),";
  "                                     ':') + 1)";
  "                   ELSE ''";
  "               END";
  "           ELSE onvif_password";
  "       END";
  " WHERE instr(url, '://') > 0";
  "   AND instr(substr(url, instr(url, '://') + 3), '@') > 0";
  "   AND (";
  "        is_onvif = 1 OR";
  "        COALESCE(onvif_profile, '') != '' OR";
  "        COALESCE(onvif_username, '') != '' OR";
  "        COALESCE(onvif_password, '') != '' OR";
  "        COALESCE(onvif_port, 0) > 0";
  "   );"].

Definition migration_0034_down : cstr := sql [
  "SELECT 1;"].

Definition migration_0035_up : cstr := sql [
  "ALTER TABLE sessions ADD COLUMN last_activity_at INTEGER;";
  "UPDATE sessions";
  "   SET last_activity_at = COALESCE(last_activity_at, created_at, strftime('%s', 'now'));";
  "ALTER TABLE sessions ADD COLUMN idle_expires_at INTEGER;";
  "UPDATE sessions";
  "   SET idle_expires_at = COALESCE(idle_expires_at, expires_at, strftime('%s', 'now'));";
  "CREATE INDEX IF NOT EXISTS idx_sessions_user_last_activity";
  "    ON sessions(user_id, last_activity_at DESC);";
  "CREATE TABLE IF NOT EXISTS trusted_devices (";
  "    id INTEGER PRIMARY KEY AUTOINCREMENT,";
  "    user_id INTEGER NOT NULL,";
  "    token TEXT NOT NULL UNIQUE,";
  "    ip_address TEXT,";
  "    user_agent TEXT,";
  "    created_at INTEGER NOT NULL DEFAULT (strftime('%s', 'now')),";
  "    last_used_at INTEGER,";
  "    expires_at INTEGER NOT NULL,";
  "    FOREIGN KEY (user_id) REFERENCES users(id) ON DELETE CASCADE";
  ");";
  "CREATE INDEX IF NOT EXISTS idx_trusted_devices_user_id ON trusted_devices(user_id);";
  "CREATE INDEX IF NOT EXISTS idx_trusted_devices_token ON trusted_devices(token);";
  "CREATE INDEX IF NOT EXISTS idx_trusted_devices_expires_at ON trusted_devices(expires_at);"].

Definition migration_0035_down : cstr := sql [
  "DROP INDEX IF EXISTS idx_trusted_devices_expires_at;";
  "DROP INDEX IF EXISTS idx_trusted_devices_token;";
  "DROP INDEX IF EXISTS idx_trusted_devices_user_id;";
  "DROP TABLE IF EXISTS trusted_devices;";
  "DROP INDEX IF EXISTS idx_sessions_user_last_activity;"].

Definition migration_0036_up : cstr := sql [
  "ALTER TABLE streams ADD COLUMN admin_url TEXT DEFAULT '';"].

Definition migration_0036_down : cstr := sql [
  "SELECT 1;"].

Definition migration_0037_up : cstr := sql [
  "ALTER TABLE users ADD COLUMN allowed_login_cidrs TEXT DEFAULT NULL;"].

Definition migration_0037_down : cstr := sql [
  "SELECT 1;"].

Definition migration_0038_up : cstr := sql [
  "ALTER TABLE streams ADD COLUMN privacy_mode INTEGER DEFAULT 0;"].

Definition migration_0038_down : cstr := sql [
  "SELECT 1;"].

Definition migration_0039_up : cstr := sql [
  "ALTER TABLE streams ADD COLUMN motion_trigger_source TEXT DEFAULT '';"].

Definition migration_0039_down : cstr := sql [
  "SELECT 1;"].

Definition migration_0040_up : cstr := sql [
  "ALTER TABLE streams ADD COLUMN go2rtc_source_override TEXT DEFAULT '';";
  "ALTER TABLE streams ADD COLUMN sub_stream_url TEXT DEFAULT '';"].

Definition migration_0040_down : cstr := sql [
  "SELECT 1;"].

Definition migration_0041_up : cstr := sql [
  "ALTER TABLE streams ADD COLUMN audio_voice_enhancement INTEGER DEFAULT 0;"].

Definition migration_0041_down : cstr := sql [
  "SELECT 1;"].

Definition migration_0042_up : cstr := sql [
  "ALTER TABLE streams ADD COLUMN detection_url TEXT DEFAULT '';"].

Definition migration_0042_down : cstr := sql [
  "SELECT 1;"].

Definition embedded (version description : string) (up down : cstr) : migration_t :=
  mkMigration (lit version) (lit description) [] (Some up) (Some down) MIGRATE_STATUS_PENDING true.

Definition embedded_migrations_data : list migration_t := [
  embedded "0001" "initial_schema" migration_0001_up migration_0001_down;
  embedded "0002" "add_detection_columns" migration_0002_up migration_0002_down;
  embedded "0003" "add_protocol_onvif" migration_0003_up migration_0003_down;
  embedded "0004" "add_record_audio" migration_0004_up migration_0004_down;
  embedded "0005" "add_detections_table" migration_0005_up migration_0005_down;
  embedded "0006" "add_users_table" migration_0006_up migration_0006_down;
  embedded "0007" "add_motion_settings" migration_0007_up migration_0007_down;
  embedded "0008" "add_zones_table" migration_0008_up migration_0008_down;
  embedded "0009" "add_detection_tracking" migration_0009_up migration_0009_down;
  embedded "0010" "add_trigger_type" migration_0010_up migration_0010_down;
  embedded "0011" "add_detection_api_url" migration_0011_up migration_0011_down;
  embedded "0012" "add_backchannel" migration_0012_up migration_0012_down;
  embedded "0013" "add_retention_policy" migration_0013_up migration_0013_down;
  embedded "0014" "add_ptz_support" migration_0014_up migration_0014_down;
  embedded "0015" "add_buffer_strategy" migration_0015_up migration_0015_down;
  embedded "0016" "add_onvif_credentials" migration_0016_up migration_0016_down;
  embedded "0017" "add_recording_id_to_detections" migration_0017_up migration_0017_down;
  embedded "0018" "add_session_tracking" migration_0018_up migration_0018_down;
  embedded "0019" "add_password_change_locked" migration_0019_up migration_0019_down;
  embedded "0020" "add_motion_recording_config" migration_0020_up migration_0020_down;
  embedded "0021" "add_totp_mfa" migration_0021_up migration_0021_down;
  embedded "0022" "fix_detection_zones_table" migration_0022_up migration_0022_down;
  embedded "0023" "add_detection_object_filters" migration_0023_up migration_0023_down;
  embedded "0024" "enhanced_storage_management" migration_0024_up migration_0024_down;
  embedded "0025" "add_detection_performance_indexes" migration_0025_up migration_0025_down;
  embedded "0026" "add_recording_schedule" migration_0026_up migration_0026_down;
  embedded "0027" "add_stream_group" migration_0027_up migration_0027_down;
  embedded "0028" "add_stream_tags" migration_0028_up migration_0028_down;
  embedded "0029" "add_user_allowed_tags" migration_0029_up migration_0029_down;
  embedded "0030" "add_system_settings" migration_0030_up migration_0030_down;
  embedded "0031" "add_onvif_port" migration_0031_up migration_0031_down;
  embedded "0032" "add_recording_tags" migration_0032_up migration_0032_down;
  embedded "0033" "cleanup_blank_stream_names" migration_0033_up migration_0033_down;
  embedded "0034" "repair_onvif_embedded_credentials" migration_0034_up migration_0034_down;
  embedded "0035" "modernize_auth_sessions" migration_0035_up migration_0035_down;
  embedded "0036" "add_stream_admin_url" migration_0036_up migration_0036_down;
  embedded "0037" "add_user_allowed_login_cidrs" migration_0037_up migration_0037_down;
  embedded "0038" "add_privacy_mode" migration_0038_up migration_0038_down;
  embedded "0039" "add_motion_trigger_source" migration_0039_up migration_0039_down;
  embedded "0040" "add_go2rtc_source_override_and_sub_stream_url" migration_0040_up migration_0040_down;
  embedded "0041" "add_audio_voice_enhancement" migration_0041_up migration_0041_down;
  embedded "0042" "add_detection_url" migration_0042_up migration_0042_down].

(** ** What the runner relies on *)

Definition sound_text (text : cstr) : bool :=
  negb (empty text) && validate_migration_sql text && forallb plain (statements text).

Definition sound_migration (m : migration_t) : bool :=
  (length m.(version) =? 4)%nat && forallb isdigit m.(version)
  && match m.(sql_up), m.(sql_down) with
     | Some up, Some down => sound_text up && sound_text down && negb (empty (concat (statements up)))
     | _, _ => false
     end.

Lemma embedded_sound_check :
  (length embedded_migrations_data =? 42)%nat && forallb sound_migration embedded_migrations_data
  && forallb (λ p, strcmp p.1 p.2 <? 0)
       (zip (map version embedded_migrations_data) (drop 1 (map version embedded_migrations_data))) = true.
Proof. vm_compute. reflexivity. Qed.

Lemma strcmp_swap s t : strcmp s t < 0 → 0 < strcmp t s.
Proof.
  revert t. induction s as [|c s IH]; intros [|d t]; cbn; try lia.
  case_bool_decide as Hcd; [subst d; rewrite bool_decide_eq_true_2 by done; apply IH|].
  rewrite bool_decide_eq_false_2 by done. lia.
Qed.

(** What is checked of neighbours holds of all pairs. *)
Lemma strictly_sorted (l : list cstr) :
  forallb (λ p, strcmp p.1 p.2 <? 0) (zip l (drop 1 l)) = true → StronglySorted (λ s t, strcmp s t < 0) l.
Proof.
  intros H. apply Sorted_StronglySorted.
  - intros x y z Hxy Hyz. assert (strcmp x z ≤ 0) as Hle.
    { apply Z.leb_le. rewrite strcmp_le. apply (lex_le_trans _ (byte_Z <$> y)); rewrite <- strcmp_le; lia. }
    destruct (decide (strcmp x z = 0)) as [->%strcmp_eq|]; [|lia].
    pose proof (strcmp_swap z y Hxy). lia.
  - induction l as [|x l IH]; [constructor|]. constructor.
    + apply IH. destruct l as [|y l]; [done|]. cbn in H. by apply andb_true_iff in H as [_ H].
    + destruct l as [|y l]; constructor. cbn in H. apply andb_true_iff in H as [H _]. lia.
Qed.

Lemma sound_text_spec text :
  sound_text text = true →
  text ≠ [] ∧ validate_migration_sql text = true ∧ Forall (λ s, plain s = true) (statements text).
Proof.
  unfold sound_text. intros [[H1 H2]%andb_true_iff H3]%andb_true_iff. split_and!; [by intros ->|done|].
  apply Forall_forall. intros s Hs. rewrite forallb_forall in H3. by apply H3, list_elem_of_In.
Qed.

(** the embedded migrations are 42, in strictly increasing order, which is that of
    their numbers; every text is there, passes the allow-list, and is cut into
    statements as SQLite would; the legacy versions are the first 19. *)
Theorem embedded_migrations_sound :
  length embedded_migrations_data = 42%nat ∧
  StronglySorted (λ s t, strcmp s t < 0) (map version embedded_migrations_data) ∧
  StronglySorted (λ s t, number s <= number t) (map version embedded_migrations_data) ∧
  Forall (λ m, ∃ up down,
    m.(sql_up) = Some up ∧ m.(sql_down) = Some down ∧
    (up ≠ [] ∧ validate_migration_sql up = true ∧ Forall (λ s, plain s = true) (statements up)) ∧
    (down ≠ [] ∧ validate_migration_sql down = true ∧ Forall (λ s, plain s = true) (statements down)))
    embedded_migrations_data ∧
  omap id LEGACY_VERSION_MAP = take 19 (map version embedded_migrations_data).
Proof.
  pose proof embedded_sound_check as [[Hl%Nat.eqb_eq Hs]%andb_true_iff Ho%strictly_sorted]%andb_true_iff.
  rewrite forallb_forall in Hs. split_and!; [done..| | |vm_compute; reflexivity].
  - assert (Forall (λ v, length v = 4%nat ∧ forallb isdigit v = true) (map version embedded_migrations_data)) as Hd.
    { apply Forall_map, Forall_forall. intros m Hm%list_elem_of_In%Hs. unfold sound_migration in Hm.
      apply andb_true_iff in Hm as [[?%Nat.eqb_eq ?]%andb_true_iff _]. done. }
    clear -Ho Hd. induction Ho as [|v vs Hvs IH Hv]; [constructor|].
    apply Forall_cons in Hd as [[H1 H2] Hd]. constructor; [by apply IH|].
    rewrite Forall_forall in Hv, Hd |- *. intros w Hw. destruct (Hd w Hw) as [H3 H4].
    apply strcmp_numbers; [done..|congruence|]. specialize (Hv w Hw). lia.
  - apply Forall_forall. intros m Hm%list_elem_of_In%Hs. unfold sound_migration in Hm.
    apply andb_true_iff in Hm as [_ Hm].
    destruct (sql_up m) as [up|]; [|done]. destruct (sql_down m) as [down|]; [|done].
    apply andb_true_iff in Hm as [[Hu Hd]%andb_true_iff _]. exists up, down.
    do 2 (split; [done|]). split; by apply sound_text_spec.
Qed.

(** ** The run of the program without a directory *)

Section Program.
Context `{Transactions} `{Memory} `{MigrationFiles} `{QsortLaws}.

Lemma embed_plain config cfg db m :
  m ∈ embedded_migrations_data → plain_section config (embed cfg db m) (lit "up") m.(sql_up).
Proof.
  intros Hm%list_elem_of_In. pose proof embedded_sound_check as [[_ Hs]%andb_true_iff _]%andb_true_iff.
  rewrite forallb_forall in Hs. apply Hs in Hm. unfold sound_migration in Hm.
  apply andb_true_iff in Hm as [_ Hm]. destruct (sql_up m) as [up|] eqn:Eu; [|done].
  destruct (sql_down m) as [down|]; [|done]. apply andb_true_iff in Hm as [[Hu _]%andb_true_iff _].
  intros sql [= <-]. by apply sound_text_spec.
Qed.

Lemma embedded_only cfg db db1 ctx :
  cfg.(migrations_dir) = None → migrate_init db cfg = (db1, Some ctx) →
  ctx.(config) = cfg ∧ ctx.(migrations) ≡ₚ map (embed cfg db1) cfg.(embedded_migrations).
Proof.
  intros Hdir. unfold migrate_init. case_match; [done|]. destruct (create_migrations_table cfg db) as [db' r].
  case_match; [done|]. unfold scan_migrations_dir. rewrite Hdir. cbn [mbind option_bind].
  unfold add_embedded_migrations.
  assert (List.filter (λ src, negb (already_exists [] src)) cfg.(embedded_migrations) = cfg.(embedded_migrations)) as ->.
  { induction (embedded_migrations cfg) as [|m ms IH]; [done|]. simpl in *. by rewrite IH. }
  destruct (length (embedded_migrations cfg) =? 0)%nat eqn:E0.
  - apply Nat.eqb_eq, nil_length_inv in E0 as ->. by intros [= <- <-].
  - case_match; [done|]. intros [= <- <-]. split; [done|]. cbn. apply qsort_perm.
Qed.

(** Without a directory the run applies the migrations of the program: with no
    assumption on their text, since it has been checked, the run refines the abstract
    upgrade, and when it returns 0 all 42 are applied. *)
Theorem program_migrations_upgrade (cfg : migrate_config_t) (db db1 : sqlite3) (ctx : sqlite_migrate_t)
  (Hconfig : cfg.(migrations_dir) = None ∧ cfg.(embedded_migrations) = embedded_migrations_data ∧
             table_name cfg = DEFAULT_MIGRATIONS_TABLE ∧ cfg.(dry_run) = false)
  (Hcommits : commits)
  (Hidle : in_transaction db = false)
  (Hinit : migrate_init db cfg = (db1, Some ctx)) :
  let '(db2, ctx2, stats, told, r) := migrate_up db1 ctx in
  in_transaction db2 = false ∧
  ∃ k, done_up_to cfg k ctx.(migrations) ctx2.(migrations) (with_table (committed db)) (committed db2) r ∧
       stats = mkStats 42 (Z.of_nat k) (- r) (- r) ∧ (r = 0 → k = 42%nat).
Proof.
  destruct Hconfig as (Hdir & Hemb & Ht & Hd).
  destruct (embedded_only _ _ _ _ Hdir Hinit) as [<- Hperm].
  destruct (migrate_init_stored _ _ _ _ Ht Hidle Hinit) as [Hst Hi1].
  assert (length (migrations ctx) = 42%nat) as Hlen by (rewrite Hperm, Hemb, length_map; reflexivity).
  assert (plain_migrations ctx.(config) ctx.(migrations)) as Hp.
  { unfold plain_migrations. rewrite Hperm, Hemb. apply Forall_forall.
    intros m (src & <- & Hsrc)%list_elem_of_In%in_map_iff. 
    exact (embed_plain _ _ _ src (proj2 (list_elem_of_In _ _) Hsrc)). }
  pose proof (migrate_up_done db1 ctx Ht Hd Hcommits Hp Hi1) as Hup.
  destruct (migrate_up db1 ctx) as [[[[db2 ctx2] stats] told] r]. destruct Hup as (_ & Hi2 & k & Hk & ->).
  rewrite Hst, Hlen in *. split; [done|]. exists k. split_and!; [done..|]. intros ->.
  destruct Hk as (_ & _ & _ & _ & [[_ ->]|[? _]]); [done|lia].
Qed.

End Program.

Definition program_config : migrate_config_t :=
  mkConfig None (Some (lit "schema_migrations")) embedded_migrations_data true false.

Definition program_init : toy_db * option sqlite_migrate_t :=
  @migrate_init toy toy_memory toy_files merge_qsort toy_start program_config.
Definition program_context : sqlite_migrate_t := default (mkContext program_config []) (snd program_init).

Lemma program_migrations_upgrade_witness :
  let '(db2, ctx2, stats, told, r) := @migrate_up toy toy_memory toy_files toy_start program_context in
  toy_open db2 = false ∧
  ∃ k, @done_up_to toy toy_transactions toy_memory toy_files program_config k program_context.(migrations) ctx2.(migrations)
         toy_start.(stored) db2.(stored) r ∧
       stats = mkStats 42 (Z.of_nat k) (- r) (- r) ∧ (r = 0 → k = 42%nat).
Proof.
  refine (@program_migrations_upgrade toy toy_transactions toy_memory toy_files merge_qsort merge_qsort_laws
            program_config toy_start toy_start program_context _ _ _ _).
  - split_and!; vm_compute; reflexivity.
  - exact toy_commits.
  - reflexivity.
  - vm_compute. reflexivity.
Defined.

Example program_runs :
  (@migrate_up toy toy_memory toy_files toy_start program_context).2 = 0.
Proof. vm_compute. reflexivity. Qed.
